(* ===== verification/_CoqProject ===== *)
-Q . S2P
Prelude.v
Utf8.v
Str.v
Cbor.v
CborCodec.v
CborValue.v
TextMap.v
Keys.v
Envelope.v
Device.v
Qr.v
Profile.v
PublicLayer.v
Payload.v
Direct.v
Handshake.v
Discovery.v
Records.v
Verse.v
VerseMessages.v
SignedRecords.v
Keystore.v
Containers.v
Replay.v
Reputation.v
NetTables.v
SideStore.v
SideState.v
SideFacts.v
Session.v
Connection.v
Storage.v
StorageProtocol.v
Node.v
NodeFacts.v
DirectServer.v
Host.v
DirectFacts.v
VerseHost.v
VerseFacts.v
Replies.v
Migrations.v
ReplayJournal.v
Inbox.v
Client.v
Limiter.v
Transport.v
Dialing.v
Address.v
Sas.v
Features.v
System.v
SystemFacts.v
Pushes.v
Reachable.v
Lives.v
Telemetry.v
TextMessage.v
Ffi.v
FfiFacts.v
Jni.v
Machine.v
Cli.v
CliFacts.v
CliNode.v
CliNodeFacts.v
Desktop.v
DesktopFacts.v
Frontends.v
Shell.v
Commands.v
ShellFacts.v
MediaFacts.v
