(* ===== verification/Prelude.v ===== *)
(** * The Sidevers protocol reference node: verification development

    The program is the Rust workspace of the repository.  This library
    models its protocol core: the canonical wire format, the signed envelope
    and the messages it carries, the handshake, the tables that defend a node
    against replay and abuse, the object store, the persistent state of a
    side and of the verses a node hosts, and the node's gates with its four
    servers: storage, gossip, direct and verse; and the programs on top of it:
    the C interface, the JNI bridge, the command line, the daemon and the
    desktop application.

    ** Parts and files

    Every file opens with a comment on what it holds.  In the paths below,
    [core], [net] and [storage] are [src/crates/sidevers-core/src],
    [src/crates/sidevers-net/src] and [src/crates/sidevers-storage/src].

    Foundations
    - [Prelude]: bytes, machine-integer bounds, [Error] ([core/error.rs]),
      the result notation, list and option lemmas, the automation and its
      hint databases.
    - [Utf8]: the validity check of [from_utf8]; [Str]: what the program uses
      of [str]: [trim], [contains], [from_utf8_lossy] and the like.
    - [Containers]: [HashMap] iteration ([HashIter], an order about which only
      a permutation law is known) and [Iterator::min_by_key].

    The wire format
    - [Cbor]: [CborWriter], [encode_map], [CborReader] ([core/cbor.rs]).  The
      reader is a state monad with failure over the cursor.
    - [CborCodec]: the class [Codec enc dec wf], the interface between the
      format and every message: the reader [dec] accepts exactly the
      encodings [enc a] of the values with [wf a].
    - [CborValue]: the abstract specification: CBOR values, their canonical
      encoding, and that each encoder of a message refines it; [skip_value].
    - [TextMap]: maps with text keys ([BTreeMap<String, V>]).

    Identities and messages
    - [Keys] ([core/keys.rs]), [Envelope] ([core/envelope.rs]), [Payload]
      ([core/payload.rs]).
    - [Direct], [Handshake], [Discovery] ([core/messages]): one Module per
      payload, its record, [to_payload_bytes] and [from_payload_bytes].
    - [Records]: linkage proofs and side retirements; [Verse]: contracts,
      membership tokens and amendments ([core/verse.rs]).
    - [Device] (pairing requests, state bundles, revocations and deltas) and
      [Qr] (contact, group and pairing codes), both of
      [core/messages/device.rs]; [Profile] ([profile.rs] and
      [storage_prefs.rs]); [PublicLayer] ([public.rs]); [VerseMessages]
      ([messages/verse.rs]).
    - [Address] ([core/address.rs]), [Sas] ([core/sas.rs], [log_id.rs]),
      [Features] ([core/features.rs]).
    - [SignedRecords]: the eighteen kinds of signed record in one type.
    - [Keystore] ([core/keystore.rs]): seeds sealed under a passphrase.

    State of a node
    - [Replay] ([core/replay.rs]), [Reputation] ([net/reputation.rs]),
      [NetTables] ([net/peers.rs], [gossip.rs], [forward.rs],
      [provenance.rs], [relationships.rs]): one state record and one function
      per method.
    - [ReplayJournal] ([net/replay_journal.rs] and the start of a node from
      it), [Inbox] ([net/inbox_store.rs]): tables and their statements.
    - [Limiter] ([net/handshake_limit.rs]): the token bucket of each address,
      on IEEE doubles.
    - [Storage] ([storage/reference.rs], [object.rs], [chunking.rs]).
    - [SideStore] ([net/side_store.rs], the records of [relationships.rs]):
      the rows of the tables and the statements on them; [Migrations]: its
      schemas as versions, and the opening of a database.  [SideState]
      ([net/side.rs]): a hosted side in memory, its mutators with their
      write-through, loading, and deltas.  [SideFacts]: their theorems, over
      histories of operations and restarts.

    Connections and the node
    - [Session] ([net/framing.rs], [session.rs] and the steps of
      [handshake.rs]), [Connection] (the two handshake programs on their
      streams), [StorageProtocol] ([net/storage_protocol.rs]).
    - [Node] ([net/node.rs], [metrics.rs], [gossip_policy.rs]): the gates,
      [serve_storage], [serve_gossip], [fetch_object].  [NodeFacts]: its
      theorems, among them those over all interleavings of the sessions.
    - [DirectServer]: [serve_direct] and its clients; [Host]: a node that
      hosts several sides, the pairing of a device on both ends, pushes to
      co-holders, revocation and retirement (all of [net/node.rs]).
      [DirectFacts]: their theorems, among them runs of two nodes.
    - [VerseHost] ([net/verse.rs], [verse_post_store.rs], [serve_verse] and
      the member clients of [node.rs]); [VerseFacts]: its theorems.
    - [Replies]: what the four servers write back.
    - [Client]: the gossip and storage clients of [net/node.rs], run against
      the servers of [Node].
    - [Transport] ([net/connection_pool.rs], [hole_punch.rs], [cert.rs] and the
      text of [metrics.rs]); [Dialing]: the dialling functions and the accept
      path of [net/node.rs].
    - [Telemetry] ([net/telemetry.rs]): the channel of the adoption events, and
      when a node fires them.
    - [System]: the whole node.  [System.System] holds every table, the
      servers of its connections and the guards of those that ended;
      [System.step] is one round of a server's loop, a new or ended
      connection, a guard's task or a call of the owner.
      [SystemFacts], [Pushes] and [Reachable] hold its theorems: over runs,
      and as invariants of the states a node can reach.  [Lives] adds process
      restarts, and shows that every step acts on the side as a list of the
      operations of [SideState].

    Programs
    - [Ffi] ([src/crates/sidevers-ffi/src]): the functions exported to C, on an
      explicit memory; [FfiFacts]: its theorems.  [Jni]
      ([src/mobile/android/sidevers-jni/src/lib.rs]): the bridge, over a class
      for the jni crate.  [TextMessage]: the payload of a text, which they share.
    - [Machine]: files with their modes, what the system makes of a write, and
      programs as state passing with failure and panic; the command line and
      the desktop are such programs, over a state of their own.
    - [Cli] ([src/crates/sidevers-cli/src/cli.rs]): arguments, files, databases
      and printed lines; [CliNode]: the commands that run a transient node, and
      the daemon ([src/crates/sidevers-node/src/main.rs]).  [CliFacts],
      [CliNodeFacts]: their theorems.
    - [Desktop], [Shell], [Commands] ([src/desktop/tauri/src/main.rs]): what
      needs no node; the managed state, the life cycle of the node and its
      drain tasks; the commands on a running node.  [DesktopFacts],
      [ShellFacts] (runs of the application, messages, groups) and
      [MediaFacts] (media, backups): their theorems.
    - [Frontends]: the four front ends against each other.

    ** How they interact

    A frame read from a stream ([Session.read_frame]) is parsed by
    [Envelope.from_wire_bytes], which uses [Cbor] and [Keys]; the session
    checks the message type against its intent; [Node.admit_envelope] runs the
    reputation gate ([Reputation]), the freshness check ([Envelope]) and the
    replay cache ([Replay]); a handler then decodes the payload
    ([StorageProtocol], [Discovery], [Device], [VerseMessages] and so on) and
    acts on the tables ([Storage], [NetTables]), on the hosted side
    ([SideState], which writes through to [SideStore]) or on a hosted verse
    ([VerseHost]).  The clients of the wire format are proved against the class
    [Codec]; the instances of [CborCodec], [CborValue] and [TextMap] discharge
    it.  Cryptography is behind the classes [Keys.Crypto] and [Payload.Ecies]
    with the laws [CryptoLaws] and [EciesLaws].  The desktop's state has the
    running nodes ([Host], [VerseHost]) and the databases they share with the
    commands, by data directory; what a dial gives and what a peer answers are
    arguments of a command, which the theorems instantiate with the servers
    ([DirectServer.serve_direct_step], [Node.serve_storage_step]).

    ** What the theorems show

    - Encoding: a value has exactly one encoding and the decoders accept
      nothing else (items, envelopes, contracts, linkage proofs, every
      payload); where a decoder ignores trailing bytes the theorem says so.
    - Authenticity: an envelope or a record that parses carries a signature
      over its unsigned bytes, which determine all of its fields; the bytes
      signed for one kind of record are never those of another kind.
    - Handshake: two honest nodes agree on key, intent and identities; exact
      conditions for each role to end with a session; refusals arrive.
    - Replay and abuse: what the cache answers and stores on every branch, its
      bound, its journal, recovery from it; the token bucket's bound over any
      interleaving; thresholds and quotas; an admitted envelope has no effect
      a second time within the time to live, and does have one again later.
    - Storage: round trips, verification on read, reassembly of chunked
      objects, eviction under a budget.
    - Node: the gates' answer on every branch with the counters; what an
      offer, a retract, a broadcast, a forwarded delivery and a fetch do,
      errors included; every reply of the four servers is a well-formed
      envelope its requester can parse.
    - Sides and devices: however a node was run, a restart gives its side
      back; a revoked device and a retired side stay so through any envelopes,
      calls and restarts; a pairing nonce works once; profile updates
      converge; a scanned code clones the side; strangers change nothing;
      messages and deltas arrive, and exactly the allowed ones.
    - Verses: members are those with a consent; a join hands over the key, a
      departure cuts off, a rotation reaches the members with a session, posts
      reach the others and no one else's are read.
    - The whole node, over any run of it: an envelope admitted by one server
      is inert on every other; without a record signed by a side nothing of
      the side changes; the invariant of its tables; what it pushes on another
      connection goes to the peer the push is addressed to.
    - Clients and connections: an offered object and a forwarded envelope
      arrive, and only what lacks is sent; a flood of handshakes from one
      address is capped; a pooled dial, its cache and its fallback; a restart
      keeps the replay cache; the inbox lists each message once.
    - Addresses and displays: an address parses from exactly its encodings;
      when two pairing strings or two log forms agree.
    - The database: what an interrupted migration leaves to the next open.
    - The C interface: a call within its contract is defined, leaks nothing
      and on failure leaves the memory as it was; a message sealed through it
      opens through it.
    - The command line: an accepted command does not panic, and one that fails
      changes nothing; what [dm send] sends, and that it ignores [--to].
    - The front ends: a text sealed by one of the four opens through each.
    - The desktop: its state is consistent over any commands and launches, and
      a started node runs until the process ends; a text or a medium is shown
      to its recipient as it was and stays in the history; a medium is fetched
      byte for byte if it fits an envelope; where a backup goes, and that the
      daemon opens it; the invite of a new group leads nowhere.
    - Keystore and codes: a seal binds its parameters and opens under its
      passphrase only as written; the base32 is that of RFC 4648.

    ** Conventions

    - Integers are [N] with the width's bound written out where a value can
      reach it: checks, saturating and wrapping operations are as in the
      source.  [usize] is 64 bits wide.
    - Bytes are lists of bytes; a fixed-size array is a list with a length
      hypothesis in the well-formedness predicate of its record; a Rust
      [String] is a string whose bytes are valid UTF-8.
    - [?] is the bind of the result monads; an error carries its variant, and
      for a formatted message the literal format string.
    - The map decoders loop over a constant array of keys and match on the
      key.  The envelope's is modelled as that loop, and
      [Envelope.parse_envelope_eq] proves it equal to its unrolling, one step
      per key; the other decoders are written unrolled.
    - The clock, random bytes and ephemeral secrets are arguments.  The clock
      is [option N] in [Node], [None] standing for a time before 1970, with
      one reading per step.
    - A method that holds a lock for its whole body is one step on the state;
      an interleaving of sessions is a list of such steps.
    - A SQL table is a finite map from primary key to row on which each
      statement acts as written; an argument says which statements succeed.
    - A connection is a number; whether a push on it arrives is an argument.
    - The [f64] of [Reputation]'s bucket only ever holds integers in the exact
      range, and is an [N]; the bucket of [Limiter] holds fractions, and its
      operations are those of [SpecFloat] at the format of [f64].

    ** Parameters and their laws

    ed25519, BLAKE3, HKDF, X25519, SHA-512, Argon2 and the AEAD are library code.
    The laws used are functional: a signature by a seed verifies under its
    public key, lengths of outputs, Diffie-Hellman commutes, opening inverts
    sealing.  Unforgeability and collision resistance are not assumed;
    theorems that need different inputs to have different digests say so.
    The bech32 crate is the class [Address.Bech32], with its documented round
    trip as a law; the hex crate and the jni crate are the classes
    [Desktop.Hex] and [Jni.JniEnv] with theirs.  Unicode normalization, the
    parser of socket addresses, base64 and the picture of a code are arguments.
    [Toy], [ToyEcies] and [ToyIter] are instances that satisfy the laws, on
    which the examples evaluate.

    ** Bounds and fuel

    - [CborValue.skip_value]: structural on the remaining depth, 32 as in the
      source; the theorem is exact on both sides of the limit, so no
      acceptable item is lost to it.
    - The array and map readers recurse on the declared count, as the source
      loops; each step consumes input or fails.
    - [Storage.Reference]'s decoder recurses on the depth limit of the source,
      which refuses deeper input with an error.
    - [Replay.trim] and [Storage.Chunking.chunks] take as fuel the size of what
      they consume; each iteration removes an entry or a non-empty prefix
      ([trim_spec], [chunks_concat]), and the theorems on the operations that
      use them have no hypothesis on fuel; [trim_terminates] says that the
      loop itself stops, as a relation without fuel.  Eviction is structural on
      the rows the query returned.
    - [Qr.emit_symbols] runs at most twice per byte, since at most four bits
      are left over; [base32_rfc4648] would fail with less fuel.

    ** Not modelled

    - Sockets, QUIC and TLS configuration ([net/transport.rs]), timers,
      logging and jitter, file permissions, the delivery of telemetry: I/O and
      library calls.
    - The parts of [Node::start] that bind sockets and lay out the data
      directory, and the shutdown.
    - [System] runs the servers of one side.  The tables a node gives a
      further side are [System.side_services]: they share the node's but for
      the replay cache, the reputation and mailbox being common.
    - At the C boundary: pointers into the middle of a block, failing
      allocations, the wiping of copied seeds.
    - The argument parser of the command line; the installation of updates, the
      default data directory and the entry point of the desktop; the web views;
      the mobile shells above the bridge.  The conformance and fuzz harnesses
      are tests.
    - In the desktop a statement of a command on an open database succeeds.
    - The anomaly log of [check_retirement], which changes no state. *)

From Stdlib Require Export NArith ZArith Lia.
From Stdlib Require Import Strings.Byte Strings.String.
From stdpp Require Export base list gmap strings option numbers sorting.

Declare Scope sv_scope.
Delimit Scope sv_scope with sv.
Open Scope sv_scope.

(** ** Bytes *)

Abbreviation byte := Byte.byte.
Abbreviation bytes := (list Byte.byte).

#[global] Instance byte_eq_dec : EqDecision byte := Byte.byte_eq_dec.

#[global] Program Instance byte_countable : Countable byte :=
  inj_countable Byte.to_N Byte.of_N Byte.of_to_N.

(** Bounds of the machine integers of the program; [usize] is 64 bits wide. *)
Definition u8_max : N := 255.
Definition u16_max : N := 65535.
Definition u32_max : N := 4294967295.
Definition u64_max : N := 18446744073709551615.
Definition u64_size : N := 18446744073709551616.

(** [x as u8]: the low eight bits. *)
Definition as_u8 (n : N) : byte :=
  match Byte.of_N (N.modulo n 256) with Some b => b | None => Byte.x00 end.

(** [a.saturating_add(b)] on [u32]. *)
Definition sat_add_u32 (a b : N) : N := N.min (a + b) u32_max.

(** [a.abs_diff(b)] on [u64]. *)
Definition abs_diff (a b : N) : N := if (a <? b)%N then (b - a)%N else (a - b)%N.

(** [bs.len()] as a [usize] / [u64]. *)
Definition blen (bs : bytes) : N := N.of_nat (length bs).

(** [&s.as_bytes()] for a Rust string, and its inverse on valid UTF-8. *)
Definition as_bytes (s : string) : bytes := String.list_byte_of_string s.
Definition of_bytes (bs : bytes) : string := String.string_of_list_byte bs.

(** ** Errors and results ([sidevers-core/src/error.rs]) *)

(** A dynamic string payload of the source ([format!(...)]) is kept as its
    literal format string: the formatted arguments are not modelled. *)
Module Error.
Inductive t : Type :=
| CborEncode (what : string)
| CborDecode (what : string)
| CborNotCanonical (what : string)
| Address (what : string)
| SignatureInvalid
| DecryptionFailed
| TimestampSkewed (max_skew_secs : N)
| Replay
| UnsupportedVersion (got : N)
| UnknownType (ty : N)
| CsprngUnavailable (what : string)
| BadFieldLength (field : string) (expected got : N)
| Invariant (what : string).
End Error.

Inductive result (A : Type) : Type :=
| Ok (a : A)
| Err (e : Error.t).
Arguments Ok {A} a.
Arguments Err {A} e.

#[global] Instance result_ret : MRet result := fun _ a => Ok a.
#[global] Instance result_bind : MBind result := fun _ _ k m =>
  match m with Ok a => k a | Err e => Err e end.

Definition is_ok {A} (m : result A) : bool :=
  match m with Ok _ => true | Err _ => false end.

(** [opt.ok_or(e)]. *)
Definition ok_or {A} (o : option A) (e : Error.t) : result A :=
  match o with Some a => Ok a | None => Err e end.

(** [if !cond { return Err(e) }]. *)
Definition ensure (cond : bool) (e : Error.t) : result unit :=
  if cond then Ok tt else Err e.

(** ** Automation *)

Create HintDb sv.
Create Rewrite HintDb sv.



(** Case analysis on the boolean tests, matches and [let]s of a hypothesis
    or of the goal, keeping the equations. *)
Ltac case_bool :=
  match goal with
  | |- context [if ?b then _ else _] => destruct b eqn:?
  | H : context [if ?b then _ else _] |- _ => destruct b eqn:?
  end.

(** Turn boolean comparisons on [N], [Z] and [nat] into propositions. *)
Ltac to_prop :=
  repeat match goal with
  | H : (_ && _)%bool = true |- _ => apply andb_true_iff in H as [? ?]
  | H : (_ || _)%bool = false |- _ => apply orb_false_iff in H as [? ?]
  | H : negb _ = true |- _ => apply negb_true_iff in H
  | H : negb _ = false |- _ => apply negb_false_iff in H
  | H : N.ltb _ _ = true |- _ => apply N.ltb_lt in H
  | H : N.ltb _ _ = false |- _ => apply N.ltb_ge in H
  | H : N.leb _ _ = true |- _ => apply N.leb_le in H
  | H : N.leb _ _ = false |- _ => apply N.leb_gt in H
  | H : N.eqb _ _ = true |- _ => apply N.eqb_eq in H
  | H : N.eqb _ _ = false |- _ => apply N.eqb_neq in H
  | H : Nat.eqb _ _ = true |- _ => apply Nat.eqb_eq in H
  | H : Nat.eqb _ _ = false |- _ => apply Nat.eqb_neq in H
  | H : Nat.leb _ _ = true |- _ => apply Nat.leb_le in H
  | H : Nat.leb _ _ = false |- _ => apply Nat.leb_gt in H
  | H : Nat.ltb _ _ = true |- _ => apply Nat.ltb_lt in H
  | H : Nat.ltb _ _ = false |- _ => apply Nat.ltb_ge in H
  | H : bool_decide _ = true |- _ => apply bool_decide_eq_true in H
  | H : bool_decide _ = false |- _ => apply bool_decide_eq_false in H
  end.

(** ** Results *)

Lemma result_bind_ok {A B} (m : result A) (k : A -> result B) b :
  (x ← m; k x) = Ok b <-> exists a, m = Ok a /\ k a = Ok b.
Proof.
  destruct m as [a|e]; cbn; split.
  - intros H. by exists a.
  - intros (a' & [= <-] & H). exact H.
  - done.
  - intros (a' & [=] & _).
Qed.

Lemma ensure_ok c e u : ensure c e = Ok u <-> c = true.
Proof. destruct c, u; cbn; naive_solver. Qed.

Lemma ok_or_ok {A} (o : option A) e a : ok_or o e = Ok a <-> o = Some a.
Proof. destruct o; cbn; naive_solver. Qed.

(** ** Bytes and numbers *)

Lemma to_N_lt (b : byte) : (Byte.to_N b < 256)%N.
Proof. pose proof (Byte.to_N_bounded b). lia. Qed.

Lemma to_N_inj (a b : byte) : Byte.to_N a = Byte.to_N b -> a = b.
Proof.
  intros H. apply (f_equal Byte.of_N) in H.
  rewrite !Byte.of_to_N in H. congruence.
Qed.

Lemma to_N_as_u8 (n : N) : Byte.to_N (as_u8 n) = N.modulo n 256.
Proof.
  unfold as_u8. destruct (Byte.of_N (n mod 256)) eqn:E.
  - by apply Byte.to_of_N in E.
  - apply Byte.of_N_None_iff in E.
    pose proof (N.mod_lt n 256). lia.
Qed.

Lemma as_u8_to_N (b : byte) : as_u8 (Byte.to_N b) = b.
Proof.
  apply to_N_inj. rewrite to_N_as_u8. apply N.mod_small, to_N_lt.
Qed.

Lemma of_bytes_as_bytes s : of_bytes (as_bytes s) = s.
Proof. apply String.string_of_list_byte_of_string. Qed.

Lemma as_bytes_of_bytes bs : as_bytes (of_bytes bs) = bs.
Proof. apply String.list_byte_of_string_of_list_byte. Qed.

Lemma as_bytes_inj s t : as_bytes s = as_bytes t -> s = t.
Proof. intros H. by rewrite <-(of_bytes_as_bytes s), H, of_bytes_as_bytes. Qed.

Lemma blen_app a b : blen (a ++ b) = (blen a + blen b)%N.
Proof. unfold blen. rewrite length_app. lia. Qed.

Lemma blen_nil : blen [] = 0%N.
Proof. reflexivity. Qed.

Lemma blen_cons x a : blen (x :: a) = (1 + blen a)%N.
Proof. unfold blen. cbn [length]. lia. Qed.

#[export] Hint Rewrite @length_app blen_app blen_cons blen_nil : sv.
