(* ===== verification/Utf8.v ===== *)
(** UTF-8 validity, as [core::str::from_utf8] of the Rust standard library
    decides it (the well-formed byte sequences of Unicode, table 3-7).  A
    Rust [String] is modelled by a [string] of bytes that satisfies
    [utf8_valid]; [from_utf8] is the only way the program makes one out of
    bytes it received. *)

From S2P Require Import Prelude.

(** [lo <= b <= hi] on the value of a byte. *)
Definition in_range (lo hi : N) (b : byte) : bool :=
  ((lo <=? Byte.to_N b) && (Byte.to_N b <=? hi))%N.

(** A continuation byte [10xxxxxx]. *)
Definition is_cont (b : byte) : bool := in_range 0x80 0xBF b.

(** The range of the second byte of a three-byte sequence started by [b0]. *)
Definition second_of_3 (b0 b1 : byte) : bool :=
  if in_range 0xE0 0xE0 b0 then in_range 0xA0 0xBF b1
  else if in_range 0xED 0xED b0 then in_range 0x80 0x9F b1
  else is_cont b1.

(** The range of the second byte of a four-byte sequence started by [b0]. *)
Definition second_of_4 (b0 b1 : byte) : bool :=
  if in_range 0xF0 0xF0 b0 then in_range 0x90 0xBF b1
  else if in_range 0xF4 0xF4 b0 then in_range 0x80 0x8F b1
  else is_cont b1.

Fixpoint utf8_valid (bs : bytes) : bool :=
  match bs with
  | [] => true
  | b0 :: t0 =>
    if in_range 0 0x7F b0 then utf8_valid t0
    else match t0 with
    | [] => false
    | b1 :: t1 =>
      if in_range 0xC2 0xDF b0 then is_cont b1 && utf8_valid t1
      else match t1 with
      | [] => false
      | b2 :: t2 =>
        if in_range 0xE0 0xEF b0 then
          second_of_3 b0 b1 && is_cont b2 && utf8_valid t2
        else match t2 with
        | [] => false
        | b3 :: t3 =>
          if in_range 0xF0 0xF4 b0 then
            second_of_4 b0 b1 && is_cont b2 && is_cont b3 && utf8_valid t3
          else false
        end
      end
    end
  end.

(** [core::str::from_utf8]. *)
Definition from_utf8 (bs : bytes) : option string :=
  if utf8_valid bs then Some (of_bytes bs) else None.

(** What every value of the Rust type [String] satisfies: its bytes are
    UTF-8 and fit the address space. *)
Definition wf_text (s : string) : Prop :=
  utf8_valid (as_bytes s) = true /\ (blen (as_bytes s) < u64_size)%N.

(** The same for [Vec<u8>]: only the length is bounded. *)
Definition wf_bytes (bs : bytes) : Prop := (blen bs < u64_size)%N.

Lemma from_utf8_Some bs s :
  from_utf8 bs = Some s <-> utf8_valid bs = true /\ bs = as_bytes s.
Proof.
  unfold from_utf8. destruct (utf8_valid bs); split.
  - intros [= <-]. by rewrite as_bytes_of_bytes.
  - intros [_ ->]. by rewrite of_bytes_as_bytes.
  - done.
  - by intros [? _].
Qed.

(** ASCII text is UTF-8: enough for every literal of the program. *)
Lemma utf8_ascii bs :
  forallb (in_range 0 0x7F) bs = true -> utf8_valid bs = true.
Proof.
  induction bs as [|b bs IH]; [done|].
  cbn [forallb utf8_valid]. intros H. to_prop. rewrite H. auto.
Qed.
