(* ===== verification/Str.v ===== *)
(** Methods of [str] and [String] of the Rust standard library that the front
    ends use: [trim], [strip_prefix], [split], [from_utf8_lossy].  A character
    is its UTF-8 sequence; a search for one in a valid string is a search for
    those bytes. *)

From S2P Require Import Prelude Utf8.

Open Scope N_scope.

(** ** Prefixes and white space *)

(** [char::is_whitespace], as UTF-8. *)
Definition WHITE_SPACE : list bytes :=
  map (fun b => [b]) [Byte.x09; Byte.x0a; Byte.x0b; Byte.x0c; Byte.x0d; Byte.x20] ++
  [[Byte.xc2; Byte.x85]; [Byte.xc2; Byte.xa0]; [Byte.xe1; Byte.x9a; Byte.x80]] ++
  map (fun b => [Byte.xe2; Byte.x80; b])
    [Byte.x80; Byte.x81; Byte.x82; Byte.x83; Byte.x84; Byte.x85; Byte.x86; Byte.x87; Byte.x88; Byte.x89; Byte.x8a;
     Byte.xa8; Byte.xa9; Byte.xaf] ++
  [[Byte.xe2; Byte.x81; Byte.x9f]; [Byte.xe3; Byte.x80; Byte.x80]].

Definition strip (prefix bs : bytes) : option bytes :=
  if bool_decide (take (length prefix) bs = prefix) then Some (drop (length prefix) bs) else None.

Definition strip_any (prefixes : list bytes) (bs : bytes) : option bytes :=
  fold_right (fun p r => match strip p bs with Some x => Some x | None => r end) None prefixes.

Fixpoint trim_start (prefixes : list bytes) (fuel : nat) (bs : bytes) : bytes :=
  match fuel with
  | O => bs
  | S fuel => match strip_any prefixes bs with Some rest => trim_start prefixes fuel rest | None => bs end
  end.

(** [str::trim]: from the end, every code read backwards. *)
Definition trim (bs : bytes) : bytes :=
  let bs := trim_start WHITE_SPACE (length bs) bs in
  rev (trim_start (map (rev (A:=byte)) WHITE_SPACE) (length bs) (rev bs)).

(** ** Searches *)

Definition starts_with (p bs : bytes) : bool := bool_decide (take (length p) bs = p).
Definition ends_with (p bs : bytes) : bool := starts_with (rev p) (rev bs).

Fixpoint contains (p bs : bytes) : bool :=
  starts_with p bs || match bs with [] => false | _ :: rest => contains p rest end.

(** [split(c).next()], for an ASCII [c]. *)
Fixpoint before (c : byte) (bs : bytes) : bytes :=
  match bs with
  | [] => []
  | b :: rest => if bool_decide (b = c) then [] else b :: before c rest
  end.

Definition to_ascii_lowercase (b : byte) : byte :=
  if in_range 0x41 0x5A b then default b (Byte.of_N (Byte.to_N b + 32)) else b.

Definition eq_ignore_ascii_case (a b : bytes) : bool :=
  bool_decide (map to_ascii_lowercase a = map to_ascii_lowercase b).

(** ** Lossy decoding *)

(** One step of [Utf8Chunks::next]: whether a whole character starts here, and
    how many bytes were read until that was clear. *)
Definition read_char (bs : bytes) : bool * nat :=
  match bs with
  | [] => (false, 0%nat)
  | b0 :: t0 =>
    if in_range 0 0x7F b0 then (true, 1%nat)
    else if in_range 0xC2 0xDF b0 then
      match t0 with b1 :: _ => if is_cont b1 then (true, 2%nat) else (false, 1%nat) | [] => (false, 1%nat) end
    else if in_range 0xE0 0xEF b0 then
      match t0 with
      | b1 :: t1 =>
        if second_of_3 b0 b1 then
          match t1 with b2 :: _ => if is_cont b2 then (true, 3%nat) else (false, 2%nat) | [] => (false, 2%nat) end
        else (false, 1%nat)
      | [] => (false, 1%nat)
      end
    else if in_range 0xF0 0xF4 b0 then
      match t0 with
      | b1 :: t1 =>
        if second_of_4 b0 b1 then
          match t1 with
          | b2 :: t2 =>
            if is_cont b2 then
              match t2 with b3 :: _ => if is_cont b3 then (true, 4%nat) else (false, 3%nat) | [] => (false, 3%nat) end
            else (false, 2%nat)
          | [] => (false, 2%nat)
          end
        else (false, 1%nat)
      | [] => (false, 1%nat)
      end
    else (false, 1%nat)
  end.

(** U+FFFD *)
Definition REPLACEMENT : bytes := [Byte.xef; Byte.xbf; Byte.xbd].

Fixpoint lossy (fuel : nat) (bs : bytes) : bytes :=
  match fuel, bs with
  | O, _ | _, [] => []
  | S fuel, _ =>
    let '(whole, n) := read_char bs in
    (if whole then take n bs else REPLACEMENT) ++ lossy fuel (drop n bs)
  end.

(** [String::from_utf8_lossy] *)
Definition from_utf8_lossy (bs : bytes) : string := of_bytes (lossy (length bs) bs).

(** ** Lemmas *)

Lemma starts_with_spec p bs : starts_with p bs = true <-> exists rest, bs = p ++ rest.
Proof.
  unfold starts_with. rewrite bool_decide_eq_true. split.
  - intros E. exists (drop (length p) bs). by rewrite <-E at 1; rewrite take_drop.
  - intros [rest ->]. by rewrite take_app_length.
Qed.

Lemma contains_spec p bs : contains p bs = true <-> exists l r, bs = l ++ p ++ r.
Proof.
  induction bs as [|b bs IH]; cbn [contains]; rewrite orb_true_iff, starts_with_spec.
  - split; [intros [[r E]|]; [by exists [], r|done]|].
    intros (l & r & E). left. apply eq_sym, app_nil in E as [-> E]. by exists r.
  - rewrite IH. split.
    + intros [[r E]|(l & r & ->)]; [by exists [], r|by exists (b :: l), r].
    + intros ([|b' l] & r & E); [left; by exists r|right]. injection E as -> ->. eauto.
Qed.

Lemma contains_byte c bs : contains [c] bs = true <-> c ∈ bs.
Proof.
  rewrite contains_spec. split.
  - intros (l & r & ->). set_solver.
  - intros (l & r & ->)%list_elem_of_split. by exists l, r.
Qed.

Lemma before_spec c bs : c ∉ before c bs /\ (exists rest, bs = before c bs ++ rest).
Proof.
  induction bs as [|b bs [IH (rest & E)]]; cbn [before]; [split; [set_solver|by exists []]|].
  case_bool_decide as Ec; [split; [set_solver|by exists (b :: bs)]|].
  split; [|exists rest; cbn; by rewrite <-E].
  intros [->|]%elem_of_cons; [|done]. done.
Qed.

(** A whole character is a prefix the validity check passes over. *)
Lemma read_char_valid bs :
  utf8_valid bs = true -> bs <> [] ->
  exists n, read_char bs = (true, n) /\ (0 < n)%nat /\ utf8_valid (drop n bs) = true.
Proof.
  destruct bs as [|b0 t0]; [done|]. intros H _. cbn [utf8_valid] in H. cbn [read_char].
  destruct (in_range 0 0x7F b0); [exists 1%nat; split_and!; [done|lia|done]|]. destruct t0 as [|b1 t1]; [done|].
  destruct (in_range 0xC2 0xDF b0).
  { apply andb_prop in H as [-> H]. exists 2%nat. split_and!; [done|lia|done]. }
  destruct t1 as [|b2 t2]; [done|]. destruct (in_range 0xE0 0xEF b0).
  { apply andb_prop in H as [[-> ->]%andb_prop H]. exists 3%nat. split_and!; [done|lia|done]. }
  destruct t2 as [|b3 t3]; [done|]. destruct (in_range 0xF0 0xF4 b0); [|done].
  apply andb_prop in H as [[[-> ->]%andb_prop ->]%andb_prop H]. exists 4%nat. split_and!; [done|lia|done].
Qed.

(** What is valid stays as it is. *)
Lemma lossy_valid fuel : forall bs, (length bs <= fuel)%nat -> utf8_valid bs = true -> lossy fuel bs = bs.
Proof.
  induction fuel as [|fuel IH]; intros bs Hl Hv.
  - by destruct bs; [|cbn in Hl; lia].
  - destruct bs as [|b bs]; [done|]. cbn [lossy].
    destruct (read_char_valid (b :: bs) Hv ltac:(done)) as (n & -> & Hn & Hd).
    rewrite IH; [apply take_drop| |done]. rewrite length_drop. cbn [length] in *. lia.
Qed.

Lemma from_utf8_lossy_valid s : utf8_valid (as_bytes s) = true -> from_utf8_lossy (as_bytes s) = s.
Proof. intros Hv. unfold from_utf8_lossy. rewrite lossy_valid by done. apply of_bytes_as_bytes. Qed.
