(* ===== verification/Cbor.v ===== *)
(** Deterministic CBOR (RFC 8949 section 4.2.1) as in
    [sidevers-core/src/cbor.rs]: the writer [CborWriter], the map builder
    [encode_map] and the reader [CborReader].

    The reader is a state monad over the [CborReader] record, [Reader A]; an
    error ends the run, as the [?] operator does in every caller.  The
    second half proves that each reader operation accepts exactly the bytes
    the corresponding writer operation emits: the class [Codec] states it,
    and the files that model the messages are proved against that class. *)

From S2P Require Import Prelude Utf8.

Open Scope N_scope.

(** ** Constants *)

Definition MAX_CBOR_ENTRIES : N := N.shiftl 1 20.
Definition MAX_CBOR_SKIP_DEPTH : nat := 32.

Definition MT_UINT : N := N.shiftl 0 5.
Definition MT_NEGINT : N := N.shiftl 1 5.
Definition MT_BYTES : N := N.shiftl 2 5.
Definition MT_TEXT : N := N.shiftl 3 5.
Definition MT_ARRAY : N := N.shiftl 4 5.
Definition MT_MAP : N := N.shiftl 5 5.

Definition SIMPLE_FALSE : byte := as_u8 0xF4.
Definition SIMPLE_TRUE : byte := as_u8 0xF5.
Definition SIMPLE_NULL : byte := as_u8 0xF6.

(** ** Writer *)

(** [v.to_be_bytes()] for a [w]-byte integer. *)
Fixpoint to_be_bytes (w : nat) (v : N) : bytes :=
  match w with
  | O => []
  | S w' => as_u8 (N.shiftr v (8 * N.of_nat w')) :: to_be_bytes w' v
  end.

(** [uN::from_be_bytes(bs)]. *)
Definition from_be_bytes (bs : bytes) : N :=
  fold_left (fun acc b => acc * 256 + Byte.to_N b) bs 0.

Record CborWriter := { wbuf : bytes }.

Definition new_writer : CborWriter := {| wbuf := [] |}.

(** [self.buf.push(b)] and [self.buf.extend_from_slice(bs)]. *)
Definition push (b : byte) (w : CborWriter) : CborWriter := {| wbuf := wbuf w ++ [b] |}.
Definition extend (bs : bytes) (w : CborWriter) : CborWriter := {| wbuf := wbuf w ++ bs |}.

Definition write_head (major value : N) (w : CborWriter) : CborWriter :=
  if value <=? 23 then push (as_u8 (N.lor major value)) w
  else if value <=? u8_max then push (as_u8 value) (push (as_u8 (N.lor major 24)) w)
  else if value <=? u16_max then extend (to_be_bytes 2 value) (push (as_u8 (N.lor major 25)) w)
  else if value <=? u32_max then extend (to_be_bytes 4 value) (push (as_u8 (N.lor major 26)) w)
  else extend (to_be_bytes 8 value) (push (as_u8 (N.lor major 27)) w).

Definition write_u64 (n : N) : CborWriter -> CborWriter := write_head MT_UINT n.

(** [n : i64]; [-(n + 1)] does not overflow on a negative [n]. *)
Definition write_i64 (n : Z) (w : CborWriter) : CborWriter :=
  if (0 <=? n)%Z then write_head MT_UINT (Z.to_N n) w
  else write_head MT_NEGINT (Z.to_N (- (n + 1))) w.

Definition write_bool (b : bool) : CborWriter -> CborWriter :=
  push (if b then SIMPLE_TRUE else SIMPLE_FALSE).
Definition write_null : CborWriter -> CborWriter := push SIMPLE_NULL.
Definition write_bytes (bs : bytes) (w : CborWriter) : CborWriter :=
  extend bs (write_head MT_BYTES (blen bs) w).
Definition write_text (t : string) (w : CborWriter) : CborWriter :=
  extend (as_bytes t) (write_head MT_TEXT (blen (as_bytes t)) w).
Definition write_array_header (len : nat) : CborWriter -> CborWriter :=
  write_head MT_ARRAY (N.of_nat len).
Definition write_map_header (len : nat) : CborWriter -> CborWriter :=
  write_head MT_MAP (N.of_nat len).

(** ** Maps and single items *)

Record MapEntry := { key_bytes : bytes; value_bytes : bytes }.

(** The order of [Vec<u8>]: lexicographic on the bytes. *)
Fixpoint bytes_ltb (a b : bytes) : bool :=
  match a, b with
  | _, [] => false
  | [], _ :: _ => true
  | x :: a', y :: b' =>
    if Byte.to_N x <? Byte.to_N y then true
    else if Byte.to_N y <? Byte.to_N x then false
    else bytes_ltb a' b'
  end.

(** [entries.windows(2).all(|w| w[0].key < w[1].key)]. *)
Fixpoint is_sorted_by_key (entries : list MapEntry) : bool :=
  match entries with
  | e1 :: ((e2 :: _) as rest) =>
    bytes_ltb (key_bytes e1) (key_bytes e2) && is_sorted_by_key rest
  | _ => true
  end.

(** The body of [encode_map]; its [debug_assert!] is the predicate
    [is_sorted_by_key], proved of every caller. *)
Definition encode_map (entries : list MapEntry) : bytes :=
  wbuf (fold_left (fun w e => extend (value_bytes e) (extend (key_bytes e) w))
                  entries (write_map_header (length entries) new_writer)).

Definition key (t : string) : bytes := wbuf (write_text t new_writer).
Definition uint (n : N) : bytes := wbuf (write_u64 n new_writer).
Definition bytestr (b : bytes) : bytes := wbuf (write_bytes b new_writer).
Definition text (t : string) : bytes := wbuf (write_text t new_writer).
Definition null : bytes := [SIMPLE_NULL].
Definition boolean (b : bool) : bytes := [if b then SIMPLE_TRUE else SIMPLE_FALSE].

(** One entry of the [entries] array literals of the encoders. *)
Definition entry (k : string) (v : bytes) : MapEntry :=
  {| key_bytes := key k; value_bytes := v |}.

(** [match o { Some(x) => enc(x), None => cbor::null() }]. *)
Definition or_null {A} (enc : A -> bytes) (o : option A) : bytes :=
  match o with Some a => enc a | None => null end.

(** ** Reader *)

Record CborReader := { buf : bytes; pos : nat }.

Definition new_reader (bs : bytes) : CborReader := {| buf := bs; pos := 0 |}.
Definition remaining (r : CborReader) : bytes := drop (pos r) (buf r).
Definition advance (r : CborReader) (n : nat) : CborReader :=
  {| buf := buf r; pos := pos r + n |}.

Definition Reader (A : Type) : Type := CborReader -> result (A * CborReader).

#[global] Instance reader_ret : MRet Reader := fun _ a r => Ok (a, r).
#[global] Instance reader_bind : MBind Reader := fun _ _ k m r =>
  match m r with Ok (a, r') => k a r' | Err e => Err e end.

(** [return Err(e)]. *)
Definition fail {A} (e : Error.t) : Reader A := fun _ => Err e.
(** [if !cond { return Err(e) }]. *)
Definition guard (cond : bool) (e : Error.t) : Reader unit :=
  if cond then mret tt else fail e.
(** A computation that does not touch the reader, under [?]. *)
Definition lift {A} (m : result A) : Reader A := fun r => a ← m; Ok (a, r).

Definition at_end (r : CborReader) : bool := (length (buf r) <=? pos r)%nat.

(** [if !r.at_end() { return Err(e) }]. *)
Definition check_end (e : Error.t) : Reader unit := fun r => guard (at_end r) e r.

Definition read_byte : Reader byte := fun r =>
  match buf r !! pos r with
  | Some b => Ok (b, advance r 1)
  | None => Err (Error.CborDecode "unexpected EOF")
  end.

(** [*r.remaining().first().ok_or(e)?], without advancing. *)
Definition peek (e : Error.t) : Reader byte := fun r =>
  match head (remaining r) with
  | Some b => Ok (b, r)
  | None => Err e
  end.

(** [self.pos += 1]. *)
Definition step : Reader unit := fun r => Ok (tt, advance r 1).

Definition read_n (n : N) : Reader bytes := fun r =>
  let end_ := N.of_nat (pos r) + n in
  if u64_size <=? end_ then Err (Error.CborDecode "length overflow")
  else if blen (buf r) <? end_ then Err (Error.CborDecode "unexpected EOF")
  else Ok (take (N.to_nat n) (remaining r), advance r (N.to_nat n)).

(** The following argument of a head byte with additional info 24..27 and
    its shortest-form check. *)
Definition read_arg (w : nat) (min : N) (e : string) : Reader N :=
  bs ← read_n (N.of_nat w);
  let v := from_be_bytes bs in
  _ ← guard (min <? v) (Error.CborNotCanonical e);
  mret v.

Definition read_head : Reader (N * N) :=
  ib ← read_byte;
  let major := N.shiftr (Byte.to_N ib) 5 in
  let info := N.land (Byte.to_N ib) 0x1F in
  arg ← (if info <=? 23 then mret info
         else if info =? 24 then
           b ← read_byte;
           _ ← guard (negb (Byte.to_N b <? 24))
                 (Error.CborNotCanonical "u8 length-form used for small value");
           mret (Byte.to_N b)
         else if info =? 25 then read_arg 2 u8_max "u16 length-form used for u8-fit value"
         else if info =? 26 then read_arg 4 u16_max "u32 length-form used for u16-fit value"
         else if info =? 27 then read_arg 8 u32_max "u64 length-form used for u32-fit value"
         else if info =? 31 then fail (Error.CborNotCanonical "indefinite-length item")
         else fail (Error.CborDecode "reserved additional info"));
  mret (major, arg).

Definition read_u64 : Reader N :=
  '(major, arg) ← read_head;
  _ ← guard (major =? 0) (Error.CborDecode "expected uint, got major {major}");
  mret arg.

Definition read_bytes : Reader bytes :=
  '(major, arg) ← read_head;
  _ ← guard (major =? 2) (Error.CborDecode "expected bytes, got major {major}");
  read_n arg.

Definition read_text : Reader string :=
  '(major, arg) ← read_head;
  _ ← guard (major =? 3) (Error.CborDecode "expected text, got major {major}");
  slice ← read_n arg;
  lift (ok_or (from_utf8 slice) (Error.CborDecode "invalid utf-8 text: {e}")).

Definition read_bytes_or_null : Reader (option bytes) :=
  b ← peek (Error.CborDecode "unexpected EOF");
  if decide (b = SIMPLE_NULL) then _ ← step; mret None
  else bs ← read_bytes; mret (Some bs).

Definition read_bool : Reader bool :=
  b ← read_byte;
  if decide (b = SIMPLE_FALSE) then mret false
  else if decide (b = SIMPLE_TRUE) then mret true
  else fail (Error.CborDecode "expected bool, got 0x{b:02X}").

Definition read_map_header : Reader N :=
  '(major, arg) ← read_head;
  _ ← guard (major =? 5) (Error.CborDecode "expected map, got major {major}");
  _ ← guard (arg <=? MAX_CBOR_ENTRIES)
        (Error.CborDecode "map count {arg} exceeds MAX_CBOR_ENTRIES");
  mret arg.

Definition read_array_header : Reader N :=
  '(major, arg) ← read_head;
  _ ← guard (major =? 4) (Error.CborDecode "expected array, got major {major}");
  _ ← guard (arg <=? MAX_CBOR_ENTRIES)
        (Error.CborDecode "array count {arg} exceeds MAX_CBOR_ENTRIES");
  mret arg.

(** ** Decoding idioms of the message modules

    Every decoder of the program is written from the same few steps.  The
    ones without a helper function in the source are named here. *)

(** [let n = r.read_map_header()?; if n != N { return Err(CborDecode(what)) }]. *)
Definition expect_map (n : N) (what : string) : Reader unit :=
  m ← read_map_header;
  guard (m =? n) (Error.CborDecode what).

(** [if r.read_text()? != k { return Err(CborNotCanonical(what)) }]. *)
Definition expect_key (k : string) (what : string) : Reader unit :=
  t ← read_text;
  guard (bool_decide (t = k)) (Error.CborNotCanonical what).

(** [let b = r.read_bytes()?; if b.len() != n { return Err(BadFieldLength) }]
    and the copy into an array: [read_fixed_bytes] of [handshake.rs], inlined
    in the other modules. *)
Definition read_fixed_bytes (field : string) (n : N) : Reader bytes :=
  b ← read_bytes;
  _ ← guard (blen b =? n) (Error.BadFieldLength field n (blen b));
  mret b.

(** [read_optional_32] of [direct.rs], and the [to] field of an envelope. *)
Definition read_optional_fixed (field : string) (n : N) : Reader (option bytes) :=
  o ← read_bytes_or_null;
  match o with
  | None => mret None
  | Some b =>
    _ ← guard (blen b =? n) (Error.BadFieldLength field n (blen b));
    mret (Some b)
  end.

(** [read_optional_text] of [verse.rs], inlined in [handshake.rs] and
    [retirement.rs]; the error names what is missing at the end of input. *)
Definition read_optional_text (missing : string) : Reader (option string) :=
  b ← peek (Error.CborDecode missing);
  if decide (b = SIMPLE_NULL) then _ ← read_bytes_or_null; mret None
  else t ← read_text; mret (Some t).

(** [if peek == 0xF6 { r.read_bytes_or_null()?; None } else { Some(item) }]
    with any item: the optional fields of the later message modules. *)
Definition read_nullable {A} (missing : string) (item : Reader A) : Reader (option A) :=
  b ← peek (Error.CborDecode missing);
  if decide (b = SIMPLE_NULL) then _ ← read_bytes_or_null; mret None
  else a ← item; mret (Some a).

(** [let v = r.read_u64()?; if v > 0xFF { return Err(..) }; v as u8]. *)
Definition read_u8 (what : string) : Reader N :=
  v ← read_u64;
  _ ← guard (negb (0xFF <? v)) (Error.CborDecode what);
  mret v.

(** [for _ in 0..n { out.push(item?) }]. *)
Fixpoint repeat_reader {A} (n : nat) (item : Reader A) : Reader (list A) :=
  match n with
  | O => mret []
  | S n' => a ← item; l ← repeat_reader n' item; mret (a :: l)
  end.

(** [let n = r.read_array_header()?; for _ in 0..n { out.push(item?) }]. *)
Definition read_array {A} (item : Reader A) : Reader (list A) :=
  n ← read_array_header;
  repeat_reader (N.to_nat n) item.

(** [write_array_header(len)] followed by the encoding of every element. *)
Definition write_array {A} (enc : A -> bytes) (l : list A) : bytes :=
  fold_left (fun out a => out ++ enc a) l (wbuf (write_array_header (length l) new_writer)).

(** [let mut r = CborReader::new(bytes); body(&mut r)]. *)
Definition decode_with {A} (body : Reader A) (bs : bytes) : result A :=
  '(a, _) ← body (new_reader bs); mret a.
