(* ===== verification/CborCodec.v ===== *)
(** The reader of [Cbor.v] accepts exactly what its writer emits.

    [consumes r bs r'] says that a run moved the cursor from [r] over the
    bytes [bs] to [r'].  [Codec enc dec wf] says that the reader [dec]
    succeeds with [a] exactly when [a] is well formed and the bytes consumed
    are [enc a]: both directions of every round trip, and the absence of a
    second encoding of the same value, follow from it.  The instances below
    give the codec of every primitive; the tactics [rd_inv] and [rd_run] at
    the end of the file run a decoder symbolically. *)

From S2P Require Import Prelude Utf8 Cbor.

Open Scope N_scope.

(** ** Definitions *)

(** The cursor is inside its buffer, and the buffer is shorter than the
    address space. *)
Definition fits (r : CborReader) : Prop :=
  blen (buf r) < u64_size /\ (pos r <= length (buf r))%nat.

Record consumes (r : CborReader) (bs : bytes) (r' : CborReader) : Prop := {
  consumes_fits : fits r;
  consumes_buf : buf r' = buf r;
  consumes_pos : (pos r' = pos r + length bs)%nat;
  consumes_rem : remaining r = bs ++ remaining r'
}.

Class Codec {A} (enc : A -> bytes) (dec : Reader A) (wf : A -> Prop) : Prop :=
  codec_iff : forall r a r', fits r ->
    dec r = Ok (a, r') <-> wf a /\ consumes r (enc a) r'.

#[global] Hint Mode Codec ! - ! - : typeclass_instances.

(** The head of an item of major type [m]. *)
Definition head_bytes (m arg : N) : bytes :=
  wbuf (write_head (N.shiftl m 5) arg new_writer).

(** A reader that always succeeds and consumes a fixed prefix. *)
Definition Lit (bs : bytes) (dec : Reader unit) : Prop :=
  Codec (fun _ => bs) dec (fun _ => True).

(** ** Bytes and big-endian integers *)

Lemma to_be_bytes_length w v : length (to_be_bytes w v) = w.
Proof. induction w; cbn; auto. Qed.

Lemma from_be_bytes_app a b :
  from_be_bytes (a ++ b) = from_be_bytes a * 256 ^ blen b + from_be_bytes b.
Proof.
  unfold from_be_bytes. rewrite fold_left_app.
  generalize (fold_left (fun acc b0 => acc * 256 + Byte.to_N b0) a 0) as x.
  enough (forall x y, fold_left (fun acc b0 => acc * 256 + Byte.to_N b0) b (x + y)
     = x * 256 ^ blen b + fold_left (fun acc b0 => acc * 256 + Byte.to_N b0) b y) as H
    by (intros x; rewrite <-(N.add_0_r x) at 1; apply H).
  induction b as [|c b IH]; intros x y; cbn [fold_left].
  - change (blen []) with 0. rewrite N.pow_0_r. lia.
  - replace ((x + y) * 256 + Byte.to_N c) with (x * 256 + (y * 256 + Byte.to_N c)) by lia.
    rewrite IH, blen_cons, N.pow_add_r, N.pow_1_r. lia.
Qed.

Lemma from_be_bytes_lt bs : from_be_bytes bs < 256 ^ blen bs.
Proof.
  induction bs as [|b bs IH] using rev_ind; [reflexivity|].
  rewrite from_be_bytes_app, blen_app. change (blen [b]) with 1.
  rewrite N.pow_1_r, N.pow_add_r, N.pow_1_r.
  unfold from_be_bytes at 2. cbn [fold_left].
  pose proof (to_N_lt b). nia.
Qed.

Lemma to_be_bytes_snoc w v :
  to_be_bytes (S w) v = to_be_bytes w (v / 256) ++ [as_u8 v].
Proof.
  revert v. induction w as [|w IH]; intros v.
  - cbn. by rewrite N.shiftr_0_r.
  - change (to_be_bytes (S (S w)) v)
      with (as_u8 (N.shiftr v (8 * N.of_nat (S w))) :: to_be_bytes (S w) v).
    rewrite IH. cbn [to_be_bytes app]. do 2 f_equal.
    change 256 with (2 ^ 8).
    rewrite !N.shiftr_div_pow2, N.Div0.div_div, <-N.pow_add_r. do 2 f_equal. lia.
Qed.

Lemma from_to_be_bytes w v : from_be_bytes (to_be_bytes w v) = v mod 256 ^ N.of_nat w.
Proof.
  revert v. induction w as [|w IH]; intros v.
  - cbn. by rewrite N.mod_1_r.
  - rewrite to_be_bytes_snoc, from_be_bytes_app, IH.
    change (blen [as_u8 v]) with 1. rewrite N.pow_1_r.
    unfold from_be_bytes. cbn [fold_left]. rewrite to_N_as_u8.
    rewrite Nat2N.inj_succ, N.pow_succ_r', (N.Div0.mod_mul_r v 256). lia.
Qed.

Lemma to_from_be_bytes bs : to_be_bytes (length bs) (from_be_bytes bs) = bs.
Proof.
  induction bs as [|b bs IH] using rev_ind; [reflexivity|].
  rewrite length_app, Nat.add_comm. cbn [length Nat.add].
  rewrite to_be_bytes_snoc, from_be_bytes_app.
  change (blen [b]) with 1. rewrite N.pow_1_r.
  change (from_be_bytes [b]) with (0 * 256 + Byte.to_N b).
  pose proof (to_N_lt b). f_equal.
  - rewrite N.mul_0_l, N.add_0_l, N.div_add_l, N.div_small, N.add_0_r by lia.
    exact IH.
  - f_equal. rewrite <-(as_u8_to_N b) at 2. apply to_N_inj.
    rewrite !to_N_as_u8, N.mul_0_l, N.add_0_l, N.add_comm.
    by rewrite N.Div0.mod_add.
Qed.

(** ** The cursor *)

Lemma consumes_fits_r r bs r' : consumes r bs r' -> fits r'.
Proof.
  intros [F B P R]. apply (f_equal length) in R. unfold remaining in R.
  rewrite length_app, !length_drop in R. unfold fits in *. rewrite B in *. lia.
Qed.

Lemma consumes_nil r r' : fits r -> consumes r [] r' <-> r' = r.
Proof.
  intros F. split.
  - intros [_ B P _]. destruct r, r'. cbn in *. f_equal; lia || done.
  - intros ->. split; cbn; auto.
Qed.

Lemma consumes_advance r bs s :
  fits r -> remaining r = bs ++ s -> consumes r bs (advance r (length bs)).
Proof.
  intros F E. split; [done..|]. rewrite E. f_equal.
  unfold remaining, advance in *. cbn [buf pos].
  by rewrite <-drop_drop, E, drop_app_length.
Qed.

Lemma consumes_is_advance r bs r' :
  consumes r bs r' -> r' = advance r (length bs).
Proof. intros [_ B P _]. destruct r'. cbn in *. by subst. Qed.

Lemma consumes_app r a b r2 :
  consumes r (a ++ b) r2 <-> exists r1, consumes r a r1 /\ consumes r1 b r2.
Proof.
  split.
  - intros H. exists (advance r (length a)).
    assert (consumes r a (advance r (length a))) as Ha.
    { apply (consumes_advance _ _ (b ++ remaining r2)); [apply H|].
      rewrite (consumes_rem _ _ _ H). by rewrite app_assoc. }
    split; [done|]. pose proof (consumes_fits_r _ _ _ Ha) as F1.
    destruct H as [F B P R], Ha as [_ B1 P1 R1].
    split; [done | by rewrite B1 | |].
    + rewrite P, P1, length_app. lia.
    + rewrite R1, <-app_assoc in R. by apply app_inv_head in R.
  - intros (r1 & [F1 B1 P1 R1] & [F2 B2 P2 R2]).
    split; [done | by rewrite B2 | rewrite length_app; lia |].
    by rewrite R1, R2, app_assoc.
Qed.

Lemma codec_fits {A} {enc : A -> bytes} {dec wf} `{!Codec enc dec wf} r a r' :
  fits r -> dec r = Ok (a, r') -> fits r'.
Proof. intros F [_ H]%codec_iff; [|done]. by eapply consumes_fits_r. Qed.

(** ** Monad steps *)

Lemma rd_bind_ok {A B} (m : Reader A) (k : A -> Reader B) r b r2 :
  (x ← m; k x) r = Ok (b, r2) <->
  exists a r1, m r = Ok (a, r1) /\ k a r1 = Ok (b, r2).
Proof.
  unfold mbind, reader_bind. destruct (m r) as [[a r1]|e]; split.
  - intros H. by exists a, r1.
  - by intros (? & ? & [= <- <-] & H).
  - done.
  - by intros (? & ? & [=] & _).
Qed.

Lemma rd_bind_run {A B} (m : Reader A) (k : A -> Reader B) r a r1 :
  m r = Ok (a, r1) -> (x ← m; k x) r = k a r1.
Proof. unfold mbind, reader_bind. by intros ->. Qed.

Lemma rd_bind_ext {A B} (m : Reader A) (k k' : A -> Reader B) r :
  (forall a r1, k a r1 = k' a r1) -> (x ← m; k x) r = (x ← m; k' x) r.
Proof. intros H. unfold mbind, reader_bind. by destruct (m r) as [[??]|]. Qed.

Lemma rd_bind_assoc {A B C} (m : Reader A) (k : A -> Reader B) (h : B -> Reader C) r :
  (y ← (x ← m; k x); h y) r = (x ← m; y ← k x; h y) r.
Proof. unfold mbind, reader_bind. by destruct (m r) as [[??]|]. Qed.

Lemma rd_bind_ret {A B} (a : A) (k : A -> Reader B) r :
  (x ← mret a; k x) r = k a r.
Proof. reflexivity. Qed.

Lemma rd_bind_err {A B} (m : Reader A) (k : A -> Reader B) r e :
  m r = Err e -> (x ← m; k x) r = Err e.
Proof. unfold mbind, reader_bind. by intros ->. Qed.

Lemma mret_ok {A} (x a : A) r r' :
  (mret x : Reader A) r = Ok (a, r') <-> a = x /\ r' = r.
Proof.
  unfold mret, reader_ret. split; [by intros [= <- <-] | by intros [-> ->]].
Qed.

Lemma fail_ok {A} e r (a : A) r' : fail e r = Ok (a, r') <-> False.
Proof. done. Qed.

Lemma guard_ok c e r u r' : guard c e r = Ok (u, r') <-> c = true /\ r' = r.
Proof.
  unfold guard. destruct c, u.
  - rewrite mret_ok. by split; intros [_ ->].
  - rewrite fail_ok. by split; [|intros [? _]].
Qed.

Lemma lift_ok {A} (m : result A) r a r' :
  lift m r = Ok (a, r') <-> m = Ok a /\ r' = r.
Proof.
  unfold lift. rewrite result_bind_ok. split.
  - by intros (? & -> & [= <- <-]).
  - intros [-> ->]. eauto.
Qed.

(** ** Bytes and slices *)

Lemma read_byte_ok r b r' :
  fits r -> read_byte r = Ok (b, r') <-> consumes r [b] r'.
Proof.
  intros F. unfold read_byte. split.
  - destruct (buf r !! pos r) as [c|] eqn:E; [|done]. intros [= <- <-].
    apply (consumes_advance r [c] (drop (S (pos r)) (buf r))); [done|].
    unfold remaining. by rewrite (drop_S _ _ _ E).
  - intros H. pose proof (consumes_rem _ _ _ H) as R.
    assert (buf r !! pos r = Some b) as ->.
    { rewrite <-(Nat.add_0_r (pos r)), <-lookup_drop. fold (remaining r). by rewrite R. }
    by rewrite (consumes_is_advance _ _ _ H).
Qed.

Lemma peek_ok e r b r' :
  peek e r = Ok (b, r') <-> head (remaining r) = Some b /\ r' = r.
Proof.
  unfold peek. destruct (head (remaining r)); split.
  - by intros [= <- <-].
  - by intros [[= <-] ->].
  - done.
  - by intros [? _].
Qed.

Lemma read_n_ok n r bs r' :
  fits r -> read_n n r = Ok (bs, r') <-> blen bs = n /\ consumes r bs r'.
Proof.
  intros F. unfold read_n. split.
  - intros H. repeat case_bool; try done. to_prop. injection H as <- <-.
    assert (length (take (N.to_nat n) (remaining r)) = N.to_nat n) as L.
    { rewrite length_take. unfold remaining. rewrite length_drop. unfold blen in *. lia. }
    split; [unfold blen; rewrite L; lia|]. rewrite <-L at 2.
    apply (consumes_advance _ _ (drop (N.to_nat n) (remaining r))); [done|].
    by rewrite take_drop.
  - intros [<- H]. pose proof (consumes_rem _ _ _ H) as R.
    pose proof (f_equal length R) as L. unfold remaining in L at 1.
    rewrite length_drop, length_app in L.
    rewrite (consumes_is_advance _ _ _ H). unfold fits, blen in *.
    rewrite (proj2 (N.leb_gt _ _)), (proj2 (N.ltb_ge _ _)), Nat2N.id by lia.
    by rewrite R, take_app_length.
Qed.

(** ** Item heads *)

(** The initial byte of major type [m] and additional information [i]. *)
Definition initial_byte (m i : N) : byte := as_u8 (N.lor (N.shiftl m 5) i).

Lemma lor_shiftl5 m i : i < 32 -> N.lor (N.shiftl m 5) i = m * 32 + i.
Proof.
  intros Hi. assert (N.land (N.shiftl m 5) i = 0) as L.
  { apply N.bits_inj_0. intros n. rewrite N.land_spec.
    destruct (N.lt_ge_cases n 5).
    - by rewrite N.shiftl_spec_low.
    - rewrite (N.bits_above_log2 i n), andb_false_r; [done|].
      destruct (N.eq_dec i 0) as [->|]; [cbn; lia|].
      apply N.log2_lt_pow2; [lia|]. apply N.lt_le_trans with (2 ^ 5); [done|].
      apply N.pow_le_mono_r; lia. }
  rewrite <-N.lxor_lor, <-N.add_nocarry_lxor, N.shiftl_mul_pow2 by done. done.
Qed.

Lemma initial_byte_value m i : m < 8 -> i < 32 -> Byte.to_N (initial_byte m i) = m * 32 + i.
Proof.
  intros Hm Hi. unfold initial_byte. rewrite to_N_as_u8, lor_shiftl5 by done.
  apply N.mod_small. lia.
Qed.

Lemma major_of_byte b : N.shiftr (Byte.to_N b) 5 = Byte.to_N b / 32.
Proof. apply N.shiftr_div_pow2. Qed.

Lemma info_of_byte b : N.land (Byte.to_N b) 0x1F = Byte.to_N b mod 32.
Proof. apply (N.land_ones _ 5). Qed.

Lemma major_initial_byte m i :
  m < 8 -> i < 32 -> N.shiftr (Byte.to_N (initial_byte m i)) 5 = m.
Proof.
  intros Hm Hi. rewrite major_of_byte, initial_byte_value by done.
  rewrite N.div_add_l, N.div_small by lia. lia.
Qed.

Lemma info_initial_byte m i :
  m < 8 -> i < 32 -> N.land (Byte.to_N (initial_byte m i)) 0x1F = i.
Proof.
  intros Hm Hi. rewrite info_of_byte, initial_byte_value by done.
  rewrite N.add_comm, N.Div0.mod_add. by apply N.mod_small.
Qed.

Lemma initial_byte_split b m i :
  m = N.shiftr (Byte.to_N b) 5 -> i = N.land (Byte.to_N b) 0x1F ->
  m < 8 /\ i < 32 /\ b = initial_byte m i.
Proof.
  rewrite major_of_byte, info_of_byte. intros -> ->.
  pose proof (to_N_lt b). pose proof (N.mod_lt (Byte.to_N b) 32).
  assert (Byte.to_N b / 32 < 8) by (apply N.Div0.div_lt_upper_bound; lia).
  split; [done|]. split; [lia|]. apply to_N_inj.
  rewrite initial_byte_value by lia. rewrite N.mul_comm. apply N.div_mod'.
Qed.

(** The additional information and the following bytes of the shortest head
    with argument [arg]. *)
Definition head_info (arg : N) : N :=
  if arg <=? 23 then arg
  else if arg <=? u8_max then 24
  else if arg <=? u16_max then 25
  else if arg <=? u32_max then 26
  else 27.

Definition head_rest (arg : N) : bytes :=
  if arg <=? 23 then []
  else if arg <=? u8_max then [as_u8 arg]
  else if arg <=? u16_max then to_be_bytes 2 arg
  else if arg <=? u32_max then to_be_bytes 4 arg
  else to_be_bytes 8 arg.

Lemma head_bytes_eq m arg :
  head_bytes m arg = initial_byte m (head_info arg) :: head_rest arg.
Proof. unfold head_bytes, write_head, head_info, head_rest. by repeat case_match. Qed.

Lemma head_info_lt arg : head_info arg < 32.
Proof. unfold head_info. repeat case_match; to_prop; lia. Qed.

Lemma write_head_app m arg w :
  wbuf (write_head (N.shiftl m 5) arg w) = wbuf w ++ head_bytes m arg.
Proof.
  rewrite head_bytes_eq. unfold head_info, head_rest, write_head, push, extend.
  by repeat case_match; cbn [wbuf]; rewrite <-?app_assoc.
Qed.

(** ** Reading a head *)

Lemma read_arg_ok w min e r v r' :
  fits r ->
  read_arg w min e r = Ok (v, r') <->
  min < v /\ v < 256 ^ N.of_nat w /\ consumes r (to_be_bytes w v) r'.
Proof.
  intros F. unfold read_arg. rewrite rd_bind_ok. split.
  - intros (bs & r1 & [L C]%read_n_ok & H); [|done].
    apply rd_bind_ok in H as (? & ? & [Hg ->]%guard_ok & [-> ->]%mret_ok). to_prop.
    assert (length bs = w) as <- by (unfold blen in L; lia).
    rewrite to_from_be_bytes. pose proof (from_be_bytes_lt bs). done.
  - intros (Hm & Hv & C). exists (to_be_bytes w v), r'. split.
    + apply read_n_ok; [done|]. unfold blen. by rewrite to_be_bytes_length.
    + rewrite from_to_be_bytes, N.mod_small by done. apply rd_bind_ok.
      exists tt, r'. rewrite guard_ok, mret_ok, N.ltb_lt. done.
Qed.

Definition read_arg_of (info : N) : Reader N :=
  if info <=? 23 then mret info
  else if info =? 24 then
    b ← read_byte;
    _ ← guard (negb (Byte.to_N b <? 24))
          (Error.CborNotCanonical "u8 length-form used for small value");
    mret (Byte.to_N b)
  else if info =? 25 then read_arg 2 u8_max "u16 length-form used for u8-fit value"
  else if info =? 26 then read_arg 4 u16_max "u32 length-form used for u16-fit value"
  else if info =? 27 then read_arg 8 u32_max "u64 length-form used for u32-fit value"
  else if info =? 31 then fail (Error.CborNotCanonical "indefinite-length item")
  else fail (Error.CborDecode "reserved additional info").

Lemma read_head_unfold :
  read_head = (ib ← read_byte;
               arg ← read_arg_of (N.land (Byte.to_N ib) 0x1F);
               mret (N.shiftr (Byte.to_N ib) 5, arg)).
Proof. reflexivity. Qed.

Lemma read_arg_of_ok i r arg r' :
  fits r ->
  read_arg_of i r = Ok (arg, r') <->
  arg <= u64_max /\ i = head_info arg /\ consumes r (head_rest arg) r'.
Proof.
  intros F. unfold read_arg_of. split.
  - intros H. repeat case_bool; to_prop; subst; try done.
    + apply mret_ok in H as [-> ->]. unfold head_info, head_rest, u64_max.
      rewrite (proj2 (N.leb_le _ _)) by done. split; [lia|]. by rewrite consumes_nil.
    + apply rd_bind_ok in H as (b & r1 & C%read_byte_ok & H); [|done].
      apply rd_bind_ok in H as (? & ? & [Hg ->]%guard_ok & [-> ->]%mret_ok). to_prop.
      pose proof (to_N_lt b). unfold head_info, head_rest, u8_max, u64_max.
      rewrite (proj2 (N.leb_gt _ _)), (proj2 (N.leb_le _ 255)) by lia.
      rewrite as_u8_to_N. split; [lia|done].
    + apply read_arg_ok in H as (? & ? & C); [|done].
      unfold head_info, head_rest, u8_max, u16_max, u64_max in *.
      rewrite !(proj2 (N.leb_gt _ _)), (proj2 (N.leb_le _ 65535)) by lia. split; [lia|done].
    + apply read_arg_ok in H as (? & ? & C); [|done].
      unfold head_info, head_rest, u8_max, u16_max, u32_max, u64_max in *.
      rewrite !(proj2 (N.leb_gt _ _)), (proj2 (N.leb_le _ 4294967295)) by lia. split; [lia|done].
    + apply read_arg_ok in H as (? & ? & C); [|done].
      unfold head_info, head_rest, u8_max, u16_max, u32_max, u64_max in *.
      rewrite !(proj2 (N.leb_gt _ _)) by lia. split; [lia|done].
  - intros (Hm & -> & C). unfold head_info, head_rest, u64_max in *.
    destruct (arg <=? 23) eqn:E1; [|destruct (arg <=? u8_max) eqn:E2;
      [|destruct (arg <=? u16_max) eqn:E3; [|destruct (arg <=? u32_max) eqn:E4]]].
    { rewrite E1. apply consumes_nil in C as ->; done. }
    all: cbv [N.leb N.eqb N.compare Pos.compare Pos.compare_cont Pos.eqb]; to_prop.
    all: unfold u8_max, u16_max, u32_max in *.
    + apply rd_bind_ok. exists (as_u8 arg), r'. rewrite read_byte_ok by done.
      split; [done|]. rewrite to_N_as_u8, N.mod_small by lia.
      apply rd_bind_ok. exists tt, r'. rewrite guard_ok, mret_ok.
      rewrite (proj2 (N.ltb_ge _ _)) by lia. done.
    + apply read_arg_ok; [done|]. split; [done|]. split; [|done]. change (256 ^ N.of_nat 2) with 65536. lia.
    + apply read_arg_ok; [done|]. split; [done|]. split; [|done]. change (256 ^ N.of_nat 4) with 4294967296. lia.
    + apply read_arg_ok; [done|]. split; [done|]. split; [|done].
      change (256 ^ N.of_nat 8) with 18446744073709551616. lia.
Qed.

Lemma read_head_ok r m arg r' :
  fits r ->
  read_head r = Ok ((m, arg), r') <->
  m < 8 /\ arg <= u64_max /\ consumes r (head_bytes m arg) r'.
Proof.
  intros F. rewrite read_head_unfold, head_bytes_eq, rd_bind_ok. split.
  - intros (ib & r1 & C%read_byte_ok & H); [|done].
    apply rd_bind_ok in H as (a & r2 & Har & E). apply mret_ok in E as [[= -> ->] ->].
    apply read_arg_of_ok in Har as (Ha & Hi & C2); [|by eapply consumes_fits_r].
    destruct (initial_byte_split ib _ _ eq_refl eq_refl) as (? & ? & Hb).
    split; [done|]. split; [done|]. apply (consumes_app _ [_]). exists r1.
    rewrite <-Hi, <-Hb. done.
  - intros (Hm & Ha & C). apply (consumes_app _ [_]) in C as (r1 & C1 & C2).
    pose proof (head_info_lt arg). pose proof (consumes_fits_r _ _ _ C1).
    exists (initial_byte m (head_info arg)), r1. split; [by apply read_byte_ok|].
    rewrite major_initial_byte, info_initial_byte by done.
    apply rd_bind_ok. exists arg, r'. by rewrite read_arg_of_ok, mret_ok.
Qed.

(** The head of a major type followed by the payload it announces. *)
Lemma read_major_ok {A} m e (k : N -> Reader A) r a r' :
  fits r -> m < 8 ->
  ('(major, arg) ← read_head; _ ← guard (major =? m) e; k arg) r = Ok (a, r') <->
  exists arg r1, arg <= u64_max /\ consumes r (head_bytes m arg) r1 /\
    fits r1 /\ k arg r1 = Ok (a, r').
Proof.
  intros F Hm. rewrite rd_bind_ok. split.
  - intros ([m' arg] & r1 & (Hm' & Ha & C)%read_head_ok & Hk); [|done].
    apply rd_bind_ok in Hk as (u & r2 & [Hg ->]%guard_ok & Hk). to_prop. subst m'.
    exists arg, r1. eauto using consumes_fits_r.
  - intros (arg & r1 & Ha & C & F1 & Hk). exists (m, arg), r1. split; [by apply read_head_ok|].
    cbv beta iota. apply rd_bind_ok. exists tt, r1. rewrite guard_ok, N.eqb_refl. done.
Qed.

(** ** Encoded items *)

Lemma uint_eq n : uint n = head_bytes 0 n.
Proof. reflexivity. Qed.

Lemma bytestr_eq b : bytestr b = head_bytes 2 (blen b) ++ b.
Proof. reflexivity. Qed.

Lemma text_eq t : text t = head_bytes 3 (blen (as_bytes t)) ++ as_bytes t.
Proof. reflexivity. Qed.

Lemma key_text t : key t = text t.
Proof. reflexivity. Qed.

Lemma blen_bytestr_le b : blen b <= blen (bytestr b).
Proof. rewrite bytestr_eq, blen_app. lia. Qed.

(** A head is at most nine bytes long. *)
Lemma head_bytes_le m a : blen (head_bytes m a) <= 9.
Proof.
  rewrite head_bytes_eq. unfold head_rest, blen.
  repeat case_match; cbn [length]; rewrite ?to_be_bytes_length; lia.
Qed.

Lemma blen_uint_ub n : blen (uint n) <= 9.
Proof. apply head_bytes_le. Qed.

Lemma blen_bytestr_ub b : blen (bytestr b) <= 9 + blen b.
Proof. rewrite bytestr_eq, blen_app. pose proof (head_bytes_le 2 (blen b)). lia. Qed.

Lemma as_bytes_length t : length (as_bytes t) = String.length t.
Proof. induction t; cbn; [done|]. by f_equal. Qed.

(** ** Codecs of the primitive items *)

#[export] Instance codec_u64 : Codec uint read_u64 (fun n => n < u64_size).
Proof.
  intros r a r' F. unfold read_u64. rewrite (read_major_ok 0) by done. rewrite uint_eq.
  unfold u64_max, u64_size. split.
  - intros (arg & r1 & Ha & C & F1 & [-> ->]%mret_ok). split; [lia|done].
  - intros [Ha C]. exists a, r'. rewrite mret_ok.
    split_and!; [lia|done|by eapply consumes_fits_r|done|done].
Qed.

#[export] Instance codec_bytes : Codec bytestr read_bytes wf_bytes.
Proof.
  intros r a r' F. unfold read_bytes. rewrite (read_major_ok 2) by done. rewrite bytestr_eq.
  unfold wf_bytes, u64_max, u64_size. rewrite consumes_app. split.
  - intros (arg & r1 & Ha & C & F1 & [<- C2]%read_n_ok); [|done]. eauto with lia.
  - intros (Ha & r1 & C1 & C2). exists (blen a), r1.
    pose proof (consumes_fits_r _ _ _ C1). rewrite read_n_ok by done. auto with lia.
Qed.

#[export] Instance codec_text : Codec text read_text wf_text.
Proof.
  intros r a r' F. unfold read_text. rewrite (read_major_ok 3) by done. rewrite text_eq.
  unfold wf_text, u64_max, u64_size. rewrite consumes_app. split.
  - intros (arg & r1 & Ha & C & F1 & Hk). apply rd_bind_ok in Hk as (bs & r2 & Hn & Hl).
    apply read_n_ok in Hn as [<- C2]; [|done]. apply lift_ok in Hl as [Hu ->].
    apply ok_or_ok, from_utf8_Some in Hu as [Hv ->]. eauto with lia.
  - intros ([Hv Ha] & r1 & C1 & C2). exists (blen (as_bytes a)), r1.
    pose proof (consumes_fits_r _ _ _ C1). split; [lia|]. split; [done|]. split; [done|].
    apply rd_bind_ok. exists (as_bytes a), r'. rewrite read_n_ok by done.
    rewrite lift_ok, ok_or_ok, from_utf8_Some. auto.
Qed.

(** A collection header bounds its count by [MAX_CBOR_ENTRIES]. *)
Lemma read_count_ok m e1 e2 r n r' :
  fits r -> m < 8 ->
  ('(major, arg) ← read_head; _ ← guard (major =? m) e1;
   _ ← guard (arg <=? MAX_CBOR_ENTRIES) e2; mret arg : Reader N) r = Ok (n, r') <->
  n <= MAX_CBOR_ENTRIES /\ consumes r (head_bytes m n) r'.
Proof.
  intros F Hm. rewrite (read_major_ok m) by done. split.
  - intros (arg & r1 & Ha & C & F1 & Hk).
    apply rd_bind_ok in Hk as (u & r2 & [Hg ->]%guard_ok & [-> ->]%mret_ok). by to_prop.
  - intros [Hn C]. exists n, r'. split; [|split; [done|split; [by eapply consumes_fits_r|]]].
    + eapply N.le_trans; [exact Hn|]. by vm_compute.
    + apply rd_bind_ok. exists tt, r'. by rewrite guard_ok, mret_ok, N.leb_le.
Qed.

#[export] Instance codec_map_header :
  Codec (head_bytes 5) read_map_header (fun n => n <= MAX_CBOR_ENTRIES).
Proof. intros r a r' F. by apply read_count_ok. Qed.

#[export] Instance codec_array_header :
  Codec (head_bytes 4) read_array_header (fun n => n <= MAX_CBOR_ENTRIES).
Proof. intros r a r' F. by apply read_count_ok. Qed.

#[export] Instance codec_bool : Codec boolean read_bool (fun _ => True).
Proof.
  intros r a r' F. unfold read_bool. rewrite rd_bind_ok. split.
  - intros (b & r1 & C%read_byte_ok & Hk); [|done]. split; [done|].
    repeat case_decide; subst; [..|done];
    by apply mret_ok in Hk as [-> ->].
  - intros [_ C]. exists (if a then SIMPLE_TRUE else SIMPLE_FALSE), r'.
    rewrite read_byte_ok by done. split; [done|]. by destruct a.
Qed.

(** ** Codecs of the decoding idioms *)

(** An encoding that does not start with the byte of [null]. *)
Class NonNull {A} (enc : A -> bytes) : Prop :=
  non_null : forall a, exists b rest, enc a = b :: rest /\ b <> SIMPLE_NULL.

Lemma head_non_null m arg : m < 7 -> initial_byte m (head_info arg) <> SIMPLE_NULL.
Proof.
  intros Hm H. apply (f_equal Byte.to_N) in H.
  pose proof (head_info_lt arg). rewrite initial_byte_value in H by lia.
  unfold SIMPLE_NULL in H. rewrite to_N_as_u8 in H. change (0xF6 mod 256) with 246 in H. lia.
Qed.

#[export] Instance non_null_bytes : NonNull bytestr.
Proof. intros b. rewrite bytestr_eq, head_bytes_eq. eexists _, _. split; [done|]. by apply head_non_null. Qed.
#[export] Instance non_null_text : NonNull text.
Proof. intros b. rewrite text_eq, head_bytes_eq. eexists _, _. split; [done|]. by apply head_non_null. Qed.
#[export] Instance non_null_uint : NonNull uint.
Proof. intros b. rewrite uint_eq, head_bytes_eq. eexists _, _. split; [done|]. by apply head_non_null. Qed.

Lemma consumes_null r r' :
  fits r -> consumes r null r' <-> head (remaining r) = Some SIMPLE_NULL /\ r' = advance r 1.
Proof.
  intros F. split.
  - intros C. split; [by rewrite (consumes_rem _ _ _ C)|by apply consumes_is_advance in C].
  - intros [Hh ->]. destruct (remaining r) as [|b s] eqn:E; [done|]. injection Hh as ->.
    by apply (consumes_advance r null s).
Qed.

(** An optional item: [null], or an item that does not start like [null].
    Both forms of the source are covered. *)
Lemma codec_or_null {A} (enc : A -> bytes) (dec : Reader A) (wf : A -> Prop) (e : Error.t)
    (skip : Reader unit) `{!Codec enc dec wf} `{!NonNull enc} :
  (forall r, fits r -> head (remaining r) = Some SIMPLE_NULL -> skip r = Ok (tt, advance r 1)) ->
  Codec (or_null enc)
    (b ← peek e;
     if decide (b = SIMPLE_NULL) then _ ← skip; mret None else a ← dec; mret (Some a))
    (from_option wf True).
Proof.
  intros Hskip r o r' F. rewrite rd_bind_ok. split.
  - intros (b & r1 & [Hb ->]%peek_ok & Hk). case_decide.
    + subst b. rewrite (rd_bind_run _ _ _ _ _ (Hskip r F Hb)) in Hk.
      apply mret_ok in Hk as [-> ->]. cbn. by rewrite consumes_null.
    + apply rd_bind_ok in Hk as (a & r2 & [Hwf C]%codec_iff & [-> ->]%mret_ok); done.
  - intros [Hwf C]. destruct o as [a|]; cbn in *.
    + destruct (non_null a) as (b & rest & Ea & Hb). exists b, r. rewrite peek_ok.
      split; [by rewrite (consumes_rem _ _ _ C), Ea|]. rewrite decide_False by done.
      apply rd_bind_ok. exists a, r'. rewrite codec_iff by done. by rewrite mret_ok.
    + exists SIMPLE_NULL, r. apply consumes_null in C as [Hh ->]; [|done].
      rewrite peek_ok. split; [done|]. rewrite decide_True by done.
      by rewrite (rd_bind_run _ _ _ _ _ (Hskip r F Hh)), mret_ok.
Qed.

#[export] Instance codec_bytes_or_null :
  Codec (or_null bytestr) read_bytes_or_null (from_option wf_bytes True).
Proof. by apply codec_or_null; [apply _..|]. Qed.

Lemma read_bytes_or_null_null r :
  fits r -> head (remaining r) = Some SIMPLE_NULL ->
  (_ ← read_bytes_or_null; mret tt : Reader unit) r = Ok (tt, advance r 1).
Proof.
  intros F Hh. rewrite (rd_bind_run _ _ _ None (advance r 1)); [done|].
  apply codec_iff; [done|]. cbn. by rewrite consumes_null.
Qed.

#[export] Instance codec_nullable {A} (enc : A -> bytes) (item : Reader A) wf missing
    `{!Codec enc item wf} `{!NonNull enc} :
  Codec (or_null enc) (read_nullable missing item) (from_option wf True).
Proof.
  intros r o r' F.
  rewrite <-(codec_or_null enc item wf (Error.CborDecode missing) _
               read_bytes_or_null_null r o r' F).
  unfold read_nullable. rewrite !rd_bind_ok. apply exist_proper. intros b.
  apply exist_proper. intros r1. case_decide; [|done].
  unfold mbind, reader_bind. by destruct (read_bytes_or_null r1) as [[??]|].
Qed.

#[export] Instance codec_optional_text missing :
  Codec (or_null text) (read_optional_text missing) (from_option wf_text True).
Proof. exact (codec_nullable text read_text wf_text missing). Qed.

#[export] Instance codec_fixed field n :
  TCEq (n <? u64_size) true ->
  Codec bytestr (read_fixed_bytes field n) (fun b => blen b = n).
Proof.
  intros Hn r b r' F. apply TCEq_eq in Hn. to_prop. unfold read_fixed_bytes.
  rewrite rd_bind_ok. split.
  - intros (b' & r1 & [Hwf C]%codec_iff & Hk); [|done].
    apply rd_bind_ok in Hk as (u & r2 & [Hg ->]%guard_ok & [-> ->]%mret_ok). by to_prop.
  - intros [Hl C]. exists b, r'. rewrite codec_iff by done. unfold wf_bytes.
    split; [by rewrite Hl|]. apply rd_bind_ok. exists tt, r'.
    by rewrite guard_ok, mret_ok, N.eqb_eq.
Qed.

#[export] Instance codec_optional_fixed field n :
  TCEq (n <? u64_size) true ->
  Codec (or_null bytestr) (read_optional_fixed field n)
        (from_option (fun b => blen b = n) True).
Proof.
  intros Hn r o r' F. apply TCEq_eq in Hn. to_prop. unfold read_optional_fixed.
  rewrite rd_bind_ok. split.
  - intros (o' & r1 & [Hwf C]%codec_iff & Hk); [|done].
    destruct o' as [b|]; cbn [from_option or_null] in *.
    + apply rd_bind_ok in Hk as (u & r2 & [Hg ->]%guard_ok & [-> ->]%mret_ok). by to_prop.
    + by apply mret_ok in Hk as [-> ->].
  - intros [Hwf C]. exists o, r'. rewrite codec_iff by done.
    destruct o as [b|]; cbn [from_option or_null] in *.
    + split; [unfold wf_bytes; by rewrite Hwf|].
      apply rd_bind_ok. exists tt, r'. by rewrite guard_ok, mret_ok, N.eqb_eq.
    + by rewrite mret_ok.
Qed.

#[export] Instance codec_u8 what : Codec uint (read_u8 what) (fun n => n <= 0xFF).
Proof.
  intros r n r' F. unfold read_u8. rewrite rd_bind_ok. split.
  - intros (n' & r1 & [Hwf C]%codec_iff & Hk); [|done].
    apply rd_bind_ok in Hk as (u & r2 & [Hg ->]%guard_ok & [-> ->]%mret_ok). by to_prop.
  - intros [Hn C]. exists n, r'. rewrite codec_iff by done. unfold u64_size.
    split; [split; [lia|done]|]. apply rd_bind_ok. exists tt, r'.
    rewrite guard_ok, mret_ok, negb_true_iff, N.ltb_ge. done.
Qed.

#[export] Instance codec_expect_map n what :
  TCEq (n <=? MAX_CBOR_ENTRIES) true ->
  Codec (fun _ : unit => head_bytes 5 n) (expect_map n what) (fun _ => True).
Proof.
  intros Hn r u r' F. apply TCEq_eq in Hn. to_prop. unfold expect_map. rewrite rd_bind_ok. split.
  - intros (m & r1 & [Hwf C]%codec_iff & [Hg ->]%guard_ok); [|done]. to_prop. by subst.
  - intros [_ C]. exists n, r'. rewrite codec_iff, guard_ok by done. by rewrite N.eqb_eq.
Qed.

#[export] Instance codec_expect_key k what :
  TCEq (utf8_valid (as_bytes k) && (blen (as_bytes k) <? u64_size)) true ->
  Codec (fun _ : unit => text k) (expect_key k what) (fun _ => True).
Proof.
  intros Hk r u r' F. apply TCEq_eq in Hk. to_prop. unfold expect_key. rewrite rd_bind_ok. split.
  - intros (t & r1 & [Hwf C]%codec_iff & [Hg ->]%guard_ok); [|done]. to_prop. by subst.
  - intros [_ C]. exists k, r'. rewrite codec_iff, guard_ok by done. by rewrite bool_decide_eq_true.
Qed.

(** ** Collections *)

Lemma write_array_eq {A} (enc : A -> bytes) l :
  write_array enc l = head_bytes 4 (N.of_nat (length l)) ++ concat (map enc l).
Proof.
  unfold write_array, write_array_header, MT_ARRAY. rewrite write_head_app. cbn [wbuf new_writer app].
  generalize (head_bytes 4 (N.of_nat (length l))) as h.
  induction l as [|a l IH]; intros h; cbn [fold_left map concat].
  - by rewrite app_nil_r.
  - by rewrite IH, app_assoc.
Qed.

#[export] Instance non_null_array {A} (enc : A -> bytes) : NonNull (write_array enc).
Proof. intros l. rewrite write_array_eq, head_bytes_eq. eexists _, _. split; [done|]. by apply head_non_null. Qed.

Lemma repeat_reader_ok {A} (enc : A -> bytes) (item : Reader A) wf `{!Codec enc item wf} n r l r' :
  fits r ->
  repeat_reader n item r = Ok (l, r') <->
  length l = n /\ Forall wf l /\ consumes r (concat (map enc l)) r'.
Proof.
  revert r l. induction n as [|n IH]; intros r l F; cbn [repeat_reader].
  - rewrite mret_ok. split.
    + intros [-> ->]. cbn. by rewrite consumes_nil.
    + intros (Hl & _ & C). destruct l; [|done]. by apply consumes_nil in C.
  - rewrite rd_bind_ok. split.
    + intros (a & r1 & [Hwf C]%codec_iff & Hk); [|done].
      apply rd_bind_ok in Hk as (l' & r2 & Hl & [-> ->]%mret_ok).
      apply IH in Hl as (<- & Hall & C2); [|by eapply consumes_fits_r].
      cbn [map concat]. rewrite consumes_app. split_and!; [done|by constructor|eauto].
    + intros (Hl & Hall & C). destruct l as [|a l]; [done|]. inversion Hall; subst.
      cbn [map concat] in C. apply consumes_app in C as (r1 & C1 & C2).
      pose proof (consumes_fits_r _ _ _ C1). exists a, r1. rewrite codec_iff by done.
      split; [done|]. apply rd_bind_ok. exists l, r'. rewrite mret_ok, IH by done. eauto.
Qed.

#[export] Instance codec_array {A} (enc : A -> bytes) (item : Reader A) wf `{!Codec enc item wf} :
  Codec (write_array enc) (read_array item)
        (fun l => Forall wf l /\ N.of_nat (length l) <= MAX_CBOR_ENTRIES).
Proof.
  intros r l r' F. unfold read_array. rewrite rd_bind_ok, write_array_eq, consumes_app. split.
  - intros (n & r1 & [Hn C]%codec_iff & Hk); [|done].
    apply (repeat_reader_ok enc item wf) in Hk as (Hl & Hall & C2); [|by eapply consumes_fits_r].
    rewrite Hl, N2Nat.id. eauto.
  - intros ([Hall Hl] & r1 & C1 & C2). exists (N.of_nat (length l)), r1.
    rewrite codec_iff by done. split; [done|]. rewrite Nat2N.id.
    apply (repeat_reader_ok enc item wf); [by eapply consumes_fits_r|done].
Qed.

Lemma encode_map_eq es :
  encode_map es = head_bytes 5 (N.of_nat (length es))
                  ++ concat (map (fun e => key_bytes e ++ value_bytes e) es).
Proof.
  unfold encode_map, write_map_header, MT_MAP.
  assert (forall w, wbuf (fold_left (fun w e => extend (value_bytes e) (extend (key_bytes e) w)) es w)
    = wbuf w ++ concat (map (fun e => key_bytes e ++ value_bytes e) es)) as ->.
  { induction es as [|e es IH]; intros w; cbn [fold_left map concat].
    - by rewrite app_nil_r.
    - rewrite IH. cbn [wbuf extend]. by rewrite <-!app_assoc. }
  by rewrite write_head_app.
Qed.

(** ** Whole messages *)

Lemma check_end_ok e r u r' :
  fits r -> check_end e r = Ok (u, r') <-> remaining r = [] /\ r' = r.
Proof.
  intros [_ Hp]. unfold check_end. rewrite guard_ok. unfold at_end, remaining.
  rewrite Nat.leb_le. split.
  - intros [Hl ->]. split; [by apply drop_ge|done].
  - intros [Hr ->]. apply (f_equal length) in Hr. rewrite length_drop in Hr. cbn in Hr.
    split; [lia|done].
Qed.

Lemma decode_with_ok {A} (body : Reader A) bs a :
  decode_with body bs = Ok a <-> exists r', body (new_reader bs) = Ok (a, r').
Proof.
  unfold decode_with. rewrite result_bind_ok. split.
  - intros ([a' r'] & E & [= ->]). eauto.
  - intros [r' E]. exists (a, r'). by rewrite E.
Qed.

Lemma fits_new bs : blen bs < u64_size -> fits (new_reader bs).
Proof. intros H. split; [done|]. cbn. lia. Qed.

Lemma consumes_new bs x r' :
  consumes (new_reader bs) x r' ->
  blen bs < u64_size /\ bs = x ++ remaining r'.
Proof. intros [[F _] _ _ R]. by rewrite <-R. Qed.

Lemma consumes_whole bs :
  blen bs < u64_size -> exists r', consumes (new_reader bs) bs r' /\ remaining r' = [].
Proof.
  intros F. exists (advance (new_reader bs) (length bs)). split.
  - apply (consumes_advance _ _ []); [by apply fits_new|]. unfold remaining. cbn. by rewrite app_nil_r.
  - unfold remaining, advance. cbn. by rewrite drop_all.
Qed.

(** A decoder without a trailing-bytes check accepts the encoding of a well
    formed value followed by anything. *)
Lemma decode_prefix {A} (enc : A -> bytes) (body : Reader A) wf `{!Codec enc body wf} bs a :
  blen bs < u64_size ->
  decode_with body bs = Ok a <-> wf a /\ exists s, bs = enc a ++ s.
Proof.
  intros F. rewrite decode_with_ok. split.
  - intros (r' & [Hwf C]%codec_iff); [|by apply fits_new].
    apply consumes_new in C as [_ ->]. eauto.
  - intros [Hwf [s ->]]. exists (advance (new_reader (enc a ++ s)) (length (enc a))).
    apply codec_iff; [by apply fits_new|]. split; [done|].
    apply (consumes_advance _ _ s); [by apply fits_new|done].
Qed.

(** A decoder that checks for trailing bytes accepts one encoding only. *)
Lemma decode_exact {A} (enc : A -> bytes) (body : Reader A) wf e `{!Codec enc body wf} bs a :
  blen bs < u64_size ->
  decode_with (a ← body; _ ← check_end e; mret a) bs = Ok a <-> wf a /\ bs = enc a.
Proof.
  intros F. rewrite decode_with_ok. split.
  - intros (r' & H). apply rd_bind_ok in H as (a' & r1 & [Hwf C]%codec_iff & H); [|by apply fits_new].
    apply rd_bind_ok in H as (u & r2 & Hc & [-> ->]%mret_ok).
    apply check_end_ok in Hc as [Hr ->]; [|by eapply consumes_fits_r].
    apply consumes_new in C as [_ C]. rewrite Hr, app_nil_r in C. done.
  - intros [Hwf ->]. destruct (consumes_whole (enc a) F) as (r' & C & Hr). exists r'.
    apply rd_bind_ok. exists a, r'. rewrite codec_iff by by apply fits_new.
    split; [done|]. apply rd_bind_ok. exists tt, r'. rewrite mret_ok.
    rewrite check_end_ok by by eapply consumes_fits_r. done.
Qed.

(** A codec's encoder is injective on well-formed values. *)
Lemma codec_inj {A} {enc : A -> bytes} {dec wf} `{!Codec enc dec wf} a b :
  wf a -> wf b -> blen (enc a) < u64_size -> enc a = enc b -> a = b.
Proof.
  intros Ha Hb F E.
  assert (forall x, wf x -> enc x = enc a -> decode_with dec (enc a) = Ok x) as H.
  { intros x Hx Ex. apply (decode_prefix enc dec wf); [done|]. split; [done|].
    exists []. by rewrite Ex, app_nil_r. }
  pose proof (H a Ha eq_refl) as H1. pose proof (H b Hb (eq_sym E)) as H2. congruence.
Qed.

(** An item is no longer than the map that holds it. *)
Lemma blen_value_le es e : In e es -> blen (value_bytes e) <= blen (encode_map es).
Proof.
  intros H. rewrite encode_map_eq, blen_app.
  enough (blen (value_bytes e) <= blen (concat (map (fun e => key_bytes e ++ value_bytes e) es))) by lia.
  induction es as [|x es IH]; [done|]. cbn [map concat]. rewrite !blen_app.
  destruct H as [->|H]; [lia|]. specialize (IH H). lia.
Qed.

(** ** Running a decoder symbolically *)

Lemma codec_run {A} {enc : A -> bytes} {dec : Reader A} {wf : A -> Prop} `{!Codec enc dec wf}
    {B} (k : A -> Reader B) r a r1 res :
  fits r -> consumes r (enc a) r1 -> wf a -> k a r1 = res -> (x ← dec; k x) r = res.
Proof. intros F C Hwf <-. apply rd_bind_run. by apply codec_iff. Qed.

(** Split a consumed concatenation into consecutive runs. *)
Ltac split_consumes C :=
  lazymatch type of C with
  | consumes ?r (?a ++ ?b) ?r' =>
    let r1 := fresh "r" in let C1 := fresh "C" in
    apply consumes_app in C as (r1 & C1 & C);
    pose proof (consumes_fits_r _ _ _ C1);
    split_consumes C
  | _ => pose proof (consumes_fits_r _ _ _ C)
  end.

(** Join consecutive runs into the concatenation of the goal. *)
Ltac join_consumes :=
  lazymatch goal with
  | |- consumes _ (_ ++ _) _ =>
    apply consumes_app; eexists; split; [eassumption|join_consumes]
  | |- _ => eassumption
  end.

(** The concatenation an encoder emits, in right-nested form. *)
Ltac flatten :=
  rewrite encode_map_eq; cbn [length map concat key_bytes value_bytes entry];
  rewrite ?key_text, <-?app_assoc, ?app_nil_r.
Ltac flatten_in C :=
  rewrite encode_map_eq in C; cbn [length map concat key_bytes value_bytes entry] in C;
  rewrite ?key_text, <-?app_assoc, ?app_nil_r in C.

(** The length of a closed part of an encoding. *)
Ltac eval_blen t := let n := eval vm_compute in (blen t) in change (blen t) with n.

(** Invert a successful run, step by step. *)
Ltac rd_inv H :=
  lazymatch type of H with
  | mbind _ _ _ = Ok _ =>
    let x := fresh "x" in let r := fresh "r" in let Hm := fresh "Hm" in
    apply rd_bind_ok in H as (x & r & Hm & H);
    first
      [ apply codec_iff in Hm; [|eassumption];
        let W := fresh "W" in let C := fresh "C" in
        destruct Hm as [W C]; cbv beta in W, C;
        pose proof (consumes_fits_r _ _ _ C)
      | apply guard_ok in Hm as [? ->]; to_prop ];
    rd_inv H
  | mret _ _ = Ok _ => apply mret_ok in H as [-> ->]
  | _ => idtac
  end.

Ltac wf_split := cbv beta; first [assumption | done | lia | split; wf_split].
Ltac wf_solve := destruct_and?; wf_split.

(** Perform the steps of a run on consumed input. *)
Ltac rd_run :=
  lazymatch goal with
  | |- mbind _ ?m ?r = _ =>
    match goal with
    | C : consumes r _ _ |- _ =>
      first
        [ refine (codec_run (dec := m) _ r tt _ _ _ C I _); [assumption|rd_run]
        | eapply (codec_run (dec := m)); [eassumption|exact C|wf_solve|rd_run] ]
    end
  | |- mret _ _ = Ok (?a, _) => destruct a; reflexivity
  | |- _ => idtac
  end.

(** A codec for a decoder made of consecutive items of a map. *)
Ltac solve_codec :=
  let r := fresh "r" in let a := fresh "a" in let r' := fresh "r'" in
  let F := fresh "F" in let H := fresh "H" in let C := fresh "C" in
  intros r a r' F; flatten; split;
  [ intros H; rd_inv H; split; [wf_solve|join_consumes]
  | intros [H C]; split_consumes C; rd_run ].

(** A field read through a conversion: [f] interprets what [dec] read, [g]
    is what the encoder writes for the interpreted value. *)
Lemma codec_map {A B} (enc : A -> bytes) (dec : Reader A) wf (f : A -> B) (g : B -> A)
    `{!Codec enc dec wf} :
  (forall a, g (f a) = a) ->
  Codec (fun b => enc (g b)) (a ← dec; mret (f a)) (fun b => wf (g b) /\ f (g b) = b).
Proof.
  intros Hgf r b r' F. rewrite rd_bind_ok. split.
  - intros (a & r1 & [Hwf C]%codec_iff & [-> ->]%mret_ok); [|done]. by rewrite Hgf.
  - intros [[Hwf Hb] C]. exists (g b), r'. rewrite codec_iff, mret_ok by done. by rewrite Hb.
Qed.

(** The slice a reader walks over, captured verbatim:
    [let start = r.position(); m(&mut r)?; bytes[start..r.position()].to_vec()]. *)
Definition capture (m : Reader unit) : Reader bytes := fun r =>
  match m r with
  | Ok (_, r') => Ok (take (pos r' - pos r) (remaining r), r')
  | Err e => Err e
  end.

Lemma capture_ok {W} (m : Reader unit) (Q : W -> Prop) (f : W -> bytes) r bs r' :
  (m r = Ok (tt, r') <-> exists w, Q w /\ consumes r (f w) r') ->
  capture m r = Ok (bs, r') <-> (exists w, Q w /\ bs = f w) /\ consumes r bs r'.
Proof.
  intros Hm. unfold capture. split.
  - destruct (m r) as [[[] r1]|e] eqn:E; [|done]. intros [= <- ->].
    destruct (proj1 Hm eq_refl) as (w & Hw & C).
    assert (take (pos r' - pos r) (remaining r) = f w) as ->; [|eauto].
    rewrite (consumes_rem _ _ _ C), (consumes_pos _ _ _ C).
    replace (pos r + length (f w) - pos r)%nat with (length (f w)) by lia.
    apply take_app_length.
  - intros [(w & Hw & ->) C]. rewrite (proj2 Hm) by eauto. do 2 f_equal.
    rewrite (consumes_rem _ _ _ C), (consumes_pos _ _ _ C).
    replace (pos r + length (f w) - pos r)%nat with (length (f w)) by lia.
    by rewrite take_app_length.
Qed.

(** A record carried as a byte string and decoded by a whole-message decoder. *)
Lemma codec_embedded {A} (enc : A -> bytes) (dec : bytes -> result A) W :
  (forall bs a, blen bs < u64_size -> dec bs = Ok a <-> W a /\ bs = enc a) ->
  Codec (fun a => bytestr (enc a)) (b ← read_bytes; lift (dec b)) (fun a => W a /\ wf_bytes (enc a)).
Proof.
  intros Hdec r a r' F. rewrite rd_bind_ok. split.
  - intros (b & r1 & [Hb C]%codec_iff & [Hd ->]%lift_ok); [|done].
    apply Hdec in Hd as [Hw ->]; [|done]. done.
  - intros [[Hw Hb] C]. exists (enc a), r'. rewrite codec_iff, lift_ok by done.
    split; [done|]. split; [|done]. by apply Hdec.
Qed.

(** A map header and its first key. *)
Lemma codec_header_key n k what what' :
  TCEq (n <=? MAX_CBOR_ENTRIES) true ->
  TCEq (utf8_valid (as_bytes k) && (blen (as_bytes k) <? u64_size)) true ->
  Codec (fun _ : unit => head_bytes 5 n ++ text k) (_ ← expect_map n what; expect_key k what')
    (fun _ => True).
Proof.
  intros Hn Hk r u r' F. rewrite rd_bind_ok, consumes_app. split.
  - intros ([] & r1 & [_ C]%codec_iff & [_ C2]%codec_iff); [eauto|by eapply consumes_fits_r|done].
  - intros (_ & r1 & C & C2). exists tt, r1. pose proof (consumes_fits_r _ _ _ C).
    rewrite codec_iff by done. split; [done|]. destruct u. by apply codec_iff.
Qed.
