(* ===== verification/CborValue.v ===== *)
(** The abstract data model behind the bytes: CBOR values, their canonical
    encoding (RFC 8949 section 4.2.1), and [skip_value] of
    [sidevers-core/src/messages/direct.rs] and [messages/device.rs], which
    walks over one item.

    [enc] is the specification the encoders of the message modules refine:
    each of them emits [enc v] for a value [v] with [canonical v]. *)

From S2P Require Import Prelude Utf8 Cbor CborCodec.

Open Scope N_scope.

#[local] Set Warnings "-register-all".

(** ** Values *)

Inductive cval : Type :=
| CUint (n : N)
| CBytes (b : bytes)
| CText (t : string)
| CArray (l : list cval)
| CMap (l : list (cval * cval))
| CBool (b : bool)
| CNull.

Fixpoint enc (v : cval) : bytes :=
  match v with
  | CUint n => uint n
  | CBytes b => bytestr b
  | CText t => text t
  | CArray l => head_bytes 4 (N.of_nat (length l)) ++ concat (map enc l)
  | CMap l => head_bytes 5 (N.of_nat (length l))
              ++ concat (map (fun kv => enc (fst kv) ++ enc (snd kv)) l)
  | CBool b => boolean b
  | CNull => null
  end.

(** Map keys in strictly increasing order of their encodings. *)
Fixpoint keys_sorted (l : list (cval * cval)) : bool :=
  match l with
  | kv1 :: ((kv2 :: _) as rest) =>
    bytes_ltb (enc (fst kv1)) (enc (fst kv2)) && keys_sorted rest
  | _ => true
  end.

Fixpoint canonical (v : cval) : Prop :=
  match v with
  | CUint n => n < u64_size
  | CBytes b => wf_bytes b
  | CText t => wf_text t
  | CArray l => N.of_nat (length l) < u64_size /\ foldr (fun v P => canonical v /\ P) True l
  | CMap l => N.of_nat (length l) < u64_size /\ keys_sorted l = true /\
              foldr (fun kv P => (canonical (fst kv) /\ canonical (snd kv)) /\ P) True l
  | CBool _ | CNull => True
  end.

(** Nesting depth; a scalar has depth 1. *)
Fixpoint cdepth (v : cval) : nat :=
  match v with
  | CArray l => S (foldr (fun v n => Nat.max (cdepth v) n) O l)
  | CMap l => S (foldr (fun kv n => Nat.max (Nat.max (cdepth (fst kv)) (cdepth (snd kv))) n) O l)
  | _ => 1%nat
  end.

(** The bytes are one canonical data item. *)
Definition Canonical (bs : bytes) : Prop := exists v, canonical v /\ bs = enc v.

(** ** [skip_value] *)

Fixpoint skip_value_inner (depth : nat) : Reader unit :=
  match depth with
  | O => fail (Error.CborDecode "skip_value depth budget exhausted (deeply nested CBOR)")
  | S d =>
    first ← peek (Error.CborDecode "EOF in skip");
    let major := N.shiftr (Byte.to_N first) 5 in
    if (major =? 0) || (major =? 1) then _ ← read_u64; mret tt
    else if major =? 2 then _ ← read_bytes; mret tt
    else if major =? 3 then _ ← read_text; mret tt
    else if major =? 4 then
      n ← read_array_header;
      _ ← repeat_reader (N.to_nat n) (skip_value_inner d);
      mret tt
    else if major =? 5 then
      n ← read_map_header;
      _ ← repeat_reader (N.to_nat n) (_ ← skip_value_inner d; skip_value_inner d);
      mret tt
    else if major =? 7 then _ ← read_bytes_or_null; mret tt
    else fail (Error.CborDecode "unexpected major {major}")
  end.

Definition skip_value : Reader unit := skip_value_inner MAX_CBOR_SKIP_DEPTH.

(** What [skip_value] walks over: no booleans, and collections within the
    reader's bound.  Map keys may come in any order. *)
Fixpoint skippable (v : cval) : Prop :=
  match v with
  | CUint n => n < u64_size
  | CBytes b => wf_bytes b
  | CText t => wf_text t
  | CArray l => N.of_nat (length l) <= MAX_CBOR_ENTRIES /\
                foldr (fun v P => skippable v /\ P) True l
  | CMap l => N.of_nat (length l) <= MAX_CBOR_ENTRIES /\
              foldr (fun kv P => (skippable (fst kv) /\ skippable (snd kv)) /\ P) True l
  | CBool _ => False
  | CNull => True
  end.

(** ** Induction *)

Lemma foldr_and {A} (P : A -> Prop) l : foldr (fun a Q => P a /\ Q) True l <-> Forall P l.
Proof. induction l; cbn; [done|]. by rewrite Forall_cons, IHl. Qed.

Lemma foldr_max_le {A} (f : A -> nat) l n :
  (foldr (fun a m => Nat.max (f a) m) O l <= n)%nat <-> Forall (fun a => (f a <= n)%nat) l.
Proof.
  induction l; cbn; [split; [done|lia]|]. rewrite Forall_cons, <-IHl. lia.
Qed.

(** Induction on values with hypotheses for the elements of collections. *)
Lemma cval_ind' (P : cval -> Prop) :
  (forall n, P (CUint n)) -> (forall b, P (CBytes b)) -> (forall t, P (CText t)) ->
  (forall l, Forall P l -> P (CArray l)) ->
  (forall l, Forall (fun kv => P (fst kv) /\ P (snd kv)) l -> P (CMap l)) ->
  (forall b, P (CBool b)) -> P CNull -> forall v, P v.
Proof.
  intros HU HB HT HA HM HBo HN. fix IH 1. intros [n|b|t|l|l|b|].
  - apply HU.
  - apply HB.
  - apply HT.
  - apply HA. induction l; constructor; [apply IH|done].
  - apply HM. induction l as [|[k v] l IHl]; constructor; [split; apply IH|done].
  - apply HBo.
  - apply HN.
Qed.

(** ** Heads and items are prefix-free *)

Lemma head_bytes_prefix m a s m' a' s' :
  m < 8 -> m' < 8 -> a <= u64_max -> a' <= u64_max ->
  head_bytes m a ++ s = head_bytes m' a' ++ s' -> m = m' /\ a = a' /\ s = s'.
Proof.
  intros Hm Hm' Ha Ha' E.
  (* cut the tails: the head decides how many bytes belong to it *)
  set (n := length (head_bytes m a)). set (n' := length (head_bytes m' a')).
  rewrite !head_bytes_eq in *. cbn [app] in E. injection E as E1 E2.
  apply (f_equal Byte.to_N) in E1. pose proof (head_info_lt a). pose proof (head_info_lt a').
  rewrite !initial_byte_value in E1 by done.
  assert (m = m') as <- by lia. assert (head_info a = head_info a') as Ei by lia.
  split; [done|]. clear E1 n n'.
  assert (length (head_rest a) = length (head_rest a')) as El.
  { unfold head_info, head_rest in *. repeat case_match; to_prop; try done; lia. }
  apply app_inj_1 in E2 as [Er ->]; [|done]. split; [|done].
  unfold head_info, head_rest, u8_max, u16_max, u32_max, u64_max in *.
  repeat case_match; to_prop; try lia.
  all: apply (f_equal from_be_bytes) in Er.
  - change (from_be_bytes [as_u8 ?a]) with (0 * 256 + Byte.to_N (as_u8 a)) in Er.
    unfold from_be_bytes in Er. cbn [fold_left] in Er. rewrite !to_N_as_u8, !N.mod_small in Er; lia.
  - rewrite !from_to_be_bytes, !N.mod_small in Er by (change (256 ^ N.of_nat 2) with 65536; lia). done.
  - rewrite !from_to_be_bytes, !N.mod_small in Er by (change (256 ^ N.of_nat 4) with 4294967296; lia). done.
  - rewrite !from_to_be_bytes, !N.mod_small in Er
      by (change (256 ^ N.of_nat 8) with 18446744073709551616; lia). done.
Qed.

(** A value whose lengths and integers fit 64 bits. *)
Fixpoint sized (v : cval) : Prop :=
  match v with
  | CUint n => n < u64_size
  | CBytes b => wf_bytes b
  | CText t => wf_bytes (as_bytes t)
  | CArray l => N.of_nat (length l) < u64_size /\ foldr (fun v P => sized v /\ P) True l
  | CMap l => N.of_nat (length l) < u64_size /\
              foldr (fun kv P => (sized (fst kv) /\ sized (snd kv)) /\ P) True l
  | CBool _ | CNull => True
  end.

Lemma canonical_sized v : canonical v -> sized v.
Proof.
  induction v as [| |t|l IH|l IH| |] using cval_ind'; cbn [canonical sized];
    rewrite ?foldr_and; try done.
  - by intros [? Hs].
  - intros [? H]. split; [done|]. rewrite Forall_forall in *. eauto.
  - intros (? & _ & H). split; [done|]. rewrite Forall_forall in *.
    intros kv Hkv. destruct (IH _ Hkv), (H _ Hkv). auto.
Qed.

Definition major_of (v : cval) : N :=
  match v with
  | CUint _ => 0 | CBytes _ => 2 | CText _ => 3 | CArray _ => 4 | CMap _ => 5
  | CBool _ | CNull => 7
  end.

Definition info_of (v : cval) : N :=
  match v with
  | CUint n => head_info n
  | CBytes b => head_info (blen b)
  | CText t => head_info (blen (as_bytes t))
  | CArray l => head_info (N.of_nat (length l))
  | CMap l => head_info (N.of_nat (length l))
  | CBool b => if b then 21 else 20
  | CNull => 22
  end.

Lemma enc_head v : exists rest, enc v = initial_byte (major_of v) (info_of v) :: rest.
Proof.
  destruct v; cbn [enc major_of info_of]; rewrite ?uint_eq, ?bytestr_eq, ?text_eq, ?head_bytes_eq;
    try (eexists; reflexivity).
  all: try destruct b; eexists; cbv; reflexivity.
Qed.

Lemma enc_major v : match enc v with [] => False | b :: _ => N.shiftr (Byte.to_N b) 5 = major_of v end.
Proof.
  destruct (enc_head v) as [rest ->]. apply major_initial_byte.
  - destruct v; cbn; lia.
  - destruct v; cbn [info_of]; try apply head_info_lt; [destruct b|]; lia.
Qed.

Lemma enc_major_eq v w s s' : enc v ++ s = enc w ++ s' -> major_of v = major_of w.
Proof.
  pose proof (enc_major v) as Hv. pose proof (enc_major w) as Hw.
  destruct (enc v), (enc w); try done. intros [= -> _]. congruence.
Qed.

(** Elements of equally long lists are read off one by one. *)
Lemma concat_prefix {A} (f : A -> bytes) (l l' : list A) s s' :
  Forall (fun a => forall a' s s', In a' l' -> f a ++ s = f a' ++ s' -> a = a' /\ s = s') l ->
  length l = length l' ->
  concat (map f l) ++ s = concat (map f l') ++ s' -> l = l' /\ s = s'.
Proof.
  revert l'. induction l as [|a l IH]; intros [|a' l'] Hall Hl E; try done.
  inversion Hall as [|? ? Ha Htl]; subst. cbn [map concat] in E. rewrite <-!app_assoc in E.
  apply Ha in E as [-> E]; [|by left]. apply IH in E as [-> ->]; [done| |by inversion Hl].
  eapply Forall_impl; [exact Htl|]. cbn. intros b Hb a s1 s2 Hin. apply Hb. by right.
Qed.

(** Simple values are one byte each. *)
Ltac simple_value E :=
  let Eb := fresh "Eb" in
  apply app_inj_1 in E as [Eb ->]; [|by repeat match goal with x : bool |- _ => destruct x end];
  repeat match goal with x : bool |- _ => destruct x end; try done; by vm_compute in Eb.

(** No encoding of a value is a proper prefix of another one. *)
Lemma enc_prefix v : forall w s s',
  sized v -> sized w -> enc v ++ s = enc w ++ s' -> v = w /\ s = s'.
Proof.
  induction v as [n|b|t|l IH|l IH|b|] using cval_ind'; intros w s s' Hv Hw E;
    pose proof (enc_major_eq _ _ _ _ E) as Em; destruct w as [n'|b'|t'|l'|l'|b'|]; try done;
    cbn [enc sized] in *; unfold wf_bytes, u64_size in *.
  - rewrite (uint_eq n), (uint_eq n') in E.
    apply head_bytes_prefix in E as (_ & -> & ->); unfold u64_max; done || lia.
  - rewrite (bytestr_eq b), (bytestr_eq b'), <-!app_assoc in E.
    apply head_bytes_prefix in E as (_ & Hl & E); unfold u64_max; try (done || lia).
    apply app_inj_1 in E as [-> ->]; [done|]. unfold blen in Hl. lia.
  - rewrite (text_eq t), (text_eq t'), <-!app_assoc in E.
    apply head_bytes_prefix in E as (_ & Hl & E); unfold u64_max; try (done || lia).
    apply app_inj_1 in E as [Ht ->]; [by apply as_bytes_inj in Ht as ->|]. unfold blen in Hl. lia.
  - destruct Hv as [Hn Hv], Hw as [Hn' Hw]. rewrite foldr_and in Hv, Hw.
    rewrite <-!app_assoc in E. apply head_bytes_prefix in E as (_ & Hl & E); unfold u64_max; try (done || lia).
    apply concat_prefix in E as [-> ->]; [done| |lia].
    rewrite Forall_forall in *. intros a Ha a' s1 s2 Ha'.
    apply IH; [done|by apply Hv|]. by apply Hw, list_elem_of_In.
  - destruct Hv as [Hn Hv], Hw as [Hn' Hw]. rewrite foldr_and in Hv, Hw.
    rewrite <-!app_assoc in E. apply head_bytes_prefix in E as (_ & Hl & E); unfold u64_max; try (done || lia).
    apply concat_prefix in E as [-> ->]; [done| |lia].
    rewrite Forall_forall in *. intros [k x] Ha [k' x'] s1 s2 Ha' Ekv.
    apply list_elem_of_In in Ha'. destruct (IH _ Ha) as [IHk IHx], (Hv _ Ha), (Hw _ Ha').
    cbn [fst snd] in *. rewrite <-!app_assoc in Ekv.
    apply IHk in Ekv as [-> Ekv]; [|done..]. by apply IHx in Ekv as [-> ->].
  - simple_value E.
  - simple_value E.
  - simple_value E.
  - simple_value E.
Qed.

(** ** Canonical items compose *)

Lemma Canonical_uint n : n < u64_size -> Canonical (uint n).
Proof. intros H. by exists (CUint n). Qed.

Lemma Canonical_bytes b : wf_bytes b -> Canonical (bytestr b).
Proof. intros H. by exists (CBytes b). Qed.

Lemma Canonical_fixed n b : blen b = n -> n < u64_size -> Canonical (bytestr b).
Proof. intros <- H. by apply Canonical_bytes. Qed.

Lemma Canonical_text t : wf_text t -> Canonical (text t).
Proof. intros H. by exists (CText t). Qed.

Lemma Canonical_boolean b : Canonical (boolean b).
Proof. by exists (CBool b). Qed.

Lemma Canonical_or_null {A} (e : A -> bytes) (wf : A -> Prop) o :
  (forall a, wf a -> Canonical (e a)) -> from_option wf True o -> Canonical (or_null e o).
Proof. intros He Ho. destruct o; [by apply He|]. by exists CNull. Qed.

Lemma Canonical_array {A} (e : A -> bytes) (wf : A -> Prop) l :
  (forall a, wf a -> Canonical (e a)) -> Forall wf l -> N.of_nat (length l) < u64_size ->
  Canonical (write_array e l).
Proof.
  intros He Hl Hn. assert (exists vs, Forall canonical vs /\ map e l = map enc vs) as (vs & Hvs & E).
  { clear Hn. induction Hl as [|a l Ha Hl (vs & Hvs & E)]; [by exists []|].
    destruct (He a Ha) as (v & Hv & Ev). exists (v :: vs). split; [by constructor|].
    cbn [map]. by rewrite Ev, E. }
  exists (CArray vs). assert (length vs = length l) as El.
  { by rewrite <-(length_map enc vs), <-E, length_map. }
  split.
  - cbn [canonical]. by rewrite foldr_and, El.
  - by rewrite write_array_eq, E, <-El.
Qed.

Lemma keys_sorted_entries kvs :
  is_sorted_by_key
    (map (fun kv => {| key_bytes := enc (fst kv); value_bytes := enc (snd kv) |}) kvs)
  = keys_sorted kvs.
Proof.
  induction kvs as [|kv1 [|kv2 kvs] IH]; [done..|].
  cbn [map is_sorted_by_key keys_sorted key_bytes] in *. by rewrite IH.
Qed.

(** [encode_map] is canonical when its [debug_assert!] holds, the keys are
    text and the values canonical: the contract its callers must meet. *)
Lemma Canonical_map es :
  N.of_nat (length es) < u64_size -> is_sorted_by_key es = true ->
  Forall (fun e => Canonical (key_bytes e) /\ Canonical (value_bytes e)) es ->
  Canonical (encode_map es).
Proof.
  intros Hn Hs Hes.
  assert (exists kvs, Forall (fun kv => canonical (fst kv) /\ canonical (snd kv)) kvs /\
    map (fun kv => {| key_bytes := enc (fst kv); value_bytes := enc (snd kv) |}) kvs = es)
    as (kvs & Hkvs & <-).
  { clear Hn Hs. induction Hes as [|[k v] es [(ck & Hk & Ek) (cv & Hv & Ev)] _ (kvs & Hkvs & <-)].
    - by exists [].
    - cbn in Ek, Ev. subst. exists ((ck, cv) :: kvs). split; [by constructor|done]. }
  rewrite length_map in Hn. exists (CMap kvs). split.
  - cbn [canonical]. rewrite foldr_and. split; [done|]. split; [|done].
    by rewrite <-Hs, keys_sorted_entries.
  - rewrite encode_map_eq, length_map, map_map. done.
Qed.

(** Two canonical items at the front of the same bytes are the same item. *)
Lemma Canonical_prefix a b s s' :
  Canonical a -> Canonical b -> a ++ s = b ++ s' -> a = b /\ s = s'.
Proof.
  intros (v & Hv & ->) (w & Hw & ->) E.
  apply enc_prefix in E as [-> ->]; auto using canonical_sized.
Qed.

(** ** Encodings are injective *)

Lemma enc_inj v w : sized v -> sized w -> enc v = enc w -> v = w.
Proof.
  intros Hv Hw E. apply (f_equal (fun bs => bs ++ [])) in E.
  by apply enc_prefix in E as [-> _].
Qed.

Lemma uint_inj n m : n < u64_size -> m < u64_size -> uint n = uint m -> n = m.
Proof. intros Hn Hm E. by apply (enc_inj (CUint n) (CUint m)) in E as [= ->]. Qed.

Lemma bytestr_inj a b : wf_bytes a -> wf_bytes b -> bytestr a = bytestr b -> a = b.
Proof. intros Ha Hb E. by apply (enc_inj (CBytes a) (CBytes b)) in E as [= ->]. Qed.

Lemma text_inj a b : wf_text a -> wf_text b -> text a = text b -> a = b.
Proof. intros [_ Ha] [_ Hb] E. by apply (enc_inj (CText a) (CText b)) in E as [= ->]. Qed.

Lemma or_null_inj {A} (e : A -> bytes) (wf : A -> Prop) o o' :
  NonNull e -> (forall a b, wf a -> wf b -> e a = e b -> a = b) ->
  from_option wf True o -> from_option wf True o' -> or_null e o = or_null e o' -> o = o'.
Proof.
  intros Hn Hi Ho Ho' E. destruct o as [a|], o' as [b|]; cbn in *; [|exfalso..|done].
  - f_equal. by apply Hi.
  - destruct (Hn a) as (x & rest & Ea & Hx). rewrite Ea in E. by injection E.
  - destruct (Hn b) as (x & rest & Eb & Hx). rewrite Eb in E. by injection E.
Qed.

Lemma or_null_bytes_inj n o o' :
  n < u64_size ->
  from_option (fun b => blen b = n) True o -> from_option (fun b => blen b = n) True o' ->
  or_null bytestr o = or_null bytestr o' -> o = o'.
Proof.
  intros Hn. apply or_null_inj; [apply _|]. intros a b Ha Hb. apply bytestr_inj; unfold wf_bytes; lia.
Qed.

Lemma encode_map_inj es es' :
  map key_bytes es = map key_bytes es' ->
  Forall (fun e => Canonical (value_bytes e)) es ->
  Forall (fun e => Canonical (value_bytes e)) es' ->
  encode_map es = encode_map es' -> map value_bytes es = map value_bytes es'.
Proof.
  intros Hk Hes Hes' E. rewrite !encode_map_eq in E.
  assert (length es = length es') as Hl.
  { by rewrite <-(length_map key_bytes es), Hk, length_map. }
  rewrite Hl in E. apply app_inv_head in E. clear Hl.
  revert es' Hk Hes' E. induction Hes as [|e es He Hes IH]; intros [|e' es'] Hk Hes' E; try done.
  inversion Hes'; subst. injection Hk as Hk1 Hk2. cbn [map concat] in *.
  rewrite Hk1, <-!app_assoc in E. apply app_inv_head in E.
  apply Canonical_prefix in E as [-> E]; [|done..]. f_equal. by apply IH.
Qed.

(** One item of an encoder, by its form. *)
Ltac canon :=
  cbn [key_bytes value_bytes entry];
  lazymatch goal with
  | |- Canonical (key _) => apply Canonical_text; split; reflexivity
  | |- Canonical (uint _) => apply Canonical_uint; unfold u64_size in *; lia
  | |- Canonical (bytestr _) =>
    first [ by apply Canonical_bytes | eapply Canonical_fixed; [eassumption|reflexivity] ]
  | |- Canonical (text _) => by apply Canonical_text
  | |- Canonical (boolean _) => apply Canonical_boolean
  | |- Canonical (or_null _ _) =>
    eapply Canonical_or_null; [|eassumption]; intros ? ?; cbv beta in *; canon
  | |- Canonical (write_array _ _) =>
    eapply Canonical_array; [|eassumption|change MAX_CBOR_ENTRIES with 1048576 in *; unfold u64_size; lia];
    intros ? ?; cbv beta in *; canon
  | |- Canonical (encode_map _) =>
    apply Canonical_map; [reflexivity|reflexivity|repeat (apply Forall_cons; split);
      [..|apply Forall_nil; exact I]; try (split; canon)]
  | |- _ => eauto with sv
  end.

#[export] Hint Resolve Canonical_uint Canonical_bytes Canonical_text Canonical_boolean : sv.

(** ** What [skip_value] accepts *)

Lemma repeat_reader_ex {W} (f : W -> bytes) (Q : W -> Prop) (m : Reader unit) :
  (forall r r', fits r -> m r = Ok (tt, r') <-> exists w, Q w /\ consumes r (f w) r') ->
  forall n r r', fits r ->
    (_ ← repeat_reader n m; mret tt : Reader unit) r = Ok (tt, r') <->
    exists ws, length ws = n /\ Forall Q ws /\ consumes r (concat (map f ws)) r'.
Proof.
  intros Hm. induction n as [|n IH]; intros r r' F.
  - cbn [repeat_reader]. rewrite (rd_bind_run _ _ _ [] r), mret_ok by done. split.
    + intros [_ ->]. exists []. by rewrite consumes_nil.
    + intros (ws & Hl & _ & C). destruct ws; [|done]. by apply consumes_nil in C as ->.
  - rewrite rd_bind_ok. cbn [repeat_reader]. split.
    + intros (l & r2 & H & [_ ->]%mret_ok). apply rd_bind_ok in H as ([] & r1 & (w & Hw & C)%Hm & H); [|done].
      apply rd_bind_ok in H as (l' & r3 & H & [-> ->]%mret_ok).
      destruct (proj1 (IH r1 r3 (consumes_fits_r _ _ _ C))) as (ws & <- & Hws & C2).
      { apply rd_bind_ok. by exists l', r3. }
      exists (w :: ws). cbn [map concat]. rewrite consumes_app. split_and!; [done|by constructor|eauto].
    + intros (ws & Hl & Hws & C). destruct ws as [|w ws]; [done|]. inversion Hws; subst.
      cbn [map concat] in C. apply consumes_app in C as (r1 & C1 & C2).
      pose proof (consumes_fits_r _ _ _ C1) as F1.
      pose proof (proj2 (IH r1 r' F1)) as H.
      apply rd_bind_ok in H as (l & r2 & E & [_ ->]%mret_ok);
        [|exists ws; split; [by injection Hl|done]].
      exists (tt :: l), r2. rewrite mret_ok. split; [|done].
      apply rd_bind_ok. exists tt, r1. rewrite Hm by done. split; [eauto|].
      apply rd_bind_ok. by exists l, r2.
Qed.

Lemma peek_enc e r v r' :
  consumes r (enc v) r' ->
  exists b, peek e r = Ok (b, r) /\ N.shiftr (Byte.to_N b) 5 = major_of v.
Proof.
  intros C. pose proof (enc_major v) as Hm. destruct (enc v) as [|b rest] eqn:E; [done|].
  exists b. split; [|done]. apply peek_ok. by rewrite (consumes_rem _ _ _ C).
Qed.

Lemma pair_reader_ok (m : Reader unit) (Q : cval -> Prop) :
  (forall r r', fits r -> m r = Ok (tt, r') <-> exists v, Q v /\ consumes r (enc v) r') ->
  forall r r', fits r ->
    (_ ← m; m : Reader unit) r = Ok (tt, r') <->
    exists kv, (Q (fst kv) /\ Q (snd kv)) /\ consumes r (enc (fst kv) ++ enc (snd kv)) r'.
Proof.
  intros Hm r r' F. rewrite rd_bind_ok. split.
  - intros ([] & r1 & (k & Hk & C)%Hm & (v & Hv & C2)%Hm);
      [|by eapply consumes_fits_r|done].
    exists (k, v). cbn. rewrite consumes_app. eauto.
  - intros ([k v] & [Hk Hv] & C). apply consumes_app in C as (r1 & C1 & C2). cbn in *.
    pose proof (consumes_fits_r _ _ _ C1).
    exists tt, r1. rewrite !Hm by done. split; [by exists k|by exists v].
Qed.

(** The fragment of [skippable] values of depth at most [d]. *)
Definition skips (d : nat) (v : cval) : Prop := skippable v /\ (cdepth v <= d)%nat.

Lemma skips_array d l :
  N.of_nat (length l) <= MAX_CBOR_ENTRIES -> Forall (skips d) l <-> skips (S d) (CArray l).
Proof.
  intros Hl. unfold skips. cbn [skippable cdepth]. rewrite foldr_and.
  rewrite Forall_and, <-foldr_max_le, Nat.succ_le_mono. tauto.
Qed.

Lemma skips_map d l :
  N.of_nat (length l) <= MAX_CBOR_ENTRIES ->
  Forall (fun kv => skips d (fst kv) /\ skips d (snd kv)) l <-> skips (S d) (CMap l).
Proof.
  intros Hl. unfold skips. cbn [skippable cdepth].
  rewrite foldr_and, <-Nat.succ_le_mono,
    (foldr_max_le (fun kv => Nat.max (cdepth (fst kv)) (cdepth (snd kv)))).
  rewrite !Forall_forall. setoid_rewrite Nat.max_lub_iff. split.
  - intros H. split; [split; [done|]|]; intros kv Hkv; destruct (H kv Hkv) as [[??] [??]]; auto.
  - intros [[_ Hs] Hd] kv Hkv. destruct (Hs kv Hkv), (Hd kv Hkv). auto.
Qed.

Lemma skip_value_inner_ok d : forall r r', fits r ->
  skip_value_inner d r = Ok (tt, r') <-> exists v, skips d v /\ consumes r (enc v) r'.
Proof.
  induction d as [|d IH]; intros r r' F.
  { split; [done|]. intros (v & [_ Hd] & _). destruct v; cbn in Hd; lia. }
  cbn [skip_value_inner]. split.
  - intros H. apply rd_bind_ok in H as (b & r1 & [Hb ->]%peek_ok & H).
    repeat case_bool; to_prop; try done; apply rd_bind_ok in H as (x & r1 & Hx & H);
      apply codec_iff in Hx as [W C]; try done; pose proof (consumes_fits_r _ _ _ C) as F1.
    + apply mret_ok in H as [_ ->]. exists (CUint x). unfold skips. cbn. auto with lia.
    + apply mret_ok in H as [_ ->]. exists (CBytes x). unfold skips. cbn. auto with lia.
    + apply mret_ok in H as [_ ->]. exists (CText x). unfold skips. cbn. auto with lia.
    + apply (repeat_reader_ex enc _ _ IH) in H as (vs & Hl & Hvs & C2); [|done].
      exists (CArray vs). apply skips_array in Hvs; [|lia]. split; [done|].
      cbn [enc]. rewrite Hl, N2Nat.id, consumes_app. eauto.
    + apply (repeat_reader_ex _ _ _ (pair_reader_ok _ _ IH)) in H as (vs & Hl & Hvs & C2); [|done].
      exists (CMap vs). apply skips_map in Hvs; [|lia]. split; [done|].
      cbn [enc]. rewrite Hl, N2Nat.id, consumes_app. eauto.
    + apply mret_ok in H as [_ ->]. destruct x as [x|]; cbn [or_null] in C.
      * exfalso. rewrite bytestr_eq, head_bytes_eq in C. apply consumes_rem in C.
        rewrite C in Hb. injection Hb as <-.
        match goal with H : N.shiftr _ _ = 7 |- _ => rename H into H7 end.
        rewrite major_initial_byte in H7; [done..|apply head_info_lt].
      * exists CNull. unfold skips. cbn. auto with lia.
  - intros (v & Hs & C). destruct (peek_enc (Error.CborDecode "EOF in skip") _ _ _ C) as (b & Hp & Hm).
    rewrite (rd_bind_run _ _ _ _ _ Hp), Hm.
    destruct v as [n|bs|t|l|l|[]|]; cbn [major_of enc] in *; try by destruct Hs.
    all: cbv [N.eqb Pos.eqb orb].
    + eapply codec_run; [done|exact C|apply Hs|done].
    + eapply codec_run; [done|exact C|apply Hs|done].
    + eapply codec_run; [done|exact C|apply Hs|done].
    + pose proof (proj1 (proj1 Hs)) as Hl. apply consumes_app in C as (r1 & C1 & C2).
      eapply codec_run; [done|exact C1|done|]. rewrite Nat2N.id.
      apply (repeat_reader_ex enc _ _ IH); [by eapply consumes_fits_r|].
      exists l. by apply skips_array in Hs.
    + pose proof (proj1 (proj1 Hs)) as Hl. apply consumes_app in C as (r1 & C1 & C2).
      eapply codec_run; [done|exact C1|done|]. rewrite Nat2N.id.
      apply (repeat_reader_ex _ _ _ (pair_reader_ok _ _ IH)); [by eapply consumes_fits_r|].
      exists l. by apply skips_map in Hs.
    + eapply (codec_run _ _ None); [done|exact C|done|done].
Qed.

(** ** Properties *)

(** The whole of [bs] is read by [dec]. *)
Definition reads {A} (dec : Reader A) (bs : bytes) (a : A) : Prop :=
  exists r', dec (new_reader bs) = Ok (a, r') /\ remaining r' = [].

Lemma reads_codec {A} (enc : A -> bytes) (dec : Reader A) wf `{!Codec enc dec wf} bs a :
  blen bs < u64_size -> reads dec bs a <-> wf a /\ bs = enc a.
Proof.
  intros F. unfold reads. split.
  - intros (r' & [Hwf C]%codec_iff & Hr); [|by apply fits_new]. apply consumes_new in C as [_ ->].
    by rewrite Hr, app_nil_r.
  - intros [Hwf ->]. destruct (consumes_whole (enc a) F) as (r' & C & Hr).
    exists r'. rewrite codec_iff by by apply fits_new. done.
Qed.

(** C20: each item has one encoding: the reader of an unsigned integer, a byte
    string, a text or a boolean accepts the bytes the writer emits for a value
    of that type and no other bytes; longer length forms, indefinite lengths
    and text that is not UTF-8 are refused. *)
Theorem items_have_one_encoding bs (F : blen bs < u64_size) :
  (forall n, reads read_u64 bs n <-> n < u64_size /\ bs = uint n) /\
  (forall b, reads read_bytes bs b <-> wf_bytes b /\ bs = bytestr b) /\
  (forall t, reads read_text bs t <-> wf_text t /\ bs = text t) /\
  (forall b, reads read_bool bs b <-> bs = boolean b) /\
  (forall o, reads read_bytes_or_null bs o <-> from_option wf_bytes True o /\ bs = or_null bytestr o).
Proof.
  split_and!; intros x; rewrite (reads_codec _ _ _ bs x F); [done|done|done| |done].
  tauto.
Qed.

(** The map encoder keeps its contract: entries in strictly increasing key
    order (the condition its [debug_assert!] checks) with canonical keys and
    values give one canonical CBOR item, and different value lists under the
    same keys give different bytes. *)
Theorem encode_map_canonical es
    (N : N.of_nat (length es) < u64_size) (S : is_sorted_by_key es = true)
    (K : Forall (fun e => Canonical (key_bytes e) /\ Canonical (value_bytes e)) es) :
  Canonical (encode_map es) /\
  forall es', map key_bytes es' = map key_bytes es ->
    Forall (fun e => Canonical (value_bytes e)) es' -> encode_map es' = encode_map es ->
    map value_bytes es' = map value_bytes es.
Proof.
  split; [by apply Canonical_map|]. intros es' Hk Hes' E. apply encode_map_inj; [done|done| |done].
  eapply Forall_impl; [exact K|]. by intros e [_ ?].
Qed.

(** [skip_value] walks over exactly one item nested at most
    [MAX_CBOR_SKIP_DEPTH] deep, made of unsigned integers, byte strings,
    texts, nulls, and arrays and maps within the reader's bound; booleans and
    negative integers are refused. *)
Theorem skip_value_exact bs r' (F : blen bs < u64_size) :
  skip_value (new_reader bs) = Ok (tt, r') <->
  exists v rest, skippable v /\ (cdepth v <= MAX_CBOR_SKIP_DEPTH)%nat /\ bs = enc v ++ rest /\
    r' = {| buf := bs; pos := length (enc v) |}.
Proof.
  unfold skip_value. rewrite skip_value_inner_ok by by apply fits_new. split.
  - intros (v & [Hs Hd] & C). exists v, (remaining r').
    split_and!; [done|done|by apply consumes_rem in C|by apply consumes_is_advance in C].
  - intros (v & rest & Hs & Hd & E & ->). exists v. split; [done|].
    apply (consumes_advance (new_reader bs) (enc v) rest); [by apply fits_new|done].
Qed.

(** ** Concrete instances *)

Lemma items_have_one_encoding_witness :
  let bs := [as_u8 0x19; as_u8 0x01; as_u8 0x00] in
  (forall n, reads read_u64 bs n <-> n < u64_size /\ bs = uint n) /\
  (forall b, reads read_bytes bs b <-> wf_bytes b /\ bs = bytestr b) /\
  (forall t, reads read_text bs t <-> wf_text t /\ bs = text t) /\
  (forall b, reads read_bool bs b <-> bs = boolean b) /\
  (forall o, reads read_bytes_or_null bs o <-> from_option wf_bytes True o /\ bs = or_null bytestr o).
Proof. intros bs. apply (items_have_one_encoding bs). vm_compute. reflexivity. Defined.

Lemma encode_map_canonical_witness :
  let es := [entry "a" (uint 1); entry "bb" (boolean true)] in
  Canonical (encode_map es) /\
  forall es', map key_bytes es' = map key_bytes es ->
    Forall (fun e => Canonical (value_bytes e)) es' -> encode_map es' = encode_map es ->
    map value_bytes es' = map value_bytes es.
Proof.
  intros es. apply (encode_map_canonical es); [reflexivity|reflexivity|].
  repeat (apply Forall_cons; split); [..|by apply Forall_nil]; split; canon.
Defined.

Lemma skip_value_exact_witness :
  exists v rest, skippable v /\ (cdepth v <= MAX_CBOR_SKIP_DEPTH)%nat /\
    bytestr [Byte.x01] ++ uint 7 = enc v ++ rest /\
    {| buf := bytestr [Byte.x01] ++ uint 7; pos := 2 |}
    = {| buf := bytestr [Byte.x01] ++ uint 7; pos := length (enc v) |}.
Proof. apply (skip_value_exact (bytestr [Byte.x01] ++ uint 7)); vm_compute; reflexivity. Defined.

Example skip_value_refuses_true : is_ok (skip_value (new_reader (boolean true))) = false.
Proof. reflexivity. Qed.
