(* ===== verification/TextMap.v ===== *)
(** CBOR maps with text keys that come from a [BTreeMap<String, V>]: the
    [capabilities] of [messages/handshake.rs] and the [params] of a policy
    clause in [verse.rs].

    The encoders sort the entries by encoded key before [encode_map]; the
    decoders require strictly increasing encoded keys.  A [BTreeMap] is a
    [gmap string V]: the order in which it yields its entries does not matter
    because they are sorted. *)

From S2P Require Import Prelude Utf8 Cbor CborCodec CborValue.

Open Scope N_scope.

(** ** Definitions *)

(** [entries.sort_by(|a, b| a.key.cmp(&b.key))]. *)
Definition key_le (a b : MapEntry) : Prop := bytes_ltb (key_bytes b) (key_bytes a) = false.

#[export] Instance key_le_dec a b : Decision (key_le a b).
Proof. unfold key_le. apply _. Defined.

Definition sort_by_key (es : list MapEntry) : list MapEntry := merge_sort key_le es.

Definition map_entry {V} (encv : V -> bytes) (kv : string * V) : MapEntry :=
  {| key_bytes := text (fst kv); value_bytes := encv (snd kv) |}.

Definition encode_text_map {V} (encv : V -> bytes) (m : gmap string V) : bytes :=
  encode_map (sort_by_key (map (map_entry encv) (map_to_list m))).

(** [let start = r.position(); let k = r.read_text()?; r.buf[start..r.position()]]. *)
Definition read_key_slice : Reader (string * bytes) := fun r =>
  match read_text r with
  | Ok (k, r') => Ok ((k, take (pos r' - pos r) (remaining r)), r')
  | Err e => Err e
  end.

(** [for _ in 0..n { .. }] with the previous key and the map built so far. *)
Fixpoint text_map_loop {V} (readv : Reader V) (e : string) (n : nat) (last : option bytes)
    (out : gmap string V) : Reader (gmap string V) :=
  match n with
  | O => mret out
  | S n' =>
    '(k, kb) ← read_key_slice;
    _ ← guard (match last with Some prev => bytes_ltb prev kb | None => true end)
          (Error.CborNotCanonical e);
    v ← readv;
    text_map_loop readv e n' (Some kb) (<[k := v]> out)
  end.

Definition decode_text_map {V} (readv : Reader V) (e : string) : Reader (gmap string V) :=
  n ← read_map_header;
  text_map_loop readv e (N.to_nat n) None ∅.

Definition wf_text_map {V} (wfv : V -> Prop) (m : gmap string V) : Prop :=
  N.of_nat (size m) <= MAX_CBOR_ENTRIES /\
  map_Forall (fun k v => wf_text k /\ wfv v) m.

(** ** The order on byte strings *)

Lemma bytes_ltb_irrefl a : bytes_ltb a a = false.
Proof. induction a; cbn; [done|]. by rewrite N.ltb_irrefl. Qed.

Lemma bytes_ltb_trans a b c : bytes_ltb a b = true -> bytes_ltb b c = true -> bytes_ltb a c = true.
Proof.
  revert b c. induction a as [|x a IH]; intros [|y b] [|z c]; cbn; try done.
  intros H1 H2. repeat case_bool; to_prop; try done; try lia.
  assert (Byte.to_N x = Byte.to_N y) as E by lia. eapply IH; [exact H1|].
  assert (Byte.to_N y = Byte.to_N z) by lia. done.
Qed.

Lemma bytes_ltb_total a b : bytes_ltb a b = true \/ a = b \/ bytes_ltb b a = true.
Proof.
  revert b. induction a as [|x a IH]; intros [|y b]; cbn; auto.
  repeat case_bool; to_prop; auto; try lia.
  assert (x = y) as -> by (apply to_N_inj; lia).
  destruct (IH b) as [?|[->|?]]; auto.
Qed.

Lemma bytes_ltb_asym a b : bytes_ltb a b = true -> bytes_ltb b a = false.
Proof.
  intros H. destruct (bytes_ltb b a) eqn:E; [|done].
  rewrite <-(bytes_ltb_irrefl a). symmetry. by eapply bytes_ltb_trans.
Qed.

#[export] Instance key_le_total : Total key_le.
Proof.
  intros a b. unfold key_le.
  destruct (bytes_ltb_total (key_bytes a) (key_bytes b)) as [H|[->|H]].
  - left. by apply bytes_ltb_asym.
  - left. apply bytes_ltb_irrefl.
  - right. by apply bytes_ltb_asym.
Qed.

#[export] Instance key_le_trans : Transitive key_le.
Proof.
  intros a b c. unfold key_le. intros H1 H2.
  destruct (bytes_ltb (key_bytes c) (key_bytes a)) eqn:E; [|done].
  destruct (bytes_ltb_total (key_bytes a) (key_bytes b)) as [H|[H|H]].
  - assert (bytes_ltb (key_bytes c) (key_bytes b) = true) by by eapply bytes_ltb_trans. congruence.
  - rewrite H in E. congruence.
  - congruence.
Qed.

(** ** Sorted entries *)

Lemma is_sorted_StronglySorted es :
  is_sorted_by_key es = true <->
  StronglySorted (fun a b => bytes_ltb (key_bytes a) (key_bytes b) = true) es.
Proof.
  induction es as [|e1 [|e2 es] IH].
  - split; [constructor|done].
  - split; [repeat constructor|done].
  - cbn [is_sorted_by_key]. rewrite andb_true_iff, IH. split.
    + intros [H1 H2]. constructor; [done|]. inversion H2; subst. constructor; [done|].
      eapply Forall_impl; [eassumption|]. cbn. intros x. by apply bytes_ltb_trans.
    + intros H. inversion H as [|? ? H2 H1]; subst. by inversion H1.
Qed.

Lemma sorted_keys_distinct es :
  is_sorted_by_key es = true -> NoDup (map key_bytes es).
Proof.
  rewrite is_sorted_StronglySorted. induction 1 as [|e es Hs IH Hall]; cbn; constructor; [|done].
  intros (e' & He & Hin)%list_elem_of_fmap. rewrite Forall_forall in Hall.
  apply Hall in Hin. rewrite He, bytes_ltb_irrefl in Hin. done.
Qed.

(** Entries with distinct keys have one sorted arrangement. *)
Lemma sort_by_key_unique es es' :
  is_sorted_by_key es = true -> es ≡ₚ es' -> sort_by_key es' = es.
Proof.
  intros Hs Hp. assert (NoDup (map key_bytes es)) as Hnd by by apply sorted_keys_distinct.
  assert (sort_by_key es' ≡ₚ es) as Hp'.
  { unfold sort_by_key. by rewrite merge_sort_Permutation, Hp. }
  apply (StronglySorted_unique_strong key_le); [..|done].
  - intros a b Ha Hb Hab Hba. rewrite Hp' in Ha. unfold key_le in *.
    assert (key_bytes a = key_bytes b) as Hk.
    { destruct (bytes_ltb_total (key_bytes a) (key_bytes b)) as [?|[?|?]]; congruence. }
    apply list_elem_of_lookup in Ha as [i Hi], Hb as [j Hj].
    assert (i = j) as <-; [|congruence].
    eapply NoDup_lookup; [exact Hnd| |]; rewrite list_lookup_fmap.
    + by rewrite Hi.
    + rewrite Hj. cbn. by rewrite Hk.
  - apply StronglySorted_merge_sort; apply _.
  - apply is_sorted_StronglySorted in Hs. clear -Hs.
    induction Hs as [|e l Hl IH Hall]; constructor; [done|].
    eapply Forall_impl; [exact Hall|]. intros x. apply bytes_ltb_asym.
Qed.

Lemma sort_by_key_sorted es :
  NoDup (map key_bytes es) -> is_sorted_by_key (sort_by_key es) = true.
Proof.
  intros Hnd. assert (NoDup (map key_bytes (sort_by_key es))) as Hnd'.
  { unfold sort_by_key. by rewrite (fmap_Permutation key_bytes _ _ (merge_sort_Permutation key_le es)). }
  apply is_sorted_StronglySorted.
  assert (StronglySorted key_le (sort_by_key es)) as Hs by (apply StronglySorted_merge_sort; apply _).
  induction Hs as [|e l Hl IH Hall]; [constructor|]. cbn in Hnd'. inversion Hnd'; subst.
  constructor; [by apply IH|]. rewrite Forall_forall in *. intros x Hx.
  specialize (Hall x Hx). unfold key_le in Hall.
  destruct (bytes_ltb_total (key_bytes e) (key_bytes x)) as [?|[Hk|?]]; [done| |congruence].
  exfalso. match goal with H : _ ∉ _ |- _ => apply H end.
  apply list_elem_of_fmap. by exists x.
Qed.

(** ** The codec *)

Section Codec.
Context {V : Type} (encv : V -> bytes) (readv : Reader V) (wfv : V -> Prop) (e : string)
  `{!Codec encv readv wfv}.

Lemma read_key_slice_ok r k kb r' :
  fits r ->
  read_key_slice r = Ok ((k, kb), r') <-> wf_text k /\ kb = text k /\ consumes r (text k) r'.
Proof using.
  intros F. unfold read_key_slice.
  assert (forall k1 r1, consumes r (text k1) r1 -> take (pos r1 - pos r) (remaining r) = text k1) as Ht.
  { intros k1 r1 C. rewrite (consumes_rem _ _ _ C), (consumes_pos _ _ _ C).
    replace (pos r + length (text k1) - pos r)%nat with (length (text k1)) by lia.
    apply take_app_length. }
  split.
  - destruct (read_text r) as [[k1 r1]|] eqn:E; [|done]. apply codec_iff in E as [Hk C]; [|done].
    intros [= <- <- <-]. by rewrite (Ht _ _ C).
  - intros (Hk & -> & C). rewrite (proj2 (codec_iff r k r' F)) by done. by rewrite (Ht _ _ C).
Qed.

(** The keys of [kvs] continue the strictly increasing run that ended with [last]. *)
Definition chain (last : option bytes) (kvs : list (string * V)) : Prop :=
  is_sorted_by_key (map (map_entry encv) kvs) = true /\
  match last, kvs with Some p, kv :: _ => bytes_ltb p (text (fst kv)) = true | _, _ => True end.

Lemma chain_cons last k v kvs :
  chain last ((k, v) :: kvs) <->
  match last with Some p => bytes_ltb p (text k) = true | None => True end /\
  chain (Some (text k)) kvs.
Proof using.
  unfold chain. destruct kvs as [|[k2 v2] kvs]; cbn [map is_sorted_by_key map_entry key_bytes fst].
  - tauto.
  - rewrite andb_true_iff. tauto.
Qed.

Definition kvs_bytes (kvs : list (string * V)) : bytes :=
  concat (map (fun kv => text (fst kv) ++ encv (snd kv)) kvs).

Lemma text_map_loop_ok n : forall last out r m r', fits r ->
  text_map_loop readv e n last out r = Ok (m, r') <->
  exists kvs, length kvs = n /\ Forall (fun kv => wf_text (fst kv) /\ wfv (snd kv)) kvs /\
    chain last kvs /\ m = foldl (fun o kv => <[fst kv := snd kv]> o) out kvs /\
    consumes r (kvs_bytes kvs) r'.
Proof.
  induction n as [|n IH]; intros last out r m r' F; cbn [text_map_loop].
  - rewrite mret_ok. split.
    + intros [-> ->]. exists []. rewrite consumes_nil by done. unfold chain. by destruct last.
    + intros (kvs & Hl & _ & _ & -> & C). destruct kvs; [|done]. by apply consumes_nil in C.
  - rewrite rd_bind_ok. split.
    + intros ([k kb] & r1 & (Hk & -> & C)%read_key_slice_ok & H); [|done].
      apply rd_bind_ok in H as (u & r2 & [Hg ->]%guard_ok & H).
      apply rd_bind_ok in H as (v & r2 & Hv & H). pose proof (consumes_fits_r _ _ _ C).
      apply codec_iff in Hv as [Wv C2]; [|done].
      apply IH in H as (kvs & <- & Hwf & Hch & -> & C3); [|by eapply consumes_fits_r].
      exists ((k, v) :: kvs). rewrite chain_cons. unfold kvs_bytes. cbn [map concat fst snd].
      rewrite <-app_assoc.
      split_and!; [done|by constructor|by destruct last|done|done|join_consumes].
    + intros (kvs & Hl & Hwf & Hch & -> & C). destruct kvs as [|[k v] kvs]; [done|].
      inversion Hwf as [|? ? [Hk Hv] Hwf']; subst. apply chain_cons in Hch as [Hlast Hch].
      unfold kvs_bytes in C. cbn [map concat fst snd] in *. rewrite <-app_assoc in C.
      split_consumes C. exists (k, text k), r0. rewrite read_key_slice_ok by done.
      split; [done|]. apply rd_bind_ok. exists tt, r0. rewrite guard_ok.
      split; [by destruct last|]. apply rd_bind_ok. exists v, r1.
      rewrite codec_iff by done. split; [done|]. apply IH; [done|].
      exists kvs. split_and!; try done. by injection Hl.
Qed.

Lemma foldl_insert_list kvs (out : gmap string V) :
  NoDup (map fst kvs) ->
  foldl (fun o kv => <[fst kv := snd kv]> o) out kvs = list_to_map kvs ∪ out.
Proof using.
  revert out. induction kvs as [|[k v] kvs IH]; intros out Hnd; cbn.
  - by rewrite (left_id_L ∅ (∪)).
  - inversion Hnd; subst. rewrite IH by done. cbn.
    rewrite <-insert_union_r by by apply not_elem_of_list_to_map_1.
    by rewrite insert_union_l.
Qed.

Lemma text_fst_NoDup kvs :
  Forall (fun kv => wf_text (fst kv) /\ wfv (snd kv)) kvs ->
  is_sorted_by_key (map (map_entry encv) kvs) = true -> NoDup (map fst kvs).
Proof using.
  intros _ Hs%sorted_keys_distinct. rewrite map_map in Hs.
  change (map _ kvs) with ((fun kv => text (fst kv)) <$> kvs) in Hs.
  assert ((fun kv : string * V => text (fst kv)) <$> kvs = text <$> (fst <$> kvs)) as E
    by by rewrite <-list_fmap_compose.
  rewrite E in Hs. by apply NoDup_fmap_1 in Hs.
Qed.
End Codec.

Lemma codec_text_map_aux {V} (encv : V -> bytes) (wfv : V -> Prop) kvs :
  is_sorted_by_key (map (map_entry encv) kvs) = true -> NoDup (map fst kvs) ->
  encode_text_map encv (list_to_map kvs)
  = head_bytes 5 (N.of_nat (length kvs)) ++ kvs_bytes encv kvs.
Proof.
  intros Hs Hnd. unfold encode_text_map. rewrite (sort_by_key_unique (map (map_entry encv) kvs)).
  - by rewrite encode_map_eq, length_map, map_map.
  - done.
  - apply fmap_Permutation. symmetry. by apply map_to_list_to_map.
Qed.

Lemma sorted_listing {V} (encv : V -> bytes) (m : gmap string V) :
  map_Forall (fun k _ => wf_text k) m ->
  exists kvs, list_to_map kvs = m /\ kvs ≡ₚ map_to_list m /\
    is_sorted_by_key (map (map_entry encv) kvs) = true.
Proof.
  intros Hwf. set (es := map (map_entry encv) (map_to_list m)).
  assert (sort_by_key es ≡ₚ es) as Hp by apply merge_sort_Permutation.
  apply Permutation_map_inv in Hp as (kvs & E & Hp).
  exists kvs. split_and!; [|by symmetry|].
  - rewrite <-(list_to_map_to_list m). apply list_to_map_proper; [|done].
    rewrite <-Hp. apply NoDup_fst_map_to_list.
  - rewrite <-E.
    apply sort_by_key_sorted. unfold es. rewrite map_map.
    apply (NoDup_fmap_2_strong (fun kv => key_bytes (map_entry encv kv))), NoDup_map_to_list.
    intros [k1 v1] [k2 v2] H1%elem_of_map_to_list H2%elem_of_map_to_list Hk.
    cbn [map_entry key_bytes fst] in Hk. apply text_inj in Hk as ->; [congruence| |]; [by apply (Hwf k1 v1)|by apply (Hwf k2 v2)].
Qed.

#[export] Instance codec_text_map {V} (encv : V -> bytes) (readv : Reader V) (wfv : V -> Prop) e
    `{!Codec encv readv wfv} :
  Codec (encode_text_map encv) (decode_text_map readv e) (wf_text_map wfv).
Proof.
  intros r m r' F. unfold decode_text_map. rewrite rd_bind_ok. split.
  - intros (n & r1 & [Hn C]%codec_iff & H); [|done].
    apply (text_map_loop_ok encv readv wfv e) in H as (kvs & Hl & Hwf & [Hs _] & -> & C2);
      [|by eapply consumes_fits_r].
    assert (NoDup (map fst kvs)) as Hnd by by eapply text_fst_NoDup.
    rewrite foldl_insert_list, (right_id_L ∅ (∪)) by done.
    rewrite (codec_text_map_aux encv wfv) by done. rewrite Hl, N2Nat.id.
    split; [|apply consumes_app; eauto]. split.
    + rewrite map_size_list_to_map by done. lia.
    + intros k v Hkv%elem_of_list_to_map_2. rewrite Forall_forall in Hwf. by apply (Hwf (k, v)).
  - intros [[Hn Hwf] C]. destruct (sorted_listing encv m) as (kvs & <- & Hp & Hs).
    { intros k v Hkv. apply (Hwf k v Hkv). }
    assert (NoDup (map fst kvs)) as Hnd.
    { rewrite Hp. apply NoDup_fst_map_to_list. }
    rewrite (codec_text_map_aux encv wfv) in C by done. split_consumes C.
    rewrite map_size_list_to_map in Hn by done.
    exists (N.of_nat (length kvs)), r0. rewrite codec_iff by done. split; [done|].
    apply (text_map_loop_ok encv readv wfv e); [done|]. exists kvs.
    rewrite Nat2N.id, foldl_insert_list, (right_id_L ∅ (∪)) by done.
    split_and!; try done. rewrite Forall_forall. intros [k v] Hkv.
    apply (Hwf k v). by apply elem_of_list_to_map_1.
Qed.

Lemma Canonical_text_map {V} (encv : V -> bytes) (wfv : V -> Prop) m :
  (forall v, wfv v -> Canonical (encv v)) -> wf_text_map wfv m ->
  Canonical (encode_text_map encv m).
Proof.
  intros Hv [Hn Hwf]. destruct (sorted_listing encv m) as (kvs & <- & Hp & Hs).
  { intros k v Hkv. apply (Hwf k v Hkv). }
  assert (NoDup (map fst kvs)) as Hnd by (rewrite Hp; apply NoDup_fst_map_to_list).
  rewrite map_size_list_to_map in Hn by done.
  unfold encode_text_map. rewrite (sort_by_key_unique (map (map_entry encv) kvs)); [|done|].
  - apply Canonical_map; [|done|].
    + rewrite length_map. change MAX_CBOR_ENTRIES with 1048576 in *. unfold u64_size. lia.
    + rewrite Forall_forall. intros en ([k v] & -> & Hkv)%list_elem_of_fmap.
      destruct (Hwf k v) as [Hk Hwv]; [by apply elem_of_list_to_map_1|].
      split; [by apply Canonical_text|by apply Hv].
  - apply fmap_Permutation. symmetry. by apply map_to_list_to_map.
Qed.
