(* ===== verification/Keys.v ===== *)
(** Identity keys ([sidevers-core/src/keys.rs]).

    The cryptographic primitives are third-party crates (ed25519-dalek,
    blake3, hkdf): they are the class [Crypto], a parameter of every
    definition that uses them; [CryptoLaws] states what their documentation
    promises.  [Toy] is a concrete instance of both, used to show on concrete
    inputs that hypotheses can hold; it is of course not secure. *)

From S2P Require Import Prelude.

Open Scope N_scope.

Definition SECRET_KEY_LEN : N := 32.
Definition PUBLIC_KEY_LEN : N := 32.
Definition SIGNATURE_LEN : N := 64.
Definition SIDE_HKDF_SALT : bytes := as_bytes "sidevers/v1/sides".

Class Crypto := {
  blake3 : bytes -> bytes;
  blake3_keyed : bytes -> bytes -> bytes;
  (** [SigningKey::from_bytes(seed).verifying_key().to_bytes()] *)
  ed_public : bytes -> bytes;
  (** [VerifyingKey::from_bytes(pk).is_ok()] *)
  ed_valid_point : bytes -> bool;
  ed_sign : bytes -> bytes -> bytes;
  ed_verify : bytes -> bytes -> bytes -> bool;
  (** [Hkdf::<Sha512>::new(salt, ikm).expand(info, [0; len])] *)
  hkdf_sha512 : bytes -> bytes -> bytes -> N -> bytes
}.

Class CryptoLaws `{Crypto} : Prop := {
  blake3_length : forall m, blen (blake3 m) = 32;
  blake3_keyed_length : forall k m, blen (blake3_keyed k m) = 32;
  ed_public_length : forall seed, blen (ed_public seed) = PUBLIC_KEY_LEN;
  ed_public_valid : forall seed, ed_valid_point (ed_public seed) = true;
  ed_sign_length : forall seed m, blen (ed_sign seed m) = SIGNATURE_LEN;
  ed_verify_sign : forall seed m, ed_verify (ed_public seed) m (ed_sign seed m) = true;
  hkdf_length : forall salt ikm info len, blen (hkdf_sha512 salt ikm info len) = len
}.

(** [SideLabel] is its string. *)
Record MasterKey := { master_seed : bytes }.
Record SideKey := { signing : bytes; side_label : string }.
Record PublicKey := { pk_bytes : bytes }.

Section Keys.
  Context `{Crypto}.

Definition side_from_seed (seed : bytes) (label : string) : SideKey :=
  {| signing := seed; side_label := label |}.

(** [MasterKey::derive_side]: HKDF with the label as the info string. *)
Definition derive_side (m : MasterKey) (label : string) : SideKey :=
  {| signing := hkdf_sha512 SIDE_HKDF_SALT (master_seed m) (as_bytes label) SECRET_KEY_LEN;
     side_label := label |}.

Definition public_bytes (side : SideKey) : bytes := ed_public (signing side).
Definition side_sign (side : SideKey) (message : bytes) : bytes := ed_sign (signing side) message.

(** [PublicKey::from_bytes]. *)
Definition pk_from_bytes (bs : bytes) : result PublicKey :=
  if ed_valid_point bs then Ok {| pk_bytes := bs |}
  else Err (Error.Invariant "invalid Ed25519 public key encoding").

(** [PublicKey::verify]. *)
Definition pk_verify (pk : PublicKey) (message signature : bytes) : result unit :=
  ensure (ed_verify (pk_bytes pk) message signature) Error.SignatureInvalid.

(** The step every signed record ends its decoder with:
    [PublicKey::from_bytes(&pk)?.verify(blake3::hash(&unsigned).as_bytes(), &sig)?]. *)
Definition verify_signed (pk unsigned signature : bytes) : result unit :=
  p ← pk_from_bytes pk;
  pk_verify p (blake3 unsigned) signature.

(** The signature [sig] of [unsigned] by [pk] is acceptable. *)
Definition signed_by (pk unsigned signature : bytes) : Prop :=
  ed_valid_point pk = true /\ ed_verify pk (blake3 unsigned) signature = true.

Lemma verify_signed_ok pk unsigned sig u :
  verify_signed pk unsigned sig = Ok u <-> signed_by pk unsigned sig.
Proof.
  unfold verify_signed, signed_by, pk_from_bytes, pk_verify. rewrite result_bind_ok.
  destruct (ed_valid_point pk); split.
  - by intros (p & [= <-] & Hv%ensure_ok).
  - intros [_ Hv]. eexists. split; [done|]. by apply ensure_ok.
  - by intros (p & [=] & _).
  - by intros [[=] _].
Qed.

Lemma signed_by_sign `{!CryptoLaws} side unsigned :
  signed_by (public_bytes side) unsigned (side_sign side (blake3 unsigned)).
Proof. split; [apply ed_public_valid|apply ed_verify_sign]. Qed.

(** The tail shared by the parsers of signed records: verify, compare with
    the re-encoding, return. *)
Lemma signed_wire_ok {A} (d : result A) (W : A -> Prop) (enc pk unsigned sig : A -> bytes) e bs a :
  (forall x, d = Ok x /\ bs = enc x <-> W x /\ bs = enc x) ->
  (x ← d; _ ← verify_signed (pk x) (unsigned x) (sig x);
   _ ← ensure (bool_decide (enc x = bs)) e; Ok x) = Ok a <->
  W a /\ signed_by (pk a) (unsigned a) (sig a) /\ bs = enc a.
Proof.
  intros Hd. rewrite result_bind_ok. split.
  - intros (x & Hx & Hk). apply result_bind_ok in Hk as (u & Hs%verify_signed_ok & Hk).
    apply result_bind_ok in Hk as (u2 & Hr%ensure_ok & [= ->]).
    apply bool_decide_eq_true in Hr. destruct (proj1 (Hd a)); auto.
  - intros (HW & Hs & Hb). exists a. split; [by apply Hd|].
    apply result_bind_ok. exists tt. split; [by apply verify_signed_ok|].
    by rewrite bool_decide_eq_true_2.
Qed.

(** The same tail without the comparison, behind a decoder that ignores what
    follows its last field. *)
Lemma signed_prefix_ok {A} (d : result A) (W : A -> Prop) (enc pk unsigned sig : A -> bytes) bs a :
  (forall x, d = Ok x <-> W x /\ exists s, bs = enc x ++ s) ->
  (x ← d; _ ← verify_signed (pk x) (unsigned x) (sig x); Ok x) = Ok a <->
  W a /\ signed_by (pk a) (unsigned a) (sig a) /\ exists s, bs = enc a ++ s.
Proof.
  intros Hd. rewrite result_bind_ok. split.
  - intros (x & [HW Hb]%Hd & Hk). by apply result_bind_ok in Hk as (u & Hs%verify_signed_ok & [= <-]).
  - intros (HW & Hs & Hb). exists a. split; [by apply Hd|].
    apply result_bind_ok. exists tt. split; [by apply verify_signed_ok|done].
Qed.

End Keys.

(** ** A concrete instance *)

Module Toy.

(** The first [n] bytes, padded with zeros. *)
Definition pad (n : nat) (bs : bytes) : bytes := take n (bs ++ replicate n Byte.x00).

Lemma pad_length n bs : length (pad n bs) = n.
Proof. unfold pad. rewrite length_take, length_app, length_replicate. lia. Qed.

#[export] Instance toy : Crypto := {|
  blake3 m := pad 32 m;
  blake3_keyed k m := pad 32 (k ++ m);
  ed_public seed := pad 32 seed;
  ed_valid_point pk := Nat.eqb (length pk) 32;
  ed_sign seed m := pad 32 seed ++ pad 32 m;
  ed_verify pk m s := bool_decide (s = pk ++ pad 32 m);
  hkdf_sha512 salt ikm info len := pad (N.to_nat len) (ikm ++ info)
|}.

#[export] Instance toy_laws : CryptoLaws.
Proof.
  split; intros; cbn; unfold blen; rewrite ?length_app, ?pad_length, ?bool_decide_eq_true; try done.
  lia.
Qed.

(** A side of that instance. *)
Definition side : SideKey := {| signing := pad 32 [Byte.x07]; side_label := "work" |}.
Definition side2 : SideKey := {| signing := pad 32 [Byte.x08]; side_label := "private" |}.

End Toy.
