(* ===== verification/Envelope.v ===== *)
(** The signed envelope every message travels in
    ([sidevers-core/src/envelope.rs]): its wire form, [sign_with],
    [from_wire_bytes] and the freshness check. *)

From S2P Require Import Prelude Utf8 Cbor CborCodec CborValue Keys.

Open Scope N_scope.

Definition PROTOCOL_VERSION : N := 1.
Definition NONCE_LEN : N := 16.
Definition DEFAULT_MAX_SKEW_SECS : N := 300.
Definition SOFT_MAX_SKEW_SECS : N := 900.

Inductive MessageCategory :=
| Reserved | Handshake | Direct | Storage | Discovery | Verse | Public | Future | Extension.

#[export] Instance MessageCategory_eq_dec : EqDecision MessageCategory.
Proof. solve_decision. Defined.

(** [MessageType::category]; a [MessageType] is its [u8]. *)
Definition category (t : N) : MessageCategory :=
  if t <=? 0x0F then Reserved
  else if t <=? 0x1F then Handshake
  else if t <=? 0x2F then Direct
  else if t <=? 0x3F then Storage
  else if t <=? 0x4F then Discovery
  else if t <=? 0x5F then Verse
  else if t <=? 0x6F then Public
  else if t <=? 0xEF then Future
  else Extension.

Record Envelope := {
  version : N;
  message_type : N;
  from : bytes;
  to : option bytes;
  timestamp : N;
  nonce : bytes;
  payload : bytes;
  sig : bytes
}.

Definition unsigned_entries (version message_type : N) (from : bytes) (to : option bytes)
    (timestamp : N) (nonce payload : bytes) : list MapEntry :=
  [ entry "t" (uint message_type);
    entry "v" (uint version);
    entry "to" (or_null bytestr to);
    entry "ts" (uint timestamp);
    entry "from" (bytestr from);
    entry "nonce" (bytestr nonce);
    entry "payload" (bytestr payload) ].

Definition encode_unsigned (version message_type : N) (from : bytes) (to : option bytes)
    (timestamp : N) (nonce payload : bytes) : bytes :=
  encode_map (unsigned_entries version message_type from to timestamp nonce payload).

Definition wire_entries (e : Envelope) : list MapEntry :=
  [ entry "t" (uint (message_type e));
    entry "v" (uint (version e));
    entry "to" (or_null bytestr (to e));
    entry "ts" (uint (timestamp e));
    entry "sig" (bytestr (sig e));
    entry "from" (bytestr (from e));
    entry "nonce" (bytestr (nonce e));
    entry "payload" (bytestr (payload e)) ].

Definition to_wire_bytes (e : Envelope) : bytes := encode_map (wire_entries e).

(** The digest input of an envelope: its unsigned encoding. *)
Definition unsigned_bytes (e : Envelope) : bytes :=
  encode_unsigned (version e) (message_type e) (from e) (to e) (timestamp e) (nonce e) (payload e).

(** The [Option] accumulators of the parsing loop. *)
Record Acc := {
  acc_version : option N;
  acc_t : option N;
  acc_to : option (option bytes);
  acc_ts : option N;
  acc_sig : option bytes;
  acc_from : option bytes;
  acc_nonce : option bytes;
  acc_payload : option bytes
}.

Definition acc_new : Acc := Build_Acc None None None None None None None None.

Definition expected_keys : list string :=
  ["t"; "v"; "to"; "ts"; "sig"; "from"; "nonce"; "payload"].

(** One iteration of [for expected in expected_keys]. *)
Definition field_step (expected : string) (a : Acc) : Reader Acc :=
  let '(Build_Acc v t to ts sg fr nc pl) := a in
  _ ← expect_key expected "envelope map keys not in canonical order";
  if String.eqb expected "t" then
    x ← read_u8 "message type out of u8 range: {v}"; mret (Build_Acc v (Some x) to ts sg fr nc pl)
  else if String.eqb expected "v" then
    x ← read_u64; mret (Build_Acc (Some x) t to ts sg fr nc pl)
  else if String.eqb expected "to" then
    x ← read_optional_fixed "to" PUBLIC_KEY_LEN; mret (Build_Acc v t (Some x) ts sg fr nc pl)
  else if String.eqb expected "ts" then
    x ← read_u64; mret (Build_Acc v t to (Some x) sg fr nc pl)
  else if String.eqb expected "sig" then
    x ← read_fixed_bytes "sig" SIGNATURE_LEN; mret (Build_Acc v t to ts (Some x) fr nc pl)
  else if String.eqb expected "from" then
    x ← read_fixed_bytes "from" PUBLIC_KEY_LEN; mret (Build_Acc v t to ts sg (Some x) nc pl)
  else if String.eqb expected "nonce" then
    x ← read_fixed_bytes "nonce" NONCE_LEN; mret (Build_Acc v t to ts sg fr (Some x) pl)
  else
    x ← read_bytes; mret (Build_Acc v t to ts sg fr nc (Some x)).

Fixpoint field_loop (keys : list string) (a : Acc) : Reader Acc :=
  match keys with
  | [] => mret a
  | k :: ks => a' ← field_step k a; field_loop ks a'
  end.

(** The [ok_or(Error::Invariant("missing ..."))?] of every accumulator. *)
Definition acc_finish (a : Acc) : result Envelope :=
  v ← ok_or (acc_version a) (Error.Invariant "missing version");
  t ← ok_or (acc_t a) (Error.Invariant "missing message type");
  fr ← ok_or (acc_from a) (Error.Invariant "missing from");
  to ← ok_or (acc_to a) (Error.Invariant "missing to");
  ts ← ok_or (acc_ts a) (Error.Invariant "missing timestamp");
  nc ← ok_or (acc_nonce a) (Error.Invariant "missing nonce");
  pl ← ok_or (acc_payload a) (Error.Invariant "missing payload");
  sg ← ok_or (acc_sig a) (Error.Invariant "missing sig");
  Ok {| version := v; message_type := t; from := fr; to := to; timestamp := ts;
        nonce := nc; payload := pl; sig := sg |}.

(** The parsing part of [from_wire_bytes], up to the version check. *)
Definition parse_envelope : Reader Envelope :=
  _ ← expect_map 8 "envelope expected 8-key map, got {map_len}";
  a ← field_loop expected_keys acc_new;
  _ ← check_end (Error.CborDecode "trailing bytes after envelope");
  lift (acc_finish a).

Section Signed.
  Context `{Crypto}.

Definition sign_with (message_type : N) (side : SideKey) (to : option bytes) (payload : bytes)
    (timestamp : N) (nonce : bytes) : result Envelope :=
  let from := public_bytes side in
  let unsigned := encode_unsigned PROTOCOL_VERSION message_type from to timestamp nonce payload in
  let digest := blake3 unsigned in
  let sig := side_sign side digest in
  Ok {| version := PROTOCOL_VERSION; message_type := message_type; from := from; to := to;
        timestamp := timestamp; nonce := nonce; payload := payload; sig := sig |}.

Definition from_wire_bytes (bs : bytes) : result Envelope :=
  env ← decode_with parse_envelope bs;
  _ ← ensure (version env =? PROTOCOL_VERSION) (Error.UnsupportedVersion (version env));
  _ ← verify_signed (from env) (unsigned_bytes env) (sig env);
  _ ← ensure (bool_decide (to_wire_bytes env = bs))
        (Error.CborNotCanonical "envelope bytes are not canonical re-encode");
  Ok env.

End Signed.

Definition check_freshness (e : Envelope) (now max_skew_secs : N) : result unit :=
  if max_skew_secs <? abs_diff now (timestamp e)
  then Err (Error.TimestampSkewed max_skew_secs)
  else Ok tt.

(** ** Well-formed envelopes *)

(** What the Rust types of the fields guarantee, plus the length of the
    payload that fits a CBOR length. *)
Definition wf_envelope (e : Envelope) : Prop :=
  message_type e <= 0xFF /\ version e < u64_size /\
  from_option (fun b => blen b = PUBLIC_KEY_LEN) True (to e) /\
  timestamp e < u64_size /\ blen (sig e) = SIGNATURE_LEN /\
  blen (from e) = PUBLIC_KEY_LEN /\ blen (nonce e) = NONCE_LEN /\ wf_bytes (payload e).

(** ** The loop in straight-line form *)

Definition envelope_fields : Reader Envelope :=
  let e := "envelope map keys not in canonical order" in
  _ ← expect_map 8 "envelope expected 8-key map, got {map_len}";
  _ ← expect_key "t" e;
  t ← read_u8 "message type out of u8 range: {v}";
  _ ← expect_key "v" e;
  v ← read_u64;
  _ ← expect_key "to" e;
  to ← read_optional_fixed "to" PUBLIC_KEY_LEN;
  _ ← expect_key "ts" e;
  ts ← read_u64;
  _ ← expect_key "sig" e;
  sg ← read_fixed_bytes "sig" SIGNATURE_LEN;
  _ ← expect_key "from" e;
  fr ← read_fixed_bytes "from" PUBLIC_KEY_LEN;
  _ ← expect_key "nonce" e;
  nc ← read_fixed_bytes "nonce" NONCE_LEN;
  _ ← expect_key "payload" e;
  pl ← read_bytes;
  mret {| version := v; message_type := t; from := fr; to := to; timestamp := ts;
          nonce := nc; payload := pl; sig := sg |}.

#[export] Instance envelope_codec : Codec to_wire_bytes envelope_fields wf_envelope.
Proof. unfold to_wire_bytes, envelope_fields, wf_envelope, wire_entries. solve_codec. Qed.

Lemma parse_envelope_eq r :
  parse_envelope r =
  (e ← envelope_fields; _ ← check_end (Error.CborDecode "trailing bytes after envelope"); mret e) r.
Proof.
  unfold parse_envelope, envelope_fields, expected_keys, acc_new.
  cbn [field_loop field_step String.eqb Ascii.eqb Bool.eqb].
  do 17 (rewrite ?rd_bind_assoc; apply rd_bind_ext; intros ? ?; rewrite ?rd_bind_ret;
         cbn [field_step String.eqb Ascii.eqb Bool.eqb]).
  rewrite ?rd_bind_ret. by apply rd_bind_ext.
Qed.

Lemma parse_envelope_ok bs e :
  blen bs < u64_size ->
  decode_with parse_envelope bs = Ok e <-> wf_envelope e /\ bs = to_wire_bytes e.
Proof.
  intros F. rewrite <-(decode_exact to_wire_bytes envelope_fields wf_envelope
    (Error.CborDecode "trailing bytes after envelope")) by done.
  unfold decode_with. by rewrite parse_envelope_eq.
Qed.

Lemma to_wire_bytes_canonical e : wf_envelope e -> Canonical (to_wire_bytes e).
Proof.
  unfold wf_envelope, to_wire_bytes, wire_entries. intros Hwf. destruct_and?. canon.
Qed.

Lemma unsigned_entries_values e :
  wf_envelope e ->
  Forall (fun x => Canonical (value_bytes x))
    (unsigned_entries (version e) (message_type e) (from e) (to e) (timestamp e) (nonce e) (payload e)).
Proof.
  unfold wf_envelope, unsigned_entries. intros Hwf. destruct_and?.
  repeat (apply Forall_cons; split); [..|by apply Forall_nil]; canon.
Qed.

Lemma blen_payload_le e : blen (payload e) <= blen (to_wire_bytes e).
Proof.
  etrans; [apply blen_bytestr_le|].
  apply (blen_value_le (wire_entries e) (entry "payload" (bytestr (payload e)))).
  do 7 right. by left.
Qed.

(** The header of an envelope takes less than 300 bytes. *)
Lemma blen_to_wire_le e :
  wf_envelope e -> blen (to_wire_bytes e) <= 300 + blen (payload e).
Proof.
  unfold wf_envelope, SIGNATURE_LEN, PUBLIC_KEY_LEN, NONCE_LEN. intros Hwf. destruct_and?.
  unfold to_wire_bytes, wire_entries. flatten. rewrite !blen_app.
  pose proof (blen_uint_ub (message_type e)). pose proof (blen_uint_ub (version e)).
  pose proof (blen_uint_ub (timestamp e)). pose proof (blen_bytestr_ub (sig e)).
  pose proof (blen_bytestr_ub (from e)). pose proof (blen_bytestr_ub (nonce e)).
  pose proof (blen_bytestr_ub (payload e)).
  assert (blen (or_null bytestr (to e)) <= 41).
  { match goal with H : from_option _ _ (to e) |- _ => revert H end.
    destruct (to e) as [b|]; cbn [or_null from_option]; [intros ?|done].
    pose proof (blen_bytestr_ub b). lia. }
  repeat match goal with |- context [blen (key ?t)] =>
    let n := eval vm_compute in (blen (key t)) in change (blen (key t)) with n end.
  change (blen (text "t")) with 2. change (blen (head_bytes 5 (N.of_nat 8))) with 1. lia.
Qed.

(** ** Properties *)

(** C1: the parser accepts exactly the wire encodings of well-formed version-1
    envelopes that carry a valid signature of their sender over the other
    seven fields. *)
Theorem from_wire_bytes_exact `{Crypto} bs e (F : blen bs < u64_size) :
  from_wire_bytes bs = Ok e <->
  wf_envelope e /\ version e = PROTOCOL_VERSION /\
  signed_by (from e) (unsigned_bytes e) (sig e) /\ bs = to_wire_bytes e.
Proof.
  unfold from_wire_bytes. rewrite result_bind_ok. setoid_rewrite (parse_envelope_ok bs _ F). split.
  - intros (e' & [Hwf ->] & Hk). rewrite !result_bind_ok in Hk.
    destruct Hk as (u1 & Hv%ensure_ok & Hk). to_prop.
    apply result_bind_ok in Hk as (u2 & Hs%verify_signed_ok & Hk).
    by apply result_bind_ok in Hk as (u3 & _ & [= ->]).
  - intros (Hwf & Hv & Hs & ->). exists e. split; [done|].
    apply result_bind_ok. exists tt. rewrite ensure_ok, N.eqb_eq. split; [done|].
    apply result_bind_ok. exists tt. rewrite verify_signed_ok. split; [done|].
    apply result_bind_ok. exists tt. by rewrite ensure_ok, bool_decide_eq_true.
Qed.

(** What [sign_with] produces is accepted and read back unchanged. *)
Theorem sign_with_roundtrip `{CryptoLaws} t side to pl ts n e
    (Ht : t <= 0xFF) (Hto : from_option (fun b => blen b = PUBLIC_KEY_LEN) True to)
    (Hts : ts < u64_size) (Hn : blen n = NONCE_LEN)
    (Hsign : sign_with t side to pl ts n = Ok e)
    (Hlen : blen (to_wire_bytes e) < u64_size) :
  from_wire_bytes (to_wire_bytes e) = Ok e.
Proof.
  injection Hsign as <-. set (e := Build_Envelope _ _ _ _ _ _ _ _) in *.
  assert (wf_bytes pl) as Hpl.
  { unfold to_wire_bytes in Hlen. unfold wf_bytes. revert Hlen. unfold wire_entries. flatten.
    rewrite !blen_app. cbn [payload e]. pose proof (blen_bytestr_le pl). lia. }
  assert (wf_envelope e) as Hwf.
  { unfold wf_envelope; cbn [e version message_type from Envelope.to timestamp nonce payload sig].
    split_and!; try done; [apply ed_sign_length|apply ed_public_length]. }
  unfold from_wire_bytes. rewrite (proj2 (parse_envelope_ok _ e Hlen)) by done.
  cbn [mbind result_bind]. rewrite (proj2 (verify_signed_ok _ _ _ tt)) by apply signed_by_sign.
  cbn. by rewrite bool_decide_eq_true_2.
Qed.

(** The signature binds every field: two well-formed envelopes with the
    same signed bytes agree on all of the seven signed fields. *)
Theorem unsigned_bytes_injective e1 e2
    (W1 : wf_envelope e1) (W2 : wf_envelope e2) (E : unsigned_bytes e1 = unsigned_bytes e2) :
  version e1 = version e2 /\ message_type e1 = message_type e2 /\ from e1 = from e2 /\
  to e1 = to e2 /\ timestamp e1 = timestamp e2 /\ nonce e1 = nonce e2 /\ payload e1 = payload e2.
Proof.
  apply encode_map_inj in E; [|reflexivity|by apply unsigned_entries_values..].
  destruct W1 as (?&?&?&?&_&?&?&?), W2 as (?&?&?&?&_&?&?&?).
  unfold wf_bytes, NONCE_LEN, PUBLIC_KEY_LEN in *.
  injection E as Et Ev Eto Ets Efr En Ep.
  apply uint_inj in Et, Ev, Ets; try (unfold u64_size in *; lia).
  apply bytestr_inj in Efr, En, Ep; try (unfold wf_bytes, u64_size in *; lia).
  apply (or_null_bytes_inj 32) in Eto; done.
Qed.

(** [check_freshness] accepts exactly the timestamps within the window on
    either side of the clock, and reports the window otherwise. *)
Theorem check_freshness_window e now skew :
  check_freshness e now skew =
    if decide (now <= timestamp e + skew /\ timestamp e <= now + skew) then Ok tt
    else Err (Error.TimestampSkewed skew).
Proof.
  unfold check_freshness, abs_diff. repeat case_bool; case_decide; to_prop; done || lia.
Qed.

(** ** Concrete instances *)

Module EnvelopeExamples.
Import Toy.

Definition n16 : bytes := replicate 16 Byte.x01.

(** A direct message of [Toy.side] to [Toy.side2]. *)
Definition env : Envelope :=
  let to := Some (public_bytes side2) in
  let u := encode_unsigned 1 0x20 (public_bytes side) to 1700000000 n16 (as_bytes "hi") in
  {| version := 1; message_type := 0x20; from := public_bytes side; to := to;
     timestamp := 1700000000; nonce := n16; payload := as_bytes "hi";
     sig := side_sign side (blake3 u) |}.

Lemma env_wf : wf_envelope env.
Proof. unfold wf_envelope, wf_bytes. vm_compute. repeat split; discriminate. Qed.

Lemma from_wire_bytes_exact_witness :
  wf_envelope env /\ version env = PROTOCOL_VERSION /\
  signed_by (from env) (unsigned_bytes env) (sig env) /\ to_wire_bytes env = to_wire_bytes env.
Proof. apply from_wire_bytes_exact; vm_compute; reflexivity. Defined.

Lemma sign_with_roundtrip_witness : from_wire_bytes (to_wire_bytes env) = Ok env.
Proof.
  apply (sign_with_roundtrip 0x20 side (Some (public_bytes side2)) (as_bytes "hi") 1700000000 n16);
    vm_compute; done.
Defined.

Lemma unsigned_bytes_injective_witness :
  version env = version env /\ message_type env = message_type env /\ from env = from env /\
  to env = to env /\ timestamp env = timestamp env /\ nonce env = nonce env /\
  payload env = payload env.
Proof. apply unsigned_bytes_injective; [apply env_wf|apply env_wf|reflexivity]. Defined.

(** Bytes after the envelope, and another signature, are refused. *)
Example trailing_refused : is_ok (from_wire_bytes (to_wire_bytes env ++ [Byte.x00])) = false.
Proof. vm_compute. reflexivity. Qed.

Example forgery_refused :
  is_ok (from_wire_bytes (to_wire_bytes {| version := 1; message_type := 0x20;
    from := from env; to := to env; timestamp := timestamp env; nonce := n16;
    payload := payload env; sig := replicate 64 Byte.x00 |})) = false.
Proof. vm_compute. reflexivity. Qed.

End EnvelopeExamples.
