(* ===== verification/Device.v ===== *)
(** Multi-device records ([sidevers-core/src/messages/device.rs]): the signed
    pairing request, state bundle, device revocation and state delta, the
    plaintext of a sealed state bundle and the operations a delta carries.
    The URI forms of the same source file are in [Qr]. *)

From S2P Require Import Prelude Utf8 Cbor CborCodec CborValue Keys Envelope.

Open Scope N_scope.

Definition PAIRING_NONCE_LEN : N := 16.
Definition KEY_NONCE_LEN : N := NONCE_LEN.
Definition STATE_BUNDLE_AAD : bytes := as_bytes "sidevers/v1/device-state-bundle".

(** ** Pairing requests (0x26) *)

Module PairingRequest.

Record PairingRequestPayload := {
  side : bytes;
  device_pubkey : bytes;
  device_x25519_pubkey : bytes;
  nonce : bytes;
  signature : bytes
}.

Definition unsigned_entries (side device_pubkey device_x25519_pubkey nonce : bytes) : list MapEntry :=
  [ entry "side" (bytestr side);
    entry "nonce" (bytestr nonce);
    entry "device_pubkey" (bytestr device_pubkey);
    entry "device_x25519_pubkey" (bytestr device_x25519_pubkey) ].

Definition encode_unsigned (side device_pubkey device_x25519_pubkey nonce : bytes) : bytes :=
  encode_map (unsigned_entries side device_pubkey device_x25519_pubkey nonce).

Definition wire_entries (p : PairingRequestPayload) : list MapEntry :=
  [ entry "side" (bytestr (side p));
    entry "nonce" (bytestr (nonce p));
    entry "signature" (bytestr (signature p));
    entry "device_pubkey" (bytestr (device_pubkey p));
    entry "device_x25519_pubkey" (bytestr (device_x25519_pubkey p)) ].

Definition to_wire_bytes (p : PairingRequestPayload) : bytes := encode_map (wire_entries p).

Definition fields : Reader PairingRequestPayload :=
  let e := "PairingRequest keys not in canonical order" in
  _ ← expect_map 5 "PairingRequest expected 5 keys, got {n}";
  _ ← expect_key "side" e;
  s ← read_fixed_bytes "side" 32;
  _ ← expect_key "nonce" e;
  n ← read_fixed_bytes "nonce" PAIRING_NONCE_LEN;
  _ ← expect_key "signature" e;
  sg ← read_fixed_bytes "signature" SIGNATURE_LEN;
  _ ← expect_key "device_pubkey" e;
  d ← read_fixed_bytes "device_pubkey" 32;
  _ ← expect_key "device_x25519_pubkey" e;
  x ← read_fixed_bytes "device_x25519_pubkey" 32;
  mret {| side := s; device_pubkey := d; device_x25519_pubkey := x; nonce := n; signature := sg |}.

Definition unsigned_bytes (p : PairingRequestPayload) : bytes :=
  encode_unsigned (side p) (device_pubkey p) (device_x25519_pubkey p) (nonce p).

Definition wf (p : PairingRequestPayload) : Prop :=
  blen (side p) = 32 /\ blen (nonce p) = PAIRING_NONCE_LEN /\
  blen (signature p) = SIGNATURE_LEN /\ blen (device_pubkey p) = 32 /\
  blen (device_x25519_pubkey p) = 32.

Section Signed.
Context `{Crypto}.

Definition sign (side : bytes) (device_signing_key : SideKey) (device_x25519_pubkey nonce : bytes)
    : result PairingRequestPayload :=
  let device_pubkey := public_bytes device_signing_key in
  let unsigned := encode_unsigned side device_pubkey device_x25519_pubkey nonce in
  let digest := blake3 unsigned in
  Ok {| side := side; device_pubkey := device_pubkey; device_x25519_pubkey := device_x25519_pubkey;
        nonce := nonce; signature := side_sign device_signing_key digest |}.

(** The signer is the new device, not the side it asks to join. *)
Definition from_wire_bytes (bs : bytes) : result PairingRequestPayload :=
  p ← decode_with (p ← fields; _ ← check_end (Error.CborDecode "trailing bytes after PairingRequest"); mret p) bs;
  _ ← verify_signed (device_pubkey p) (unsigned_bytes p) (signature p);
  _ ← ensure (bool_decide (to_wire_bytes p = bs))
        (Error.CborNotCanonical "PairingRequest bytes are not canonical re-encode");
  Ok p.

End Signed.

End PairingRequest.

(** ** State bundles (0x27) *)

Module StateBundle.

Record StateBundlePayload := {
  side : bytes;
  recipient_device : bytes;
  nonce : bytes;
  key_nonce : bytes;
  sealed_state : bytes;
  signature : bytes
}.

Definition unsigned_entries (side recipient_device nonce key_nonce sealed_state : bytes)
    : list MapEntry :=
  [ entry "side" (bytestr side);
    entry "nonce" (bytestr nonce);
    entry "key_nonce" (bytestr key_nonce);
    entry "sealed_state" (bytestr sealed_state);
    entry "recipient_device" (bytestr recipient_device) ].

Definition encode_unsigned (side recipient_device nonce key_nonce sealed_state : bytes) : bytes :=
  encode_map (unsigned_entries side recipient_device nonce key_nonce sealed_state).

Definition wire_entries (p : StateBundlePayload) : list MapEntry :=
  [ entry "side" (bytestr (side p));
    entry "nonce" (bytestr (nonce p));
    entry "key_nonce" (bytestr (key_nonce p));
    entry "signature" (bytestr (signature p));
    entry "sealed_state" (bytestr (sealed_state p));
    entry "recipient_device" (bytestr (recipient_device p)) ].

Definition to_wire_bytes (p : StateBundlePayload) : bytes := encode_map (wire_entries p).

Definition fields : Reader StateBundlePayload :=
  let e := "StateBundle keys not in canonical order" in
  _ ← expect_map 6 "StateBundle expected 6 keys, got {n}";
  _ ← expect_key "side" e;
  s ← read_fixed_bytes "side" 32;
  _ ← expect_key "nonce" e;
  n ← read_fixed_bytes "nonce" PAIRING_NONCE_LEN;
  _ ← expect_key "key_nonce" e;
  kn ← read_fixed_bytes "key_nonce" KEY_NONCE_LEN;
  _ ← expect_key "signature" e;
  sg ← read_fixed_bytes "signature" SIGNATURE_LEN;
  _ ← expect_key "sealed_state" e;
  ss ← read_bytes;
  _ ← expect_key "recipient_device" e;
  rd ← read_fixed_bytes "recipient_device" 32;
  mret {| side := s; recipient_device := rd; nonce := n; key_nonce := kn; sealed_state := ss;
          signature := sg |}.

Definition unsigned_bytes (p : StateBundlePayload) : bytes :=
  encode_unsigned (side p) (recipient_device p) (nonce p) (key_nonce p) (sealed_state p).

Definition wf (p : StateBundlePayload) : Prop :=
  blen (side p) = 32 /\ blen (nonce p) = PAIRING_NONCE_LEN /\ blen (key_nonce p) = KEY_NONCE_LEN /\
  blen (signature p) = SIGNATURE_LEN /\ wf_bytes (sealed_state p) /\
  blen (recipient_device p) = 32.

Section Signed.
Context `{Crypto}.

Definition sign (side_key : SideKey) (recipient_device nonce key_nonce sealed_state : bytes)
    : result StateBundlePayload :=
  let side := public_bytes side_key in
  let unsigned := encode_unsigned side recipient_device nonce key_nonce sealed_state in
  let digest := blake3 unsigned in
  Ok {| side := side; recipient_device := recipient_device; nonce := nonce; key_nonce := key_nonce;
        sealed_state := sealed_state; signature := side_sign side_key digest |}.

Definition from_wire_bytes (bs : bytes) : result StateBundlePayload :=
  p ← decode_with (p ← fields; _ ← check_end (Error.CborDecode "trailing bytes after StateBundle"); mret p) bs;
  _ ← verify_signed (side p) (unsigned_bytes p) (signature p);
  _ ← ensure (bool_decide (to_wire_bytes p = bs))
        (Error.CborNotCanonical "StateBundle bytes are not canonical re-encode");
  Ok p.

End Signed.

End StateBundle.

(** ** Device revocations (0x28) *)

Module DeviceRevoke.

Record DeviceRevokePayload := {
  side : bytes;
  device_pubkey : bytes;
  revoked_at : N;
  reason : option string;
  signature : bytes
}.

Definition unsigned_entries (side device_pubkey : bytes) (revoked_at : N) (reason : option string)
    : list MapEntry :=
  [ entry "side" (bytestr side);
    entry "reason" (or_null text reason);
    entry "revoked_at" (uint revoked_at);
    entry "device_pubkey" (bytestr device_pubkey) ].

Definition encode_unsigned (side device_pubkey : bytes) (revoked_at : N) (reason : option string)
    : bytes :=
  encode_map (unsigned_entries side device_pubkey revoked_at reason).

Definition wire_entries (p : DeviceRevokePayload) : list MapEntry :=
  [ entry "side" (bytestr (side p));
    entry "reason" (or_null text (reason p));
    entry "signature" (bytestr (signature p));
    entry "revoked_at" (uint (revoked_at p));
    entry "device_pubkey" (bytestr (device_pubkey p)) ].

Definition to_wire_bytes (p : DeviceRevokePayload) : bytes := encode_map (wire_entries p).

Definition fields : Reader DeviceRevokePayload :=
  let e := "DeviceRevoke keys not in canonical order" in
  _ ← expect_map 5 "DeviceRevoke expected 5 keys, got {n}";
  _ ← expect_key "side" e;
  s ← read_fixed_bytes "side" 32;
  _ ← expect_key "reason" e;
  rs ← read_nullable "missing reason" read_text;
  _ ← expect_key "signature" e;
  sg ← read_fixed_bytes "signature" SIGNATURE_LEN;
  _ ← expect_key "revoked_at" e;
  t ← read_u64;
  _ ← expect_key "device_pubkey" e;
  d ← read_fixed_bytes "device_pubkey" 32;
  mret {| side := s; device_pubkey := d; revoked_at := t; reason := rs; signature := sg |}.

Definition unsigned_bytes (p : DeviceRevokePayload) : bytes :=
  encode_unsigned (side p) (device_pubkey p) (revoked_at p) (reason p).

Definition wf (p : DeviceRevokePayload) : Prop :=
  blen (side p) = 32 /\ from_option wf_text True (reason p) /\
  blen (signature p) = SIGNATURE_LEN /\ revoked_at p < u64_size /\ blen (device_pubkey p) = 32.

Section Signed.
Context `{Crypto}.

Definition sign (side_key : SideKey) (device_pubkey : bytes) (revoked_at : N)
    (reason : option string) : result DeviceRevokePayload :=
  let side := public_bytes side_key in
  let unsigned := encode_unsigned side device_pubkey revoked_at reason in
  let digest := blake3 unsigned in
  Ok {| side := side; device_pubkey := device_pubkey; revoked_at := revoked_at; reason := reason;
        signature := side_sign side_key digest |}.

Definition from_wire_bytes (bs : bytes) : result DeviceRevokePayload :=
  p ← decode_with (p ← fields; _ ← check_end (Error.CborDecode "trailing bytes after DeviceRevoke"); mret p) bs;
  _ ← verify_signed (side p) (unsigned_bytes p) (signature p);
  _ ← ensure (bool_decide (to_wire_bytes p = bs))
        (Error.CborNotCanonical "DeviceRevoke bytes are not canonical re-encode");
  Ok p.

End Signed.

End DeviceRevoke.

(** ** The plaintext of a state bundle *)

(** [encode_bytes_array] / [decode_bytes_array] and [encode_text_array]. *)
Definition encode_bytes_array (items : list bytes) : bytes := write_array bytestr items.
Definition decode_bytes_array : Reader (list bytes) :=
  read_array (read_fixed_bytes "bytes array item" 32).
Definition encode_text_array (items : list string) : bytes := write_array text items.

Definition wf_bytes_array (l : list bytes) : Prop :=
  Forall (fun b => blen b = 32) l /\ N.of_nat (length l) <= MAX_CBOR_ENTRIES.

Module Relationship.

Record RelationshipRecord := {
  address : bytes;
  nickname : option string;
  introduced_by : option bytes;
  capabilities : list string;
  notes : option string;
  pinned : bool;
  added_at : N
}.

Definition entries (rec : RelationshipRecord) : list MapEntry :=
  [ entry "notes" (or_null text (notes rec));
    entry "pinned" (boolean (pinned rec));
    entry "address" (bytestr (address rec));
    entry "added_at" (uint (added_at rec));
    entry "nickname" (or_null text (nickname rec));
    entry "capabilities" (encode_text_array (capabilities rec));
    entry "introduced_by" (or_null bytestr (introduced_by rec)) ].

(** [encode_single_relationship]; the array encoder inlines the same map. *)
Definition encode (rec : RelationshipRecord) : bytes := encode_map (entries rec).

(** [decode_single_relationship], inlined in [decode_relationship_array]. *)
Definition decode : Reader RelationshipRecord :=
  let e := "Relationship record keys not in canonical order" in
  _ ← expect_map 7 "Relationship record expected 7 keys, got {m}";
  _ ← expect_key "notes" e;
  no ← read_nullable "missing notes" read_text;
  _ ← expect_key "pinned" e;
  pi ← read_bool;
  _ ← expect_key "address" e;
  ad ← read_fixed_bytes "address" 32;
  _ ← expect_key "added_at" e;
  at_ ← read_u64;
  _ ← expect_key "nickname" e;
  ni ← read_nullable "missing nickname" read_text;
  _ ← expect_key "capabilities" e;
  ca ← read_array read_text;
  _ ← expect_key "introduced_by" e;
  ib ← read_nullable "missing introduced_by" (read_fixed_bytes "introduced_by" 32);
  mret {| address := ad; nickname := ni; introduced_by := ib; capabilities := ca; notes := no;
          pinned := pi; added_at := at_ |}.

Definition wf (rec : RelationshipRecord) : Prop :=
  from_option wf_text True (notes rec) /\ blen (address rec) = 32 /\ added_at rec < u64_size /\
  from_option wf_text True (nickname rec) /\
  (Forall wf_text (capabilities rec) /\ N.of_nat (length (capabilities rec)) <= MAX_CBOR_ENTRIES) /\
  from_option (fun b => blen b = 32) True (introduced_by rec).

End Relationship.

Definition encode_relationship_array (items : list Relationship.RelationshipRecord) : bytes :=
  write_array Relationship.encode items.
Definition decode_relationship_array : Reader (list Relationship.RelationshipRecord) :=
  read_array Relationship.decode.

Definition wf_relationship_array (l : list Relationship.RelationshipRecord) : Prop :=
  Forall Relationship.wf l /\ N.of_nat (length l) <= MAX_CBOR_ENTRIES.

Module BundleInner.

Record StateBundleInner := {
  side_seed : bytes;
  profile_wire : option bytes;
  relationships : list Relationship.RelationshipRecord;
  retired_sides : list bytes;
  lifecycle : string;
  co_holders : list bytes;
  bundled_at : N
}.

Definition entries (p : StateBundleInner) : list MapEntry :=
  [ entry "profile" (or_null bytestr (profile_wire p));
    entry "lifecycle" (text (lifecycle p));
    entry "side_seed" (bytestr (side_seed p));
    entry "bundled_at" (uint (bundled_at p));
    entry "co_holders" (encode_bytes_array (co_holders p));
    entry "relationships" (encode_relationship_array (relationships p));
    entry "retired_sides" (encode_bytes_array (retired_sides p)) ].

Definition encode (p : StateBundleInner) : bytes := encode_map (entries p).

Definition fields : Reader StateBundleInner :=
  let e := "StateBundleInner keys not in canonical order" in
  _ ← expect_map 7 "StateBundleInner expected 7 keys, got {n}";
  _ ← expect_key "profile" e;
  pw ← read_nullable "missing profile" read_bytes;
  _ ← expect_key "lifecycle" e;
  lc ← read_text;
  _ ← expect_key "side_seed" e;
  ss ← read_fixed_bytes "side_seed" 32;
  _ ← expect_key "bundled_at" e;
  ba ← read_u64;
  _ ← expect_key "co_holders" e;
  ch ← decode_bytes_array;
  _ ← expect_key "relationships" e;
  rs ← decode_relationship_array;
  _ ← expect_key "retired_sides" e;
  rt ← decode_bytes_array;
  mret {| side_seed := ss; profile_wire := pw; relationships := rs; retired_sides := rt;
          lifecycle := lc; co_holders := ch; bundled_at := ba |}.

Definition decode (bs : bytes) : result StateBundleInner :=
  decode_with (p ← fields; _ ← check_end (Error.CborDecode "trailing bytes after StateBundleInner"); mret p) bs.

Definition wf (p : StateBundleInner) : Prop :=
  from_option wf_bytes True (profile_wire p) /\ wf_text (lifecycle p) /\ blen (side_seed p) = 32 /\
  bundled_at p < u64_size /\ wf_bytes_array (co_holders p) /\
  wf_relationship_array (relationships p) /\ wf_bytes_array (retired_sides p).

End BundleInner.

(** ** State deltas (0x29) *)

Inductive DeltaOp :=
| ProfileUpdated (profile_wire : bytes)
| ProfileCleared
| RelationshipUpserted (record : Relationship.RelationshipRecord)
| RelationshipRemoved (address : bytes)
| RetiredObserved (address : bytes)
| LifecycleChanged (state : string)
| CoHolderAdded (device_pubkey : bytes) (dial_addr : string)
| CoHolderRemoved (device_pubkey : bytes).

Module Delta.

(** [DeltaOp::encode], by its map. *)
Definition op_entries (op : DeltaOp) : list MapEntry :=
  match op with
  | ProfileUpdated w => [ entry "kind" (text "profile_updated"); entry "profile_wire" (bytestr w) ]
  | ProfileCleared => [ entry "kind" (text "profile_cleared") ]
  | RelationshipUpserted rec =>
    [ entry "kind" (text "relationship_upserted"); entry "record" (Relationship.encode rec) ]
  | RelationshipRemoved a => [ entry "kind" (text "relationship_removed"); entry "address" (bytestr a) ]
  | RetiredObserved a => [ entry "kind" (text "retired_observed"); entry "address" (bytestr a) ]
  | LifecycleChanged st => [ entry "kind" (text "lifecycle_changed"); entry "state" (text st) ]
  | CoHolderAdded d a =>
    [ entry "kind" (text "cohol_added"); entry "dial_addr" (text a); entry "device_pubkey" (bytestr d) ]
  | CoHolderRemoved d => [ entry "kind" (text "cohol_removed"); entry "device_pubkey" (bytestr d) ]
  end.

Definition op_encode (op : DeltaOp) : bytes := encode_map (op_entries op).

(** [expect_key(r, want)]. *)
Definition op_key (want : string) : Reader unit :=
  expect_key want "DeltaOp: keys not in canonical order".

(** The arms of [DeltaOp::decode], after the kind was read. *)
Definition op_body (kind : string) (n : N) : Reader DeltaOp :=
  if String.eqb kind "profile_updated" then
    _ ← guard (n =? 2) (Error.CborDecode "profile_updated expects 2 keys");
    _ ← op_key "profile_wire"; b ← read_bytes; mret (ProfileUpdated b)
  else if String.eqb kind "profile_cleared" then
    _ ← guard (n =? 1) (Error.CborDecode "profile_cleared expects 1 key");
    mret ProfileCleared
  else if String.eqb kind "relationship_upserted" then
    _ ← guard (n =? 2) (Error.CborDecode "relationship_upserted expects 2 keys");
    _ ← op_key "record"; rec ← Relationship.decode; mret (RelationshipUpserted rec)
  else if String.eqb kind "relationship_removed" then
    _ ← guard (n =? 2) (Error.CborDecode "relationship_removed expects 2 keys");
    _ ← op_key "address"; a ← read_fixed_bytes "address" 32; mret (RelationshipRemoved a)
  else if String.eqb kind "retired_observed" then
    _ ← guard (n =? 2) (Error.CborDecode "retired_observed expects 2 keys");
    _ ← op_key "address"; a ← read_fixed_bytes "address" 32; mret (RetiredObserved a)
  else if String.eqb kind "lifecycle_changed" then
    _ ← guard (n =? 2) (Error.CborDecode "lifecycle_changed expects 2 keys");
    _ ← op_key "state"; st ← read_text; mret (LifecycleChanged st)
  else if String.eqb kind "cohol_added" then
    _ ← guard (n =? 3) (Error.CborDecode "cohol_added expects 3 keys");
    _ ← op_key "dial_addr"; a ← read_text;
    _ ← op_key "device_pubkey"; d ← read_fixed_bytes "device_pubkey" 32; mret (CoHolderAdded d a)
  else if String.eqb kind "cohol_removed" then
    _ ← guard (n =? 2) (Error.CborDecode "cohol_removed expects 2 keys");
    _ ← op_key "device_pubkey"; d ← read_fixed_bytes "device_pubkey" 32; mret (CoHolderRemoved d)
  else fail (Error.CborDecode "DeltaOp: unknown kind '{other}'").

Definition op_decode : Reader DeltaOp :=
  n ← read_map_header;
  _ ← guard (negb (n =? 0)) (Error.CborDecode "empty DeltaOp map");
  _ ← expect_key "kind" "DeltaOp: first key must be 'kind'";
  kind ← read_text;
  op_body kind n.

Definition op_wf (op : DeltaOp) : Prop :=
  match op with
  | ProfileUpdated w => wf_bytes w
  | ProfileCleared => True
  | RelationshipUpserted rec => Relationship.wf rec
  | RelationshipRemoved a | RetiredObserved a => blen a = 32
  | LifecycleChanged st => wf_text st
  | CoHolderAdded d a => wf_text a /\ blen d = 32
  | CoHolderRemoved d => blen d = 32
  end.

Record StateDeltaPayload := {
  side : bytes;
  ops : list DeltaOp;
  applied_at : N;
  signature : bytes
}.

Definition encode_op_array (ops : list DeltaOp) : bytes := write_array op_encode ops.

Definition unsigned_entries (side : bytes) (ops : list DeltaOp) (applied_at : N) : list MapEntry :=
  [ entry "ops" (encode_op_array ops);
    entry "side" (bytestr side);
    entry "applied_at" (uint applied_at) ].

Definition encode_unsigned (side : bytes) (ops : list DeltaOp) (applied_at : N) : bytes :=
  encode_map (unsigned_entries side ops applied_at).

Definition wire_entries (p : StateDeltaPayload) : list MapEntry :=
  [ entry "ops" (encode_op_array (ops p));
    entry "side" (bytestr (side p));
    entry "signature" (bytestr (signature p));
    entry "applied_at" (uint (applied_at p)) ].

Definition to_wire_bytes (p : StateDeltaPayload) : bytes := encode_map (wire_entries p).

Definition fields : Reader StateDeltaPayload :=
  let e := "StateDelta keys not in canonical order" in
  _ ← expect_map 4 "StateDelta expected 4 keys, got {n}";
  _ ← expect_key "ops" e;
  os ← read_array op_decode;
  _ ← expect_key "side" e;
  s ← read_fixed_bytes "side" 32;
  _ ← expect_key "signature" e;
  sg ← read_fixed_bytes "signature" SIGNATURE_LEN;
  _ ← expect_key "applied_at" e;
  t ← read_u64;
  mret {| side := s; ops := os; applied_at := t; signature := sg |}.

Definition unsigned_bytes (p : StateDeltaPayload) : bytes :=
  encode_unsigned (side p) (ops p) (applied_at p).

Definition wf_ops (ops : list DeltaOp) : Prop :=
  Forall op_wf ops /\ N.of_nat (length ops) <= MAX_CBOR_ENTRIES.

Definition wf (p : StateDeltaPayload) : Prop :=
  wf_ops (ops p) /\ blen (side p) = 32 /\ blen (signature p) = SIGNATURE_LEN /\
  applied_at p < u64_size.

Section Signed.
Context `{Crypto}.

Definition sign (side_key : SideKey) (ops : list DeltaOp) (applied_at : N) : result StateDeltaPayload :=
  let side := public_bytes side_key in
  let unsigned := encode_unsigned side ops applied_at in
  let digest := blake3 unsigned in
  Ok {| side := side; ops := ops; applied_at := applied_at; signature := side_sign side_key digest |}.

Definition from_wire_bytes (bs : bytes) : result StateDeltaPayload :=
  p ← decode_with (p ← fields; _ ← check_end (Error.CborDecode "trailing bytes after StateDelta"); mret p) bs;
  _ ← verify_signed (side p) (unsigned_bytes p) (signature p);
  _ ← ensure (bool_decide (to_wire_bytes p = bs))
        (Error.CborNotCanonical "StateDelta bytes are not canonical re-encode");
  Ok p.

End Signed.

End Delta.

(** ** Codecs *)

#[export] Instance pairing_request_codec :
  Codec PairingRequest.to_wire_bytes PairingRequest.fields PairingRequest.wf.
Proof. unfold PairingRequest.to_wire_bytes, PairingRequest.fields, PairingRequest.wf, PairingRequest.wire_entries. solve_codec. Qed.

#[export] Instance state_bundle_codec :
  Codec StateBundle.to_wire_bytes StateBundle.fields StateBundle.wf.
Proof. unfold StateBundle.to_wire_bytes, StateBundle.fields, StateBundle.wf, StateBundle.wire_entries. solve_codec. Qed.

#[export] Instance device_revoke_codec :
  Codec DeviceRevoke.to_wire_bytes DeviceRevoke.fields DeviceRevoke.wf.
Proof. unfold DeviceRevoke.to_wire_bytes, DeviceRevoke.fields, DeviceRevoke.wf, DeviceRevoke.wire_entries. solve_codec. Qed.

#[export] Instance text_list_codec :
  Codec encode_text_array (read_array read_text)
    (fun l => Forall wf_text l /\ N.of_nat (length l) <= MAX_CBOR_ENTRIES) :=
  codec_array text read_text _.

#[export] Instance bytes_array_codec : Codec encode_bytes_array decode_bytes_array wf_bytes_array :=
  codec_array bytestr (read_fixed_bytes _ 32) _.

#[export] Instance relationship_codec :
  Codec Relationship.encode Relationship.decode Relationship.wf.
Proof. unfold Relationship.encode, Relationship.decode, Relationship.wf, Relationship.entries. solve_codec. Qed.

#[export] Instance relationship_array_codec :
  Codec encode_relationship_array decode_relationship_array wf_relationship_array :=
  codec_array Relationship.encode Relationship.decode _.

#[export] Instance bundle_inner_codec : Codec BundleInner.encode BundleInner.fields BundleInner.wf.
Proof. unfold BundleInner.encode, BundleInner.fields, BundleInner.wf, BundleInner.entries. solve_codec. Qed.

Lemma guard_run {A} (b : bool) e (k : unit -> Reader A) r :
  b = true -> (u ← guard b e; k u) r = k tt r.
Proof. intros ->. by apply rd_bind_run. Qed.

(** One arm of [op_body]: its steps, forwards and backwards. *)
Ltac op_inv H := rd_inv H; subst; cbn [Delta.op_wf]; split; [wf_solve|cbn [Delta.op_entries]; flatten; join_consumes].
Ltac op_run := rewrite guard_run by reflexivity; unfold Delta.op_key; rd_run.

#[export] Instance delta_op_codec : Codec Delta.op_encode Delta.op_decode Delta.op_wf.
Proof.
  intros r op r' F. unfold Delta.op_decode, Delta.op_encode. split.
  - intros H. rd_inv H. unfold Delta.op_body, Delta.op_key in H.
    repeat match type of H with
    | (if String.eqb ?k ?s then _ else _) _ = _ =>
      destruct (String.eqb_spec k s) as [->|_]; [op_inv H|]
    end. by apply fail_ok in H.
  - intros [Hwf C].
    destruct op; cbn [Delta.op_wf Delta.op_entries] in Hwf, C; flatten_in C; split_consumes C.
    all: eapply (codec_run (dec := read_map_header)); [eassumption|eassumption|done|].
    all: rewrite guard_run by reflexivity.
    all: rd_run.
    all: cbn [Delta.op_body String.eqb Ascii.eqb Bool.eqb].
    all: op_run.
Qed.

#[export] Instance op_array_codec : Codec Delta.encode_op_array (read_array Delta.op_decode) Delta.wf_ops :=
  codec_array Delta.op_encode Delta.op_decode _.

#[export] Instance state_delta_codec : Codec Delta.to_wire_bytes Delta.fields Delta.wf.
Proof. unfold Delta.to_wire_bytes, Delta.fields, Delta.wf, Delta.wire_entries. solve_codec. Qed.

(** ** The encodings are canonical *)

Lemma Canonical_text_list l :
  Forall wf_text l -> N.of_nat (length l) <= MAX_CBOR_ENTRIES -> Canonical (encode_text_array l).
Proof. intros Hl Hn. unfold encode_text_array. canon. Qed.
Lemma Canonical_bytes_array l : wf_bytes_array l -> Canonical (encode_bytes_array l).
Proof. intros [Hl Hn]. unfold encode_bytes_array. canon. Qed.
#[export] Hint Resolve Canonical_text_list Canonical_bytes_array : sv.

Lemma relationship_canonical r : Relationship.wf r -> Canonical (Relationship.encode r).
Proof. unfold Relationship.wf, Relationship.encode, Relationship.entries. intros Hwf. destruct_and?. canon. Qed.
#[export] Hint Resolve relationship_canonical : sv.

Lemma Canonical_relationship_array l :
  wf_relationship_array l -> Canonical (encode_relationship_array l).
Proof. intros [Hl Hn]. unfold encode_relationship_array. canon. Qed.
#[export] Hint Resolve Canonical_relationship_array : sv.

Lemma bundle_inner_canonical p : BundleInner.wf p -> Canonical (BundleInner.encode p).
Proof. unfold BundleInner.wf, BundleInner.encode, BundleInner.entries. intros Hwf. destruct_and?. canon. Qed.

Lemma delta_op_canonical op : Delta.op_wf op -> Canonical (Delta.op_encode op).
Proof. unfold Delta.op_encode. destruct op; cbn [Delta.op_wf Delta.op_entries]; intros Hwf; destruct_and?; canon. Qed.
#[export] Hint Resolve delta_op_canonical : sv.

Lemma Canonical_op_array l : Delta.wf_ops l -> Canonical (Delta.encode_op_array l).
Proof. intros [Hl Hn]. unfold Delta.encode_op_array. canon. Qed.
#[export] Hint Resolve Canonical_op_array : sv.

Lemma pairing_request_canonical p : PairingRequest.wf p -> Canonical (PairingRequest.to_wire_bytes p).
Proof. unfold PairingRequest.wf, PairingRequest.to_wire_bytes, PairingRequest.wire_entries. intros Hwf. destruct_and?. canon. Qed.
Lemma state_bundle_canonical p : StateBundle.wf p -> Canonical (StateBundle.to_wire_bytes p).
Proof. unfold StateBundle.wf, StateBundle.to_wire_bytes, StateBundle.wire_entries. intros Hwf. destruct_and?. canon. Qed.
Lemma device_revoke_canonical p : DeviceRevoke.wf p -> Canonical (DeviceRevoke.to_wire_bytes p).
Proof. unfold DeviceRevoke.wf, DeviceRevoke.to_wire_bytes, DeviceRevoke.wire_entries. intros Hwf. destruct_and?. canon. Qed.
Lemma state_delta_canonical p : Delta.wf p -> Canonical (Delta.to_wire_bytes p).
Proof. unfold Delta.wf, Delta.to_wire_bytes, Delta.wire_entries. intros Hwf. destruct_and?. canon. Qed.

(** ** Records on the wire *)

Section Wire.
Context `{Crypto}.

Lemma pairing_request_wire bs p (F : blen bs < u64_size) :
  PairingRequest.from_wire_bytes bs = Ok p <->
  PairingRequest.wf p /\
  signed_by (PairingRequest.device_pubkey p) (PairingRequest.unsigned_bytes p) (PairingRequest.signature p) /\
  bs = PairingRequest.to_wire_bytes p.
Proof using.
  apply signed_wire_ok. intros x.
  rewrite (decode_exact PairingRequest.to_wire_bytes PairingRequest.fields _ _ bs x F). tauto.
Qed.

Lemma state_bundle_wire bs p (F : blen bs < u64_size) :
  StateBundle.from_wire_bytes bs = Ok p <->
  StateBundle.wf p /\
  signed_by (StateBundle.side p) (StateBundle.unsigned_bytes p) (StateBundle.signature p) /\
  bs = StateBundle.to_wire_bytes p.
Proof using.
  apply signed_wire_ok. intros x.
  rewrite (decode_exact StateBundle.to_wire_bytes StateBundle.fields _ _ bs x F). tauto.
Qed.

Lemma device_revoke_wire bs p (F : blen bs < u64_size) :
  DeviceRevoke.from_wire_bytes bs = Ok p <->
  DeviceRevoke.wf p /\
  signed_by (DeviceRevoke.side p) (DeviceRevoke.unsigned_bytes p) (DeviceRevoke.signature p) /\
  bs = DeviceRevoke.to_wire_bytes p.
Proof using.
  apply signed_wire_ok. intros x.
  rewrite (decode_exact DeviceRevoke.to_wire_bytes DeviceRevoke.fields _ _ bs x F). tauto.
Qed.

Lemma state_delta_wire bs p (F : blen bs < u64_size) :
  Delta.from_wire_bytes bs = Ok p <->
  Delta.wf p /\ signed_by (Delta.side p) (Delta.unsigned_bytes p) (Delta.signature p) /\
  bs = Delta.to_wire_bytes p.
Proof using.
  apply signed_wire_ok. intros x.
  rewrite (decode_exact Delta.to_wire_bytes Delta.fields _ _ bs x F). tauto.
Qed.

Lemma bundle_inner_wire bs p (F : blen bs < u64_size) :
  BundleInner.decode bs = Ok p <-> BundleInner.wf p /\ bs = BundleInner.encode p.
Proof using. exact (decode_exact BundleInner.encode BundleInner.fields BundleInner.wf _ bs p F). Qed.

End Wire.

(** ** Properties *)

(** The signed device records are accepted exactly when they are the
    canonical encoding of a well-formed record with a valid signature: of the
    new device for a pairing request, of the side for the other three; the
    plaintext of a state bundle exactly when it is canonical and well formed. *)
Theorem device_records_exact `{Crypto} bs (F : blen bs < u64_size) :
  (forall p, PairingRequest.from_wire_bytes bs = Ok p <->
     PairingRequest.wf p /\
     signed_by (PairingRequest.device_pubkey p) (PairingRequest.unsigned_bytes p) (PairingRequest.signature p) /\
     bs = PairingRequest.to_wire_bytes p) /\
  (forall p, StateBundle.from_wire_bytes bs = Ok p <->
     StateBundle.wf p /\
     signed_by (StateBundle.side p) (StateBundle.unsigned_bytes p) (StateBundle.signature p) /\
     bs = StateBundle.to_wire_bytes p) /\
  (forall p, DeviceRevoke.from_wire_bytes bs = Ok p <->
     DeviceRevoke.wf p /\
     signed_by (DeviceRevoke.side p) (DeviceRevoke.unsigned_bytes p) (DeviceRevoke.signature p) /\
     bs = DeviceRevoke.to_wire_bytes p) /\
  (forall p, Delta.from_wire_bytes bs = Ok p <->
     Delta.wf p /\ signed_by (Delta.side p) (Delta.unsigned_bytes p) (Delta.signature p) /\
     bs = Delta.to_wire_bytes p) /\
  (forall p, BundleInner.decode bs = Ok p <-> BundleInner.wf p /\ bs = BundleInner.encode p).
Proof.
  split_and!; intros p;
    [by apply pairing_request_wire|by apply state_bundle_wire|by apply device_revoke_wire
    |by apply state_delta_wire|by apply bundle_inner_wire].
Qed.

(** ** Concrete instances *)

Module DeviceExamples.
Import Toy.

Definition n16 : bytes := replicate 16 Byte.x33.
Definition rec : Relationship.RelationshipRecord :=
  {| Relationship.address := replicate 32 Byte.x99; Relationship.nickname := Some "alice";
     Relationship.introduced_by := None; Relationship.capabilities := ["direct-message"];
     Relationship.notes := None; Relationship.pinned := true; Relationship.added_at := 7 |}.
Definition all_ops : list DeltaOp :=
  [ ProfileUpdated [Byte.x01]; ProfileCleared; RelationshipUpserted rec;
    RelationshipRemoved (replicate 32 Byte.x02); RetiredObserved (replicate 32 Byte.x03);
    LifecycleChanged "Active"; CoHolderAdded (replicate 32 Byte.x04) "127.0.0.1:1";
    CoHolderRemoved (replicate 32 Byte.x05) ].
Definition delta : Delta.StateDeltaPayload :=
  {| Delta.side := public_bytes side; Delta.ops := all_ops; Delta.applied_at := 9;
     Delta.signature := side_sign side (blake3 (Delta.encode_unsigned (public_bytes side) all_ops 9)) |}.

Lemma device_records_exact_witness :
  Delta.wf delta /\ signed_by (Delta.side delta) (Delta.unsigned_bytes delta) (Delta.signature delta) /\ Delta.to_wire_bytes delta = Delta.to_wire_bytes delta.
Proof.
  apply (proj1 (proj1 (proj2 (proj2 (proj2 (device_records_exact (Delta.to_wire_bytes delta) eq_refl)))) delta)).
  vm_compute. reflexivity.
Defined.

End DeviceExamples.
