(* ===== verification/Qr.v ===== *)
(** The URI forms a device shows as QR codes
    ([sidevers-core/src/messages/device.rs]): the base32 text encoding and the
    contact card, group invite and pairing codes built on it.

    A Rust string is walked by [chars] in the source and by bytes here: the
    alphabet is ASCII and no byte of a longer UTF-8 sequence is in it, so both
    stop at the same place with the same answer. *)

From S2P Require Import Prelude Utf8 Cbor CborCodec Device.

Open Scope N_scope.

(** ** Base32 *)

Definition BASE32_ALPHABET : bytes := as_bytes "abcdefghijklmnopqrstuvwxyz234567".

(** [BASE32_ALPHABET[idx]]; every index of the program is below 32. *)
Definition alphabet_at (idx : N) : byte := nth (N.to_nat idx) BASE32_ALPHABET Byte.x00.

(** [x << n] on [u32]: bits above the width are lost. *)
Definition shl_u32 (x n : N) : N := N.modulo (N.shiftl x n) (2 ^ 32).

(** [while bits >= 5 { bits -= 5; out.push(..) }]; [bits] is at most 12, so
    the loop body runs at most twice. *)
Fixpoint emit_symbols (fuel : nat) (buffer bits : N) (out : bytes) : N * bytes :=
  match fuel with
  | O => (bits, out)
  | S fuel' =>
    if 5 <=? bits then
      let bits' := bits - 5 in
      emit_symbols fuel' buffer bits' (out ++ [alphabet_at (N.land (N.shiftr buffer bits') 0x1F)])
    else (bits, out)
  end.

(** One iteration of the outer loop of [base32_encode]. *)
Definition encode_byte (st : N * N * bytes) (b : byte) : N * N * bytes :=
  let '(buffer, bits, out) := st in
  let buffer := N.lor (shl_u32 buffer 8) (Byte.to_N b) in
  let bits := bits + 8 in
  let '(bits, out) := emit_symbols 2 buffer bits out in
  (buffer, bits, out).

Definition base32_encode (input : bytes) : string :=
  let '(buffer, bits, out) := fold_left encode_byte input (0, 0, []) in
  of_bytes (if 0 <? bits
            then out ++ [alphabet_at (N.land (shl_u32 buffer (5 - bits)) 0x1F)]
            else out).

(** [BASE32_ALPHABET.iter().position(..)]. *)
Definition alphabet_index (c : byte) : option N :=
  '(i, _) ← list_find (fun x => x = c) BASE32_ALPHABET; Some (N.of_nat i).

(** One iteration of the loop of [base32_decode]. *)
Definition decode_symbol (st : N * N * bytes) (c : byte) : option (N * N * bytes) :=
  let '(buffer, bits, out) := st in
  idx ← alphabet_index c;
  let buffer := N.lor (shl_u32 buffer 5) idx in
  let bits := bits + 5 in
  Some (if 8 <=? bits then
          let bits := bits - 8 in
          (N.land buffer (N.shiftl 1 bits - 1), bits, out ++ [as_u8 (N.shiftr buffer bits)])
        else (buffer, bits, out)).

Definition base32_decode (input : string) : option bytes :=
  '(_, _, out) ← foldl (fun o c => st ← o; decode_symbol st c) (Some (0, 0, [])) (as_bytes input);
  Some out.

(** ** Length-prefixed strings and prefixes *)

(** [(s.len() as u16).to_be_bytes()]. *)
Definition be16 (n : N) : bytes := to_be_bytes 2 (N.modulo n 65536).

(** [s.strip_prefix(p)]. *)
Definition strip_prefix (p s : string) : option string :=
  let n := length (as_bytes p) in
  if decide (take n (as_bytes s) = as_bytes p) then Some (of_bytes (drop n (as_bytes s))) else None.

(** [u16::from_be_bytes([bytes[pos], bytes[pos + 1]]) as usize]. *)
Definition u16_at (bs : bytes) (pos : nat) : N := from_be_bytes (take 2 (drop pos bs)).

Definition read_lp_string (bs : bytes) (pos : nat) (max_len : N) : result (string * nat) :=
  if (length bs <? pos + 2)%nat then Err (Error.CborDecode "{field}: missing length") else
  let len := u16_at bs pos in
  let start := (pos + 2)%nat in
  let stop := (start + N.to_nat len)%nat in
  if (length bs <? stop)%nat then Err (Error.CborDecode "{field}: truncated body") else
  if max_len <? len then Err (Error.CborDecode "{field}: oversized") else
  s ← ok_or (from_utf8 (take (N.to_nat len) (drop start bs))) (Error.CborDecode "{field}: not utf-8");
  Ok (s, stop).

(** [if s.is_empty() { None } else { Some(s) }] and [o.as_deref().unwrap_or("'")]. *)
Definition non_empty (s : string) : option string := if String.eqb s "" then None else Some s.
Definition or_empty (o : option string) : string := default "" o.

(** The step the three parsers start with. *)
Definition qr_payload (scheme : string) (s : string) (e1 e2 e3 : string) : result bytes :=
  rest ← ok_or (strip_prefix scheme s) (Error.CborDecode e1);
  bs ← ok_or (base32_decode rest) (Error.CborDecode e2);
  _ ← ensure (match bs with b :: _ => bool_decide (b = Byte.x01) | [] => false end) (Error.CborDecode e3);
  Ok bs.

(** [fmt] is a scheme prefix followed by the base32 form. *)
Definition qr_uri (scheme : string) (payload : bytes) : string :=
  of_bytes (as_bytes scheme ++ as_bytes (base32_encode payload)).

(** ** Contact cards *)

Module ContactCard.

Record t := {
  side : bytes;
  dial_addr : string;
  display_name : option string;
  side_label : option string
}.

Definition SCHEME : string := "sidevers-contact:1:".
Definition DISPLAY_NAME_MAX : N := 512.
Definition SIDE_LABEL_MAX : N := 64.
Definition DIAL_ADDR_MAX : N := 256.

Definition payload (c : t) : bytes :=
  let dn := as_bytes (or_empty (display_name c)) in
  let sl := as_bytes (or_empty (side_label c)) in
  let da := as_bytes (dial_addr c) in
  [Byte.x01] ++ side c ++ be16 (blen dn) ++ dn ++ be16 (blen sl) ++ sl ++ be16 (blen da) ++ da.

Definition encode (c : t) : string := qr_uri SCHEME (payload c).

(** [parse] on the decoded payload. *)
Definition parse_payload (bs : bytes) : result t :=
  _ ← ensure (negb (length bs <? 1 + 32 + 6)%nat) (Error.CborDecode "contact QR: truncated");
  let side := take 32 (drop 1 bs) in
  '(display_name, pos) ← read_lp_string bs 33 DISPLAY_NAME_MAX;
  '(side_label, pos) ← read_lp_string bs pos SIDE_LABEL_MAX;
  '(dial_addr, new_pos) ← read_lp_string bs pos DIAL_ADDR_MAX;
  _ ← ensure (negb (String.eqb dial_addr "")) (Error.CborDecode "contact QR: empty dial_addr");
  _ ← ensure (new_pos =? length bs)%nat (Error.CborDecode "contact QR: trailing bytes");
  Ok {| side := side; dial_addr := dial_addr; display_name := non_empty display_name;
        side_label := non_empty side_label |}.

Definition parse (s : string) : result t :=
  bs ← qr_payload SCHEME s "contact QR: missing scheme prefix" "contact QR: bad base32"
         "contact QR: bad version";
  parse_payload bs.

End ContactCard.

(** ** Group invites *)

Module GroupInvite.

Record t := {
  verse : bytes;
  contract_hash : bytes;
  dial_addr : string;
  name : option string;
  photo_hash : option bytes
}.

Definition SCHEME : string := "sidevers-group:1:".
Definition NAME_MAX : N := 256.
Definition DIAL_ADDR_MAX : N := 256.

Definition payload (g : t) : bytes :=
  let nm := as_bytes (or_empty (name g)) in
  let da := as_bytes (dial_addr g) in
  [Byte.x01] ++ verse g ++ contract_hash g ++ be16 (blen da) ++ da ++ be16 (blen nm) ++ nm ++
  match photo_hash g with Some h => Byte.x01 :: h | None => [Byte.x00] end.

Definition encode (g : t) : string := qr_uri SCHEME (payload g).

(** The photo flag and hash at [pos], and the position after them. *)
Definition parse_photo (bs : bytes) (pos : nat) : result (option bytes * nat) :=
  match drop pos bs with
  | [] => Err (Error.CborDecode "group QR: missing photo flag")
  | photo_flag :: _ =>
    let pos := (pos + 1)%nat in
    if decide (photo_flag = Byte.x00) then Ok (None, pos)
    else if decide (photo_flag = Byte.x01) then
      _ ← ensure (negb (length bs <? pos + 32)%nat) (Error.CborDecode "group QR: photo_hash truncated");
      Ok (Some (take 32 (drop pos bs)), (pos + 32)%nat)
    else Err (Error.CborDecode "group QR: bad photo flag")
  end.

Definition parse_payload (bs : bytes) : result t :=
  _ ← ensure (negb (length bs <? 1 + 32 + 32 + 2 + 2 + 1)%nat) (Error.CborDecode "group QR: truncated");
  let verse := take 32 (drop 1 bs) in
  let contract_hash := take 32 (drop 33 bs) in
  '(dial_addr, pos) ← read_lp_string bs 65 DIAL_ADDR_MAX;
  _ ← ensure (negb (String.eqb dial_addr "")) (Error.CborDecode "group QR: empty dial_addr");
  '(name, pos) ← read_lp_string bs pos NAME_MAX;
  '(photo_hash, pos) ← parse_photo bs pos;
  _ ← ensure (pos =? length bs)%nat (Error.CborDecode "group QR: trailing bytes");
  Ok {| verse := verse; contract_hash := contract_hash; dial_addr := dial_addr;
        name := non_empty name; photo_hash := photo_hash |}.

Definition parse (s : string) : result t :=
  bs ← qr_payload SCHEME s "group QR: missing scheme prefix" "group QR: bad base32"
         "group QR: bad version";
  parse_payload bs.

End GroupInvite.

(** ** Pairing codes *)

Module PairingQr.

Record t := { side : bytes; nonce : bytes; dial_addr : string }.

Definition SCHEME : string := "sidevers-pair:1:".

Definition payload (q : t) : bytes :=
  let addr := as_bytes (dial_addr q) in
  [Byte.x01] ++ side q ++ nonce q ++ be16 (blen addr) ++ addr.

Definition encode (q : t) : string := qr_uri SCHEME (payload q).

Definition parse_payload (bs : bytes) : result t :=
  _ ← ensure (negb (length bs <? 1 + 32 + 16 + 2)%nat) (Error.CborDecode "pairing QR: truncated");
  let side := take 32 (drop 1 bs) in
  let nonce := take 16 (drop 33 bs) in
  let addr_len := u16_at bs 49 in
  let addr_start := 51%nat in
  _ ← ensure (length bs =? addr_start + N.to_nat addr_len)%nat
        (Error.CborDecode "pairing QR: addr length mismatch");
  dial_addr ← ok_or (from_utf8 (drop addr_start bs)) (Error.CborDecode "pairing QR: addr not utf-8");
  Ok {| side := side; nonce := nonce; dial_addr := dial_addr |}.

Definition parse (s : string) : result t :=
  bs ← qr_payload SCHEME s "pairing QR: missing scheme prefix" "pairing QR: bad base32"
         "pairing QR: bad version";
  parse_payload bs.

End PairingQr.

(** ** Bits *)

(** The low [n] bits of [x], most significant first. *)
Fixpoint low (n : nat) (x : N) : list bool :=
  match n with
  | O => []
  | S n' => N.testbit x (N.of_nat n') :: low n' x
  end.

(** RFC 4648, section 6, as a specification: the bits of the input, padded
    with zeros to a multiple of five, in groups of five, each the index of a
    symbol.  Decoding reads the bits back and drops what is left of the last
    byte. *)
Definition bits_of (bs : bytes) : list bool := concat (map (fun b => low 8 (Byte.to_N b)) bs).
Definition from_bits (l : list bool) : N := fold_left (fun a (b : bool) => 2 * a + N.b2n b) l 0.

Fixpoint groups (n fuel : nat) (l : list bool) : list (list bool) :=
  match fuel with
  | O => []
  | S fuel' => if (n <=? length l)%nat then take n l :: groups n fuel' (drop n l) else []
  end.

Definition pad5 (l : list bool) : list bool :=
  l ++ replicate ((5 - length l mod 5) mod 5) false.

Definition rfc4648_encode (bs : bytes) : string :=
  of_bytes (map (fun g => alphabet_at (from_bits g))
    (groups 5 (length (pad5 (bits_of bs))) (pad5 (bits_of bs)))).

Definition rfc4648_decode (s : string) : option bytes :=
  idxs ← mapM alphabet_index (as_bytes s);
  let l := concat (map (low 5) idxs) in
  Some (map (fun g => as_u8 (from_bits g)) (groups 8 (length l) l)).

Lemma low_length n x : length (low n x) = n.
Proof. induction n; cbn; auto. Qed.

Lemma low_app a b x : low (a + b) x = low a (N.shiftr x (N.of_nat b)) ++ low b x.
Proof.
  induction a as [|a IH]; [done|]. cbn [low Nat.add app]. f_equal; [|exact IH].
  rewrite N.shiftr_spec by lia. f_equal. lia.
Qed.

Lemma low_ext n x y :
  (forall i, i < N.of_nat n -> N.testbit x i = N.testbit y i) -> low n x = low n y.
Proof.
  induction n as [|n IH]; intros H; [done|]. cbn [low]. f_equal; [apply H; lia|].
  apply IH. intros i Hi. apply H. lia.
Qed.

Lemma testbit_small x n i : x < 2 ^ n -> n <= i -> N.testbit x i = false.
Proof.
  intros Hx Hi. destruct (decide (x = 0)) as [->|]; [apply N.bits_0|].
  apply N.bits_above_log2. assert (N.log2 x < n) by (apply N.log2_lt_pow2; [lia|done]). lia.
Qed.

Lemma low_inj n x y : x < 2 ^ N.of_nat n -> y < 2 ^ N.of_nat n -> low n x = low n y -> x = y.
Proof.
  intros Hx Hy E. apply N.bits_inj. intros i.
  destruct (N.lt_ge_cases i (N.of_nat n)) as [Hi|Hi].
  - clear Hx Hy. induction n as [|n IH]; [lia|]. cbn [low] in E. injection E as E1 E2.
    destruct (decide (i = N.of_nat n)) as [->|]; [done|]. apply IH; [done|lia].
  - by rewrite (testbit_small x (N.of_nat n)), (testbit_small y (N.of_nat n)).
Qed.

(** Shifting [n] bits in at the low end, in a register that is wide enough. *)
Lemma low_shift_in k n x y :
  N.of_nat (k + n) <= 32 -> y < 2 ^ N.of_nat n ->
  low (k + n) (N.lor (shl_u32 x (N.of_nat n)) y) = low k x ++ low n y.
Proof.
  intros Hk Hy. rewrite low_app. f_equal; apply low_ext; intros i Hi; unfold shl_u32.
  - rewrite N.shiftr_spec, N.lor_spec, N.mod_pow2_bits_low, N.shiftl_spec_high by lia.
    rewrite (testbit_small y (N.of_nat n)) by (done || lia). rewrite orb_false_r. f_equal. lia.
  - rewrite N.lor_spec, N.mod_pow2_bits_low, N.shiftl_spec_low by lia. done.
Qed.

Lemma low_land_ones n x : low n (N.land x (N.ones (N.of_nat n))) = low n x.
Proof. apply low_ext. intros i Hi. by rewrite N.land_spec, N.ones_spec_low, andb_true_r. Qed.

Lemma low_zeros n : low n 0 = replicate n false.
Proof. induction n as [|n IH]; [done|]. cbn [low replicate]. by rewrite IH, N.bits_0. Qed.

(** The low [n] bits determine the value modulo [2 ^ n]. *)
Lemma from_bits_low n x : from_bits (low n x) = N.modulo x (2 ^ N.of_nat n).
Proof.
  enough (forall a, fold_left (fun a (b : bool) => 2 * a + N.b2n b) (low n x) a
    = a * 2 ^ N.of_nat n + N.modulo x (2 ^ N.of_nat n)) as H by (unfold from_bits; rewrite H; lia).
  induction n as [|n IH]; intros a; cbn [low fold_left].
  - change (2 ^ N.of_nat 0) with 1. rewrite N.mod_1_r. lia.
  - rewrite IH, Nat2N.inj_succ, N.pow_succ_r', (N.mul_comm 2 (2 ^ _)), N.Div0.mod_mul_r, <-N.testbit_spec'.
    generalize (2 ^ N.of_nat n). intros p. destruct (N.testbit x (N.of_nat n)); cbn [N.b2n]; lia.
Qed.

(** ** The encoder *)

Definition symbol_bits (idxs : list N) : list bool := concat (map (low 5) idxs).

Lemma symbol_bits_app a b : symbol_bits (a ++ b) = symbol_bits a ++ symbol_bits b.
Proof. unfold symbol_bits. by rewrite map_app, concat_app. Qed.
Lemma bits_of_app a b : bits_of (a ++ b) = bits_of a ++ bits_of b.
Proof. unfold bits_of. by rewrite map_app, concat_app. Qed.
Lemma bits_of_length bs : length (bits_of bs) = (8 * length bs)%nat.
Proof. induction bs as [|b bs IH]; [done|]. unfold bits_of in *. cbn [map concat length]. rewrite length_app, low_length, IH. lia. Qed.
Lemma symbol_bits_length l : length (symbol_bits l) = (5 * length l)%nat.
Proof. induction l as [|b l IH]; [done|]. unfold symbol_bits in *. cbn [map concat length]. rewrite length_app, low_length, IH. lia. Qed.

(** The symbols written so far and the pending bits of the buffer. *)
Definition enc_inv (consumed : list bool) (st : N * N * bytes) : Prop :=
  let '(buffer, bits, out) := st in
  exists idxs k, out = map alphabet_at idxs /\ Forall (fun i => i < 32) idxs /\
    bits = N.of_nat k /\ (k < 5)%nat /\ consumed = symbol_bits idxs ++ low k buffer.

Lemma land_31 x : N.land x 0x1F < 32 /\ low 5 (N.land x 0x1F) = low 5 x.
Proof.
  split; [|exact (low_land_ones 5 x)].
  change 0x1F with (N.ones 5). rewrite N.land_ones. by apply N.mod_lt.
Qed.

Lemma emit_symbols_ok buffer consumed fuel : forall idxs k,
  Forall (fun i => i < 32) idxs -> (k < 5 + 5 * fuel)%nat ->
  consumed = symbol_bits idxs ++ low k buffer ->
  let '(bits, out) := emit_symbols fuel buffer (N.of_nat k) (map alphabet_at idxs) in
  enc_inv consumed (buffer, bits, out).
Proof.
  induction fuel as [|fuel IH]; intros idxs k Hidx Hk E; cbn [emit_symbols].
  - exists idxs, k. split_and!; [done..|lia|done].
  - case_bool; to_prop.
    + destruct (land_31 (N.shiftr buffer (N.of_nat k - 5))) as [Hlt Hlow].
      replace (N.of_nat k - 5) with (N.of_nat (k - 5)) in * by lia.
      set (x := N.land _ _) in *. change ([alphabet_at x]) with (map alphabet_at [x]).
      rewrite <-map_app. apply IH; [|lia|].
      * apply Forall_app. auto.
      * rewrite E, symbol_bits_app, <-app_assoc. f_equal. unfold symbol_bits at 1. cbn [map concat].
        rewrite Hlow, app_nil_r. replace k with (5 + (k - 5))%nat at 1 by lia. apply low_app.
    + exists idxs, k. split_and!; [done..|lia|done].
Qed.

Lemma encode_byte_ok consumed st b :
  enc_inv consumed st -> enc_inv (consumed ++ low 8 (Byte.to_N b)) (encode_byte st b).
Proof.
  destruct st as [[buffer bits] out]. intros (idxs & k & -> & Hidx & -> & Hk & ->).
  unfold encode_byte. replace (N.of_nat k + 8) with (N.of_nat (k + 8)) by lia.
  pose proof (emit_symbols_ok (N.lor (shl_u32 buffer 8) (Byte.to_N b))
    ((symbol_bits idxs ++ low k buffer) ++ low 8 (Byte.to_N b)) 2 idxs (k + 8) Hidx ltac:(lia)) as H.
  destruct (emit_symbols 2 _ _ _) as [bits out]. apply H.
  rewrite <-app_assoc. f_equal. symmetry. apply (low_shift_in k 8); [lia|].
  change (2 ^ N.of_nat 8) with 256. apply to_N_lt.
Qed.

Lemma encode_bytes_ok bs : forall consumed st,
  enc_inv consumed st -> enc_inv (consumed ++ bits_of bs) (fold_left encode_byte bs st).
Proof.
  induction bs as [|b bs IH]; intros consumed st H; cbn [fold_left].
  - by rewrite app_nil_r.
  - unfold bits_of. cbn [map concat]. rewrite app_assoc. by apply IH, encode_byte_ok.
Qed.

(** The encoder writes symbols for the bits of the input, and fewer than five
    zero bits at the end. *)
Lemma base32_encode_bits bs :
  exists idxs k, base32_encode bs = of_bytes (map alphabet_at idxs) /\
    Forall (fun i => i < 32) idxs /\ (k < 5)%nat /\
    symbol_bits idxs = bits_of bs ++ replicate k false.
Proof.
  unfold base32_encode.
  pose proof (encode_bytes_ok bs [] (0, 0, [])) as H. destruct (fold_left _ _ _) as [[buffer bits] out].
  destruct H as (idxs & k & -> & Hidx & -> & Hk & E). { exists [], 0%nat. split_and!; [done..|lia|done]. }
  cbn [app] in E. case_bool; to_prop.
  - destruct (land_31 (shl_u32 buffer (5 - N.of_nat k))) as [Hlt Hlow].
    exists (idxs ++ [N.land (shl_u32 buffer (5 - N.of_nat k)) 0x1F]), (5 - k)%nat.
    rewrite map_app. split_and!; [done|by apply Forall_app; auto|lia|].
    rewrite symbol_bits_app, E, <-app_assoc. f_equal. unfold symbol_bits. cbn [map concat].
    rewrite app_nil_r, Hlow. replace (5 - N.of_nat k) with (N.of_nat (5 - k)) by lia.
    rewrite <-low_zeros, <-(N.lor_0_r (shl_u32 _ _)).
    replace 5%nat with (k + (5 - k))%nat at 1 by lia. apply low_shift_in; [lia|].
    pose proof (N.pow_nonzero 2 (N.of_nat (5 - k))). lia.
  - assert (k = 0)%nat as -> by lia. exists idxs, 0%nat. rewrite E. cbn [low replicate].
    rewrite !app_nil_r. split_and!; [done..|lia|done].
Qed.

(** ** The decoder *)

Lemma alphabet_index_at i : i < 32 -> alphabet_index (alphabet_at i) = Some i.
Proof.
  intros Hi. assert (Forall (fun n => alphabet_index (alphabet_at (N.of_nat n)) = Some (N.of_nat n)) (seq 0 32)) as H
    by (repeat (constructor; [reflexivity|]); constructor).
  rewrite Forall_forall in H. specialize (H (N.to_nat i)). rewrite N2Nat.id in H.
  apply H. apply elem_of_seq. lia.
Qed.

Lemma alphabet_index_Some c i : alphabet_index c = Some i -> i < 32 /\ alphabet_at i = c.
Proof.
  unfold alphabet_index, alphabet_at. destruct (list_find _ _) as [[n x]|] eqn:E; [|done].
  intros [= <-]. apply list_find_Some in E as (E & <- & _). rewrite Nat2N.id.
  pose proof (lookup_lt_Some _ _ _ E) as Hn. change (length BASE32_ALPHABET) with 32%nat in Hn.
  split; [lia|]. by apply nth_lookup_Some.
Qed.

(** The bytes written so far and the pending bits of the buffer. *)
Definition dec_inv (consumed : list bool) (st : N * N * bytes) : Prop :=
  let '(buffer, bits, out) := st in
  exists k, bits = N.of_nat k /\ (k < 8)%nat /\ consumed = bits_of out ++ low k buffer.

Lemma bits_of_as_u8 x : bits_of [as_u8 x] = low 8 x.
Proof.
  unfold bits_of. cbn [map concat]. rewrite app_nil_r, to_N_as_u8.
  apply low_ext. intros i Hi. change 256 with (2 ^ 8). by rewrite N.mod_pow2_bits_low.
Qed.

Lemma decode_symbol_ok consumed st c i :
  dec_inv consumed st -> alphabet_index c = Some i ->
  exists st', decode_symbol st c = Some st' /\ dec_inv (consumed ++ low 5 i) st'.
Proof.
  destruct st as [[buffer bits] out]. intros (k & -> & Hk & ->) Hi.
  unfold decode_symbol. rewrite Hi. cbn [mbind option_bind]. eexists. split; [reflexivity|].
  apply alphabet_index_Some in Hi as [Hi _].
  assert (low (k + 5) (N.lor (shl_u32 buffer 5) i) = low k buffer ++ low 5 i) as E
    by by apply (low_shift_in k 5); [lia|].
  rewrite <-app_assoc, <-E. clear E. set (b := N.lor _ _).
  case_bool; to_prop.
  - exists (k - 3)%nat. split_and!; [lia|lia|].
    replace (N.of_nat k + 5 - 8) with (N.of_nat (k - 3)) by lia.
    rewrite bits_of_app, bits_of_as_u8, <-app_assoc. f_equal.
    rewrite N.sub_1_r. change (N.pred (N.shiftl 1 ?n)) with (N.ones n).
    rewrite low_land_ones, <-low_app. f_equal. lia.
  - exists (k + 5)%nat. split_and!; [lia..|done].
Qed.

Abbreviation decode_fold := (foldl (fun o c => st ← o; decode_symbol st c)).

Lemma decode_fold_None cs : decode_fold None cs = None.
Proof. by induction cs. Qed.

Lemma decode_fold_ok cs : forall consumed st,
  dec_inv consumed st ->
  match mapM alphabet_index cs with
  | Some idxs => exists st', decode_fold (Some st) cs = Some st' /\ dec_inv (consumed ++ symbol_bits idxs) st'
  | None => decode_fold (Some st) cs = None
  end.
Proof.
  induction cs as [|c cs IH]; intros consumed st H; cbn [mapM foldl].
  - exists st. cbn. by rewrite app_nil_r.
  - destruct (alphabet_index c) as [i|] eqn:Ei; cbn [mbind option_bind].
    + destruct (decode_symbol_ok _ _ _ _ H Ei) as (st' & -> & H').
      specialize (IH _ _ H').
      destruct (mapM alphabet_index cs) as [idxs|]; cbn [mbind option_bind mret option_ret]; [|done].
      destruct IH as (st'' & Hst & Hinv). exists st''. split; [done|].
      unfold symbol_bits. cbn [map concat]. by rewrite app_assoc.
    + destruct st as [[? ?] ?]. unfold decode_symbol at 2. rewrite Ei. cbn. apply decode_fold_None.
Qed.

(** Decoding succeeds exactly on symbols, and returns the whole bytes. *)
Lemma base32_decode_bits s :
  match mapM alphabet_index (as_bytes s) with
  | Some idxs => exists out rest, base32_decode s = Some out /\
      (length rest < 8)%nat /\ symbol_bits idxs = bits_of out ++ rest
  | None => base32_decode s = None
  end.
Proof.
  pose proof (decode_fold_ok (as_bytes s) [] (0, 0, [])) as H. unfold base32_decode.
  destruct (mapM alphabet_index (as_bytes s)) as [idxs|].
  - destruct H as ([[buffer bits] out] & -> & (k & -> & Hk & E)).
    { exists 0%nat. split_and!; [done|lia|done]. }
    exists out, (low k buffer). rewrite low_length. done.
  - rewrite H; [done|]. exists 0%nat. split_and!; [done|lia|done].
Qed.

(** ** Groups *)

Lemma groups_unique n fuel : forall gs rest,
  (0 < n)%nat -> Forall (fun g => length g = n) gs -> (length rest < n)%nat ->
  (length (concat gs ++ rest) <= fuel)%nat -> groups n fuel (concat gs ++ rest) = gs.
Proof.
  induction fuel as [|fuel IH]; intros gs rest Hn Hgs Hr Hf; cbn [groups].
  - destruct Hgs as [|g gs Hg _]; [done|]. cbn [concat] in Hf. rewrite !length_app in Hf. lia.
  - destruct Hgs as [|g gs Hg Hgs]; cbn [concat app] in *.
    + rewrite (proj2 (Nat.leb_gt _ _)) by lia. done.
    + rewrite <-!app_assoc in *. rewrite !length_app in Hf. rewrite (proj2 (Nat.leb_le _ _)).
      2: { rewrite !length_app. lia. }
      rewrite take_app_length', drop_app_length' by done. f_equal.
      apply IH; [done..|]. rewrite length_app. lia.
Qed.

Lemma bits_of_prefix a b r r' :
  (length r < 8)%nat -> (length r' < 8)%nat -> bits_of a ++ r = bits_of b ++ r' -> a = b /\ r = r'.
Proof.
  intros Hr Hr' E. pose proof (f_equal length E) as El. rewrite !length_app, !bits_of_length in El.
  assert (length a = length b) as Hl by lia. clear El. revert b E Hl.
  induction a as [|x a IH]; intros [|y b] E Hl; try done. unfold bits_of in E. cbn [map concat] in E.
  rewrite <-!app_assoc in E. apply app_inj_1 in E as [Ex E]; [|by rewrite !low_length].
  apply low_inj in Ex; [|change (2 ^ N.of_nat 8) with 256; apply to_N_lt..].
  apply to_N_inj in Ex as ->. destruct (IH b E) as [-> ->]; [by injection Hl|done].
Qed.

Lemma mapM_alphabet idxs :
  Forall (fun i => i < 32) idxs -> mapM alphabet_index (map alphabet_at idxs) = Some idxs.
Proof.
  induction 1 as [|i idxs Hi _ IH]; [done|].
  cbn [map mapM]. rewrite alphabet_index_at by done. cbn [mbind option_bind]. by rewrite IH.
Qed.

Lemma map_from_bits n f (l : list N) :
  (forall i, In i l -> i < 2 ^ N.of_nat n) -> map (fun g => f (from_bits g)) (map (low n) l) = (map f l : bytes).
Proof.
  intros Hl. rewrite map_map. apply map_ext_in. intros i Hi%Hl. f_equal. rewrite from_bits_low.
  by apply N.mod_small.
Qed.

Lemma base32_roundtrip bs : base32_decode (base32_encode bs) = Some bs.
Proof.
  destruct (base32_encode_bits bs) as (idxs & k & -> & Hidx & Hk & E).
  pose proof (base32_decode_bits (of_bytes (map alphabet_at idxs))) as H.
  rewrite as_bytes_of_bytes, mapM_alphabet in H by done. destruct H as (out & rest & -> & Hr & E2).
  rewrite E in E2. apply bits_of_prefix in E2 as [-> _]; [done| |done]. rewrite length_replicate. lia.
Qed.

(** [base32_encode] and [base32_decode] compute RFC 4648 base32 without
    padding, although the encoder's 32-bit buffer overflows on every input of
    more than a few bytes; decoding inverts encoding, and the decoder accepts
    further symbols after the ones the encoder writes. *)
Theorem base32_rfc4648 :
  (forall bs, base32_encode bs = rfc4648_encode bs) /\
  (forall s, base32_decode s = rfc4648_decode s) /\
  (forall bs, base32_decode (base32_encode bs) = Some bs) /\
  base32_decode (base32_encode [Byte.x07]) = base32_decode (of_bytes (as_bytes (base32_encode [Byte.x07]) ++ as_bytes "7")).
Proof.
  split_and!; [..|reflexivity].
  - intros bs. destruct (base32_encode_bits bs) as (idxs & k & -> & Hidx & Hk & E).
    unfold rfc4648_encode. assert (pad5 (bits_of bs) = symbol_bits idxs ++ []) as ->.
    { rewrite app_nil_r, E. unfold pad5. do 2 f_equal.
      apply (f_equal length) in E. rewrite length_app, length_replicate, symbol_bits_length in E.
      pose proof (Nat.div_mod_eq (length (bits_of bs)) 5).
      pose proof (Nat.mod_upper_bound (length (bits_of bs)) 5).
      destruct (length (bits_of bs) mod 5)%nat as [|[|[|[|[|]]]]]; cbn [Nat.modulo Nat.sub Nat.divmod snd]; cbn; lia. }
    unfold symbol_bits. rewrite groups_unique; [|lia|by apply Forall_map, Forall_true; intros; apply low_length|cbn; lia|done].
    rewrite (map_from_bits 5); [done|]. intros i Hi. rewrite List.Forall_forall in Hidx. by apply Hidx.
  - intros s. pose proof (base32_decode_bits s) as H. unfold rfc4648_decode.
    destruct (mapM alphabet_index (as_bytes s)) as [idxs|]; [|done].
    destruct H as (out & rest & -> & Hr & E). cbn [mbind option_bind]. fold (symbol_bits idxs). rewrite E.
    unfold bits_of. rewrite groups_unique; [|lia|by apply Forall_map, Forall_true; intros; apply low_length|done|done].
    f_equal. rewrite <-(map_map Byte.to_N (low 8)), (map_from_bits 8), map_map.
    + rewrite <-(map_id out) at 1. apply map_ext. intros b. by rewrite as_u8_to_N.
    + intros i (b & <- & _)%in_map_iff. apply to_N_lt.
  - apply base32_roundtrip.
Qed.

(** ** Length-prefixed strings *)

Definition lp_ok (max : N) (s : string) : Prop :=
  utf8_valid (as_bytes s) = true /\ blen (as_bytes s) <= max.

Lemma u16_at_be16 bs pos n rest :
  n < 65536 -> drop pos bs = be16 n ++ rest -> u16_at bs pos = n.
Proof.
  intros Hn E. unfold u16_at, be16 in *. rewrite E, (take_app_length' _ _ 2) by by rewrite to_be_bytes_length.
  rewrite N.mod_small by done. rewrite from_to_be_bytes. by apply N.mod_small.
Qed.

Lemma be16_u16_at bs pos :
  (pos + 2 <= length bs)%nat -> be16 (u16_at bs pos) = take 2 (drop pos bs) /\ u16_at bs pos < 65536.
Proof.
  intros Hl. unfold be16, u16_at. set (l := take 2 (drop pos bs)).
  assert (length l = 2%nat) as H2 by (unfold l; rewrite length_take, length_drop; lia).
  pose proof (from_be_bytes_lt l) as Hlt. unfold blen in Hlt. rewrite H2 in Hlt.
  change (256 ^ N.of_nat 2) with 65536 in Hlt. split; [|done].
  rewrite N.mod_small by done. rewrite <-H2. apply to_from_be_bytes.
Qed.

Lemma read_lp_string_ok bs pos max s stop :
  max < 65536 ->
  read_lp_string bs pos max = Ok (s, stop) <->
  lp_ok max s /\ stop = (pos + 2 + length (as_bytes s))%nat /\ (stop <= length bs)%nat /\
  drop pos bs = be16 (blen (as_bytes s)) ++ as_bytes s ++ drop stop bs.
Proof.
  intros Hmax. unfold read_lp_string, lp_ok. split.
  - destruct (Nat.ltb_spec (length bs) (pos + 2)) as [|H1]; [done|].
    destruct (Nat.ltb_spec (length bs) (pos + 2 + N.to_nat (u16_at bs pos))) as [|H2]; [done|].
    case_bool; [done|to_prop]. intros (t & [Hv Ht]%ok_or_ok%from_utf8_Some & [= <- <-])%result_bind_ok.
    pose proof (f_equal length Ht) as Hlen. rewrite length_take, length_drop, Nat.min_l in Hlen by lia.
    rewrite Ht in Hv. destruct (be16_u16_at bs pos H1) as [Hb _]. unfold blen. rewrite <-Hlen, N2Nat.id, Hb.
    split_and!; [done..|].
    rewrite <-(take_drop 2 (drop pos bs)) at 1. f_equal. rewrite drop_drop.
    rewrite <-(take_drop (N.to_nat (u16_at bs pos)) (drop (pos + 2) bs)) at 1. by rewrite Ht, drop_drop.
  - intros ([Hv Hl] & -> & Hs & E). pose proof (f_equal length E) as El.
    rewrite (proj2 (Nat.ltb_ge _ _)) by lia. rewrite (u16_at_be16 bs pos (blen (as_bytes s)) _ ltac:(lia) E).
    rewrite (proj2 (N.ltb_ge _ _)) by lia.
    rewrite (proj2 (Nat.ltb_ge _ _)) by (unfold blen; lia).
    apply result_bind_ok. exists s. unfold blen. rewrite Nat2N.id. split; [|done].
    apply ok_or_ok, from_utf8_Some.
    assert (drop (pos + 2) bs = as_bytes s ++ drop (pos + 2 + length (as_bytes s)) bs) as ->.
    { rewrite <-drop_drop, E, drop_app_length' by by unfold be16; rewrite to_be_bytes_length. done. }
    by rewrite take_app_length.
Qed.

Lemma read_lp_string_run bs pos max s rest :
  max < 65536 -> lp_ok max s -> drop pos bs = be16 (blen (as_bytes s)) ++ as_bytes s ++ rest ->
  exists stop, read_lp_string bs pos max = Ok (s, stop) /\ drop stop bs = rest /\
    (stop + length rest = length bs)%nat.
Proof.
  intros Hm Hs E. exists (pos + 2 + length (as_bytes s))%nat.
  assert (drop (pos + 2 + length (as_bytes s)) bs = rest) as Ed.
  { rewrite <-!drop_drop, E, (drop_app_length' _ _ 2), drop_app_length; [done|].
    unfold be16. by rewrite to_be_bytes_length. }
  pose proof (f_equal length E) as El. rewrite length_drop, !length_app in El.
  unfold be16 in El. rewrite to_be_bytes_length in El.
  split_and!; [|done|lia]. apply read_lp_string_ok; [done|]. rewrite Ed. split_and!; [done..|lia|done].
Qed.

(** Read the string that starts the rest of the payload, as [E] says. *)
Ltac lp_run E :=
  match type of E with
  | drop ?pos ?p = _ ++ as_bytes ?s ++ _ =>
    match goal with
    | |- context [read_lp_string p pos ?max] =>
      let stop := fresh "stop" in let E1 := fresh in let E2 := fresh in let Hend := fresh "Hend" in
      destruct (read_lp_string_run p pos max s _ eq_refl ltac:(assumption) E)
        as (stop & E1 & E2 & Hend);
      rewrite E1; clear E1 E; rename E2 into E; cbn [mbind result_bind]
    end
  end.

(** ** The three codes *)

(** [s] is [scheme] followed by a base32 form of [payload]. *)
Definition qr_of (scheme s : string) (payload : bytes) : Prop :=
  exists body, as_bytes s = as_bytes scheme ++ as_bytes body /\ base32_decode body = Some payload.

Lemma strip_prefix_ok p s rest :
  strip_prefix p s = Some rest <-> as_bytes s = as_bytes p ++ as_bytes rest.
Proof.
  unfold strip_prefix. case_decide as H.
  - split.
    + intros [= <-]. rewrite as_bytes_of_bytes, <-H at 1. by rewrite take_drop.
    + intros ->. f_equal. rewrite drop_app_length. apply of_bytes_as_bytes.
  - split; [done|]. intros E. destruct H. by rewrite E, take_app_length.
Qed.

Lemma qr_payload_ok scheme s e1 e2 e3 bs :
  qr_payload scheme s e1 e2 e3 = Ok bs <-> qr_of scheme s bs /\ head bs = Some Byte.x01.
Proof.
  unfold qr_payload, qr_of. rewrite result_bind_ok. split.
  - intros (rest & Hr%ok_or_ok%strip_prefix_ok & H). apply result_bind_ok in H as (bs' & Hb%ok_or_ok & H).
    apply result_bind_ok in H as (u & Hv%ensure_ok & [= ->]). destruct bs as [|b bs]; [done|].
    apply bool_decide_eq_true in Hv as ->. eauto.
  - intros [(rest & Hr & Hb) Hh]. exists rest. rewrite ok_or_ok, strip_prefix_ok. split; [done|].
    apply result_bind_ok. exists bs. rewrite ok_or_ok. split; [done|].
    destruct bs as [|b bs]; [done|]. injection Hh as ->. done.
Qed.

Lemma qr_of_uri scheme payload : qr_of scheme (qr_uri scheme payload) payload.
Proof.
  exists (base32_encode payload). unfold qr_uri. rewrite as_bytes_of_bytes. split; [done|].
  apply base32_roundtrip.
Qed.

Lemma or_empty_non_empty s : or_empty (non_empty s) = s /\ non_empty s <> Some ""%string.
Proof. unfold non_empty. destruct (String.eqb_spec s "") as [->|]; naive_solver. Qed.

Lemma non_empty_or_empty o : o <> Some ""%string -> non_empty (or_empty o) = o.
Proof.
  destruct o as [s|]; [|done]. intros H. cbn. unfold non_empty.
  destruct (String.eqb_spec s ""); congruence.
Qed.

Lemma not_empty s : negb (String.eqb s "") = true <-> s <> ""%string.
Proof. destruct (String.eqb_spec s ""); cbn; naive_solver. Qed.

(** What a URI can carry. *)
Definition wf_contact (c : ContactCard.t) : Prop :=
  blen (ContactCard.side c) = 32 /\
  lp_ok ContactCard.DISPLAY_NAME_MAX (or_empty (ContactCard.display_name c)) /\
  ContactCard.display_name c <> Some ""%string /\
  lp_ok ContactCard.SIDE_LABEL_MAX (or_empty (ContactCard.side_label c)) /\
  ContactCard.side_label c <> Some ""%string /\
  lp_ok ContactCard.DIAL_ADDR_MAX (ContactCard.dial_addr c) /\ ContactCard.dial_addr c <> ""%string.

Definition wf_invite (g : GroupInvite.t) : Prop :=
  blen (GroupInvite.verse g) = 32 /\ blen (GroupInvite.contract_hash g) = 32 /\
  lp_ok GroupInvite.DIAL_ADDR_MAX (GroupInvite.dial_addr g) /\ GroupInvite.dial_addr g <> ""%string /\
  lp_ok GroupInvite.NAME_MAX (or_empty (GroupInvite.name g)) /\ GroupInvite.name g <> Some ""%string /\
  from_option (fun h => blen h = 32) True (GroupInvite.photo_hash g).

Definition wf_pairing (q : PairingQr.t) : Prop :=
  blen (PairingQr.side q) = 32 /\ blen (PairingQr.nonce q) = 16 /\ lp_ok 65535 (PairingQr.dial_addr q).

Lemma blen_nat bs n : blen bs = N.of_nat n -> length bs = n.
Proof. unfold blen. lia. Qed.

Lemma be16_length n : length (be16 n) = 2%nat.
Proof. apply to_be_bytes_length. Qed.

(** The fixed-length head of a payload, taken off. *)
Lemma head_split (b : byte) (bs : bytes) : head bs = Some b -> exists tl, bs = b :: tl.
Proof. destruct bs; naive_solver. Qed.

Lemma contact_payload_ok bs c :
  head bs = Some Byte.x01 ->
  ContactCard.parse_payload bs = Ok c <-> wf_contact c /\ bs = ContactCard.payload c.
Proof.
  intros Hh. unfold ContactCard.parse_payload, wf_contact. split.
  - intros (u & Hl%ensure_ok & H)%result_bind_ok. to_prop.
    apply result_bind_ok in H as ([dn p1] & (Hdn & -> & Hp1 & E1)%read_lp_string_ok & H); [|done].
    apply result_bind_ok in H as ([sl p2] & (Hsl & -> & Hp2 & E2)%read_lp_string_ok & H); [|done].
    apply result_bind_ok in H as ([da p3] & (Hda & -> & Hp3 & E3)%read_lp_string_ok & H); [|done].
    apply result_bind_ok in H as (u1 & Hne%ensure_ok%not_empty & H).
    apply result_bind_ok in H as (u2 & Hend%ensure_ok & [= <-]). apply Nat.eqb_eq in Hend.
    cbn [ContactCard.side ContactCard.display_name ContactCard.side_label ContactCard.dial_addr].
    destruct (or_empty_non_empty dn) as [Edn ?], (or_empty_non_empty sl) as [Esl ?].
    rewrite Edn, Esl. split_and!; try done.
    + unfold blen. rewrite length_take, length_drop. lia.
    + rewrite Hend, drop_all, app_nil_r in E3. unfold ContactCard.payload.
      cbn [ContactCard.side ContactCard.display_name ContactCard.side_label ContactCard.dial_addr].
      rewrite Edn, Esl.
      rewrite <-E3, <-E2, <-E1. destruct (head_split _ _ Hh) as [tl ->]. cbn [drop app]. f_equal.
      rewrite <-(take_drop 32 tl) at 1. f_equal.
  - intros [(Hs & Hdn & Ndn & Hsl & Nsl & Hda & Nda) ->]. apply (blen_nat _ 32) in Hs.
    set (p := ContactCard.payload c).
    assert (drop 33 p = be16 (blen (as_bytes (or_empty (ContactCard.display_name c)))) ++
      as_bytes (or_empty (ContactCard.display_name c)) ++
      be16 (blen (as_bytes (or_empty (ContactCard.side_label c)))) ++
      as_bytes (or_empty (ContactCard.side_label c)) ++
      be16 (blen (as_bytes (ContactCard.dial_addr c))) ++ as_bytes (ContactCard.dial_addr c)) as E.
    { unfold p, ContactCard.payload. change 33%nat with (1 + 32)%nat. by rewrite <-drop_drop, !drop_app_length' by done. }
    assert (33 <= length p)%nat as Hp.
    { unfold p, ContactCard.payload. rewrite !length_app. cbn [length]. lia. }
    apply result_bind_ok. exists tt. split.
    { apply ensure_ok. apply (f_equal length) in E. rewrite length_drop, !length_app, !be16_length in E.
      apply negb_true_iff, Nat.ltb_ge. lia. }
    lp_run E.
    lp_run E.
    rewrite <-(app_nil_r (_ ++ as_bytes (ContactCard.dial_addr c))), <-app_assoc in E.
    lp_run E.
    rewrite (proj2 (not_empty _)), (proj2 (Nat.eqb_eq _ _)) by (done || (cbn in *; lia)). cbn [ensure mbind result_bind].
    rewrite !non_empty_or_empty by done.
    assert (take 32 (drop 1 p) = ContactCard.side c) as -> by (cbn; by apply take_app_length').
    by destruct c.
Qed.

Lemma invite_payload_ok bs g :
  head bs = Some Byte.x01 ->
  GroupInvite.parse_payload bs = Ok g <-> wf_invite g /\ bs = GroupInvite.payload g.
Proof.
  intros Hh. unfold GroupInvite.parse_payload, wf_invite. split.
  - intros (u & Hl%ensure_ok & H)%result_bind_ok. to_prop.
    apply result_bind_ok in H as ([da p1] & (Hda & -> & Hp1 & E1)%read_lp_string_ok & H); [|done].
    apply result_bind_ok in H as (u1 & Hne%ensure_ok%not_empty & H).
    apply result_bind_ok in H as ([nm p2] & (Hnm & -> & Hp2 & E2)%read_lp_string_ok & H); [|done].
    apply result_bind_ok in H as ([ph p3] & Hph & H).
    apply result_bind_ok in H as (u2 & Hend%ensure_ok & [= <-]). apply Nat.eqb_eq in Hend.
    destruct (or_empty_non_empty nm) as [Enm ?].
    cbn [GroupInvite.verse GroupInvite.contract_hash GroupInvite.dial_addr GroupInvite.name GroupInvite.photo_hash].
    rewrite Enm.
    set (p := (65 + 2 + length (as_bytes da) + 2 + length (as_bytes nm))%nat) in *. clearbody p.
    assert (drop p bs = match ph with Some h => Byte.x01 :: h | None => [Byte.x00] end /\
      from_option (fun h => blen h = 32) True ph) as [E3 Hw].
    { unfold GroupInvite.parse_photo in Hph. destruct (drop p bs) as [|fl tl] eqn:Ed; [done|].
      assert (drop (p + 1) bs = tl) as Etl by (by rewrite <-drop_drop, Ed).
      pose proof (f_equal length Ed) as El. rewrite length_drop in El. cbn [length] in El.
      case_decide as Hfl; [|case_decide as Hfl1; [|done]].
      - injection Hph as <- <-. subst fl. destruct tl; [done|]. cbn [length] in El. lia.
      - apply result_bind_ok in Hph as (u3 & Hlen%ensure_ok & [= <- <-]). to_prop.
        rewrite Etl, take_ge, Hfl1 by lia. split; [done|]. cbn. unfold blen. lia. }
    split_and!; try done.
    + unfold blen. rewrite length_take, length_drop. lia.
    + unfold blen. rewrite length_take, length_drop. lia.
    + unfold GroupInvite.payload.
      cbn [GroupInvite.verse GroupInvite.contract_hash GroupInvite.dial_addr GroupInvite.name GroupInvite.photo_hash].
      rewrite Enm, <-E3, <-E2, <-E1. destruct (head_split _ _ Hh) as [tl ->].
      cbn [drop app]. f_equal. rewrite <-(take_drop 32 tl) at 1. f_equal.
      rewrite <-(take_drop 32 (drop 32 tl)) at 1. by rewrite drop_drop.
  - intros [(Hv & Hc & Hda & Nda & Hnm & Nnm & Hph) ->].
    apply (blen_nat _ 32) in Hv, Hc. set (p := GroupInvite.payload g).
    assert (drop 65 p = be16 (blen (as_bytes (GroupInvite.dial_addr g))) ++ as_bytes (GroupInvite.dial_addr g) ++
      be16 (blen (as_bytes (or_empty (GroupInvite.name g)))) ++ as_bytes (or_empty (GroupInvite.name g)) ++
      match GroupInvite.photo_hash g with Some h => Byte.x01 :: h | None => [Byte.x00] end) as E.
    { unfold p, GroupInvite.payload. change 65%nat with (1 + (32 + 32))%nat.
      by rewrite <-!drop_drop, !drop_app_length' by done. }
    apply result_bind_ok. exists tt. split.
    { apply ensure_ok, negb_true_iff, Nat.ltb_ge. pose proof (f_equal length E) as El.
      rewrite length_drop, !length_app, !be16_length in El. destruct (GroupInvite.photo_hash g); cbn [length] in El; lia. }
    lp_run E. rewrite (proj2 (not_empty _)) by done. cbn [ensure mbind result_bind]. lp_run E.
    assert (GroupInvite.parse_photo p stop0 = Ok (GroupInvite.photo_hash g, length p)) as ->.
    { unfold GroupInvite.parse_photo. rewrite E.
      pose proof (f_equal (drop 1) E) as E1. rewrite drop_drop in E1.
      destruct (GroupInvite.photo_hash g) as [h|]; cbn [drop length] in *; [|assert (stop0 + 1 = length p)%nat as -> by lia; done].
      apply (blen_nat _ 32) in Hph. rewrite drop_0 in E1. rewrite E1, take_ge by lia.
      rewrite decide_False, decide_True by done. rewrite (proj2 (Nat.ltb_ge _ _)) by lia.
      cbn [negb ensure mbind result_bind]. assert (stop0 + 1 + 32 = length p)%nat as -> by lia. done. }
    cbn [mbind result_bind]. rewrite Nat.eqb_refl. cbn [ensure mbind result_bind].
    rewrite !non_empty_or_empty by done.
    assert (take 32 (drop 1 p) = GroupInvite.verse g) as -> by (cbn; by apply take_app_length').
    assert (take 32 (drop 33 p) = GroupInvite.contract_hash g) as ->.
    { unfold p, GroupInvite.payload. change 33%nat with (1 + 32)%nat. by rewrite <-drop_drop, !drop_app_length', take_app_length' by done. }
    by destruct g.
Qed.

Lemma pairing_payload_ok bs q :
  head bs = Some Byte.x01 ->
  PairingQr.parse_payload bs = Ok q <-> wf_pairing q /\ bs = PairingQr.payload q.
Proof.
  intros Hh. unfold PairingQr.parse_payload, wf_pairing. split.
  - intros (u & Hl%ensure_ok & H)%result_bind_ok. to_prop.
    apply result_bind_ok in H as (u1 & Hlen%ensure_ok & H). apply Nat.eqb_eq in Hlen.
    apply result_bind_ok in H as (da & [Hv Hda]%ok_or_ok%from_utf8_Some & [= <-]).
    cbn [PairingQr.side PairingQr.nonce PairingQr.dial_addr].
    destruct (be16_u16_at bs 49) as [Hb Hlt]; [lia|].
    assert (blen (as_bytes da) = u16_at bs 49) as Ed.
    { rewrite <-Hda. unfold blen. rewrite length_drop. lia. }
    split_and!; [..|split|].
    + unfold blen. rewrite length_take, length_drop. lia.
    + unfold blen. rewrite length_take, length_drop. lia.
    + by rewrite <-Hda.
    + lia.
    + unfold PairingQr.payload. cbn [PairingQr.side PairingQr.nonce PairingQr.dial_addr].
      rewrite Ed, Hb, <-Hda. destruct (head_split _ _ Hh) as [tl ->]. cbn [drop app]. f_equal.
      rewrite <-(take_drop 32 tl) at 1. f_equal.
      rewrite <-(take_drop 16 (drop 32 tl)) at 1. rewrite drop_drop. f_equal.
      rewrite <-(take_drop 2 (drop (32 + 16) tl)) at 1. by rewrite drop_drop.
  - intros [(Hs & Hn & [Hv Hl]) ->]. apply (blen_nat _ 32) in Hs. apply (blen_nat _ 16) in Hn.
    set (p := PairingQr.payload q).
    assert (drop 49 p = be16 (blen (as_bytes (PairingQr.dial_addr q))) ++ as_bytes (PairingQr.dial_addr q)) as E.
    { unfold p, PairingQr.payload. change 49%nat with (1 + (32 + 16))%nat.
      by rewrite <-!drop_drop, !drop_app_length' by done. }
    assert (drop 51 p = as_bytes (PairingQr.dial_addr q)) as E2.
    { change 51%nat with (49 + 2)%nat. rewrite <-drop_drop, E. by rewrite drop_app_length' by by rewrite be16_length. }
    pose proof (f_equal length E) as El. rewrite length_drop, !length_app, !be16_length in El.
    rewrite (proj2 (Nat.ltb_ge _ _)) by lia. 
    rewrite (u16_at_be16 p 49 (blen (as_bytes (PairingQr.dial_addr q))) _ ltac:(lia) E).
    rewrite (proj2 (Nat.eqb_eq _ _)) by (unfold blen; lia). cbn [negb ensure mbind result_bind].
    rewrite E2. unfold from_utf8. rewrite Hv. cbn [ok_or]. rewrite of_bytes_as_bytes.
    cbn [mbind result_bind].
    assert (take 32 (drop 1 p) = PairingQr.side q) as -> by (cbn; by apply take_app_length').
    assert (take 16 (drop 33 p) = PairingQr.nonce q) as ->.
    { unfold p, PairingQr.payload. change 33%nat with (1 + 32)%nat. by rewrite <-drop_drop, !drop_app_length', take_app_length' by done. }
    by destruct q.
Qed.

Lemma contact_parse_ok s c :
  ContactCard.parse s = Ok c <-> wf_contact c /\ qr_of ContactCard.SCHEME s (ContactCard.payload c).
Proof.
  unfold ContactCard.parse. rewrite result_bind_ok. split.
  - intros (bs & [Hq Hh]%qr_payload_ok & [Hw ->]%contact_payload_ok); done.
  - intros [Hw Hq]. exists (ContactCard.payload c). by rewrite qr_payload_ok, contact_payload_ok.
Qed.

Lemma invite_parse_ok s g :
  GroupInvite.parse s = Ok g <-> wf_invite g /\ qr_of GroupInvite.SCHEME s (GroupInvite.payload g).
Proof.
  unfold GroupInvite.parse. rewrite result_bind_ok. split.
  - intros (bs & [Hq Hh]%qr_payload_ok & [Hw ->]%invite_payload_ok); done.
  - intros [Hw Hq]. exists (GroupInvite.payload g). by rewrite qr_payload_ok, invite_payload_ok.
Qed.


(** ** Concrete instances *)

Module QrExamples.

Definition invite : GroupInvite.t :=
  {| GroupInvite.verse := replicate 32 Byte.x11; GroupInvite.contract_hash := replicate 32 Byte.x12;
     GroupInvite.dial_addr := "1.2.3.4:5"; GroupInvite.name := Some "crew";
     GroupInvite.photo_hash := Some (replicate 32 Byte.x13) |}.
Definition pairing : PairingQr.t :=
  {| PairingQr.side := replicate 32 Byte.x21; PairingQr.nonce := replicate 16 Byte.x22;
     PairingQr.dial_addr := "127.0.0.1:50050" |}.


(** The encoder does not check the limits: a name of 300 bytes is printed,
    and refused by the parser. *)
Example long_name_refused :
  is_ok (GroupInvite.parse (GroupInvite.encode
    {| GroupInvite.verse := replicate 32 Byte.x11; GroupInvite.contract_hash := replicate 32 Byte.x12;
       GroupInvite.dial_addr := "a"; GroupInvite.name := Some (of_bytes (replicate 300 Byte.x61));
       GroupInvite.photo_hash := None |})) = false.
Proof. vm_compute. reflexivity. Qed.

End QrExamples.
