(* ===== verification/Profile.v ===== *)
(** Signed declarations a side publishes about itself: profiles
    ([sidevers-core/src/messages/profile.rs]) and storage preferences
    ([messages/storage_prefs.rs]).

    A [BTreeSet<String>] is a [gset string]; it yields its elements in the
    order of their bytes, [set_to_list]. *)

From S2P Require Import Prelude Utf8 Cbor CborCodec CborValue TextMap Keys.

Open Scope N_scope.

(** ** Sets of strings *)

Definition str_le (a b : string) : Prop := bytes_ltb (as_bytes b) (as_bytes a) = false.
Definition str_lt (a b : string) : Prop := bytes_ltb (as_bytes a) (as_bytes b) = true.

#[export] Instance str_le_dec a b : Decision (str_le a b).
Proof. unfold str_le. apply _. Defined.

(** [capabilities.iter()]. *)
Definition set_to_list (s : gset string) : list string := merge_sort str_le (elements s).

(** [encode_text_array_iter(capabilities.iter())]. *)
Definition encode_text_set (s : gset string) : bytes := write_array text (set_to_list s).

(** The loop of [read_text_set]. *)
Fixpoint text_set_loop (n : nat) (prev : option string) (out : gset string) : Reader (gset string) :=
  match n with
  | O => mret out
  | S n' =>
    s ← read_text;
    _ ← guard (match prev with Some p => bytes_ltb (as_bytes p) (as_bytes s) | None => true end)
          (Error.CborNotCanonical "capabilities array not sorted / has duplicates");
    text_set_loop n' (Some s) ({[ s ]} ∪ out)
  end.

Definition read_text_set : Reader (gset string) :=
  n ← read_array_header;
  text_set_loop (N.to_nat n) None ∅.

Definition wf_text_set (s : gset string) : Prop :=
  (forall t, t ∈ s -> wf_text t) /\ N.of_nat (size s) <= MAX_CBOR_ENTRIES.

(** ** Extension fields: values are any CBOR item, kept as its bytes *)

Definition raw_value (v : bytes) : bytes := v.
Definition read_raw : Reader bytes := capture skip_value.
Definition wf_raw (v : bytes) : Prop :=
  exists c, (skippable c /\ (cdepth c <= MAX_CBOR_SKIP_DEPTH)%nat) /\ v = enc c.

Definition encode_fields_submap (fields : gmap string bytes) : bytes := encode_text_map raw_value fields.
Definition decode_fields_map : Reader (gmap string bytes) :=
  decode_text_map read_raw "fields map not in canonical key order".

(** ** Profiles *)

Definition DIRECT_MESSAGE : string := "direct-message".
Definition STORAGE_HOST : string := "storage-host".
Definition VERSE_MODERATE : string := "verse-moderate".
Definition GOSSIP_RELAY : string := "gossip-relay".
Definition DISCOVERABLE : string := "discoverable".
Definition INDEXABLE : string := "indexable".

Record ProfilePayload := {
  side : bytes;
  name : option string;
  avatar : option bytes;
  bio : option string;
  links : option (list string);
  fields : option (gmap string bytes);
  capabilities : gset string;
  updated_at : N;
  signature : bytes
}.

Module Profile.

Definition unsigned_entries (side : bytes) (name : option string) (avatar : option bytes)
    (bio : option string) (links : option (list string)) (fields : option (gmap string bytes))
    (capabilities : gset string) (updated_at : N) : list MapEntry :=
  [ entry "bio" (or_null text bio);
    entry "name" (or_null text name);
    entry "side" (bytestr side);
    entry "links" (or_null (write_array text) links);
    entry "avatar" (or_null bytestr avatar);
    entry "fields" (or_null encode_fields_submap fields);
    entry "updated_at" (uint updated_at);
    entry "capabilities" (encode_text_set capabilities) ].

Definition encode_unsigned (side : bytes) (name : option string) (avatar : option bytes)
    (bio : option string) (links : option (list string)) (fields : option (gmap string bytes))
    (capabilities : gset string) (updated_at : N) : bytes :=
  encode_map (unsigned_entries side name avatar bio links fields capabilities updated_at).

Definition wire_entries (p : ProfilePayload) : list MapEntry :=
  [ entry "bio" (or_null text (bio p));
    entry "name" (or_null text (name p));
    entry "side" (bytestr (side p));
    entry "links" (or_null (write_array text) (links p));
    entry "avatar" (or_null bytestr (avatar p));
    entry "fields" (or_null encode_fields_submap (fields p));
    entry "signature" (bytestr (signature p));
    entry "updated_at" (uint (updated_at p));
    entry "capabilities" (encode_text_set (capabilities p)) ].

Definition to_wire_bytes (p : ProfilePayload) : bytes := encode_map (wire_entries p).

Definition read_fields : Reader ProfilePayload :=
  let e := "Profile keys not in canonical order" in
  _ ← expect_map 9 "Profile expected 9 keys, got {n}";
  _ ← expect_key "bio" e;
  b ← read_nullable "missing text-or-null" read_text;
  _ ← expect_key "name" e;
  n ← read_nullable "missing text-or-null" read_text;
  _ ← expect_key "side" e;
  s ← read_fixed_bytes "side" PUBLIC_KEY_LEN;
  _ ← expect_key "links" e;
  l ← read_nullable "missing array-or-null" (read_array read_text);
  _ ← expect_key "avatar" e;
  a ← read_optional_fixed "avatar" 32;
  _ ← expect_key "fields" e;
  f ← read_nullable "missing map-or-null" decode_fields_map;
  _ ← expect_key "signature" e;
  sg ← read_fixed_bytes "signature" SIGNATURE_LEN;
  _ ← expect_key "updated_at" e;
  u ← read_u64;
  _ ← expect_key "capabilities" e;
  c ← read_text_set;
  mret {| side := s; name := n; avatar := a; bio := b; links := l; fields := f;
          capabilities := c; updated_at := u; signature := sg |}.

Definition unsigned_bytes (p : ProfilePayload) : bytes :=
  encode_unsigned (side p) (name p) (avatar p) (bio p) (links p) (fields p) (capabilities p)
    (updated_at p).

Definition wf (p : ProfilePayload) : Prop :=
  from_option wf_text True (bio p) /\ from_option wf_text True (name p) /\
  blen (side p) = PUBLIC_KEY_LEN /\
  from_option (fun l => Forall wf_text l /\ N.of_nat (length l) <= MAX_CBOR_ENTRIES) True (links p) /\
  from_option (fun b => blen b = 32) True (avatar p) /\
  from_option (wf_text_map wf_raw) True (fields p) /\
  blen (signature p) = SIGNATURE_LEN /\ updated_at p < u64_size /\ wf_text_set (capabilities p).

Definition has_capability (p : ProfilePayload) (token : string) : bool :=
  bool_decide (token ∈ capabilities p).

Section Signed.
Context `{Crypto}.

Definition sign (s : SideKey) (name : option string) (avatar : option bytes) (bio : option string)
    (links : option (list string)) (fields : option (gmap string bytes)) (capabilities : gset string)
    (updated_at : N) : result ProfilePayload :=
  let pk := public_bytes s in
  let unsigned := encode_unsigned pk name avatar bio links fields capabilities updated_at in
  let digest := blake3 unsigned in
  Ok {| side := pk; name := name; avatar := avatar; bio := bio; links := links; fields := fields;
        capabilities := capabilities; updated_at := updated_at; signature := side_sign s digest |}.

Definition from_wire_bytes (bs : bytes) : result ProfilePayload :=
  p ← decode_with (p ← read_fields; _ ← check_end (Error.CborDecode "trailing bytes after Profile"); mret p) bs;
  _ ← verify_signed (side p) (unsigned_bytes p) (signature p);
  _ ← ensure (bool_decide (to_wire_bytes p = bs))
        (Error.CborNotCanonical "Profile bytes are not canonical re-encode");
  Ok p.

Definition hash (p : ProfilePayload) : bytes := blake3 (to_wire_bytes p).

End Signed.

End Profile.

(** ** Storage preferences *)

Module StoragePrefs.

Record StoragePreferences := {
  side : bytes;
  preferred_providers : list bytes;
  max_object_kib : N;
  retention_hint_secs : N;
  updated_at : N;
  signature : bytes
}.

Definition encode_provider_array (l : list bytes) : bytes := write_array bytestr l.
Definition decode_provider_array : Reader (list bytes) :=
  read_array (read_fixed_bytes "preferred_providers[]" PUBLIC_KEY_LEN).

Definition unsigned_entries (side : bytes) (updated_at max_object_kib : N)
    (preferred_providers : list bytes) (retention_hint_secs : N) : list MapEntry :=
  [ entry "side" (bytestr side);
    entry "updated_at" (uint updated_at);
    entry "max_object_kib" (uint max_object_kib);
    entry "preferred_providers" (encode_provider_array preferred_providers);
    entry "retention_hint_secs" (uint retention_hint_secs) ].

Definition encode_unsigned (side : bytes) (updated_at max_object_kib : N)
    (preferred_providers : list bytes) (retention_hint_secs : N) : bytes :=
  encode_map (unsigned_entries side updated_at max_object_kib preferred_providers retention_hint_secs).

Definition wire_entries (p : StoragePreferences) : list MapEntry :=
  [ entry "side" (bytestr (side p));
    entry "signature" (bytestr (signature p));
    entry "updated_at" (uint (updated_at p));
    entry "max_object_kib" (uint (max_object_kib p));
    entry "preferred_providers" (encode_provider_array (preferred_providers p));
    entry "retention_hint_secs" (uint (retention_hint_secs p)) ].

Definition to_wire_bytes (p : StoragePreferences) : bytes := encode_map (wire_entries p).

Definition read_fields : Reader StoragePreferences :=
  let e := "StoragePreferences keys not in canonical order" in
  _ ← expect_map 6 "StoragePreferences expected 6 keys, got {n}";
  _ ← expect_key "side" e;
  s ← read_fixed_bytes "side" PUBLIC_KEY_LEN;
  _ ← expect_key "signature" e;
  sg ← read_fixed_bytes "signature" SIGNATURE_LEN;
  _ ← expect_key "updated_at" e;
  u ← read_u64;
  _ ← expect_key "max_object_kib" e;
  m ← read_u64;
  _ ← expect_key "preferred_providers" e;
  l ← decode_provider_array;
  _ ← expect_key "retention_hint_secs" e;
  h ← read_u64;
  mret {| side := s; preferred_providers := l; max_object_kib := m; retention_hint_secs := h;
          updated_at := u; signature := sg |}.

Definition unsigned_bytes (p : StoragePreferences) : bytes :=
  encode_unsigned (side p) (updated_at p) (max_object_kib p) (preferred_providers p)
    (retention_hint_secs p).

Definition wf (p : StoragePreferences) : Prop :=
  blen (side p) = PUBLIC_KEY_LEN /\ blen (signature p) = SIGNATURE_LEN /\ updated_at p < u64_size /\
  max_object_kib p < u64_size /\
  (Forall (fun b => blen b = PUBLIC_KEY_LEN) (preferred_providers p) /\
   N.of_nat (length (preferred_providers p)) <= MAX_CBOR_ENTRIES) /\
  retention_hint_secs p < u64_size.

Section Signed.
Context `{Crypto}.

Definition sign (s : SideKey) (updated_at max_object_kib : N) (preferred_providers : list bytes)
    (retention_hint_secs : N) : result StoragePreferences :=
  let pk := public_bytes s in
  let unsigned := encode_unsigned pk updated_at max_object_kib preferred_providers retention_hint_secs in
  let digest := blake3 unsigned in
  Ok {| side := pk; preferred_providers := preferred_providers; max_object_kib := max_object_kib;
        retention_hint_secs := retention_hint_secs; updated_at := updated_at;
        signature := side_sign s digest |}.

Definition from_wire_bytes (bs : bytes) : result StoragePreferences :=
  p ← decode_with (p ← read_fields; _ ← check_end (Error.CborDecode "trailing bytes after StoragePreferences"); mret p) bs;
  _ ← verify_signed (side p) (unsigned_bytes p) (signature p);
  _ ← ensure (bool_decide (to_wire_bytes p = bs))
        (Error.CborNotCanonical "StoragePreferences bytes are not canonical re-encode");
  Ok p.

End Signed.

End StoragePrefs.

(** ** Sorted sets *)

#[export] Instance str_le_total : Total str_le.
Proof.
  intros a b. unfold str_le. destruct (bytes_ltb_total (as_bytes a) (as_bytes b)) as [H|[->|H]].
  - left. by apply bytes_ltb_asym.
  - left. apply bytes_ltb_irrefl.
  - right. by apply bytes_ltb_asym.
Qed.

#[export] Instance str_le_trans : Transitive str_le.
Proof.
  intros a b c Hab Hbc.
  pose proof (key_le_trans (Build_MapEntry (as_bytes a) []) (Build_MapEntry (as_bytes b) [])
    (Build_MapEntry (as_bytes c) [])) as H. by apply H.
Qed.

#[export] Instance str_le_antisymm : AntiSymm (=) str_le.
Proof.
  intros a b Hab Hba. unfold str_le in *. apply as_bytes_inj.
  destruct (bytes_ltb_total (as_bytes a) (as_bytes b)) as [?|[?|?]]; congruence.
Qed.

#[export] Instance str_lt_trans : Transitive str_lt.
Proof. intros a b c. apply bytes_ltb_trans. Qed.

Lemma str_lt_le a b : str_lt a b -> str_le a b.
Proof. apply bytes_ltb_asym. Qed.

Lemma str_lt_irrefl a : ~ str_lt a a.
Proof. unfold str_lt. by rewrite bytes_ltb_irrefl. Qed.

Lemma strictly_sorted_NoDup l : StronglySorted str_lt l -> NoDup l.
Proof.
  induction 1 as [|a l _ IH Hall]; constructor; [|done].
  intros Ha. rewrite Forall_forall in Hall. by apply (str_lt_irrefl a), Hall.
Qed.

(** The listing of a set is the one strictly increasing list of its elements. *)
Lemma set_to_list_unique l (s : gset string) :
  StronglySorted str_lt l -> list_to_set l = s -> set_to_list s = l.
Proof.
  intros Hl <-. apply (StronglySorted_unique str_le).
  - apply StronglySorted_merge_sort; apply _.
  - clear -Hl. induction Hl as [|a l _ IH Hall]; constructor; [done|].
    eapply Forall_impl; [exact Hall|]. intros x. apply str_lt_le.
  - unfold set_to_list. rewrite merge_sort_Permutation.
    apply elements_list_to_set. by apply strictly_sorted_NoDup.
Qed.

Lemma set_to_list_permutation s : set_to_list s ≡ₚ elements s.
Proof. apply merge_sort_Permutation. Qed.

Lemma set_to_list_sorted s : StronglySorted str_lt (set_to_list s).
Proof.
  assert (StronglySorted str_le (set_to_list s)) as Hs by (apply StronglySorted_merge_sort; apply _).
  assert (NoDup (set_to_list s)) as Hnd by (rewrite set_to_list_permutation; apply NoDup_elements).
  induction Hs as [|a l _ IH Hall]; constructor; inversion Hnd; subst; [by apply IH|].
  rewrite Forall_forall in *. intros x Hx. specialize (Hall x Hx). unfold str_lt, str_le in *.
  destruct (bytes_ltb_total (as_bytes a) (as_bytes x)) as [?|[Ha|?]]; [done| |congruence].
  by apply as_bytes_inj in Ha as ->.
Qed.

Lemma list_to_set_to_list s : list_to_set (set_to_list s) = s.
Proof. apply set_eq. intros x. rewrite elem_of_list_to_set, set_to_list_permutation. apply elem_of_elements. Qed.

Lemma set_to_list_length s : length (set_to_list s) = size s.
Proof. by rewrite set_to_list_permutation. Qed.

(** [l] continues the strictly increasing run that ended with [prev]. *)
Definition follows (prev : option string) (l : list string) : Prop :=
  StronglySorted str_lt l /\
  match prev, l with Some p, s :: _ => str_lt p s | _, _ => True end.

Lemma follows_cons prev s l :
  follows prev (s :: l) <->
  match prev with Some p => str_lt p s | None => True end /\ follows (Some s) l.
Proof.
  unfold follows. split.
  - intros [Hs Hp]. split; [done|]. inversion Hs as [|? ? Hl Hall]; subst. split; [done|].
    destruct l; [done|]. by inversion Hall.
  - intros (Hp & Hl & Hh). split; [|done]. constructor; [done|].
    destruct l as [|x l]; constructor; [done|]. inversion Hl; subst.
    eapply Forall_impl; [eassumption|]. intros y. by apply str_lt_trans.
Qed.

Lemma text_set_loop_ok n : forall prev out r s r', fits r ->
  text_set_loop n prev out r = Ok (s, r') <->
  exists l, length l = n /\ Forall wf_text l /\ follows prev l /\
    s = list_to_set l ∪ out /\ consumes r (concat (map text l)) r'.
Proof.
  induction n as [|n IH]; intros prev out r s r' F; cbn [text_set_loop].
  - rewrite mret_ok. split.
    + intros [-> ->]. exists []. cbn. rewrite consumes_nil by done.
      rewrite (left_id_L ∅ (∪)). unfold follows. destruct prev; split_and!; done || constructor.
    + intros (l & Hl & _ & _ & -> & C). destruct l; [|done]. apply consumes_nil in C as ->; [|done].
      cbn. by rewrite (left_id_L ∅ (∪)).
  - rewrite rd_bind_ok. split.
    + intros (t & r1 & [Wt C]%codec_iff & H); [|done].
      apply rd_bind_ok in H as (u & r2 & [Hg ->]%guard_ok & H).
      apply IH in H as (l & <- & Hwf & Hf & -> & C2); [|by eapply consumes_fits_r].
      exists (t :: l). rewrite follows_cons. cbn [map concat list_to_set length].
      split_and!; [done|by constructor|by destruct prev|done|set_solver|].
      apply consumes_app. eauto.
    + intros (l & Hl & Hwf & Hf & -> & C). destruct l as [|t l]; [done|].
      inversion Hwf; subst. apply follows_cons in Hf as [Hp Hf]. cbn [map concat] in C.
      split_consumes C. exists t, r0. rewrite codec_iff by done. split; [done|].
      apply rd_bind_ok. exists tt, r0. rewrite guard_ok. split; [by destruct prev|].
      apply IH; [done|]. exists l. injection Hl as Hl. split_and!; try done. cbn. set_solver.
Qed.

#[export] Instance codec_text_set : Codec encode_text_set read_text_set wf_text_set.
Proof.
  intros r s r' F. unfold read_text_set, encode_text_set.
  rewrite rd_bind_ok, write_array_eq, set_to_list_length. split.
  - intros (n & r1 & [Hn C]%codec_iff & H); [|done].
    apply text_set_loop_ok in H as (l & Hl & Hwf & [Hf _] & -> & C2); [|by eapply consumes_fits_r].
    rewrite (right_id_L ∅ (∪)). rewrite (set_to_list_unique l) by done.
    rewrite size_list_to_set by by apply strictly_sorted_NoDup. rewrite Hl, N2Nat.id.
    split; [|apply consumes_app; eauto]. split.
    + intros t Ht%elem_of_list_to_set. rewrite Forall_forall in Hwf. by apply Hwf.
    + rewrite size_list_to_set by by apply strictly_sorted_NoDup. rewrite Hl. lia.
  - intros [[Hwf Hn] C]. split_consumes C. exists (N.of_nat (size s)), r0.
    rewrite codec_iff by done. split; [done|]. apply text_set_loop_ok; [done|].
    exists (set_to_list s). rewrite Nat2N.id, set_to_list_length, list_to_set_to_list.
    split_and!; [done| |split; [apply set_to_list_sorted|done]|set_solver|done].
    rewrite Forall_forall. intros t. rewrite set_to_list_permutation.
    intros ?%elem_of_elements. by apply Hwf.
Qed.

#[export] Instance non_null_text_map {V} (encv : V -> bytes) : NonNull (encode_text_map encv).
Proof.
  intros m. unfold encode_text_map. rewrite encode_map_eq, head_bytes_eq.
  eexists _, _. split; [done|]. by apply head_non_null.
Qed.

#[export] Instance codec_raw : Codec raw_value read_raw wf_raw.
Proof. intros r v r' F. unfold read_raw, wf_raw, raw_value. by apply capture_ok, skip_value_inner_ok. Qed.

#[export] Instance codec_fields : Codec encode_fields_submap decode_fields_map (wf_text_map wf_raw) :=
  codec_text_map raw_value read_raw wf_raw _.
#[export] Instance non_null_fields : NonNull encode_fields_submap := non_null_text_map raw_value.

(** ** The codecs of the records *)

#[export] Instance profile_codec : Codec Profile.to_wire_bytes Profile.read_fields Profile.wf.
Proof. unfold Profile.to_wire_bytes, Profile.read_fields, Profile.wf, Profile.wire_entries. solve_codec. Qed.

#[export] Instance provider_array_codec :
  Codec StoragePrefs.encode_provider_array StoragePrefs.decode_provider_array
    (fun l => Forall (fun b => blen b = PUBLIC_KEY_LEN) l /\ N.of_nat (length l) <= MAX_CBOR_ENTRIES).
Proof. unfold StoragePrefs.encode_provider_array, StoragePrefs.decode_provider_array. apply _. Qed.

#[export] Instance storage_prefs_codec :
  Codec StoragePrefs.to_wire_bytes StoragePrefs.read_fields StoragePrefs.wf.
Proof.
  unfold StoragePrefs.to_wire_bytes, StoragePrefs.read_fields, StoragePrefs.wf, StoragePrefs.wire_entries.
  solve_codec.
Qed.

Lemma storage_prefs_canonical p : StoragePrefs.wf p -> Canonical (StoragePrefs.to_wire_bytes p).
Proof.
  unfold StoragePrefs.wf, StoragePrefs.to_wire_bytes, StoragePrefs.wire_entries,
    StoragePrefs.encode_provider_array. intros Hwf. destruct_and?. canon.
Qed.

(** ** Properties *)

(** Profiles and storage preferences are accepted exactly when they are the
    canonical encoding of a well-formed record signed by its side: the
    capabilities come strictly sorted, the extension fields in key order. *)
Theorem profile_records_exact `{Crypto} bs (F : blen bs < u64_size) :
  (forall p, Profile.from_wire_bytes bs = Ok p <->
     Profile.wf p /\ signed_by (side p) (Profile.unsigned_bytes p) (signature p) /\
     bs = Profile.to_wire_bytes p) /\
  (forall p, StoragePrefs.from_wire_bytes bs = Ok p <->
     StoragePrefs.wf p /\
     signed_by (StoragePrefs.side p) (StoragePrefs.unsigned_bytes p) (StoragePrefs.signature p) /\
     bs = StoragePrefs.to_wire_bytes p).
Proof.
  split; intros p; apply signed_wire_ok; intros x.
  - rewrite (decode_exact Profile.to_wire_bytes Profile.read_fields _ _ bs x F). tauto.
  - rewrite (decode_exact StoragePrefs.to_wire_bytes StoragePrefs.read_fields _ _ bs x F). tauto.
Qed.

(** ** Concrete instances *)

Module ProfileExamples.
Import Toy.

Definition caps : gset string := {[ DISCOVERABLE; DIRECT_MESSAGE; STORAGE_HOST ]}.
Definition fields1 : gmap string bytes := {[ "z" := uint 3; "pronouns" := text "they" ]}.
Definition unsigned : bytes :=
  Profile.encode_unsigned (public_bytes side) (Some "Ada") None (Some "") (Some ["https://a"])
    (Some fields1) caps 1700000000.
Definition profile1 : ProfilePayload :=
  {| Profile.side := public_bytes side; name := Some "Ada"; avatar := None; bio := Some "";
     links := Some ["https://a"]; fields := Some fields1; capabilities := caps;
     updated_at := 1700000000; signature := side_sign side (blake3 unsigned) |}.

(** The capabilities come out in byte order. *)
Example caps_sorted : set_to_list caps = [DIRECT_MESSAGE; DISCOVERABLE; STORAGE_HOST].
Proof. vm_compute. reflexivity. Qed.

Lemma profile_records_exact_witness :
  Profile.wf profile1 /\
  signed_by (Profile.side profile1) (Profile.unsigned_bytes profile1) (signature profile1) /\
  Profile.to_wire_bytes profile1 = Profile.to_wire_bytes profile1.
Proof.
  apply (proj1 (proj1 (profile_records_exact (Profile.to_wire_bytes profile1) eq_refl) profile1)).
  vm_compute. reflexivity.
Defined.

End ProfileExamples.
