(* ===== verification/PublicLayer.v ===== *)
(** The public layer's payloads ([sidevers-core/src/messages/public.rs]):
    handle lookups and claims, pages, announcements and directory entries.

    A handle is the pair of a local part and a domain; the domain is inside
    the signed bytes of a claim.  A [PageDeliver] and a [DirectoryEntry] carry
    signed records as byte strings, which their decoders verify. *)

From S2P Require Import Prelude Utf8 Cbor CborCodec CborValue Keys.

Open Scope N_scope.

(** ** [HandleResolvePayload] (0x60) *)

Module HandleResolve.

Record HandleResolvePayload := { handle_local : string; domain : string }.

Definition display (p : HandleResolvePayload) : string :=
  String.append (handle_local p) (String.append "@" (domain p)).

Definition entries (p : HandleResolvePayload) : list MapEntry :=
  [ entry "domain" (text (domain p));
    entry "handle_local" (text (handle_local p)) ].

Definition encode (p : HandleResolvePayload) : bytes := encode_map (entries p).

Definition fields : Reader HandleResolvePayload :=
  _ ← expect_map 2 "HandleResolve expected 2 keys, got {n}";
  _ ← expect_key "domain" "HandleResolve: expected 'domain' first";
  d ← read_text;
  _ ← expect_key "handle_local" "HandleResolve: expected 'handle_local' second";
  h ← read_text;
  mret {| handle_local := h; domain := d |}.

Definition decode (bs : bytes) : result HandleResolvePayload :=
  decode_with (p ← fields; _ ← check_end (Error.CborDecode "trailing bytes after HandleResolve"); mret p) bs.

Definition wf (p : HandleResolvePayload) : Prop := wf_text (domain p) /\ wf_text (handle_local p).

End HandleResolve.

(** ** [HandleAttestPayload] (0x61) *)

Module HandleAttest.

Record HandleAttestPayload := {
  side : bytes;
  handle_local : string;
  domain : string;
  issued_at : N;
  signature : bytes
}.

Definition display (p : HandleAttestPayload) : string :=
  String.append (handle_local p) (String.append "@" (domain p)).

Definition unsigned_entries (side : bytes) (handle_local domain : string) (issued_at : N) : list MapEntry :=
  [ entry "side" (bytestr side);
    entry "domain" (text domain);
    entry "issued_at" (uint issued_at);
    entry "handle_local" (text handle_local) ].

Definition encode_unsigned (side : bytes) (handle_local domain : string) (issued_at : N) : bytes :=
  encode_map (unsigned_entries side handle_local domain issued_at).

Definition wire_entries (p : HandleAttestPayload) : list MapEntry :=
  [ entry "side" (bytestr (side p));
    entry "domain" (text (domain p));
    entry "issued_at" (uint (issued_at p));
    entry "signature" (bytestr (signature p));
    entry "handle_local" (text (handle_local p)) ].

Definition to_wire_bytes (p : HandleAttestPayload) : bytes := encode_map (wire_entries p).

Definition fields : Reader HandleAttestPayload :=
  let e := "HandleAttest keys not in canonical order" in
  _ ← expect_map 5 "HandleAttest expected 5 keys, got {n}";
  _ ← expect_key "side" e;
  s ← read_fixed_bytes "side" PUBLIC_KEY_LEN;
  _ ← expect_key "domain" e;
  d ← read_text;
  _ ← expect_key "issued_at" e;
  i ← read_u64;
  _ ← expect_key "signature" e;
  sg ← read_fixed_bytes "signature" SIGNATURE_LEN;
  _ ← expect_key "handle_local" e;
  h ← read_text;
  mret {| side := s; handle_local := h; domain := d; issued_at := i; signature := sg |}.

Definition unsigned_bytes (p : HandleAttestPayload) : bytes :=
  encode_unsigned (side p) (handle_local p) (domain p) (issued_at p).

Definition wf (p : HandleAttestPayload) : Prop :=
  blen (side p) = PUBLIC_KEY_LEN /\ wf_text (domain p) /\ issued_at p < u64_size /\
  blen (signature p) = SIGNATURE_LEN /\ wf_text (handle_local p).

Section Signed.
Context `{Crypto}.

Definition sign (side_key : SideKey) (handle_local domain : string) (issued_at : N)
    : result HandleAttestPayload :=
  let pk := public_bytes side_key in
  let unsigned := encode_unsigned pk handle_local domain issued_at in
  let digest := blake3 unsigned in
  Ok {| side := pk; handle_local := handle_local; domain := domain; issued_at := issued_at;
        signature := side_sign side_key digest |}.

Definition from_wire_bytes (bs : bytes) : result HandleAttestPayload :=
  p ← decode_with (p ← fields; _ ← check_end (Error.CborDecode "trailing bytes after HandleAttest"); mret p) bs;
  _ ← verify_signed (side p) (unsigned_bytes p) (signature p);
  _ ← ensure (bool_decide (to_wire_bytes p = bs))
        (Error.CborNotCanonical "HandleAttest bytes are not canonical re-encode");
  Ok p.

(** The record is well formed and its side signed it. *)
Definition valid (p : HandleAttestPayload) : Prop :=
  wf p /\ signed_by (side p) (unsigned_bytes p) (signature p).

End Signed.
End HandleAttest.

(** ** [PagePublishPayload] (0x62) *)

Module PagePublish.

Record PagePublishPayload := {
  side : bytes;
  slug : string;
  mime : string;
  content : bytes;
  published_at : N;
  signature : bytes
}.

Definition unsigned_entries (side : bytes) (mime slug : string) (content : bytes) (published_at : N)
    : list MapEntry :=
  [ entry "mime" (text mime);
    entry "side" (bytestr side);
    entry "slug" (text slug);
    entry "content" (bytestr content);
    entry "published_at" (uint published_at) ].

Definition encode_unsigned (side : bytes) (mime slug : string) (content : bytes) (published_at : N)
    : bytes :=
  encode_map (unsigned_entries side mime slug content published_at).

Definition wire_entries (p : PagePublishPayload) : list MapEntry :=
  [ entry "mime" (text (mime p));
    entry "side" (bytestr (side p));
    entry "slug" (text (slug p));
    entry "content" (bytestr (content p));
    entry "signature" (bytestr (signature p));
    entry "published_at" (uint (published_at p)) ].

Definition to_wire_bytes (p : PagePublishPayload) : bytes := encode_map (wire_entries p).

Definition fields : Reader PagePublishPayload :=
  let e := "PagePublish keys not in canonical order" in
  _ ← expect_map 6 "PagePublish expected 6 keys, got {n}";
  _ ← expect_key "mime" e;
  m ← read_text;
  _ ← expect_key "side" e;
  s ← read_fixed_bytes "side" PUBLIC_KEY_LEN;
  _ ← expect_key "slug" e;
  sl ← read_text;
  _ ← expect_key "content" e;
  c ← read_bytes;
  _ ← expect_key "signature" e;
  sg ← read_fixed_bytes "signature" SIGNATURE_LEN;
  _ ← expect_key "published_at" e;
  pa ← read_u64;
  mret {| side := s; slug := sl; mime := m; content := c; published_at := pa; signature := sg |}.

Definition unsigned_bytes (p : PagePublishPayload) : bytes :=
  encode_unsigned (side p) (mime p) (slug p) (content p) (published_at p).

Definition wf (p : PagePublishPayload) : Prop :=
  wf_text (mime p) /\ blen (side p) = PUBLIC_KEY_LEN /\ wf_text (slug p) /\ wf_bytes (content p) /\
  blen (signature p) = SIGNATURE_LEN /\ published_at p < u64_size.

Section Signed.
Context `{Crypto}.

Definition sign (side_key : SideKey) (slug mime : string) (content : bytes) (published_at : N)
    : result PagePublishPayload :=
  let pk := public_bytes side_key in
  let unsigned := encode_unsigned pk mime slug content published_at in
  let digest := blake3 unsigned in
  Ok {| side := pk; slug := slug; mime := mime; content := content; published_at := published_at;
        signature := side_sign side_key digest |}.

Definition from_wire_bytes (bs : bytes) : result PagePublishPayload :=
  p ← decode_with (p ← fields; _ ← check_end (Error.CborDecode "trailing bytes after PagePublish"); mret p) bs;
  _ ← verify_signed (side p) (unsigned_bytes p) (signature p);
  _ ← ensure (bool_decide (to_wire_bytes p = bs))
        (Error.CborNotCanonical "PagePublish bytes are not canonical re-encode");
  Ok p.

Definition valid (p : PagePublishPayload) : Prop :=
  wf p /\ signed_by (side p) (unsigned_bytes p) (signature p).

End Signed.
End PagePublish.

(** ** [PageFetchPayload] (0x63) *)

Module PageFetch.

Record PageFetchPayload := { side : bytes; slug : string }.

Definition entries (p : PageFetchPayload) : list MapEntry :=
  [ entry "side" (bytestr (side p)); entry "slug" (text (slug p)) ].

Definition encode (p : PageFetchPayload) : bytes := encode_map (entries p).

Definition fields : Reader PageFetchPayload :=
  _ ← expect_map 2 "PageFetch expected 2 keys, got {n}";
  _ ← expect_key "side" "PageFetch expects 'side' first";
  s ← read_fixed_bytes "side" PUBLIC_KEY_LEN;
  _ ← expect_key "slug" "PageFetch expects 'slug' second";
  sl ← read_text;
  mret {| side := s; slug := sl |}.

Definition decode (bs : bytes) : result PageFetchPayload :=
  decode_with (p ← fields; _ ← check_end (Error.CborDecode "trailing bytes after PageFetch"); mret p) bs.

Definition wf (p : PageFetchPayload) : Prop := blen (side p) = PUBLIC_KEY_LEN /\ wf_text (slug p).

End PageFetch.

(** ** [PageDeliverPayload] (0x64) *)

Module PageDeliver.

Record PageDeliverPayload := { page : PagePublish.PagePublishPayload }.

Definition page_value (p : PagePublish.PagePublishPayload) : bytes :=
  bytestr (PagePublish.to_wire_bytes p).

Definition entries (p : PageDeliverPayload) : list MapEntry := [ entry "page" (page_value (page p)) ].

Definition encode (p : PageDeliverPayload) : bytes := encode_map (entries p).

Section Signed.
Context `{Crypto}.

Definition read_page : Reader PagePublish.PagePublishPayload :=
  page_bytes ← read_bytes;
  lift (PagePublish.from_wire_bytes page_bytes).

Definition fields : Reader PageDeliverPayload :=
  _ ← expect_map 1 "PageDeliver expected 1 key, got {n}";
  _ ← expect_key "page" "PageDeliver expects 'page'";
  p ← read_page;
  mret {| page := p |}.

Definition decode (bs : bytes) : result PageDeliverPayload :=
  decode_with (p ← fields; _ ← check_end (Error.CborDecode "trailing bytes after PageDeliver"); mret p) bs.

Definition wf (p : PageDeliverPayload) : Prop :=
  PagePublish.valid (page p) /\ wf_bytes (PagePublish.to_wire_bytes (page p)).

End Signed.
End PageDeliver.

(** ** [AnnouncementPayload] (0x65) *)

Module Announcement.

Record AnnouncementPayload := { side : bytes; body : string; created_at : N; signature : bytes }.

Definition unsigned_entries (side : bytes) (body : string) (created_at : N) : list MapEntry :=
  [ entry "body" (text body);
    entry "side" (bytestr side);
    entry "created_at" (uint created_at) ].

Definition encode_unsigned (side : bytes) (body : string) (created_at : N) : bytes :=
  encode_map (unsigned_entries side body created_at).

Definition wire_entries (p : AnnouncementPayload) : list MapEntry :=
  [ entry "body" (text (body p));
    entry "side" (bytestr (side p));
    entry "signature" (bytestr (signature p));
    entry "created_at" (uint (created_at p)) ].

Definition to_wire_bytes (p : AnnouncementPayload) : bytes := encode_map (wire_entries p).

Definition fields : Reader AnnouncementPayload :=
  let e := "Announcement keys not in canonical order" in
  _ ← expect_map 4 "Announcement expected 4 keys, got {n}";
  _ ← expect_key "body" e;
  b ← read_text;
  _ ← expect_key "side" e;
  s ← read_fixed_bytes "side" PUBLIC_KEY_LEN;
  _ ← expect_key "signature" e;
  sg ← read_fixed_bytes "signature" SIGNATURE_LEN;
  _ ← expect_key "created_at" e;
  c ← read_u64;
  mret {| side := s; body := b; created_at := c; signature := sg |}.

Definition unsigned_bytes (p : AnnouncementPayload) : bytes :=
  encode_unsigned (side p) (body p) (created_at p).

Definition wf (p : AnnouncementPayload) : Prop :=
  wf_text (body p) /\ blen (side p) = PUBLIC_KEY_LEN /\ blen (signature p) = SIGNATURE_LEN /\
  created_at p < u64_size.

Section Signed.
Context `{Crypto}.

Definition sign (side_key : SideKey) (body : string) (created_at : N) : result AnnouncementPayload :=
  let pk := public_bytes side_key in
  let unsigned := encode_unsigned pk body created_at in
  let digest := blake3 unsigned in
  Ok {| side := pk; body := body; created_at := created_at; signature := side_sign side_key digest |}.

Definition from_wire_bytes (bs : bytes) : result AnnouncementPayload :=
  p ← decode_with (p ← fields; _ ← check_end (Error.CborDecode "trailing bytes after Announcement"); mret p) bs;
  _ ← verify_signed (side p) (unsigned_bytes p) (signature p);
  _ ← ensure (bool_decide (to_wire_bytes p = bs))
        (Error.CborNotCanonical "Announcement bytes are not canonical re-encode");
  Ok p.

End Signed.
End Announcement.

(** ** [DirectoryEntryPayload] (0x66) *)

Module DirectoryEntry.

Record DirectoryEntryPayload := {
  side : bytes;
  handle : string;
  attestations : list HandleAttest.HandleAttestPayload
}.

(** Each attestation as an opaque byte string. *)
Definition attestation_value (a : HandleAttest.HandleAttestPayload) : bytes :=
  bytestr (HandleAttest.to_wire_bytes a).

Definition entries (p : DirectoryEntryPayload) : list MapEntry :=
  [ entry "side" (bytestr (side p));
    entry "handle" (text (handle p));
    entry "attestations" (write_array attestation_value (attestations p)) ].

Definition encode (p : DirectoryEntryPayload) : bytes := encode_map (entries p).

Section Signed.
Context `{Crypto}.

Definition read_attestation : Reader HandleAttest.HandleAttestPayload :=
  att_bytes ← read_bytes;
  lift (HandleAttest.from_wire_bytes att_bytes).

Definition fields : Reader DirectoryEntryPayload :=
  _ ← expect_map 3 "DirectoryEntry expected 3 keys, got {n}";
  _ ← expect_key "side" "DirectoryEntry expects 'side' first";
  s ← read_fixed_bytes "side" PUBLIC_KEY_LEN;
  _ ← expect_key "handle" "DirectoryEntry expects 'handle' second";
  h ← read_text;
  _ ← expect_key "attestations" "DirectoryEntry expects 'attestations' third";
  l ← read_array read_attestation;
  mret {| side := s; handle := h; attestations := l |}.

Definition decode (bs : bytes) : result DirectoryEntryPayload :=
  decode_with (p ← fields; _ ← check_end (Error.CborDecode "trailing bytes after DirectoryEntry"); mret p) bs.

Definition wf (p : DirectoryEntryPayload) : Prop :=
  blen (side p) = PUBLIC_KEY_LEN /\ wf_text (handle p) /\
  (Forall (fun a => HandleAttest.valid a /\ wf_bytes (HandleAttest.to_wire_bytes a)) (attestations p) /\
   N.of_nat (length (attestations p)) <= MAX_CBOR_ENTRIES).

End Signed.
End DirectoryEntry.

(** ** Codecs *)

#[export] Instance handle_resolve_codec : Codec HandleResolve.encode HandleResolve.fields HandleResolve.wf.
Proof. unfold HandleResolve.encode, HandleResolve.fields, HandleResolve.wf, HandleResolve.entries. solve_codec. Qed.

#[export] Instance handle_attest_codec :
  Codec HandleAttest.to_wire_bytes HandleAttest.fields HandleAttest.wf.
Proof. unfold HandleAttest.to_wire_bytes, HandleAttest.fields, HandleAttest.wf, HandleAttest.wire_entries. solve_codec. Qed.

#[export] Instance page_publish_codec : Codec PagePublish.to_wire_bytes PagePublish.fields PagePublish.wf.
Proof. unfold PagePublish.to_wire_bytes, PagePublish.fields, PagePublish.wf, PagePublish.wire_entries. solve_codec. Qed.

#[export] Instance page_fetch_codec : Codec PageFetch.encode PageFetch.fields PageFetch.wf.
Proof. unfold PageFetch.encode, PageFetch.fields, PageFetch.wf, PageFetch.entries. solve_codec. Qed.

#[export] Instance announcement_codec :
  Codec Announcement.to_wire_bytes Announcement.fields Announcement.wf.
Proof. unfold Announcement.to_wire_bytes, Announcement.fields, Announcement.wf, Announcement.wire_entries. solve_codec. Qed.

Section Signed.
Context `{Crypto}.

Lemma handle_attest_exact bs p :
  blen bs < u64_size ->
  HandleAttest.from_wire_bytes bs = Ok p <-> HandleAttest.valid p /\ bs = HandleAttest.to_wire_bytes p.
Proof.
  intros F. unfold HandleAttest.valid. rewrite <-(assoc and). apply signed_wire_ok. intros x.
  rewrite (decode_exact HandleAttest.to_wire_bytes HandleAttest.fields _ _ bs x F). tauto.
Qed.

Lemma page_publish_exact bs p :
  blen bs < u64_size ->
  PagePublish.from_wire_bytes bs = Ok p <-> PagePublish.valid p /\ bs = PagePublish.to_wire_bytes p.
Proof.
  intros F. unfold PagePublish.valid. rewrite <-(assoc and). apply signed_wire_ok. intros x.
  rewrite (decode_exact PagePublish.to_wire_bytes PagePublish.fields _ _ bs x F). tauto.
Qed.

#[export] Instance page_value_codec :
  Codec PageDeliver.page_value PageDeliver.read_page
    (fun p => PagePublish.valid p /\ wf_bytes (PagePublish.to_wire_bytes p)).
Proof. apply codec_embedded, page_publish_exact. Qed.

#[export] Instance page_deliver_codec : Codec PageDeliver.encode PageDeliver.fields PageDeliver.wf.
Proof. unfold PageDeliver.encode, PageDeliver.fields, PageDeliver.wf, PageDeliver.entries. solve_codec. Qed.

#[export] Instance attestation_value_codec :
  Codec DirectoryEntry.attestation_value DirectoryEntry.read_attestation
    (fun a => HandleAttest.valid a /\ wf_bytes (HandleAttest.to_wire_bytes a)).
Proof. apply codec_embedded, handle_attest_exact. Qed.

#[export] Instance directory_entry_codec :
  Codec DirectoryEntry.encode DirectoryEntry.fields DirectoryEntry.wf.
Proof. unfold DirectoryEntry.encode, DirectoryEntry.fields, DirectoryEntry.wf, DirectoryEntry.entries. solve_codec. Qed.

End Signed.

(** ** The encodings are canonical *)

Lemma handle_attest_unsigned_canonical p :
  HandleAttest.wf p -> Canonical (HandleAttest.unsigned_bytes p).
Proof.
  unfold HandleAttest.wf, HandleAttest.unsigned_bytes, HandleAttest.encode_unsigned,
    HandleAttest.unsigned_entries. intros Hwf. destruct_and?. canon.
Qed.

Lemma handle_attest_canonical p : HandleAttest.wf p -> Canonical (HandleAttest.to_wire_bytes p).
Proof. unfold HandleAttest.wf, HandleAttest.to_wire_bytes, HandleAttest.wire_entries. intros Hwf. destruct_and?. canon. Qed.
Lemma page_publish_canonical p : PagePublish.wf p -> Canonical (PagePublish.to_wire_bytes p).
Proof. unfold PagePublish.wf, PagePublish.to_wire_bytes, PagePublish.wire_entries. intros Hwf. destruct_and?. canon. Qed.
Lemma announcement_canonical p : Announcement.wf p -> Canonical (Announcement.to_wire_bytes p).
Proof. unfold Announcement.wf, Announcement.to_wire_bytes, Announcement.wire_entries. intros Hwf. destruct_and?. canon. Qed.

(** ** Properties *)

(** The seven public payloads are accepted exactly when they are the
    encoding of a well-formed record; the signed ones must carry a signature
    of their side, the page inside a delivery and every attestation of a
    directory entry included. *)
Theorem public_payloads_exact `{Crypto} bs (F : blen bs < u64_size) :
  (forall p, HandleResolve.decode bs = Ok p <-> HandleResolve.wf p /\ bs = HandleResolve.encode p) /\
  (forall p, HandleAttest.from_wire_bytes bs = Ok p <->
     HandleAttest.valid p /\ bs = HandleAttest.to_wire_bytes p) /\
  (forall p, PagePublish.from_wire_bytes bs = Ok p <->
     PagePublish.valid p /\ bs = PagePublish.to_wire_bytes p) /\
  (forall p, PageFetch.decode bs = Ok p <-> PageFetch.wf p /\ bs = PageFetch.encode p) /\
  (forall p, PageDeliver.decode bs = Ok p <-> PageDeliver.wf p /\ bs = PageDeliver.encode p) /\
  (forall p, Announcement.from_wire_bytes bs = Ok p <->
     Announcement.wf p /\
     signed_by (Announcement.side p) (Announcement.unsigned_bytes p) (Announcement.signature p) /\
     bs = Announcement.to_wire_bytes p) /\
  (forall p, DirectoryEntry.decode bs = Ok p <->
     DirectoryEntry.wf p /\ bs = DirectoryEntry.encode p).
Proof.
  split_and!; intros p.
  - exact (decode_exact HandleResolve.encode HandleResolve.fields _ _ bs p F).
  - by apply handle_attest_exact.
  - by apply page_publish_exact.
  - exact (decode_exact PageFetch.encode PageFetch.fields _ _ bs p F).
  - exact (decode_exact PageDeliver.encode PageDeliver.fields _ _ bs p F).
  - apply signed_wire_ok. intros x.
    rewrite (decode_exact Announcement.to_wire_bytes Announcement.fields _ _ bs x F). tauto.
  - exact (decode_exact DirectoryEntry.encode DirectoryEntry.fields _ _ bs p F).
Qed.

(** A claim of a handle is bound to its domain: the bytes a side signs for
    two claims are equal only if the claims name the same side, local part,
    domain and time, so a claim signed for one domain is not the claim of the
    same name under another. *)
Theorem handle_claim_bound_to_domain p q
    (Wp : HandleAttest.wf p) (Wq : HandleAttest.wf q)
    (E : HandleAttest.unsigned_bytes p = HandleAttest.unsigned_bytes q) :
  HandleAttest.domain p = HandleAttest.domain q /\
  HandleAttest.display p = HandleAttest.display q /\
  HandleAttest.side p = HandleAttest.side q /\ HandleAttest.issued_at p = HandleAttest.issued_at q.
Proof.
  assert (forall x, HandleAttest.wf x -> Forall (fun e => Canonical (value_bytes e))
    (HandleAttest.unsigned_entries (HandleAttest.side x) (HandleAttest.handle_local x)
       (HandleAttest.domain x) (HandleAttest.issued_at x))) as Hc.
  { unfold HandleAttest.wf, HandleAttest.unsigned_entries. intros x Hx. destruct_and?.
    repeat (apply Forall_cons; split); [..|by apply Forall_nil]; canon. }
  apply encode_map_inj in E; [|reflexivity|by apply Hc..].
  destruct Wp as (?&?&?&_&?), Wq as (?&?&?&_&?). injection E as Es Ed Ei Eh.
  apply bytestr_inj in Es; [|unfold wf_bytes, PUBLIC_KEY_LEN, u64_size in *; lia..].
  apply text_inj in Ed, Eh; [|done..]. apply uint_inj in Ei; [|done..].
  unfold HandleAttest.display. by rewrite Es, Ed, Ei, Eh.
Qed.

(** ** Concrete instances *)

Module PublicExamples.
Import Toy.

Definition attest (local domain : string) : HandleAttest.HandleAttestPayload :=
  {| HandleAttest.side := public_bytes side; HandleAttest.handle_local := local;
     HandleAttest.domain := domain; HandleAttest.issued_at := 5;
     HandleAttest.signature := side_sign side (blake3 (HandleAttest.encode_unsigned (public_bytes side) local domain 5)) |}.

Definition directory : DirectoryEntry.DirectoryEntryPayload :=
  {| DirectoryEntry.side := public_bytes side; DirectoryEntry.handle := "omar";
     DirectoryEntry.attestations := [attest "omar" "sidevers.com"; attest "omar" "example.com"] |}.

Example displayed : HandleAttest.display (attest "omar" "sidevers.com") = "omar@sidevers.com".
Proof. reflexivity. Qed.

Lemma public_payloads_exact_witness :
  DirectoryEntry.wf directory /\ DirectoryEntry.encode directory = DirectoryEntry.encode directory.
Proof.
  destruct (public_payloads_exact (DirectoryEntry.encode directory) eq_refl) as (_ & _ & _ & _ & _ & _ & D).
  apply D. vm_compute. reflexivity.
Defined.

Lemma attest_wf : HandleAttest.wf (attest "omar" "sidevers.com").
Proof. vm_compute. repeat split; discriminate. Qed.

Lemma handle_claim_bound_to_domain_witness :
  HandleAttest.domain (attest "omar" "sidevers.com") = HandleAttest.domain (attest "omar" "sidevers.com") /\
  HandleAttest.display (attest "omar" "sidevers.com") = HandleAttest.display (attest "omar" "sidevers.com") /\
  HandleAttest.side (attest "omar" "sidevers.com") = HandleAttest.side (attest "omar" "sidevers.com") /\
  HandleAttest.issued_at (attest "omar" "sidevers.com") = HandleAttest.issued_at (attest "omar" "sidevers.com").
Proof. apply handle_claim_bound_to_domain; [exact attest_wf..|reflexivity]. Defined.

(** An entry may list the valid claims of another side: the decoder checks
    each claim's own signature, not its relation to the entry. *)
Definition foreign_entry : DirectoryEntry.DirectoryEntryPayload :=
  {| DirectoryEntry.side := public_bytes side2; DirectoryEntry.handle := "eve";
     DirectoryEntry.attestations := [attest "omar" "sidevers.com"] |}.

Example foreign_entry_accepted :
  DirectoryEntry.decode (DirectoryEntry.encode foreign_entry) = Ok foreign_entry.
Proof. vm_compute. reflexivity. Qed.

End PublicExamples.
