(* ===== verification/Payload.v ===== *)
(** Payload encryption to one recipient ([sidevers-core/src/payload.rs]).

    The primitives (x25519-dalek, the Edwards-to-Montgomery map of
    ed25519-dalek, sha2, chacha20poly1305) are the class [Ecies]; [EciesLaws]
    states that Diffie-Hellman commutes on the X25519 keys that belong to two
    Ed25519 seeds and that decryption inverts encryption. *)

From S2P Require Import Prelude Keys Envelope.

Open Scope N_scope.

Class Ecies := {
  sha512 : bytes -> bytes;
  (** [StaticSecret::from(scalar).diffie_hellman(&public)] *)
  x_diffie_hellman : bytes -> bytes -> bytes;
  (** [PublicKey::from(&secret).to_bytes()], for an ephemeral or static secret *)
  x_public : bytes -> bytes;
  (** [VerifyingKey::to_montgomery().to_bytes()] *)
  ed_to_montgomery : bytes -> bytes;
  (** [ChaCha20Poly1305::new(key).encrypt(nonce, Payload { msg, aad })] *)
  aead_encrypt : bytes -> bytes -> bytes -> bytes -> option bytes;
  aead_decrypt : bytes -> bytes -> bytes -> bytes -> option bytes
}.

Class EciesLaws `{Crypto, Ecies} : Prop := {
  dh_commutes : forall s1 s2,
    x_diffie_hellman (take 32 (sha512 s1)) (ed_to_montgomery (ed_public s2))
    = x_diffie_hellman (take 32 (sha512 s2)) (ed_to_montgomery (ed_public s1));
  x_public_length : forall s, blen (x_public s) = 32;
  x_dh_commutes : forall s1 s2,
    x_diffie_hellman s1 (x_public s2) = x_diffie_hellman s2 (x_public s1);
  aead_decrypt_encrypt : forall k n aad m c,
    aead_encrypt k n aad m = Some c -> aead_decrypt k n aad c = Some m
}.

Definition PAYLOAD_HKDF_INFO : bytes := as_bytes "sidevers/v1/payload".
Definition AEAD_NONCE_LEN : N := 12.

Definition aead_nonce_from_envelope_nonce (envelope_nonce : bytes) : bytes :=
  take (N.to_nat AEAD_NONCE_LEN) envelope_nonce.

Section Payload.
Context `{Crypto, Ecies}.

Definition x25519_secret_from_side (side : SideKey) : bytes := take 32 (sha512 (signing side)).

Definition x25519_public_from_ed25519 (pk : PublicKey) : bytes := ed_to_montgomery (pk_bytes pk).

Definition derive_aead_key (sender_side : SideKey) (recipient_pk : PublicKey)
    (envelope_nonce : bytes) : bytes :=
  let secret := x25519_secret_from_side sender_side in
  let public := x25519_public_from_ed25519 recipient_pk in
  let shared := x_diffie_hellman secret public in
  hkdf_sha512 envelope_nonce shared PAYLOAD_HKDF_INFO 32.

Definition seal (plaintext : bytes) (sender_side : SideKey) (recipient_pk_bytes : bytes)
    (envelope_nonce aad : bytes) : result bytes :=
  recipient_pk ← pk_from_bytes recipient_pk_bytes;
  let key_bytes := derive_aead_key sender_side recipient_pk envelope_nonce in
  let nonce_bytes := aead_nonce_from_envelope_nonce envelope_nonce in
  ok_or (aead_encrypt key_bytes nonce_bytes aad plaintext) (Error.Invariant "AEAD encrypt failed").

Definition open (ciphertext : bytes) (recipient_side : SideKey) (sender_pk_bytes : bytes)
    (envelope_nonce aad : bytes) : result bytes :=
  sender_pk ← pk_from_bytes sender_pk_bytes;
  let key_bytes := derive_aead_key recipient_side sender_pk envelope_nonce in
  let nonce_bytes := aead_nonce_from_envelope_nonce envelope_nonce in
  ok_or (aead_decrypt key_bytes nonce_bytes aad ciphertext) Error.DecryptionFailed.

End Payload.

(** A concrete instance: the sum of the keys as the shared secret, and a
    cipher that appends the key, the nonce and the associated data. *)
Module ToyEcies.

Definition tag (k n aad : bytes) : bytes := k ++ n ++ aad.

Definition xor_sum (s p : bytes) : bytes :=
  zip_with (fun a b => as_u8 (Byte.to_N a + Byte.to_N b)) s p.

Lemma xor_sum_comm s p : xor_sum s p = xor_sum p s.
Proof.
  unfold xor_sum. revert p. induction s as [|x l IH]; intros [|y l']; cbn; [done..|].
  by rewrite N.add_comm, IH.
Qed.

#[export] Instance toy_ecies : Ecies := {|
  sha512 m := Toy.pad 64 m;
  x_diffie_hellman s p := xor_sum (Toy.pad 32 s) p;
  x_public s := Toy.pad 32 s;
  ed_to_montgomery p := p;
  aead_encrypt k n aad m := Some (m ++ tag k n aad);
  aead_decrypt k n aad c :=
    let m := take (length c - length (tag k n aad)) c in
    if decide (c = m ++ tag k n aad) then Some m else None
|}.

#[export] Instance toy_ecies_laws : @EciesLaws Toy.toy toy_ecies.
Proof.
  split.
  - intros s1 s2. assert (forall s, Toy.pad 32 (take 32 (Toy.pad 64 s)) = Toy.pad 32 s) as Ht.
    { intros s. pose proof (Toy.pad_length 64 s) as L.
      assert (length (take 32 (Toy.pad 64 s)) = 32%nat) as L2 by (rewrite length_take, L; reflexivity).
      unfold Toy.pad at 1. rewrite take_app_le, take_take by lia. unfold Toy.pad.
      rewrite take_take. change (32 `min` 32 `min` 64)%nat with 32%nat.
      rewrite !take_app, !take_replicate. do 2 f_equal. lia. }
    cbn [x_diffie_hellman ed_to_montgomery sha512 ed_public toy_ecies Toy.toy].
    by rewrite !Ht, xor_sum_comm.
  - intros s. cbn. unfold blen. by rewrite Toy.pad_length.
  - intros s1 s2. apply xor_sum_comm.
  - intros k n aad m c [= <-]. cbn. rewrite length_app, Nat.add_sub, take_app_length.
    by rewrite decide_True.
Qed.

End ToyEcies.

(** ** Properties *)

Lemma opens_sealed `{CryptoLaws, !Ecies, !EciesLaws} pt a b nonce aad ct :
  seal pt a (public_bytes b) nonce aad = Ok ct ->
  open ct b (public_bytes a) nonce aad = Ok pt.
Proof.
  unfold seal, open, pk_from_bytes, public_bytes in *. rewrite !ed_public_valid in *.
  cbn [mbind result_bind] in *. intros Hs%ok_or_ok. apply ok_or_ok.
  assert (derive_aead_key b {| pk_bytes := ed_public (signing a) |} nonce
          = derive_aead_key a {| pk_bytes := ed_public (signing b) |} nonce) as ->.
  { unfold derive_aead_key, x25519_secret_from_side, x25519_public_from_ed25519. cbn [pk_bytes].
    by rewrite dh_commutes. }
  by apply aead_decrypt_encrypt.
Qed.

(** The recipient opens what the sender sealed for it, with the same nonce
    and associated data. *)
Theorem open_seal `{CryptoLaws, !Ecies, !EciesLaws} pt a b nonce aad ct
    (Hs : seal pt a (public_bytes b) nonce aad = Ok ct) :
  open ct b (public_bytes a) nonce aad = Ok pt.
Proof. by apply opens_sealed. Qed.

Import Toy ToyEcies.

Lemma open_seal_witness :
  let pt := as_bytes "hello" in
  let nonce := replicate 16 Byte.x01 in
  exists ct, seal pt Toy.side (public_bytes Toy.side2) nonce [] = Ok ct /\
    open ct Toy.side2 (public_bytes Toy.side) nonce [] = Ok pt.
Proof.
  intros pt nonce. eexists. split; [vm_compute; reflexivity|].
  apply (open_seal pt Toy.side Toy.side2 nonce []). vm_compute. reflexivity.
Defined.
