(* ===== verification/Direct.v ===== *)
(** Direct (unicast) message payloads
    ([sidevers-core/src/messages/direct.rs]): text and media messages,
    receipts and typing indicators. *)

From S2P Require Import Prelude Utf8 Cbor CborCodec CborValue.

Open Scope N_scope.

(** ** Open enumerations: unknown words round-trip as [Other] *)

Module DirectKind.

Inductive t := Text | Image | Voice | File | Other (s : string).

Definition as_str (k : t) : string :=
  match k with
  | Text => "text" | Image => "image" | Voice => "voice" | File => "file" | Other s => s
  end.

Definition parse (s : string) : t :=
  if String.eqb s "text" then Text
  else if String.eqb s "image" then Image
  else if String.eqb s "voice" then Voice
  else if String.eqb s "file" then File
  else Other s.

End DirectKind.

Module ReceiptStatus.

Inductive t := Delivered | Read | Other (s : string).

Definition as_str (k : t) : string :=
  match k with Delivered => "delivered" | Read => "read" | Other s => s end.

Definition parse (s : string) : t :=
  if String.eqb s "delivered" then Delivered
  else if String.eqb s "read" then Read
  else Other s.

End ReceiptStatus.

Module TypingState.

Inductive t := Started | Stopped | Other (s : string).

Definition as_str (k : t) : string :=
  match k with Started => "started" | Stopped => "stopped" | Other s => s end.

Definition parse (s : string) : t :=
  if String.eqb s "started" then Started
  else if String.eqb s "stopped" then Stopped
  else Other s.

End TypingState.

(** ** DirectMessage (0x20) *)

Module DirectMessage.

Inductive DirectBody := Text (s : string) | ReferenceBytes (b : bytes).

Record t := {
  kind : DirectKind.t;
  body : DirectBody;
  reply_to : option bytes;
  thread : option bytes
}.

(** [body_value] of the encoder. *)
Definition body_value (b : DirectBody) : bytes :=
  match b with Text s => text s | ReferenceBytes b => b end.

Definition entries (p : t) : list MapEntry :=
  [ entry "body" (body_value (body p));
    entry "kind" (text (DirectKind.as_str (kind p)));
    entry "thread" (or_null bytestr (thread p));
    entry "reply_to" (or_null bytestr (reply_to p)) ].

Definition encode (p : t) : bytes := encode_map (entries p).

(** The [body] arm: text, or the bytes of a nested map kept verbatim. *)
Definition read_body : Reader DirectBody :=
  next ← peek (Error.CborDecode "missing body");
  let major := N.shiftr (Byte.to_N next) 5 in
  if major =? 3 then s ← read_text; mret (Text s)
  else if major =? 5 then b ← capture skip_value; mret (ReferenceBytes b)
  else fail (Error.CborDecode "DirectMessage body major type unexpected: {major}").

Definition read_kind : Reader DirectKind.t :=
  s ← read_text; mret (DirectKind.parse s).

Definition fields : Reader t :=
  let e := "DirectMessage keys not in canonical order" in
  _ ← expect_map 4 "DirectMessage expected 4 keys, got {n}";
  _ ← expect_key "body" e;
  b ← read_body;
  _ ← expect_key "kind" e;
  k ← read_kind;
  _ ← expect_key "thread" e;
  th ← read_optional_fixed "thread" 32;
  _ ← expect_key "reply_to" e;
  rt ← read_optional_fixed "reply_to" 32;
  mret {| kind := k; body := b; reply_to := rt; thread := th |}.

Definition decode (bs : bytes) : result t :=
  decode_with (p ← fields; _ ← check_end (Error.CborDecode "trailing bytes after DirectMessage"); mret p) bs.

(** A media body is one CBOR map that [skip_value] can walk over. *)
Definition wf_body (b : DirectBody) : Prop :=
  match b with
  | Text s => wf_text s
  | ReferenceBytes b => exists v, (skips MAX_CBOR_SKIP_DEPTH v /\ major_of v = 5) /\ b = enc v
  end.

Definition wf_kind (k : DirectKind.t) : Prop :=
  wf_text (DirectKind.as_str k) /\ DirectKind.parse (DirectKind.as_str k) = k.

Definition wf (p : t) : Prop :=
  wf_body (body p) /\ wf_kind (kind p) /\
  from_option (fun b => blen b = 32) True (thread p) /\
  from_option (fun b => blen b = 32) True (reply_to p).

End DirectMessage.

(** ** DirectReceipt (0x21) *)

Module DirectReceipt.

Record t := { message_ref : bytes; status : ReceiptStatus.t }.

Definition entries (p : t) : list MapEntry :=
  [ entry "ref" (bytestr (message_ref p));
    entry "status" (text (ReceiptStatus.as_str (status p))) ].

Definition encode (p : t) : bytes := encode_map (entries p).

Definition read_status : Reader ReceiptStatus.t :=
  s ← read_text; mret (ReceiptStatus.parse s).

Definition fields : Reader t :=
  _ ← expect_map 2 "DirectReceipt expected 2 keys, got {n}";
  _ ← expect_key "ref" "DirectReceipt expects 'ref' first";
  rb ← read_fixed_bytes "ref" 32;
  _ ← expect_key "status" "DirectReceipt expects 'status' second";
  st ← read_status;
  mret {| message_ref := rb; status := st |}.

Definition decode (bs : bytes) : result t :=
  decode_with (p ← fields; _ ← check_end (Error.CborDecode "trailing bytes after DirectReceipt"); mret p) bs.

Definition wf_status (s : ReceiptStatus.t) : Prop :=
  wf_text (ReceiptStatus.as_str s) /\ ReceiptStatus.parse (ReceiptStatus.as_str s) = s.

Definition wf (p : t) : Prop := blen (message_ref p) = 32 /\ wf_status (status p).

End DirectReceipt.

(** ** DirectTyping (0x22) *)

Module DirectTyping.

Record t := { state : TypingState.t }.

Definition entries (p : t) : list MapEntry :=
  [ entry "state" (text (TypingState.as_str (state p))) ].

Definition encode (p : t) : bytes := encode_map (entries p).

Definition read_state : Reader TypingState.t :=
  s ← read_text; mret (TypingState.parse s).

Definition fields : Reader t :=
  _ ← expect_map 1 "DirectTyping expected 1 key, got {n}";
  _ ← expect_key "state" "DirectTyping expects 'state'";
  st ← read_state;
  mret {| state := st |}.

Definition decode (bs : bytes) : result t :=
  decode_with (p ← fields; _ ← check_end (Error.CborDecode "trailing bytes after DirectTyping"); mret p) bs.

Definition wf_state (s : TypingState.t) : Prop :=
  wf_text (TypingState.as_str s) /\ TypingState.parse (TypingState.as_str s) = s.

Definition wf (p : t) : Prop := wf_state (state p).

End DirectTyping.

(** ** Words *)

Ltac word_parse f := unfold f; repeat case_match; try done;
  match goal with H : String.eqb _ _ = true |- _ => by apply String.eqb_eq in H end.

Lemma kind_as_str_parse s : DirectKind.as_str (DirectKind.parse s) = s.
Proof. word_parse DirectKind.parse. Qed.

Lemma status_as_str_parse s : ReceiptStatus.as_str (ReceiptStatus.parse s) = s.
Proof. word_parse ReceiptStatus.parse. Qed.

Lemma state_as_str_parse s : TypingState.as_str (TypingState.parse s) = s.
Proof. word_parse TypingState.parse. Qed.

(** ** Codecs *)

#[export] Instance kind_codec :
  Codec (fun k => text (DirectKind.as_str k)) DirectMessage.read_kind DirectMessage.wf_kind.
Proof. exact (codec_map text read_text wf_text _ _ kind_as_str_parse). Qed.

#[export] Instance status_codec :
  Codec (fun k => text (ReceiptStatus.as_str k)) DirectReceipt.read_status DirectReceipt.wf_status.
Proof. exact (codec_map text read_text wf_text _ _ status_as_str_parse). Qed.

#[export] Instance state_codec :
  Codec (fun k => text (TypingState.as_str k)) DirectTyping.read_state DirectTyping.wf_state.
Proof. exact (codec_map text read_text wf_text _ _ state_as_str_parse). Qed.

#[export] Instance body_codec :
  Codec DirectMessage.body_value DirectMessage.read_body DirectMessage.wf_body.
Proof.
  intros r b r' F. unfold DirectMessage.read_body. rewrite rd_bind_ok.
  assert (forall bs r', capture skip_value r = Ok (bs, r') <->
    (exists v, skips MAX_CBOR_SKIP_DEPTH v /\ bs = enc v) /\ consumes r bs r') as Hcap.
  { intros. by apply capture_ok, skip_value_inner_ok. }
  split.
  - intros (x & r1 & [Hx ->]%peek_ok & H). repeat case_bool; to_prop; [..|done];
      apply rd_bind_ok in H as (y & r1 & Hy & [-> ->]%mret_ok).
    + by apply codec_iff in Hy.
    + apply Hcap in Hy as [(v & Hv & ->) C]. split; [|done]. exists v. split; [|done].
      split; [done|]. pose proof (enc_major v) as Hm. rewrite (consumes_rem _ _ _ C) in Hx.
      destruct (enc v); [done|]. injection Hx as ->. congruence.
  - intros [Hwf C]. destruct b as [s|b]; cbn [DirectMessage.wf_body DirectMessage.body_value] in *.
    + change (text s) with (enc (CText s)) in C.
      destruct (peek_enc (Error.CborDecode "missing body") _ _ _ C) as (x & Hp & Hm).
      exists x, r. split; [done|]. rewrite Hm. cbn [major_of N.eqb Pos.eqb].
      apply rd_bind_ok. exists s, r'. by rewrite codec_iff, mret_ok.
    + destruct Hwf as (v & [Hv Hv5] & ->).
      destruct (peek_enc (Error.CborDecode "missing body") _ _ _ C) as (x & Hp & Hm).
      exists x, r. split; [done|]. rewrite Hm, Hv5. cbn [N.eqb Pos.eqb].
      apply rd_bind_ok. exists (enc v), r'. rewrite Hcap, mret_ok.
      split; [|done]. split; [by exists v|done].
Qed.

#[export] Instance message_codec :
  Codec DirectMessage.encode DirectMessage.fields DirectMessage.wf.
Proof.
  unfold DirectMessage.encode, DirectMessage.fields, DirectMessage.wf, DirectMessage.entries.
  solve_codec.
Qed.

#[export] Instance receipt_codec :
  Codec DirectReceipt.encode DirectReceipt.fields DirectReceipt.wf.
Proof.
  unfold DirectReceipt.encode, DirectReceipt.fields, DirectReceipt.wf, DirectReceipt.entries.
  solve_codec.
Qed.

#[export] Instance typing_codec :
  Codec DirectTyping.encode DirectTyping.fields DirectTyping.wf.
Proof.
  unfold DirectTyping.encode, DirectTyping.fields, DirectTyping.wf, DirectTyping.entries.
  solve_codec.
Qed.

(** ** Properties *)

(** The decoders of the three direct payloads accept exactly the encodings
    of well-formed payloads: decoding inverts encoding, no payload has two
    accepted encodings, and trailing bytes are refused.  A media body is any
    single CBOR map [skip_value] walks over, kept verbatim; a word that is not
    one of the known kinds comes back as it was sent. *)
Theorem direct_payloads_exact bs (F : blen bs < u64_size) :
  (forall p, DirectMessage.decode bs = Ok p <-> DirectMessage.wf p /\ bs = DirectMessage.encode p) /\
  (forall p, DirectReceipt.decode bs = Ok p <-> DirectReceipt.wf p /\ bs = DirectReceipt.encode p) /\
  (forall p, DirectTyping.decode bs = Ok p <-> DirectTyping.wf p /\ bs = DirectTyping.encode p).
Proof. split_and!; intros p; by apply decode_exact; [apply _|]. Qed.

(** ** Concrete instances *)

Module DirectExamples.

(** A reply with a reference as its body. *)
Definition media : DirectMessage.t :=
  {| DirectMessage.kind := DirectKind.Other "sticker";
     DirectMessage.body := DirectMessage.ReferenceBytes (encode_map [entry "size" (uint 300)]);
     DirectMessage.reply_to := Some (replicate 32 Byte.x05); DirectMessage.thread := None |}.

Lemma direct_payloads_exact_witness :
  DirectMessage.wf media /\ DirectMessage.encode media = DirectMessage.encode media.
Proof.
  apply (proj1 (direct_payloads_exact (DirectMessage.encode media) eq_refl) media).
  vm_compute. reflexivity.
Defined.

End DirectExamples.
