(* ===== verification/Handshake.v ===== *)
(** Handshake payloads ([sidevers-core/src/messages/handshake.rs]): Hello
    (0x10), HelloBack (0x11) and Confirm (0x12).  The handshake that
    exchanges them is in [Session] and [Connection]. *)

From S2P Require Import Prelude Utf8 Cbor CborCodec CborValue TextMap.

Open Scope N_scope.

(** [pub mod intent]. *)
Definition DIRECT : N := 1.
Definition STORAGE : N := 2.
Definition GOSSIP : N := 3.
Definition VERSE : N := 4.
Definition PUBLIC_LAYER : N := 5.

Definition EPH_PUB_LEN : N := 32.

(** [encode_array_of_text] / [decode_array_of_text]. *)
Definition encode_array_of_text (items : list string) : bytes := write_array text items.
Definition decode_array_of_text : Reader (list string) := read_array read_text.

(** [encode_capabilities] / [decode_capabilities]. *)
Definition encode_capabilities (m : gmap string N) : bytes := encode_text_map uint m.
Definition decode_capabilities : Reader (gmap string N) :=
  decode_text_map read_u64 "capabilities keys not in canonical order".

Definition wf_extensions (l : list string) : Prop :=
  Forall wf_text l /\ N.of_nat (length l) <= MAX_CBOR_ENTRIES.
Definition wf_capabilities (m : gmap string N) : Prop := wf_text_map (fun n => n < u64_size) m.

Module Hello.

Record t := {
  v_max : N;
  v_min : N;
  extensions : list string;
  eph_pub : bytes;
  intent : N;
  capabilities : gmap string N
}.

Definition entries (p : t) : list MapEntry :=
  [ entry "v_max" (uint (v_max p));
    entry "v_min" (uint (v_min p));
    entry "intent" (uint (intent p));
    entry "eph_pub" (bytestr (eph_pub p));
    entry "extensions" (encode_array_of_text (extensions p));
    entry "capabilities" (encode_capabilities (capabilities p)) ].

Definition encode (p : t) : bytes := encode_map (entries p).

Definition fields : Reader t :=
  let e := "HelloPayload keys not in canonical order" in
  _ ← expect_map 6 "HelloPayload expected 6 keys, got {n}";
  _ ← expect_key "v_max" e;
  vmax ← read_u64;
  _ ← expect_key "v_min" e;
  vmin ← read_u64;
  _ ← expect_key "intent" e;
  i ← read_u8 "intent out of u8 range: {i}";
  _ ← expect_key "eph_pub" e;
  ep ← read_fixed_bytes "eph_pub" EPH_PUB_LEN;
  _ ← expect_key "extensions" e;
  ex ← decode_array_of_text;
  _ ← expect_key "capabilities" e;
  ca ← decode_capabilities;
  mret {| v_max := vmax; v_min := vmin; extensions := ex; eph_pub := ep; intent := i;
          capabilities := ca |}.

Definition decode (bs : bytes) : result t :=
  decode_with (p ← fields; _ ← check_end (Error.CborDecode "trailing bytes after HelloPayload"); mret p) bs.

Definition wf (p : t) : Prop :=
  v_max p < u64_size /\ v_min p < u64_size /\ intent p <= 0xFF /\
  blen (eph_pub p) = EPH_PUB_LEN /\ wf_extensions (extensions p) /\
  wf_capabilities (capabilities p).

End Hello.

Module HelloBack.

Record t := {
  v : N;
  accept : bool;
  reason : option string;
  eph_pub : bytes;
  extensions : list string;
  capabilities : gmap string N
}.

Definition entries (p : t) : list MapEntry :=
  [ entry "v" (uint (v p));
    entry "accept" (boolean (accept p));
    entry "reason" (or_null text (reason p));
    entry "eph_pub" (bytestr (eph_pub p));
    entry "extensions" (encode_array_of_text (extensions p));
    entry "capabilities" (encode_capabilities (capabilities p)) ].

Definition encode (p : t) : bytes := encode_map (entries p).

Definition fields : Reader t :=
  let e := "HelloBackPayload keys not in canonical order" in
  _ ← expect_map 6 "HelloBackPayload expected 6 keys, got {n}";
  _ ← expect_key "v" e;
  vv ← read_u64;
  _ ← expect_key "accept" e;
  ac ← read_bool;
  _ ← expect_key "reason" e;
  re ← read_optional_text "missing reason";
  _ ← expect_key "eph_pub" e;
  ep ← read_fixed_bytes "eph_pub" EPH_PUB_LEN;
  _ ← expect_key "extensions" e;
  ex ← decode_array_of_text;
  _ ← expect_key "capabilities" e;
  ca ← decode_capabilities;
  mret {| v := vv; accept := ac; reason := re; eph_pub := ep; extensions := ex;
          capabilities := ca |}.

Definition decode (bs : bytes) : result t :=
  decode_with (p ← fields; _ ← check_end (Error.CborDecode "trailing bytes after HelloBackPayload"); mret p) bs.

Definition wf (p : t) : Prop :=
  v p < u64_size /\ from_option wf_text True (reason p) /\
  blen (eph_pub p) = EPH_PUB_LEN /\ wf_extensions (extensions p) /\
  wf_capabilities (capabilities p).

End HelloBack.

Module Confirm.

Record t := { proof : bytes }.

Definition entries (p : t) : list MapEntry := [ entry "proof" (bytestr (proof p)) ].

Definition encode (p : t) : bytes := encode_map (entries p).

Definition fields : Reader t :=
  _ ← expect_map 1 "ConfirmPayload expected 1 key, got {n}";
  _ ← expect_key "proof" "ConfirmPayload expects 'proof'";
  pr ← read_fixed_bytes "proof" 32;
  mret {| proof := pr |}.

Definition decode (bs : bytes) : result t :=
  decode_with (p ← fields; _ ← check_end (Error.CborDecode "trailing bytes after Confirm"); mret p) bs.

Definition wf (p : t) : Prop := blen (proof p) = 32.

End Confirm.

(** ** Codecs *)

#[export] Instance extensions_codec :
  Codec encode_array_of_text decode_array_of_text wf_extensions := codec_array text read_text wf_text.

#[export] Instance capabilities_codec :
  Codec encode_capabilities decode_capabilities wf_capabilities :=
  codec_text_map uint read_u64 (fun n => n < u64_size) _.

#[export] Instance hello_codec : Codec Hello.encode Hello.fields Hello.wf.
Proof. unfold Hello.encode, Hello.fields, Hello.wf, Hello.entries. solve_codec. Qed.

#[export] Instance hello_back_codec : Codec HelloBack.encode HelloBack.fields HelloBack.wf.
Proof. unfold HelloBack.encode, HelloBack.fields, HelloBack.wf, HelloBack.entries. solve_codec. Qed.

#[export] Instance confirm_codec : Codec Confirm.encode Confirm.fields Confirm.wf.
Proof. unfold Confirm.encode, Confirm.fields, Confirm.wf, Confirm.entries. solve_codec. Qed.

Lemma Canonical_extensions l : wf_extensions l -> Canonical (encode_array_of_text l).
Proof. intros [Hl Hn]. unfold encode_array_of_text. canon. Qed.

Lemma Canonical_capabilities m : wf_capabilities m -> Canonical (encode_capabilities m).
Proof. apply Canonical_text_map. intros. canon. Qed.

#[export] Hint Resolve Canonical_extensions Canonical_capabilities : sv.

Lemma hello_canonical p : Hello.wf p -> Canonical (Hello.encode p).
Proof. unfold Hello.wf, Hello.encode, Hello.entries. intros Hwf. destruct_and?. canon. Qed.

Lemma hello_back_canonical p : HelloBack.wf p -> Canonical (HelloBack.encode p).
Proof. unfold HelloBack.wf, HelloBack.encode, HelloBack.entries. intros Hwf. destruct_and?. canon. Qed.

Lemma confirm_canonical p : Confirm.wf p -> Canonical (Confirm.encode p).
Proof. unfold Confirm.wf, Confirm.encode, Confirm.entries. intros Hwf. canon. Qed.

(** ** Properties *)

(** The decoders of the three handshake payloads accept exactly the
    encodings of well-formed payloads, each of which is one canonical CBOR
    item; the entries of the capability map come in their sorted order. *)
Theorem handshake_payloads_exact bs (F : blen bs < u64_size) :
  (forall p, Hello.decode bs = Ok p <-> Hello.wf p /\ bs = Hello.encode p) /\
  (forall p, HelloBack.decode bs = Ok p <-> HelloBack.wf p /\ bs = HelloBack.encode p) /\
  (forall p, Confirm.decode bs = Ok p <-> Confirm.wf p /\ bs = Confirm.encode p) /\
  (is_ok (Hello.decode bs) || is_ok (HelloBack.decode bs) || is_ok (Confirm.decode bs) = true ->
   Canonical bs).
Proof.
  assert (forall p, Hello.decode bs = Ok p <-> Hello.wf p /\ bs = Hello.encode p) as H1
    by (intros p; by apply decode_exact; [apply _|]).
  assert (forall p, HelloBack.decode bs = Ok p <-> HelloBack.wf p /\ bs = HelloBack.encode p) as H2
    by (intros p; by apply decode_exact; [apply _|]).
  assert (forall p, Confirm.decode bs = Ok p <-> Confirm.wf p /\ bs = Confirm.encode p) as H3
    by (intros p; by apply decode_exact; [apply _|]).
  split_and!; [done..|]. rewrite !orb_true_iff. intros [[H|H]|H].
  - destruct (Hello.decode bs) as [p|]; [|done]. destruct (proj1 (H1 p) eq_refl) as [Hw ->].
    by apply hello_canonical.
  - destruct (HelloBack.decode bs) as [p|]; [|done]. destruct (proj1 (H2 p) eq_refl) as [Hw ->].
    by apply hello_back_canonical.
  - destruct (Confirm.decode bs) as [p|]; [|done]. destruct (proj1 (H3 p) eq_refl) as [Hw ->].
    by apply confirm_canonical.
Qed.

(** ** Concrete instances *)

Module HandshakeExamples.

Definition hello : Hello.t :=
  {| Hello.v_max := 1; Hello.v_min := 1; Hello.extensions := ["x"];
     Hello.eph_pub := replicate 32 Byte.x05; Hello.intent := STORAGE;
     Hello.capabilities := {[ "protocol" := 1; "a" := 300 ]} |}.

Lemma handshake_payloads_exact_witness :
  Hello.wf hello /\ Hello.encode hello = Hello.encode hello.
Proof.
  apply (proj1 (handshake_payloads_exact (Hello.encode hello) eq_refl) hello).
  vm_compute. reflexivity.
Defined.

(** The same map with its two capabilities swapped is refused. *)
Example unsorted_capabilities :
  is_ok (decode_with decode_capabilities
    (head_bytes 5 2 ++ text "protocol" ++ uint 1 ++ text "a" ++ uint 300)) = false.
Proof. vm_compute. reflexivity. Qed.

End HandshakeExamples.
