(* ===== verification/Discovery.v ===== *)
(** Discovery payloads: peer exchange ([sidevers-core/src/messages/peer.rs]),
    store-and-forward ([messages/forward.rs]) and rendezvous
    ([messages/rendezvous.rs]).  None of these decoders checks for trailing
    bytes. *)

From S2P Require Import Prelude Utf8 Cbor CborCodec CborValue.

Open Scope N_scope.

Module PeerAsk.

Record t := { limit : N; intent_filter : option N }.

Definition entries (p : t) : list MapEntry :=
  [ entry "limit" (uint (limit p));
    entry "intent_filter" (or_null uint (intent_filter p)) ].

Definition encode (p : t) : bytes := encode_map (entries p).

(** The [intent_filter] value: null, or a uint that fits [u8]. *)
Definition read_filter : Reader (option N) :=
  b ← peek (Error.CborDecode "missing intent_filter");
  if decide (b = SIMPLE_NULL) then _ ← (_ ← read_bytes_or_null; mret tt); mret None
  else i ← read_u8 "intent out of u8: {v}"; mret (Some i).

Definition fields : Reader t :=
  _ ← expect_map 2 "PeerAsk expected 2 keys, got {n}";
  _ ← expect_key "limit" "expected 'limit' first";
  l ← read_u64;
  _ ← expect_key "intent_filter" "expected 'intent_filter' second";
  i ← read_filter;
  mret {| limit := l; intent_filter := i |}.

Definition decode (bs : bytes) : result t := decode_with fields bs.

Definition wf (p : t) : Prop :=
  limit p < u64_size /\ from_option (fun i => i <= 0xFF) True (intent_filter p).

End PeerAsk.

(** [encode_u8_array] / [decode_u8_array], [encode_text_array] /
    [decode_text_array] of [peer.rs]. *)
Definition encode_u8_array (items : list N) : bytes := write_array uint items.
Definition decode_u8_array : Reader (list N) := read_array (read_u8 "intent out of u8: {v}").
Definition encode_text_array (items : list string) : bytes := write_array text items.
Definition decode_text_array : Reader (list string) := read_array read_text.

Definition wf_u8_array (l : list N) : Prop :=
  Forall (fun i => i <= 0xFF) l /\ N.of_nat (length l) <= MAX_CBOR_ENTRIES.
Definition wf_text_array (l : list string) : Prop :=
  Forall wf_text l /\ N.of_nat (length l) <= MAX_CBOR_ENTRIES.

Module PeerInfo.

Record t := {
  address : bytes;
  intents : list N;
  endpoints : list string;
  last_seen : N
}.

Definition entries (p : t) : list MapEntry :=
  [ entry "address" (bytestr (address p));
    entry "intents" (encode_u8_array (intents p));
    entry "endpoints" (encode_text_array (endpoints p));
    entry "last_seen" (uint (last_seen p)) ].

Definition encode (p : t) : bytes := encode_map (entries p).

Definition decode_from : Reader t :=
  let e := "PeerInfo keys not in canonical order" in
  _ ← expect_map 4 "PeerInfo expected 4 keys, got {n}";
  _ ← expect_key "address" e;
  a ← read_fixed_bytes "address" 32;
  _ ← expect_key "intents" e;
  i ← decode_u8_array;
  _ ← expect_key "endpoints" e;
  ep ← decode_text_array;
  _ ← expect_key "last_seen" e;
  ls ← read_u64;
  mret {| address := a; intents := i; endpoints := ep; last_seen := ls |}.

Definition wf (p : t) : Prop :=
  blen (address p) = 32 /\ wf_u8_array (intents p) /\ wf_text_array (endpoints p) /\
  last_seen p < u64_size.

End PeerInfo.

Module PeerTell.

Record t := { peers : list PeerInfo.t }.

Definition entries (p : t) : list MapEntry :=
  [ entry "peers" (write_array PeerInfo.encode (peers p)) ].

Definition encode (p : t) : bytes := encode_map (entries p).

Definition fields : Reader t :=
  _ ← expect_map 1 "PeerTell expected 1 key, got {n}";
  _ ← expect_key "peers" "expected 'peers'";
  ps ← read_array PeerInfo.decode_from;
  mret {| peers := ps |}.

Definition decode (bs : bytes) : result t := decode_with fields bs.

Definition wf (p : t) : Prop :=
  Forall PeerInfo.wf (peers p) /\ N.of_nat (length (peers p)) <= MAX_CBOR_ENTRIES.

End PeerTell.

Module ForwardStore.

Record t := { envelope : bytes; recipient : bytes; ttl_secs : N }.

Definition entries (p : t) : list MapEntry :=
  [ entry "envelope" (bytestr (envelope p));
    entry "ttl_secs" (uint (ttl_secs p));
    entry "recipient" (bytestr (recipient p)) ].

Definition encode (p : t) : bytes := encode_map (entries p).

Definition fields : Reader t :=
  _ ← expect_map 3 "ForwardStore expected 3 keys, got {n}";
  _ ← expect_key "envelope" "expected 'envelope' first";
  e ← read_bytes;
  _ ← expect_key "ttl_secs" "expected 'ttl_secs' second";
  t ← read_u64;
  _ ← expect_key "recipient" "expected 'recipient' third";
  b ← read_fixed_bytes "recipient" 32;
  mret {| envelope := e; recipient := b; ttl_secs := t |}.

Definition decode (bs : bytes) : result t := decode_with fields bs.

Definition wf (p : t) : Prop :=
  wf_bytes (envelope p) /\ ttl_secs p < u64_size /\ blen (recipient p) = 32.

End ForwardStore.

Module ForwardDeliver.

Record t := { envelope : bytes; stored_at : N }.

Definition entries (p : t) : list MapEntry :=
  [ entry "envelope" (bytestr (envelope p));
    entry "stored_at" (uint (stored_at p)) ].

Definition encode (p : t) : bytes := encode_map (entries p).

Definition fields : Reader t :=
  _ ← expect_map 2 "ForwardDeliver expected 2 keys, got {n}";
  _ ← expect_key "envelope" "expected 'envelope' first";
  e ← read_bytes;
  _ ← expect_key "stored_at" "expected 'stored_at' second";
  s ← read_u64;
  mret {| envelope := e; stored_at := s |}.

Definition decode (bs : bytes) : result t := decode_with fields bs.

Definition wf (p : t) : Prop := wf_bytes (envelope p) /\ stored_at p < u64_size.

End ForwardDeliver.

Module Rendezvous.

Record t := { target : bytes }.

Definition entries (p : t) : list MapEntry := [ entry "target" (bytestr (target p)) ].

Definition encode (p : t) : bytes := encode_map (entries p).

Definition fields : Reader t :=
  _ ← expect_map 1 "Rendezvous expected 1 key, got {n}";
  _ ← expect_key "target" "expected 'target'";
  b ← read_fixed_bytes "target" 32;
  mret {| target := b |}.

Definition decode (bs : bytes) : result t := decode_with fields bs.

Definition wf (p : t) : Prop := blen (target p) = 32.

End Rendezvous.

Module RendezvousAck.

Record t := { target : bytes; endpoints : list string }.

Definition entries (p : t) : list MapEntry :=
  [ entry "target" (bytestr (target p));
    entry "endpoints" (encode_text_array (endpoints p)) ].

Definition encode (p : t) : bytes := encode_map (entries p).

Definition fields : Reader t :=
  _ ← expect_map 2 "RendezvousAck expected 2 keys, got {n}";
  _ ← expect_key "target" "expected 'target' first";
  b ← read_fixed_bytes "target" 32;
  _ ← expect_key "endpoints" "expected 'endpoints' second";
  ep ← decode_text_array;
  mret {| target := b; endpoints := ep |}.

Definition decode (bs : bytes) : result t := decode_with fields bs.

Definition wf (p : t) : Prop := blen (target p) = 32 /\ wf_text_array (endpoints p).

End RendezvousAck.

(** ** Codecs *)

#[export] Instance u8_array_codec : Codec encode_u8_array decode_u8_array wf_u8_array :=
  codec_array uint (read_u8 _) _.

#[export] Instance text_array_codec : Codec encode_text_array decode_text_array wf_text_array :=
  codec_array text read_text _.

#[export] Instance filter_codec :
  Codec (or_null uint) PeerAsk.read_filter (from_option (fun i => i <= 0xFF) True) :=
  codec_or_null uint (read_u8 _) _ _ _ read_bytes_or_null_null.

#[export] Instance ask_codec : Codec PeerAsk.encode PeerAsk.fields PeerAsk.wf.
Proof. unfold PeerAsk.encode, PeerAsk.fields, PeerAsk.wf, PeerAsk.entries. solve_codec. Qed.

#[export] Instance info_codec : Codec PeerInfo.encode PeerInfo.decode_from PeerInfo.wf.
Proof. unfold PeerInfo.encode, PeerInfo.decode_from, PeerInfo.wf, PeerInfo.entries. solve_codec. Qed.

#[export] Instance tell_codec : Codec PeerTell.encode PeerTell.fields PeerTell.wf.
Proof. unfold PeerTell.encode, PeerTell.fields, PeerTell.wf, PeerTell.entries. solve_codec. Qed.

#[export] Instance store_codec : Codec ForwardStore.encode ForwardStore.fields ForwardStore.wf.
Proof. unfold ForwardStore.encode, ForwardStore.fields, ForwardStore.wf, ForwardStore.entries. solve_codec. Qed.

#[export] Instance deliver_codec : Codec ForwardDeliver.encode ForwardDeliver.fields ForwardDeliver.wf.
Proof. unfold ForwardDeliver.encode, ForwardDeliver.fields, ForwardDeliver.wf, ForwardDeliver.entries. solve_codec. Qed.

#[export] Instance rendezvous_codec : Codec Rendezvous.encode Rendezvous.fields Rendezvous.wf.
Proof. unfold Rendezvous.encode, Rendezvous.fields, Rendezvous.wf, Rendezvous.entries. solve_codec. Qed.

#[export] Instance ack_codec : Codec RendezvousAck.encode RendezvousAck.fields RendezvousAck.wf.
Proof. unfold RendezvousAck.encode, RendezvousAck.fields, RendezvousAck.wf, RendezvousAck.entries. solve_codec. Qed.

Lemma Canonical_u8_array l : wf_u8_array l -> Canonical (encode_u8_array l).
Proof. intros [Hl Hn]. unfold encode_u8_array. canon. Qed.
Lemma Canonical_text_array l : wf_text_array l -> Canonical (encode_text_array l).
Proof. intros [Hl Hn]. unfold encode_text_array. canon. Qed.
#[export] Hint Resolve Canonical_u8_array Canonical_text_array : sv.

Lemma info_canonical p : PeerInfo.wf p -> Canonical (PeerInfo.encode p).
Proof. unfold PeerInfo.wf, PeerInfo.encode, PeerInfo.entries. intros Hwf. destruct_and?. canon. Qed.
#[export] Hint Resolve info_canonical : sv.

Lemma ask_canonical p : PeerAsk.wf p -> Canonical (PeerAsk.encode p).
Proof. unfold PeerAsk.wf, PeerAsk.encode, PeerAsk.entries. intros Hwf. destruct_and?. canon. Qed.
Lemma tell_canonical p : PeerTell.wf p -> Canonical (PeerTell.encode p).
Proof. unfold PeerTell.wf, PeerTell.encode, PeerTell.entries. intros Hwf. destruct_and?. canon. Qed.
Lemma store_canonical p : ForwardStore.wf p -> Canonical (ForwardStore.encode p).
Proof. unfold ForwardStore.wf, ForwardStore.encode, ForwardStore.entries. intros Hwf. destruct_and?. canon. Qed.
Lemma deliver_canonical p : ForwardDeliver.wf p -> Canonical (ForwardDeliver.encode p).
Proof. unfold ForwardDeliver.wf, ForwardDeliver.encode, ForwardDeliver.entries. intros Hwf. destruct_and?. canon. Qed.
Lemma rendezvous_canonical p : Rendezvous.wf p -> Canonical (Rendezvous.encode p).
Proof. unfold Rendezvous.wf, Rendezvous.encode, Rendezvous.entries. intros Hwf. canon. Qed.
Lemma ack_canonical p : RendezvousAck.wf p -> Canonical (RendezvousAck.encode p).
Proof. unfold RendezvousAck.wf, RendezvousAck.encode, RendezvousAck.entries. intros Hwf. destruct_and?. canon. Qed.

(** ** Properties *)

(** The decoders of the discovery payloads accept a well-formed payload's
    encoding followed by anything: unlike the other payloads they do not look
    at the end of the input, so the same message has many encodings. *)
Theorem discovery_payloads_prefix bs (F : blen bs < u64_size) :
  (forall p, PeerAsk.decode bs = Ok p <-> PeerAsk.wf p /\ exists s, bs = PeerAsk.encode p ++ s) /\
  (forall p, PeerTell.decode bs = Ok p <-> PeerTell.wf p /\ exists s, bs = PeerTell.encode p ++ s) /\
  (forall p, ForwardStore.decode bs = Ok p <->
     ForwardStore.wf p /\ exists s, bs = ForwardStore.encode p ++ s) /\
  (forall p, ForwardDeliver.decode bs = Ok p <->
     ForwardDeliver.wf p /\ exists s, bs = ForwardDeliver.encode p ++ s) /\
  (forall p, Rendezvous.decode bs = Ok p <->
     Rendezvous.wf p /\ exists s, bs = Rendezvous.encode p ++ s) /\
  (forall p, RendezvousAck.decode bs = Ok p <->
     RendezvousAck.wf p /\ exists s, bs = RendezvousAck.encode p ++ s).
Proof. split_and!; intros p; by apply decode_prefix; [apply _|]. Qed.

(** ** Concrete instances *)

Module DiscoveryExamples.

Definition peer : PeerInfo.t :=
  {| PeerInfo.address := replicate 32 Byte.x01; PeerInfo.intents := [1; 3];
     PeerInfo.endpoints := ["127.0.0.1:7777"]; PeerInfo.last_seen := 1700000000 |}.

Definition tell : PeerTell.t := {| PeerTell.peers := [peer; peer] |}.

Lemma discovery_payloads_prefix_witness :
  PeerTell.wf tell /\ exists s, PeerTell.encode tell ++ [Byte.xff] = PeerTell.encode tell ++ s.
Proof.
  apply (proj1 (proj2 (discovery_payloads_prefix (PeerTell.encode tell ++ [Byte.xff]) eq_refl)) tell).
  vm_compute. reflexivity.
Defined.

End DiscoveryExamples.
