(* ===== verification/Records.v ===== *)
(** Signed records that travel outside envelopes: linkage proofs
    ([sidevers-core/src/linkage.rs]) and side retirements
    ([sidevers-core/src/messages/retirement.rs]).  Both are canonical maps
    whose signatures cover the same map without its signature entries. *)

From S2P Require Import Prelude Utf8 Cbor CborCodec CborValue Keys.

Open Scope N_scope.

(** ** Linkage proofs *)

Module Linkage.

Definition LINKAGE_NONCE_LEN : N := 16.

Record LinkageProof := {
  side_a : bytes;
  side_b : bytes;
  issued_at : N;
  nonce : bytes;
  sig_a : bytes;
  sig_b : bytes
}.

Definition unsigned_entries (nonce side_a side_b : bytes) (issued_at : N) : list MapEntry :=
  [ entry "nonce" (bytestr nonce);
    entry "side_a" (bytestr side_a);
    entry "side_b" (bytestr side_b);
    entry "issued_at" (uint issued_at) ].

Definition encode_unsigned (nonce side_a side_b : bytes) (issued_at : N) : bytes :=
  encode_map (unsigned_entries nonce side_a side_b issued_at).

Definition wire_entries (p : LinkageProof) : list MapEntry :=
  [ entry "nonce" (bytestr (nonce p));
    entry "sig_a" (bytestr (sig_a p));
    entry "sig_b" (bytestr (sig_b p));
    entry "side_a" (bytestr (side_a p));
    entry "side_b" (bytestr (side_b p));
    entry "issued_at" (uint (issued_at p)) ].

Definition to_wire_bytes (p : LinkageProof) : bytes := encode_map (wire_entries p).

Definition fields : Reader LinkageProof :=
  let e := "LinkageProof keys not in canonical order" in
  _ ← expect_map 6 "LinkageProof expected 6 keys, got {n}";
  _ ← expect_key "nonce" e;
  n ← read_fixed_bytes "nonce" LINKAGE_NONCE_LEN;
  _ ← expect_key "sig_a" e;
  sa ← read_fixed_bytes "sig_a" SIGNATURE_LEN;
  _ ← expect_key "sig_b" e;
  sb ← read_fixed_bytes "sig_b" SIGNATURE_LEN;
  _ ← expect_key "side_a" e;
  a ← read_fixed_bytes "side_a" PUBLIC_KEY_LEN;
  _ ← expect_key "side_b" e;
  b ← read_fixed_bytes "side_b" PUBLIC_KEY_LEN;
  _ ← expect_key "issued_at" e;
  i ← read_u64;
  mret {| side_a := a; side_b := b; issued_at := i; nonce := n; sig_a := sa; sig_b := sb |}.

Definition unsigned_bytes (p : LinkageProof) : bytes :=
  encode_unsigned (nonce p) (side_a p) (side_b p) (issued_at p).

Definition wf (p : LinkageProof) : Prop :=
  blen (nonce p) = LINKAGE_NONCE_LEN /\ blen (sig_a p) = SIGNATURE_LEN /\
  blen (sig_b p) = SIGNATURE_LEN /\ blen (side_a p) = PUBLIC_KEY_LEN /\
  blen (side_b p) = PUBLIC_KEY_LEN /\ issued_at p < u64_size.

Section Signed.
Context `{Crypto}.

Definition sign_with (a b : SideKey) (issued_at : N) (nonce : bytes) : result LinkageProof :=
  let a_pk := public_bytes a in
  let b_pk := public_bytes b in
  let unsigned := encode_unsigned nonce a_pk b_pk issued_at in
  let digest := blake3 unsigned in
  Ok {| side_a := a_pk; side_b := b_pk; issued_at := issued_at; nonce := nonce;
        sig_a := side_sign a digest; sig_b := side_sign b digest |}.

Definition from_wire_bytes (bs : bytes) : result LinkageProof :=
  p ← decode_with (p ← fields; _ ← check_end (Error.CborDecode "trailing bytes after LinkageProof"); mret p) bs;
  _ ← verify_signed (side_a p) (unsigned_bytes p) (sig_a p);
  _ ← verify_signed (side_b p) (unsigned_bytes p) (sig_b p);
  _ ← ensure (bool_decide (to_wire_bytes p = bs))
        (Error.CborNotCanonical "LinkageProof bytes are not canonical re-encode");
  Ok p.

End Signed.

End Linkage.

(** ** Side retirement *)

Module Retirement.

Record SideRetirementPayload := {
  side : bytes;
  reason : option string;
  retired_at : N;
  signature : bytes
}.

Definition unsigned_entries (side : bytes) (reason : option string) (retired_at : N) : list MapEntry :=
  [ entry "side" (bytestr side);
    entry "reason" (or_null text reason);
    entry "retired_at" (uint retired_at) ].

Definition encode_unsigned (side : bytes) (reason : option string) (retired_at : N) : bytes :=
  encode_map (unsigned_entries side reason retired_at).

Definition wire_entries (p : SideRetirementPayload) : list MapEntry :=
  [ entry "side" (bytestr (side p));
    entry "reason" (or_null text (reason p));
    entry "signature" (bytestr (signature p));
    entry "retired_at" (uint (retired_at p)) ].

Definition to_wire_bytes (p : SideRetirementPayload) : bytes := encode_map (wire_entries p).

Definition fields : Reader SideRetirementPayload :=
  let e := "SideRetirement keys not in canonical order" in
  _ ← expect_map 4 "SideRetirement expected 4 keys, got {n}";
  _ ← expect_key "side" e;
  s ← read_fixed_bytes "side" PUBLIC_KEY_LEN;
  _ ← expect_key "reason" e;
  r ← read_optional_text "missing reason";
  _ ← expect_key "signature" e;
  sg ← read_fixed_bytes "signature" SIGNATURE_LEN;
  _ ← expect_key "retired_at" e;
  t ← read_u64;
  mret {| side := s; reason := r; retired_at := t; signature := sg |}.

Definition unsigned_bytes (p : SideRetirementPayload) : bytes :=
  encode_unsigned (side p) (reason p) (retired_at p).

Definition wf (p : SideRetirementPayload) : Prop :=
  blen (side p) = PUBLIC_KEY_LEN /\ from_option wf_text True (reason p) /\
  blen (signature p) = SIGNATURE_LEN /\ retired_at p < u64_size.

Section Signed.
Context `{Crypto}.

Definition sign (s : SideKey) (retired_at : N) (reason : option string) : result SideRetirementPayload :=
  let pk := public_bytes s in
  let unsigned := encode_unsigned pk reason retired_at in
  let digest := blake3 unsigned in
  Ok {| side := pk; reason := reason; retired_at := retired_at; signature := side_sign s digest |}.

Definition from_wire_bytes (bs : bytes) : result SideRetirementPayload :=
  p ← decode_with (p ← fields; _ ← check_end (Error.CborDecode "trailing bytes after SideRetirement"); mret p) bs;
  _ ← verify_signed (side p) (unsigned_bytes p) (signature p);
  _ ← ensure (bool_decide (to_wire_bytes p = bs))
        (Error.CborNotCanonical "SideRetirement bytes are not canonical re-encode");
  Ok p.

End Signed.

End Retirement.

(** ** Codecs *)

#[export] Instance linkage_codec : Codec Linkage.to_wire_bytes Linkage.fields Linkage.wf.
Proof. unfold Linkage.to_wire_bytes, Linkage.fields, Linkage.wf, Linkage.wire_entries. solve_codec. Qed.

#[export] Instance retirement_codec :
  Codec Retirement.to_wire_bytes Retirement.fields Retirement.wf.
Proof. unfold Retirement.to_wire_bytes, Retirement.fields, Retirement.wf, Retirement.wire_entries. solve_codec. Qed.

Lemma linkage_canonical p : Linkage.wf p -> Canonical (Linkage.to_wire_bytes p).
Proof. unfold Linkage.wf, Linkage.to_wire_bytes, Linkage.wire_entries. intros Hwf. destruct_and?. canon. Qed.

Lemma retirement_canonical p : Retirement.wf p -> Canonical (Retirement.to_wire_bytes p).
Proof. unfold Retirement.wf, Retirement.to_wire_bytes, Retirement.wire_entries. intros Hwf. destruct_and?. canon. Qed.

(** ** Properties *)

Lemma linkage_ok `{Crypto} bs p (F : blen bs < u64_size) :
  Linkage.from_wire_bytes bs = Ok p <->
  Linkage.wf p /\ signed_by (Linkage.side_a p) (Linkage.unsigned_bytes p) (Linkage.sig_a p) /\
  signed_by (Linkage.side_b p) (Linkage.unsigned_bytes p) (Linkage.sig_b p) /\
  bs = Linkage.to_wire_bytes p.
Proof.
  unfold Linkage.from_wire_bytes. rewrite result_bind_ok. split.
  - intros (x & Hx & Hk).
    destruct (proj1 (decode_exact Linkage.to_wire_bytes Linkage.fields Linkage.wf _ bs x F) Hx) as [Hwf Hb].
    apply result_bind_ok in Hk as (u & Ha%verify_signed_ok & Hk).
    apply result_bind_ok in Hk as (u2 & Hsb%verify_signed_ok & Hk).
    by apply result_bind_ok in Hk as (u3 & _ & [= ->]).
  - intros (Hwf & Ha & Hsb & Hb). exists p.
    split; [by apply (decode_exact Linkage.to_wire_bytes Linkage.fields Linkage.wf _ bs p F)|].
    apply result_bind_ok. exists tt. split; [by apply verify_signed_ok|].
    apply result_bind_ok. exists tt. split; [by apply verify_signed_ok|].
    by rewrite bool_decide_eq_true_2.
Qed.

(** A linkage proof is accepted exactly when it is the canonical encoding
    of a record that both of its sides signed over the same four fields. *)
Theorem linkage_exact `{Crypto} bs p (F : blen bs < u64_size) :
  Linkage.from_wire_bytes bs = Ok p <->
  Linkage.wf p /\ signed_by (Linkage.side_a p) (Linkage.unsigned_bytes p) (Linkage.sig_a p) /\
  signed_by (Linkage.side_b p) (Linkage.unsigned_bytes p) (Linkage.sig_b p) /\
  bs = Linkage.to_wire_bytes p.
Proof. by apply linkage_ok. Qed.

(** Two sides of one holder can prove their link: what [sign_with] makes
    from two side keys verifies for anybody, and names both sides. *)
Theorem linkage_sign_verifies `{CryptoLaws} a b t n
    (T : t < u64_size) (N : blen n = Linkage.LINKAGE_NONCE_LEN) :
  exists p, Linkage.sign_with a b t n = Ok p /\
    Linkage.from_wire_bytes (Linkage.to_wire_bytes p) = Ok p /\
    Linkage.side_a p = public_bytes a /\ Linkage.side_b p = public_bytes b.
Proof.
  eexists. split; [reflexivity|]. split; [|done].
  match goal with |- Linkage.from_wire_bytes (Linkage.to_wire_bytes ?q) = _ => set (p := q) end.
  assert (Linkage.wf p) as Hwf.
  { unfold Linkage.wf, p. cbn. split_and!; try done; try apply ed_sign_length; apply ed_public_length. }
  assert (blen (Linkage.to_wire_bytes p) < u64_size) as F.
  { destruct Hwf as (H1 & H2 & H3 & H4 & H5 & _). unfold Linkage.to_wire_bytes, Linkage.wire_entries.
    flatten. rewrite !blen_app. pose proof (blen_bytestr_ub (Linkage.nonce p)).
    pose proof (blen_bytestr_ub (Linkage.sig_a p)). pose proof (blen_bytestr_ub (Linkage.sig_b p)).
    pose proof (blen_bytestr_ub (Linkage.side_a p)). pose proof (blen_bytestr_ub (Linkage.side_b p)).
    pose proof (blen_uint_ub (Linkage.issued_at p)). pose proof (head_bytes_le 5 (N.of_nat 6)).
    repeat match goal with
    | |- context [blen (key ?t)] => eval_blen (key t)
    | |- context [blen (text ?t)] => eval_blen (text t)
    end.
    unfold PUBLIC_KEY_LEN, SIGNATURE_LEN, Linkage.LINKAGE_NONCE_LEN, u64_size in *. lia. }
  apply linkage_ok; [done|]. split; [done|]. split; [|split; [|done]]; apply signed_by_sign.
Qed.

(** A retirement is accepted exactly when it is the canonical encoding of a
    record signed by the side that retires. *)
Theorem retirement_exact `{Crypto} bs p (F : blen bs < u64_size) :
  Retirement.from_wire_bytes bs = Ok p <->
  Retirement.wf p /\
  signed_by (Retirement.side p) (Retirement.unsigned_bytes p) (Retirement.signature p) /\
  bs = Retirement.to_wire_bytes p.
Proof.
  apply signed_wire_ok. intros x. rewrite (decode_exact Retirement.to_wire_bytes Retirement.fields Retirement.wf _ bs x F). tauto.
Qed.

(** ** Concrete instances *)

Module RecordsExamples.
Import Toy.

Definition n16 : bytes := replicate 16 Byte.x02.

Definition link : Linkage.LinkageProof :=
  let d := blake3 (Linkage.encode_unsigned n16 (public_bytes side) (public_bytes side2) 5) in
  {| Linkage.side_a := public_bytes side; Linkage.side_b := public_bytes side2;
     Linkage.issued_at := 5; Linkage.nonce := n16; Linkage.sig_a := side_sign side d;
     Linkage.sig_b := side_sign side2 d |}.

Lemma linkage_exact_witness :
  Linkage.wf link /\
  signed_by (Linkage.side_a link) (Linkage.unsigned_bytes link) (Linkage.sig_a link) /\
  signed_by (Linkage.side_b link) (Linkage.unsigned_bytes link) (Linkage.sig_b link) /\
  Linkage.to_wire_bytes link = Linkage.to_wire_bytes link.
Proof. apply linkage_exact; vm_compute; reflexivity. Defined.

Lemma linkage_sign_verifies_witness :
  exists p, Linkage.sign_with side side2 5 n16 = Ok p /\
    Linkage.from_wire_bytes (Linkage.to_wire_bytes p) = Ok p /\
    Linkage.side_a p = public_bytes side /\ Linkage.side_b p = public_bytes side2.
Proof. apply linkage_sign_verifies; reflexivity. Defined.

Definition retired : Retirement.SideRetirementPayload :=
  let d := blake3 (Retirement.encode_unsigned (public_bytes side) (Some "moved") 9) in
  {| Retirement.side := public_bytes side; Retirement.reason := Some "moved";
     Retirement.retired_at := 9; Retirement.signature := side_sign side d |}.

Lemma retirement_exact_witness :
  Retirement.wf retired /\
  signed_by (Retirement.side retired) (Retirement.unsigned_bytes retired) (Retirement.signature retired) /\
  Retirement.to_wire_bytes retired = Retirement.to_wire_bytes retired.
Proof. apply retirement_exact; vm_compute; reflexivity. Defined.

End RecordsExamples.
