(* ===== verification/Verse.v ===== *)
(** Verse contracts and membership tokens ([sidevers-core/src/verse.rs]).

    A contract is a signed canonical map of twelve entries, content-addressed
    by its hash; a membership token is the receipt that binds a member to one
    contract.  The amendment classification decides whether the members of a
    verse must consent again. *)

From S2P Require Import Prelude Utf8 Cbor CborCodec CborValue TextMap Keys Payload.

Open Scope N_scope.

(** ** Field kinds and field specs *)

(** [FieldKind(pub String)]. *)
Abbreviation FieldKind := string.

Record FieldSpec := {
  spec_kind : FieldKind;
  label : string;
  spec_description : option string;
  validator : option string
}.

Module FieldSpecs.

Definition entries (s : FieldSpec) : list MapEntry :=
  [ entry "kind" (text (spec_kind s));
    entry "label" (text (label s));
    entry "validator" (or_null text (validator s));
    entry "description" (or_null text (spec_description s)) ].

Definition encode (s : FieldSpec) : bytes := encode_map (entries s).

Definition decode_from : Reader FieldSpec :=
  let e := "FieldSpec keys not in canonical order" in
  _ ← expect_map 4 "FieldSpec expected 4 keys, got {n}";
  _ ← expect_key "kind" e;
  k ← read_text;
  _ ← expect_key "label" e;
  l ← read_text;
  _ ← expect_key "validator" e;
  v ← read_optional_text "unexpected EOF";
  _ ← expect_key "description" e;
  d ← read_optional_text "unexpected EOF";
  mret {| spec_kind := k; label := l; spec_description := d; validator := v |}.

Definition wf (s : FieldSpec) : Prop :=
  wf_text (spec_kind s) /\ wf_text (label s) /\
  from_option wf_text True (validator s) /\ from_option wf_text True (spec_description s).

End FieldSpecs.

(** ** Policy clauses *)

Record PolicyClause := { clause_kind : string; params : gmap string string }.

Inductive KnownPolicyKind :=
| NoArchive
| RetentionMaxDays (days : option N)
| RequireRealName
| Ephemeral (ttl_secs : option N)
| ModerationRequired.

#[export] Instance KnownPolicyKind_eq_dec : EqDecision KnownPolicyKind.
Proof. solve_decision. Defined.

#[export] Program Instance KnownPolicyKind_countable : Countable KnownPolicyKind :=
  inj_countable'
    (fun k => match k with
              | NoArchive => inl 0 | RequireRealName => inl 1 | ModerationRequired => inl 2
              | RetentionMaxDays d => inr (true, d) | Ephemeral t => inr (false, t)
              end)
    (fun x => match x with
              | inl n => if n =? 0 then NoArchive else if n =? 1 then RequireRealName
                         else ModerationRequired
              | inr (true, d) => RetentionMaxDays d
              | inr (false, t) => Ephemeral t
              end) _.
Next Obligation. by intros []. Qed.

(** [s.parse::<u64>().ok()]: an optional plus sign, then at least one decimal
    digit, without overflow. *)
Definition digit (c : Ascii.ascii) : option N :=
  let n := Ascii.N_of_ascii c in
  if (48 <=? n) && (n <=? 57) then Some (n - 48) else None.

Fixpoint parse_digits (acc : N) (s : string) : option N :=
  match s with
  | EmptyString => Some acc
  | String c s' =>
    match digit c with
    | Some d => if acc * 10 + d <? u64_size then parse_digits (acc * 10 + d) s' else None
    | None => None
    end
  end.

Definition parse_u64 (s : string) : option N :=
  match s with
  | EmptyString => None
  | String c s' =>
    if Ascii.N_of_ascii c =? 43 then (if String.eqb s' "" then None else parse_digits 0 s')
    else parse_digits 0 s
  end.

Module PolicyClauses.

Definition encode (p : PolicyClause) : bytes :=
  let params_bytes := encode_text_map text (params p) in
  encode_map [ entry "kind" (text (clause_kind p)); entry "params" params_bytes ].

Definition decode_from : Reader PolicyClause :=
  _ ← expect_map 2 "PolicyClause expected 2 keys, got {n}";
  _ ← expect_key "kind" "PolicyClause expects 'kind' first";
  k ← read_text;
  _ ← expect_key "params" "PolicyClause expects 'params' second";
  ps ← decode_text_map read_text "policy params keys not in canonical order";
  mret {| clause_kind := k; params := ps |}.

Definition wf (p : PolicyClause) : Prop :=
  wf_text (clause_kind p) /\ wf_text_map wf_text (params p).

Definition classify (p : PolicyClause) : option KnownPolicyKind :=
  if String.eqb (clause_kind p) "no-archive" then Some NoArchive
  else if String.eqb (clause_kind p) "retention-max-days" then
    Some (RetentionMaxDays (s ← params p !! "days"; parse_u64 s))
  else if String.eqb (clause_kind p) "require-real-name" then Some RequireRealName
  else if String.eqb (clause_kind p) "ephemeral" then
    Some (Ephemeral (s ← params p !! "ttl_secs"; parse_u64 s))
  else if String.eqb (clause_kind p) "moderation-required" then Some ModerationRequired
  else None.

Definition is_known (p : PolicyClause) : bool :=
  match classify p with Some _ => true | None => false end.

End PolicyClauses.

Definition policy_is_restrictive (k : KnownPolicyKind) : bool :=
  match k with
  | NoArchive | RequireRealName | ModerationRequired | Ephemeral _ | RetentionMaxDays _ => true
  end.

Record PolicyClassification := { known : list KnownPolicyKind; unknown : list string }.

(** [for c in policies { match c.classify() { .. push .. } }]. *)
Definition classify_all (policies : list PolicyClause) : PolicyClassification :=
  fold_left (fun acc c =>
    match PolicyClauses.classify c with
    | Some k => {| known := known acc ++ [k]; unknown := unknown acc |}
    | None => {| known := known acc; unknown := unknown acc ++ [clause_kind c] |}
    end) policies {| known := []; unknown := [] |}.

Inductive AmendmentKind := Reductive | Expansive | Mixed.

Definition requires_reconsent (k : AmendmentKind) : bool :=
  match k with Reductive | Mixed => true | Expansive => false end.

(** ** Helper codecs *)

Definition encode_field_kinds (l : list FieldKind) : bytes := write_array text l.
Definition decode_field_kinds : Reader (list FieldKind) := read_array read_text.
Definition encode_field_specs (l : list FieldSpec) : bytes := write_array FieldSpecs.encode l.
Definition decode_field_specs : Reader (list FieldSpec) := read_array FieldSpecs.decode_from.
Definition encode_policies (l : list PolicyClause) : bytes := write_array PolicyClauses.encode l.
Definition decode_policies : Reader (list PolicyClause) := read_array PolicyClauses.decode_from.
Definition encode_moderators (l : list bytes) : bytes := write_array bytestr l.
Definition decode_moderators : Reader (list bytes) :=
  read_array (read_fixed_bytes "moderator" PUBLIC_KEY_LEN).

Definition wf_list {A} (wf : A -> Prop) (l : list A) : Prop :=
  Forall wf l /\ N.of_nat (length l) <= MAX_CBOR_ENTRIES.

(** ** Contracts *)

Record ContractObject := {
  verse : bytes;
  version : N;
  title : string;
  description : string;
  required : list FieldSpec;
  optional : list FieldSpec;
  forbidden : list FieldKind;
  scoped : list FieldKind;
  policies : list PolicyClause;
  moderators : list bytes;
  issued_at : N;
  signature : bytes
}.

Module Contract.

Definition unsigned_entries (verse : bytes) (version : N) (title description : string)
    (required optional : list FieldSpec) (forbidden scoped : list FieldKind)
    (policies : list PolicyClause) (moderators : list bytes) (issued_at : N) : list MapEntry :=
  [ entry "title" (text title);
    entry "verse" (bytestr verse);
    entry "scoped" (encode_field_kinds scoped);
    entry "version" (uint version);
    entry "optional" (encode_field_specs optional);
    entry "policies" (encode_policies policies);
    entry "required" (encode_field_specs required);
    entry "forbidden" (encode_field_kinds forbidden);
    entry "issued_at" (uint issued_at);
    entry "moderators" (encode_moderators moderators);
    entry "description" (text description) ].

Definition encode_unsigned (verse : bytes) (version : N) (title description : string)
    (required optional : list FieldSpec) (forbidden scoped : list FieldKind)
    (policies : list PolicyClause) (moderators : list bytes) (issued_at : N) : bytes :=
  encode_map (unsigned_entries verse version title description required optional forbidden
                scoped policies moderators issued_at).

Definition wire_entries (c : ContractObject) : list MapEntry :=
  [ entry "title" (text (title c));
    entry "verse" (bytestr (verse c));
    entry "scoped" (encode_field_kinds (scoped c));
    entry "version" (uint (version c));
    entry "optional" (encode_field_specs (optional c));
    entry "policies" (encode_policies (policies c));
    entry "required" (encode_field_specs (required c));
    entry "forbidden" (encode_field_kinds (forbidden c));
    entry "issued_at" (uint (issued_at c));
    entry "signature" (bytestr (signature c));
    entry "moderators" (encode_moderators (moderators c));
    entry "description" (text (description c)) ].

Definition to_wire_bytes (c : ContractObject) : bytes := encode_map (wire_entries c).

Definition unsigned_bytes (c : ContractObject) : bytes :=
  encode_unsigned (verse c) (version c) (title c) (description c) (required c) (optional c)
    (forbidden c) (scoped c) (policies c) (moderators c) (issued_at c).

Definition fields : Reader ContractObject :=
  let e := "ContractObject keys not in canonical order" in
  _ ← expect_map 12 "ContractObject expected 12 keys, got {n}";
  _ ← expect_key "title" e;
  ti ← read_text;
  _ ← expect_key "verse" e;
  ve ← read_fixed_bytes "verse" PUBLIC_KEY_LEN;
  _ ← expect_key "scoped" e;
  sc ← decode_field_kinds;
  _ ← expect_key "version" e;
  vn ← read_u64;
  _ ← expect_key "optional" e;
  op ← decode_field_specs;
  _ ← expect_key "policies" e;
  po ← decode_policies;
  _ ← expect_key "required" e;
  re ← decode_field_specs;
  _ ← expect_key "forbidden" e;
  fo ← decode_field_kinds;
  _ ← expect_key "issued_at" e;
  ia ← read_u64;
  _ ← expect_key "signature" e;
  sg ← read_fixed_bytes "signature" SIGNATURE_LEN;
  _ ← expect_key "moderators" e;
  mo ← decode_moderators;
  _ ← expect_key "description" e;
  de ← read_text;
  mret {| verse := ve; version := vn; title := ti; description := de; required := re;
          optional := op; forbidden := fo; scoped := sc; policies := po; moderators := mo;
          issued_at := ia; signature := sg |}.

Definition wf (c : ContractObject) : Prop :=
  wf_text (title c) /\ blen (verse c) = PUBLIC_KEY_LEN /\ wf_list wf_text (scoped c) /\
  version c < u64_size /\ wf_list FieldSpecs.wf (optional c) /\
  wf_list PolicyClauses.wf (policies c) /\ wf_list FieldSpecs.wf (required c) /\
  wf_list wf_text (forbidden c) /\ issued_at c < u64_size /\
  blen (signature c) = SIGNATURE_LEN /\
  wf_list (fun m => blen m = PUBLIC_KEY_LEN) (moderators c) /\ wf_text (description c).

Definition is_moderator (c : ContractObject) (side : bytes) : bool :=
  bool_decide (side = verse c) || existsb (fun m => bool_decide (m = side)) (moderators c).

Definition is_forbidden (c : ContractObject) (kind : FieldKind) : bool :=
  existsb (fun k => String.eqb k kind) (forbidden c).

(** [specs.iter().map(|s| &s.kind).collect::<HashSet<_>>()]. *)
Definition kinds (l : list FieldSpec) : gset string := list_to_set (map spec_kind l).

(** [policies.iter().filter_map(|p| p.classify()).collect::<HashSet<_>>()]. *)
Definition known_policies (l : list PolicyClause) : gset KnownPolicyKind :=
  list_to_set (omap PolicyClauses.classify l).

(** [a.difference(&b).next().is_some()]. *)
Definition adds {A} `{Countable A} (a b : gset A) : bool := bool_decide (a ∖ b <> ∅).

(** [for k in a.difference(&b) { if policy_is_restrictive(k) { flag = true } }]. *)
Definition adds_restrictive (a b : gset KnownPolicyKind) : bool :=
  existsb policy_is_restrictive (elements (a ∖ b)).

(** The value of the flag [reductive] at the end of the function. *)
Definition reductive (self new : ContractObject) : bool :=
  let self_req := kinds (required self) in
  let new_req := kinds (required new) in
  let self_forbid : gset string := list_to_set (forbidden self) in
  let new_forbid : gset string := list_to_set (forbidden new) in
  let self_known := known_policies (policies self) in
  let new_known := known_policies (policies new) in
  adds new_req self_req || adds new_forbid self_forbid || adds_restrictive new_known self_known.

(** The value of the flag [expansive] at the end of the function. *)
Definition expansive (self new : ContractObject) : bool :=
  let self_req := kinds (required self) in
  let new_req := kinds (required new) in
  let self_forbid : gset string := list_to_set (forbidden self) in
  let new_forbid : gset string := list_to_set (forbidden new) in
  let self_opt := kinds (optional self) in
  let new_opt := kinds (optional new) in
  let self_known := known_policies (policies self) in
  let new_known := known_policies (policies new) in
  adds self_req new_req || adds self_forbid new_forbid || adds new_opt self_opt
  || adds_restrictive self_known new_known.

Definition classify_amendment (self new : ContractObject) : AmendmentKind :=
  match reductive self new, expansive self new with
  | true, true => Mixed
  | true, false => Reductive
  | false, _ => Expansive
  end.

Section Signed.
Context `{Crypto}.

Definition sign (verse_key : SideKey) (version : N) (title description : string)
    (required optional : list FieldSpec) (forbidden scoped : list FieldKind)
    (policies : list PolicyClause) (moderators : list bytes) (issued_at : N)
    : result ContractObject :=
  let verse := public_bytes verse_key in
  let unsigned := encode_unsigned verse version title description required optional forbidden
                    scoped policies moderators issued_at in
  let digest := blake3 unsigned in
  let signature := side_sign verse_key digest in
  Ok {| verse := verse; version := version; title := title; description := description;
        required := required; optional := optional; forbidden := forbidden; scoped := scoped;
        policies := policies; moderators := moderators; issued_at := issued_at;
        signature := signature |}.

(** No trailing-bytes check: the comparison with the re-encoding subsumes it. *)
Definition from_wire_bytes (bs : bytes) : result ContractObject :=
  contract ← decode_with fields bs;
  _ ← verify_signed (verse contract) (unsigned_bytes contract) (signature contract);
  _ ← ensure (bool_decide (to_wire_bytes contract = bs))
        (Error.CborNotCanonical "ContractObject bytes are not canonical re-encode");
  Ok contract.

Definition hash (c : ContractObject) : bytes := blake3 (to_wire_bytes c).

End Signed.

End Contract.

(** ** Membership tokens *)

Module Token.

Record MembershipToken := {
  verse : bytes;
  contract_hash : bytes;
  member_side : bytes;
  issued_at : N;
  signature : bytes
}.

Definition unsigned_entries (verse contract_hash member : bytes) (issued_at : N) : list MapEntry :=
  [ entry "verse" (bytestr verse);
    entry "member" (bytestr member);
    entry "issued_at" (uint issued_at);
    entry "contract_hash" (bytestr contract_hash) ].

Definition encode_unsigned (verse contract_hash member : bytes) (issued_at : N) : bytes :=
  encode_map (unsigned_entries verse contract_hash member issued_at).

Definition wire_entries (t : MembershipToken) : list MapEntry :=
  [ entry "verse" (bytestr (verse t));
    entry "member" (bytestr (member_side t));
    entry "issued_at" (uint (issued_at t));
    entry "signature" (bytestr (signature t));
    entry "contract_hash" (bytestr (contract_hash t)) ].

Definition to_wire_bytes (t : MembershipToken) : bytes := encode_map (wire_entries t).

Definition unsigned_bytes (t : MembershipToken) : bytes :=
  encode_unsigned (verse t) (contract_hash t) (member_side t) (issued_at t).

Definition fields : Reader MembershipToken :=
  let e := "MembershipToken keys not in canonical order" in
  _ ← expect_map 5 "MembershipToken expected 5 keys, got {n}";
  _ ← expect_key "verse" e;
  v ← read_fixed_bytes "verse" PUBLIC_KEY_LEN;
  _ ← expect_key "member" e;
  m ← read_fixed_bytes "member" PUBLIC_KEY_LEN;
  _ ← expect_key "issued_at" e;
  i ← read_u64;
  _ ← expect_key "signature" e;
  s ← read_fixed_bytes "signature" SIGNATURE_LEN;
  _ ← expect_key "contract_hash" e;
  h ← read_fixed_bytes "contract_hash" 32;
  mret {| verse := v; contract_hash := h; member_side := m; issued_at := i; signature := s |}.

Definition wf (t : MembershipToken) : Prop :=
  blen (verse t) = PUBLIC_KEY_LEN /\ blen (member_side t) = PUBLIC_KEY_LEN /\
  issued_at t < u64_size /\ blen (signature t) = SIGNATURE_LEN /\ blen (contract_hash t) = 32.

Section Signed.
Context `{Crypto}.

Definition sign (verse_key : SideKey) (contract_hash member_side : bytes) (issued_at : N)
    : result MembershipToken :=
  let verse := public_bytes verse_key in
  let unsigned := encode_unsigned verse contract_hash member_side issued_at in
  let digest := blake3 unsigned in
  let signature := side_sign verse_key digest in
  Ok {| verse := verse; contract_hash := contract_hash; member_side := member_side;
        issued_at := issued_at; signature := signature |}.

(** Neither a trailing-bytes check nor a comparison with the re-encoding. *)
Definition from_wire_bytes (bs : bytes) : result MembershipToken :=
  t ← decode_with fields bs;
  _ ← verify_signed (verse t) (unsigned_bytes t) (signature t);
  Ok t.

End Signed.

End Token.

(** ** The content key of a verse *)

Module ContentKey.
Section ContentKey.
Context `{Ecies}.

Record VerseContentKey := { key_bytes : bytes }.

(** [nonce] is what [getrandom] filled in. *)
Definition seal (k : VerseContentKey) (nonce plaintext aad : bytes) : result (bytes * bytes) :=
  ct ← ok_or (aead_encrypt (key_bytes k) nonce aad plaintext) (Error.Invariant "AEAD encrypt failed");
  Ok (nonce, ct).

Definition open (k : VerseContentKey) (nonce ciphertext aad : bytes) : result bytes :=
  ok_or (aead_decrypt (key_bytes k) nonce aad ciphertext) Error.DecryptionFailed.

End ContentKey.
End ContentKey.

(** ** Codecs *)

#[export] Instance field_spec_codec : Codec FieldSpecs.encode FieldSpecs.decode_from FieldSpecs.wf.
Proof. unfold FieldSpecs.encode, FieldSpecs.decode_from, FieldSpecs.wf, FieldSpecs.entries. solve_codec. Qed.

#[export] Instance policy_codec :
  Codec PolicyClauses.encode PolicyClauses.decode_from PolicyClauses.wf.
Proof. unfold PolicyClauses.encode, PolicyClauses.decode_from, PolicyClauses.wf. solve_codec. Qed.

#[export] Instance field_kinds_codec :
  Codec encode_field_kinds decode_field_kinds (wf_list wf_text) := codec_array text read_text wf_text.

#[export] Instance field_specs_codec :
  Codec encode_field_specs decode_field_specs (wf_list FieldSpecs.wf) :=
  codec_array FieldSpecs.encode FieldSpecs.decode_from FieldSpecs.wf.

#[export] Instance policies_codec :
  Codec encode_policies decode_policies (wf_list PolicyClauses.wf) :=
  codec_array PolicyClauses.encode PolicyClauses.decode_from PolicyClauses.wf.

#[export] Instance moderators_codec :
  Codec encode_moderators decode_moderators (wf_list (fun m => blen m = PUBLIC_KEY_LEN)) :=
  codec_array bytestr (read_fixed_bytes "moderator" PUBLIC_KEY_LEN) (fun m => blen m = PUBLIC_KEY_LEN).

#[export] Instance contract_codec : Codec Contract.to_wire_bytes Contract.fields Contract.wf.
Proof.
  unfold Contract.to_wire_bytes, Contract.fields, Contract.wf, Contract.wire_entries. solve_codec.
Qed.

#[export] Instance token_codec : Codec Token.to_wire_bytes Token.fields Token.wf.
Proof. unfold Token.to_wire_bytes, Token.fields, Token.wf, Token.wire_entries. solve_codec. Qed.

(** ** Canonical encodings *)

Lemma field_spec_canonical s : FieldSpecs.wf s -> Canonical (FieldSpecs.encode s).
Proof.
  unfold FieldSpecs.wf, FieldSpecs.encode, FieldSpecs.entries. intros Hwf. destruct_and?. canon.
Qed.

Lemma params_canonical m : wf_text_map wf_text m -> Canonical (encode_text_map text m).
Proof. apply Canonical_text_map. apply Canonical_text. Qed.

#[export] Hint Resolve field_spec_canonical params_canonical : sv.

Lemma policy_canonical p : PolicyClauses.wf p -> Canonical (PolicyClauses.encode p).
Proof. unfold PolicyClauses.wf, PolicyClauses.encode. intros Hwf. destruct_and?. canon. Qed.

Lemma Canonical_list {A} (enc : A -> bytes) wf l :
  (forall a, wf a -> Canonical (enc a)) -> wf_list wf l -> Canonical (write_array enc l).
Proof.
  intros He [Hl Hn]. eapply Canonical_array; [exact He|exact Hl|].
  change MAX_CBOR_ENTRIES with 1048576 in *. unfold u64_size. lia.
Qed.

Lemma field_kinds_canonical l : wf_list wf_text l -> Canonical (encode_field_kinds l).
Proof. apply Canonical_list, Canonical_text. Qed.

Lemma field_specs_canonical l : wf_list FieldSpecs.wf l -> Canonical (encode_field_specs l).
Proof. apply Canonical_list, field_spec_canonical. Qed.

Lemma policies_canonical l : wf_list PolicyClauses.wf l -> Canonical (encode_policies l).
Proof. apply Canonical_list, policy_canonical. Qed.

Lemma moderators_canonical l :
  wf_list (fun m => blen m = PUBLIC_KEY_LEN) l -> Canonical (encode_moderators l).
Proof. apply Canonical_list. intros m Hm. by eapply Canonical_fixed. Qed.

#[export] Hint Resolve field_kinds_canonical field_specs_canonical policies_canonical
  moderators_canonical : sv.

Lemma contract_canonical c : Contract.wf c -> Canonical (Contract.to_wire_bytes c).
Proof.
  unfold Contract.wf, Contract.to_wire_bytes, Contract.wire_entries. intros Hwf. destruct_and?. canon.
Qed.

Lemma token_canonical t : Token.wf t -> Canonical (Token.to_wire_bytes t).
Proof.
  unfold Token.wf, Token.to_wire_bytes, Token.wire_entries. intros Hwf. destruct_and?. canon.
Qed.

(** ** Signed contracts *)

Lemma unsigned_values c :
  Contract.wf c ->
  Forall (fun x => Canonical (value_bytes x))
    (Contract.unsigned_entries (verse c) (version c) (title c) (description c) (required c)
       (optional c) (forbidden c) (scoped c) (policies c) (moderators c) (issued_at c)).
Proof.
  unfold Contract.wf, Contract.unsigned_entries. intros Hwf. destruct_and?.
  repeat (apply Forall_cons; split); [..|by apply Forall_nil]; canon.
Qed.

Lemma contract_wire_ok `{Crypto} bs c :
  blen bs < u64_size ->
  Contract.from_wire_bytes bs = Ok c <->
  Contract.wf c /\ signed_by (verse c) (Contract.unsigned_bytes c) (signature c) /\
  bs = Contract.to_wire_bytes c.
Proof.
  intros F. apply signed_wire_ok. intros x. rewrite (decode_prefix _ _ Contract.wf) by done. split.
  - by intros [[? _] ?].
  - intros [? ->]. split_and!; [done| |done]. exists []. by rewrite app_nil_r.
Qed.

(** The parser accepts exactly the canonical encodings of contracts that
    carry a valid signature of the verse over the other eleven fields. *)
Theorem contract_from_wire_exact `{Crypto} bs c (F : blen bs < u64_size) :
  Contract.from_wire_bytes bs = Ok c <->
  Contract.wf c /\ signed_by (verse c) (Contract.unsigned_bytes c) (signature c) /\
  bs = Contract.to_wire_bytes c.
Proof.
  by apply contract_wire_ok.
Qed.

(** A contract signed by the verse key is accepted and read back
    unchanged. *)
Theorem contract_sign_roundtrip `{CryptoLaws} k vn ti de re op fo sc po mo ia c
    (Hs : Contract.sign k vn ti de re op fo sc po mo ia = Ok c) (Hwf : Contract.wf c)
    (Hlen : blen (Contract.to_wire_bytes c) < u64_size) :
  Contract.from_wire_bytes (Contract.to_wire_bytes c) = Ok c /\ verse c = public_bytes k.
Proof.
  injection Hs as <-. split; [|done]. apply signed_wire_ok with (W := Contract.wf).
  - intros x. rewrite (decode_prefix _ _ Contract.wf) by done. split.
    + by intros [[? _] ?].
    + intros [? Hx]. split_and!; [done| |done]. exists []. by rewrite app_nil_r.
  - split; [done|]. split; [|done]. apply signed_by_sign.
Qed.

(** The signature of a contract binds every field: two well-formed
    contracts with the same signed bytes differ at most in the signature. *)
Theorem contract_unsigned_injective c1 c2
    (W1 : Contract.wf c1) (W2 : Contract.wf c2)
    (F : blen (Contract.unsigned_bytes c1) < u64_size)
    (E : Contract.unsigned_bytes c1 = Contract.unsigned_bytes c2) :
  {| verse := verse c2; version := version c2; title := title c2; description := description c2;
     required := required c2; optional := optional c2; forbidden := forbidden c2;
     scoped := scoped c2; policies := policies c2; moderators := moderators c2;
     issued_at := issued_at c2; signature := signature c1 |} = c1.
Proof.
  assert (forall e, In e (Contract.unsigned_entries (verse c1) (version c1) (title c1)
    (description c1) (required c1) (optional c1) (forbidden c1) (scoped c1) (policies c1)
    (moderators c1) (issued_at c1)) -> blen (value_bytes e) < u64_size) as Hl.
  { intros e He%blen_value_le. eapply N.le_lt_trans; [exact He|exact F]. }
  apply encode_map_inj in E; [|reflexivity|by apply unsigned_values..].
  unfold Contract.wf in *. destruct_and?. injection E as E1 E2 E3 E4 E5 E6 E7 E8 E9 E10 E11.
  cbn [In Contract.unsigned_entries] in Hl.
  assert (forall k v, In (entry k v) (Contract.unsigned_entries (verse c1) (version c1) (title c1)
    (description c1) (required c1) (optional c1) (forbidden c1) (scoped c1) (policies c1)
    (moderators c1) (issued_at c1)) -> blen v < u64_size) as Hl' by (intros k v; apply (Hl (entry k v))).
  cbn [In Contract.unsigned_entries] in Hl'. clear Hl F.
  apply uint_inj in E4, E9; [|done..]. apply text_inj in E1, E11; [|done..].
  apply bytestr_inj in E2; [|unfold wf_bytes, PUBLIC_KEY_LEN, u64_size in *; lia..].
  apply (codec_inj (dec := decode_field_kinds)) in E3, E8; [|first [done|eapply Hl'; eauto 20]..].
  apply (codec_inj (dec := decode_field_specs)) in E5, E7; [|first [done|eapply Hl'; eauto 20]..].
  apply (codec_inj (dec := decode_policies)) in E6; [|first [done|eapply Hl'; eauto 20]..].
  apply (codec_inj (dec := decode_moderators)) in E10; [|first [done|eapply Hl'; eauto 20]..].
  destruct c1. cbn in *. by subst.
Qed.

(** A membership token is accepted exactly when it is well formed and
    signed by its verse; bytes after the token are not examined. *)
Theorem token_from_wire_prefix `{Crypto} bs t (F : blen bs < u64_size) :
  Token.from_wire_bytes bs = Ok t <->
  Token.wf t /\ signed_by (Token.verse t) (Token.unsigned_bytes t) (Token.signature t) /\
  exists trailing, bs = Token.to_wire_bytes t ++ trailing.
Proof.
  apply signed_prefix_ok. intros x. by rewrite (decode_prefix _ _ Token.wf) by done.
Qed.

(** ** Amendments *)

(** The specification: what tightens and what loosens the rules. *)
Definition tightens (old new : ContractObject) : Prop :=
  (exists s, s ∈ required new /\ spec_kind s ∉ map spec_kind (required old)) \/
  (exists k, k ∈ forbidden new /\ k ∉ forbidden old) \/
  (exists k, k ∈ omap PolicyClauses.classify (policies new) /\
             k ∉ omap PolicyClauses.classify (policies old)).

Definition loosens (old new : ContractObject) : Prop :=
  tightens new old \/
  (exists s, s ∈ optional new /\ spec_kind s ∉ map spec_kind (optional old)).

Lemma adds_iff {A} `{Countable A} (a b : gset A) :
  Contract.adds a b = true <-> exists x, x ∈ a /\ x ∉ b.
Proof.
  unfold Contract.adds. rewrite bool_decide_eq_true. split.
  - intros Hne. destruct (set_choose_or_empty (a ∖ b)) as [[x Hx]|He].
    + exists x. set_solver.
    + by apply leibniz_equiv in He.
  - intros (x & ? & ?) E. set_solver.
Qed.

Lemma adds_restrictive_iff a b :
  Contract.adds_restrictive a b = true <-> exists x, x ∈ a /\ x ∉ b.
Proof.
  unfold Contract.adds_restrictive. rewrite existsb_exists. setoid_rewrite <-list_elem_of_In.
  setoid_rewrite elem_of_elements. setoid_rewrite elem_of_difference.
  split; [naive_solver|]. intros (x & ? & ?). exists x. split; [done|]. by destruct x.
Qed.

Lemma elem_of_kinds k l : k ∈ Contract.kinds l <-> k ∈ map spec_kind l.
Proof. unfold Contract.kinds. by rewrite elem_of_list_to_set. Qed.

Lemma adds_kinds_iff l l' :
  Contract.adds (Contract.kinds l) (Contract.kinds l') = true <->
  exists s, s ∈ l /\ spec_kind s ∉ map spec_kind l'.
Proof.
  rewrite adds_iff. setoid_rewrite elem_of_kinds.
  split; [intros (x & (s & -> & Hs)%list_elem_of_fmap & Hx); eauto|].
  intros (s & Hs & Hx). exists (spec_kind s). split; [|done]. apply list_elem_of_fmap. eauto.
Qed.

Lemma reductive_iff old new : Contract.reductive old new = true <-> tightens old new.
Proof.
  unfold Contract.reductive, tightens, Contract.known_policies.
  rewrite !orb_true_iff, adds_kinds_iff, adds_iff, adds_restrictive_iff.
  setoid_rewrite elem_of_list_to_set. tauto.
Qed.

Lemma expansive_iff old new : Contract.expansive old new = true <-> loosens old new.
Proof.
  unfold Contract.expansive, loosens, tightens, Contract.known_policies.
  rewrite !orb_true_iff, !adds_kinds_iff, adds_iff, adds_restrictive_iff.
  setoid_rewrite elem_of_list_to_set. tauto.
Qed.

Lemma requires_reconsent_iff old new :
  requires_reconsent (Contract.classify_amendment old new) = true <-> tightens old new.
Proof.
  rewrite <-reductive_iff. unfold Contract.classify_amendment.
  by destruct (Contract.reductive old new), (Contract.expansive old new).
Qed.

(** An amendment is classified by what it tightens and what it loosens:
    mixed when both, reductive when it only tightens, expansive otherwise;
    members must consent again exactly when some rule is tightened. *)
Theorem classify_amendment_spec old new :
  (Contract.classify_amendment old new = Mixed <-> tightens old new /\ loosens old new) /\
  (Contract.classify_amendment old new = Reductive <-> tightens old new /\ ~ loosens old new) /\
  (Contract.classify_amendment old new = Expansive <-> ~ tightens old new) /\
  (requires_reconsent (Contract.classify_amendment old new) = true <-> tightens old new).
Proof.
  rewrite requires_reconsent_iff, <-reductive_iff, <-expansive_iff.
  unfold Contract.classify_amendment.
  destruct (Contract.reductive old new), (Contract.expansive old new); intuition congruence.
Qed.

Lemma tightens_trans a b c : tightens a c -> tightens a b \/ tightens b c.
Proof.
  unfold tightens. intros [(s & Hs & Ha)|[(k & Hk & Ha)|(k & Hk & Ha)]].
  - destruct (decide (spec_kind s ∈ map spec_kind (required b))) as [Hb|Hb]; [|eauto 10].
    apply list_elem_of_fmap in Hb as (s' & E & Hb). left. left. exists s'. by rewrite <-E.
  - destruct (decide (k ∈ forbidden b)); eauto 10.
  - destruct (decide (k ∈ omap PolicyClauses.classify (policies b))); eauto 10.
Qed.

(** Amendments that need no new consent compose: a member never misses a
    tightening by following a chain of expansive amendments. *)
Theorem expansive_amendments_compose a b c
    (H1 : requires_reconsent (Contract.classify_amendment a b) = false)
    (H2 : requires_reconsent (Contract.classify_amendment b c) = false) :
  requires_reconsent (Contract.classify_amendment a c) = false.
Proof.
  apply not_true_iff_false. apply not_true_iff_false in H1, H2.
  rewrite requires_reconsent_iff in *. intros H%(tightens_trans _ b). tauto.
Qed.

(** Content sealed under a verse's key is opened by every holder of it. *)
Theorem content_open_seal `{EciesLaws} k nonce pt aad n ct
    (Hs : ContentKey.seal k nonce pt aad = Ok (n, ct)) :
  ContentKey.open k n ct aad = Ok pt.
Proof.
  unfold ContentKey.seal, ContentKey.open in *. apply result_bind_ok in Hs as (x & Hx & [= <- <-]).
  apply ok_or_ok in Hx. by apply ok_or_ok, aead_decrypt_encrypt.
Qed.

(** ** Concrete instances *)

Module VerseExamples.
Import Toy ToyEcies.

Definition spec (k : string) : FieldSpec :=
  {| spec_kind := k; label := "Label"; spec_description := None; validator := Some "v" |}.

Definition retention : PolicyClause :=
  {| clause_kind := "retention-max-days"; params := {[ "days" := "30"; "a" := "b" ]} |}.

(** A contract signed by [Toy.side]; its required kinds are [req]. *)
Definition contract (req : list string) (pol : list PolicyClause) : ContractObject :=
  let u := Contract.encode_unsigned (public_bytes side) 1 "Chess club" "Rules" (map spec req)
             [spec "bio"] ["email"] [] pol [pad 32 [Byte.x09]] 1700000000 in
  {| verse := public_bytes side; version := 1; title := "Chess club"; description := "Rules";
     required := map spec req; optional := [spec "bio"]; forbidden := ["email"]; scoped := [];
     policies := pol; moderators := [pad 32 [Byte.x09]]; issued_at := 1700000000;
     signature := side_sign side (blake3 u) |}.

Definition c1 : ContractObject := contract ["display-name"] [retention].
Definition c2 : ContractObject := contract [] [retention].
Definition c3 : ContractObject := contract [] [].

Definition token : Token.MembershipToken :=
  let h := Contract.hash c1 in
  {| Token.verse := public_bytes side; Token.contract_hash := h;
     Token.member_side := public_bytes side2; Token.issued_at := 7;
     Token.signature := side_sign side (blake3
       (Token.encode_unsigned (public_bytes side) h (public_bytes side2) 7)) |}.

Lemma c1_accepted :
  blen (Contract.to_wire_bytes c1) < u64_size /\
  Contract.from_wire_bytes (Contract.to_wire_bytes c1) = Ok c1.
Proof. split; vm_compute; reflexivity. Qed.

Lemma c1_wf : Contract.wf c1.
Proof.
  destruct c1_accepted as [F E].
  unfold Contract.from_wire_bytes in E. apply result_bind_ok in E as (x & Hx & Hk).
  assert (x = c1) as ->.
  { apply result_bind_ok in Hk as (u & _ & Hk). by apply result_bind_ok in Hk as (u2 & _ & [= ->]). }
  by apply (decode_prefix _ _ Contract.wf) in Hx as [? _].
Qed.

Lemma contract_from_wire_exact_witness :
  Contract.wf c1 /\ signed_by (verse c1) (Contract.unsigned_bytes c1) (signature c1) /\
  Contract.to_wire_bytes c1 = Contract.to_wire_bytes c1.
Proof. apply contract_from_wire_exact; vm_compute; reflexivity. Defined.

Lemma contract_sign_roundtrip_witness :
  Contract.from_wire_bytes (Contract.to_wire_bytes c1) = Ok c1 /\ verse c1 = public_bytes side.
Proof.
  apply (contract_sign_roundtrip side 1 "Chess club" "Rules" (map spec ["display-name"])
    [spec "bio"] ["email"] [] [retention] [pad 32 [Byte.x09]] 1700000000).
  - reflexivity.
  - apply c1_wf.
  - vm_compute. reflexivity.
Defined.

Lemma contract_unsigned_injective_witness :
  {| verse := verse c1; version := version c1; title := title c1; description := description c1;
     required := required c1; optional := optional c1; forbidden := forbidden c1;
     scoped := scoped c1; policies := policies c1; moderators := moderators c1;
     issued_at := issued_at c1; signature := signature c1 |} = c1.
Proof.
  apply contract_unsigned_injective; [apply c1_wf..|vm_compute; reflexivity|reflexivity].
Defined.

Lemma token_from_wire_prefix_witness :
  Token.wf token /\
  signed_by (Token.verse token) (Token.unsigned_bytes token) (Token.signature token) /\
  exists trailing, Token.to_wire_bytes token ++ [Byte.xff] = Token.to_wire_bytes token ++ trailing.
Proof. apply token_from_wire_prefix; vm_compute; reflexivity. Defined.

Lemma expansive_amendments_compose_witness :
  requires_reconsent (Contract.classify_amendment c1 c3) = false.
Proof. apply (expansive_amendments_compose c1 c2 c3); vm_compute; reflexivity. Defined.

Example reductive_amendment : Contract.classify_amendment c3 c1 = Reductive.
Proof. vm_compute. reflexivity. Qed.

Lemma content_open_seal_witness :
  let k := {| ContentKey.key_bytes := pad 32 [Byte.x01] |} in
  exists ct, ContentKey.seal k (pad 12 [Byte.x02]) (as_bytes "post") [] = Ok (pad 12 [Byte.x02], ct) /\
    ContentKey.open k (pad 12 [Byte.x02]) ct [] = Ok (as_bytes "post").
Proof.
  intros k. eexists. split; [vm_compute; reflexivity|].
  apply (content_open_seal k (pad 12 [Byte.x02])). vm_compute. reflexivity.
Defined.

End VerseExamples.
