(* ===== verification/VerseMessages.v ===== *)
(** The verse payloads ([sidevers-core/src/messages/verse.rs]): contract
    fetch and delivery, joining, posting, leaving, removal and amendment.

    Most of these decoders stop at the last field and ignore what follows it;
    the two that carry a contract hand the rest of the buffer to
    [ContractObject::from_wire_bytes], which does not. *)

From S2P Require Import Prelude Utf8 Cbor CborCodec CborValue TextMap Keys Verse.

Open Scope N_scope.

(** ** 0x50 [ContractFetch] *)

Module ContractFetch.

Record ContractFetchPayload := { version : option N }.

Definition encode (p : ContractFetchPayload) : bytes :=
  encode_map [ entry "version" (or_null uint (version p)) ].

Definition fields : Reader ContractFetchPayload :=
  _ ← expect_map 1 "ContractFetch expected 1 key, got {n}";
  _ ← expect_key "version" "ContractFetch expects 'version'";
  v ← read_nullable "missing version" read_u64;
  mret {| version := v |}.

Definition decode (bs : bytes) : result ContractFetchPayload := decode_with fields bs.

Definition wf (p : ContractFetchPayload) : Prop := from_option (fun v => v < u64_size) True (version p).

End ContractFetch.

(** ** 0x51 [ContractDeliver] and 0x58 [VerseAmend] *)

(** [let start = r.position(); ContractObject::from_wire_bytes(&bytes[start..])]
    after the header and the only key. *)
Definition rest_after (header : Reader unit) (bs : bytes) : result bytes :=
  '(_, r) ← header (new_reader bs);
  Ok (remaining r).

Module ContractDeliver.

Record ContractDeliverPayload := { contract : ContractObject }.

Definition encode (p : ContractDeliverPayload) : bytes :=
  encode_map [ entry "contract" (Contract.to_wire_bytes (contract p)) ].

Definition header : Reader unit :=
  _ ← expect_map 1 "ContractDeliver expected 1 key, got {n}";
  expect_key "contract" "ContractDeliver expects 'contract'".

Definition decode `{Crypto} (bs : bytes) : result ContractDeliverPayload :=
  remaining_after_key ← rest_after header bs;
  c ← Contract.from_wire_bytes remaining_after_key;
  Ok {| contract := c |}.

End ContractDeliver.

Module VerseAmend.

Record VerseAmendPayload := { contract : ContractObject }.

Definition encode (p : VerseAmendPayload) : bytes :=
  encode_map [ entry "contract" (Contract.to_wire_bytes (contract p)) ].

Definition header : Reader unit :=
  _ ← expect_map 1 "VerseAmend expected 1 key, got {n}";
  expect_key "contract" "VerseAmend expects 'contract'".

Definition decode `{Crypto} (bs : bytes) : result VerseAmendPayload :=
  rest ← rest_after header bs;
  c ← Contract.from_wire_bytes rest;
  Ok {| contract := c |}.

End VerseAmend.

(** ** 0x52 [JoinRequest] *)

(** [FieldValues = BTreeMap<FieldKind, String>]. *)
Definition encode_field_values (fields : gmap string string) : bytes := encode_text_map text fields.
Definition decode_field_values : Reader (gmap string string) :=
  decode_text_map read_text "field values keys not in canonical order".

Module JoinRequest.

Record JoinRequestPayload := {
  contract_hash : bytes;
  side : bytes;
  fields : gmap string string;
  signature : bytes
}.

Definition unsigned_entries (contract_hash side : bytes) (fields : gmap string string) : list MapEntry :=
  [ entry "side" (bytestr side);
    entry "fields" (encode_field_values fields);
    entry "contract_hash" (bytestr contract_hash) ].

Definition encode_unsigned (contract_hash side : bytes) (fields : gmap string string) : bytes :=
  encode_map (unsigned_entries contract_hash side fields).

Definition wire_entries (p : JoinRequestPayload) : list MapEntry :=
  [ entry "side" (bytestr (side p));
    entry "fields" (encode_field_values (fields p));
    entry "signature" (bytestr (signature p));
    entry "contract_hash" (bytestr (contract_hash p)) ].

Definition encode (p : JoinRequestPayload) : bytes := encode_map (wire_entries p).

Definition unsigned_bytes (p : JoinRequestPayload) : bytes :=
  encode_unsigned (contract_hash p) (side p) (fields p).

Definition read_fields : Reader JoinRequestPayload :=
  let e := "JoinRequest keys not in canonical order" in
  _ ← expect_map 4 "JoinRequest expected 4 keys, got {n}";
  _ ← expect_key "side" e;
  s ← read_fixed_bytes "side" PUBLIC_KEY_LEN;
  _ ← expect_key "fields" e;
  f ← decode_field_values;
  _ ← expect_key "signature" e;
  sg ← read_fixed_bytes "signature" SIGNATURE_LEN;
  _ ← expect_key "contract_hash" e;
  h ← read_fixed_bytes "contract_hash" 32;
  mret {| contract_hash := h; side := s; fields := f; signature := sg |}.

Definition wf (p : JoinRequestPayload) : Prop :=
  blen (side p) = PUBLIC_KEY_LEN /\ wf_text_map wf_text (fields p) /\
  blen (signature p) = SIGNATURE_LEN /\ blen (contract_hash p) = 32.

Section Signed.
Context `{Crypto}.

Definition sign (side_key : SideKey) (contract_hash : bytes) (fields : gmap string string)
    : result JoinRequestPayload :=
  let side := public_bytes side_key in
  let unsigned := encode_unsigned contract_hash side fields in
  let digest := blake3 unsigned in
  Ok {| contract_hash := contract_hash; side := side; fields := fields;
        signature := side_sign side_key digest |}.

Definition decode (bs : bytes) : result JoinRequestPayload :=
  p ← decode_with read_fields bs;
  _ ← verify_signed (side p) (unsigned_bytes p) (signature p);
  Ok p.

End Signed.
End JoinRequest.

(** ** 0x53 [JoinAccept] *)

Module JoinAccept.

Record JoinAcceptPayload := { membership_token : bytes; key_nonce : bytes; sealed_content_key : bytes }.

Definition encode (p : JoinAcceptPayload) : bytes :=
  encode_map
    [ entry "key_nonce" (bytestr (key_nonce p));
      entry "membership_token" (bytestr (membership_token p));
      entry "sealed_content_key" (bytestr (sealed_content_key p)) ].

Definition fields : Reader JoinAcceptPayload :=
  _ ← expect_map 3 "JoinAccept expected 3 keys, got {n}";
  _ ← expect_key "key_nonce" "expected 'key_nonce' first";
  n ← read_fixed_bytes "key_nonce" 16;
  _ ← expect_key "membership_token" "expected 'membership_token' second";
  t ← read_bytes;
  _ ← expect_key "sealed_content_key" "expected 'sealed_content_key' third";
  k ← read_bytes;
  mret {| membership_token := t; key_nonce := n; sealed_content_key := k |}.

Definition decode (bs : bytes) : result JoinAcceptPayload := decode_with fields bs.

Definition wf (p : JoinAcceptPayload) : Prop :=
  blen (key_nonce p) = 16 /\ wf_bytes (membership_token p) /\ wf_bytes (sealed_content_key p).

End JoinAccept.

(** ** 0x54 [JoinDecline] *)

Module JoinDecline.

Record JoinDeclinePayload := { contract_hash : bytes; reason : string }.

Definition encode (p : JoinDeclinePayload) : bytes :=
  encode_map [ entry "reason" (text (reason p)); entry "contract_hash" (bytestr (contract_hash p)) ].

Definition fields : Reader JoinDeclinePayload :=
  _ ← expect_map 2 "JoinDecline expected 2 keys, got {n}";
  _ ← expect_key "reason" "expected 'reason' first";
  t ← read_text;
  _ ← expect_key "contract_hash" "expected 'contract_hash' second";
  h ← read_fixed_bytes "contract_hash" 32;
  mret {| contract_hash := h; reason := t |}.

Definition decode (bs : bytes) : result JoinDeclinePayload := decode_with fields bs.

Definition wf (p : JoinDeclinePayload) : Prop := wf_text (reason p) /\ blen (contract_hash p) = 32.

End JoinDecline.

(** ** 0x57 [VersePost] *)

Module VersePost.

Record VersePostPayload := { nonce : bytes; ciphertext : bytes }.

Definition encode (p : VersePostPayload) : bytes :=
  encode_map [ entry "nonce" (bytestr (nonce p)); entry "ciphertext" (bytestr (ciphertext p)) ].

Definition fields : Reader VersePostPayload :=
  _ ← expect_map 2 "VersePost expected 2 keys, got {n}";
  _ ← expect_key "nonce" "expected 'nonce' first";
  n ← read_fixed_bytes "nonce" 12;
  _ ← expect_key "ciphertext" "expected 'ciphertext' second";
  c ← read_bytes;
  mret {| nonce := n; ciphertext := c |}.

Definition decode (bs : bytes) : result VersePostPayload := decode_with fields bs.

Definition wf (p : VersePostPayload) : Prop := blen (nonce p) = 12 /\ wf_bytes (ciphertext p).

End VersePost.

(** ** 0x55 [VerseLeave] *)

Inductive DataDisposition := Retain | Retract | Transfer.

#[export] Instance DataDisposition_eq_dec : EqDecision DataDisposition.
Proof. solve_decision. Defined.

Module Disposition.

Definition as_str (d : DataDisposition) : string :=
  match d with Retain => "retain" | Retract => "retract" | Transfer => "transfer" end.

Definition parse (s : string) : result DataDisposition :=
  if String.eqb s "retain" then Ok Retain
  else if String.eqb s "retract" then Ok Retract
  else if String.eqb s "transfer" then Ok Transfer
  else Err (Error.CborDecode "unknown DataDisposition '{other}'").

(** [DataDisposition::parse(r.read_text()?)?]. *)
Definition read : Reader DataDisposition := s ← read_text; lift (parse s).

Definition value (d : DataDisposition) : bytes := text (as_str d).

End Disposition.

Module VerseLeave.

Record VerseLeavePayload := {
  verse : bytes;
  side : bytes;
  membership_hash : bytes;
  reason : option string;
  disposition : DataDisposition;
  signature : bytes
}.

Definition unsigned_entries (verse side membership_hash : bytes) (reason : option string)
    (disposition : DataDisposition) : list MapEntry :=
  [ entry "side" (bytestr side);
    entry "verse" (bytestr verse);
    entry "reason" (or_null text reason);
    entry "disposition" (Disposition.value disposition);
    entry "membership_hash" (bytestr membership_hash) ].

Definition encode_unsigned (verse side membership_hash : bytes) (reason : option string)
    (disposition : DataDisposition) : bytes :=
  encode_map (unsigned_entries verse side membership_hash reason disposition).

Definition wire_entries (p : VerseLeavePayload) : list MapEntry :=
  [ entry "side" (bytestr (side p));
    entry "verse" (bytestr (verse p));
    entry "reason" (or_null text (reason p));
    entry "signature" (bytestr (signature p));
    entry "disposition" (Disposition.value (disposition p));
    entry "membership_hash" (bytestr (membership_hash p)) ].

Definition encode (p : VerseLeavePayload) : bytes := encode_map (wire_entries p).

Definition unsigned_bytes (p : VerseLeavePayload) : bytes :=
  encode_unsigned (verse p) (side p) (membership_hash p) (reason p) (disposition p).

Definition fields : Reader VerseLeavePayload :=
  let e := "VerseLeave keys not in canonical order" in
  _ ← expect_map 6 "VerseLeave expected 6 keys, got {n}";
  _ ← expect_key "side" e;
  s ← read_fixed_bytes "side" PUBLIC_KEY_LEN;
  _ ← expect_key "verse" e;
  v ← read_fixed_bytes "verse" PUBLIC_KEY_LEN;
  _ ← expect_key "reason" e;
  t ← read_nullable "missing reason" read_text;
  _ ← expect_key "signature" e;
  sg ← read_fixed_bytes "signature" SIGNATURE_LEN;
  _ ← expect_key "disposition" e;
  d ← Disposition.read;
  _ ← expect_key "membership_hash" e;
  m ← read_fixed_bytes "membership_hash" 32;
  mret {| verse := v; side := s; membership_hash := m; reason := t; disposition := d;
          signature := sg |}.

Definition wf (p : VerseLeavePayload) : Prop :=
  blen (side p) = PUBLIC_KEY_LEN /\ blen (verse p) = PUBLIC_KEY_LEN /\
  from_option wf_text True (reason p) /\ blen (signature p) = SIGNATURE_LEN /\
  blen (membership_hash p) = 32.

Section Signed.
Context `{Crypto}.

Definition sign (side_key : SideKey) (verse membership_hash : bytes) (reason : option string)
    (disposition : DataDisposition) : result VerseLeavePayload :=
  let side := public_bytes side_key in
  let unsigned := encode_unsigned verse side membership_hash reason disposition in
  let digest := blake3 unsigned in
  Ok {| verse := verse; side := side; membership_hash := membership_hash; reason := reason;
        disposition := disposition; signature := side_sign side_key digest |}.

Definition decode (bs : bytes) : result VerseLeavePayload :=
  p ← decode_with fields bs;
  _ ← verify_signed (side p) (unsigned_bytes p) (signature p);
  Ok p.

End Signed.
End VerseLeave.

(** ** 0x56 [VerseRemove] *)

Module VerseRemove.

Record VerseRemovePayload := {
  verse : bytes;
  side : bytes;
  reason : string;
  issued_by : bytes;
  issued_at : N;
  signature : bytes
}.

Definition unsigned_entries (verse side : bytes) (reason : string) (issued_by : bytes) (issued_at : N)
    : list MapEntry :=
  [ entry "side" (bytestr side);
    entry "verse" (bytestr verse);
    entry "reason" (text reason);
    entry "issued_at" (uint issued_at);
    entry "issued_by" (bytestr issued_by) ].

Definition encode_unsigned (verse side : bytes) (reason : string) (issued_by : bytes) (issued_at : N)
    : bytes :=
  encode_map (unsigned_entries verse side reason issued_by issued_at).

Definition wire_entries (p : VerseRemovePayload) : list MapEntry :=
  [ entry "side" (bytestr (side p));
    entry "verse" (bytestr (verse p));
    entry "reason" (text (reason p));
    entry "issued_at" (uint (issued_at p));
    entry "issued_by" (bytestr (issued_by p));
    entry "signature" (bytestr (signature p)) ].

Definition encode (p : VerseRemovePayload) : bytes := encode_map (wire_entries p).

Definition unsigned_bytes (p : VerseRemovePayload) : bytes :=
  encode_unsigned (verse p) (side p) (reason p) (issued_by p) (issued_at p).

Definition fields : Reader VerseRemovePayload :=
  let e := "VerseRemove keys not in canonical order" in
  _ ← expect_map 6 "VerseRemove expected 6 keys, got {n}";
  _ ← expect_key "side" e;
  s ← read_fixed_bytes "side" PUBLIC_KEY_LEN;
  _ ← expect_key "verse" e;
  v ← read_fixed_bytes "verse" PUBLIC_KEY_LEN;
  _ ← expect_key "reason" e;
  t ← read_text;
  _ ← expect_key "issued_at" e;
  i ← read_u64;
  _ ← expect_key "issued_by" e;
  b ← read_fixed_bytes "issued_by" PUBLIC_KEY_LEN;
  _ ← expect_key "signature" e;
  sg ← read_fixed_bytes "signature" SIGNATURE_LEN;
  mret {| verse := v; side := s; reason := t; issued_by := b; issued_at := i; signature := sg |}.

Definition wf (p : VerseRemovePayload) : Prop :=
  blen (side p) = PUBLIC_KEY_LEN /\ blen (verse p) = PUBLIC_KEY_LEN /\ wf_text (reason p) /\
  issued_at p < u64_size /\ blen (issued_by p) = PUBLIC_KEY_LEN /\
  blen (signature p) = SIGNATURE_LEN.

Section Signed.
Context `{Crypto}.

Definition sign (moderator_key : SideKey) (verse side : bytes) (reason : string) (issued_at : N)
    : result VerseRemovePayload :=
  let issued_by := public_bytes moderator_key in
  let unsigned := encode_unsigned verse side reason issued_by issued_at in
  let digest := blake3 unsigned in
  Ok {| verse := verse; side := side; reason := reason; issued_by := issued_by;
        issued_at := issued_at; signature := side_sign moderator_key digest |}.

Definition decode (bs : bytes) : result VerseRemovePayload :=
  p ← decode_with fields bs;
  _ ← verify_signed (issued_by p) (unsigned_bytes p) (signature p);
  Ok p.

End Signed.
End VerseRemove.

(** ** 0x59 [VerseReconsent] *)

Module VerseReconsent.

Record VerseReconsentPayload := { contract_hash : bytes; signature : bytes }.

Definition unsigned_entries (contract_hash : bytes) : list MapEntry :=
  [ entry "contract_hash" (bytestr contract_hash) ].

Definition encode_unsigned (contract_hash : bytes) : bytes :=
  encode_map (unsigned_entries contract_hash).

Definition encode (p : VerseReconsentPayload) : bytes :=
  encode_map
    [ entry "signature" (bytestr (signature p)); entry "contract_hash" (bytestr (contract_hash p)) ].

Definition fields : Reader VerseReconsentPayload :=
  _ ← expect_map 2 "VerseReconsent expected 2 keys, got {n}";
  _ ← expect_key "signature" "expected 'signature' first";
  sg ← read_fixed_bytes "signature" SIGNATURE_LEN;
  _ ← expect_key "contract_hash" "expected 'contract_hash' second";
  h ← read_fixed_bytes "contract_hash" 32;
  mret {| contract_hash := h; signature := sg |}.

Definition wf (p : VerseReconsentPayload) : Prop :=
  blen (signature p) = SIGNATURE_LEN /\ blen (contract_hash p) = 32.

Section Signed.
Context `{Crypto}.

Definition sign (side_key : SideKey) (contract_hash : bytes) : result VerseReconsentPayload :=
  let unsigned := encode_unsigned contract_hash in
  let digest := blake3 unsigned in
  Ok {| contract_hash := contract_hash; signature := side_sign side_key digest |}.

Definition decode_and_verify (bs side_pubkey : bytes) : result VerseReconsentPayload :=
  p ← decode_with fields bs;
  _ ← verify_signed side_pubkey (encode_unsigned (contract_hash p)) (signature p);
  Ok p.

End Signed.
End VerseReconsent.

(** ** Codecs *)

#[export] Instance field_values_codec :
  Codec encode_field_values decode_field_values (wf_text_map wf_text) :=
  codec_text_map text read_text wf_text _.

#[export] Instance disposition_codec :
  Codec Disposition.value Disposition.read (fun _ => True).
Proof.
  intros r d r' F. unfold Disposition.read, Disposition.value. rewrite rd_bind_ok. split.
  - intros (s & r1 & [Hs C]%codec_iff & [Hp ->]%lift_ok); [|done]. split; [done|].
    unfold Disposition.parse in Hp.
    repeat match type of Hp with (if String.eqb ?a ?b then _ else _) = _ =>
      destruct (String.eqb_spec a b) as [->|_] end; by simplify_eq.
  - intros [_ C]. exists (Disposition.as_str d), r'. rewrite codec_iff, lift_ok by done.
    split; [split; [by destruct d|done]|by destruct d].
Qed.

#[export] Instance contract_fetch_codec : Codec ContractFetch.encode ContractFetch.fields ContractFetch.wf.
Proof. unfold ContractFetch.encode, ContractFetch.fields, ContractFetch.wf. solve_codec. Qed.
#[export] Instance join_request_codec : Codec JoinRequest.encode JoinRequest.read_fields JoinRequest.wf.
Proof. unfold JoinRequest.encode, JoinRequest.read_fields, JoinRequest.wf, JoinRequest.wire_entries. solve_codec. Qed.
#[export] Instance join_accept_codec : Codec JoinAccept.encode JoinAccept.fields JoinAccept.wf.
Proof. unfold JoinAccept.encode, JoinAccept.fields, JoinAccept.wf. solve_codec. Qed.
#[export] Instance join_decline_codec : Codec JoinDecline.encode JoinDecline.fields JoinDecline.wf.
Proof. unfold JoinDecline.encode, JoinDecline.fields, JoinDecline.wf. solve_codec. Qed.
#[export] Instance verse_post_codec : Codec VersePost.encode VersePost.fields VersePost.wf.
Proof. unfold VersePost.encode, VersePost.fields, VersePost.wf. solve_codec. Qed.
#[export] Instance verse_leave_codec : Codec VerseLeave.encode VerseLeave.fields VerseLeave.wf.
Proof. unfold VerseLeave.encode, VerseLeave.fields, VerseLeave.wf, VerseLeave.wire_entries. solve_codec. Qed.
#[export] Instance verse_remove_codec : Codec VerseRemove.encode VerseRemove.fields VerseRemove.wf.
Proof. unfold VerseRemove.encode, VerseRemove.fields, VerseRemove.wf, VerseRemove.wire_entries. solve_codec. Qed.
#[export] Instance verse_reconsent_codec : Codec VerseReconsent.encode VerseReconsent.fields VerseReconsent.wf.
Proof. unfold VerseReconsent.encode, VerseReconsent.fields, VerseReconsent.wf. solve_codec. Qed.

(** The header of a contract message is a fixed string of bytes. *)
Definition contract_header : bytes := head_bytes 5 1 ++ text "contract".

#[export] Instance deliver_header_codec :
  Codec (fun _ : unit => contract_header) ContractDeliver.header (fun _ => True).
Proof. apply codec_header_key; by vm_compute. Qed.
#[export] Instance amend_header_codec :
  Codec (fun _ : unit => contract_header) VerseAmend.header (fun _ => True).
Proof. apply codec_header_key; by vm_compute. Qed.

(** ** The messages that carry a contract *)

Section Signed.
Context `{Crypto}.

(** The record is well formed and its verse signed it. *)
Definition contract_valid (c : ContractObject) : Prop :=
  Contract.wf c /\ signed_by (verse c) (Contract.unsigned_bytes c) (signature c).

(** [mk] and [un] are the constructor and the field of the message. *)
Lemma rest_after_contract_ok {P} (mk : ContractObject -> P) (un : P -> ContractObject)
    (header : Reader unit) `{!Codec (fun _ : unit => contract_header) header (fun _ => True)} bs p :
  (forall p, mk (un p) = p) -> (forall c, un (mk c) = c) -> blen bs < u64_size ->
  (rest ← rest_after header bs; c ← Contract.from_wire_bytes rest; Ok (mk c)) = Ok p <->
  contract_valid (un p) /\ bs = encode_map [ entry "contract" (Contract.to_wire_bytes (un p)) ].
Proof.
  intros Hmk Hun F. flatten. change (head_bytes 5 _ ++ text "contract" ++ ?x) with (contract_header ++ x).
  unfold contract_valid, rest_after. rewrite result_bind_ok. split.
  - intros (rest & Hr & Hc). apply result_bind_ok in Hr as ([[] r] & Hh & [= <-]).
    apply codec_iff in Hh as [_ C]; [|by apply fits_new]. apply consumes_new in C as [_ E].
    assert (blen (remaining r) < u64_size) as Fr by (rewrite E, blen_app in F; lia).
    apply result_bind_ok in Hc as (c & Hc & [= <-]). rewrite Hun.
    apply contract_wire_ok in Hc as (Hw & Hs & Hc); [|done]. by rewrite <-Hc.
  - intros [[Hw Hs] E]. set (c := un p) in *. exists (Contract.to_wire_bytes c).
    assert (blen (Contract.to_wire_bytes c) < u64_size) as Fc by (rewrite E, blen_app in F; lia).
    split; [|apply result_bind_ok; exists c; split; [by apply contract_wire_ok|by subst c; rewrite Hmk]].
    apply result_bind_ok.
    exists (tt, advance (new_reader bs) (length contract_header)). split.
    + apply codec_iff; [by apply fits_new|]. split; [done|].
      by apply (consumes_advance _ _ (Contract.to_wire_bytes c)); [apply fits_new|].
    + unfold remaining, advance. cbn [pos buf new_reader Nat.add].
      by rewrite E, drop_app_length.
Qed.

End Signed.

(** ** Properties *)

(** The unsigned verse messages, and the two that carry a contract.  The
    first four are read from any buffer that starts with their encoding; a
    delivered or amended contract must be valid and fill the buffer. *)
Theorem verse_unsigned_exact `{Crypto} bs (F : blen bs < u64_size) :
  (forall p, ContractFetch.decode bs = Ok p <->
     ContractFetch.wf p /\ exists s, bs = ContractFetch.encode p ++ s) /\
  (forall p, JoinAccept.decode bs = Ok p <->
     JoinAccept.wf p /\ exists s, bs = JoinAccept.encode p ++ s) /\
  (forall p, JoinDecline.decode bs = Ok p <->
     JoinDecline.wf p /\ exists s, bs = JoinDecline.encode p ++ s) /\
  (forall p, VersePost.decode bs = Ok p <->
     VersePost.wf p /\ exists s, bs = VersePost.encode p ++ s) /\
  (forall p, ContractDeliver.decode bs = Ok p <->
     contract_valid (ContractDeliver.contract p) /\ bs = ContractDeliver.encode p) /\
  (forall p, VerseAmend.decode bs = Ok p <->
     contract_valid (VerseAmend.contract p) /\ bs = VerseAmend.encode p).
Proof.
  split_and!; intros p.
  1-4: exact (decode_prefix _ _ _ bs p F).
  - apply (rest_after_contract_ok ContractDeliver.Build_ContractDeliverPayload ContractDeliver.contract ContractDeliver.header); [by intros []|done|done].
  - apply (rest_after_contract_ok VerseAmend.Build_VerseAmendPayload VerseAmend.contract VerseAmend.header); [by intros []|done|done].
Qed.

(** The signed verse messages are read exactly from the buffers that start
    with the encoding of a well-formed record signed by the right side: the
    joining or leaving side, the moderator who removes a member, and, for a
    renewed consent, the side the caller names. *)
Theorem verse_signed_exact `{Crypto} bs (F : blen bs < u64_size) :
  (forall p, JoinRequest.decode bs = Ok p <->
     JoinRequest.wf p /\
     signed_by (JoinRequest.side p) (JoinRequest.unsigned_bytes p) (JoinRequest.signature p) /\
     exists s, bs = JoinRequest.encode p ++ s) /\
  (forall p, VerseLeave.decode bs = Ok p <->
     VerseLeave.wf p /\
     signed_by (VerseLeave.side p) (VerseLeave.unsigned_bytes p) (VerseLeave.signature p) /\
     exists s, bs = VerseLeave.encode p ++ s) /\
  (forall p, VerseRemove.decode bs = Ok p <->
     VerseRemove.wf p /\
     signed_by (VerseRemove.issued_by p) (VerseRemove.unsigned_bytes p) (VerseRemove.signature p) /\
     exists s, bs = VerseRemove.encode p ++ s) /\
  (forall pk p, VerseReconsent.decode_and_verify bs pk = Ok p <->
     VerseReconsent.wf p /\
     signed_by pk (VerseReconsent.encode_unsigned (VerseReconsent.contract_hash p))
       (VerseReconsent.signature p) /\
     exists s, bs = VerseReconsent.encode p ++ s).
Proof.
  split_and!.
  - intros p. apply signed_prefix_ok. intros x. exact (decode_prefix _ _ _ bs x F).
  - intros p. apply signed_prefix_ok. intros x. exact (decode_prefix _ _ _ bs x F).
  - intros p. apply signed_prefix_ok. intros x. exact (decode_prefix _ _ _ bs x F).
  - intros pk p. apply (signed_prefix_ok _ _ VerseReconsent.encode (fun _ => pk)).
    intros x. exact (decode_prefix _ _ _ bs x F).
Qed.

(** ** Concrete instances *)

Module VerseMessagesExamples.
Import Toy.

Definition h32 : bytes := replicate 32 Byte.x09.

Definition join : JoinRequest.JoinRequestPayload :=
  let fs : gmap string string := {[ "pronouns" := "they"; "name" := "Ada" ]} in
  {| JoinRequest.contract_hash := h32; JoinRequest.side := public_bytes Toy.side;
     JoinRequest.fields := fs;
     JoinRequest.signature := side_sign Toy.side
       (blake3 (JoinRequest.encode_unsigned h32 (public_bytes Toy.side) fs)) |}.

Lemma verse_signed_exact_witness :
  JoinRequest.wf join /\
  signed_by (JoinRequest.side join) (JoinRequest.unsigned_bytes join) (JoinRequest.signature join) /\
  exists s, JoinRequest.encode join ++ [Byte.x00] = JoinRequest.encode join ++ s.
Proof.
  destruct (verse_signed_exact (JoinRequest.encode join ++ [Byte.x00]) eq_refl) as (J & _).
  apply J. vm_compute. reflexivity.
Defined.

Definition post : VersePost.VersePostPayload :=
  {| VersePost.nonce := replicate 12 Byte.x01; VersePost.ciphertext := [Byte.xff] |}.

Lemma verse_unsigned_exact_witness :
  VersePost.wf post /\ exists s, VersePost.encode post = VersePost.encode post ++ s.
Proof.
  destruct (verse_unsigned_exact (VersePost.encode post) eq_refl) as (_ & _ & _ & P & _).
  apply P. vm_compute. reflexivity.
Defined.

(** A delivered contract followed by one more byte is refused. *)
Example delivery_trailing_refused :
  is_ok (ContractDeliver.decode
    (ContractDeliver.encode {| ContractDeliver.contract := VerseExamples.c1 |})) = true /\
  is_ok (ContractDeliver.decode
    (ContractDeliver.encode {| ContractDeliver.contract := VerseExamples.c1 |} ++ [Byte.x00])) = false.
Proof. vm_compute. done. Qed.

End VerseMessagesExamples.
