(* ===== verification/SignedRecords.v ===== *)
(** Every kind of bytes a key of the protocol signs, in one type.

    The program signs the hash of a record's map without its signature, with
    no label that names the kind of record: what keeps a signature on one
    record from counting for another kind is that the maps differ.  Eighteen
    kinds of record are signed; this file proves that their signed bytes never
    coincide and that they determine the record. *)

From S2P Require Import Prelude Utf8 Cbor CborCodec CborValue TextMap Keys.
From S2P Require Import Envelope Device Profile PublicLayer Records Verse VerseMessages.

Open Scope N_scope.

(** ** The signed records *)

Inductive SignedRecord :=
| SEnvelope (p : Envelope.Envelope)
| SLinkage (p : Linkage.LinkageProof)
| SRetirement (p : Retirement.SideRetirementPayload)
| SContract (p : Verse.ContractObject)
| SToken (p : Token.MembershipToken)
| SPairing (p : PairingRequest.PairingRequestPayload)
| SBundle (p : StateBundle.StateBundlePayload)
| SRevoke (p : DeviceRevoke.DeviceRevokePayload)
| SDelta (p : Delta.StateDeltaPayload)
| SProfile (p : Profile.ProfilePayload)
| SPrefs (p : StoragePrefs.StoragePreferences)
| SAttest (p : HandleAttest.HandleAttestPayload)
| SPage (p : PagePublish.PagePublishPayload)
| SAnnounce (p : Announcement.AnnouncementPayload)
| SJoin (p : JoinRequest.JoinRequestPayload)
| SLeave (p : VerseLeave.VerseLeavePayload)
| SRemove (p : VerseRemove.VerseRemovePayload)
| SReconsent (p : VerseReconsent.VerseReconsentPayload).

Definition unsigned_of (r : SignedRecord) : bytes :=
  match r with
  | SEnvelope p => Envelope.unsigned_bytes p
  | SLinkage p => Linkage.unsigned_bytes p
  | SRetirement p => Retirement.unsigned_bytes p
  | SContract p => Contract.unsigned_bytes p
  | SToken p => Token.unsigned_bytes p
  | SPairing p => PairingRequest.unsigned_bytes p
  | SBundle p => StateBundle.unsigned_bytes p
  | SRevoke p => DeviceRevoke.unsigned_bytes p
  | SDelta p => Delta.unsigned_bytes p
  | SProfile p => Profile.Profile.unsigned_bytes p
  | SPrefs p => StoragePrefs.unsigned_bytes p
  | SAttest p => HandleAttest.unsigned_bytes p
  | SPage p => PagePublish.unsigned_bytes p
  | SAnnounce p => Announcement.unsigned_bytes p
  | SJoin p => JoinRequest.unsigned_bytes p
  | SLeave p => VerseLeave.unsigned_bytes p
  | SRemove p => VerseRemove.unsigned_bytes p
  | SReconsent p => VerseReconsent.encode_unsigned (VerseReconsent.contract_hash p)
  end.

Definition wire_of (r : SignedRecord) : bytes :=
  match r with
  | SEnvelope p => Envelope.to_wire_bytes p
  | SLinkage p => Linkage.to_wire_bytes p
  | SRetirement p => Retirement.to_wire_bytes p
  | SContract p => Contract.to_wire_bytes p
  | SToken p => Token.to_wire_bytes p
  | SPairing p => PairingRequest.to_wire_bytes p
  | SBundle p => StateBundle.to_wire_bytes p
  | SRevoke p => DeviceRevoke.to_wire_bytes p
  | SDelta p => Delta.to_wire_bytes p
  | SProfile p => Profile.Profile.to_wire_bytes p
  | SPrefs p => StoragePrefs.to_wire_bytes p
  | SAttest p => HandleAttest.to_wire_bytes p
  | SPage p => PagePublish.to_wire_bytes p
  | SAnnounce p => Announcement.to_wire_bytes p
  | SJoin p => JoinRequest.encode p
  | SLeave p => VerseLeave.encode p
  | SRemove p => VerseRemove.encode p
  | SReconsent p => VerseReconsent.encode p
  end.

(** The entries of the unsigned map. *)
Definition entries_of (r : SignedRecord) : list MapEntry :=
  match r with
  | SEnvelope (Envelope.Build_Envelope v t fr to ts n pl _) => Envelope.unsigned_entries v t fr to ts n pl
  | SLinkage (Linkage.Build_LinkageProof a b i n _ _) => Linkage.unsigned_entries n a b i
  | SRetirement (Retirement.Build_SideRetirementPayload s re i _) => Retirement.unsigned_entries s re i
  | SContract (Verse.Build_ContractObject ve vn ti de re op fo sc po mo ia _) =>
    Contract.unsigned_entries ve vn ti de re op fo sc po mo ia
  | SToken (Token.Build_MembershipToken v h m i _) => Token.unsigned_entries v h m i
  | SPairing p =>
    PairingRequest.unsigned_entries (PairingRequest.side p) (PairingRequest.device_pubkey p)
      (PairingRequest.device_x25519_pubkey p) (PairingRequest.nonce p)
  | SBundle p =>
    StateBundle.unsigned_entries (StateBundle.side p) (StateBundle.recipient_device p)
      (StateBundle.nonce p) (StateBundle.key_nonce p) (StateBundle.sealed_state p)
  | SRevoke p =>
    DeviceRevoke.unsigned_entries (DeviceRevoke.side p) (DeviceRevoke.device_pubkey p)
      (DeviceRevoke.revoked_at p) (DeviceRevoke.reason p)
  | SDelta p => Delta.unsigned_entries (Delta.side p) (Delta.ops p) (Delta.applied_at p)
  | SProfile (Profile.Build_ProfilePayload s n a b l f c u _) =>
    Profile.Profile.unsigned_entries s n a b l f c u
  | SPrefs (StoragePrefs.Build_StoragePreferences s pr m h u _) => StoragePrefs.unsigned_entries s u m pr h
  | SAttest (HandleAttest.Build_HandleAttestPayload s h d i _) => HandleAttest.unsigned_entries s h d i
  | SPage (PagePublish.Build_PagePublishPayload s sl m c i _) => PagePublish.unsigned_entries s m sl c i
  | SAnnounce (Announcement.Build_AnnouncementPayload s b i _) => Announcement.unsigned_entries s b i
  | SJoin (JoinRequest.Build_JoinRequestPayload h s f _) => JoinRequest.unsigned_entries h s f
  | SLeave (VerseLeave.Build_VerseLeavePayload v s m re d _) => VerseLeave.unsigned_entries v s m re d
  | SRemove (VerseRemove.Build_VerseRemovePayload v s re b i _) => VerseRemove.unsigned_entries v s re b i
  | SReconsent (VerseReconsent.Build_VerseReconsentPayload h _) => VerseReconsent.unsigned_entries h
  end.

(** What the decoders establish of the fields, [wf] of each kind. *)
Definition record_wf (r : SignedRecord) : Prop :=
  match r with
  | SEnvelope p => Envelope.wf_envelope p
  | SLinkage p => Linkage.wf p
  | SRetirement p => Retirement.wf p
  | SContract p => Contract.wf p
  | SToken p => Token.wf p
  | SPairing p => PairingRequest.wf p
  | SBundle p => StateBundle.wf p
  | SRevoke p => DeviceRevoke.wf p
  | SDelta p => Delta.wf p
  | SProfile p => Profile.Profile.wf p
  | SPrefs p => StoragePrefs.wf p
  | SAttest p => HandleAttest.wf p
  | SPage p => PagePublish.wf p
  | SAnnounce p => Announcement.wf p
  | SJoin p => JoinRequest.wf p
  | SLeave p => VerseLeave.wf p
  | SRemove p => VerseRemove.wf p
  | SReconsent p => VerseReconsent.wf p
  end.

(** A signature field of zeros. *)
Definition blank : bytes := replicate 64 Byte.x00.

(** The record with its signatures blanked out: everything that is signed. *)
Definition strip (r : SignedRecord) : SignedRecord :=
  match r with
  | SEnvelope (Envelope.Build_Envelope v t fr to ts n pl _) =>
    SEnvelope (Envelope.Build_Envelope v t fr to ts n pl blank)
  | SLinkage (Linkage.Build_LinkageProof a b i n _ _) =>
    SLinkage (Linkage.Build_LinkageProof a b i n blank blank)
  | SRetirement (Retirement.Build_SideRetirementPayload s re i _) =>
    SRetirement (Retirement.Build_SideRetirementPayload s re i blank)
  | SContract (Verse.Build_ContractObject ve vn ti de re op fo sc po mo ia _) =>
    SContract (Verse.Build_ContractObject ve vn ti de re op fo sc po mo ia blank)
  | SToken (Token.Build_MembershipToken v h m i _) => SToken (Token.Build_MembershipToken v h m i blank)
  | SPairing (PairingRequest.Build_PairingRequestPayload a b c d _) =>
    SPairing (PairingRequest.Build_PairingRequestPayload a b c d blank)
  | SBundle (StateBundle.Build_StateBundlePayload a b c d e _) =>
    SBundle (StateBundle.Build_StateBundlePayload a b c d e blank)
  | SRevoke (DeviceRevoke.Build_DeviceRevokePayload a b c d _) =>
    SRevoke (DeviceRevoke.Build_DeviceRevokePayload a b c d blank)
  | SDelta (Delta.Build_StateDeltaPayload a b c _) => SDelta (Delta.Build_StateDeltaPayload a b c blank)
  | SProfile (Profile.Build_ProfilePayload s n a b l f c u _) =>
    SProfile (Profile.Build_ProfilePayload s n a b l f c u blank)
  | SPrefs (StoragePrefs.Build_StoragePreferences s pr m h u _) =>
    SPrefs (StoragePrefs.Build_StoragePreferences s pr m h u blank)
  | SAttest (HandleAttest.Build_HandleAttestPayload s h d i _) =>
    SAttest (HandleAttest.Build_HandleAttestPayload s h d i blank)
  | SPage (PagePublish.Build_PagePublishPayload s sl m c i _) =>
    SPage (PagePublish.Build_PagePublishPayload s sl m c i blank)
  | SAnnounce (Announcement.Build_AnnouncementPayload s b i _) =>
    SAnnounce (Announcement.Build_AnnouncementPayload s b i blank)
  | SJoin (JoinRequest.Build_JoinRequestPayload h s f _) =>
    SJoin (JoinRequest.Build_JoinRequestPayload h s f blank)
  | SLeave (VerseLeave.Build_VerseLeavePayload v s m re d _) =>
    SLeave (VerseLeave.Build_VerseLeavePayload v s m re d blank)
  | SRemove (VerseRemove.Build_VerseRemovePayload v s re b i _) =>
    SRemove (VerseRemove.Build_VerseRemovePayload v s re b i blank)
  | SReconsent (VerseReconsent.Build_VerseReconsentPayload h _) =>
    SReconsent (VerseReconsent.Build_VerseReconsentPayload h blank)
  end.

Lemma unsigned_of_eq r : unsigned_of r = encode_map (entries_of r).
Proof. by destruct r as [[]|[]|[]|[]|[]|[]|[]|[]|[]|[]|[]|[]|[]|[]|[]|[]|[]|[]]. Qed.

(** ** Maps of sized items are injective, keys included *)

(** One item whose lengths and integers fit 64 bits; map keys in any order. *)
Definition Sized (bs : bytes) : Prop := exists v, sized v /\ bs = enc v.

Definition SizedEntry (e : MapEntry) : Prop := Sized (key_bytes e) /\ Sized (value_bytes e).

Lemma Canonical_Sized bs : Canonical bs -> Sized bs.
Proof. intros (v & Hv & ->). exists v. split; [by apply canonical_sized|done]. Qed.

Lemma skippable_sized v : skippable v -> sized v.
Proof.
  induction v as [| |t|l IH|l IH| |] using cval_ind'; cbn [skippable sized];
    rewrite ?foldr_and; try done.
  - by intros [_ ?].
  - intros [Hn H]. split; [change MAX_CBOR_ENTRIES with 1048576 in Hn; unfold u64_size; lia|].
    rewrite Forall_forall in *. eauto.
  - intros [Hn H]. split; [change MAX_CBOR_ENTRIES with 1048576 in Hn; unfold u64_size; lia|].
    rewrite Forall_forall in *. intros kv Hkv. destruct (IH _ Hkv), (H _ Hkv). auto.
Qed.

Lemma sized_entries_values es :
  Forall SizedEntry es ->
  exists kvs, Forall (fun kv => sized (fst kv) /\ sized (snd kv)) kvs /\
    map (fun kv => {| key_bytes := enc (fst kv); value_bytes := enc (snd kv) |}) kvs = es.
Proof.
  induction 1 as [|[k v] es [(ck & Hk & Ek) (cv & Hv & Ev)] _ (kvs & Hkvs & <-)]; [by exists []|].
  cbn [key_bytes value_bytes] in *. subst. exists ((ck, cv) :: kvs). split; [by constructor|done].
Qed.

Lemma encode_map_CMap kvs :
  encode_map (map (fun kv => {| key_bytes := enc (fst kv); value_bytes := enc (snd kv) |}) kvs)
  = enc (CMap kvs).
Proof. by rewrite encode_map_eq, length_map, map_map. Qed.

Lemma Sized_map es :
  N.of_nat (length es) < u64_size -> Forall SizedEntry es -> Sized (encode_map es).
Proof.
  intros Hn (kvs & Hkvs & <-)%sized_entries_values. rewrite length_map in Hn.
  exists (CMap kvs). rewrite encode_map_CMap. split; [|done]. cbn [sized]. by rewrite foldr_and.
Qed.

(** Equal maps have equal entries: keys, values, number and order. *)
Lemma encode_map_entries_inj es es' :
  N.of_nat (length es) < u64_size -> N.of_nat (length es') < u64_size ->
  Forall SizedEntry es -> Forall SizedEntry es' ->
  encode_map es = encode_map es' -> es = es'.
Proof.
  intros Hn Hn' (kvs & Hkvs & <-)%sized_entries_values (kvs' & Hkvs' & <-)%sized_entries_values.
  rewrite length_map in Hn, Hn'. rewrite !encode_map_CMap. intros E.
  destruct (enc_prefix (CMap kvs) (CMap kvs') [] []) as [Hm _].
  - cbn [sized]. by rewrite foldr_and.
  - cbn [sized]. by rewrite foldr_and.
  - by rewrite !app_nil_r.
  - by injection Hm as ->.
Qed.

Lemma Sized_text_map {V} (encv : V -> bytes) (wfv : V -> Prop) m :
  (forall v, wfv v -> Sized (encv v)) -> wf_text_map wfv m -> Sized (encode_text_map encv m).
Proof.
  intros Hv [Hn Hwf]. apply Sized_map; unfold sort_by_key.
  - rewrite merge_sort_Permutation, length_map, length_map_to_list.
    change MAX_CBOR_ENTRIES with 1048576 in Hn. unfold u64_size. lia.
  - rewrite merge_sort_Permutation, Forall_forall.
    intros e ([k v] & -> & Hkv%elem_of_map_to_list)%list_elem_of_fmap.
    destruct (Hwf k v Hkv) as [Hk Hw]. split; [by apply Canonical_Sized, Canonical_text|by apply Hv].
Qed.

Lemma Sized_or_null {A} (e : A -> bytes) (wf : A -> Prop) o :
  (forall a, wf a -> Sized (e a)) -> from_option wf True o -> Sized (or_null e o).
Proof. intros He Ho. destruct o; [by apply He|]. by exists CNull. Qed.

Lemma Sized_fields f : from_option (wf_text_map wf_raw) True f -> Sized (or_null encode_fields_submap f).
Proof.
  apply Sized_or_null. intros m. apply Sized_text_map.
  intros v (c & [Hc _] & ->). exists c. split; [by apply skippable_sized|done].
Qed.

Lemma Canonical_text_set s : wf_text_set s -> Canonical (encode_text_set s).
Proof.
  intros [Hs Hn]. unfold encode_text_set. eapply Canonical_array; [apply Canonical_text| |].
  - rewrite set_to_list_permutation, Forall_forall. intros t Ht%elem_of_elements. by apply Hs.
  - rewrite set_to_list_length. change MAX_CBOR_ENTRIES with 1048576 in Hn. unfold u64_size. lia.
Qed.

Lemma Canonical_field_values m : wf_text_map wf_text m -> Canonical (encode_field_values m).
Proof. apply Canonical_text_map, Canonical_text. Qed.

Lemma Canonical_providers l :
  Forall (fun b => blen b = PUBLIC_KEY_LEN) l -> N.of_nat (length l) <= MAX_CBOR_ENTRIES ->
  Canonical (StoragePrefs.encode_provider_array l).
Proof. intros Hl Hn. unfold StoragePrefs.encode_provider_array. canon. Qed.

Lemma Canonical_disposition d : Canonical (Disposition.value d).
Proof. apply Canonical_text. by destruct d. Qed.

Lemma Canonical_links l :
  from_option (fun l => Forall wf_text l /\ N.of_nat (length l) <= MAX_CBOR_ENTRIES) True l ->
  Canonical (or_null (write_array text) l).
Proof. apply Canonical_or_null. intros k [Hk Hn]. canon. Qed.

#[local] Hint Resolve Canonical_text_set Canonical_field_values Canonical_providers
  Canonical_disposition : sv.

Ltac size_item :=
  first [ by apply Sized_fields | by apply Canonical_Sized, Canonical_links | apply Canonical_Sized; destruct_and?; canon ].

Lemma entries_sized r : record_wf r -> Forall SizedEntry (entries_of r).
Proof.
  destruct r as [[]|[]|[]|[]|[]|[]|[]|[]|[]|[]|[]|[]|[]|[]|[]|[]|[]|[]]; intros Hwf;
    hnf in Hwf; cbn in Hwf; destruct_and?.
  all: repeat (apply Forall_cons; split); [..|by apply Forall_nil].
  all: cbn [key_bytes value_bytes entry DeviceRevoke.revoked_at Delta.applied_at]; split; size_item.
Qed.

(** ** The kinds are told apart by their keys *)

Definition kind_of (r : SignedRecord) : nat :=
  match r with
  | SEnvelope _ => 0 | SLinkage _ => 1 | SRetirement _ => 2 | SContract _ => 3 | SToken _ => 4
  | SPairing _ => 5 | SBundle _ => 6 | SRevoke _ => 7 | SDelta _ => 8 | SProfile _ => 9
  | SPrefs _ => 10 | SAttest _ => 11 | SPage _ => 12 | SAnnounce _ => 13 | SJoin _ => 14
  | SLeave _ => 15 | SRemove _ => 16 | SReconsent _ => 17
  end.

Definition key_table : list (list string) :=
  [ ["t"; "v"; "to"; "ts"; "from"; "nonce"; "payload"];
    ["nonce"; "side_a"; "side_b"; "issued_at"];
    ["side"; "reason"; "retired_at"];
    ["title"; "verse"; "scoped"; "version"; "optional"; "policies"; "required"; "forbidden";
     "issued_at"; "moderators"; "description"];
    ["verse"; "member"; "issued_at"; "contract_hash"];
    ["side"; "nonce"; "device_pubkey"; "device_x25519_pubkey"];
    ["side"; "nonce"; "key_nonce"; "sealed_state"; "recipient_device"];
    ["side"; "reason"; "revoked_at"; "device_pubkey"];
    ["ops"; "side"; "applied_at"];
    ["bio"; "name"; "side"; "links"; "avatar"; "fields"; "updated_at"; "capabilities"];
    ["side"; "updated_at"; "max_object_kib"; "preferred_providers"; "retention_hint_secs"];
    ["side"; "domain"; "issued_at"; "handle_local"];
    ["mime"; "side"; "slug"; "content"; "published_at"];
    ["body"; "side"; "created_at"];
    ["side"; "fields"; "contract_hash"];
    ["side"; "verse"; "reason"; "disposition"; "membership_hash"];
    ["side"; "verse"; "reason"; "issued_at"; "issued_by"];
    ["contract_hash"] ].

Lemma entries_keys r :
  exists ks, key_table !! kind_of r = Some ks /\ map key_bytes (entries_of r) = map key ks.
Proof. destruct r as [[]|[]|[]|[]|[]|[]|[]|[]|[]|[]|[]|[]|[]|[]|[]|[]|[]|[]]; by eexists. Qed.

Lemma key_table_NoDup : NoDup (map (map key) key_table).
Proof. by apply (bool_decide_unpack _); vm_compute. Qed.

Lemma same_keys_same_kind r1 r2 :
  map key_bytes (entries_of r1) = map key_bytes (entries_of r2) -> kind_of r1 = kind_of r2.
Proof.
  destruct (entries_keys r1) as (k1 & H1 & ->), (entries_keys r2) as (k2 & H2 & ->). intros E.
  apply (NoDup_lookup (map (map key) key_table) _ _ (map key k1) key_table_NoDup);
    rewrite list_lookup_fmap; [by rewrite H1|]. rewrite H2. cbn. by rewrite E.
Qed.

(** ** The signed fields determine the stripped record *)

Lemma blank_length : blen blank = SIGNATURE_LEN.
Proof. reflexivity. Qed.

Lemma strip_wf r : record_wf r -> record_wf (strip r).
Proof.
  destruct r as [[]|[]|[]|[]|[]|[]|[]|[]|[]|[]|[]|[]|[]|[]|[]|[]|[]|[]]; intros Hwf;
    hnf in Hwf |- *; cbn in Hwf |- *; destruct_and?; split_and?; done || exact blank_length.
Qed.

Lemma blen_bytestr_same a b : blen a = blen b -> blen (bytestr a) = blen (bytestr b).
Proof. intros E. by rewrite !bytestr_eq, !blen_app, E. Qed.

(** Maps that differ in values of the same lengths are equally long. *)
Lemma blen_encode_map_same es es' :
  Forall2 (fun e e' => key_bytes e = key_bytes e' /\ blen (value_bytes e) = blen (value_bytes e'))
    es es' ->
  blen (encode_map es) = blen (encode_map es').
Proof.
  intros H. rewrite !encode_map_eq, !blen_app, (Forall2_length _ _ _ H). f_equal.
  induction H as [|e e' es es' [Hk Hv] _ IH]; [done|].
  cbn [map concat]. rewrite !blen_app, Hk, Hv, IH. done.
Qed.

Lemma strip_wire_length r : record_wf r -> blen (wire_of (strip r)) = blen (wire_of r).
Proof.
  destruct r as [[]|[]|[]|[]|[]|[]|[]|[]|[]|[]|[]|[]|[]|[]|[]|[]|[]|[]]; intros Hwf;
    hnf in Hwf; cbn in Hwf; destruct_and?.
  all: apply blen_encode_map_same; repeat (apply Forall2_cons; split); [..|by apply Forall2_nil].
  all: split; first [done|apply blen_bytestr_same; etrans; [exact blank_length|symmetry; assumption]].
Qed.

Lemma strip_wire_eq r1 r2 :
  kind_of r1 = kind_of r2 -> entries_of r1 = entries_of r2 -> wire_of (strip r1) = wire_of (strip r2).
Proof.
  destruct r1 as [[]|[]|[]|[]|[]|[]|[]|[]|[]|[]|[]|[]|[]|[]|[]|[]|[]|[]],
    r2 as [[]|[]|[]|[]|[]|[]|[]|[]|[]|[]|[]|[]|[]|[]|[]|[]|[]|[]]; intros [=].
  all: cbn [entries_of]; intros E.
  all: apply (f_equal (map value_bytes)) in E; injection E; intros.
  all: cbn [strip wire_of]; apply (f_equal encode_map).
  all: repeat apply (f_equal2 cons); try reflexivity.
  all: by apply (f_equal (entry _)).
Qed.

Lemma wire_of_inj r1 r2 :
  record_wf r1 -> record_wf r2 -> kind_of r1 = kind_of r2 -> blen (wire_of r1) < u64_size ->
  wire_of r1 = wire_of r2 -> r1 = r2.
Proof.
  destruct r1, r2; intros W1 W2 [=] Hl E; f_equal; cbn [wire_of record_wf] in *.
  - exact (codec_inj (Codec0 := envelope_codec) p p0 W1 W2 Hl E).
  - exact (codec_inj (Codec0 := linkage_codec) p p0 W1 W2 Hl E).
  - exact (codec_inj (Codec0 := retirement_codec) p p0 W1 W2 Hl E).
  - exact (codec_inj (Codec0 := contract_codec) p p0 W1 W2 Hl E).
  - exact (codec_inj (Codec0 := token_codec) p p0 W1 W2 Hl E).
  - exact (codec_inj (Codec0 := pairing_request_codec) p p0 W1 W2 Hl E).
  - exact (codec_inj (Codec0 := state_bundle_codec) p p0 W1 W2 Hl E).
  - exact (codec_inj (Codec0 := device_revoke_codec) p p0 W1 W2 Hl E).
  - exact (codec_inj (Codec0 := state_delta_codec) p p0 W1 W2 Hl E).
  - exact (codec_inj (Codec0 := profile_codec) p p0 W1 W2 Hl E).
  - exact (codec_inj (Codec0 := storage_prefs_codec) p p0 W1 W2 Hl E).
  - exact (codec_inj (Codec0 := handle_attest_codec) p p0 W1 W2 Hl E).
  - exact (codec_inj (Codec0 := page_publish_codec) p p0 W1 W2 Hl E).
  - exact (codec_inj (Codec0 := announcement_codec) p p0 W1 W2 Hl E).
  - exact (codec_inj (Codec0 := join_request_codec) p p0 W1 W2 Hl E).
  - exact (codec_inj (Codec0 := verse_leave_codec) p p0 W1 W2 Hl E).
  - exact (codec_inj (Codec0 := verse_remove_codec) p p0 W1 W2 Hl E).
  - exact (codec_inj (Codec0 := verse_reconsent_codec) p p0 W1 W2 Hl E).
Qed.

Lemma strip_kind r : kind_of (strip r) = kind_of r.
Proof. by destruct r as [[]|[]|[]|[]|[]|[]|[]|[]|[]|[]|[]|[]|[]|[]|[]|[]|[]|[]]. Qed.

Lemma entries_of_length r : (length (entries_of r) <= 11)%nat.
Proof. destruct r as [[]|[]|[]|[]|[]|[]|[]|[]|[]|[]|[]|[]|[]|[]|[]|[]|[]|[]]; cbn; lia. Qed.

(** ** Property *)

(** C4: no signature can be moved between records: the bytes that are signed
    for two well-formed records, of any of the eighteen kinds, are equal only
    if the records are of the same kind and agree on every field but the
    signatures. *)
Theorem signed_bytes_separate r1 r2
    (W1 : record_wf r1) (W2 : record_wf r2) (F : blen (wire_of r1) < u64_size)
    (E : unsigned_of r1 = unsigned_of r2) :
  strip r1 = strip r2.
Proof.
  rewrite !unsigned_of_eq in E. apply encode_map_entries_inj in E; try by apply entries_sized.
  2, 3: unfold u64_size; pose proof (entries_of_length r1); pose proof (entries_of_length r2); lia.
  assert (kind_of r1 = kind_of r2) as K by (apply same_keys_same_kind; by rewrite E).
  apply wire_of_inj; [by apply strip_wf..| |by rewrite strip_wire_length|by apply strip_wire_eq].
  by rewrite !strip_kind.
Qed.

(** ** Concrete instance *)

Module SignedRecordsExamples.
Import Toy.

Definition revoke (at_ : N) : SignedRecord :=
  SRevoke {| DeviceRevoke.side := replicate 32 Byte.x01; DeviceRevoke.device_pubkey := replicate 32 Byte.x02;
             DeviceRevoke.revoked_at := at_; DeviceRevoke.reason := None;
             DeviceRevoke.signature := replicate 64 Byte.x03 |}.

Lemma signed_bytes_separate_witness : strip (revoke 7) = strip (revoke 7).
Proof.
  apply signed_bytes_separate.
  - vm_compute. repeat split.
  - vm_compute. repeat split.
  - vm_compute. reflexivity.
  - reflexivity.
Defined.

End SignedRecordsExamples.
