(* ===== verification/Keystore.v ===== *)
(** Passphrase-sealed seeds ([sidevers-core/src/keystore.rs]).

    Argon2 is the class [Kdf]; the cipher is that of [Payload.Ecies].  The salt
    and the nonce of a seal are what [getrandom] filled in. *)

From S2P Require Import Prelude Utf8 Cbor CborCodec Keys Envelope Payload.

Open Scope N_scope.

(** ** Sealed seeds *)

Module Keystore.

Definition SEALED_SEED_VERSION : N := 1.
Definition KDF_ARGON2ID : string := "argon2id".
Definition AEAD_CC20P : string := "chacha20-poly1305".
Definition SALT_LEN : N := 16.
Definition AEAD_NONCE_LEN : N := 12.

Module Argon2Params.

Record Argon2Params := { m_kib : N; t : N; p : N }.

Definition default : Argon2Params := {| m_kib := 19456; t := 2; p := 1 |}.
Definition fast_for_tests : Argon2Params := {| m_kib := 32; t := 1; p := 1 |}.

End Argon2Params.


(** [Params::new(m, t, p, Some(32))] succeeds, and what [hash_password_into]
    fills in. *)
Class Kdf := {
  argon2_params_ok : Argon2Params.Argon2Params -> bool;
  hash_password_into : Argon2Params.Argon2Params -> bytes -> bytes -> option bytes
}.

Record ParsedSealed := {
  version : N;
  kdf : string;
  m_kib : N;
  t : N;
  p : N;
  salt : bytes;
  aead : string;
  nonce : bytes;
  ct : bytes
}.

Definition entries (x : ParsedSealed) : list MapEntry :=
  [ entry "ct" (bytestr (ct x));
    entry "kdf" (text (kdf x));
    entry "aead" (text (aead x));
    entry "salt" (bytestr (salt x));
    entry "nonce" (bytestr (nonce x));
    entry "version" (uint (version x));
    entry "argon2_m" (uint (m_kib x));
    entry "argon2_p" (uint (p x));
    entry "argon2_t" (uint (t x)) ].

Definition encode_sealed (x : ParsedSealed) : bytes := encode_map (entries x).

(** [u32_from_u64(r.read_u64()?, name)?] *)
Definition read_u32 (name : string) : Reader N :=
  v ← read_u64;
  _ ← guard (v <=? u32_max) (Error.BadFieldLength name 4 8);
  mret v.

Definition fields : Reader ParsedSealed :=
  let e := "sealed-seed keys not in canonical order" in
  _ ← expect_map 9 "sealed-seed expected 9 keys, got {n}";
  _ ← expect_key "ct" e;
  c ← read_bytes;
  _ ← expect_key "kdf" e;
  k ← read_text;
  _ ← expect_key "aead" e;
  a ← read_text;
  _ ← expect_key "salt" e;
  s ← read_bytes;
  _ ← expect_key "nonce" e;
  n ← read_bytes;
  _ ← expect_key "version" e;
  v ← read_u64;
  _ ← expect_key "argon2_m" e;
  m ← read_u32 "argon2_m";
  _ ← expect_key "argon2_p" e;
  l ← read_u32 "argon2_p";
  _ ← expect_key "argon2_t" e;
  tc ← read_u32 "argon2_t";
  mret {| version := v; kdf := k; m_kib := m; t := tc; p := l; salt := s;
          aead := a; nonce := n; ct := c |}.

Definition decode_sealed (bs : bytes) : result ParsedSealed :=
  decode_with (x ← fields; _ ← check_end (Error.CborDecode "trailing bytes after sealed-seed"); mret x) bs.

(** The authenticated data: an array of seven items. *)
Definition build_aad (version : N) (kdf aead : string) (params : Argon2Params.Argon2Params) (salt : bytes) : bytes :=
  wbuf (write_bytes salt
    (write_text aead
      (write_u64 (Argon2Params.p params)
        (write_u64 (Argon2Params.t params)
          (write_u64 (Argon2Params.m_kib params)
            (write_text kdf
              (write_u64 version
                (write_array_header 7 new_writer)))))))).

Section Keystore.
Context `{Kdf, Ecies}.

Definition derive_kek (passphrase : string) (salt : bytes) (params : Argon2Params.Argon2Params) : result bytes :=
  _ ← ensure (argon2_params_ok params) (Error.Invariant "invalid Argon2 parameters");
  ok_or (hash_password_into params (as_bytes passphrase) salt) (Error.Invariant "Argon2 derivation failed").

Definition seal_seed_with (seed : bytes) (passphrase : string) (params : Argon2Params.Argon2Params) (salt nonce : bytes)
    : result bytes :=
  kek ← derive_kek passphrase salt params;
  let aad := build_aad SEALED_SEED_VERSION KDF_ARGON2ID AEAD_CC20P params salt in
  ct ← ok_or (aead_encrypt kek nonce aad seed)
         (Error.Invariant "AEAD seal failed (impossible at fixed input length)");
  Ok (encode_sealed {| version := SEALED_SEED_VERSION; kdf := KDF_ARGON2ID;
                       m_kib := Argon2Params.m_kib params; t := Argon2Params.t params;
                       p := Argon2Params.p params; salt := salt; aead := AEAD_CC20P; nonce := nonce; ct := ct |}).

Definition seal_seed (seed : bytes) (passphrase : string) (salt nonce : bytes) : result bytes :=
  seal_seed_with seed passphrase Argon2Params.default salt nonce.

Definition params_of (x : ParsedSealed) : Argon2Params.Argon2Params :=
  {| Argon2Params.m_kib := m_kib x; Argon2Params.t := t x; Argon2Params.p := p x |}.

Definition open_seed (sealed : bytes) (passphrase : string) : result bytes :=
  x ← decode_sealed sealed;
  _ ← ensure (version x =? SEALED_SEED_VERSION)
        (Error.CborDecode "sealed-seed format version {} not supported (this build knows v{})");
  _ ← ensure (String.eqb (kdf x) KDF_ARGON2ID) (Error.CborDecode "sealed-seed kdf {:?} not supported");
  _ ← ensure (String.eqb (aead x) AEAD_CC20P) (Error.CborDecode "sealed-seed aead {:?} not supported");
  _ ← ensure (blen (salt x) =? SALT_LEN) (Error.BadFieldLength "salt" SALT_LEN (blen (salt x)));
  _ ← ensure (blen (nonce x) =? AEAD_NONCE_LEN) (Error.BadFieldLength "nonce" AEAD_NONCE_LEN (blen (nonce x)));
  let params := params_of x in
  kek ← derive_kek passphrase (salt x) params;
  let aad := build_aad (version x) (kdf x) (aead x) params (salt x) in
  pt ← ok_or (aead_decrypt kek (nonce x) aad (ct x)) Error.DecryptionFailed;
  _ ← ensure (blen pt =? SECRET_KEY_LEN) (Error.BadFieldLength "seed" SECRET_KEY_LEN (blen pt));
  Ok pt.

(** What [open_seed] accepts: the one encoding of a version-1 seal whose
    ciphertext opens, under the key derived from the passphrase and the seal's
    own parameters, with all of these parameters authenticated. *)
Definition opens_to (x : ParsedSealed) (passphrase : string) (seed : bytes) : Prop :=
  version x = 1 /\ kdf x = "argon2id" /\ aead x = "chacha20-poly1305" /\
  blen (salt x) = 16 /\ blen (nonce x) = 12 /\ blen seed = 32 /\
  exists kek,
    derive_kek passphrase (salt x) (params_of x) = Ok kek /\
    aead_decrypt kek (nonce x)
      (build_aad 1 "argon2id" "chacha20-poly1305" (params_of x) (salt x))
      (ct x) = Some seed.

End Keystore.

Definition wf (x : ParsedSealed) : Prop :=
  wf_bytes (ct x) /\ wf_text (kdf x) /\ wf_text (aead x) /\ wf_bytes (salt x) /\ wf_bytes (nonce x) /\
  version x < u64_size /\ m_kib x <= u32_max /\ p x <= u32_max /\ t x <= u32_max.

End Keystore.

(** ** Codecs *)

#[export] Instance codec_u32 name : Codec uint (Keystore.read_u32 name) (fun n => n <= u32_max).
Proof.
  intros r n r' F. unfold Keystore.read_u32. rewrite rd_bind_ok. split.
  - intros (n' & r1 & [Hwf C]%codec_iff & Hk); [|done].
    apply rd_bind_ok in Hk as (u & r2 & [Hg ->]%guard_ok & [-> ->]%mret_ok). by to_prop.
  - intros [Hn C]. exists n, r'. rewrite codec_iff by done. unfold u64_size, u32_max in *.
    split; [split; [lia|done]|]. apply rd_bind_ok. exists tt, r'.
    rewrite guard_ok, mret_ok, N.leb_le. done.
Qed.

#[export] Instance sealed_codec : Codec Keystore.encode_sealed Keystore.fields Keystore.wf.
Proof. unfold Keystore.encode_sealed, Keystore.fields, Keystore.wf, Keystore.entries. solve_codec. Qed.

(** ** Properties *)

(** What follows an encoded value determines the value and the rest. *)
Lemma codec_app_inj {A} {enc : A -> bytes} {dec wf} `{!Codec enc dec wf} a b x y :
  wf a -> wf b -> blen (enc a ++ x) < u64_size -> enc a ++ x = enc b ++ y -> a = b /\ x = y.
Proof.
  intros Ha Hb F E. assert (a = b) as ->.
  { assert (decode_with dec (enc a ++ x) = Ok a) as H1 by (apply (decode_prefix enc dec wf); eauto).
    assert (decode_with dec (enc a ++ x) = Ok b) as H2 by (apply (decode_prefix enc dec wf); eauto).
    congruence. }
  split; [done|]. by apply app_inv_head in E.
Qed.

Lemma write_u64_app n w : wbuf (write_u64 n w) = wbuf w ++ uint n.
Proof. rewrite uint_eq. apply (write_head_app 0). Qed.

Lemma write_text_app k w : wbuf (write_text k w) = wbuf w ++ text k.
Proof.
  rewrite text_eq. unfold write_text, extend. cbn [wbuf]. by rewrite (write_head_app 3), <-app_assoc.
Qed.

Lemma write_bytes_app b w : wbuf (write_bytes b w) = wbuf w ++ bytestr b.
Proof.
  rewrite bytestr_eq. unfold write_bytes, extend. cbn [wbuf]. by rewrite (write_head_app 2), <-app_assoc.
Qed.

Lemma build_aad_eq v k a q s :
  Keystore.build_aad v k a q s
  = head_bytes 4 7 ++ uint v ++ text k ++ uint (Keystore.Argon2Params.m_kib q)
    ++ uint (Keystore.Argon2Params.t q) ++ uint (Keystore.Argon2Params.p q) ++ text a ++ bytestr s.
Proof.
  unfold Keystore.build_aad.
  rewrite write_bytes_app, write_text_app, !write_u64_app, write_text_app, write_u64_app.
  unfold write_array_header, MT_ARRAY. rewrite (write_head_app 4). cbn [wbuf new_writer].
  by rewrite <-!app_assoc.
Qed.

(** The authenticated data determines every parameter of the seal. *)
Lemma build_aad_inj x y :
  Keystore.wf x -> Keystore.wf y ->
  blen (Keystore.build_aad (Keystore.version x) (Keystore.kdf x) (Keystore.aead x) (Keystore.params_of x)
          (Keystore.salt x)) < u64_size ->
  Keystore.build_aad (Keystore.version x) (Keystore.kdf x) (Keystore.aead x) (Keystore.params_of x)
    (Keystore.salt x)
  = Keystore.build_aad (Keystore.version y) (Keystore.kdf y) (Keystore.aead y) (Keystore.params_of y)
      (Keystore.salt y) ->
  Keystore.version x = Keystore.version y /\ Keystore.kdf x = Keystore.kdf y /\
  Keystore.aead x = Keystore.aead y /\ Keystore.params_of x = Keystore.params_of y /\
  Keystore.salt x = Keystore.salt y.
Proof.
  intros (_&Hk&Ha&Hs&_&Hv&Hm&Hp&Ht) (_&Hk'&Ha'&Hs'&_&Hv'&Hm'&Hp'&Ht'). rewrite !build_aad_eq.
  intros F E%app_inv_head. rewrite blen_app in F. cbn [Keystore.params_of
    Keystore.Argon2Params.m_kib Keystore.Argon2Params.t Keystore.Argon2Params.p] in *.
  assert (forall n, n <= u32_max -> n < u64_size) as Hu by (unfold u32_max, u64_size; lia).
  apply (codec_app_inj (dec := read_u64)) in E as [Ev E]; [|done..|lia]. rewrite blen_app in F.
  apply (codec_app_inj (dec := read_text)) in E as [Ek E]; [|done..|lia]. rewrite blen_app in F.
  apply (codec_app_inj (dec := read_u64)) in E as [Em E]; [|by apply Hu..|lia]. rewrite blen_app in F.
  apply (codec_app_inj (dec := read_u64)) in E as [Et E]; [|by apply Hu..|lia]. rewrite blen_app in F.
  apply (codec_app_inj (dec := read_u64)) in E as [Ep E]; [|by apply Hu..|lia]. rewrite blen_app in F.
  apply (codec_app_inj (dec := read_text)) in E as [Ea E]; [|done..|lia]. rewrite blen_app in F.
  apply (codec_inj (dec := read_bytes)) in E; [|done..|lia].
  unfold Keystore.params_of. by rewrite Em, Et, Ep.
Qed.

Lemma build_aad_length x :
  blen (Keystore.build_aad (Keystore.version x) (Keystore.kdf x) (Keystore.aead x) (Keystore.params_of x)
          (Keystore.salt x)) <= blen (Keystore.encode_sealed x).
Proof.
  rewrite build_aad_eq. unfold Keystore.encode_sealed. rewrite encode_map_eq. cbn [map concat Keystore.entries].
  rewrite !blen_app. cbn [value_bytes entry Keystore.params_of
    Keystore.Argon2Params.m_kib Keystore.Argon2Params.t Keystore.Argon2Params.p].
  change (blen (head_bytes 4 7)) with 1. change (blen (head_bytes 5 (N.of_nat (length (Keystore.entries x))))) with 1.
  lia.
Qed.

Section Sealing.
Context `{CryptoLaws, !Ecies, !EciesLaws, !Keystore.Kdf}.

Lemma decode_sealed_exact bs x (F : blen bs < u64_size) :
  Keystore.decode_sealed bs = Ok x <-> Keystore.wf x /\ bs = Keystore.encode_sealed x.
Proof. by apply (decode_exact Keystore.encode_sealed Keystore.fields Keystore.wf _). Qed.

Lemma ensure_bind_ok {A} c e (m : result A) a : (_ ← ensure c e; m) = Ok a <-> c = true /\ m = Ok a.
Proof. unfold ensure. by destruct c; split; [|intros [_ ?]| |intros [? _]]. Qed.

Lemma ok_or_bind_ok {A B} (o : option A) e (k : A -> result B) b :
  (x ← ok_or o e; k x) = Ok b <-> exists x, o = Some x /\ k x = Ok b.
Proof. rewrite result_bind_ok. by setoid_rewrite ok_or_ok. Qed.

Lemma open_seed_iff bs passphrase seed (F : blen bs < u64_size) :
  Keystore.open_seed bs passphrase = Ok seed <->
  exists x, Keystore.wf x /\ bs = Keystore.encode_sealed x /\ Keystore.opens_to x passphrase seed.
Proof.
  unfold Keystore.open_seed. rewrite result_bind_ok. f_equiv. intros x.
  rewrite decode_sealed_exact by done. rewrite (assoc (∧)). apply and_iff_compat_l.
  rewrite !ensure_bind_ok, result_bind_ok. setoid_rewrite ok_or_bind_ok. setoid_rewrite ensure_bind_ok.
  rewrite !N.eqb_eq, !String.eqb_eq. unfold Keystore.opens_to, Keystore.derive_kek. setoid_rewrite ensure_bind_ok. split.
  - intros (Hv & Hk & Ha & Hs & Hn & kek & Hkek & pt & Hd & Hl & [= ->]). to_prop.
    rewrite Hv, Hk, Ha in Hd. split_and!; try done. by exists kek.
  - intros (Hv & Hk & Ha & Hs & Hn & Hl & kek & Hkek & Hd). split_and!; try done.
    exists kek. split; [done|]. exists seed. rewrite Hv, Hk, Ha, Hd, N.eqb_eq. done.
Qed.

(** C34: [open_seed] accepts exactly the canonical encoding of a version-1 seal
    whose ciphertext opens under the key derived from the passphrase and the
    parameters the seal names, those parameters being authenticated data: two
    seals with the same authenticated data have the same version, algorithms,
    Argon2 costs and salt. *)
Theorem open_seed_exact bs passphrase seed (F : blen bs < u64_size) :
  (Keystore.open_seed bs passphrase = Ok seed <->
   exists x, Keystore.wf x /\ bs = Keystore.encode_sealed x /\ Keystore.opens_to x passphrase seed) /\
  (forall x y, Keystore.wf x -> Keystore.wf y -> bs = Keystore.encode_sealed x ->
     Keystore.build_aad (Keystore.version x) (Keystore.kdf x) (Keystore.aead x) (Keystore.params_of x)
       (Keystore.salt x)
     = Keystore.build_aad (Keystore.version y) (Keystore.kdf y) (Keystore.aead y) (Keystore.params_of y)
         (Keystore.salt y) ->
     Keystore.version x = Keystore.version y /\ Keystore.kdf x = Keystore.kdf y /\
     Keystore.aead x = Keystore.aead y /\ Keystore.params_of x = Keystore.params_of y /\
     Keystore.salt x = Keystore.salt y).
Proof.
  split; [by apply open_seed_iff|]. intros x y Hx Hy -> E. apply build_aad_inj; try done.
  eapply N.le_lt_trans; [apply build_aad_length|done].
Qed.

(** The seed sealed under a passphrase is what the same passphrase opens,
    for any salt, nonce and 32-bit Argon2 parameters the derivation accepts. *)
Theorem open_sealed_seed seed passphrase params salt nonce bs
    (Hs : Keystore.seal_seed_with seed passphrase params salt nonce = Ok bs)
    (Hseed : blen seed = SECRET_KEY_LEN)
    (Hsalt : blen salt = Keystore.SALT_LEN) (Hn : blen nonce = AEAD_NONCE_LEN)
    (Hp : Keystore.Argon2Params.m_kib params <= u32_max /\ Keystore.Argon2Params.t params <= u32_max /\
          Keystore.Argon2Params.p params <= u32_max)
    (F : blen bs < u64_size) :
  Keystore.open_seed bs passphrase = Ok seed.
Proof.
  unfold Keystore.seal_seed_with in Hs. apply result_bind_ok in Hs as (kek & Hk & Hs).
  apply result_bind_ok in Hs as (c & Hc%ok_or_ok & [= <-]).
  pose proof (aead_decrypt_encrypt _ _ _ _ _ Hc) as Hd.
  apply open_seed_iff; [done|]. eexists. split_and!; [|done|].
  - unfold Keystore.wf. cbn. destruct Hp as (Hm & Ht & Hp).
    assert (wf_bytes c) as Hc'.
    { unfold wf_bytes. eapply N.le_lt_trans; [apply blen_bytestr_le|].
      eapply N.le_lt_trans; [|exact F].
      apply (blen_value_le (Keystore.entries _) (entry "ct" (bytestr c))). by left. }
    split_and!; try done; (unfold wf_bytes; rewrite ?Hsalt, ?Hn; done) || by vm_compute.
  - unfold Keystore.opens_to. cbn. split_and!; try done. exists kek. by destruct params.
Qed.

End Sealing.

(** ** A seal at a concrete input *)

Module KeystoreExamples.
Import Toy ToyEcies.

#[export] Instance toy_kdf : Keystore.Kdf := {|
  Keystore.argon2_params_ok q := (8 * Keystore.Argon2Params.p q <=? Keystore.Argon2Params.m_kib q) &&
                                 (1 <=? Keystore.Argon2Params.t q);
  Keystore.hash_password_into q pw s := Some (Toy.pad 32 (pw ++ s))
|}.

Definition seed : bytes := Toy.pad 32 (as_bytes "seed").
Definition salt : bytes := Toy.pad 16 (as_bytes "salt").
Definition nonce : bytes := Toy.pad 12 (as_bytes "nonce").
Definition sealed : bytes :=
  match Keystore.seal_seed seed "correct horse" salt nonce with Ok bs => bs | Err _ => [] end.

(** Argon2 parameters the library refuses never reach the cipher. *)
Example refused_params :
  Keystore.seal_seed_with seed "pw" {| Keystore.Argon2Params.m_kib := 7; Keystore.Argon2Params.t := 1;
    Keystore.Argon2Params.p := 1 |} salt nonce = Err (Error.Invariant "invalid Argon2 parameters").
Proof. reflexivity. Qed.

Example wrong_passphrase : Keystore.open_seed sealed "correct house" = Err Error.DecryptionFailed.
Proof. vm_compute. reflexivity. Qed.

Lemma open_sealed_seed_witness : Keystore.open_seed sealed "correct horse" = Ok seed.
Proof.
  apply (open_sealed_seed seed "correct horse" Keystore.Argon2Params.default salt nonce sealed);
    first [vm_compute; reflexivity | split_and!; vm_compute; discriminate].
Defined.

Lemma open_seed_exact_witness :
  exists x, Keystore.wf x /\ sealed = Keystore.encode_sealed x /\ Keystore.opens_to x "correct horse" seed.
Proof.
  apply (proj1 (proj1 (open_seed_exact sealed "correct horse" seed eq_refl))). vm_compute. reflexivity.
Defined.

End KeystoreExamples.
