(* ===== verification/Containers.v ===== *)
(** Standard-library containers the tables of the program are made of.

    A [HashMap] is a [gmap]; the order in which it yields its entries is not
    specified by the standard library, so every operation that iterates takes
    it from the class [HashIter], about which only one law is known: each
    entry is yielded once.  [min_by_key] is [Iterator::min_by_key], which
    returns the first of several minima. *)

From S2P Require Import Prelude.

Open Scope N_scope.

Class HashIter := hiter : forall {K V} `{Countable K}, gmap K V -> list (K * V).

Class HashIterLaws `{HashIter} : Prop :=
  hiter_perm : forall {K V} `{Countable K} (m : gmap K V), hiter m ≡ₚ map_to_list m.

(** The iteration order of [gmap] itself, for concrete runs. *)
Module ToyIter.
#[export] Instance toy_iter : HashIter := fun K V _ _ m => map_to_list m.
#[export] Instance toy_iter_laws : HashIterLaws.
Proof. intros K V ? ? m. reflexivity. Qed.
End ToyIter.

Fixpoint min_by_key {A} (f : A -> N) (l : list A) : option A :=
  match l with
  | [] => None
  | x :: l' =>
    match min_by_key f l' with
    | None => Some x
    | Some y => if f y <? f x then Some y else Some x
    end
  end.

(** [map.retain(|k, v| keep(k, v))]: what remains. *)
Definition retain {K V} `{Countable K} (keep : K -> V -> bool) (m : gmap K V) : gmap K V :=
  filter (fun kv => keep (fst kv) (snd kv) = true) m.

(** ** Lemmas *)

Lemma min_by_key_None {A} (f : A -> N) l : min_by_key f l = None <-> l = [].
Proof. destruct l; cbn; [done|]. split; [|done]. by repeat case_match. Qed.

Lemma min_by_key_Some {A} (f : A -> N) l x :
  min_by_key f l = Some x -> x ∈ l /\ Forall (fun y => f x <= f y) l.
Proof.
  revert x. induction l as [|a l IH]; intros x; cbn [min_by_key]; [done|].
  destruct (min_by_key f l) as [y|] eqn:E.
  - destruct (IH y eq_refl) as [Hy Hall]. case_bool; to_prop; intros [= <-]; split.
    + by right.
    + constructor; [lia|done].
    + by left.
    + constructor; [lia|]. eapply Forall_impl; [exact Hall|]. cbn. lia.
  - apply min_by_key_None in E as ->. intros [= <-]. split; [by left|]. by constructor.
Qed.

Lemma elem_of_hiter `{HashIterLaws} {K V} `{Countable K} (m : gmap K V) k v :
  (k, v) ∈ hiter m <-> m !! k = Some v.
Proof. by rewrite hiter_perm, elem_of_map_to_list. Qed.

Lemma hiter_nil `{HashIterLaws} {K V} `{Countable K} (m : gmap K V) :
  hiter m = [] <-> m = ∅.
Proof.
  split; intros E.
  - apply map_to_list_empty_iff. apply Permutation_nil_r. by rewrite <-hiter_perm, E.
  - subst. apply Permutation_nil_r. by rewrite hiter_perm, map_to_list_empty.
Qed.

Lemma length_hiter `{HashIterLaws} {K V} `{Countable K} (m : gmap K V) :
  length (hiter m) = size m.
Proof. by rewrite hiter_perm, length_map_to_list. Qed.

Lemma hiter_NoDup `{HashIterLaws} {K V} `{Countable K} (m : gmap K V) : NoDup (map fst (hiter m)).
Proof.
  change (map fst) with (fmap (M := list) (@fst K V)). rewrite hiter_perm. apply NoDup_fst_map_to_list.
Qed.

Lemma NoDup_fst_filter {A B} (f : A * B -> bool) l :
  NoDup (map fst l) -> NoDup (map fst (List.filter f l)).
Proof.
  induction l as [|[a b] l IH]; cbn; [done|]. intros Hnd. inversion Hnd as [|? ? Hnin Hnd']; subst.
  destruct (f (a, b)); cbn; [|by apply IH]. constructor; [|by apply IH].
  intros ([a' b'] & -> & Hin)%list_elem_of_fmap. apply Hnin. apply list_elem_of_fmap.
  exists (a', b'). split; [done|]. by apply list_elem_of_In, filter_In, proj1, list_elem_of_In in Hin.
Qed.

Lemma retain_lookup {K V} `{Countable K} (keep : K -> V -> bool) (m : gmap K V) k v :
  retain keep m !! k = Some v <-> m !! k = Some v /\ keep k v = true.
Proof. apply map_lookup_filter_Some. Qed.

Lemma retain_lookup_None {K V} `{Countable K} (keep : K -> V -> bool) (m : gmap K V) k :
  retain keep m !! k = None <-> forall v, m !! k = Some v -> keep k v = false.
Proof.
  unfold retain. rewrite map_lookup_filter_None. split.
  - intros [Hn|Hn] v Hv; [congruence|]. specialize (Hn v Hv). cbn in Hn. by destruct (keep k v).
  - intros Hn. destruct (m !! k) as [v|] eqn:E; [right|by left].
    intros w [= <-]. cbn. by rewrite Hn.
Qed.

Lemma size_retain_le {K V} `{Countable K} (keep : K -> V -> bool) (m : gmap K V) :
  (size (retain keep m) <= size m)%nat.
Proof. apply map_subseteq_size, map_filter_subseteq. Qed.

Lemma size_insert_le {K V} `{Countable K} (m : gmap K V) k v :
  (size (<[k := v]> m) <= S (size m))%nat.
Proof. rewrite map_size_insert. destruct (m !! k); cbn; lia. Qed.

Lemma size_delete_Some {K V} `{Countable K} (m : gmap K V) k v :
  m !! k = Some v -> S (size (delete k m)) = size m.
Proof.
  intros E. rewrite map_size_delete, E. assert (size m <> O); [|lia].
  rewrite map_size_non_empty_iff. intros ->. by rewrite lookup_empty in E.
Qed.

#[export] Hint Resolve size_retain_le size_insert_le : sv.
