(* ===== verification/Replay.v ===== *)
(** The replay guard ([sidevers-core/src/replay.rs]): a cache of
    [(from, nonce)] pairs with a time to live, a hard cap on its size and an
    optional write-through journal.

    The journal is a trait of the program; what the cache does to it is the
    list of calls it received. *)

From S2P Require Import Prelude Containers.

Open Scope N_scope.

Definition DEFAULT_TTL_SECS : N := 600.
Definition DEFAULT_MAX_ENTRIES : N := 16384.

(** [struct Key { from, nonce }]. *)
Definition Key : Type := bytes * bytes.
Definition mk_key (from nonce : bytes) : Key := (from, nonce).

(** The calls of [trait ReplayJournal]. *)
Inductive JournalCall :=
| JRecord (k : Key) (first_seen : N)
| JEvict (k : Key).

Record ReplayCache := {
  ttl : N;
  max_entries : N;
  entries : gmap Key N;
  journal : option (list JournalCall)
}.

Definition with_entries (e : gmap Key N) (c : ReplayCache) : ReplayCache :=
  {| ttl := ttl c; max_entries := max_entries c; entries := e; journal := journal c |}.

(** [if let Some(j) = &self.journal { .. }]. *)
Definition journal_calls (calls : list JournalCall) (c : ReplayCache) : ReplayCache :=
  {| ttl := ttl c; max_entries := max_entries c; entries := entries c;
     journal := l ← journal c; Some (l ++ calls) |}.

Definition with_capacity (ttl_secs max_entries : N) : ReplayCache :=
  {| ttl := ttl_secs; max_entries := N.max max_entries 1; entries := ∅; journal := None |}.

Definition with_ttl (ttl_secs : N) : ReplayCache := with_capacity ttl_secs DEFAULT_MAX_ENTRIES.

Definition new : ReplayCache := with_ttl DEFAULT_TTL_SECS.

Definition set_journal (c : ReplayCache) : ReplayCache :=
  {| ttl := ttl c; max_entries := max_entries c; entries := entries c; journal := Some [] |}.

Definition len (c : ReplayCache) : N := N.of_nat (size (entries c)).

(** [now_ts_secs.saturating_sub(first_seen) < ttl]. *)
Definition alive (ttl now first_seen : N) : bool := now - first_seen <? ttl.

Section Iter.
Context `{HashIter}.

Definition find_oldest_in (entries : gmap Key N) : option Key :=
  fst <$> min_by_key snd (hiter entries).

(** [while self.entries.len() > self.max_entries { .. }]; every round removes
    an entry, so [size entries] rounds are enough. *)
Fixpoint trim (fuel : nat) (max_entries : N) (entries : gmap Key N) : gmap Key N :=
  match fuel with
  | O => entries
  | S fuel' =>
    if max_entries <? N.of_nat (size entries) then
      match find_oldest_in entries with
      | Some oldest => trim fuel' max_entries (delete oldest entries)
      | None => entries
      end
    else entries
  end.

(** The body of the loop of [preload]. *)
Definition preload_insert (ttl now_ts_secs : N) (m : gmap Key N) (e : bytes * bytes * N)
    : gmap Key N :=
  let '(from, nonce, first_seen) := e in
  if ttl <=? now_ts_secs - first_seen then m else <[mk_key from nonce := first_seen]> m.

Definition preload (now_ts_secs : N) (journaled : list (bytes * bytes * N)) (c : ReplayCache)
    : ReplayCache :=
  let loaded := fold_left (preload_insert (ttl c) now_ts_secs) journaled (entries c) in
  with_entries (trim (size loaded) (max_entries c) loaded) c.

Definition sweep (now_ts_secs : N) (c : ReplayCache) : ReplayCache :=
  let evicted := filter (fun kv => alive (ttl c) now_ts_secs (snd kv) = false) (hiter (entries c)) in
  journal_calls (map (fun kv => JEvict (fst kv)) evicted)
    (with_entries (retain (fun _ first_seen => alive (ttl c) now_ts_secs first_seen) (entries c)) c).

(** The capacity check of the vacant branch. *)
Definition make_room (c : ReplayCache) : ReplayCache :=
  if max_entries c <=? len c then
    match find_oldest_in (entries c) with
    | Some oldest => journal_calls [JEvict oldest] (with_entries (delete oldest (entries c)) c)
    | None => c
    end
  else c.

Definition observe (now_ts_secs : N) (from nonce : bytes) (c : ReplayCache) : bool * ReplayCache :=
  let c := sweep now_ts_secs c in
  let key := mk_key from nonce in
  match entries c !! key with
  | None =>
    let c := make_room c in
    (false, journal_calls [JRecord key now_ts_secs] (with_entries (<[key := now_ts_secs]> (entries c)) c))
  | Some _ => (true, c)
  end.

(** A sequence of observations [(now, from, nonce)] and their answers. *)
Fixpoint observe_all (obs : list (N * Key)) (c : ReplayCache) : list bool * ReplayCache :=
  match obs with
  | [] => ([], c)
  | (now, (from, nonce)) :: obs' =>
    let '(b, c1) := observe now from nonce c in
    let '(bs, c2) := observe_all obs' c1 in
    (b :: bs, c2)
  end.

End Iter.

(** ** Lemmas *)

Definition bounded (c : ReplayCache) : Prop := 1 <= max_entries c /\ len c <= max_entries c.

(** [k] is one of the entries with the least [first_seen]. *)
Definition oldest (m : gmap Key N) (k : Key) : Prop :=
  exists t, m !! k = Some t /\ forall k' t', m !! k' = Some t' -> t <= t'.

(** The entries that are alive at [now]. *)
Definition live (c : ReplayCache) (now : N) : gmap Key N :=
  retain (fun _ first_seen => alive (ttl c) now first_seen) (entries c).

Section Lemmas.
Context `{HashIterLaws}.

Lemma find_oldest_Some m k : find_oldest_in m = Some k -> oldest m k.
Proof.
  unfold find_oldest_in. destruct (min_by_key snd (hiter m)) as [[k' t]|] eqn:E; [|done].
  intros [= <-]. apply min_by_key_Some in E as [Hin Hall]. exists t.
  split; [by apply elem_of_hiter|]. intros k2 t2 Hk2. rewrite Forall_forall in Hall.
  by apply (Hall (k2, t2)), elem_of_hiter.
Qed.

Lemma find_oldest_None m : find_oldest_in m = None -> m = ∅.
Proof.
  unfold find_oldest_in. destruct (min_by_key snd (hiter m)) eqn:E; [done|].
  intros _. by apply hiter_nil, (min_by_key_None snd).
Qed.

Lemma trim_spec fuel mx m :
  (size m <= fuel)%nat ->
  N.of_nat (size (trim fuel mx m)) <= mx /\ trim fuel mx m ⊆ m /\
  (forall k t k' t', m !! k = Some t -> trim fuel mx m !! k = None ->
     trim fuel mx m !! k' = Some t' -> t <= t').
Proof.
  revert m. induction fuel as [|fuel IH]; intros m Hf; cbn [trim].
  { assert (size m = O) as ->%map_size_empty_iff by lia. rewrite map_size_empty.
    split; [lia|]. split; [done|].
    intros k t k' t' Hk. by rewrite lookup_empty in Hk. }
  case_bool; to_prop; [|split; [lia|]; split; [done|]; intros; congruence].
  destruct (find_oldest_in m) as [o|] eqn:Eo.
  - apply find_oldest_Some in Eo as (to & Ho & Hmin).
    pose proof (size_delete_Some _ _ _ Ho). destruct (IH (delete o m)) as (Hs & Hsub & Hold); [lia|].
    split; [done|]. split.
    { etrans; [exact Hsub|]. apply delete_subseteq. }
    intros k t k' t' Hk Hn Hk'. assert (m !! k' = Some t') as Hmk'.
    { eapply lookup_weaken; [|apply delete_subseteq]. by eapply lookup_weaken. }
    destruct (decide (k = o)) as [->|Hko].
    + assert (t = to) as -> by congruence. by eapply Hmin.
    + eapply Hold; [|exact Hn|exact Hk']. by rewrite lookup_delete_ne.
  - apply find_oldest_None in Eo as ->. rewrite map_size_empty in *. lia.
Qed.

Lemma sweep_entries now c : entries (sweep now c) = live c now.
Proof. reflexivity. Qed.

Lemma make_room_size c :
  bounded c -> (N.of_nat (size (entries (make_room c))) < max_entries c).
Proof.
  unfold bounded, make_room, len. intros [H1 H2]. case_bool; to_prop; [|done].
  destruct (find_oldest_in (entries c)) as [o|] eqn:Eo.
  - apply find_oldest_Some in Eo as (t & Ho & _). cbn.
    pose proof (size_delete_Some _ _ _ Ho). lia.
  - apply find_oldest_None in Eo. rewrite Eo, map_size_empty in *. lia.
Qed.

Lemma sweep_bounded now c : bounded c -> bounded (sweep now c).
Proof.
  unfold bounded, len. cbn. intros [H1 H2]. split; [done|].
  pose proof (size_retain_le (fun _ fs => alive (ttl c) now fs) (entries c)). lia.
Qed.

Lemma make_room_fields c :
  ttl (make_room c) = ttl c /\ max_entries (make_room c) = max_entries c.
Proof. unfold make_room. case_bool; [|done]. by destruct (find_oldest_in _). Qed.

Lemma observe_hit now from nonce c :
  is_Some (live c now !! mk_key from nonce) -> observe now from nonce c = (true, sweep now c).
Proof using.
  intros [t Ht]. unfold observe. by rewrite sweep_entries, Ht.
Qed.

Lemma observe_miss now from nonce c :
  live c now !! mk_key from nonce = None ->
  observe now from nonce c =
    (false, let c := make_room (sweep now c) in
            journal_calls [JRecord (mk_key from nonce) now]
              (with_entries (<[mk_key from nonce := now]> (entries c)) c)).
Proof using. intros Hk. unfold observe. by rewrite sweep_entries, Hk. Qed.

Lemma observe_fields now from nonce c :
  ttl (observe now from nonce c).2 = ttl c /\
  max_entries (observe now from nonce c).2 = max_entries c.
Proof.
  destruct (live c now !! mk_key from nonce) eqn:E; [by rewrite observe_hit|].
  rewrite observe_miss by done. cbn. by destruct (make_room_fields (sweep now c)) as [-> ->].
Qed.

Lemma observe_bounded now from nonce c : bounded c -> bounded (observe now from nonce c).2.
Proof.
  intros Hb. pose proof (sweep_bounded now c Hb) as Hs.
  destruct (live c now !! mk_key from nonce) eqn:E; [by rewrite observe_hit|].
  rewrite observe_miss by done. pose proof (make_room_size _ Hs) as Hm. unfold bounded, len. cbn.
  destruct (make_room_fields (sweep now c)) as [_ ->]. cbn in *. split; [apply Hb|].
  pose proof (size_insert_le (entries (make_room (sweep now c))) (mk_key from nonce) now). lia.
Qed.

Lemma preload_bounded now l c : bounded c -> bounded (preload now l c).
Proof.
  unfold bounded, len, preload. cbn. intros [H1 _]. split; [done|].
  match goal with |- context [trim _ _ ?m] => pose proof (trim_spec (size m) (max_entries c) m) end.
  lia.
Qed.

Lemma live_lookup c now k t :
  live c now !! k = Some t <-> entries c !! k = Some t /\ now - t < ttl c.
Proof. unfold live, alive. by rewrite retain_lookup, N.ltb_lt. Qed.

(** With room left, an observation keeps every live entry. *)
Lemma observe_keeps now from nonce c k' t' :
  N.of_nat (size (entries c)) < max_entries c -> live c now !! k' = Some t' ->
  entries (observe now from nonce c).2 !! k' = Some t' /\
  (size (entries (observe now from nonce c).2) <= S (size (entries c)))%nat.
Proof using H.
  intros Hs Hk'. pose proof (size_retain_le (fun _ fs => alive (ttl c) now fs) (entries c)) as Hr.
  destruct (live c now !! mk_key from nonce) as [t|] eqn:E.
  - rewrite observe_hit by eauto. cbn [snd]. rewrite sweep_entries. split; [done|].
    unfold live. lia.
  - rewrite observe_miss by done. cbn [snd]. unfold make_room, len.
    rewrite sweep_entries. change (max_entries (sweep now c)) with (max_entries c).
    unfold live in *. rewrite (proj2 (N.leb_gt _ _)) by lia. cbn. split.
    + rewrite lookup_insert_ne; [done|]. intros <-. congruence.
    + pose proof (size_insert_le (retain (fun _ fs => alive (ttl c) now fs) (entries c))
        (mk_key from nonce) now). lia.
Qed.
End Lemmas.

(** ** Properties *)

(** Every state a program can bring the cache into. *)
Inductive reachable `{HashIter} : ReplayCache -> Prop :=
| reach_new ttl_secs mx : reachable (with_capacity ttl_secs mx)
| reach_set_journal c : reachable c -> reachable (set_journal c)
| reach_preload now l c : reachable c -> reachable (preload now l c)
| reach_sweep now c : reachable c -> reachable (sweep now c)
| reach_observe now from nonce c : reachable c -> reachable (observe now from nonce c).2.

Lemma reachable_bounded `{HashIterLaws} c : reachable c -> bounded c.
Proof.
  induction 1.
  - unfold bounded, len. cbn. rewrite map_size_empty. lia.
  - done.
  - by apply preload_bounded.
  - by apply sweep_bounded.
  - by apply observe_bounded.
Qed.

(** The cache never holds more than [max_entries] pairs, whatever the
    sequence of observations, sweeps and preloads, and for every iteration
    order of the map. *)
Theorem replay_cache_bounded `{HashIterLaws} c (R : reachable c) :
  1 <= max_entries c /\ len c <= max_entries c.
Proof. by apply reachable_bounded. Qed.

(** What [observe] does on each branch.  A pair that is alive is a replay
    and nothing but the sweep happens: its [first_seen] is not refreshed.  A
    fresh pair is recorded; only when the cache is full one of the oldest
    live entries makes room for it. *)
Theorem observe_spec `{HashIterLaws} now from nonce c (B : bounded c) :
  let k := mk_key from nonce in
  let '(replayed, c') := observe now from nonce c in
  (replayed = true <-> exists t, entries c !! k = Some t /\ now - t < ttl c) /\
  (replayed = true -> entries c' = live c now) /\
  (replayed = false ->
     (N.of_nat (size (live c now)) < max_entries c /\ entries c' = <[k := now]> (live c now)) \/
     (exists o, oldest (live c now) o /\ entries c' = <[k := now]> (delete o (live c now)))).
Proof.
  intros k. destruct (live c now !! k) as [t|] eqn:E.
  - rewrite observe_hit by eauto. split; [|by split].
    split; [|done]. intros _. apply live_lookup in E. eauto.
  - rewrite observe_miss by done. split; [|split; [done|]].
    { split; [done|]. intros (t & Ht). apply live_lookup in Ht. unfold k in *. congruence. }
    intros _. cbn. unfold make_room, len. rewrite sweep_entries.
    change (max_entries (sweep now c)) with (max_entries c).
    case_bool; to_prop; [|by left].
    destruct (find_oldest_in (live c now)) as [o|] eqn:Eo.
    + right. exists o. split; [by apply find_oldest_Some|]. done.
    + exfalso. apply find_oldest_None in Eo. rewrite Eo, map_size_empty in *.
      destruct B. lia.
Qed.

Lemma observe_all_keeps `{HashIterLaws} k t0 obs : forall c,
  entries c !! k = Some t0 ->
  Forall (fun o => fst o - t0 < ttl c) obs ->
  N.of_nat (size (entries c) + length obs) <= max_entries c ->
  entries (observe_all obs c).2 !! k = Some t0 /\ ttl (observe_all obs c).2 = ttl c.
Proof.
  induction obs as [|[now [from nonce]] obs IH]; intros c Hk Hall Hs; [done|].
  inversion Hall as [|? ? Hnow Hall']; subst. cbn [fst length] in *.
  destruct (observe_keeps now from nonce c k t0) as [Hk' Hs']; [lia|by apply live_lookup|].
  destruct (observe_fields now from nonce c) as [Ht Hm]. cbn [observe_all].
  destruct (observe now from nonce c) as [b c1]. cbn [snd] in *.
  destruct (IH c1) as [Hk2 Ht2]; [done|by rewrite Ht|rewrite Hm; lia|].
  destruct (observe_all obs c1). cbn [snd] in *. split; [done|congruence].
Qed.

(** Within the time to live every replay is detected, whatever other
    traffic comes in between, as long as the cache has room for it. *)
Theorem replay_detected `{HashIterLaws} t0 from nonce c c1 obs t
    (H1 : observe t0 from nonce c = (false, c1))
    (Hobs : Forall (fun o => fst o - t0 < ttl c) obs)
    (Hroom : N.of_nat (size (entries c1) + length obs) <= max_entries c)
    (Ht : t - t0 < ttl c) :
  (observe t from nonce (observe_all obs c1).2).1 = true.
Proof.
  destruct (observe_fields t0 from nonce c) as [Hl Hm].
  assert (entries c1 !! mk_key from nonce = Some t0) as Hk.
  { destruct (live c t0 !! mk_key from nonce) eqn:E; [by rewrite observe_hit in H1 by eauto|].
    rewrite observe_miss in H1 by done. injection H1 as <-. cbn. by rewrite lookup_insert_eq. }
  rewrite H1 in Hl, Hm. cbn [snd] in *.
  destruct (observe_all_keeps (mk_key from nonce) t0 obs c1) as [Hk2 Hl2]; [done|by rewrite Hl|lia|].
  rewrite observe_hit; [done|]. exists t0. apply live_lookup. split; [done|]. by rewrite Hl2, Hl.
Qed.

(** Submitting a pair again and again does not keep its entry alive: every
    repetition within the time to live is reported as a replay and leaves the
    first timestamp in place, and the first repetition after it is fresh. *)
Theorem replay_not_extended `{HashIterLaws} t0 from nonce c c1 ts
    (H1 : observe t0 from nonce c = (false, c1))
    (Hts : Forall (fun t => t - t0 < ttl c) ts) :
  let '(answers, c2) := observe_all (map (fun t => (t, mk_key from nonce)) ts) c1 in
  answers = replicate (length ts) true /\ entries c2 !! mk_key from nonce = Some t0 /\
  forall t, ttl c <= t - t0 -> (observe t from nonce c2).1 = false.
Proof.
  assert (entries c1 !! mk_key from nonce = Some t0) as Hk.
  { destruct (live c t0 !! mk_key from nonce) eqn:E; [by rewrite observe_hit in H1 by eauto|].
    rewrite observe_miss in H1 by done. injection H1 as <-. cbn. by rewrite lookup_insert_eq. }
  destruct (observe_fields t0 from nonce c) as [Hl _]. rewrite H1 in Hl. cbn [snd] in Hl.
  clear H1. rewrite <-Hl in *. clear Hl c. revert c1 Hk Hts.
  induction ts as [|t1 ts IH]; intros c1 Hk Hts; cbn [map observe_all].
  - split; [done|]. split; [done|]. intros t Ht. rewrite observe_miss; [done|].
    apply retain_lookup_None. intros v Hv. assert (v = t0) as -> by congruence.
    by apply N.ltb_ge.
  - inversion Hts; subst. change (mk_key from nonce) with (from, nonce) at 1.
    cbn [mk_key]. rewrite observe_hit by (exists t0; by apply live_lookup).
    specialize (IH (sweep t1 c1)). destruct (observe_all _ (sweep t1 c1)) as [ans c2].
    destruct IH as (-> & Hk2 & Hlate); [by apply live_lookup|done|]. done.
Qed.

(** ** The journal *)

(** What a durable journal makes of the calls it receives. *)
Definition apply_call (m : gmap Key N) (call : JournalCall) : gmap Key N :=
  match call with
  | JRecord k first_seen => <[k := first_seen]> m
  | JEvict k => delete k m
  end.

Definition apply_calls (m : gmap Key N) (calls : list JournalCall) : gmap Key N :=
  fold_left apply_call calls m.

Inductive op := OObserve (now : N) (from nonce : bytes) | OSweep (now : N).

Definition run_op `{HashIter} (c : ReplayCache) (o : op) : ReplayCache :=
  match o with
  | OObserve now from nonce => (observe now from nonce c).2
  | OSweep now => sweep now c
  end.

Definition run_ops `{HashIter} (ops : list op) (c : ReplayCache) : ReplayCache :=
  fold_left run_op ops c.

(** The journal of [c], applied to the map [m0] it started from, gives the
    entries of [c]. *)
Definition in_sync (m0 : gmap Key N) (c : ReplayCache) : Prop :=
  exists l, journal c = Some l /\ apply_calls m0 l = entries c.

Lemma apply_evicts_lookup ks m k :
  apply_calls m (map JEvict ks) !! k = if decide (k ∈ ks) then None else m !! k.
Proof.
  unfold apply_calls. revert m. induction ks as [|k1 ks IH]; intros m; cbn [map fold_left apply_call].
  - case_decide; [by apply not_elem_of_nil in H|done].
  - rewrite IH. repeat case_decide; try done; try set_solver.
    + assert (k = k1) as -> by set_solver. by rewrite lookup_delete_eq.
    + rewrite lookup_delete_ne by set_solver. done.
Qed.

Lemma in_sync_calls m0 c e calls :
  in_sync m0 c -> apply_calls (entries c) calls = e -> in_sync m0 (journal_calls calls (with_entries e c)).
Proof.
  intros (l & Hl & Hm) He. exists (l ++ calls). cbn. rewrite Hl. split; [done|].
  unfold apply_calls in *. by rewrite fold_left_app, Hm.
Qed.

Lemma in_sync_sweep `{HashIterLaws} m0 now c : in_sync m0 c -> in_sync m0 (sweep now c).
Proof.
  intros Hs. unfold sweep. apply in_sync_calls; [done|].
  set (ev := filter _ _). rewrite <-(map_map fst JEvict). apply map_eq. intros k.
  rewrite apply_evicts_lookup. destruct (live c now !! k) as [t|] eqn:E.
  - unfold live in E. rewrite E. apply retain_lookup in E as [Hk Ha].
    rewrite decide_False; [done|]. intros ([k' t'] & -> & Hin)%list_elem_of_fmap.
    apply list_elem_of_filter in Hin as [Hn Hin]. apply elem_of_hiter in Hin. cbn in *. congruence.
  - unfold live in E. rewrite E. destruct (entries c !! k) as [t|] eqn:Ek; [|by case_decide].
    rewrite decide_True; [done|]. apply list_elem_of_fmap. exists (k, t). split; [done|].
    apply list_elem_of_filter. split; [|by apply elem_of_hiter].
    apply (proj1 (retain_lookup_None _ _ _) E t Ek).
Qed.

Lemma in_sync_make_room `{HashIter} m0 c : in_sync m0 c -> in_sync m0 (make_room c).
Proof.
  intros Hs. unfold make_room. case_bool; [|done]. destruct (find_oldest_in (entries c)); [|done].
  by apply in_sync_calls.
Qed.

Lemma in_sync_op `{HashIterLaws} m0 c o : in_sync m0 c -> in_sync m0 (run_op c o).
Proof.
  intros Hs. destruct o as [now from nonce|now]; cbn [run_op]; [|by apply in_sync_sweep].
  destruct (live c now !! mk_key from nonce) eqn:E.
  - rewrite observe_hit by eauto. by apply in_sync_sweep.
  - rewrite observe_miss by done. cbn [snd]. apply in_sync_calls; [|done].
    by apply in_sync_make_room, in_sync_sweep.
Qed.

(** A journal attached to the cache is complete: replaying its calls on
    the entries present at that moment gives the entries of the cache after
    any sequence of observations and sweeps. *)
Theorem journal_complete `{HashIterLaws} c ops :
  exists calls, journal (run_ops ops (set_journal c)) = Some calls /\
    apply_calls (entries c) calls = entries (run_ops ops (set_journal c)).
Proof.
  enough (forall c', in_sync (entries c) c' -> in_sync (entries c) (run_ops ops c')) as He.
  { apply He. by exists []. }
  induction ops as [|o ops IH]; intros c' Hs; [done|]. by apply IH, in_sync_op.
Qed.

Lemma preload_insert_lookup ttl now m e k t :
  (forall k, k = e.1 -> m !! k = None) ->
  preload_insert ttl now m e !! k = Some t <-> ((k, t) = e /\ now - t < ttl) \/ m !! k = Some t.
Proof.
  destruct e as [[f n] t1]. cbn [fst]. intros Hm. unfold preload_insert, mk_key. case_bool; to_prop.
  - split; [by right|]. intros [[[= _ ->] ?]|?]; [lia|done].
  - rewrite lookup_insert_Some. split.
    + intros [[<- <-]|[_ ?]]; [by left|by right].
    + intros [[[= -> ->] _]|Hmk]; [by left|]. right. split; [|done]. intros <-.
      by rewrite Hm in Hmk.
Qed.

Lemma preload_loop ttl now l : forall m,
  NoDup (map fst l) -> (forall k, k ∈ map fst l -> m !! k = None) ->
  (forall k t, fold_left (preload_insert ttl now) l m !! k = Some t <->
     ((k, t) ∈ l /\ now - t < ttl) \/ m !! k = Some t) /\
  (size (fold_left (preload_insert ttl now) l m) <= size m + length l)%nat.
Proof.
  induction l as [|e l IH]; intros m Hnd Hm; cbn [fold_left map length].
  - split; [|lia]. intros k t. split; [by right|]. intros [[Hin _]|?]; [|done].
    by apply not_elem_of_nil in Hin.
  - cbn [map] in *. inversion Hnd as [|? ? Hnin Hnd']; subst.
    assert (forall k, k = e.1 -> m !! k = None) as Hme by (intros k ->; apply Hm; by left).
    destruct (IH (preload_insert ttl now m e) Hnd') as [Hk Hs].
    { intros k Hk. destruct (preload_insert ttl now m e !! k) as [t|] eqn:E; [|done].
      apply preload_insert_lookup in E as [[<- _]|E]; [done| |done].
      rewrite Hm in E; [done|by right]. }
    split.
    + intros k t. rewrite Hk, preload_insert_lookup, elem_of_cons by done. tauto.
    + etrans; [exact Hs|]. destruct e as [[f n] t1]. cbn. case_bool; [lia|].
      pose proof (size_insert_le m (mk_key f n) t1). lia.
Qed.

(** One round of the loop that ends [preload]. *)
Inductive trim_round `{HashIter} (mx : N) : gmap Key N -> gmap Key N -> Prop :=
| TrimRound m o :
    mx < N.of_nat (size m) -> find_oldest_in m = Some o -> trim_round mx m (delete o m).

Lemma trim_rounds `{HashIterLaws} mx fuel : forall m, (size m <= fuel)%nat ->
  nsteps (trim_round mx) (size m - N.to_nat mx) m (trim fuel mx m).
Proof.
  induction fuel as [|fuel IH]; intros m Hf; cbn [trim].
  { rewrite (proj2 (Nat.sub_0_le _ _)) by lia. constructor. }
  case_bool; to_prop; [|rewrite (proj2 (Nat.sub_0_le _ _)) by lia; constructor].
  destruct (find_oldest_in m) as [o|] eqn:Eo.
  - pose proof (find_oldest_Some _ _ Eo) as (t & Ho & _). pose proof (size_delete_Some _ _ _ Ho) as Hd.
    replace (size m - N.to_nat mx)%nat with (S (size (delete o m) - N.to_nat mx)) by lia.
    econstructor; [by constructor|]. apply IH. lia.
  - apply find_oldest_None in Eo as ->. rewrite map_size_empty in *. lia.
Qed.

Lemma trim_round_size `{HashIterLaws} mx m m2 :
  trim_round mx m m2 -> mx < N.of_nat (size m) /\ size m = S (size m2).
Proof.
  intros [m' o Hm Ho]. split; [done|].
  pose proof (find_oldest_Some _ _ Ho) as (t & Hl & _). pose proof (size_delete_Some _ _ _ Hl). lia.
Qed.

(** C39: the [while] loop that ends [preload] terminates: from any table it runs
    exactly as many rounds as there are entries over the bound, whatever the
    order the hash map lists them in, then the loop's condition fails; no run
    is longer, and what is left are exactly as many entries as the bound
    allows. *)
Theorem trim_terminates `{HashIterLaws} mx m :
  let m' := trim (size m) mx m in
  nsteps (trim_round mx) (size m - N.to_nat mx) m m' /\
  (forall m2, ~ trim_round mx m' m2) /\
  (forall n m2, nsteps (trim_round mx) n m m2 -> (n <= size m - N.to_nat mx)%nat /\ (size m2 + n = size m)%nat) /\
  N.of_nat (size m') = N.min (N.of_nat (size m)) mx.
Proof.
  intros m'. pose proof (trim_rounds mx (size m) m (le_n _)) as Hr. fold m' in Hr.
  assert (forall n m1 m2, nsteps (trim_round mx) n m1 m2 ->
    (n <= size m1 - N.to_nat mx)%nat /\ (size m2 + n = size m1)%nat) as Hn.
  { induction 1 as [m1|n m1 m2 m3 H1%trim_round_size _ IH]; lia. }
  pose proof (Hn _ _ _ Hr) as [_ Hs]. split_and!; [done| |intros n; apply Hn|].
  - intros m2 H2%trim_round_size. lia.
  - lia.
Qed.

(** After a restart the journaled pairs that are still alive and survive
    the capacity trim are replays again; no other pair is. *)
Theorem preload_restores `{HashIterLaws} now l ttl_secs mx k t
    (Hnd : NoDup (map fst l)) :
  let c := preload now l (with_capacity ttl_secs mx) in
  (entries c !! k = Some t -> (k, t) ∈ l /\ now - t < ttl_secs) /\
  ((k, t) ∈ l -> now - t < ttl_secs -> N.of_nat (length l) <= N.max mx 1 ->
   entries c !! k = Some t).
Proof.
  cbn. destruct (preload_loop ttl_secs now l ∅ Hnd) as [Hk Hs]; [intros; apply lookup_empty|].
  rewrite map_size_empty in Hs. set (m := fold_left _ l ∅) in *.
  destruct (trim_spec (size m) (N.max mx 1) m) as (Hsz & Hsub & _); [done|]. split.
  - intros Ht. eapply lookup_weaken, Hk in Ht; [|exact Hsub].
    destruct Ht as [?|?]; [done|]. by rewrite lookup_empty in *.
  - intros Hin Ht Hl. assert (trim (size m) (N.max mx 1) m = m) as ->; [|apply Hk; auto].
    destruct (size m) eqn:E; [done|]. cbn [trim]. rewrite E, (proj2 (N.ltb_ge _ _)) by lia. done.
Qed.

(** ** Concrete instances *)

Module ReplayExamples.
Import ToyIter.

Definition f : bytes := [Byte.x01].
Definition n1 : bytes := [Byte.x0a].
Definition n2 : bytes := [Byte.x0b].
Definition c0 : ReplayCache := with_capacity 600 2.

Lemma replay_cache_bounded_witness :
  1 <= max_entries (observe 6 f n2 (observe 5 f n1 c0).2).2 /\
  len (observe 6 f n2 (observe 5 f n1 c0).2).2 <= max_entries (observe 6 f n2 (observe 5 f n1 c0).2).2.
Proof. apply replay_cache_bounded. repeat constructor. Defined.

Lemma observe_spec_witness :
  let k := mk_key f n1 in
  let '(replayed, c') := observe 5 f n1 c0 in
  (replayed = true <-> exists t, entries c0 !! k = Some t /\ 5 - t < ttl c0) /\
  (replayed = true -> entries c' = live c0 5) /\
  (replayed = false ->
     (N.of_nat (size (live c0 5)) < max_entries c0 /\ entries c' = <[k := 5]> (live c0 5)) \/
     (exists o, oldest (live c0 5) o /\ entries c' = <[k := 5]> (delete o (live c0 5)))).
Proof. apply (observe_spec 5 f n1 c0). split; vm_compute; discriminate. Defined.

Lemma replay_detected_witness :
  (observe 100 f n1 (observe_all [(50, (f, n2))] (observe 5 f n1 c0).2).2).1 = true.
Proof.
  apply (replay_detected 5 f n1 c0 (observe 5 f n1 c0).2); vm_compute; try reflexivity.
  - by repeat constructor.
  - discriminate.
Defined.

Lemma replay_not_extended_witness :
  let '(answers, c2) := observe_all [(6, (f, n1)); (604, (f, n1))] (observe 5 f n1 c0).2 in
  answers = [true; true] /\ entries c2 !! mk_key f n1 = Some 5 /\
  forall t, 600 <= t - 5 -> (observe t f n1 c2).1 = false.
Proof.
  apply (replay_not_extended 5 f n1 c0 (observe 5 f n1 c0).2 [6; 604]); [reflexivity|].
  repeat constructor.
Defined.

Lemma journal_complete_witness :
  let ops := [OObserve 5 f n1; OObserve 6 f n2; OObserve 700 f n1] in
  exists calls, journal (run_ops ops (set_journal c0)) = Some calls /\
    apply_calls (entries c0) calls = entries (run_ops ops (set_journal c0)).
Proof. apply journal_complete. Defined.

Lemma preload_restores_witness :
  let c := preload 700 [(f, n1, 650); (f, n2, 50)] (with_capacity 600 2) in
  (entries c !! (f, n1) = Some 650 -> (f, n1, 650) ∈ [(f, n1, 650); (f, n2, 50)] /\ 700 - 650 < 600) /\
  ((f, n1, 650) ∈ [(f, n1, 650); (f, n2, 50)] -> 700 - 650 < 600 ->
   N.of_nat (length [(f, n1, 650); (f, n2, 50)]) <= N.max 2 1 -> entries c !! (f, n1) = Some 650).
Proof. apply preload_restores. apply (bool_decide_unpack _). vm_compute. exact I. Defined.

Definition over : gmap Key N := <[(f, n1) := 5]> (<[(f, n2) := 6]> ∅).

Lemma trim_terminates_witness :
  nsteps (trim_round 1) 1 over (trim 2 1 over) /\ N.of_nat (size (trim 2 1 over)) = 1.
Proof.
  pose proof (trim_terminates 1 over) as (Hr & _ & _ & Hs). split; [exact Hr|].
  change (trim 2 1 over) with (trim (size over) 1 over). rewrite Hs. vm_compute. reflexivity.
Defined.

End ReplayExamples.
