(* ===== verification/Reputation.v ===== *)
(** Local anti-abuse state ([sidevers-net/src/reputation.rs]): the per-peer
    reputation with its token bucket, and the per-IP sybil tracker.

    Time is an argument of every operation, as in the source.  The bucket's
    [tokens : f64] is an [N]: every value it takes is an integer in
    [0 .. bucket_capacity <= 2^32], which [f64] represents exactly; it starts
    at an integer, loses 1.0 at a time, and is refilled with a product of
    integers that is exact below 2^53 and, where it would be rounded, is far
    above the capacity it is capped to. *)

From S2P Require Import Prelude Containers.

Open Scope N_scope.

Definition DEFAULT_BUCKET_CAPACITY : N := 100.
Definition DEFAULT_REFILL_PER_SEC : N := 10.
Definition MAX_SIG_FAILURES : N := 10.
Definition MAX_MALFORMED : N := 25.

Record PeerReputation := {
  envelopes_seen : N;
  sig_failures : N;
  malformed_payloads : N;
  rate_limit_hits : N;
  last_seen_at : N;
  last_misbehavior_at : option N;
  tokens : N;
  last_refill_at : N;
  refused : bool
}.

Record ReputationPolicy := {
  bucket_capacity : N;
  refill_per_sec : N;
  max_sig_failures : N;
  max_malformed : N
}.

Definition default_policy : ReputationPolicy :=
  {| bucket_capacity := DEFAULT_BUCKET_CAPACITY; refill_per_sec := DEFAULT_REFILL_PER_SEC;
     max_sig_failures := MAX_SIG_FAILURES; max_malformed := MAX_MALFORMED |}.

Record ReputationTable := { reps : gmap bytes PeerReputation; policy : ReputationPolicy }.

Definition new (p : ReputationPolicy) : ReputationTable := {| reps := ∅; policy := p |}.

Definition fresh (now capacity : N) : PeerReputation :=
  {| envelopes_seen := 0; sig_failures := 0; malformed_payloads := 0; rate_limit_hits := 0;
     last_seen_at := now; last_misbehavior_at := None; tokens := capacity;
     last_refill_at := now; refused := false |}.

(** [g.entry(peer).or_insert_with(|| PeerReputation::fresh(now, capacity))]. *)
Definition entry_or_fresh (peer : bytes) (now : N) (t : ReputationTable) : PeerReputation :=
  default (fresh now (bucket_capacity (policy t))) (reps t !! peer).

Definition put (peer : bytes) (r : PeerReputation) (t : ReputationTable) : ReputationTable :=
  {| reps := <[peer := r]> (reps t); policy := policy t |}.

(** The first two assignments of [observe_envelope]. *)
Definition note_seen (now : N) (r : PeerReputation) : PeerReputation :=
  {| envelopes_seen := sat_add_u32 (envelopes_seen r) 1; sig_failures := sig_failures r;
     malformed_payloads := malformed_payloads r; rate_limit_hits := rate_limit_hits r;
     last_seen_at := now; last_misbehavior_at := last_misbehavior_at r; tokens := tokens r;
     last_refill_at := last_refill_at r; refused := refused r |}.

(** [rep.tokens = tokens; rep.last_refill_at = at_]. *)
Definition set_bucket (n at_ : N) (r : PeerReputation) : PeerReputation :=
  {| envelopes_seen := envelopes_seen r; sig_failures := sig_failures r;
     malformed_payloads := malformed_payloads r; rate_limit_hits := rate_limit_hits r;
     last_seen_at := last_seen_at r; last_misbehavior_at := last_misbehavior_at r;
     tokens := n; last_refill_at := at_; refused := refused r |}.

Definition refill (p : ReputationPolicy) (now : N) (r : PeerReputation) : PeerReputation :=
  if last_refill_at r <? now then
    set_bucket (N.min (tokens r + (now - last_refill_at r) * refill_per_sec p) (bucket_capacity p))
               now r
  else r.

Definition hit_rate_limit (r : PeerReputation) : PeerReputation :=
  {| envelopes_seen := envelopes_seen r; sig_failures := sig_failures r;
     malformed_payloads := malformed_payloads r;
     rate_limit_hits := sat_add_u32 (rate_limit_hits r) 1; last_seen_at := last_seen_at r;
     last_misbehavior_at := last_misbehavior_at r; tokens := tokens r;
     last_refill_at := last_refill_at r; refused := refused r |}.

(** [observe_envelope] on the entry of the peer. *)
Definition observe_rep (p : ReputationPolicy) (now : N) (r : PeerReputation) : bool * PeerReputation :=
  let r := note_seen now r in
  if refused r then (false, r)
  else
    let r := refill p now r in
    if 1 <=? tokens r then (true, set_bucket (tokens r - 1) (last_refill_at r) r)
    else (false, hit_rate_limit r).

Definition observe_envelope (peer : bytes) (now : N) (t : ReputationTable) : bool * ReputationTable :=
  let '(ok, r) := observe_rep (policy t) now (entry_or_fresh peer now t) in (ok, put peer r t).

(** The counters, [last_misbehavior_at] and [refused]. *)
Definition set_misbehavior (sigs malformed : N) (at_ : option N) (ref : bool) (r : PeerReputation)
    : PeerReputation :=
  {| envelopes_seen := envelopes_seen r; sig_failures := sigs; malformed_payloads := malformed;
     rate_limit_hits := rate_limit_hits r; last_seen_at := last_seen_at r;
     last_misbehavior_at := at_; tokens := tokens r; last_refill_at := last_refill_at r;
     refused := ref |}.

Definition record_sig_failure (peer : bytes) (now : N) (t : ReputationTable) : bool * ReputationTable :=
  let r := entry_or_fresh peer now t in
  let n := sat_add_u32 (sig_failures r) 1 in
  let ref := if max_sig_failures (policy t) <=? n then true else refused r in
  (ref, put peer (set_misbehavior n (malformed_payloads r) (Some now) ref r) t).

Definition record_malformed (peer : bytes) (now : N) (t : ReputationTable) : bool * ReputationTable :=
  let r := entry_or_fresh peer now t in
  let n := sat_add_u32 (malformed_payloads r) 1 in
  let ref := if max_malformed (policy t) <=? n then true else refused r in
  (ref, put peer (set_misbehavior (sig_failures r) n (Some now) ref r) t).

Definition refuse (peer : bytes) (now : N) (t : ReputationTable) : ReputationTable :=
  let r := entry_or_fresh peer now t in
  put peer (set_misbehavior (sig_failures r) (malformed_payloads r) (last_misbehavior_at r) true r) t.

Definition reinstate (peer : bytes) (t : ReputationTable) : ReputationTable :=
  match reps t !! peer with
  | Some r => put peer (set_misbehavior 0 0 None false r) t
  | None => t
  end.

Definition is_refused (peer : bytes) (t : ReputationTable) : bool :=
  match reps t !! peer with Some r => refused r | None => false end.

Definition total_envelopes_seen `{HashIter} (t : ReputationTable) : N :=
  fold_left N.add (map (fun kv => envelopes_seen (snd kv)) (hiter (reps t))) 0.

(** ** Operations in sequence *)

Inductive op :=
| Observe (peer : bytes) (now : N)
| SigFailure (peer : bytes) (now : N)
| Malformed (peer : bytes) (now : N)
| Refuse (peer : bytes) (now : N)
| Reinstate (peer : bytes).

Definition run_op (o : op) (t : ReputationTable) : bool * ReputationTable :=
  match o with
  | Observe peer now => observe_envelope peer now t
  | SigFailure peer now => record_sig_failure peer now t
  | Malformed peer now => record_malformed peer now t
  | Refuse peer now => (false, refuse peer now t)
  | Reinstate peer => (false, reinstate peer t)
  end.

Fixpoint run_ops (ops : list op) (t : ReputationTable) : ReputationTable :=
  match ops with [] => t | o :: ops => run_ops ops (run_op o t).2 end.

(** How many envelopes of [peer] the gate let through. *)
Fixpoint accepted (peer : bytes) (ops : list op) (t : ReputationTable) : N :=
  match ops with
  | [] => 0
  | o :: ops =>
    let '(b, t') := run_op o t in
    (match o with
     | Observe p _ => if decide (p = peer) then if b then 1 else 0 else 0
     | _ => 0
     end) + accepted peer ops t'
  end.

(** ** The sybil tracker *)

Definition SYBIL_WINDOW_SECS : N := 3600.
Definition SYBIL_MAX_NEW_PUBKEYS_PER_IP : N := 16.

Record IpSybilState := { pubkeys : gset bytes; window_start_at : N; over_quota_count : N }.

Record IpSybilPolicy := { window_secs : N; max_new_pubkeys_per_ip : N }.

Inductive SybilDecision := Allow | OverQuota.

(** Keyed by [IpAddr], as its bytes. *)
Record IpSybilTracker := { ips : gmap bytes IpSybilState; sybil_policy : IpSybilPolicy }.

Definition sybil_new (p : IpSybilPolicy) : IpSybilTracker := {| ips := ∅; sybil_policy := p |}.

Definition sybil_fresh (now : N) : IpSybilState :=
  {| pubkeys := ∅; window_start_at := now; over_quota_count := 0 |}.

(** [if now.saturating_sub(window_start_at) >= window_secs { .. }]. *)
Definition roll_window (p : IpSybilPolicy) (now : N) (s : IpSybilState) : IpSybilState :=
  if window_secs p <=? now - window_start_at s
  then {| pubkeys := ∅; window_start_at := now; over_quota_count := over_quota_count s |}
  else s.

Definition sybil_observe (peer : bytes) (ip : bytes) (now : N) (t : IpSybilTracker)
    : SybilDecision * IpSybilTracker :=
  let p := sybil_policy t in
  let s := roll_window p now (default (sybil_fresh now) (ips t !! ip)) in
  let put s := {| ips := <[ip := s]> (ips t); sybil_policy := p |} in
  if bool_decide (peer ∈ pubkeys s) then (Allow, put s)
  else if max_new_pubkeys_per_ip p <=? N.of_nat (size (pubkeys s)) then
    (OverQuota, put {| pubkeys := pubkeys s; window_start_at := window_start_at s;
                       over_quota_count := sat_add_u32 (over_quota_count s) 1 |})
  else
    (Allow, put {| pubkeys := {[peer]} ∪ pubkeys s; window_start_at := window_start_at s;
                   over_quota_count := over_quota_count s |}).

(** ** Lemmas *)

Lemma lookup_put p p' r t : reps (put p r t) !! p' = if decide (p = p') then Some r else reps t !! p'.
Proof. cbn. case_decide; subst; [by rewrite lookup_insert_eq|by rewrite lookup_insert_ne]. Qed.

(** An operation reads and writes the entry of one peer. *)
Definition op_peer (o : op) : bytes :=
  match o with
  | Observe p _ | SigFailure p _ | Malformed p _ | Refuse p _ | Reinstate p => p
  end.

(** The times an operation is called at. *)
Definition op_time (o : op) : option N :=
  match o with
  | Observe _ n | SigFailure _ n | Malformed _ n | Refuse _ n => Some n
  | Reinstate _ => None
  end.

Lemma run_op_policy o t : policy (run_op o t).2 = policy t.
Proof.
  destruct o; cbn; try done.
  - unfold observe_envelope. by destruct (observe_rep _ _ _).
  - unfold reinstate. by destruct (reps t !! peer).
Qed.

Lemma run_op_other o t p : p <> op_peer o -> reps (run_op o t).2 !! p = reps t !! p.
Proof.
  intros Hp. destruct o; cbn in *.
  1: unfold observe_envelope; destruct (observe_rep _ _ _).
  5: unfold reinstate; destruct (reps t !! peer); [|done].
  all: cbn [snd]; try rewrite lookup_insert_ne by done; try rewrite lookup_put, decide_False by done; done.
Qed.

(** [observe_rep], unfolded. *)
Lemma observe_rep_eq p now r :
  observe_rep p now r =
    let r1 := refill p now (note_seen now r) in
    if refused r then (false, note_seen now r)
    else if 1 <=? tokens r1 then (true, set_bucket (tokens r1 - 1) (last_refill_at r1) r1)
    else (false, hit_rate_limit r1).
Proof. reflexivity. Qed.

Lemma refill_tokens p now r :
  tokens r <= bucket_capacity p ->
  tokens (refill p now r) <= bucket_capacity p /\
  last_refill_at (refill p now r) = N.max (last_refill_at r) now /\
  tokens (refill p now r)
    = N.min (tokens r + (now - last_refill_at r) * refill_per_sec p) (bucket_capacity p).
Proof.
  intros Ht. unfold refill. case_bool; to_prop; cbn; [lia|].
  replace (now - last_refill_at r) with 0 by lia. lia.
Qed.

(** Every bucket is within its capacity. *)
Definition capped (t : ReputationTable) : Prop :=
  map_Forall (fun _ r => tokens r <= bucket_capacity (policy t)) (reps t).

Lemma entry_or_fresh_tokens p now t :
  capped t -> tokens (entry_or_fresh p now t) <= bucket_capacity (policy t).
Proof.
  intros Hc. unfold entry_or_fresh. destruct (reps t !! p) eqn:E; cbn; [by eapply Hc|lia].
Qed.

Lemma observe_rep_tokens p now r :
  tokens r <= bucket_capacity p ->
  let '(b, r') := observe_rep p now r in
  tokens r' <= bucket_capacity p /\
  (refused r = true -> b = false /\ tokens r' = tokens r /\ last_refill_at r' = last_refill_at r) /\
  (refused r = false ->
     last_refill_at r' = N.max (last_refill_at r) now /\
     tokens r' + (if b then 1 else 0)
     = N.min (tokens r + (now - last_refill_at r) * refill_per_sec p) (bucket_capacity p)).
Proof.
  intros Ht. rewrite observe_rep_eq. cbv zeta.
  destruct (refill_tokens p now (note_seen now r)) as (H1 & H2 & H3); [done|].
  cbn [note_seen tokens last_refill_at] in H1, H2, H3.
  destruct (refused r); [done|]. case_bool; to_prop; cbn [set_bucket hit_rate_limit tokens last_refill_at].
  - split; [lia|]. split; [done|]. intros _. split; [done|]. lia.
  - split; [lia|]. split; [done|]. intros _. split; [done|]. lia.
Qed.

Lemma capped_put p r t :
  capped t -> tokens r <= bucket_capacity (policy t) -> capped (put p r t).
Proof. intros Hc Hr. unfold capped. cbn. by apply map_Forall_insert_2. Qed.

Lemma capped_op o t : capped t -> capped (run_op o t).2.
Proof.
  intros Hc. destruct o as [p now|p now|p now|p now|p]; cbn [run_op].
  - unfold observe_envelope. pose proof (entry_or_fresh_tokens p now t Hc) as Ht.
    pose proof (observe_rep_tokens (policy t) now _ Ht) as H.
    destruct (observe_rep _ _ _) as [b r]. apply capped_put; [done|]. apply H.
  - apply capped_put; [done|]. by apply entry_or_fresh_tokens.
  - apply capped_put; [done|]. by apply entry_or_fresh_tokens.
  - apply capped_put; [done|]. by apply entry_or_fresh_tokens.
  - unfold reinstate. destruct (reps t !! p) as [r|] eqn:E; [|done]. cbn [snd].
    apply capped_put; [done|]. by apply (Hc p r).
Qed.

Lemma capped_ops ops : forall t, capped t -> capped (run_ops ops t).
Proof. induction ops as [|o ops IH]; intros t Hc; [done|]. by apply IH, capped_op. Qed.

(** What may still pass the gate between [lo] and [hi]. *)
Definition budget (p : ReputationPolicy) (lo hi : N) (o : option PeerReputation) : N :=
  match o with
  | None => bucket_capacity p + refill_per_sec p * (hi - lo)
  | Some r =>
    if lo <=? last_refill_at r then tokens r + refill_per_sec p * (hi - last_refill_at r)
    else bucket_capacity p + refill_per_sec p * (hi - lo)
  end.

Lemma budget_observe p lo hi now r :
  lo <= now <= hi -> tokens r <= bucket_capacity p ->
  (if (observe_rep p now r).1 then 1 else 0) + budget p lo hi (Some (observe_rep p now r).2)
  <= budget p lo hi (Some r).
Proof.
  intros Hn Ht. pose proof (observe_rep_tokens p now r Ht) as H.
  destruct (observe_rep p now r) as [b r']. cbn [fst snd]. destruct H as (Hc & Href & Hfree).
  unfold budget. destruct (refused r).
  - destruct (Href eq_refl) as (-> & -> & ->). lia.
  - destruct (Hfree eq_refl) as [Hl Hs]. rewrite Hl.
    rewrite (proj2 (N.leb_le lo (N.max (last_refill_at r) now))) by lia.
    set (d := if b then 1 else 0) in *. clearbody d.
    destruct (lo <=? last_refill_at r) eqn:E; to_prop.
    + destruct (N.le_gt_cases now (last_refill_at r)).
      * rewrite N.max_l in * by done. replace (now - last_refill_at r) with 0 in Hs by lia. lia.
      * rewrite N.max_r in * by lia.
        replace (hi - last_refill_at r) with ((hi - now) + (now - last_refill_at r)) by lia.
        rewrite N.mul_add_distr_l, (N.mul_comm (refill_per_sec p) (now - _)). lia.
    + rewrite N.max_r in * by lia.
      pose proof (N.mul_le_mono_l (hi - now) (hi - lo) (refill_per_sec p)). lia.
Qed.

Lemma budget_fresh p lo hi now :
  lo <= now <= hi -> budget p lo hi (Some (fresh now (bucket_capacity p))) <= budget p lo hi None.
Proof.
  intros Hn. unfold budget. cbn [fresh last_refill_at tokens].
  rewrite (proj2 (N.leb_le _ _)) by lia.
  pose proof (N.mul_le_mono_l (hi - now) (hi - lo) (refill_per_sec p)). lia.
Qed.

Lemma budget_same p lo hi r r' :
  tokens r' = tokens r -> last_refill_at r' = last_refill_at r ->
  budget p lo hi (Some r') = budget p lo hi (Some r).
Proof. unfold budget. by intros -> ->. Qed.

Lemma budget_entry p lo hi t now peer :
  p = policy t -> lo <= now <= hi ->
  budget p lo hi (Some (entry_or_fresh peer now t)) <= budget p lo hi (reps t !! peer).
Proof.
  intros -> Hn. unfold entry_or_fresh. destruct (reps t !! peer); cbn [default]; [apply N.le_refl|].
  by apply budget_fresh.
Qed.

Lemma budget_op o t p lo hi :
  capped t -> (forall n, op_time o = Some n -> lo <= n <= hi) ->
  (match o with Observe q _ => if decide (q = p) then if (run_op o t).1 then 1 else 0 else 0 | _ => 0 end)
  + budget (policy t) lo hi (reps (run_op o t).2 !! p) <= budget (policy t) lo hi (reps t !! p).
Proof.
  intros Hc Ht. destruct (decide (p = op_peer o)) as [->|Hp].
  - destruct o as [q now|q now|q now|q now|q]; cbn [op_peer op_time run_op] in *;
      try (specialize (Ht now eq_refl)); cbn [fst snd].
    + rewrite decide_True by done. unfold observe_envelope.
      pose proof (budget_observe (policy t) lo hi now _ Ht (entry_or_fresh_tokens q now t Hc)).
      pose proof (budget_entry (policy t) lo hi t now q eq_refl Ht).
      destruct (observe_rep _ _ _) as [b r]. cbn [fst snd] in *. rewrite lookup_put, decide_True by done. lia.
    + rewrite N.add_0_l. etrans; [|by apply (budget_entry (policy t) lo hi t now q eq_refl Ht)].
      cbn [record_sig_failure snd]. unfold record_sig_failure. cbn [snd].
      rewrite lookup_put, decide_True by done. by apply N.eq_le_incl, budget_same.
    + rewrite N.add_0_l. etrans; [|by apply (budget_entry (policy t) lo hi t now q eq_refl Ht)].
      unfold record_malformed. cbn [snd].
      rewrite lookup_put, decide_True by done. by apply N.eq_le_incl, budget_same.
    + rewrite N.add_0_l. etrans; [|by apply (budget_entry (policy t) lo hi t now q eq_refl Ht)].
      unfold refuse. rewrite lookup_put, decide_True by done. by apply N.eq_le_incl, budget_same.
    + unfold reinstate. destruct (reps t !! q) as [r|] eqn:E.
      * rewrite lookup_put, decide_True by done. by apply N.eq_le_incl, budget_same.
      * by rewrite E.
  - rewrite run_op_other by done. destruct o; cbn [op_peer] in Hp; try lia.
    rewrite decide_False by congruence. lia.
Qed.

Lemma observe_rep_refused p now r : refused (observe_rep p now r).2 = refused r.
Proof.
  rewrite observe_rep_eq. unfold refill. cbn. destruct (refused r) eqn:E; [done|].
  repeat (case_match; cbn in *); done.
Qed.

Lemma run_op_refused o t p :
  is_refused p t = true -> o <> Reinstate p ->
  is_refused p (run_op o t).2 = true /\
  match o with Observe q _ => q = p -> (run_op o t).1 = false | _ => True end.
Proof.
  unfold is_refused. intros Hr Ho. destruct (decide (p = op_peer o)) as [->|Hp].
  - destruct (reps t !! op_peer o) as [r|] eqn:E; [|done].
    destruct o as [q now|q now|q now|q now|q]; cbn [op_peer run_op] in *; [..|done].
    + unfold observe_envelope, entry_or_fresh. rewrite E. cbn [default from_option id].
      rewrite observe_rep_eq, Hr. cbn [fst snd]. by rewrite lookup_put, decide_True.
    + unfold record_sig_failure, entry_or_fresh. rewrite E. cbn [snd default from_option id].
      rewrite lookup_put, decide_True by done. cbn. rewrite Hr. by case_bool.
    + unfold record_malformed, entry_or_fresh. rewrite E. cbn [snd default from_option id].
      rewrite lookup_put, decide_True by done. cbn. rewrite Hr. by case_bool.
    + unfold refuse. cbn [snd]. by rewrite lookup_put, decide_True.
  - rewrite run_op_other by done. split; [done|].
    destruct o; cbn [op_peer] in Hp; done.
Qed.

(** A peer over a threshold is refused, and counters stay within [u32]. *)
Definition judged (p : ReputationPolicy) (r : PeerReputation) : Prop :=
  (max_sig_failures p <= sig_failures r \/ max_malformed p <= malformed_payloads r ->
     refused r = true) /\
  sig_failures r <= u32_max /\ malformed_payloads r <= u32_max /\
  envelopes_seen r <= u32_max /\ rate_limit_hits r <= u32_max.

Lemma judged_fresh p now :
  1 <= max_sig_failures p -> 1 <= max_malformed p -> judged p (fresh now (bucket_capacity p)).
Proof. intros H1 H2. unfold judged. cbn. unfold u32_max. split; [|lia]. intros [?|?]; lia. Qed.

Lemma judged_observe p now r : judged p r -> judged p (observe_rep p now r).2.
Proof.
  unfold judged. intros (Hr & H1 & H2 & H3 & H4). rewrite observe_rep_eq. unfold refill. cbv zeta.
  repeat case_bool; cbn in *; unfold sat_add_u32, u32_max in *; (split; [|lia]); intros H; apply Hr in H;
    congruence.
Qed.

Lemma judged_op o t :
  1 <= max_sig_failures (policy t) -> 1 <= max_malformed (policy t) ->
  map_Forall (fun _ => judged (policy t)) (reps t) ->
  map_Forall (fun _ => judged (policy t)) (reps (run_op o t).2).
Proof.
  intros H1 H2 Hall.
  assert (forall p now, judged (policy t) (entry_or_fresh p now t)) as He.
  { intros p now. unfold entry_or_fresh. destruct (reps t !! p) eqn:E; cbn [default];
      [by eapply Hall|by apply judged_fresh]. }
  destruct o as [p now|p now|p now|p now|p]; cbn [run_op].
  - unfold observe_envelope. pose proof (judged_observe (policy t) now _ (He p now)).
    destruct (observe_rep _ _ _). by apply map_Forall_insert_2.
  - apply map_Forall_insert_2; [|done]. destruct (He p now) as (Hr & ? & ? & ? & ?).
    unfold judged. cbn. unfold sat_add_u32, u32_max in *. split; [|lia].
    intros [HT|HT]; case_bool; to_prop; try done; try lia; apply Hr; by right.
  - apply map_Forall_insert_2; [|done]. destruct (He p now) as (Hr & ? & ? & ? & ?).
    unfold judged. cbn. unfold sat_add_u32, u32_max in *. split; [|lia].
    intros [HT|HT]; case_bool; to_prop; try done; try lia; apply Hr; by left.
  - apply map_Forall_insert_2; [|done]. destruct (He p now) as (Hr & ? & ? & ? & ?). by split.
  - unfold reinstate. destruct (reps t !! p) as [r|] eqn:E; [|done].
    apply map_Forall_insert_2; [|done]. destruct (Hall p r E) as (Hr & ? & ? & ? & ?).
    unfold judged. cbn. unfold u32_max in *. split; [|lia]. intros [?|?]; lia.
Qed.

(** ** Properties *)

(** C19: the token bucket limits the rate: between the times [lo] and [hi] the
    gate lets at most a full bucket plus the refill of that period through
    from one peer, whatever else happens and in whatever order the clock
    values come. *)
Theorem rate_limited peer ops t lo hi
    (C : capped t) (T : Forall (fun o => forall n, op_time o = Some n -> lo <= n <= hi) ops) :
  accepted peer ops t
  <= bucket_capacity (policy t) + refill_per_sec (policy t) * (hi - lo).
Proof.
  assert (forall p o, capped t -> o = reps t !! p ->
    budget (policy t) lo hi o <= bucket_capacity (policy t) + refill_per_sec (policy t) * (hi - lo)) as Hb.
  { intros p o Hc ->. unfold budget. destruct (reps t !! p) as [r|] eqn:E; [|lia].
    pose proof (Hc p r E) as Ht. cbn in Ht. case_bool; to_prop; [|lia].
    pose proof (N.mul_le_mono_l (hi - last_refill_at r) (hi - lo) (refill_per_sec (policy t))). lia. }
  etrans; [|apply (Hb peer (reps t !! peer)); done]. clear Hb. revert t C.
  induction T as [|o ops Ho T IH]; intros t C; cbn [accepted]; [lia|].
  pose proof (budget_op o t peer lo hi C Ho) as H. pose proof (IH (run_op o t).2) as IH'.
  rewrite run_op_policy in IH'. specialize (IH' (capped_op o t C)).
  destruct (run_op o t) as [b t']. cbn [fst snd] in *. lia.
Qed.

(** A refused peer stays refused and nothing of it passes the gate, until
    it is reinstated. *)
Theorem refused_stays_refused peer ops t
    (R : is_refused peer t = true) (N : Forall (fun o => o <> Reinstate peer) ops) :
  accepted peer ops t = 0 /\ is_refused peer (run_ops ops t) = true.
Proof.
  revert t R. induction N as [|o ops Ho N IH]; intros t R; cbn [accepted run_ops]; [done|].
  destruct (run_op_refused o t peer R Ho) as [R' Hacc]. destruct (IH _ R') as [H1 H2].
  destruct (run_op o t) as [b t']. cbn [fst snd] in *. split; [|done]. rewrite H1.
  destruct o; try lia. case_decide; [|lia]. rewrite Hacc by done. lia.
Qed.

(** In every reachable table a peer whose signature failures or malformed
    payloads reached their threshold is refused, and no counter exceeds
    [u32::MAX]. *)
Theorem thresholds_refuse pol ops peer r
    (P1 : 1 <= max_sig_failures pol) (P2 : 1 <= max_malformed pol)
    (E : reps (run_ops ops (new pol)) !! peer = Some r) :
  (max_sig_failures pol <= sig_failures r \/ max_malformed pol <= malformed_payloads r ->
     is_refused peer (run_ops ops (new pol)) = true) /\
  sig_failures r <= u32_max /\ malformed_payloads r <= u32_max /\
  envelopes_seen r <= u32_max /\ rate_limit_hits r <= u32_max.
Proof.
  enough (forall t, policy t = pol -> map_Forall (fun _ => judged pol) (reps t) ->
            map_Forall (fun _ => judged pol) (reps (run_ops ops t))) as H.
  { pose proof (H (new pol) eq_refl (map_Forall_empty _) peer r E) as HJ.
    unfold is_refused. rewrite E. exact HJ. }
  clear E. induction ops as [|o ops IH]; intros t Hp Hall; [done|]. cbn [run_ops].
  apply IH; [by rewrite run_op_policy|]. rewrite <-Hp in *. by apply judged_op.
Qed.

Fixpoint sybil_run (obs : list (bytes * bytes * N)) (t : IpSybilTracker) : IpSybilTracker :=
  match obs with
  | [] => t
  | (peer, ip, now) :: obs => sybil_run obs (sybil_observe peer ip now t).2
  end.

Definition within_quota (t : IpSybilTracker) : Prop :=
  map_Forall (fun _ s => N.of_nat (size (pubkeys s)) <= max_new_pubkeys_per_ip (sybil_policy t)) (ips t).

Lemma roll_window_size p now s :
  N.of_nat (size (pubkeys s)) <= max_new_pubkeys_per_ip p ->
  N.of_nat (size (pubkeys (roll_window p now s))) <= max_new_pubkeys_per_ip p.
Proof. unfold roll_window. case_bool; [|done]. cbn. rewrite size_empty. lia. Qed.

Lemma within_quota_observe peer ip now t :
  within_quota t -> within_quota (sybil_observe peer ip now t).2.
Proof.
  intros Hq. unfold sybil_observe, within_quota.
  assert (N.of_nat (size (pubkeys (roll_window (sybil_policy t) now
    (default (sybil_fresh now) (ips t !! ip))))) <= max_new_pubkeys_per_ip (sybil_policy t)) as Hs.
  { apply roll_window_size. destruct (ips t !! ip) as [s|] eqn:E; cbn [default]; [by eapply Hq|].
    cbn. rewrite size_empty. lia. }
  repeat case_bool; to_prop; cbn; apply map_Forall_insert_2; try done.
  cbn. rewrite size_union by set_solver. rewrite size_singleton. lia.
Qed.

(** No source address ever has more identities on record than its quota,
    and [observe] admits a new identity exactly while the quota of the
    current window has room; a refused one is not recorded. *)
Theorem sybil_quota pol obs peer ip now :
  let t := sybil_run obs (sybil_new pol) in
  let s := roll_window pol now (default (sybil_fresh now) (ips t !! ip)) in
  within_quota t /\
  ((sybil_observe peer ip now t).1 = Allow <->
     peer ∈ pubkeys s \/ N.of_nat (size (pubkeys s)) < max_new_pubkeys_per_ip pol) /\
  ((sybil_observe peer ip now t).1 = OverQuota ->
     exists s', ips (sybil_observe peer ip now t).2 !! ip = Some s' /\ pubkeys s' = pubkeys s).
Proof.
  assert (forall obs t, within_quota t ->
    within_quota (sybil_run obs t) /\ sybil_policy (sybil_run obs t) = sybil_policy t) as Hrun.
  { clear. induction obs as [|[[q i] n] obs IH]; intros t Hq; cbn [sybil_run]; [done|].
    destruct (IH _ (within_quota_observe q i n t Hq)) as [H1 H2]. split; [done|]. rewrite H2.
    unfold sybil_observe. by repeat case_bool. }
  destruct (Hrun obs (sybil_new pol)) as [Hq Hp]; [by apply map_Forall_empty|].
  intros t s. split; [done|]. unfold sybil_observe. fold t in Hp. rewrite Hp.
  change (sybil_policy (sybil_new pol)) with pol. fold s. repeat case_bool; to_prop; cbn.
  - split; [tauto|done].
  - split; [split; [done|intros [?|?]; [done|lia]]|]. intros _. eexists. rewrite lookup_insert_eq. done.
  - split; [split; [auto|done]|done].
Qed.

(** ** Concrete instances *)

Module ReputationExamples.

Definition pol : ReputationPolicy :=
  {| bucket_capacity := 3; refill_per_sec := 1; max_sig_failures := 2; max_malformed := 2 |}.
Definition a : bytes := [Byte.x0a].
Definition burst : list op := replicate 5 (Observe a 1) ++ [Observe a 3].

Example burst_accepted : accepted a burst (new pol) = 4.
Proof. vm_compute. reflexivity. Qed.

Lemma rate_limited_witness : accepted a burst (new pol) <= 3 + 1 * (3 - 1).
Proof.
  apply (rate_limited a burst (new pol) 1 3); [apply map_Forall_empty|].
  apply Forall_forall. intros o Ho n Hn.
  assert (In o burst) as Hin by by apply list_elem_of_In. cbn in Hin.
  intuition (subst; cbn in Hn; injection Hn as <-; lia).
Defined.

Definition bad : ReputationTable := run_ops [SigFailure a 1; SigFailure a 2] (new pol).

Lemma refused_stays_refused_witness :
  accepted a burst bad = 0 /\ is_refused a (run_ops burst bad) = true.
Proof.
  apply refused_stays_refused; [vm_compute; reflexivity|]. repeat (constructor; [discriminate|]). constructor.
Defined.

Lemma thresholds_refuse_witness :
  let r := set_misbehavior 2 0 (Some 2) true (fresh 1 3) in
  (max_sig_failures pol <= sig_failures r \/ max_malformed pol <= malformed_payloads r ->
     is_refused a bad = true) /\
  sig_failures r <= u32_max /\ malformed_payloads r <= u32_max /\
  envelopes_seen r <= u32_max /\ rate_limit_hits r <= u32_max.
Proof. apply thresholds_refuse; vm_compute; try reflexivity; discriminate. Defined.

End ReputationExamples.
