(* ===== verification/NetTables.v ===== *)
(** The in-memory tables of a node ([sidevers-net/src]): the peer table
    ([peers.rs]), the gossip dedup cache ([gossip.rs]), the store-and-forward
    mailbox ([forward.rs]), the publisher table ([provenance.rs]) and the
    lifecycle of a side ([relationships.rs]).

    Every method takes its table's lock for its whole body, so a method is
    one step on the state.  [unix_now()] is an argument. *)

From S2P Require Import Prelude Containers Discovery Envelope.

Open Scope N_scope.

(** ** The peer table *)

Module Peers.

Definition DEFAULT_MAX_PEERS : N := 256.

Record PeerTable := { inner : gmap bytes PeerInfo.t; max : N }.

Definition new (max : N) : PeerTable := {| inner := ∅; max := max |}.

Definition with_inner (m : gmap bytes PeerInfo.t) (t : PeerTable) : PeerTable :=
  {| inner := m; max := max t |}.

Definition set_last_seen (now : N) (p : PeerInfo.t) : PeerInfo.t :=
  {| PeerInfo.address := PeerInfo.address p; PeerInfo.intents := PeerInfo.intents p;
     PeerInfo.endpoints := PeerInfo.endpoints p; PeerInfo.last_seen := now |}.

Definition touch (address : bytes) (now : N) (t : PeerTable) : PeerTable :=
  with_inner (alter (set_last_seen now) address (inner t)) t.

Definition get (address : bytes) (t : PeerTable) : option PeerInfo.t := inner t !! address.

Definition remove (address : bytes) (t : PeerTable) : PeerTable :=
  with_inner (delete address (inner t)) t.

Definition len (t : PeerTable) : N := N.of_nat (size (inner t)).

(** [p.intents.contains(&want)] under the optional filter. *)
Definition wanted (intent_filter : option N) (p : PeerInfo.t) : bool :=
  match intent_filter with
  | Some want => existsb (N.eqb want) (PeerInfo.intents p)
  | None => true
  end.

(** [Reverse(a.last_seen) <= Reverse(b.last_seen)]. *)
Definition fresher (a b : PeerInfo.t) : Prop := PeerInfo.last_seen b <= PeerInfo.last_seen a.

#[export] Instance fresher_dec a b : Decision (fresher a b).
Proof. unfold fresher. apply _. Defined.

Section Iter.
Context `{HashIter}.

Definition insert (info : PeerInfo.t) (t : PeerTable) : PeerTable :=
  let guard :=
    if bool_decide (inner t !! PeerInfo.address info = None) && (max t <=? len t) then
      match min_by_key (fun kp => PeerInfo.last_seen (snd kp)) (hiter (inner t)) with
      | Some (oldest, _) => delete oldest (inner t)
      | None => inner t
      end
    else inner t in
  with_inner (<[PeerInfo.address info := info]> guard) t.

Definition sample (limit : N) (intent_filter : option N) (t : PeerTable) : list PeerInfo.t :=
  let all := List.filter (wanted intent_filter) (map snd (hiter (inner t))) in
  take (N.to_nat limit) (merge_sort fresher all).

End Iter.

End Peers.

(** ** The gossip state *)

Module Gossip.

Definition DEDUP_TTL_SECS : N := 600.
Definition MAX_DEDUP_ENTRIES : N := 10000.

(** [struct DedupKey { from, nonce }]. *)
Definition DedupKey : Type := bytes * bytes.

Record GossipState := { subs : gset bytes; dedup : gmap DedupKey N }.

Definition new : GossipState := {| subs := ∅; dedup := ∅ |}.

Definition subscribe (publisher : bytes) (g : GossipState) : GossipState :=
  {| subs := {[publisher]} ∪ subs g; dedup := dedup g |}.
Definition unsubscribe (publisher : bytes) (g : GossipState) : GossipState :=
  {| subs := subs g ∖ {[publisher]}; dedup := dedup g |}.
Definition is_interesting (publisher : bytes) (g : GossipState) : bool :=
  bool_decide (publisher ∈ subs g).

Definition observe (env : Envelope.Envelope) (now : N) (g : GossipState) : bool * GossipState :=
  let key : DedupKey := (Envelope.from env, Envelope.nonce env) in
  let guard :=
    if MAX_DEDUP_ENTRIES <=? N.of_nat (size (dedup g))
    then retain (fun _ ts => now - ts <? DEDUP_TTL_SECS) (dedup g)
    else dedup g in
  match guard !! key with
  | None => (true, {| subs := subs g; dedup := <[key := now]> guard |})
  | Some _ => (false, {| subs := subs g; dedup := guard |})
  end.

End Gossip.

(** ** The mailbox *)

Module Mailbox.

Definition DEFAULT_TTL_SECS : N := 7 * 24 * 60 * 60.

Record HeldMessage := { envelope : bytes; stored_at : N; expires_at : N }.

Abbreviation Mailbox := (gmap bytes (list HeldMessage)).

Definition new : Mailbox := ∅.

(** The message [store] makes; the clock is far below [u64::MAX]. *)
Definition held (envelope : bytes) (now ttl_secs : N) : HeldMessage :=
  let ttl := N.min ttl_secs DEFAULT_TTL_SECS in
  {| envelope := envelope; stored_at := now; expires_at := now + ttl |}.

(** [guard.entry(recipient).or_default().push(held)]. *)
Definition store (recipient envelope : bytes) (now ttl_secs : N) (m : Mailbox) : Mailbox :=
  <[recipient := default [] (m !! recipient) ++ [held envelope now ttl_secs]]> m.

Definition live (now : N) (h : HeldMessage) : bool := now <? expires_at h.

Definition drain (recipient : bytes) (now : N) (m : Mailbox) : list HeldMessage * Mailbox :=
  let queue := default [] (m !! recipient) in
  (List.filter (live now) queue, delete recipient m).

Definition len_for (recipient : bytes) (m : Mailbox) : N :=
  N.of_nat (length (default [] (m !! recipient))).

(** The closure of [guard.retain]: the queue that remains, if any. *)
Definition sweep_queue (now : N) (queue : list HeldMessage) : option (list HeldMessage) :=
  let queue' := List.filter (live now) queue in
  if (length queue' =? 0)%nat then None else Some queue'.

Definition sweep `{HashIter} (now : N) (m : Mailbox) : N * Mailbox :=
  let dropped := fold_left (fun d kq =>
    d + N.of_nat (length (snd kq) - length (List.filter (live now) (snd kq)))) (hiter m) 0 in
  (dropped, omap (sweep_queue now) m).

End Mailbox.

(** ** Publisher provenance *)

Module Provenance.

Abbreviation PublisherTable := (gmap bytes (gset bytes)).

Definition new : PublisherTable := ∅.

Definition note_publisher (hash side : bytes) (t : PublisherTable) : PublisherTable :=
  <[hash := {[side]} ∪ default ∅ (t !! hash)]> t.

Definition has_publisher (hash side : bytes) (t : PublisherTable) : bool :=
  match t !! hash with Some s => bool_decide (side ∈ s) | None => false end.

Definition drop_publisher (hash side : bytes) (t : PublisherTable) : bool * PublisherTable :=
  match t !! hash with
  | None => (false, t)
  | Some set =>
    let set := set ∖ {[side]} in
    if bool_decide (set = ∅) then (false, delete hash t) else (true, <[hash := set]> t)
  end.

Definition publishers (hash : bytes) (t : PublisherTable) : gset bytes := default ∅ (t !! hash).

End Provenance.

(** ** The lifecycle of a side *)

Module Lifecycle.

Inductive SideLifecycle := Created | Active | Dormant | Retired.

Definition DORMANT_AFTER_SECS : N := 90 * 24 * 3600.

Definition derive (last_send_at : option N) (retired : bool) (now : N) : SideLifecycle :=
  if retired then Retired
  else match last_send_at with
       | None => Created
       | Some ts => if now - ts <? DORMANT_AFTER_SECS then Active else Dormant
       end.

End Lifecycle.

(** ** Properties of the peer table *)

Module PeersFacts.
Import Peers.

(** Every entry sits under its own address. *)
Definition keyed (t : PeerTable) : Prop :=
  map_Forall (fun a p => PeerInfo.address p = a) (inner t).

Inductive reachable `{HashIter} : PeerTable -> Prop :=
| reach_new mx : reachable (new mx)
| reach_insert info t : reachable t -> reachable (insert info t)
| reach_touch a now t : reachable t -> reachable (touch a now t)
| reach_remove a t : reachable t -> reachable (remove a t).

Lemma insert_cases `{HashIterLaws} info t :
  inner (insert info t) =
    <[PeerInfo.address info := info]> (inner t) /\
    (is_Some (inner t !! PeerInfo.address info) \/ len t < max t \/ inner t = ∅) \/
  exists o p, inner t !! o = Some p /\
    (forall a q, inner t !! a = Some q -> PeerInfo.last_seen p <= PeerInfo.last_seen q) /\
    inner t !! PeerInfo.address info = None /\ max t <= len t /\
    inner (insert info t) = <[PeerInfo.address info := info]> (delete o (inner t)).
Proof.
  unfold insert. cbn [inner with_inner]. case_bool; to_prop.
  - destruct (min_by_key _ (hiter (inner t))) as [[o p]|] eqn:E.
    + right. apply min_by_key_Some in E as [Hin Hall]. apply elem_of_hiter in Hin.
      exists o, p. split_and!; try done. intros a q Hq. rewrite Forall_forall in Hall.
      by apply (Hall (a, q)), elem_of_hiter.
    + left. split; [done|]. right. right. apply min_by_key_None in E. by apply hiter_nil.
  - left. split; [done|]. apply andb_false_iff in Heqb as [Hb|Hb]; to_prop.
    + left. by destruct (inner t !! PeerInfo.address info).
    + right. by left.
Qed.

Lemma reachable_ok `{HashIterLaws} t :
  reachable t -> keyed t /\ len t <= N.max (max t) 1.
Proof.
  induction 1 as [mx|info t _ [Hk Hl]|a now t _ [Hk Hl]|a t _ [Hk Hl]].
  - split; [by apply map_Forall_empty|]. unfold len. cbn. rewrite map_size_empty. lia.
  - unfold keyed, len. destruct (insert_cases info t) as [[E Hc]|(o & p & Ho & _ & Hn & Hm & E)].
    + rewrite E. split; [by apply map_Forall_insert_2|]. change (max (insert info t)) with (max t).
      rewrite map_size_insert. unfold len in *. destruct Hc as [[q ->]|[Hc| ->]].
      * cbn. lia.
      * destruct (inner t !! _); cbn; lia.
      * rewrite lookup_empty, map_size_empty. cbn. lia.
    + rewrite E. split.
      * apply map_Forall_insert_2; [done|]. by apply map_Forall_delete.
      * pose proof (size_delete_Some _ _ _ Ho).
        pose proof (size_insert_le (delete o (inner t)) (PeerInfo.address info) info).
        change (max (insert info t)) with (max t). unfold len in *. lia.
  - unfold keyed, len, touch. cbn. split.
    + intros a' p Hp. apply lookup_alter_Some in Hp as [(-> & q & Hq & ->)|[_ Hq]]; by apply Hk in Hq.
    + rewrite <-(map_size_fmap (fun _ => tt)). unfold len in Hl.
      rewrite <-(map_size_fmap (fun _ => tt)) in Hl. etrans; [|exact Hl].
      apply N.eq_le_incl. f_equal. f_equal. apply map_eq. intros i. rewrite !lookup_fmap.
      destruct (decide (i = a)) as [->|Hi]; [rewrite lookup_alter_eq|by rewrite lookup_alter_ne].
      by destruct (inner t !! a).
  - unfold keyed, len, remove in *. cbn. split; [by apply map_Forall_delete|].
    rewrite map_size_delete. destruct (inner t !! a); cbn; lia.
Qed.

(** The peer table never outgrows its bound (a table built with bound 0
    still holds one peer), and every peer is stored under its own address. *)
Theorem peer_table_bounded `{HashIterLaws} t (R : reachable t) :
  len t <= N.max (max t) 1 /\
  forall a p, get a t = Some p -> PeerInfo.address p = a.
Proof. destruct (reachable_ok t R) as [Hk Hl]. split; [done|]. intros a p Hp. by apply Hk. Qed.

(** Inserting a peer makes it present with the given information and keeps
    every other peer, except that a full table gives up one peer with the
    least [last_seen] for a new one. *)
Theorem peer_insert_spec `{HashIterLaws} info t :
  let a := PeerInfo.address info in
  get a (insert info t) = Some info /\
  ((forall b, b <> a -> get b (insert info t) = get b t) \/
   (get a t = None /\ max t <= len t /\ exists o p, get o t = Some p /\
      (forall b q, get b t = Some q -> PeerInfo.last_seen p <= PeerInfo.last_seen q) /\
      forall b, b <> a -> get b (insert info t) = if decide (b = o) then None else get b t)).
Proof.
  cbn. unfold get. destruct (insert_cases info t) as [[-> _]|(o & p & Ho & Hmin & Hn & Hm & ->)].
  - rewrite lookup_insert_eq. split; [done|]. left. intros b Hb. by rewrite lookup_insert_ne.
  - rewrite lookup_insert_eq. split; [done|]. right. split_and!; [done..|].
    exists o, p. split_and!; [done..|]. intros b Hb. rewrite lookup_insert_ne by done.
    case_decide; subst; [by rewrite lookup_delete_eq|by rewrite lookup_delete_ne].
Qed.

Lemma list_filter_In {A} (f : A -> bool) l x : x ∈ List.filter f l <-> x ∈ l /\ f x = true.
Proof. rewrite !list_elem_of_In. apply filter_In. Qed.

#[export] Instance fresher_total : Total fresher.
Proof. intros a b. unfold fresher. lia. Qed.

#[export] Instance fresher_trans : Transitive fresher.
Proof. intros a b c. unfold fresher. lia. Qed.

(** A sample holds at most [limit] peers, all of them in the table and
    accepting the wanted intent, freshest first; a wanted peer that is left
    out is no fresher than any peer of the sample, and is left out only when
    the sample is full. *)
Theorem sample_spec `{HashIterLaws} limit want t :
  let s := sample limit want t in
  N.of_nat (length s) <= limit /\ StronglySorted fresher s /\
  (forall p, p ∈ s -> (exists a, get a t = Some p) /\ wanted want p = true) /\
  (forall a p, get a t = Some p -> wanted want p = true ->
     p ∈ s \/ (N.of_nat (length s) = limit /\ forall q, q ∈ s -> PeerInfo.last_seen p <= PeerInfo.last_seen q)).
Proof.
  cbn. unfold sample. set (all := List.filter _ _). set (sorted := merge_sort fresher all).
  assert (sorted ≡ₚ all) as Hp by apply merge_sort_Permutation.
  assert (StronglySorted fresher sorted) as Hs by (apply StronglySorted_merge_sort; apply _).
  assert (forall p, p ∈ sorted <-> (exists a, get a t = Some p) /\ wanted want p = true) as Hin.
  { intros p. rewrite Hp. unfold all. rewrite list_filter_In. unfold get. f_equiv.
    rewrite list_elem_of_fmap. split.
    - intros ([a q] & -> & Hq). exists a. by apply elem_of_hiter.
    - intros (a & Ha). exists (a, p). split; [done|]. by apply elem_of_hiter. }
  rewrite <-(take_drop (N.to_nat limit) sorted) in Hs. apply StronglySorted_app in Hs as (Hcross & Hs1 & _).
  split_and!.
  - rewrite length_take. lia.
  - done.
  - intros p Hpin. apply Hin. rewrite <-(take_drop (N.to_nat limit) sorted). apply elem_of_app. by left.
  - intros a p Ha Hw. assert (p ∈ sorted) as Hps by (apply Hin; eauto).
    rewrite <-(take_drop (N.to_nat limit) sorted) in Hps. apply elem_of_app in Hps as [?|Hd]; [by left|].
    right. split; [|intros q Hq; by apply (Hcross q p)].
    rewrite length_take. apply list_elem_of_lookup in Hd as [i Hi]. apply lookup_lt_Some in Hi.
    rewrite length_drop in Hi. lia.
Qed.

End PeersFacts.

(** ** Properties of the gossip cache *)

Module GossipFacts.
Import Gossip.

Definition key_of (env : Envelope.Envelope) : DedupKey := (Envelope.from env, Envelope.nonce env).

(** A broadcast is processed only once while its first sighting is younger
    than the dedup time: an observation reports [false] for every pair first
    seen less than [DEDUP_TTL_SECS] ago, whether or not it sweeps, and after
    any observation the pair is on record with a sighting no later than the
    observation or the one already there.  A pair the cache holds is reported
    as seen however old it is, as long as the cache is below the sweep
    threshold: the entries are only swept at [MAX_DEDUP_ENTRIES]. *)
Theorem gossip_dedup env now g :
  let '(first, g') := observe env now g in
  (forall t, dedup g !! key_of env = Some t -> now - t < DEDUP_TTL_SECS -> first = false) /\
  (N.of_nat (size (dedup g)) < MAX_DEDUP_ENTRIES ->
     (first = false <-> is_Some (dedup g !! key_of env))) /\
  (first = true -> dedup g' !! key_of env = Some now) /\
  (first = false -> exists t, dedup g !! key_of env = Some t /\ dedup g' !! key_of env = Some t) /\
  subs g' = subs g.
Proof.
  unfold observe, key_of. set (k := (_, _) : DedupKey).
  change (Envelope.from env, Envelope.nonce env) with k.
  set (guard := if MAX_DEDUP_ENTRIES <=? _ then _ else _).
  assert (forall t, dedup g !! k = Some t -> now - t < DEDUP_TTL_SECS -> guard !! k = Some t) as H1.
  { intros t Hk Ht. unfold guard. case_bool; [|done]. apply retain_lookup. split; [done|].
    by apply N.ltb_lt. }
  assert (forall t, guard !! k = Some t -> dedup g !! k = Some t) as H2.
  { intros t. unfold guard. case_bool; [|done]. by intros [? _]%retain_lookup. }
  assert (N.of_nat (size (dedup g)) < MAX_DEDUP_ENTRIES -> guard = dedup g) as H3.
  { intros Hs. unfold guard. by rewrite (proj2 (N.leb_gt _ _)). }
  clearbody guard. destruct (guard !! k) as [t|] eqn:E.
  - split_and!; try done; [|by exists t; auto].
    intros Hs. rewrite <-H3, E by done. by split.
  - split_and!; try done.
    + intros t Hk Ht. by specialize (H1 t Hk Ht).
    + intros Hs. rewrite <-H3, E by done. split; [done|]. by intros [??].
    + intros _. cbn [dedup]. by rewrite lookup_insert_eq.
Qed.

Lemma observe_new env now g :
  N.of_nat (size (dedup g)) < MAX_DEDUP_ENTRIES -> dedup g !! key_of env = None ->
  observe env now g = (true, {| subs := subs g; dedup := <[key_of env := now]> (dedup g) |}).
Proof.
  intros Hs Hk. unfold observe, key_of in *. rewrite (proj2 (N.leb_gt _ _)) by done. by rewrite Hk.
Qed.

Lemma observe_seen env now g :
  N.of_nat (size (dedup g)) < MAX_DEDUP_ENTRIES -> is_Some (dedup g !! key_of env) ->
  observe env now g = (false, g).
Proof.
  intros Hs [t Hk]. unfold observe, key_of in *. rewrite (proj2 (N.leb_gt _ _)) by done.
  rewrite Hk. by destruct g.
Qed.

End GossipFacts.

(** ** Properties of the mailbox *)

Module MailboxFacts.
Import Mailbox.

(** A [store] request: recipient, envelope, clock, requested time to live. *)
Definition request : Type := bytes * bytes * N * N.

Definition store_all (reqs : list request) (m : Mailbox) : Mailbox :=
  fold_left (fun m '(r, e, now, ttl) => store r e now ttl m) reqs m.

(** What the requests leave for [recipient], in order. *)
Definition held_for (recipient : bytes) (reqs : list request) : list HeldMessage :=
  omap (fun '(r, e, now, ttl) => if decide (r = recipient) then Some (held e now ttl) else None) reqs.

Lemma store_all_lookup recipient reqs : forall m,
  default [] (store_all reqs m !! recipient) = default [] (m !! recipient) ++ held_for recipient reqs.
Proof.
  induction reqs as [|[[[r e] now] ttl] reqs IH]; intros m; cbn; [by rewrite app_nil_r|].
  unfold store_all, held_for in *. rewrite IH. unfold store. case_decide; subst.
  - rewrite lookup_insert_eq. cbn. by rewrite <-app_assoc.
  - by rewrite lookup_insert_ne.
Qed.

(** The mailbox is a queue per recipient: draining returns, in the order
    they were stored, exactly the envelopes for that recipient whose time to
    live (at most seven days) has not run out; it empties that queue and
    touches no other. *)
Theorem mailbox_fifo recipient reqs now :
  let '(msgs, m') := drain recipient now (store_all reqs new) in
  msgs = List.filter (live now) (held_for recipient reqs) /\
  len_for recipient m' = 0 /\
  forall r, r <> recipient -> m' !! r = store_all reqs new !! r.
Proof.
  unfold drain. split_and!.
  - by rewrite store_all_lookup.
  - unfold len_for. by rewrite lookup_delete_eq.
  - intros r Hr. by rewrite lookup_delete_ne.
Qed.

Lemma filter_live_mono now1 now2 q :
  now1 <= now2 -> List.filter (live now2) (List.filter (live now1) q) = List.filter (live now2) q.
Proof.
  intros Hn. induction q as [|h q IH]; [done|]. cbn.
  destruct (live now1 h) eqn:E1; cbn; destruct (live now2 h) eqn:E2; rewrite ?IH; try done.
  unfold live in *. to_prop. lia.
Qed.

(** Sweeping loses nothing that could still be delivered: a later drain
    returns the same messages with or without the sweep. *)
Theorem sweep_transparent `{HashIter} recipient now1 now2 m (T : now1 <= now2) :
  (drain recipient now2 (sweep now1 m).2).1 = (drain recipient now2 m).1.
Proof.
  unfold drain, sweep. cbn [fst snd]. rewrite lookup_omap.
  destruct (m !! recipient) as [q|] eqn:E; cbn; [|done].
  rewrite <-(filter_live_mono now1 now2 q T). unfold sweep_queue.
  by destruct (List.filter (live now1) q).
Qed.

End MailboxFacts.

(** ** Properties of the publisher table *)

Module ProvenanceFacts.
Import Provenance.

(** Retracting forgets exactly the retracter, and the answer is [true]
    exactly when another publisher of the object remains; so a node unpins an
    object only when its last publisher retracts.  The answer is [true] also
    for a retracter that never published, when others have. *)
Lemma drop_publisher_ok hash side t :
  let '(keep, t') := drop_publisher hash side t in
  (keep = true <-> exists s, s <> side /\ has_publisher hash s t = true) /\
  (forall h s, has_publisher h s t' = true <-> has_publisher h s t = true /\ ~ (h = hash /\ s = side)).
Proof.
  unfold drop_publisher, has_publisher. destruct (t !! hash) as [ps|] eqn:E.
  - case_bool; to_prop.
    + split.
      * split; [done|]. intros (s & Hs & Hb). to_prop. exfalso. apply Hs. set_solver.
      * intros h s. destruct (decide (h = hash)) as [->|Hh].
        { rewrite lookup_delete_eq, E, bool_decide_eq_true. set_solver. }
        rewrite lookup_delete_ne by done. naive_solver.
    + split.
      * split; [|done]. intros _. apply set_choose_L in Heqb as [s Hs].
        exists s. rewrite bool_decide_eq_true. set_solver.
      * intros h s. destruct (decide (h = hash)) as [->|Hh].
        { rewrite lookup_insert_eq, E, !bool_decide_eq_true. set_solver. }
        rewrite lookup_insert_ne by done. naive_solver.
  - split.
    + split; [done|]. by intros (s & _ & ?).
    + intros h s. destruct (decide (h = hash)) as [->|Hh]; [by rewrite E; naive_solver|naive_solver].
Qed.

(** The last publisher of an object. *)
Lemma drop_publisher_last hash side t :
  has_publisher hash side t = true ->
  (drop_publisher hash side t).1 = false <-> publishers hash t = {[side]}.
Proof.
  unfold has_publisher, drop_publisher, publishers. destruct (t !! hash) as [ps|]; [|done].
  cbn [default from_option id]. intros Hin%bool_decide_eq_true.
  case_bool_decide as Hps; cbn [fst]; split; intros Hx; try done.
  - apply set_eq. intros p. rewrite elem_of_singleton. split; [|by intros ->]. intros Hp.
    destruct (decide (p = side)); [done|].
    assert (p ∈ ps ∖ {[side]}) as Hin' by (by apply elem_of_difference; rewrite elem_of_singleton).
    rewrite Hps in Hin'. by apply elem_of_empty in Hin'.
  - exfalso. apply Hps. rewrite Hx. apply set_eq. intros p.
    rewrite elem_of_difference. split; [by intros []|]. by intros ?%elem_of_empty.
Qed.

End ProvenanceFacts.

(** ** Concrete instances *)

Module TablesExamples.
Import ToyIter.

Definition info (a : byte) (t : N) : PeerInfo.t :=
  {| PeerInfo.address := [a]; PeerInfo.intents := [1; 3]; PeerInfo.endpoints := [];
     PeerInfo.last_seen := t |}.

Definition three : Peers.PeerTable :=
  Peers.insert (info Byte.x03 300) (Peers.insert (info Byte.x02 200)
    (Peers.insert (info Byte.x01 100) (Peers.new 2))).

Lemma peer_table_bounded_witness :
  Peers.len three <= N.max (Peers.max three) 1 /\
  forall a p, Peers.get a three = Some p -> PeerInfo.address p = a.
Proof. apply PeersFacts.peer_table_bounded. repeat constructor. Defined.

Lemma peer_insert_spec_witness :
  let t := Peers.insert (info Byte.x02 200) (Peers.insert (info Byte.x01 100) (Peers.new 2)) in
  let a := [Byte.x03] in
  Peers.get a (Peers.insert (info Byte.x03 300) t) = Some (info Byte.x03 300) /\
  ((forall b, b <> a -> Peers.get b (Peers.insert (info Byte.x03 300) t) = Peers.get b t) \/
   (Peers.get a t = None /\ Peers.max t <= Peers.len t /\ exists o p, Peers.get o t = Some p /\
      (forall b q, Peers.get b t = Some q -> PeerInfo.last_seen p <= PeerInfo.last_seen q) /\
      forall b, b <> a -> Peers.get b (Peers.insert (info Byte.x03 300) t)
                        = if decide (b = o) then None else Peers.get b t)).
Proof. intros t a. apply (PeersFacts.peer_insert_spec (info Byte.x03 300) t). Defined.

Lemma sample_spec_witness :
  let s := Peers.sample 1 (Some 3) three in
  N.of_nat (length s) <= 1 /\ StronglySorted Peers.fresher s /\
  (forall p, p ∈ s -> (exists a, Peers.get a three = Some p) /\ Peers.wanted (Some 3) p = true) /\
  (forall a p, Peers.get a three = Some p -> Peers.wanted (Some 3) p = true ->
     p ∈ s \/ (N.of_nat (length s) = 1 /\
               forall q, q ∈ s -> PeerInfo.last_seen p <= PeerInfo.last_seen q)).
Proof. apply PeersFacts.sample_spec. Defined.

Example oldest_evicted :
  Peers.get [Byte.x01] three = None /\ map PeerInfo.last_seen (Peers.sample 10 None three) = [300; 200].
Proof. split; vm_compute; reflexivity. Qed.

Lemma sweep_transparent_witness :
  let m := Mailbox.store [Byte.x01] [Byte.xaa] 10 60 (Mailbox.store [Byte.x01] [Byte.xbb] 10 5 ∅) in
  (Mailbox.drain [Byte.x01] 30 (Mailbox.sweep 20 m).2).1 = (Mailbox.drain [Byte.x01] 30 m).1.
Proof. intros m. apply MailboxFacts.sweep_transparent. discriminate. Defined.

End TablesExamples.
