(* ===== verification/SideStore.v ===== *)
(** The persistent state of the hosted sides
    ([sidevers-net/src/side_store.rs] and the records of [relationships.rs]).

    The store is one SQLite file.  SQLite itself is third-party; what is
    modelled is what the source's SQL statements do to the rows: a table is a
    finite map from its primary key to its other columns, an upsert writes
    exactly the columns its [ON CONFLICT] clause names, and an [INTEGER]
    column holds the signed 64-bit value of [x as i64].  The child tables
    reference [sides(address)]; [Side::load_or_create] writes that row before
    any other.  Statements that fail (a full disk, a locked file) leave the
    tables as they were; [SideState.v] says which calls ignore such a failure. *)

From S2P Require Import Prelude Utf8 Cbor CborCodec TextMap Keys Profile NetTables.

Open Scope N_scope.

(** ** Integer columns *)

(** [x as i64] and [x as u64]. *)
Definition as_i64 (n : N) : Z := let z := Z.of_N n in if (z <? 2 ^ 63)%Z then z else (z - 2 ^ 64)%Z.
Definition as_u64 (z : Z) : N := Z.to_N (z mod 2 ^ 64)%Z.

Definition bool_column (b : bool) : Z := if b then 1%Z else 0%Z.

(** ** Relationships *)

Record SideRelationship := {
  address : bytes;
  nickname : option string;
  introduced_by : option bytes;
  capabilities : gset string;
  notes : option string;
  pinned : bool;
  added_at : N;
  peer_listen_addr : option string
}.

(** The table in memory: a [BTreeMap] behind a lock. *)
Module RelationshipTable.

Abbreviation t := (gmap bytes SideRelationship).

Definition new : t := ∅.
Definition insert (r : SideRelationship) (m : t) : t := <[address r := r]> m.
Definition get (a : bytes) (m : t) : option SideRelationship := m !! a.
Definition remove (a : bytes) (m : t) : t := delete a m.
Definition contains (a : bytes) (m : t) : bool := bool_decide (is_Some (m !! a)).
Definition len (m : t) : nat := size m.
Definition is_empty (m : t) : bool := bool_decide (m = ∅).

(** [f] is the caller's mutation; whether the entry existed. *)
Definition update (a : bytes) (f : SideRelationship -> SideRelationship) (m : t) : bool * t :=
  match m !! a with
  | Some r => (true, <[a := f r]> m)
  | None => (false, m)
  end.

End RelationshipTable.

(** ** The capability column *)

(** The capability tokens joined by newlines. *)
Definition CAP_SEP : Ascii.ascii := Ascii.ascii_of_nat 10.

Fixpoint join_sep (l : list string) : string :=
  match l with
  | [] => EmptyString
  | [s] => s
  | s :: rest => String.append s (String CAP_SEP (join_sep rest))
  end.

Definition encode_capabilities (caps : gset string) : string := join_sep (set_to_list caps).

(** [s.split(CAP_SEP)]: at least one piece. *)
Fixpoint split_sep (s : string) : list string :=
  match s with
  | EmptyString => [EmptyString]
  | String c s' =>
    if Ascii.eqb c CAP_SEP then EmptyString :: split_sep s'
    else match split_sep s' with
         | p :: ps => String c p :: ps
         | [] => [String c EmptyString]
         end
  end.

Definition decode_capabilities (s : string) : gset string :=
  if String.eqb s "" then ∅ else list_to_set (split_sep s).

(** ** Rows *)

Record StoredSide := {
  stored_address : bytes;
  seed : bytes;
  label : option string;
  created_at : N;
  lifecycle : string;
  last_send_at : option N;
  is_self_retired : bool
}.

Record SideRow := {
  c_seed : bytes;
  c_label : option string;
  c_created_at : Z;
  c_lifecycle : string;
  c_last_send_at : option Z;
  c_is_self_retired : Z
}.

Record RelationshipRow := {
  c_nickname : option string;
  c_introduced_by : option bytes;
  c_capabilities : string;
  c_notes : option string;
  c_pinned : Z;
  c_added_at : Z;
  c_peer_listen_addr : option string
}.

Record VerseMembershipRecord := {
  verse_address : bytes;
  contract_hash : bytes;
  membership_token : bytes;
  content_key : bytes;
  joined_at : N;
  role : string;
  m_name : option string;
  photo_hash : option bytes;
  dial_addr : option string;
  verse_seed : option bytes;
  contract_wire : option bytes
}.

(** The columns of a membership besides the verse: [joined_at] is an integer. *)
Record MembershipRow := {
  c_membership : VerseMembershipRecord;   (* every column but [joined_at] *)
  c_joined_at : Z
}.

Record Tables := {
  t_settings : gmap string string;
  t_sides : gmap bytes SideRow;
  t_profiles : gmap bytes (bytes * Z);               (* wire_bytes, updated_at *)
  t_retired : gmap (bytes * bytes) Z;                (* observed_at *)
  t_relationships : gmap (bytes * bytes) RelationshipRow;
  t_co_holders : gmap (bytes * bytes) (Z * option bytes);   (* added_at, added_by *)
  t_revoked : gmap (bytes * bytes) Z;                (* revoked_at *)
  t_addrs : gmap (bytes * bytes) (string * Z);       (* dial_addr, updated_at *)
  t_memberships : gmap (bytes * bytes) MembershipRow
}.

Definition empty_tables : Tables := Build_Tables ∅ ∅ ∅ ∅ ∅ ∅ ∅ ∅ ∅.

Definition set_settings x t :=
  Build_Tables x (t_sides t) (t_profiles t) (t_retired t) (t_relationships t) (t_co_holders t)
    (t_revoked t) (t_addrs t) (t_memberships t).
Definition set_sides x t :=
  Build_Tables (t_settings t) x (t_profiles t) (t_retired t) (t_relationships t) (t_co_holders t)
    (t_revoked t) (t_addrs t) (t_memberships t).
Definition set_profiles x t :=
  Build_Tables (t_settings t) (t_sides t) x (t_retired t) (t_relationships t) (t_co_holders t)
    (t_revoked t) (t_addrs t) (t_memberships t).
Definition set_retired x t :=
  Build_Tables (t_settings t) (t_sides t) (t_profiles t) x (t_relationships t) (t_co_holders t)
    (t_revoked t) (t_addrs t) (t_memberships t).
Definition set_relationships x t :=
  Build_Tables (t_settings t) (t_sides t) (t_profiles t) (t_retired t) x (t_co_holders t)
    (t_revoked t) (t_addrs t) (t_memberships t).
Definition set_co_holders x t :=
  Build_Tables (t_settings t) (t_sides t) (t_profiles t) (t_retired t) (t_relationships t) x
    (t_revoked t) (t_addrs t) (t_memberships t).
Definition set_revoked x t :=
  Build_Tables (t_settings t) (t_sides t) (t_profiles t) (t_retired t) (t_relationships t)
    (t_co_holders t) x (t_addrs t) (t_memberships t).
Definition set_addrs x t :=
  Build_Tables (t_settings t) (t_sides t) (t_profiles t) (t_retired t) (t_relationships t)
    (t_co_holders t) (t_revoked t) x (t_memberships t).
Definition set_memberships x t :=
  Build_Tables (t_settings t) (t_sides t) (t_profiles t) (t_retired t) (t_relationships t)
    (t_co_holders t) (t_revoked t) (t_addrs t) x.

(** The rows of a table that belong to one side. *)
Definition rows_of {V} (side : bytes) (m : gmap (bytes * bytes) V) : list (bytes * V) :=
  omap (fun kv => if decide (fst (fst kv) = side) then Some (snd (fst kv), snd kv) else None)
    (map_to_list m).

(** ** The statements *)

Module SideStore.

Definition get_setting (k : string) (t : Tables) : option string := t_settings t !! k.
Definition set_setting (k v : string) (t : Tables) : Tables := set_settings (<[k := v]> (t_settings t)) t.

(** On conflict the seed and the creation time of the old row stay. *)
Definition upsert_side (s : StoredSide) (t : Tables) : Tables :=
  let row :=
    match t_sides t !! stored_address s with
    | None =>
      {| c_seed := seed s; c_label := label s; c_created_at := as_i64 (created_at s);
         c_lifecycle := lifecycle s; c_last_send_at := as_i64 <$> last_send_at s;
         c_is_self_retired := bool_column (is_self_retired s) |}
    | Some old =>
      {| c_seed := c_seed old; c_label := label s; c_created_at := c_created_at old;
         c_lifecycle := lifecycle s; c_last_send_at := as_i64 <$> last_send_at s;
         c_is_self_retired := bool_column (is_self_retired s) |}
    end in
  set_sides (<[stored_address s := row]> (t_sides t)) t.

Definition side_of_row (a : bytes) (r : SideRow) : StoredSide :=
  {| stored_address := a; seed := c_seed r; label := c_label r; created_at := as_u64 (c_created_at r);
     lifecycle := c_lifecycle r; last_send_at := as_u64 <$> c_last_send_at r;
     is_self_retired := negb (Z.eqb (c_is_self_retired r) 0) |}.

Definition load_side (a : bytes) (t : Tables) : option StoredSide := side_of_row a <$> t_sides t !! a.

Definition list_sides (t : Tables) : list StoredSide :=
  map (fun kv => side_of_row (fst kv) (snd kv)) (map_to_list (t_sides t)).

Definition upsert_profile (side : bytes) (p : ProfilePayload) (t : Tables) : Tables :=
  set_profiles (<[side := (Profile.Profile.to_wire_bytes p, as_i64 (updated_at p))]> (t_profiles t)) t.

(** A stored profile is verified again when it is read. *)
Definition load_profile `{Crypto} (side : bytes) (t : Tables) : result (option ProfilePayload) :=
  match t_profiles t !! side with
  | None => Ok None
  | Some (b, _) => p ← Profile.Profile.from_wire_bytes b; Ok (Some p)
  end.

Definition delete_profile (side : bytes) (t : Tables) : Tables :=
  set_profiles (delete side (t_profiles t)) t.

(** [INSERT OR IGNORE]. *)
Definition insert_or_ignore {K V} `{Countable K} (k : K) (v : V) (m : gmap K V) : gmap K V :=
  match m !! k with Some _ => m | None => <[k := v]> m end.

Definition add_retired_seen (observer retired : bytes) (observed_at : N) (t : Tables) : Tables :=
  set_retired (insert_or_ignore (observer, retired) (as_i64 observed_at) (t_retired t)) t.

Definition list_retired_seen (observer : bytes) (t : Tables) : list bytes :=
  map fst (rows_of observer (t_retired t)).

(** On conflict the time the relationship was added stays. *)
Definition upsert_relationship (side : bytes) (r : SideRelationship) (t : Tables) : Tables :=
  let caps_blob := encode_capabilities (capabilities r) in
  let k := (side, address r) in
  let added :=
    match t_relationships t !! k with
    | None => as_i64 (added_at r)
    | Some old => c_added_at old
    end in
  let row :=
    {| c_nickname := nickname r; c_introduced_by := introduced_by r; c_capabilities := caps_blob;
       c_notes := notes r; c_pinned := bool_column (pinned r); c_added_at := added;
       c_peer_listen_addr := peer_listen_addr r |} in
  set_relationships (<[k := row]> (t_relationships t)) t.

Definition delete_relationship (side peer : bytes) (t : Tables) : Tables :=
  set_relationships (delete (side, peer) (t_relationships t)) t.

Definition relationship_of_row (peer : bytes) (r : RelationshipRow) : SideRelationship :=
  {| address := peer; nickname := c_nickname r; introduced_by := c_introduced_by r;
     capabilities := decode_capabilities (c_capabilities r); notes := c_notes r;
     pinned := negb (Z.eqb (c_pinned r) 0); added_at := as_u64 (c_added_at r);
     peer_listen_addr := c_peer_listen_addr r |}.

Definition list_relationships (side : bytes) (t : Tables) : list SideRelationship :=
  map (fun kv => relationship_of_row (fst kv) (snd kv)) (rows_of side (t_relationships t)).

(** [INSERT OR REPLACE]. *)
Definition add_co_holder (side device_pubkey : bytes) (added_at : N) (added_by : option bytes)
    (t : Tables) : Tables :=
  set_co_holders (<[(side, device_pubkey) := (as_i64 added_at, added_by)]> (t_co_holders t)) t.

Definition remove_co_holder (side device_pubkey : bytes) (t : Tables) : Tables :=
  set_co_holders (delete (side, device_pubkey) (t_co_holders t)) t.

Definition list_co_holders (side : bytes) (t : Tables) : list (bytes * N * option bytes) :=
  map (fun kv => (fst kv, as_u64 (fst (snd kv)), snd (snd kv))) (rows_of side (t_co_holders t)).

Definition add_revoked_device (side device_pubkey : bytes) (revoked_at : N) (t : Tables) : Tables :=
  set_revoked (insert_or_ignore (side, device_pubkey) (as_i64 revoked_at) (t_revoked t)) t.

Definition list_revoked_devices (side : bytes) (t : Tables) : list bytes :=
  map fst (rows_of side (t_revoked t)).

Definition upsert_co_holder_addr (side device_pubkey : bytes) (dial_addr : string) (updated_at : N)
    (t : Tables) : Tables :=
  set_addrs (<[(side, device_pubkey) := (dial_addr, as_i64 updated_at)]> (t_addrs t)) t.

Definition remove_co_holder_addr (side device_pubkey : bytes) (t : Tables) : Tables :=
  set_addrs (delete (side, device_pubkey) (t_addrs t)) t.

Definition list_co_holder_addrs (side : bytes) (t : Tables) : list (bytes * string) :=
  map (fun kv => (fst kv, fst (snd kv))) (rows_of side (t_addrs t)).

(** On conflict the time the side joined stays. *)
Definition upsert_verse_membership (side : bytes) (m : VerseMembershipRecord) (t : Tables) : Tables :=
  let k := (side, verse_address m) in
  let joined :=
    match t_memberships t !! k with
    | None => as_i64 (joined_at m)
    | Some old => c_joined_at old
    end in
  set_memberships (<[k := {| c_membership := m; c_joined_at := joined |}]> (t_memberships t)) t.

Definition delete_verse_membership (side verse : bytes) (t : Tables) : Tables :=
  set_memberships (delete (side, verse) (t_memberships t)) t.

Definition membership_of_row (r : MembershipRow) : VerseMembershipRecord :=
  let m := c_membership r in
  {| verse_address := verse_address m; contract_hash := contract_hash m;
     membership_token := membership_token m; content_key := content_key m;
     joined_at := as_u64 (c_joined_at r); role := role m; m_name := m_name m;
     photo_hash := photo_hash m; dial_addr := dial_addr m; verse_seed := verse_seed m;
     contract_wire := contract_wire m |}.

Definition get_verse_membership (side verse : bytes) (t : Tables) : option VerseMembershipRecord :=
  membership_of_row <$> t_memberships t !! (side, verse).

(** [ORDER BY joined_at ASC], on the signed column. *)
Definition joined_before (a b : bytes * bytes * MembershipRow) : Prop :=
  (c_joined_at (snd a) <= c_joined_at (snd b))%Z.

#[export] Instance joined_before_dec a b : Decision (joined_before a b).
Proof. unfold joined_before. apply _. Defined.

Definition list_all_verse_memberships (t : Tables) : list (bytes * VerseMembershipRecord) :=
  map (fun kv => (fst (fst kv), membership_of_row (snd kv)))
    (merge_sort joined_before (map_to_list (t_memberships t))).

End SideStore.

(** ** Integers survive the signed column *)

Lemma as_u64_as_i64 n : n < u64_size -> as_u64 (as_i64 n) = n.
Proof.
  unfold u64_size, as_u64, as_i64. intros H. cbv zeta. destruct (Z.ltb_spec (Z.of_N n) (2 ^ 63)).
  - rewrite Z.mod_small by lia. lia.
  - replace (Z.of_N n - 2 ^ 64)%Z with (Z.of_N n + (-1) * 2 ^ 64)%Z by lia.
    rewrite Z.mod_add, Z.mod_small by lia. lia.
Qed.

Lemma as_u64_as_i64_opt o : from_option (fun n => n < u64_size) True o -> as_u64 <$> (as_i64 <$> o) = o.
Proof. destruct o; cbn; intros H; [by rewrite as_u64_as_i64|done]. Qed.

Lemma bool_column_back b : negb (Z.eqb (bool_column b) 0) = b.
Proof. by destruct b. Qed.

(** ** The capability column *)

Definition no_sep (s : string) : Prop := CAP_SEP ∉ String.list_ascii_of_string s.

(** The sets of tokens that the column can hold. *)
Definition caps_storable (caps : gset string) : Prop :=
  (forall c, c ∈ caps -> no_sep c) /\ caps <> {[ "" ]}.

Lemma split_sep_no_sep s : Forall no_sep (split_sep s).
Proof.
  induction s as [|c s IH]; cbn [split_sep].
  - constructor; [apply not_elem_of_nil|done].
  - destruct (Ascii.eqb_spec c CAP_SEP) as [->|Hc].
    + constructor; [apply not_elem_of_nil|done].
    + assert (forall q, no_sep q -> no_sep (String c q)) as Hcons.
      { intros q Hq. unfold no_sep. cbn. apply not_elem_of_cons. split; [congruence|exact Hq]. }
      destruct (split_sep s) as [|p ps]; inversion IH; subst; repeat constructor; try done.
      * apply Hcons, not_elem_of_nil.
      * by apply Hcons.
Qed.

Lemma split_sep_piece s : no_sep s -> split_sep s = [s].
Proof.
  induction s as [|c s IH]; intros Hs; [done|]. cbn [split_sep].
  unfold no_sep in *. cbn in Hs. apply not_elem_of_cons in Hs as [Hc Hs].
  destruct (Ascii.eqb_spec c CAP_SEP) as [->|_]; [done|]. by rewrite IH.
Qed.

Lemma split_sep_app s t :
  no_sep s -> split_sep (String.append s (String CAP_SEP t)) = s :: split_sep t.
Proof.
  induction s as [|c s IH]; intros Hs.
  - done.
  - change (String c s +:+ String CAP_SEP t) with (String c (s +:+ String CAP_SEP t)).
    cbn [split_sep]. unfold no_sep in *. cbn in Hs. apply not_elem_of_cons in Hs as [Hc Hs].
    destruct (Ascii.eqb_spec c CAP_SEP) as [->|_]; [done|]. by rewrite IH.
Qed.

Lemma split_join l : l <> [] -> Forall no_sep l -> split_sep (join_sep l) = l.
Proof.
  induction l as [|s [|s' l] IH]; intros Hl Hs; [done| |]; inversion Hs; subst.
  - by apply split_sep_piece.
  - change (join_sep (s :: s' :: l)) with (String.append s (String CAP_SEP (join_sep (s' :: l)))).
    rewrite split_sep_app by done. f_equal. by apply IH.
Qed.

Lemma join_sep_empty l : join_sep l = "" -> l = [] \/ l = [""].
Proof.
  destruct l as [|s [|s' l]]; [by left|cbn; intros ->; by right|].
  change (join_sep (s :: s' :: l)) with (String.append s (String CAP_SEP (join_sep (s' :: l)))).
  by destruct s.
Qed.

Lemma decode_encode_capabilities caps :
  caps_storable caps -> decode_capabilities (encode_capabilities caps) = caps.
Proof.
  intros [Hs He]. unfold decode_capabilities, encode_capabilities.
  destruct (String.eqb_spec (join_sep (set_to_list caps)) "") as [E|E].
  - pose proof (list_to_set_to_list caps) as L. apply join_sep_empty in E as [E|E]; rewrite E in L.
    + by rewrite <-L.
    + exfalso. apply He. rewrite <-L. set_solver.
  - rewrite split_join; [by apply list_to_set_to_list|intros Z; by rewrite Z in E|].
    apply Forall_forall. intros c. rewrite set_to_list_permutation.
    intros ?%elem_of_elements. by apply Hs.
Qed.

(** ** The rows of one side *)

Lemma elem_of_rows_of {V} (side : bytes) (m : gmap (bytes * bytes) V) (k : bytes) v :
  (k, v) ∈ rows_of side m <-> m !! (side, k) = Some v.
Proof.
  unfold rows_of. rewrite list_elem_of_omap. split.
  - intros ([[s k'] v'] & Hin%elem_of_map_to_list & E). cbn [fst snd] in E.
    case_decide; [|done]. by simplify_eq.
  - intros E. exists ((side, k), v). rewrite elem_of_map_to_list. split; [done|].
    cbn. by rewrite decide_True.
Qed.

Lemma rows_of_NoDup {V} (side : bytes) (m : gmap (bytes * bytes) V) : NoDup (map fst (rows_of side m)).
Proof.
  unfold rows_of. pose proof (NoDup_fst_map_to_list m) as Hnd.
  induction (map_to_list m) as [|[[s k] v] l IH]; [constructor|]. cbn [omap list_omap map fst snd].
  inversion Hnd as [|? ? Hin Hnd']; subst. case_decide; [|by apply IH]. subst.
  constructor; [|by apply IH]. intros ([k' v'] & E & Hk)%list_elem_of_fmap. cbn in E. subst.
  apply list_elem_of_omap in Hk as ([[s' k''] v''] & Hin' & E'). cbn [fst snd] in E'.
  case_decide; [|done]. simplify_eq. apply Hin, list_elem_of_fmap. by eexists (_, _, _).
Qed.

(** The rows of a side as a map from the second part of the key. *)
Lemma rows_of_lookup {V} (side : bytes) (m : gmap (bytes * bytes) V) (k : bytes) :
  (list_to_map (rows_of side m) : gmap bytes V) !! k = m !! (side, k).
Proof.
  apply option_eq. intros v. rewrite <-elem_of_list_to_map by apply rows_of_NoDup.
  apply elem_of_rows_of.
Qed.

(** ** Properties *)

(** The capability tokens of a relationship survive the text column exactly
    when none of them contains a newline and they are not the one empty
    token: otherwise the set that is read back is another one. *)
Theorem capabilities_roundtrip caps :
  decode_capabilities (encode_capabilities caps) = caps <-> caps_storable caps.
Proof.
  split; [|apply decode_encode_capabilities]. intros E. split.
  - intros c Hc. rewrite <-E in Hc. unfold decode_capabilities in Hc. case_match; [set_solver|].
    apply elem_of_list_to_set in Hc. pose proof (split_sep_no_sep (encode_capabilities caps)) as Hn.
    rewrite Forall_forall in Hn. by apply Hn.
  - intros ->. vm_compute in E. discriminate E.
Qed.
