(* ===== verification/SideState.v ===== *)
(** One hosted side ([sidevers-net/src/side.rs]): its keys, profile, contacts,
    lifecycle and co-holder devices in memory, and the rows that outlive a
    restart.

    Every mutator writes through to the store ([SideStore.v]) and then changes
    the memory; a statement that fails is logged and the memory changes all
    the same.  An operation is a function on [Side * Tables]; the argument
    [io] says which of its statements succeed, in the order the code runs
    them.  The mutexes are taken one after the other: an operation of this
    model is one call without another call in between. *)

From S2P Require Import Prelude Utf8 Cbor CborCodec TextMap Keys Profile Device NetTables SideStore.

Open Scope N_scope.

(** ** State *)

Definition SideLifecycle : Type := Lifecycle.SideLifecycle.

Record CoHolderRecord := { device_pubkey : bytes; co_added_at : N; added_by : option bytes }.

(** [PendingPairing { issued_at }] *)
Record PendingPairing := { issued_at : N }.

Definition PAIRING_TTL_SECS : N := 90.

Record Side := {
  address : bytes;
  label : option string;
  created_at : N;
  keypair : SideKey;
  profile : option ProfilePayload;
  retired_sides_seen : gset bytes;
  relationships : RelationshipTable.t;
  lifecycle : SideLifecycle;
  last_send_at : option N;
  is_self_retired : bool;
  co_holders : gmap bytes CoHolderRecord;
  revoked_devices : gset bytes;
  pending_pairings : gmap bytes PendingPairing;
  co_holder_addrs : gmap bytes string
}.

Definition set_profile_mem x s :=
  Build_Side (address s) (label s) (created_at s) (keypair s) x (retired_sides_seen s) (relationships s)
    (lifecycle s) (last_send_at s) (is_self_retired s) (co_holders s) (revoked_devices s)
    (pending_pairings s) (co_holder_addrs s).
Definition set_retired_mem x s :=
  Build_Side (address s) (label s) (created_at s) (keypair s) (profile s) x (relationships s)
    (lifecycle s) (last_send_at s) (is_self_retired s) (co_holders s) (revoked_devices s)
    (pending_pairings s) (co_holder_addrs s).
Definition set_relationships_mem x s :=
  Build_Side (address s) (label s) (created_at s) (keypair s) (profile s) (retired_sides_seen s) x
    (lifecycle s) (last_send_at s) (is_self_retired s) (co_holders s) (revoked_devices s)
    (pending_pairings s) (co_holder_addrs s).
Definition set_lifecycle_mem x s :=
  Build_Side (address s) (label s) (created_at s) (keypair s) (profile s) (retired_sides_seen s)
    (relationships s) x (last_send_at s) (is_self_retired s) (co_holders s) (revoked_devices s)
    (pending_pairings s) (co_holder_addrs s).
Definition set_last_send_mem x s :=
  Build_Side (address s) (label s) (created_at s) (keypair s) (profile s) (retired_sides_seen s)
    (relationships s) (lifecycle s) x (is_self_retired s) (co_holders s) (revoked_devices s)
    (pending_pairings s) (co_holder_addrs s).
Definition set_self_retired_mem x s :=
  Build_Side (address s) (label s) (created_at s) (keypair s) (profile s) (retired_sides_seen s)
    (relationships s) (lifecycle s) (last_send_at s) x (co_holders s) (revoked_devices s)
    (pending_pairings s) (co_holder_addrs s).
Definition set_co_holders_mem x s :=
  Build_Side (address s) (label s) (created_at s) (keypair s) (profile s) (retired_sides_seen s)
    (relationships s) (lifecycle s) (last_send_at s) (is_self_retired s) x (revoked_devices s)
    (pending_pairings s) (co_holder_addrs s).
Definition set_revoked_mem x s :=
  Build_Side (address s) (label s) (created_at s) (keypair s) (profile s) (retired_sides_seen s)
    (relationships s) (lifecycle s) (last_send_at s) (is_self_retired s) (co_holders s) x
    (pending_pairings s) (co_holder_addrs s).
Definition set_pending_mem x s :=
  Build_Side (address s) (label s) (created_at s) (keypair s) (profile s) (retired_sides_seen s)
    (relationships s) (lifecycle s) (last_send_at s) (is_self_retired s) (co_holders s)
    (revoked_devices s) x (co_holder_addrs s).
Definition set_addrs_mem x s :=
  Build_Side (address s) (label s) (created_at s) (keypair s) (profile s) (retired_sides_seen s)
    (relationships s) (lifecycle s) (last_send_at s) (is_self_retired s) (co_holders s)
    (revoked_devices s) (pending_pairings s) x.

(** The side and the store it writes to. *)
Definition Hosted : Type := Side * Tables.

(** Which statements of an operation succeed. *)
Definition Io : Type := nat -> bool.
Definition io_ok : Io := fun _ => true.

(** [if let Err(e) = statement { warn!(..) }]. *)
Definition write (io : Io) (n : nat) (f : Tables -> Tables) (t : Tables) : Tables :=
  if io n then f t else t.

(** A reading of the clock, [0] when it is unavailable. *)
Definition now_or_log_zero (clock : option N) : N := default 0 clock.

(** ** Lifecycle labels *)

Definition lifecycle_label (s : SideLifecycle) : string :=
  match s with
  | Lifecycle.Created => "Created"
  | Lifecycle.Active => "Active"
  | Lifecycle.Dormant => "Dormant"
  | Lifecycle.Retired => "Retired"
  end.

Definition parse_lifecycle (s : string) : SideLifecycle :=
  if String.eqb s "Created" then Lifecycle.Created
  else if String.eqb s "Active" then Lifecycle.Active
  else if String.eqb s "Dormant" then Lifecycle.Dormant
  else if String.eqb s "Retired" then Lifecycle.Retired
  else Lifecycle.Created.

(** ** Loading *)

(** The row of [sides] the mutators write. *)
Definition stored_row (s : Side) (lc : SideLifecycle) (last : option N) : StoredSide :=
  {| stored_address := address s; seed := signing (keypair s); SideStore.label := label s;
     SideStore.created_at := created_at s; SideStore.lifecycle := lifecycle_label lc;
     SideStore.last_send_at := last; SideStore.is_self_retired := is_self_retired s |}.

Section Load.
Context `{Crypto}.

(** A fresh side, as it is created. *)
Definition fresh (side_key : SideKey) (label : option string) (now : N) : Side :=
  {| address := public_bytes side_key; label := label; created_at := now; keypair := side_key;
     profile := None; retired_sides_seen := ∅; relationships := RelationshipTable.new;
     lifecycle := Lifecycle.Created; last_send_at := None; is_self_retired := false; co_holders := ∅;
     revoked_devices := ∅; pending_pairings := ∅; co_holder_addrs := ∅ |}.

(** The state an existing row and its child rows stand for. *)
Definition load_existing (side_key : SideKey) (s : StoredSide) (t : Tables) : result Side :=
  let a := public_bytes side_key in
  p ← SideStore.load_profile a t;
  Ok {| address := a; label := SideStore.label s; created_at := SideStore.created_at s;
        keypair := side_key; profile := p;
        retired_sides_seen := list_to_set (SideStore.list_retired_seen a t);
        relationships :=
          foldl (fun m r => RelationshipTable.insert r m) RelationshipTable.new
            (SideStore.list_relationships a t);
        lifecycle := parse_lifecycle (SideStore.lifecycle s);
        last_send_at := SideStore.last_send_at s;
        is_self_retired := SideStore.is_self_retired s;
        co_holders :=
          foldl (fun (m : gmap bytes CoHolderRecord) (x : bytes * N * option bytes) =>
                   let '(dev, at_, by_) := x in
                   <[dev := {| device_pubkey := dev; co_added_at := at_; added_by := by_ |}]> m) ∅
            (SideStore.list_co_holders a t);
        revoked_devices := list_to_set (SideStore.list_revoked_devices a t);
        pending_pairings := ∅;
        co_holder_addrs :=
          foldl (fun (m : gmap bytes string) (x : bytes * string) => <[fst x := snd x]> m) ∅
            (SideStore.list_co_holder_addrs a t) |}.

(** A failed insertion of the fresh row is an error. *)
Definition load_or_create (clock : option N) (io : Io) (side_key : SideKey) (label : option string)
    (t : Tables) : result Hosted :=
  let now := now_or_log_zero clock in
  match SideStore.load_side (public_bytes side_key) t with
  | Some s => side ← load_existing side_key s t; Ok (side, t)
  | None =>
    let side := fresh side_key label now in
    _ ← ensure (io 0%nat) (Error.Invariant "sqlite");
    Ok (side, SideStore.upsert_side (stored_row side Lifecycle.Created None) t)
  end.

End Load.

(** ** Mutators *)

Definition set_profile (io : Io) (n : nat) (p : ProfilePayload) (h : Hosted) : Hosted :=
  let '(s, t) := h in
  (set_profile_mem (Some p) s, write io n (SideStore.upsert_profile (address s) p) t).

Definition mark_retired_seen (clock : option N) (io : Io) (retired : bytes) (h : Hosted) : Hosted :=
  let '(s, t) := h in
  let now := now_or_log_zero clock in
  (set_retired_mem ({[ retired ]} ∪ retired_sides_seen s) s,
   write io 0 (SideStore.add_retired_seen (address s) retired now) t).

Definition is_retired_seen (a : bytes) (s : Side) : bool := bool_decide (a ∈ retired_sides_seen s).

Definition add_relationship (io : Io) (r : SideRelationship) (h : Hosted) : Hosted :=
  let '(s, t) := h in
  (set_relationships_mem (RelationshipTable.insert r (relationships s)) s,
   write io 0 (SideStore.upsert_relationship (address s) r) t).

Definition remove_relationship (io : Io) (a : bytes) (h : Hosted) : Hosted :=
  let '(s, t) := h in
  (set_relationships_mem (RelationshipTable.remove a (relationships s)) s,
   write io 0 (SideStore.delete_relationship (address s) a) t).

Definition get_relationship (a : bytes) (s : Side) : option SideRelationship :=
  RelationshipTable.get a (relationships s).

(** The entry before the change, and the row written from the entry after it. *)
Definition update_relationship (io : Io) (a : bytes) (f : SideRelationship -> SideRelationship)
    (h : Hosted) : option SideRelationship * Hosted :=
  let '(s, t) := h in
  match RelationshipTable.get a (relationships s) with
  | None => (None, h)
  | Some before =>
    let '(changed, m) := RelationshipTable.update a f (relationships s) in
    let s' := set_relationships_mem m s in
    let t' :=
      if changed then
        match RelationshipTable.get a m with
        | Some after => write io 0 (SideStore.upsert_relationship (address s) after) t
        | None => t
        end
      else t in
    (Some before, (s', t'))
  end.

Definition persist_lifecycle (io : Io) (n : nat) (state : SideLifecycle) (h : Hosted) : Hosted :=
  let '(s, t) := h in
  (s, write io n (SideStore.upsert_side (stored_row s state (last_send_at s))) t).

Definition persist_last_send_and_lifecycle (io : Io) (n : nat) (last : option N) (lc : SideLifecycle)
    (h : Hosted) : Hosted :=
  let '(s, t) := h in
  (s, write io n (SideStore.upsert_side (stored_row s lc last)) t).

Definition persist_side_row (io : Io) (n : nat) (h : Hosted) : Hosted :=
  persist_last_send_and_lifecycle io n (last_send_at (fst h)) (lifecycle (fst h)) h.

Definition set_lifecycle (io : Io) (n : nat) (state : SideLifecycle) (h : Hosted) : Hosted :=
  persist_lifecycle io n state (set_lifecycle_mem state (fst h), snd h).

Definition refresh_lifecycle (clock : option N) (io : Io) (h : Hosted) : Hosted :=
  match lifecycle (fst h) with
  | Lifecycle.Retired => h
  | _ =>
    let next := Lifecycle.derive (last_send_at (fst h)) false (now_or_log_zero clock) in
    persist_lifecycle io 0 next (set_lifecycle_mem next (fst h), snd h)
  end.

Definition touch_send (clock : option N) (io : Io) (h : Hosted) : Hosted :=
  let now := now_or_log_zero clock in
  let s := set_last_send_mem (Some now) (fst h) in
  let lc := match lifecycle s with Lifecycle.Created => Lifecycle.Active | x => x end in
  persist_last_send_and_lifecycle io 0 (Some now) lc (set_lifecycle_mem lc s, snd h).

Definition set_self_retired (io : Io) (h : Hosted) : Hosted :=
  persist_side_row io 1 (set_lifecycle io 0 Lifecycle.Retired (set_self_retired_mem true (fst h), snd h)).

Definition add_co_holder (clock : option N) (io : Io) (n : nat) (dev : bytes) (by_ : option bytes)
    (h : Hosted) : Hosted :=
  let '(s, t) := h in
  let at_ := now_or_log_zero clock in
  (set_co_holders_mem
     (<[dev := {| device_pubkey := dev; co_added_at := at_; added_by := by_ |}]> (co_holders s)) s,
   write io n (SideStore.add_co_holder (address s) dev at_ by_) t).

Definition remove_co_holder (io : Io) (n : nat) (dev : bytes) (h : Hosted) : Hosted :=
  let '(s, t) := h in
  (set_co_holders_mem (delete dev (co_holders s)) s,
   write io n (SideStore.remove_co_holder (address s) dev) t).

Definition add_revoked_device (clock : option N) (io : Io) (n : nat) (dev : bytes) (h : Hosted) : Hosted :=
  let '(s, t) := h in
  (set_revoked_mem ({[ dev ]} ∪ revoked_devices s) s,
   write io n (SideStore.add_revoked_device (address s) dev (now_or_log_zero clock)) t).

Definition is_device_revoked (dev : bytes) (s : Side) : bool := bool_decide (dev ∈ revoked_devices s).

Definition add_pending_pairing (clock : option N) (nonce : bytes) (h : Hosted) : Hosted :=
  let '(s, t) := h in
  (set_pending_mem (<[nonce := {| issued_at := now_or_log_zero clock |}]> (pending_pairings s)) s, t).

(** [now.saturating_sub(p.issued_at) < PAIRING_TTL_SECS]; [N] subtraction saturates. *)
Definition pairing_live (now : N) (p : PendingPairing) : bool := now - issued_at p <? PAIRING_TTL_SECS.

Definition take_pending_pairing (clock : option N) (nonce : bytes) (h : Hosted)
    : option PendingPairing * Hosted :=
  let '(s, t) := h in
  let now := now_or_log_zero clock in
  let g := filter (fun kv => pairing_live now (snd kv) = true) (pending_pairings s) in
  (g !! nonce, (set_pending_mem (delete nonce g) s, t)).

Definition record_co_holder_addr (clock : option N) (io : Io) (n : nat) (dev : bytes) (dial : string)
    (h : Hosted) : Hosted :=
  let '(s, t) := h in
  (set_addrs_mem (<[dev := dial]> (co_holder_addrs s)) s,
   write io n (SideStore.upsert_co_holder_addr (address s) dev dial (now_or_log_zero clock)) t).

Definition co_holder_addr (dev : bytes) (s : Side) : option string := co_holder_addrs s !! dev.

(** [self.co_holder_addrs.remove(dev); self.store.remove_co_holder_addr(..)],
    inline in [apply_delta]. *)
Definition drop_co_holder_addr (io : Io) (n : nat) (dev : bytes) (h : Hosted) : Hosted :=
  let '(s, t) := h in
  (set_addrs_mem (delete dev (co_holder_addrs s)) s,
   write io n (SideStore.remove_co_holder_addr (address s) dev) t).

(** The in-memory profile dropped and its row deleted, inline in [apply_delta]. *)
Definition clear_profile (io : Io) (h : Hosted) : Hosted :=
  let '(s, t) := h in
  (set_profile_mem None s, write io 0 (SideStore.delete_profile (address s)) t).

(** ** Deltas from co-holders *)

Definition relationship_from_record (rec : Relationship.RelationshipRecord) : SideRelationship :=
  {| SideStore.address := Relationship.address rec; nickname := Relationship.nickname rec;
     introduced_by := Relationship.introduced_by rec;
     capabilities := list_to_set (Relationship.capabilities rec);
     notes := Relationship.notes rec; pinned := Relationship.pinned rec;
     added_at := Relationship.added_at rec; peer_listen_addr := None |}.

(** The label of a [LifecycleChanged]. *)
Definition delta_lifecycle (state : string) : SideLifecycle :=
  if String.eqb state "Active" then Lifecycle.Active
  else if String.eqb state "Dormant" then Lifecycle.Dormant
  else if String.eqb state "Retired" then Lifecycle.Retired
  else Lifecycle.Created.

Definition apply_delta `{Crypto} (clock : option N) (io : Io) (op : DeltaOp) (applied_at : N)
    (h : Hosted) : Hosted :=
  match op with
  | ProfileUpdated profile_wire =>
    match Profile.Profile.from_wire_bytes profile_wire with
    | Err _ => h
    | Ok new_profile =>
      let should_apply :=
        match profile (fst h) with
        | Some p => updated_at p <=? updated_at new_profile
        | None => true
        end in
      if should_apply then set_profile io 0 new_profile h else h
    end
  | ProfileCleared => clear_profile io h
  | RelationshipUpserted record =>
    let rel := relationship_from_record record in
    let should_apply :=
      match get_relationship (Relationship.address record) (fst h) with
      | Some e => added_at e <=? added_at rel
      | None => true
      end in
    if should_apply then add_relationship io rel h else h
  | RelationshipRemoved a => remove_relationship io a h
  | RetiredObserved a => mark_retired_seen clock io a h
  | LifecycleChanged state =>
    if is_self_retired (fst h) then h else set_lifecycle io 0 (delta_lifecycle state) h
  | CoHolderAdded dev dial =>
    if bool_decide (dev = address (fst h)) then h
    else if is_device_revoked dev (fst h) then h
    else record_co_holder_addr clock io 1 dev dial (add_co_holder clock io 0 dev None h)
  | CoHolderRemoved dev =>
    drop_co_holder_addr io 2 dev
      (add_revoked_device clock io 1 dev (remove_co_holder io 0 dev h))
  end.

(** [for op in &delta.ops { apply_delta(op, delta.applied_at) }] *)
Definition apply_deltas `{Crypto} (clock : option N) (io : nat -> Io) (ops : list DeltaOp) (applied_at : N)
    (h : Hosted) : Hosted :=
  snd (foldl (fun '(i, h) op => (S i, apply_delta clock (io i) op applied_at h)) (0%nat, h) ops).
