(* ===== verification/SideFacts.v ===== *)
(** What a hosted side keeps across a restart and across deltas: facts about
    [SideState.v].

    [Synced] relates the memory of a side to its rows; every operation whose
    statements succeed keeps it, and [load_or_create] computes the memory back
    from the rows.  The abstraction [durable] forgets what the rows do not
    hold: the pending pairings, and the time a relationship was added. *)

From S2P Require Import Prelude Utf8 Cbor CborCodec TextMap Keys Profile Device NetTables SideStore SideState.

Open Scope N_scope.

(** ** Operations and runs

    [ORestart] is the end of the process and [load_or_create] with the same
    key on the tables it left. *)

Inductive SideOp :=
| OSetProfile (p : ProfilePayload)
| OMarkRetired (a : bytes)
| OAddRelationship (r : SideRelationship)
| ORemoveRelationship (a : bytes)
| OUpdateRelationship (a : bytes) (f : SideRelationship -> SideRelationship)
| OSetLifecycle (lc : SideLifecycle)
| ORefreshLifecycle
| OTouchSend
| OSetSelfRetired
| OAddCoHolder (d : bytes) (by_ : option bytes)
| ORemoveCoHolder (d : bytes)
| OAddRevoked (d : bytes)
| OAddPending (nonce : bytes)
| OTakePending (nonce : bytes)
| ORecordAddr (d : bytes) (dial : string)
| ODelta (op : DeltaOp) (applied_at : N)
| ORestart (label : option string).

Section Run.
Context `{Crypto}.

Definition step (clock : option N) (io : Io) (op : SideOp) (h : Hosted) : Hosted :=
  match op with
  | OSetProfile p => set_profile io 0 p h
  | OMarkRetired a => mark_retired_seen clock io a h
  | OAddRelationship r => add_relationship io r h
  | ORemoveRelationship a => remove_relationship io a h
  | OUpdateRelationship a f => snd (update_relationship io a f h)
  | OSetLifecycle lc => set_lifecycle io 0 lc h
  | ORefreshLifecycle => refresh_lifecycle clock io h
  | OTouchSend => touch_send clock io h
  | OSetSelfRetired => set_self_retired io h
  | OAddCoHolder d b => add_co_holder clock io 0 d b h
  | ORemoveCoHolder d => remove_co_holder io 0 d h
  | OAddRevoked d => add_revoked_device clock io 0 d h
  | OAddPending n => add_pending_pairing clock n h
  | OTakePending n => snd (take_pending_pairing clock n h)
  | ORecordAddr d a => record_co_holder_addr clock io 0 d a h
  | ODelta op at_ => apply_delta clock io op at_ h
  | ORestart lbl =>
    match load_or_create clock io (keypair (fst h)) lbl (snd h) with Ok h' => h' | Err _ => h end
  end.

(** A history: the operations with the clock each of them reads and the
    outcomes of its statements. *)
Definition run (ops : list (option N * Io * SideOp)) (h : Hosted) : Hosted :=
  foldl (fun h x => let '(clock, io, op) := x in step clock io op h) h ops.

(** ** Memory and rows in step *)

Definition forget_time (r : SideRelationship) : SideRelationship :=
  {| SideStore.address := SideStore.address r; nickname := nickname r; introduced_by := introduced_by r;
     capabilities := capabilities r; notes := notes r; pinned := pinned r; added_at := 0;
     peer_listen_addr := peer_listen_addr r |}.

(** What the rows hold of a side. *)
Definition durable (s : Side) : Side :=
  set_pending_mem ∅ (set_relationships_mem (forget_time <$> relationships s) s).

Definition profile_ok (p : ProfilePayload) : Prop :=
  Profile.Profile.from_wire_bytes (Profile.Profile.to_wire_bytes p) = Ok p.

Definition wf_time (n : N) : Prop := n < u64_size.

(** The column values of a relationship, the time apart. *)
Definition row_matches (r : SideRelationship) (row : RelationshipRow) : Prop :=
  forget_time (SideStore.relationship_of_row (SideStore.address r) row) = forget_time r.

Record Synced (h : Hosted) : Prop := {
  sync_address : address (fst h) = public_bytes (keypair (fst h));
  sync_side : exists row, t_sides (snd h) !! address (fst h) = Some row /\
    SideStore.side_of_row (address (fst h)) row
    = stored_row (fst h) (lifecycle (fst h)) (last_send_at (fst h));
  sync_profile : fst <$> t_profiles (snd h) !! address (fst h)
    = Profile.Profile.to_wire_bytes <$> profile (fst h);
  sync_profile_ok : from_option profile_ok True (profile (fst h));
  sync_retired : forall x, x ∈ retired_sides_seen (fst h) <-> is_Some (t_retired (snd h) !! (address (fst h), x));
  sync_keys : map_Forall (fun a r => SideStore.address r = a) (relationships (fst h));
  sync_relationships : forall a,
    option_Forall2 row_matches (relationships (fst h) !! a) (t_relationships (snd h) !! (address (fst h), a));
  sync_co_holders : forall d,
    (fun x => {| device_pubkey := d; co_added_at := as_u64 (fst x); added_by := snd x |})
      <$> t_co_holders (snd h) !! (address (fst h), d) = co_holders (fst h) !! d;
  sync_revoked : forall x, x ∈ revoked_devices (fst h) <-> is_Some (t_revoked (snd h) !! (address (fst h), x));
  sync_addrs : forall d, fst <$> t_addrs (snd h) !! (address (fst h), d) = co_holder_addrs (fst h) !! d;
}.

(** Arguments a caller may pass: encodable capabilities, profiles that verify,
    times that fit; an update keeps the contact's address. *)
Definition rel_ok (r : SideRelationship) : Prop := caps_storable (capabilities r).

Definition op_ok (op : SideOp) : Prop :=
  match op with
  | OSetProfile p => profile_ok p
  | OAddRelationship r => rel_ok r
  | OUpdateRelationship a f =>
    forall r, SideStore.address r = a -> SideStore.address (f r) = a /\ rel_ok (f r)
  | ODelta (RelationshipUpserted rec) _ => rel_ok (relationship_from_record rec)
  | _ => True
  end.

(** ** Restart *)

Lemma foldl_map {A B C} (f : A -> B -> A) (g : C -> B) (l : list C) a :
  foldl f a (map g l) = foldl (fun x y => f x (g y)) a l.
Proof using. revert a. induction l as [|c l IH]; intros a; [done|apply IH]. Qed.

Lemma foldl_insert_rows {V W} (g : bytes -> V -> W) (rows : list (bytes * V)) (out : gmap bytes W) (k : bytes) :
  NoDup (map fst rows) ->
  foldl (fun m kv => <[fst kv := g (fst kv) (snd kv)]> m) out rows !! k
  = match (list_to_map rows : gmap bytes V) !! k with Some v => Some (g k v) | None => out !! k end.
Proof using.
  revert out. induction rows as [|[a v] rows IH]; intros out Hnd; [done|].
  inversion Hnd; subst. cbn [foldl fst snd list_to_map foldr uncurry]. rewrite IH by done.
  destruct (decide (a = k)) as [->|Hak].
  - rewrite lookup_insert_eq. by rewrite not_elem_of_list_to_map_1, lookup_insert_eq by done.
  - by rewrite !lookup_insert_ne by done.
Qed.

(** The table read back row by row. *)
Lemma foldl_rows_of {V W} (g : bytes -> V -> W) (side : bytes) (m : gmap (bytes * bytes) V) (k : bytes) :
  foldl (fun m kv => <[fst kv := g (fst kv) (snd kv)]> m) (∅ : gmap bytes W) (rows_of side m) !! k
  = g k <$> m !! (side, k).
Proof using.
  rewrite foldl_insert_rows by apply rows_of_NoDup. rewrite rows_of_lookup.
  by destruct (m !! (side, k)).
Qed.

Lemma elem_of_listed {V} (side : bytes) (m : gmap (bytes * bytes) V) (x : bytes) :
  x ∈ (list_to_set (map fst (rows_of side m)) : gset bytes) <-> is_Some (m !! (side, x)).
Proof using.
  rewrite elem_of_list_to_set. split.
  - intros ([k v] & -> & Hk%elem_of_rows_of)%list_elem_of_fmap. by exists v.
  - intros [v Hv]. apply list_elem_of_fmap. exists (x, v). split; [done|]. by apply elem_of_rows_of.
Qed.

Lemma parse_lifecycle_label lc : parse_lifecycle (lifecycle_label lc) = lc.
Proof using. by destruct lc. Qed.

Lemma durable_reload key s row t :
  Synced (s, t) -> key = keypair s ->
  t_sides t !! address s = Some row ->
  exists s', load_existing key (SideStore.side_of_row (address s) row) t = Ok s' /\
    durable s' = durable s.
Proof using.
  intros Sy -> Hrow. destruct Sy as [Ha Hside Hp Hpo Hret Hk Hrel Hco Hrev Had]. cbn [fst snd] in *.
  destruct Hside as (row' & E & Hs). rewrite Hrow in E. injection E as <-.
  unfold load_existing, SideStore.load_profile. rewrite <-Ha, Hs.
  eassert (_ = Ok (profile s)) as ->.
  { destruct (t_profiles t !! address s) as [[b z]|], (profile s) as [p|];
      cbn [fmap option_fmap option_map fst] in Hp; try done.
    injection Hp as ->. cbn [from_option] in Hpo. unfold profile_ok in Hpo. by rewrite Hpo. }
  eexists. split; [reflexivity|]. unfold durable, set_pending_mem, set_relationships_mem.
  cbn [address label created_at keypair profile retired_sides_seen relationships lifecycle last_send_at
    is_self_retired co_holders revoked_devices pending_pairings co_holder_addrs
    SideStore.label SideStore.created_at SideStore.lifecycle SideStore.last_send_at
    SideStore.is_self_retired stored_row].
  rewrite parse_lifecycle_label. f_equal.
  - by apply set_eq; intros x; rewrite Hret; apply elem_of_listed.
  - apply map_eq. intros a. rewrite !lookup_fmap. unfold SideStore.list_relationships.
    rewrite foldl_map. etrans.
    { exact (f_equal (fmap forget_time) (foldl_rows_of SideStore.relationship_of_row _ _ a)). }
    specialize (Hrel a). specialize (Hk a). destruct (relationships s !! a) as [r|],
      (t_relationships t !! (address s, a)) as [row'|]; inversion Hrel as [? ? Hm|]; subst; [|done].
    specialize (Hk r eq_refl). subst a. cbn. f_equal. apply Hm.
  - apply map_eq. intros d. unfold SideStore.list_co_holders. rewrite foldl_map, <-Hco.
    exact (foldl_rows_of (fun d x => {| device_pubkey := d; co_added_at := as_u64 (fst x);
                                        added_by := snd x |}) _ _ d).
  - by apply set_eq; intros x; rewrite Hrev; apply elem_of_listed.
  - apply map_eq. intros d. unfold SideStore.list_co_holder_addrs. rewrite foldl_map, <-Had.
    exact (foldl_rows_of (fun _ x => fst x) _ _ d).
Qed.

(** ** Every operation keeps memory and rows in step *)

(** The fields that an operation leaves alone. *)
Ltac sync_fields Sy :=
  destruct Sy as [Ha Hside Hp Hpo Hret Hk Hrel Hco Hrev Had]; cbn [fst snd] in *;
  constructor; try assumption.

Lemma as_u64_wf z : wf_time (as_u64 z).
Proof using.
  unfold wf_time, as_u64, u64_size. pose proof (Z.mod_pos_bound z (2 ^ 64)). lia.
Qed.

(** The columns of [sides] that change. *)
Definition with_activity (lc : SideLifecycle) (last : option N) (retired : bool) (s : Side) : Side :=
  set_lifecycle_mem lc (set_last_send_mem last (set_self_retired_mem retired s)).

Lemma with_activity_same s : with_activity (lifecycle s) (last_send_at s) (is_self_retired s) s = s.
Proof using. by destruct s. Qed.

Lemma synced_activity s t lc last b :
  Synced (s, t) -> from_option wf_time True last ->
  Synced (with_activity lc last b s,
          SideStore.upsert_side (stored_row (with_activity lc last b s) lc last) t).
Proof using.
  intros Sy Hlast. sync_fields Sy. destruct Hside as (row & E & Hs).
  cbn [with_activity set_lifecycle_mem set_last_send_mem set_self_retired_mem address fst snd
       SideStore.upsert_side stored_address stored_row set_sides t_sides].
  rewrite E, lookup_insert_eq. eexists. split; [reflexivity|].
  unfold SideStore.side_of_row in *. cbn [c_seed c_label c_created_at c_lifecycle c_last_send_at c_is_self_retired].
  injection Hs as Hseed Hlab Hcr _ _ _. unfold stored_row. cbn. rewrite Hseed, Hcr.
  rewrite as_u64_as_i64_opt, bool_column_back by done. done.
Qed.

Lemma synced_last s t : Synced (s, t) -> from_option wf_time True (last_send_at s).
Proof using.
  intros Sy. destruct (sync_side _ Sy) as (row & _ & Hs). cbn [fst snd] in Hs.
  injection Hs as _ _ _ _ E _. rewrite <-E. destruct (c_last_send_at row); [apply as_u64_wf|done].
Qed.

Lemma synced_set_lifecycle s t lc : Synced (s, t) -> Synced (set_lifecycle io_ok 0 lc (s, t)).
Proof using.
  intros Sy. pose proof (synced_activity s t lc (last_send_at s) (is_self_retired s) Sy (synced_last _ _ Sy)) as K.
  by destruct s.
Qed.

Lemma synced_refresh clock s t : Synced (s, t) -> Synced (refresh_lifecycle clock io_ok (s, t)).
Proof using.
  intros Sy. unfold refresh_lifecycle. cbn [fst snd].
  destruct (lifecycle s); try exact Sy; apply (synced_set_lifecycle s t _ Sy).
Qed.

Lemma synced_touch clock s t :
  from_option wf_time True clock -> Synced (s, t) -> Synced (touch_send clock io_ok (s, t)).
Proof using.
  intros Hc Sy. set (lc := match lifecycle s with Lifecycle.Created => Lifecycle.Active | x => x end).
  assert (wf_time (now_or_log_zero clock)) as Hn by by destruct clock.
  pose proof (synced_activity s t lc (Some (now_or_log_zero clock)) (is_self_retired s) Sy Hn) as K.
  by destruct s.
Qed.

Lemma synced_self_retired s t : Synced (s, t) -> Synced (set_self_retired io_ok (s, t)).
Proof using.
  intros Sy. pose proof (synced_last _ _ Sy) as Hl.
  pose proof (synced_activity s t Lifecycle.Retired (last_send_at s) true Sy Hl) as K.
  apply (synced_activity _ _ Lifecycle.Retired (last_send_at s) true) in K; [|done]. by destruct s.
Qed.

Lemma synced_set_profile n p s t : profile_ok p -> Synced (s, t) -> Synced (set_profile io_ok n p (s, t)).
Proof using.
  intros Hpp Sy. sync_fields Sy. cbn [set_profile set_profile_mem write io_ok fst snd address profile
    SideStore.upsert_profile set_profiles t_profiles]. by rewrite lookup_insert_eq.
Qed.

Lemma synced_clear_profile s t : Synced (s, t) -> Synced (clear_profile io_ok (s, t)).
Proof using.
  intros Sy. sync_fields Sy; [|done]. cbn [clear_profile set_profile_mem write io_ok fst snd address profile
    SideStore.delete_profile set_profiles t_profiles]. by rewrite lookup_delete_eq.
Qed.

(** [INSERT OR IGNORE] makes the key present. *)
Lemma insert_or_ignore_is_Some {V} (m : gmap (bytes * bytes) V) a d x v :
  is_Some (SideStore.insert_or_ignore (a, d) v m !! (a, x)) <-> x = d \/ is_Some (m !! (a, x)).
Proof using.
  unfold SideStore.insert_or_ignore. destruct (m !! (a, d)) eqn:E.
  - split; [auto|]. intros [->|?]; [by rewrite E|done].
  - destruct (decide (x = d)) as [->|Hx].
    + rewrite lookup_insert_eq. split; eauto.
    + rewrite lookup_insert_ne by congruence. split; [auto|]. by intros [?|?].
Qed.

Lemma synced_mark_retired clock a s t : Synced (s, t) -> Synced (mark_retired_seen clock io_ok a (s, t)).
Proof using.
  intros Sy. sync_fields Sy. intros x. cbn [mark_retired_seen set_retired_mem write io_ok fst snd
    retired_sides_seen address SideStore.add_retired_seen set_retired t_retired].
  rewrite elem_of_union, elem_of_singleton, insert_or_ignore_is_Some, Hret. done.
Qed.

Lemma synced_revoked clock n d s t : Synced (s, t) -> Synced (add_revoked_device clock io_ok n d (s, t)).
Proof using.
  intros Sy. sync_fields Sy. intros x. cbn [add_revoked_device set_revoked_mem write io_ok fst snd
    revoked_devices address SideStore.add_revoked_device set_revoked t_revoked].
  rewrite elem_of_union, elem_of_singleton, insert_or_ignore_is_Some, Hrev. done.
Qed.

(** The row an upsert writes stands for the relationship, whatever the time
    of the row it replaces. *)
Lemma upsert_row_matches r added :
  rel_ok r ->
  row_matches r
    {| c_nickname := nickname r; c_introduced_by := introduced_by r;
       c_capabilities := encode_capabilities (capabilities r); c_notes := notes r;
       c_pinned := bool_column (pinned r); c_added_at := added;
       c_peer_listen_addr := peer_listen_addr r |}.
Proof using.
  intros Hr. unfold row_matches, forget_time, SideStore.relationship_of_row.
  cbn [SideStore.address nickname introduced_by capabilities notes pinned peer_listen_addr
    c_nickname c_introduced_by c_capabilities c_notes c_pinned c_added_at c_peer_listen_addr].
  by rewrite bool_column_back, decode_encode_capabilities.
Qed.

Lemma synced_add_relationship r s t :
  rel_ok r -> Synced (s, t) -> Synced (add_relationship io_ok r (s, t)).
Proof using.
  intros Hr Sy. sync_fields Sy; cbn [add_relationship set_relationships_mem write io_ok fst snd relationships
    address RelationshipTable.insert SideStore.upsert_relationship set_relationships t_relationships].
  - by apply map_Forall_insert_2.
  - intros a. destruct (decide (a = SideStore.address r)) as [->|Hne].
    + unfold RelationshipTable.insert. rewrite !lookup_insert_eq. constructor. by apply upsert_row_matches.
    + unfold RelationshipTable.insert. rewrite !lookup_insert_ne by congruence. apply Hrel.
Qed.

Lemma synced_remove_relationship a s t : Synced (s, t) -> Synced (remove_relationship io_ok a (s, t)).
Proof using.
  intros Sy. sync_fields Sy; cbn [remove_relationship set_relationships_mem write io_ok fst snd relationships
    address RelationshipTable.remove SideStore.delete_relationship set_relationships t_relationships].
  - by apply map_Forall_delete.
  - intros x. destruct (decide (x = a)) as [->|Hne].
    + unfold RelationshipTable.remove. rewrite !lookup_delete_eq. constructor.
    + unfold RelationshipTable.remove. rewrite !lookup_delete_ne by congruence. apply Hrel.
Qed.

(** An update is the insertion of the changed entry. *)
Lemma update_is_add a f s t r :
  relationships s !! a = Some r -> SideStore.address (f r) = a ->
  snd (update_relationship io_ok a f (s, t)) = add_relationship io_ok (f r) (s, t).
Proof using.
  intros E Ha. unfold update_relationship, RelationshipTable.update, RelationshipTable.get. rewrite E.
  cbn [snd]. rewrite lookup_insert_eq. unfold add_relationship, RelationshipTable.insert. by rewrite Ha.
Qed.

Lemma synced_update a f s t :
  (forall r, SideStore.address r = a -> SideStore.address (f r) = a /\ rel_ok (f r)) ->
  Synced (s, t) -> Synced (snd (update_relationship io_ok a f (s, t))).
Proof using.
  intros Hf Sy. destruct (relationships s !! a) as [r|] eqn:E.
  - destruct (Hf r) as [Ha Hr]; [by apply (sync_keys _ Sy a r)|].
    rewrite (update_is_add _ _ _ _ r) by done. by apply synced_add_relationship.
  - unfold update_relationship, RelationshipTable.get. by rewrite E.
Qed.

Lemma synced_add_co_holder clock n d b s t :
  from_option wf_time True clock -> Synced (s, t) -> Synced (add_co_holder clock io_ok n d b (s, t)).
Proof using.
  intros Hc Sy. assert (wf_time (now_or_log_zero clock)) as Hn by by destruct clock.
  sync_fields Sy; cbn [add_co_holder set_co_holders_mem write io_ok fst snd co_holders
    address SideStore.add_co_holder set_co_holders t_co_holders].
  intros x. destruct (decide (x = d)) as [->|Hne].
  - rewrite !lookup_insert_eq. cbn. by rewrite as_u64_as_i64.
  - rewrite !lookup_insert_ne by congruence. apply Hco.
Qed.

Lemma synced_remove_co_holder n d s t : Synced (s, t) -> Synced (remove_co_holder io_ok n d (s, t)).
Proof using.
  intros Sy. sync_fields Sy; cbn [remove_co_holder set_co_holders_mem write io_ok fst snd co_holders
    address SideStore.remove_co_holder set_co_holders t_co_holders].
  intros x. destruct (decide (x = d)) as [->|Hne].
  - by rewrite !lookup_delete_eq.
  - rewrite !lookup_delete_ne by congruence. apply Hco.
Qed.

Lemma synced_record_addr clock n d a s t :
  Synced (s, t) -> Synced (record_co_holder_addr clock io_ok n d a (s, t)).
Proof using.
  intros Sy. sync_fields Sy; cbn [record_co_holder_addr set_addrs_mem write io_ok fst snd co_holder_addrs
    address SideStore.upsert_co_holder_addr set_addrs t_addrs].
  intros x. destruct (decide (x = d)) as [->|Hne].
  - by rewrite !lookup_insert_eq.
  - rewrite !lookup_insert_ne by congruence. apply Had.
Qed.

Lemma synced_drop_addr n d s t : Synced (s, t) -> Synced (drop_co_holder_addr io_ok n d (s, t)).
Proof using.
  intros Sy. sync_fields Sy; cbn [drop_co_holder_addr set_addrs_mem write io_ok fst snd co_holder_addrs
    address SideStore.remove_co_holder_addr set_addrs t_addrs].
  intros x. destruct (decide (x = d)) as [->|Hne].
  - by rewrite !lookup_delete_eq.
  - rewrite !lookup_delete_ne by congruence. apply Had.
Qed.

(** What a decoder of profiles accepts, it accepts again. *)
Lemma decoded_profile_ok bs p : Profile.Profile.from_wire_bytes bs = Ok p -> profile_ok p.
Proof using.
  intros E. assert (Profile.Profile.to_wire_bytes p = bs) as Eb; [|unfold profile_ok; by rewrite Eb].
  unfold Profile.Profile.from_wire_bytes in E. apply result_bind_ok in E as (x & _ & E).
  apply result_bind_ok in E as (u & _ & E). apply result_bind_ok in E as (u2 & Eb%ensure_ok & [= ->]).
  by apply bool_decide_eq_true in Eb.
Qed.

Lemma synced_delta clock op at_ s t :
  from_option wf_time True clock -> op_ok (ODelta op at_) ->
  Synced (s, t) -> Synced (apply_delta clock io_ok op at_ (s, t)).
Proof using.
  intros Hc Hop Sy. destruct op; cbn [apply_delta fst]; repeat case_bool; try exact Sy.
  - case_match eqn:Ep; [|exact Sy]. repeat case_bool; try exact Sy.
    all: apply synced_set_profile; [by eapply decoded_profile_ok|exact Sy].
  - by apply synced_clear_profile.
  - by apply synced_add_relationship.
  - by apply synced_remove_relationship.
  - by apply synced_mark_retired.
  - by apply synced_set_lifecycle.
  - by apply synced_record_addr, synced_add_co_holder.
  - by apply synced_drop_addr, synced_revoked, synced_remove_co_holder.
Qed.

(** A side read back is as much in step with its rows as the one that wrote them. *)
Lemma synced_durable s s' t : durable s' = durable s -> Synced (s, t) -> Synced (s', t).
Proof using.
  intros E Sy. unfold durable, set_pending_mem, set_relationships_mem in E.
  cbn [address label created_at keypair profile retired_sides_seen relationships lifecycle last_send_at
    is_self_retired co_holders revoked_devices pending_pairings co_holder_addrs] in E.
  injection E as E1 E2 E3 E4 E5 E6 Er E8 E9 E10 E11 E12 E13.
  assert (forall a, forget_time <$> relationships s' !! a = forget_time <$> relationships s !! a) as Er'.
  { intros a. rewrite <-!lookup_fmap. by rewrite Er. }
  destruct Sy as [Ha Hside Hp Hpo Hret Hk Hrel Hco Hrev Had]; cbn [fst snd] in *.
  constructor; cbn [fst snd]; rewrite ?E1, ?E4, ?E5, ?E6, ?E11, ?E12, ?E13; try assumption.
  - unfold stored_row. by rewrite E1, E2, E3, E4, E8, E9, E10.
  - intros a r Hr. specialize (Er' a). rewrite Hr in Er'. destruct (relationships s !! a) as [r0|] eqn:E0; [|done].
    injection Er' as Er1 _ _ _ _ _ _. rewrite Er1. by apply (Hk a r0).
  - intros a. specialize (Hrel a). specialize (Er' a).
    destruct (relationships s' !! a) as [r|], (relationships s !! a) as [r0|]; try done;
      inversion Hrel; subst; constructor.
    cbn [fmap option_fmap option_map] in Er'. assert (forget_time r = forget_time r0) as Ef by congruence.
    unfold row_matches in *. rewrite Ef. by replace (SideStore.address r) with (SideStore.address r0)
      by by apply (f_equal SideStore.address) in Ef.
Qed.

Lemma restart_ok clock lbl s t :
  Synced (s, t) ->
  exists s', load_or_create clock io_ok (keypair s) lbl t = Ok (s', t) /\ durable s' = durable s /\
    pending_pairings s' = ∅.
Proof using.
  intros Sy. destruct (sync_side _ Sy) as (row & E & Hs). cbn [fst snd] in *.
  pose proof (sync_address _ Sy) as Ha. cbn [fst] in Ha.
  destruct (durable_reload (keypair s) s row t Sy eq_refl E) as (s' & Hl & Hd).
  exists s'. unfold load_or_create, SideStore.load_side. rewrite <-Ha, E. cbn [fmap option_fmap option_map].
  rewrite Hl. split; [done|]. split; [done|].
  unfold load_existing in Hl. apply result_bind_ok in Hl as (p & _ & [= <-]). done.
Qed.

Lemma synced_step clock op h :
  from_option wf_time True clock -> op_ok op -> Synced h -> Synced (step clock io_ok op h).
Proof using.
  intros Hc Hop Sy. destruct h as [s t], op; cbn [step].
  - by apply synced_set_profile.
  - by apply synced_mark_retired.
  - by apply synced_add_relationship.
  - by apply synced_remove_relationship.
  - by apply synced_update.
  - by apply synced_set_lifecycle.
  - by apply synced_refresh.
  - by apply synced_touch.
  - by apply synced_self_retired.
  - by apply synced_add_co_holder.
  - by apply synced_remove_co_holder.
  - by apply synced_revoked.
  - by sync_fields Sy.
  - by sync_fields Sy.
  - by apply synced_record_addr.
  - by apply synced_delta.
  - destruct (restart_ok clock label s t Sy) as (s' & E & Hd & _). cbn [fst snd]. rewrite E.
    by eapply synced_durable.
Qed.

(** No table holds a row of the side. *)
Definition no_rows (a : bytes) (t : Tables) : Prop :=
  t_sides t !! a = None /\ t_profiles t !! a = None /\
  forall x, t_retired t !! (a, x) = None /\ t_relationships t !! (a, x) = None /\
    t_co_holders t !! (a, x) = None /\ t_revoked t !! (a, x) = None /\ t_addrs t !! (a, x) = None.

Lemma synced_fresh clock key lbl t :
  from_option wf_time True clock -> no_rows (public_bytes key) t ->
  exists h, load_or_create clock io_ok key lbl t = Ok h /\ keypair (fst h) = key /\ Synced h.
Proof using.
  intros Hc (Hs & Hp & Hx). unfold load_or_create, SideStore.load_side. rewrite Hs.
  cbn [fmap option_fmap option_map]. eexists. split; [reflexivity|]. split; [done|].
  assert (wf_time (now_or_log_zero clock)) as Hn by by destruct clock.
  constructor; cbn [fst snd fresh address keypair lifecycle last_send_at profile retired_sides_seen
    relationships co_holders revoked_devices co_holder_addrs SideStore.upsert_side set_sides t_sides
    t_profiles t_retired t_relationships t_co_holders t_revoked t_addrs stored_address stored_row].
  - done.
  - rewrite Hs, lookup_insert_eq. eexists. split; [reflexivity|].
    unfold SideStore.side_of_row, stored_row. cbn. by rewrite as_u64_as_i64.
  - by rewrite Hp.
  - done.
  - intros x. destruct (Hx x) as (-> & _). rewrite elem_of_empty, is_Some_alt. done.
  - apply map_Forall_empty.
  - intros x. destruct (Hx x) as (_ & -> & _). constructor.
  - intros x. destruct (Hx x) as (_ & _ & -> & _). done.
  - intros x. destruct (Hx x) as (_ & _ & _ & -> & _). rewrite elem_of_empty, is_Some_alt. done.
  - intros x. destruct (Hx x) as (_ & _ & _ & _ & ->). done.
Qed.

(** The calls of a history: arguments in range, statements that succeed. *)
Definition call_ok (x : option N * Io * SideOp) : Prop :=
  let '(clock, io, op) := x in from_option wf_time True clock /\ io = io_ok /\ op_ok op.

Lemma synced_run ops h : Forall call_ok ops -> Synced h -> Synced (run ops h).
Proof using.
  unfold run. intros Hops. revert h. induction Hops as [|[[clock io] op] ops (Hc & -> & Ho) _ IH];
    intros h Sy; [done|]. cbn [foldl]. by apply IH, synced_step.
Qed.

(** ** What single operations leave alone *)

Lemma restart_durable clock lbl h :
  Synced h ->
  exists s', step clock io_ok (ORestart lbl) h = (s', snd h) /\ durable s' = durable (fst h).
Proof using.
  intros Sy. destruct h as [s t]. destruct (restart_ok clock lbl s t Sy) as (s' & E & Hd & _).
  exists s'. cbn [step fst snd]. by rewrite E.
Qed.

(** A device that was revoked and holds nothing of the side. *)
Definition shut_out (d : bytes) (s : Side) : Prop :=
  d ∈ revoked_devices s /\ co_holders s !! d = None /\ co_holder_addrs s !! d = None.

(** The calls that let a device in by name. *)
Definition lets_in (d : bytes) (op : SideOp) : Prop :=
  match op with OAddCoHolder d' _ | ORecordAddr d' _ => d' = d | _ => False end.

Lemma shut_out_delta clock io op at_ d h :
  shut_out d (fst h) -> shut_out d (fst (apply_delta clock io op at_ h)).
Proof using.
  destruct h as [s t]. intros (Hr & Hc & Ha). unfold shut_out.
  destruct op as [w| |r|a|a|st|d' dial|d']; cbn [apply_delta fst]; try done.
  - by repeat case_match.
  - by repeat case_match.
  - by case_match.
  - destruct (bool_decide (d' = address s)); [done|].
    destruct (is_device_revoked d' s) eqn:Er; [done|]. unfold is_device_revoked in Er. to_prop.
    assert (d' <> d) as Hne by by intros ->.
    cbn. by rewrite !lookup_insert_ne by done.
  - cbn. rewrite elem_of_union. split_and!; [auto|..];
      destruct (decide (d = d')) as [->|?]; rewrite ?lookup_delete_eq, ?lookup_delete_ne; done.
Qed.

Lemma shut_out_step clock op d h :
  Synced h -> ~ lets_in d op -> shut_out d (fst h) -> shut_out d (fst (step clock io_ok op h)).
Proof using.
  intros Sy Hn Ho. destruct op as [p|a|r|a|a f|lc| | | |d' b|d'|d'|n|n|d' a|op at_|lbl];
    try (destruct h as [s t]; exact Ho).
  - destruct h as [s t]. cbn [step]. unfold update_relationship. by repeat case_match.
  - destruct h as [s t]. cbn [step]. unfold refresh_lifecycle. by destruct (lifecycle _).
  - destruct h as [s t], Ho as (? & ? & ?). cbn in Hn. unfold shut_out. cbn.
    by rewrite lookup_insert_ne.
  - destruct h as [s t], Ho as (? & Hc & ?). unfold shut_out. cbn. split_and!; [done| |done].
    destruct (decide (d = d')) as [->|?]; [by rewrite lookup_delete_eq|by rewrite lookup_delete_ne].
  - destruct h as [s t], Ho as (? & ? & ?). unfold shut_out. cbn. rewrite elem_of_union. auto.
  - destruct h as [s t], Ho as (? & ? & ?). cbn in Hn. unfold shut_out. cbn.
    by rewrite lookup_insert_ne.
  - by apply shut_out_delta.
  - destruct (restart_durable clock lbl h Sy) as (s' & -> & Hd). unfold shut_out in *. cbn [fst].
    by rewrite (f_equal revoked_devices Hd : revoked_devices s' = _),
      (f_equal co_holders Hd : co_holders s' = _), (f_equal co_holder_addrs Hd : co_holder_addrs s' = _).
Qed.

(** A side that retired itself. *)
Definition retired_for_good (s : Side) : Prop :=
  is_self_retired s = true /\ lifecycle s = Lifecycle.Retired.

Lemma retired_step clock op h :
  Synced h -> (forall lc, op = OSetLifecycle lc -> lc = Lifecycle.Retired) ->
  retired_for_good (fst h) -> retired_for_good (fst (step clock io_ok op h)).
Proof using.
  intros Sy Hn Ho. destruct op as [p|a|r|a|a f|lc| | | |d' b|d'|d'|n|n|d' a|op at_|lbl];
    try (destruct h as [s t]; exact Ho).
  - destruct h as [s t]. cbn [step]. unfold update_relationship. by repeat case_match.
  - rewrite (Hn lc eq_refl). destruct h as [s t], Ho as [? _]. by split.
  - destruct h as [s t], Ho as [? E]. cbn [step]. unfold refresh_lifecycle. cbn in E |- *. by rewrite E.
  - destruct h as [s t], Ho as [? E]. cbn in *. unfold retired_for_good. cbn. by rewrite E.
  - destruct h as [s t]. by split.
  - destruct h as [s t], Ho as [Hr E]. cbn [fst] in *.
    destruct op; cbn [step apply_delta fst]; rewrite ?Hr; repeat case_match; done.
  - destruct (restart_durable clock lbl h Sy) as (s' & -> & Hd). unfold retired_for_good in *. cbn [fst].
    by rewrite (f_equal is_self_retired Hd : is_self_retired s' = _),
      (f_equal lifecycle Hd : lifecycle s' = _).
Qed.

(** A nonce that is not pending stays so, whatever the statements do. *)
Lemma not_pending_step clock io op n h :
  op <> OAddPending n -> pending_pairings (fst h) !! n = None ->
  pending_pairings (fst (step clock io op h)) !! n = None.
Proof using.
  intros Hn Hp. destruct op as [p|a|r|a|a f|lc| | | |d' b|d'|d'|n'|n'|d' a|op at_|lbl];
    try (destruct h as [s t]; exact Hp).
  - destruct h as [s t]. cbn [step]. unfold update_relationship. by repeat case_match.
  - destruct h as [s t]. cbn [step]. unfold refresh_lifecycle. by destruct (lifecycle _).
  - destruct h as [s t]. cbn in *. rewrite lookup_insert_ne; [done|]. by intros ->.
  - destruct h as [s t]. cbn in *. destruct (decide (n' = n)) as [->|?].
    + by rewrite lookup_delete_eq.
    + rewrite lookup_delete_ne by done. by apply map_lookup_filter_None; left.
  - destruct h as [s t]. destruct op; cbn [step apply_delta fst]; by repeat case_match.
  - destruct h as [s t]. cbn [step fst snd]. unfold load_or_create.
    destruct (SideStore.load_side _ t).
    + destruct (load_existing _ _ _) as [s'|] eqn:El; [|done]. cbn.
      unfold load_existing in El. by apply result_bind_ok in El as (p & _ & [= <-]).
    + by destruct (io 0%nat).
Qed.

Lemma take_pending_some clock n h p h' :
  take_pending_pairing clock n h = (Some p, h') ->
  pending_pairings (fst h) !! n = Some p /\ pairing_live (now_or_log_zero clock) p = true /\
  pending_pairings (fst h') !! n = None.
Proof using.
  destruct h as [s t]. unfold take_pending_pairing. intros [= E <-].
  apply map_lookup_filter_Some in E as [E Hl]. cbn. by rewrite lookup_delete_eq.
Qed.

Lemma take_pending_none clock n h :
  pending_pairings (fst h) !! n = None -> fst (take_pending_pairing clock n h) = None.
Proof using. destruct h as [s t]. cbn. intros E. by apply map_lookup_filter_None; left. Qed.

(** ** Profiles from several devices *)

(** The profile a device keeps of the current one and a received one. *)
Definition newer (cur : option ProfilePayload) (p : ProfilePayload) : option ProfilePayload :=
  match cur with
  | Some c => if updated_at c <=? updated_at p then Some p else Some c
  | None => Some p
  end.

Definition profile_delta (p : ProfilePayload) : DeltaOp := ProfileUpdated (Profile.Profile.to_wire_bytes p).

Lemma apply_profile_delta clock io p at_ h :
  profile_ok p -> profile (fst (apply_delta clock io (profile_delta p) at_ h)) = newer (profile (fst h)) p.
Proof using.
  intros Hp. unfold profile_delta. cbn [apply_delta]. rewrite Hp. destruct h as [s t]. cbn [fst].
  unfold newer. destruct (profile s) as [c|] eqn:E; [|done]. by case_match.
Qed.

Lemma apply_profile_deltas clock ios l at_ h :
  Forall profile_ok l ->
  profile (fst (apply_deltas clock ios (map profile_delta l) at_ h)) = foldl newer (profile (fst h)) l.
Proof using.
  intros Hl. unfold apply_deltas. generalize 0%nat as i. revert h.
  induction Hl as [|p l Hp _ IH]; intros h i; [done|]. cbn [map foldl]. rewrite IH.
  by rewrite apply_profile_delta.
Qed.

(** The outcome is the newest of all, whatever came first. *)
Lemma foldl_newer_max l cur m :
  foldl newer cur l = Some m ->
  m ∈ option_list cur ++ l /\ forall p, p ∈ option_list cur ++ l -> updated_at p <= updated_at m.
Proof using.
  revert cur. induction l as [|p l IH]; intros cur E.
  - cbn in E. subst. cbn. split; [set_solver|]. intros q Hq. assert (q = m) as -> by set_solver. lia.
  - cbn [foldl] in E. apply IH in E as [Hm Hmax].
    assert (forall q, q ∈ option_list (newer cur p) ++ l -> q ∈ option_list cur ++ p :: l) as Hsub.
    { clear. intros q. destruct cur as [c|]; cbn; [case_match|]; set_solver. }
    split; [by apply Hsub|]. intros q Hq. destruct cur as [c|]; cbn in *; [|apply Hmax; set_solver].
    destruct (updated_at c <=? updated_at p) eqn:Ec; to_prop; cbn in *.
    + apply elem_of_cons in Hq as [->|Hq]; [|apply Hmax; set_solver].
      pose proof (Hmax p ltac:(set_solver)). lia.
    + apply elem_of_cons in Hq as [->|Hq]; [apply Hmax; set_solver|].
      apply elem_of_cons in Hq as [->|Hq]; [|apply Hmax; set_solver].
      pose proof (Hmax c ltac:(set_solver)). lia.
Qed.

Lemma foldl_newer_Some l cur : option_list cur ++ l <> [] -> exists m, foldl newer cur l = Some m.
Proof using.
  revert cur. induction l as [|p l IH]; intros cur Hne.
  - destruct cur; [by eexists|done].
  - cbn [foldl]. apply IH. destruct cur; cbn; [by case_match|done].
Qed.

Lemma foldl_newer_perm l l' cur :
  l ≡ₚ l' -> NoDup (map updated_at (option_list cur ++ l)) -> foldl newer cur l = foldl newer cur l'.
Proof using.
  intros Hp Hnd. destruct (decide (option_list cur ++ l = [])) as [E|E].
  - destruct cur, l; try done. by apply Permutation_nil in Hp as ->.
  - destruct (foldl_newer_Some l cur E) as [m Em], (foldl_newer_Some l' cur) as [m' Em'].
    { intros E'. apply E. apply Permutation_nil. by rewrite Hp, E'. }
    rewrite Em, Em'. f_equal. apply foldl_newer_max in Em as [Hm Hmax], Em' as [Hm' Hmax'].
    rewrite <-Hp in Hm'. assert (updated_at m = updated_at m') as Eu.
    { apply N.le_antisymm; [apply Hmax'; by rewrite <-Hp|by apply Hmax]. }
    apply list_elem_of_lookup in Hm as [i Hi], Hm' as [j Hj].
    assert (i = j) as <-; [|congruence].
    eapply NoDup_lookup; [exact Hnd|rewrite list_lookup_fmap; by rewrite Hi|].
    rewrite list_lookup_fmap, Hj. cbn. by rewrite Eu.
Qed.

(** An invariant of the steps holds after every history. *)
Lemma run_invariant (P : Side -> Prop) (allowed : SideOp -> Prop) :
  (forall clock op h, Synced h -> allowed op -> P (fst h) -> P (fst (step clock io_ok op h))) ->
  forall ops h, Forall call_ok ops -> Forall (fun x => allowed (snd x)) ops -> Synced h ->
    P (fst h) -> P (fst (run ops h)).
Proof using.
  intros Hstep ops h Hops. revert h.
  induction Hops as [|[[clock io] op] ops (Hc & -> & Ho) _ IH]; intros h Hall Sy HP; [done|].
  inversion Hall; subst. cbn [run foldl]. apply IH; [done|by apply synced_step|by apply Hstep].
Qed.

(** ** Properties *)

(** A side survives restarts: after any history of operations, deltas and
    restarts whose statements succeed, starting from a fresh side, loading the
    side from the tables gives the same side, except that the pending pairings
    are gone and that the times the contacts were added may be older. *)
Theorem restart_restores_side clock0 clock1 key lbl lbl' t ops h0
    (Hc : from_option wf_time True clock0) (Hn : no_rows (public_bytes key) t)
    (Hops : Forall call_ok ops) (H0 : load_or_create clock0 io_ok key lbl t = Ok h0) :
  exists s', load_or_create clock1 io_ok (keypair (fst (run ops h0))) lbl' (snd (run ops h0))
      = Ok (s', snd (run ops h0)) /\
    durable s' = durable (fst (run ops h0)) /\ pending_pairings s' = ∅.
Proof using.
  destruct (synced_fresh clock0 key lbl t Hc Hn) as (h & E & _ & Sy).
  rewrite H0 in E. injection E as <-. apply (synced_run _ _ Hops) in Sy.
  destruct (run ops h0) as [s t']. by apply restart_ok.
Qed.

(** A device that was revoked and dropped stays out: no history of other
    operations, deltas of co-holders and restarts brings it back as a
    co-holder or as an address to push to, as long as the node itself does not
    add it by name. *)
Theorem revoked_device_stays_out d ops h
    (Sy : Synced h) (Hops : Forall call_ok ops) (Hn : Forall (fun x => ~ lets_in d (snd x)) ops)
    (Ho : shut_out d (fst h)) :
  shut_out d (fst (run ops h)).
Proof using.
  apply (run_invariant (shut_out d) (fun op => ~ lets_in d op)); try done.
  intros. by apply shut_out_step.
Qed.

(** Retirement is final: a side that retired itself stays retired under
    every operation but an explicit [set_lifecycle], through deltas that
    announce another state and through restarts. *)
Theorem retirement_is_final ops h
    (Sy : Synced h) (Hops : Forall call_ok ops)
    (Hn : Forall (fun x => forall lc, snd x <> OSetLifecycle lc) ops)
    (Ho : retired_for_good (fst h)) :
  retired_for_good (fst (run ops h)).
Proof using.
  apply (run_invariant retired_for_good (fun op => forall lc, op <> OSetLifecycle lc)); try done.
  intros clock op h1 S1 Hop. apply retired_step; [done|]. intros lc E. by destruct (Hop lc).
Qed.

(** C14: a pairing nonce opens the side at most once and not for long: a
    successful [take_pending_pairing] finds it issued less than ninety seconds
    ago, and after it no later call succeeds, whatever happens in between,
    unless the node issues the same nonce again. *)
Theorem pairing_nonce_used_once clock n h p h' ops clock2
    (Ht : take_pending_pairing clock n h = (Some p, h'))
    (Hn : Forall (fun x => snd x <> OAddPending n) ops) :
  pending_pairings (fst h) !! n = Some p /\ now_or_log_zero clock < issued_at p + PAIRING_TTL_SECS /\
  fst (take_pending_pairing clock2 n (run ops h')) = None.
Proof using.
  apply take_pending_some in Ht as (E & Hl & Hgone). split; [done|]. split.
  { unfold pairing_live, PAIRING_TTL_SECS in *. to_prop. lia. }
  apply take_pending_none. clear Hl E. revert h' Hgone.
  induction Hn as [|[[c i] op] ops Ho _ IH]; intros h' Hg; [done|]. cbn [run foldl].
  apply IH. by apply not_pending_step.
Qed.

(** C17: the devices of a side agree on its profile: profile updates with
    different times leave the same profile, the newest one, in whatever order
    they arrive and whichever of the writes fail. *)
Theorem profile_deltas_converge clock clock' ios ios' l l' at_ at_' h h'
    (Hl : Forall profile_ok l) (Hp : l ≡ₚ l') (Hcur : profile (fst h) = profile (fst h'))
    (Hnd : NoDup (map updated_at (option_list (profile (fst h)) ++ l))) :
  profile (fst (apply_deltas clock ios (map profile_delta l) at_ h))
  = profile (fst (apply_deltas clock' ios' (map profile_delta l') at_' h')) /\
  forall m, profile (fst (apply_deltas clock ios (map profile_delta l) at_ h)) = Some m ->
    forall p, p ∈ option_list (profile (fst h)) ++ l -> updated_at p <= updated_at m.
Proof using.
  rewrite !apply_profile_deltas by (rewrite <-?Hp; done). rewrite <-Hcur. split.
  - by apply foldl_newer_perm.
  - intros m Em. by apply foldl_newer_max in Em as [_ Hm].
Qed.

End Run.

(** ** Concrete instances *)

Module SideExamples.
Import Toy.

Definition a1 : bytes := replicate 32 Byte.x11.
Definition dev : bytes := replicate 32 Byte.x22.
Definition n1 : bytes := replicate 16 Byte.x33.

Definition rel (nick : string) (t : N) : SideRelationship :=
  {| SideStore.address := a1; nickname := Some nick; introduced_by := None;
     capabilities := {[ DIRECT_MESSAGE ]}; notes := None; pinned := false; added_at := t;
     peer_listen_addr := None |}.
Definition rel_delta (nick : string) (t : N) : DeltaOp :=
  RelationshipUpserted
    {| Relationship.address := a1; Relationship.nickname := Some nick; Relationship.introduced_by := None;
       Relationship.capabilities := [DIRECT_MESSAGE]; Relationship.notes := None;
       Relationship.pinned := false; Relationship.added_at := t |}.

Definition h0 : Hosted :=
  match load_or_create (Some 5) io_ok Toy.side (Some "work") empty_tables with
  | Ok h => h
  | Err _ => (fresh Toy.side None 0, empty_tables)
  end.
Definition call (op : SideOp) : option N * Io * SideOp := (Some 1000, io_ok, op).

Definition history : list (option N * Io * SideOp) :=
  [ call (OAddRelationship (rel "bob" 10)); call (OAddCoHolder dev None);
    call (ORecordAddr dev "127.0.0.1:1"); call (OAddPending n1); call OTouchSend;
    call (ORestart None); call (ODelta (CoHolderRemoved dev) 7) ].

Lemma rel_bob_ok : rel_ok (rel "bob" 10).
Proof.
  split; [|by intros E; vm_compute in E].
  intros c Hc. change (c ∈ ({[ DIRECT_MESSAGE ]} : gset string)) in Hc. apply elem_of_singleton in Hc. subst c. apply (bool_decide_unpack _). by vm_compute.
Qed.

Lemma history_ok : Forall call_ok history.
Proof. repeat (apply Forall_cons; split; [repeat split; try apply rel_bob_ok|]). by apply Forall_nil. Qed.

Lemma no_rows_empty a : no_rows a empty_tables.
Proof. done. Qed.

Lemma restart_restores_side_witness :
  exists s', load_or_create (Some 2000) io_ok (keypair (fst (run history h0))) None (snd (run history h0))
      = Ok (s', snd (run history h0)) /\
    durable s' = durable (fst (run history h0)) /\ pending_pairings s' = ∅.
Proof.
  apply (restart_restores_side (Some 5) (Some 2000) Toy.side (Some "work") None empty_tables history h0).
  - vm_compute. reflexivity.
  - apply no_rows_empty.
  - exact history_ok.
  - vm_compute. reflexivity.
Defined.

Lemma h0_synced : Synced h0.
Proof.
  destruct (synced_fresh (Some 5) Toy.side (Some "work") empty_tables eq_refl (no_rows_empty _))
    as (h & E & _ & Sy).
  replace h0 with h; [done|]. unfold h0. by rewrite E.
Qed.

(** The history ends with the device dropped and revoked; a stale co-holder
    then announces it again. *)
Definition h1 : Hosted := run history h0.
Definition later : list (option N * Io * SideOp) :=
  [ call (ODelta (CoHolderAdded dev "127.0.0.1:1") 9); call (ORestart None) ].

Lemma h1_synced : Synced h1.
Proof. apply synced_run; [exact history_ok|exact h0_synced]. Qed.

Lemma revoked_device_stays_out_witness : shut_out dev (fst (run later h1)).
Proof.
  apply (revoked_device_stays_out dev later h1 h1_synced).
  - repeat constructor.
  - repeat constructor; intros E; exact E.
  - split; [apply (bool_decide_unpack _); by vm_compute|split; by vm_compute].
Defined.

Definition retired_history : list (option N * Io * SideOp) :=
  [ call (ODelta (LifecycleChanged "Active") 3); call OTouchSend; call ORefreshLifecycle;
    call (ORestart None) ].

Lemma retirement_is_final_witness :
  retired_for_good (fst (run retired_history (step (Some 1) io_ok OSetSelfRetired h0))).
Proof.
  apply (retirement_is_final retired_history).
  - apply synced_step; [done|done|exact h0_synced].
  - repeat constructor.
  - repeat constructor; intros lc; discriminate.
  - by split.
Defined.

(** A co-holder's announcement of retirement is not final. *)
Example announced_retirement_reverts :
  lifecycle (fst (run [call (ODelta (LifecycleChanged "Retired") 1)] h0)) = Lifecycle.Retired /\
  lifecycle (fst (run [call (ODelta (LifecycleChanged "Retired") 1);
                       call (ODelta (LifecycleChanged "Active") 2)] h0)) = Lifecycle.Active.
Proof. by vm_compute. Qed.

Definition hp : Hosted := step (Some 1000) io_ok (OAddPending n1) h0.

Lemma pairing_nonce_used_once_witness :
  pending_pairings (fst hp) !! n1 = Some {| issued_at := 1000 |} /\
  now_or_log_zero (Some 1089) < issued_at {| issued_at := 1000 |} + PAIRING_TTL_SECS /\
  fst (take_pending_pairing (Some 1089) n1
    (run [call (ORestart None)] (snd (take_pending_pairing (Some 1089) n1 hp)))) = None.
Proof.
  apply (pairing_nonce_used_once (Some 1089) n1 hp _ (snd (take_pending_pairing (Some 1089) n1 hp))).
  - vm_compute. reflexivity.
  - repeat constructor. discriminate.
Defined.

Definition newer_profile : ProfilePayload :=
  let u := Profile.Profile.encode_unsigned (public_bytes Toy.side) None None None None None ∅ 1700000001 in
  {| Profile.side := public_bytes Toy.side; name := None; avatar := None; bio := None; links := None;
     fields := None; Profile.capabilities := ∅; updated_at := 1700000001;
     signature := side_sign Toy.side (blake3 u) |}.

Lemma profile_deltas_converge_witness :
  let l := [ProfileExamples.profile1; newer_profile] in
  let l' := [newer_profile; ProfileExamples.profile1] in
  profile (fst (apply_deltas None (fun _ => io_ok) (map profile_delta l) 0 h0))
  = profile (fst (apply_deltas (Some 9) (fun _ _ => false) (map profile_delta l') 0 h0)) /\
  forall m, profile (fst (apply_deltas None (fun _ => io_ok) (map profile_delta l) 0 h0)) = Some m ->
    forall p, p ∈ option_list (profile (fst h0)) ++ l -> updated_at p <= updated_at m.
Proof.
  intros l l'. apply (profile_deltas_converge None (Some 9) _ _ l l').
  - repeat constructor; vm_compute; reflexivity.
  - apply Permutation_swap.
  - reflexivity.
  - apply (bool_decide_unpack _). vm_compute. reflexivity.
Defined.

(** The upsert of the store keeps the first time of a contact: after a restart
    an older delta replaces a newer one. *)
Definition updated : Hosted :=
  run [call (ODelta (rel_delta "old" 10) 10); call (ODelta (rel_delta "new" 20) 20)] h0.

Example stale_delta_refused :
  option_map nickname (get_relationship a1 (fst (run [call (ODelta (rel_delta "stale" 15) 15)] updated)))
  = Some (Some "new").
Proof. by vm_compute. Qed.

Example stale_delta_wins_after_restart :
  option_map nickname (get_relationship a1
    (fst (run [call (ORestart None); call (ODelta (rel_delta "stale" 15) 15)] updated)))
  = Some (Some "stale").
Proof. by vm_compute. Qed.

(** A token with a newline becomes two tokens. *)
Definition two_lines : string := String.append "a" (String CAP_SEP STORAGE_HOST).

Example newline_adds_token :
  STORAGE_HOST ∉ ({[ two_lines ]} : gset string) /\
  STORAGE_HOST ∈ decode_capabilities (encode_capabilities {[ two_lines ]}).
Proof. split; apply (bool_decide_unpack _); by vm_compute. Qed.

End SideExamples.
