(* ===== verification/Session.v ===== *)
(** Sessions between two nodes: envelope framing
    ([sidevers-net/src/framing.rs]), intents and their message types
    ([session.rs]) and the three-message handshake
    ([sidevers-net/src/handshake.rs]).

    A QUIC stream is the list of bytes still to be read from it.  The clock,
    the envelope nonce and the ephemeral X25519 secret, which the source
    takes from the operating system, are arguments.  A handshake function of
    the source that waits for the peer is split at that point: its first part
    returns what it sends, its second part takes what it receives. *)

From S2P Require Import Prelude Utf8 Cbor CborCodec CborValue TextMap Keys Envelope Payload Handshake.

Open Scope N_scope.

(** ** Network errors ([sidevers-net/src/error.rs])

    The variants the modelled functions return; those that wrap the errors of
    quinn, rustls and rcgen, and the timeout, are left out.  [ReadExact]
    stands for a stream that ends early, [Sqlite] has the library's message. *)

Inductive net_error :=
| ReadExact
| Core (e : Error.t)
| HandshakeDeclined (reason : string)
| HandshakeProtocol (what : string)
| WrongIntent (got intent : N)
| EnvelopeTooLarge (got max : N)
| NetInvariant (what : string)
| Sqlite (message : string).

Inductive nresult (A : Type) := NOk (a : A) | NErr (e : net_error).
Arguments NOk {A} a.
Arguments NErr {A} e.

#[export] Instance nresult_ret : MRet nresult := fun _ a => NOk a.
#[export] Instance nresult_bind : MBind nresult := fun _ _ k m =>
  match m with NOk a => k a | NErr e => NErr e end.

(** [m.map_err(Error::Core)], also the implicit conversion of [?]. *)
Definition core {A} (m : result A) : nresult A :=
  match m with Ok a => NOk a | Err e => NErr (Core e) end.

(** [if !cond { return Err(e) }]. *)
Definition nensure (cond : bool) (e : net_error) : nresult unit := if cond then NOk tt else NErr e.

(** ** Framing *)

Definition MAX_ENVELOPE_LEN : N := 64 * 1024.

(** What [send_envelope] writes to the stream. *)
Definition send_envelope (env : Envelope) : nresult bytes :=
  let bs := to_wire_bytes env in
  if MAX_ENVELOPE_LEN <? blen bs then
    NErr (EnvelopeTooLarge (blen bs mod (u32_max + 1)) MAX_ENVELOPE_LEN)
  else
    NOk (to_be_bytes 4 (blen bs mod (u32_max + 1)) ++ bs).

(** [recv.read_exact(&mut buf)] for a buffer of [n] bytes. *)
Definition read_exact (n : N) (stream : bytes) : nresult (bytes * bytes) :=
  if blen stream <? n then NErr ReadExact
  else NOk (take (N.to_nat n) stream, drop (N.to_nat n) stream).

(** The envelope and the rest of the stream. *)
Definition recv_envelope `{Crypto} (stream : bytes) : nresult (Envelope * bytes) :=
  '(len_buf, stream) ← read_exact 4 stream;
  let len := from_be_bytes len_buf in
  _ ← nensure (negb ((len =? 0) || (MAX_ENVELOPE_LEN <? len))) (EnvelopeTooLarge len MAX_ENVELOPE_LEN);
  '(buf, stream) ← read_exact len stream;
  env ← core (from_wire_bytes buf);
  mret (env, stream).

(** ** Intents *)

Module Intent.

Inductive t := Direct | Storage | Gossip | Verse | PublicLayer.

Definition as_u8 (i : t) : N :=
  match i with
  | Direct => DIRECT | Storage => STORAGE | Gossip => GOSSIP | Verse => VERSE
  | PublicLayer => PUBLIC_LAYER
  end.

Definition from_u8 (v : N) : option t :=
  if v =? DIRECT then Some Direct
  else if v =? STORAGE then Some Storage
  else if v =? GOSSIP then Some Gossip
  else if v =? VERSE then Some Verse
  else if v =? PUBLIC_LAYER then Some PublicLayer
  else None.

Definition accepts (i : t) (message_type : N) : bool :=
  match i, category message_type with
  | Direct, Envelope.Direct => true
  | Storage, Envelope.Storage => true
  | Gossip, Envelope.Discovery => true
  | Gossip, Envelope.Public => true
  | Verse, Envelope.Verse => true
  | PublicLayer, Envelope.Public => true
  | _, _ => false
  end.

End Intent.

(** The connection handle is left out. *)
Record Session := {
  session_key : bytes;
  peer_side : bytes;
  intent : Intent.t;
  peer_capabilities : gmap string N
}.

(** [open_and_send]: the bytes written to a fresh stream. *)
Definition open_and_send (s : Session) (env : Envelope) : nresult bytes :=
  _ ← nensure (Intent.accepts (intent s) (message_type env))
        (WrongIntent (message_type env) (Intent.as_u8 (intent s)));
  send_envelope env.

(** [accept_one], on the stream it accepted. *)
Definition accept_one `{Crypto} (s : Session) (stream : bytes) : nresult (Envelope * bytes) :=
  '(env, stream) ← recv_envelope stream;
  _ ← nensure (Intent.accepts (intent s) (message_type env))
        (WrongIntent (message_type env) (Intent.as_u8 (intent s)));
  mret (env, stream).

(** ** The handshake *)

Definition HELLO : N := 0x10.
Definition HELLO_BACK : N := 0x11.
Definition CONFIRM : N := 0x12.

Definition SESSION_KEY_LEN : N := 32.
Definition SESSION_HKDF_INFO : bytes := as_bytes "sidevers/v1/session".

(** [for i in 1u8..=5 { mask |= 1u64 << i }]. *)
Definition intents_mask : N :=
  fold_left (fun mask i => N.lor mask (N.shiftl 1 i)) [1; 2; 3; 4; 5] 0.

Definition local_capabilities : gmap string N :=
  <["max_envelope_kib" := 1024]>
    (<["intents_mask" := intents_mask]> (<["protocol" := PROTOCOL_VERSION]> ∅)).

Section Handshake.
Context `{Crypto, Ecies}.

Definition derive_session_key (my_eph their_eph hello_bytes helloback_bytes : bytes) : bytes :=
  let shared := x_diffie_hellman my_eph their_eph in
  let salt := blake3 (hello_bytes ++ helloback_bytes) in
  hkdf_sha512 salt shared SESSION_HKDF_INFO SESSION_KEY_LEN.

Definition transcript_mac (session_key hello_bytes helloback_bytes : bytes) : bytes :=
  blake3_keyed session_key (hello_bytes ++ helloback_bytes).

(** [run_initiator_inner], up to the [Hello] it sends. *)
Definition hello_payload (intent : Intent.t) (eph_secret : bytes) : Hello.t :=
  {| Hello.v_max := 1; Hello.v_min := 1; Hello.extensions := [];
     Hello.eph_pub := x_public eph_secret; Hello.intent := Intent.as_u8 intent;
     Hello.capabilities := local_capabilities |}.

Definition initiator_hello (my_side : SideKey) (intent : Intent.t)
    (expected_peer_side : option bytes) (eph_secret : bytes) (now : N) (nonce : bytes)
    : nresult Envelope :=
  core (sign_with HELLO my_side expected_peer_side (Hello.encode (hello_payload intent eph_secret))
          now nonce).

(** [run_initiator_inner], from the [HelloBack] it receives: the [Confirm] it
    sends and its session. *)
Definition initiator_finish (my_side : SideKey) (intent : Intent.t) (eph_secret : bytes)
    (hello_env helloback_env : Envelope) (now : N) (nonce : bytes) : nresult (Envelope * Session) :=
  let hello_bytes := to_wire_bytes hello_env in
  _ ← nensure (message_type helloback_env =? HELLO_BACK) (HandshakeProtocol "expected HelloBack");
  let helloback_bytes := to_wire_bytes helloback_env in
  p ← core (HelloBack.decode (payload helloback_env));
  _ ← nensure (HelloBack.accept p) (HandshakeDeclined (default "(no reason)" (HelloBack.reason p)));
  _ ← nensure (HelloBack.v p =? 1) (HandshakeProtocol "unsupported version negotiated");
  let key := derive_session_key eph_secret (HelloBack.eph_pub p) hello_bytes helloback_bytes in
  let proof := transcript_mac key hello_bytes helloback_bytes in
  confirm_env ← core (sign_with CONFIRM my_side (Some (from helloback_env))
                        (Confirm.encode {| Confirm.proof := proof |}) now nonce);
  mret (confirm_env,
        {| session_key := key; peer_side := from helloback_env; intent := intent;
           peer_capabilities := HelloBack.capabilities p |}).

(** What the responder keeps between [HelloBack] and [Confirm]. *)
Record Pending := {
  pend_hello : Hello.t;
  pend_from : bytes;
  pend_key : bytes;
  pend_hello_bytes : bytes;
  pend_helloback_bytes : bytes
}.

(** The [HelloBack] the responder sends, and either its own refusal or the
    state it goes on with. *)
Inductive Reply := Declined (env : Envelope) | Accepted (env : Envelope) (pending : Pending).

Definition decline_payload (reason : string) : HelloBack.t :=
  {| HelloBack.v := 1; HelloBack.accept := false; HelloBack.reason := Some reason;
     HelloBack.eph_pub := replicate 32 Byte.x00; HelloBack.extensions := [];
     HelloBack.capabilities := ∅ |}.

Definition accept_payload (eph_secret : bytes) : HelloBack.t :=
  {| HelloBack.v := 1; HelloBack.accept := true; HelloBack.reason := None;
     HelloBack.eph_pub := x_public eph_secret; HelloBack.extensions := [];
     HelloBack.capabilities := local_capabilities |}.

(** [run_responder_inner], up to the [HelloBack] it sends. *)
Definition responder_reply (my_side : SideKey) (hello_env : Envelope) (eph_secret : bytes)
    (now : N) (nonce : bytes) : nresult Reply :=
  _ ← nensure (message_type hello_env =? HELLO) (HandshakeProtocol "expected Hello");
  let hello_bytes := to_wire_bytes hello_env in
  p ← core (Hello.decode (payload hello_env));
  let accept_version := (Hello.v_min p <=? 1) && (1 <=? Hello.v_max p) in
  let intent_known := (1 <=? Hello.intent p) && (Hello.intent p <=? 5) in
  if negb accept_version || negb intent_known then
    let reason := if negb accept_version then "version-incompatible" else "intent-refused" in
    env ← core (sign_with HELLO_BACK my_side (Some (from hello_env))
                  (HelloBack.encode (decline_payload reason)) now nonce);
    mret (Declined env)
  else
    env ← core (sign_with HELLO_BACK my_side (Some (from hello_env))
                  (HelloBack.encode (accept_payload eph_secret)) now nonce);
    let helloback_bytes := to_wire_bytes env in
    let key := derive_session_key eph_secret (Hello.eph_pub p) hello_bytes helloback_bytes in
    mret (Accepted env {| pend_hello := p; pend_from := from hello_env; pend_key := key;
                          pend_hello_bytes := hello_bytes; pend_helloback_bytes := helloback_bytes |}).

(** [run_responder_inner], from the [Confirm] it receives. *)
Definition responder_finish (pd : Pending) (confirm_env : Envelope) : nresult Session :=
  _ ← nensure (message_type confirm_env =? CONFIRM) (HandshakeProtocol "expected Confirm");
  c ← core (Confirm.decode (payload confirm_env));
  let expected := transcript_mac (pend_key pd) (pend_hello_bytes pd) (pend_helloback_bytes pd) in
  _ ← nensure (bool_decide (Confirm.proof c = expected)) (HandshakeProtocol "Confirm MAC mismatch");
  i ← match Intent.from_u8 (Hello.intent (pend_hello pd)) with
      | Some i => mret i
      | None => NErr (HandshakeProtocol "unknown intent")
      end;
  mret {| session_key := pend_key pd; peer_side := pend_from pd; intent := i;
          peer_capabilities := Hello.capabilities (pend_hello pd) |}.

End Handshake.

(** ** Lemmas *)

Lemma nresult_bind_ok {A B} (m : nresult A) (k : A -> nresult B) b :
  (x ← m; k x) = NOk b <-> exists a, m = NOk a /\ k a = NOk b.
Proof.
  destruct m as [a|e]; cbn; split.
  - intros H. by exists a.
  - by intros (a' & [= <-] & H).
  - done.
  - by intros (a' & [=] & _).
Qed.

Lemma nensure_ok c e u : nensure c e = NOk u <-> c = true.
Proof. destruct c, u; cbn; naive_solver. Qed.

Lemma core_ok {A} (m : result A) a : core m = NOk a <-> m = Ok a.
Proof. destruct m; cbn; naive_solver. Qed.

Lemma core_Ok {A} (a : A) : core (Ok a) = NOk a.
Proof. reflexivity. Qed.

Lemma read_exact_ok n s a s' :
  read_exact n s = NOk (a, s') <-> s = a ++ s' /\ blen a = n.
Proof.
  unfold read_exact. case_bool; to_prop.
  - split; [done|]. intros [-> <-]. rewrite blen_app in *. lia.
  - split.
    + intros [= <- <-]. rewrite take_drop. split; [done|].
      unfold blen in *. rewrite length_take. lia.
    + intros [-> <-]. unfold blen in *. rewrite Nat2N.id, take_app_length, drop_app_length. done.
Qed.

(** An envelope a receiver accepts. *)
Definition valid `{Crypto} (e : Envelope) : Prop :=
  wf_envelope e /\ version e = PROTOCOL_VERSION /\ signed_by (from e) (unsigned_bytes e) (sig e).

(** The frame of an envelope: its length and its bytes. *)
Definition frame (e : Envelope) : bytes := to_be_bytes 4 (blen (to_wire_bytes e)) ++ to_wire_bytes e.

Lemma blen_to_wire_pos e : 1 <= blen (to_wire_bytes e).
Proof.
  unfold to_wire_bytes. rewrite encode_map_eq, head_bytes_eq. cbn [app]. rewrite blen_cons. lia.
Qed.

Lemma from_wire_valid `{Crypto} bs e :
  blen bs < u64_size -> from_wire_bytes bs = Ok e <-> valid e /\ bs = to_wire_bytes e.
Proof.
  intros F. unfold valid, from_wire_bytes. rewrite result_bind_ok.
  setoid_rewrite (parse_envelope_ok bs _ F). split.
  - intros (e' & [Hwf ->] & Hk). rewrite !result_bind_ok in Hk.
    destruct Hk as (u1 & Hv%ensure_ok & Hk). to_prop.
    apply result_bind_ok in Hk as (u2 & Hs%verify_signed_ok & Hk).
    by apply result_bind_ok in Hk as (u3 & _ & [= ->]).
  - intros ((Hwf & Hv & Hs) & ->). exists e. split; [done|].
    apply result_bind_ok. exists tt. rewrite ensure_ok, N.eqb_eq. split; [done|].
    apply result_bind_ok. exists tt. rewrite verify_signed_ok. split; [done|].
    apply result_bind_ok. exists tt. by rewrite ensure_ok, bool_decide_eq_true.
Qed.

Lemma send_envelope_frame e :
  blen (to_wire_bytes e) <= MAX_ENVELOPE_LEN -> send_envelope e = NOk (frame e).
Proof.
  intros H. unfold send_envelope, frame. rewrite (proj2 (N.ltb_ge _ _)) by done.
  unfold MAX_ENVELOPE_LEN, u32_max in *. by rewrite N.mod_small by lia.
Qed.

(** The receiver takes an envelope off a stream exactly when the stream begins
    with the frame of a valid envelope of at most 64 KiB; it consumes that
    frame and nothing else. *)
Lemma recv_envelope_ok `{Crypto} stream e rest :
  recv_envelope stream = NOk (e, rest) <->
  valid e /\ blen (to_wire_bytes e) <= MAX_ENVELOPE_LEN /\ stream = frame e ++ rest.
Proof.
  unfold recv_envelope, frame, MAX_ENVELOPE_LEN. rewrite nresult_bind_ok. split.
  - intros ([lb s1] & [-> Hlb]%read_exact_ok & Hk).
    apply nresult_bind_ok in Hk as (u & Hc%nensure_ok & Hk).
    apply nresult_bind_ok in Hk as ([buf s2] & [-> Hbuf]%read_exact_ok & Hk).
    apply nresult_bind_ok in Hk as (e' & He%core_ok & [= -> ->]). to_prop.
    apply from_wire_valid in He as [Hv ->]; [|unfold u64_size; lia].
    split; [done|]. split; [lia|]. rewrite Hbuf.
    assert (length lb = 4%nat) as Hl by (unfold blen in Hlb; lia).
    rewrite <-Hl, to_from_be_bytes. by rewrite <-app_assoc.
  - intros (Hv & Hl & ->). pose proof (blen_to_wire_pos e).
    exists (to_be_bytes 4 (blen (to_wire_bytes e)), to_wire_bytes e ++ rest).
    rewrite read_exact_ok, <-app_assoc. split.
    { split; [done|]. unfold blen at 1. by rewrite to_be_bytes_length. }
    rewrite from_to_be_bytes, N.mod_small by (change (256 ^ N.of_nat 4) with 4294967296; lia).
    apply nresult_bind_ok. exists tt. split.
    { apply nensure_ok. rewrite (proj2 (N.eqb_neq _ _)), (proj2 (N.ltb_ge _ _)) by lia. done. }
    apply nresult_bind_ok. exists (to_wire_bytes e, rest). rewrite read_exact_ok. split; [done|].
    apply nresult_bind_ok. exists e. rewrite core_ok. split; [|done].
    apply from_wire_valid; [unfold u64_size; lia|done].
Qed.

(** What [sign_with] makes is valid and, for a small payload, fits a frame. *)
Lemma sign_with_valid `{CryptoLaws} t side to pl ts n :
  t <= 0xFF -> from_option (fun b => blen b = PUBLIC_KEY_LEN) True to -> ts < u64_size ->
  blen n = NONCE_LEN -> blen pl <= 65236 ->
  exists e, sign_with t side to pl ts n = Ok e /\ valid e /\
    blen (to_wire_bytes e) <= MAX_ENVELOPE_LEN /\
    message_type e = t /\ payload e = pl /\ from e = public_bytes side.
Proof.
  intros Ht Hto Hts Hn Hpl. eexists. split; [reflexivity|].
  match goal with |- valid ?e /\ _ => assert (wf_envelope e) as Hwf end.
  { unfold wf_envelope, wf_bytes. cbn. split_and!; try done.
    - apply ed_sign_length.
    - apply ed_public_length.
    - unfold u64_size. lia. }
  split_and!; try done.
  - split; [done|]. split; [done|]. apply signed_by_sign.
  - pose proof (blen_to_wire_le _ Hwf) as Hl. cbn [payload] in Hl. unfold MAX_ENVELOPE_LEN. lia.
Qed.

(** ** The handshake payloads *)

Lemma intent_u8 i : Intent.as_u8 i <= 5 /\ 1 <= Intent.as_u8 i /\ Intent.from_u8 (Intent.as_u8 i) = Some i.
Proof. destruct i; cbn; repeat split; vm_compute; done. Qed.

Lemma local_capabilities_wf : wf_capabilities local_capabilities.
Proof.
  unfold wf_capabilities, wf_text_map, wf_text. apply (bool_decide_unpack _). vm_compute. exact I.
Qed.

Lemma wf_capabilities_empty : wf_capabilities ∅.
Proof. split; [vm_compute; discriminate|]. apply map_Forall_empty. Qed.

Lemma wf_extensions_nil : wf_extensions [].
Proof. split; [constructor|]. vm_compute. discriminate. Qed.

(** The length of the closed parts of an encoded map. *)
Ltac bound_map :=
  flatten; rewrite !blen_app;
  repeat match goal with
  | |- context [blen (key ?t)] => eval_blen (key t)
  | |- context [blen (text ?t)] => eval_blen (text t)
  | |- context [blen (head_bytes 5 ?n)] => eval_blen (head_bytes 5 n)
  | |- context [blen (boolean ?b)] => eval_blen (boolean b)
  | |- context [blen (uint 1)] => eval_blen (uint 1)
  | |- context [blen (encode_array_of_text [])] => eval_blen (encode_array_of_text [])
  | |- context [blen (encode_capabilities ?m)] => eval_blen (encode_capabilities m)
  end.

Section Payloads.
Context `{EciesLaws}.

Lemma hello_payload_ok i eph :
  Hello.decode (Hello.encode (hello_payload i eph)) = Ok (hello_payload i eph) /\
  blen (Hello.encode (hello_payload i eph)) <= 65236.
Proof.
  assert (blen (Hello.encode (hello_payload i eph)) <= 65236) as Hb.
  { pose proof (blen_bytestr_ub (x_public eph)) as Hx. rewrite x_public_length in Hx.
    unfold Hello.encode, Hello.entries, hello_payload.
    cbn [Hello.v_max Hello.v_min Hello.intent Hello.eph_pub Hello.extensions Hello.capabilities].
    pose proof (blen_uint_ub (Intent.as_u8 i)). bound_map.
    lia. }
  split; [|done]. apply (decode_exact Hello.encode Hello.fields Hello.wf);
    [apply _|unfold u64_size; lia|].
  split; [|done]. destruct (intent_u8 i) as (? & ? & _). unfold Hello.wf.
  cbn [hello_payload Hello.v_max Hello.v_min Hello.intent Hello.eph_pub Hello.extensions Hello.capabilities].
  split_and!; [done|done|lia|apply x_public_length|apply wf_extensions_nil|apply local_capabilities_wf].
Qed.

Lemma accept_payload_ok eph :
  HelloBack.decode (HelloBack.encode (accept_payload eph)) = Ok (accept_payload eph) /\
  blen (HelloBack.encode (accept_payload eph)) <= 65236.
Proof.
  assert (blen (HelloBack.encode (accept_payload eph)) <= 65236) as Hb.
  { pose proof (blen_bytestr_ub (x_public eph)) as Hx. rewrite x_public_length in Hx.
    unfold HelloBack.encode, HelloBack.entries, accept_payload.
    cbn [HelloBack.v HelloBack.accept HelloBack.reason HelloBack.eph_pub HelloBack.extensions
         HelloBack.capabilities or_null]. bound_map. change (blen null) with 1. lia. }
  split; [|done]. apply (decode_exact HelloBack.encode HelloBack.fields HelloBack.wf);
    [apply _|unfold u64_size; lia|].
  split; [|done]. unfold HelloBack.wf.
  cbn [accept_payload HelloBack.v HelloBack.accept HelloBack.reason HelloBack.eph_pub
       HelloBack.extensions HelloBack.capabilities].
  split_and!; [done|done|apply x_public_length|apply wf_extensions_nil|apply local_capabilities_wf].
Qed.

Lemma confirm_payload_ok key h1 h2 `{!CryptoLaws} :
  let c := {| Confirm.proof := transcript_mac key h1 h2 |} in
  Confirm.decode (Confirm.encode c) = Ok c /\ blen (Confirm.encode c) <= 65236.
Proof.
  intros c. assert (blen (Confirm.proof c) = 32) as Hp by apply blake3_keyed_length.
  assert (blen (Confirm.encode c) <= 65236) as Hb.
  { pose proof (blen_bytestr_ub (Confirm.proof c)) as Hx. rewrite Hp in Hx.
    unfold Confirm.encode, Confirm.entries. bound_map. lia. }
  split; [|done]. apply (decode_exact Confirm.encode Confirm.fields Confirm.wf);
    [apply _|unfold u64_size; lia|].
  done.
Qed.
End Payloads.

Lemma decline_payload_ok reason :
  reason = "version-incompatible" \/ reason = "intent-refused" ->
  HelloBack.decode (HelloBack.encode (decline_payload reason)) = Ok (decline_payload reason) /\
  blen (HelloBack.encode (decline_payload reason)) <= 65236.
Proof. intros [-> | ->]; split; vm_compute; done. Qed.

(** ** Properties *)

Fixpoint send_all (envs : list Envelope) : nresult bytes :=
  match envs with
  | [] => NOk []
  | e :: envs => a ← send_envelope e; b ← send_all envs; NOk (a ++ b)
  end.

Fixpoint recv_all `{Crypto} (n : nat) (stream : bytes) : nresult (list Envelope * bytes) :=
  match n with
  | O => NOk ([], stream)
  | S n => '(e, s) ← recv_envelope stream; '(l, s) ← recv_all n s; NOk (e :: l, s)
  end.

(** Framing separates messages: any number of valid envelopes sent one
    after the other is received as the same sequence, with what follows them
    left on the stream. *)
Theorem framing_roundtrip `{Crypto} envs bs rest
    (V : Forall valid envs) (S : send_all envs = NOk bs) :
  recv_all (length envs) (bs ++ rest) = NOk (envs, rest).
Proof.
  revert bs S. induction V as [|e envs He V IH]; intros bs S; cbn [send_all recv_all length] in *.
  - by injection S as <-.
  - apply nresult_bind_ok in S as (a & Ha & S). apply nresult_bind_ok in S as (b & Hb & [= <-]).
    assert (blen (to_wire_bytes e) <= MAX_ENVELOPE_LEN) as Hl.
    { unfold send_envelope in Ha. case_bool; [done|]. by to_prop. }
    rewrite send_envelope_frame in Ha by done. injection Ha as <-.
    apply nresult_bind_ok. exists (e, b ++ rest). split.
    + apply recv_envelope_ok. by rewrite <-app_assoc.
    + apply nresult_bind_ok. exists (envs, rest). split; [by apply IH|done].
Qed.

(** On a session of a given intent only the message types of that intent
    pass: the range of each intent is fixed, no handshake or reserved type
    ever passes, and only a public type can pass under two intents. *)
Theorem intent_ranges i t :
  (Intent.accepts i t = true <->
   match i with
   | Intent.Direct => 0x20 <= t <= 0x2F
   | Intent.Storage => 0x30 <= t <= 0x3F
   | Intent.Gossip => 0x40 <= t <= 0x4F \/ 0x60 <= t <= 0x6F
   | Intent.Verse => 0x50 <= t <= 0x5F
   | Intent.PublicLayer => 0x60 <= t <= 0x6F
   end) /\
  (t <= 0x1F \/ 0x70 <= t -> Intent.accepts i t = false) /\
  (forall j, Intent.accepts i t = true -> Intent.accepts j t = true -> i <> j -> category t = Envelope.Public).
Proof.
  unfold Intent.accepts, category.
  repeat match goal with |- context [t <=? ?n] => destruct (N.leb_spec t n) end; destruct i;
    (split; [split; [done || lia|lia || done]|]); (split; [done || lia|]); try done;
    intros []; done.
Qed.

(** A [Hello] the responder cannot serve: it declines with the reason, and the
    initiator that reads the refusal reports that reason. *)
Lemma responder_refuses `{CryptoLaws, !Ecies, !EciesLaws} b hello p eph t n
    (T : message_type hello = HELLO) (D : Hello.decode (payload hello) = Ok p)
    (F : blen (from hello) = PUBLIC_KEY_LEN) (Ht : t < u64_size) (Hn : blen n = NONCE_LEN)
    (R : ~ (Hello.v_min p <= 1 <= Hello.v_max p /\ 1 <= Hello.intent p <= 5)) :
  exists back, responder_reply b hello eph t n = NOk (Declined back) /\ valid back /\
    blen (to_wire_bytes back) <= MAX_ENVELOPE_LEN /\
    forall a i ea hello' now nonce,
      initiator_finish a i ea hello' back now nonce =
      NErr (HandshakeDeclined
        (if decide (Hello.v_min p <= 1 <= Hello.v_max p) then "intent-refused"
         else "version-incompatible")).
Proof.
  unfold responder_reply. rewrite T, D. cbn [nensure core mbind nresult_bind N.eqb HELLO Pos.eqb].
  set (ok_v := (Hello.v_min p <=? 1) && (1 <=? Hello.v_max p)).
  set (ok_i := (1 <=? Hello.intent p) && (Hello.intent p <=? 5)).
  assert (ok_v = true <-> Hello.v_min p <= 1 <= Hello.v_max p) as Hv
    by (unfold ok_v; rewrite andb_true_iff, !N.leb_le; lia).
  assert (ok_i = true <-> 1 <= Hello.intent p <= 5) as Hi
    by (unfold ok_i; rewrite andb_true_iff, !N.leb_le; lia).
  clearbody ok_v ok_i. destruct (negb ok_v || negb ok_i) eqn:E.
  2: { exfalso. apply R. destruct ok_v, ok_i; try done. by rewrite <-Hv, <-Hi. }
  set (reason := if negb ok_v then _ else _).
  assert (reason = "version-incompatible" \/ reason = "intent-refused") as Hr
    by (destruct ok_v; auto).
  destruct (decline_payload_ok reason Hr) as [Hd Hl].
  destruct (sign_with_valid HELLO_BACK b (Some (from hello)) (HelloBack.encode (decline_payload reason)) t n)
    as (back & -> & Hval & Hlen & Hty & Hpl & _); [done..|].
  exists back. do 3 (split; [done|]).
  intros. unfold initiator_finish. rewrite Hty, Hpl, Hd. cbn. unfold reason.
  case_decide as Hdec; [apply Hv in Hdec as ->|]; [done|].
  destruct ok_v; [exfalso; by apply Hdec, Hv|done].
Qed.

(** The responder establishes the session exactly on a [Confirm] whose
    payload is the transcript MAC under the session key. *)
Lemma responder_finish_ok `{Crypto, Ecies} pd env s
    (F : blen (payload env) < u64_size)
    (L : blen (transcript_mac (pend_key pd) (pend_hello_bytes pd) (pend_helloback_bytes pd)) = 32) :
  responder_finish pd env = NOk s <->
  message_type env = CONFIRM /\
  payload env = Confirm.encode {| Confirm.proof :=
    transcript_mac (pend_key pd) (pend_hello_bytes pd) (pend_helloback_bytes pd) |} /\
  Intent.from_u8 (Hello.intent (pend_hello pd)) = Some (intent s) /\
  session_key s = pend_key pd /\ peer_side s = pend_from pd /\
  peer_capabilities s = Hello.capabilities (pend_hello pd).
Proof.
  unfold responder_finish. rewrite nresult_bind_ok. setoid_rewrite nensure_ok. split.
  - intros (_ & Ht & HK). to_prop. apply nresult_bind_ok in HK as (c & Hc%core_ok & HK).
    apply nresult_bind_ok in HK as (u & Hm%nensure_ok & HK). to_prop.
    apply (decode_exact Confirm.encode Confirm.fields Confirm.wf) in Hc as [_ Hc]; [|apply _|done].
    destruct (Intent.from_u8 _) as [i|]; [|done]. injection HK as <-.
    split_and!; try done. rewrite Hc, <-Hm. by destruct c.
  - intros (Ht & Hp & Hi & Hk & Hf & Hc). exists tt. rewrite N.eqb_eq. split; [done|].
    apply nresult_bind_ok. eexists. rewrite core_ok. split.
    { apply (decode_exact Confirm.encode Confirm.fields Confirm.wf); [apply _|done|]. by split; [|exact Hp]. }
    apply nresult_bind_ok. exists tt. cbn [Confirm.proof]. rewrite nensure_ok, bool_decide_eq_true.
    split; [done|]. rewrite Hi. cbn. destruct s. cbn in *. by subst.
Qed.

Lemma initiator_finish_accept `{CryptoLaws, !Ecies, !EciesLaws} a i ea hello back eb t n :
  message_type back = HELLO_BACK -> payload back = HelloBack.encode (accept_payload eb) ->
  blen (from back) = PUBLIC_KEY_LEN -> t < u64_size -> blen n = NONCE_LEN ->
  let h1 := to_wire_bytes hello in
  let h2 := to_wire_bytes back in
  let key := derive_session_key ea (x_public eb) h1 h2 in
  exists confirm,
    initiator_finish a i ea hello back t n =
      NOk (confirm, {| session_key := key; peer_side := from back; intent := i;
                       peer_capabilities := local_capabilities |}) /\
    valid confirm /\ blen (to_wire_bytes confirm) <= MAX_ENVELOPE_LEN /\
    message_type confirm = CONFIRM /\
    payload confirm = Confirm.encode {| Confirm.proof := transcript_mac key h1 h2 |}.
Proof.
  intros Ht Hp Hf Hts Hn h1 h2 key. destruct (accept_payload_ok eb) as [Hd _].
  destruct (confirm_payload_ok key h1 h2) as [_ Hl].
  destruct (sign_with_valid CONFIRM a (Some (from back))
    (Confirm.encode {| Confirm.proof := transcript_mac key h1 h2 |}) t n)
    as (confirm & Hs & Hval & Hlen & Hty & Hpl & _); [done..|].
  exists confirm. split; [|done]. unfold initiator_finish. rewrite Ht, Hp, Hd.
  cbn [nensure core mbind nresult_bind N.eqb HELLO_BACK Pos.eqb accept_payload
       HelloBack.accept HelloBack.v HelloBack.eph_pub HelloBack.capabilities].
  fold h1 h2. fold key. by rewrite Hs.
Qed.

(** The run of two honest nodes, message by message: each is accepted by the
    peer, and the two sessions agree. *)
Lemma handshake_run `{CryptoLaws, !Ecies, !EciesLaws} a b i peer ea eb ta na tb nb tc nc
    (P : from_option (fun s => blen s = PUBLIC_KEY_LEN) True peer)
    (Ta : ta < u64_size) (Tb : tb < u64_size) (Tc : tc < u64_size)
    (Na : blen na = NONCE_LEN) (Nb : blen nb = NONCE_LEN) (Nc : blen nc = NONCE_LEN) :
  exists hello w1 back pd w2 confirm w3 sa sb,
    initiator_hello a i peer ea ta na = NOk hello /\
    send_envelope hello = NOk w1 /\ recv_envelope w1 = NOk (hello, []) /\
    responder_reply b hello eb tb nb = NOk (Accepted back pd) /\
    send_envelope back = NOk w2 /\ recv_envelope w2 = NOk (back, []) /\
    initiator_finish a i ea hello back tc nc = NOk (confirm, sa) /\
    send_envelope confirm = NOk w3 /\ recv_envelope w3 = NOk (confirm, []) /\
    responder_finish pd confirm = NOk sb /\
    session_key sa = session_key sb /\ intent sa = i /\ intent sb = i /\
    peer_side sa = public_bytes b /\ peer_side sb = public_bytes a.
Proof.
  assert (forall e, valid e -> blen (to_wire_bytes e) <= MAX_ENVELOPE_LEN ->
    send_envelope e = NOk (frame e) /\ recv_envelope (frame e) = NOk (e, [])) as Htx.
  { intros e Hv Hl. split; [by apply send_envelope_frame|]. apply recv_envelope_ok.
    by rewrite app_nil_r. }
  destruct (hello_payload_ok i ea) as [Hhd Hhl].
  destruct (sign_with_valid HELLO a peer (Hello.encode (hello_payload i ea)) ta na)
    as (hello & Hh & Hhv & Hhlen & Hhty & Hhpl & Hhf); [done..|].
  destruct (accept_payload_ok eb) as [Hbd Hbl].
  assert (blen (from hello) = PUBLIC_KEY_LEN) as Hfrom by (rewrite Hhf; apply ed_public_length).
  destruct (sign_with_valid HELLO_BACK b (Some (from hello)) (HelloBack.encode (accept_payload eb)) tb nb)
    as (back & Hb & Hbv & Hblen & Hbty & Hbpl & Hbf); [done..|].
  destruct (initiator_finish_accept a i ea hello back eb tc nc)
    as (confirm & Hf & Hcv & Hclen & Hcty & Hcpl); [done| |rewrite Hbf; apply ed_public_length|done..|].
  { done. }
  destruct (intent_u8 i) as (Hi5 & Hi1 & Hi).
  destruct (confirm_payload_ok (derive_session_key ea (x_public eb) (to_wire_bytes hello)
    (to_wire_bytes back)) (to_wire_bytes hello) (to_wire_bytes back)) as [Hcd _].
  destruct (Htx hello Hhv Hhlen), (Htx back Hbv Hblen), (Htx confirm Hcv Hclen).
  exists hello, (frame hello), back. do 2 eexists. exists confirm, (frame confirm). do 2 eexists.
  split; [unfold initiator_hello; by rewrite Hh|]. do 2 (split; [done|]). split.
  { unfold responder_reply. rewrite Hhty, Hhpl, Hhd.
    cbn [nensure core mbind nresult_bind N.eqb HELLO Pos.eqb hello_payload
         Hello.v_min Hello.v_max Hello.intent].
    rewrite (proj2 (N.leb_le 1 (Intent.as_u8 i))), (proj2 (N.leb_le (Intent.as_u8 i) 5)) by done.
    cbn [N.leb N.compare Pos.compare Pos.compare_cont andb negb orb]. rewrite Hb. reflexivity. }
  do 2 (split; [done|]). split; [exact Hf|]. do 2 (split; [done|]). split.
  { unfold responder_finish. cbn [pend_hello pend_from pend_key pend_hello_bytes pend_helloback_bytes].
    rewrite Hcty, Hcpl, Hcd.
    cbn [nensure core mbind nresult_bind N.eqb CONFIRM Pos.eqb Confirm.proof hello_payload
         Hello.eph_pub Hello.intent Hello.capabilities].
    unfold derive_session_key. rewrite (x_dh_commutes ea eb), bool_decide_eq_true_2 by done.
    cbn [nensure mbind nresult_bind]. rewrite Hi. reflexivity. }
  cbn [session_key intent peer_side]. unfold derive_session_key. rewrite (x_dh_commutes ea eb).
  by rewrite Hbf, Hhf.
Qed.

(** ** Concrete instances *)

Module SessionExamples.
Import Toy ToyEcies.

Definition n1 : bytes := replicate 16 Byte.x01.
Definition n2 : bytes := replicate 16 Byte.x02.

(** An envelope of [Toy.side]. *)
Definition env (t : N) (pl : bytes) : Envelope :=
  let u := encode_unsigned 1 t (public_bytes side) None 1700000000 n1 pl in
  {| version := 1; message_type := t; from := public_bytes side; to := None;
     timestamp := 1700000000; nonce := n1; payload := pl; sig := side_sign side (blake3 u) |}.

Definition hello_env : Envelope := env HELLO (Hello.encode (hello_payload Intent.Storage n1)).

Lemma valid_of_wire e :
  blen (to_wire_bytes e) < u64_size -> from_wire_bytes (to_wire_bytes e) = Ok e -> valid e.
Proof. intros F E. by apply from_wire_valid in E as [? _]. Qed.

Lemma framing_roundtrip_witness :
  let e1 := env 0x20 (as_bytes "a") in
  let e2 := env 0x21 (as_bytes "b") in
  recv_all 2 ((frame e1 ++ frame e2) ++ [Byte.xff]) = NOk ([e1; e2], [Byte.xff]).
Proof.
  intros e1 e2. apply (framing_roundtrip [e1; e2]); [|vm_compute; reflexivity].
  repeat constructor; apply valid_of_wire; vm_compute; reflexivity.
Defined.

End SessionExamples.
