(* ===== verification/Connection.v ===== *)
(** The handshake as the two programs that run it: [run_initiator_inner] and
    [run_responder_inner] of [sidevers-net/src/handshake.rs], each on the byte
    stream it reads and with the bytes it writes, composed of the steps of
    [Session]. The ten-second timeout around them and the session's connection
    handle are left out; ephemeral secrets, clock and nonces are arguments. *)

From S2P Require Import Prelude Utf8 Cbor CborCodec CborValue TextMap Keys Envelope Payload Handshake Session.

Open Scope N_scope.

(** A program on one bidirectional stream: from the bytes it can read to the
    bytes it writes, also when it fails, and its outcome with the input left. *)
Definition Io (A : Type) : Type := bytes -> bytes * nresult (A * bytes).

#[export] Instance io_ret : MRet Io := fun _ a s => ([], NOk (a, s)).
#[export] Instance io_bind : MBind Io := fun _ _ k m s =>
  let '(w, r) := m s in
  match r with
  | NOk (a, s) => let '(w', r) := k a s in (w ++ w', r)
  | NErr e => (w, NErr e)
  end.

Definition io {A} (m : nresult A) : Io A := fun s => ([], a ← m; NOk (a, s)).

(** [send_envelope(&mut send, &env).await?] *)
Definition send (env : Envelope) : Io unit := fun s =>
  match send_envelope env with
  | NOk bs => (bs, NOk (tt, s))
  | NErr e => ([], NErr e)
  end.

Section Programs.
Context `{Crypto, Ecies}.

(** [recv_envelope(&mut recv).await?] *)
Definition recv : Io Envelope := fun s => ([], recv_envelope s).

Definition run_initiator_inner (my_side : SideKey) (intent : Intent.t)
    (expected_peer_side : option bytes) (eph_secret : bytes)
    (now : N) (nonce : bytes) (now' : N) (nonce' : bytes) : Io Session :=
  hello_env ← io (initiator_hello my_side intent expected_peer_side eph_secret now nonce);
  _ ← send hello_env;
  helloback_env ← recv;
  '(confirm_env, session) ← io (initiator_finish my_side intent eph_secret hello_env helloback_env
                                  now' nonce');
  _ ← send confirm_env;
  mret session.

Definition run_responder_inner (my_side : SideKey) (my_eph : bytes) (now : N) (nonce : bytes)
    : Io Session :=
  hello_env ← recv;
  reply ← io (responder_reply my_side hello_env my_eph now nonce);
  match reply with
  | Declined env =>
      _ ← send env;
      io (NErr (HandshakeDeclined "local refusal"))
  | Accepted helloback_env pending =>
      _ ← send helloback_env;
      confirm_env ← recv;
      io (responder_finish pending confirm_env)
  end.

End Programs.

(** ** Lemmas *)

Lemma io_bind_ok {A B} (m : Io A) (k : A -> Io B) s w b s2 :
  (x ← m; k x) s = (w, NOk (b, s2)) <->
  exists w1 a s1 w2, m s = (w1, NOk (a, s1)) /\ k a s1 = (w2, NOk (b, s2)) /\ w = w1 ++ w2.
Proof.
  unfold mbind, io_bind. destruct (m s) as [w1 [[a s1]|e]]; [destruct (k a s1) as [w2 r] eqn:E|]; split.
  - intros [= <- ->]. by exists w1, a, s1, w2.
  - intros (? & ? & ? & ? & [= <- <- <-] & Hk & ->). rewrite E in Hk. by injection Hk as <- ->.
  - done.
  - by intros (? & ? & ? & ? & [=] & _).
Qed.

Lemma io_ok {A} (m : nresult A) s w a s' :
  io m s = (w, NOk (a, s')) <-> m = NOk a /\ w = [] /\ s' = s.
Proof. unfold io. destruct m; cbn; naive_solver. Qed.

Lemma send_ok env s w u s' :
  send env s = (w, NOk (u, s')) <-> send_envelope env = NOk w /\ s' = s.
Proof. unfold send. destruct u, (send_envelope env); naive_solver. Qed.

Lemma recv_ok `{Crypto} s w env s' :
  recv s = (w, NOk (env, s')) <-> recv_envelope s = NOk (env, s') /\ w = [].
Proof. unfold recv. split; [by intros [= <- ->]|by intros [-> ->]]. Qed.

Lemma io_ret_ok {A} (a b : A) s w s' :
  mret (M := Io) a s = (w, NOk (b, s')) <-> a = b /\ w = [] /\ s' = s.
Proof. cbv [mret io_ret]. naive_solver. Qed.

Lemma send_envelope_ok e w :
  send_envelope e = NOk w <-> blen (to_wire_bytes e) <= MAX_ENVELOPE_LEN /\ w = frame e.
Proof.
  destruct (N.leb_spec (blen (to_wire_bytes e)) MAX_ENVELOPE_LEN) as [Hl|Hl].
  - rewrite send_envelope_frame by done. naive_solver.
  - unfold send_envelope. rewrite (proj2 (N.ltb_lt _ _)) by done.
    split; [done|]. intros [? _]. lia.
Qed.

(** What a run that returns a session did. *)
Lemma run_initiator_inv `{Crypto, Ecies} a i peer ea t n t' n' s w sess rest :
  run_initiator_inner a i peer ea t n t' n' s = (w, NOk (sess, rest)) <->
  exists hello w1 back confirm w2,
    initiator_hello a i peer ea t n = NOk hello /\ send_envelope hello = NOk w1 /\
    recv_envelope s = NOk (back, rest) /\
    initiator_finish a i ea hello back t' n' = NOk (confirm, sess) /\
    send_envelope confirm = NOk w2 /\ w = w1 ++ w2.
Proof.
  unfold run_initiator_inner. rewrite io_bind_ok. setoid_rewrite io_ok.
  setoid_rewrite io_bind_ok. setoid_rewrite send_ok. setoid_rewrite io_bind_ok.
  setoid_rewrite recv_ok. setoid_rewrite io_bind_ok. setoid_rewrite io_ok. split.
  - intros (? & hello & ? & ? & (Hh & -> & ->) & (w1 & u & ? & ? & (Hw1 & ->) &
      (? & back & ? & ? & (Hb & ->) & (? & [confirm sess'] & ? & ? & (Hf & -> & ->) & Hk & ->) & ->)
      & ->) & ->).
    apply io_bind_ok in Hk as (w2 & u2 & ? & ? & [Hw2 ->]%send_ok & [-> [-> ->]]%io_ret_ok & ->).
    exists hello, w1, back, confirm, w2. rewrite app_nil_r. split_and!; done.
  - intros (hello & w1 & back & confirm & w2 & Hh & Hw1 & Hb & Hf & Hw2 & ->).
    exists [], hello, s, (w1 ++ w2). split_and!; try done.
    exists w1, tt, s, w2. split_and!; try done.
    exists [], back, rest, w2. split_and!; try done.
    exists [], (confirm, sess), rest, w2. split_and!; try done.
    apply io_bind_ok. exists w2, tt, rest, []. rewrite send_ok, app_nil_r. split_and!; done.
Qed.

Lemma run_responder_inv `{Crypto, Ecies} b eb t n s w sess rest :
  run_responder_inner b eb t n s = (w, NOk (sess, rest)) <->
  exists hello s1 back pd confirm,
    recv_envelope s = NOk (hello, s1) /\
    responder_reply b hello eb t n = NOk (Accepted back pd) /\
    send_envelope back = NOk w /\ recv_envelope s1 = NOk (confirm, rest) /\
    responder_finish pd confirm = NOk sess.
Proof.
  unfold run_responder_inner. rewrite io_bind_ok. setoid_rewrite recv_ok.
  setoid_rewrite io_bind_ok. setoid_rewrite io_ok. split.
  - intros (? & hello & s1 & ? & (Hh & ->) & (? & [back|back pd] & ? & ? & (Hr & -> & ->) & Hk & ->) & ->).
    + apply io_bind_ok in Hk as (? & ? & ? & ? & _ & [[=] _]%io_ok & _).
    + apply io_bind_ok in Hk as (w1 & u & ? & ? & [Hw ->]%send_ok & Hk & ->).
      apply io_bind_ok in Hk as (? & confirm & ? & ? & [Hc ->]%recv_ok & (Hf & -> & ->)%io_ok & ->).
      exists hello, s1, back, pd, confirm. cbn. rewrite app_nil_r. done.
  - intros (hello & s1 & back & pd & confirm & Hh & Hr & Hw & Hc & Hf).
    exists [], hello, s1, w. split_and!; try done.
    exists [], (Accepted back pd), s1, w. split_and!; try done.
    apply io_bind_ok. exists w, tt, s1, []. rewrite send_ok, app_nil_r. split_and!; try done.
    apply io_bind_ok. exists [], confirm, rest, []. rewrite recv_ok, io_ok. done.
Qed.

Lemma responder_reply_accepted `{Crypto, Ecies} b hello eb t n back pd :
  responder_reply b hello eb t n = NOk (Accepted back pd) <->
  exists p, message_type hello = HELLO /\ Hello.decode (payload hello) = Ok p /\
    Hello.v_min p <= 1 <= Hello.v_max p /\ 1 <= Hello.intent p <= 5 /\
    sign_with HELLO_BACK b (Some (from hello)) (HelloBack.encode (accept_payload eb)) t n = Ok back /\
    pd = {| pend_hello := p; pend_from := from hello;
            pend_key := derive_session_key eb (Hello.eph_pub p) (to_wire_bytes hello) (to_wire_bytes back);
            pend_hello_bytes := to_wire_bytes hello; pend_helloback_bytes := to_wire_bytes back |}.
Proof.
  unfold responder_reply. rewrite nresult_bind_ok. setoid_rewrite nensure_ok. setoid_rewrite N.eqb_eq.
  split.
  - intros (_ & Ht & Hk). apply nresult_bind_ok in Hk as (p & Hp%core_ok & Hk).
    exists p. destruct (negb _ || negb _) eqn:E in Hk.
    + by apply nresult_bind_ok in Hk as (? & _ & [=]).
    + apply nresult_bind_ok in Hk as (back' & Hs%core_ok & [= -> <-]).
      apply orb_false_iff in E as [[E1 E2]%negb_false_iff%andb_true_iff [E3 E4]%negb_false_iff%andb_true_iff].
      to_prop. done.
  - intros (p & Ht & Hp & [Hv1 Hv2] & [Hi1 Hi2] & Hs & ->). exists tt. split; [done|].
    apply nresult_bind_ok. exists p. split; [by apply core_ok|].
    apply N.leb_le in Hv1 as ->, Hv2 as ->, Hi1 as ->, Hi2 as ->. cbn [andb negb orb].
    apply nresult_bind_ok. exists back. by rewrite core_ok.
Qed.

Lemma initiator_finish_ok `{Crypto, Ecies} a i ea hello back t n confirm sess :
  initiator_finish a i ea hello back t n = NOk (confirm, sess) <->
  exists p, message_type back = HELLO_BACK /\ HelloBack.decode (payload back) = Ok p /\
    HelloBack.accept p = true /\ HelloBack.v p = 1 /\
    sess = {| session_key := derive_session_key ea (HelloBack.eph_pub p) (to_wire_bytes hello)
                               (to_wire_bytes back);
              peer_side := from back; intent := i; peer_capabilities := HelloBack.capabilities p |} /\
    sign_with CONFIRM a (Some (from back))
      (Confirm.encode {| Confirm.proof := transcript_mac (session_key sess) (to_wire_bytes hello)
                                            (to_wire_bytes back) |}) t n = Ok confirm.
Proof.
  unfold initiator_finish. rewrite nresult_bind_ok. setoid_rewrite nensure_ok. setoid_rewrite N.eqb_eq.
  split.
  - intros (_ & Ht & Hk). apply nresult_bind_ok in Hk as (p & Hp%core_ok & Hk).
    apply nresult_bind_ok in Hk as (u & Ha%nensure_ok & Hk).
    apply nresult_bind_ok in Hk as (u' & Hv%nensure_ok & Hk).
    apply nresult_bind_ok in Hk as (c & Hs%core_ok & [= -> <-]). to_prop. by exists p.
  - intros (p & Ht & Hp & Ha & Hv & -> & Hs). exists tt. split; [done|].
    apply nresult_bind_ok. exists p. split; [by apply core_ok|].
    apply nresult_bind_ok. exists tt. split; [by apply nensure_ok|].
    apply nresult_bind_ok. exists tt. rewrite nensure_ok, N.eqb_eq. split; [done|].
    apply nresult_bind_ok. exists confirm. by rewrite core_ok.
Qed.

(** ** Properties *)

(** C2: two honest nodes run against each other complete the handshake: each
    reads exactly what the other writes, both end with a session, the two
    sessions have the same key and intent, and each names the other's side. *)
Theorem handshake_agreement `{CryptoLaws, !Ecies, !EciesLaws} a b i peer ea eb ta na tb nb tc nc
    (P : from_option (fun s => blen s = PUBLIC_KEY_LEN) True peer)
    (Ta : ta < u64_size) (Tb : tb < u64_size) (Tc : tc < u64_size)
    (Na : blen na = NONCE_LEN) (Nb : blen nb = NONCE_LEN) (Nc : blen nc = NONCE_LEN) :
  exists wi wr sa sb,
    run_initiator_inner a i peer ea ta na tc nc wr = (wi, NOk (sa, [])) /\
    run_responder_inner b eb tb nb wi = (wr, NOk (sb, [])) /\
    session_key sa = session_key sb /\ intent sa = i /\ intent sb = i /\
    peer_side sa = public_bytes b /\ peer_side sb = public_bytes a.
Proof.
  destruct (handshake_run a b i peer ea eb ta na tb nb tc nc)
    as (hello & w1 & back & pd & w2 & confirm & w3 & sa & sb & Hh & Hw1 & Rw1 & Hr & Hw2 & Rw2 & Hf
        & Hw3 & Rw3 & Hsb & Hagree); [done..|].
  exists (w1 ++ w3), w2, sa, sb. split; [|split]; [..|done].
  - apply run_initiator_inv. by exists hello, w1, back, confirm, w3.
  - apply run_responder_inv. exists hello, w3, back, pd, confirm. split; [|done].
    apply recv_envelope_ok in Rw1 as (? & ? & ->). apply recv_envelope_ok. by rewrite app_nil_r.
Qed.

(** C18: the responder ends with a session exactly when its input is a signed
    [Hello] it can serve, then a signed [Confirm] carrying the MAC, under the
    session key, of the two messages exchanged; the session's peer is the
    signer of the [Hello], and the key is the one both messages determine. *)
Theorem responder_exact `{CryptoLaws, !Ecies} b eb t n s w sess rest :
  run_responder_inner b eb t n s = (w, NOk (sess, rest)) <->
  exists hello p back confirm,
    let h1 := to_wire_bytes hello in
    let h2 := to_wire_bytes back in
    s = frame hello ++ frame confirm ++ rest /\
    (valid hello /\ blen h1 <= MAX_ENVELOPE_LEN /\ message_type hello = HELLO) /\
    (Hello.decode (payload hello) = Ok p /\ Hello.v_min p <= 1 <= Hello.v_max p /\
     Intent.from_u8 (Hello.intent p) = Some (intent sess)) /\
    (sign_with HELLO_BACK b (Some (from hello)) (HelloBack.encode (accept_payload eb)) t n = Ok back /\
     blen h2 <= MAX_ENVELOPE_LEN /\ w = frame back) /\
    (valid confirm /\ blen (to_wire_bytes confirm) <= MAX_ENVELOPE_LEN /\
     message_type confirm = CONFIRM /\
     payload confirm = Confirm.encode {| Confirm.proof := transcript_mac (session_key sess) h1 h2 |}) /\
    session_key sess = derive_session_key eb (Hello.eph_pub p) h1 h2 /\
    peer_side sess = from hello /\ peer_capabilities sess = Hello.capabilities p.
Proof.
  rewrite run_responder_inv. setoid_rewrite recv_envelope_ok. setoid_rewrite responder_reply_accepted.
  setoid_rewrite send_envelope_ok. split.
  - intros (hello & s1 & back & pd & confirm & (Hv & Hl & ->) & (p & Ht & Hp & Hvn & Hi & Hs & ->)
      & (Hl2 & ->) & (Hcv & Hcl & ->) & Hf). exists hello, p, back, confirm.
    assert (blen (payload confirm) < u64_size) as Hb by apply Hcv.
    apply responder_finish_ok in Hf as (Hct & Hcp & Hfi & Hk & Hps & Hcaps); [|done|apply blake3_keyed_length].
    cbn [pend_hello pend_from pend_key pend_hello_bytes pend_helloback_bytes] in *.
    rewrite <-Hk in Hcp. split_and!; try done; apply Hvn.
  - intros (hello & p & back & confirm & -> & (Hv & Hl & Ht) & (Hp & Hvn & Hfi) & (Hs & Hl2 & ->)
      & (Hcv & Hcl & Hct & Hcp) & Hk & Hps & Hcaps).
    exists hello, (frame confirm ++ rest), back. eexists. exists confirm.
    assert (1 <= Hello.intent p <= 5) as Hi.
    { clear -Hfi. unfold Intent.from_u8 in Hfi.
      destruct (Hello.intent p) as [|[[[]|[]|]|[[]|[]|]|]]; try done; lia. }
    split; [done|]. split. { exists p. split_and!; try done; try apply Hvn; apply Hi. }
    split; [done|]. split; [done|].
    assert (blen (payload confirm) < u64_size) as Hb by apply Hcv.
    apply responder_finish_ok; [done|apply blake3_keyed_length|].
    cbn [pend_hello pend_from pend_key pend_hello_bytes pend_helloback_bytes].
    rewrite <-Hk. done.
Qed.

(** The initiator ends with a session exactly when what it reads is a
    signed [HelloBack] that accepts version 1, and what it wrote is its
    [Hello] and the [Confirm] with the transcript MAC; the session's peer is
    whoever signed that [HelloBack], whatever peer was expected. *)
Theorem initiator_exact `{Crypto, Ecies} a i peer ea t n t' n' s w sess rest :
  run_initiator_inner a i peer ea t n t' n' s = (w, NOk (sess, rest)) <->
  exists hello back p confirm,
    let h1 := to_wire_bytes hello in
    let h2 := to_wire_bytes back in
    sign_with HELLO a peer (Hello.encode (hello_payload i ea)) t n = Ok hello /\
    s = frame back ++ rest /\
    (valid back /\ blen h2 <= MAX_ENVELOPE_LEN /\ message_type back = HELLO_BACK) /\
    (HelloBack.decode (payload back) = Ok p /\ HelloBack.accept p = true /\ HelloBack.v p = 1) /\
    sess = {| session_key := derive_session_key ea (HelloBack.eph_pub p) h1 h2; peer_side := from back;
              intent := i; peer_capabilities := HelloBack.capabilities p |} /\
    sign_with CONFIRM a (Some (from back))
      (Confirm.encode {| Confirm.proof := transcript_mac (session_key sess) h1 h2 |}) t' n' = Ok confirm /\
    (blen h1 <= MAX_ENVELOPE_LEN /\ blen (to_wire_bytes confirm) <= MAX_ENVELOPE_LEN /\
     w = frame hello ++ frame confirm).
Proof.
  rewrite run_initiator_inv. unfold initiator_hello. setoid_rewrite core_ok.
  setoid_rewrite recv_envelope_ok. setoid_rewrite initiator_finish_ok. setoid_rewrite send_envelope_ok.
  split.
  - intros (hello & w1 & back & confirm & w2 & Hh & (Hl1 & ->) & (Hv & Hl & ->)
      & (p & Ht & Hp & Ha & Hv1 & -> & Hs) & (Hl2 & ->) & ->).
    exists hello, back, p, confirm. split_and!; try done; apply Hv.
  - intros (hello & back & p & confirm & Hh & -> & (Hv & Hl & Ht) & (Hp & Ha & Hv1) & -> & Hs
      & (Hl1 & Hl2 & ->)).
    exists hello, (frame hello), back, confirm, (frame confirm). split_and!; try done; try apply Hv.
    by exists p.
Qed.

(** The responder answers a [Hello] it cannot serve with one refusal and
    ends with an error; the initiator that reads the refusal stops with its
    reason, and writes no [Confirm]. *)
Theorem refusal_reaches_initiator `{CryptoLaws, !Ecies, !EciesLaws} b eb tb nb hello p s
    (V : valid hello) (L : blen (to_wire_bytes hello) <= MAX_ENVELOPE_LEN)
    (T : message_type hello = HELLO) (D : Hello.decode (payload hello) = Ok p)
    (R : ~ (Hello.v_min p <= 1 <= Hello.v_max p /\ 1 <= Hello.intent p <= 5))
    (Tb : tb < u64_size) (Nb : blen nb = NONCE_LEN) :
  exists w,
    run_responder_inner b eb tb nb (frame hello ++ s) = (w, NErr (HandshakeDeclined "local refusal")) /\
    forall a i peer ea ta na tc nc rest e w1,
      initiator_hello a i peer ea ta na = NOk e -> send_envelope e = NOk w1 ->
      run_initiator_inner a i peer ea ta na tc nc (w ++ rest) =
      (w1, NErr (HandshakeDeclined
            (if decide (Hello.v_min p <= 1 <= Hello.v_max p) then "intent-refused"
             else "version-incompatible"))).
Proof.
  destruct (responder_refuses b hello p eb tb nb) as (back & Hr & Hval & Hl & Hi); try done; [apply V|].
  exists (frame back). split.
  - unfold run_responder_inner, mbind, io_bind, recv.
    rewrite (proj2 (recv_envelope_ok (frame hello ++ s) hello s)) by done.
    cbn. unfold io, send. rewrite Hr. cbn. rewrite send_envelope_frame by done. cbn.
    by rewrite app_nil_r.
  - intros a i peer ea ta na tc nc rest e w1 He Hw.
    unfold run_initiator_inner, mbind, io_bind, io, send, recv. rewrite He. cbn. rewrite Hw.
    rewrite (proj2 (recv_envelope_ok (frame back ++ rest) back rest)) by done.
    rewrite Hi. cbn. by rewrite app_nil_r.
Qed.

(** ** Concrete instances *)

Module ConnectionExamples.
Import Toy ToyEcies SessionExamples.

Lemma handshake_agreement_witness :
  exists wi wr sa sb,
    run_initiator_inner side Intent.Verse None n1 7 n1 9 n1 wr = (wi, NOk (sa, [])) /\
    run_responder_inner side2 n2 8 n1 wi = (wr, NOk (sb, [])) /\
    session_key sa = session_key sb /\ intent sa = Intent.Verse /\ intent sb = Intent.Verse /\
    peer_side sa = public_bytes side2 /\ peer_side sb = public_bytes side.
Proof. apply handshake_agreement; done. Defined.

(** The two ends, each fed what the other writes. *)
Definition initiator (s : bytes) : bytes * nresult (Session * bytes) :=
  run_initiator_inner side Intent.Verse None n1 7 n1 9 n1 s.
Definition responder (s : bytes) : bytes * nresult (Session * bytes) :=
  run_responder_inner side2 n2 8 n1 s.

Definition hello_bytes : bytes := (initiator []).1.
Definition back_bytes : bytes := (responder hello_bytes).1.
Definition wire : bytes := (initiator back_bytes).1.

Definition responder_session : Session :=
  match (responder wire).2 with
  | NOk (s, _) => s
  | NErr _ => {| session_key := []; peer_side := []; intent := Intent.Direct; peer_capabilities := ∅ |}
  end.

Lemma responder_exact_witness :
  exists hello confirm,
    wire = frame hello ++ frame confirm ++ [] /\ valid hello /\ valid confirm /\
    peer_side responder_session = from hello.
Proof.
  destruct (proj1 (responder_exact side2 n2 8 n1 wire back_bytes responder_session []))
    as (hello & p & back & confirm & H); [vm_compute; reflexivity|].
  exists hello, confirm.
  destruct H as (Hs & (Hv & _) & _ & _ & (Hc & _) & _ & Hp & _).
  exact (conj Hs (conj Hv (conj Hc Hp))).
Defined.

(** A second [Hello] where the [Confirm] is due, and a cut stream. *)
Example broken_exchanges :
  (responder (hello_bytes ++ hello_bytes)).2 = NErr (HandshakeProtocol "expected Confirm") /\
  initiator (take 20 back_bytes) = (hello_bytes, NErr ReadExact).
Proof. split; vm_compute; reflexivity. Qed.

Definition future_hello : Envelope :=
  env HELLO (Hello.encode
    {| Hello.v_max := 3; Hello.v_min := 2; Hello.extensions := []; Hello.eph_pub := replicate 32 Byte.x01;
       Hello.intent := 1; Hello.capabilities := ∅ |}).

Lemma refusal_reaches_initiator_witness :
  exists w,
    run_responder_inner side2 n2 8 n1 (frame future_hello ++ []) =
      (w, NErr (HandshakeDeclined "local refusal")) /\
    forall a i peer ea ta na tc nc rest e w1,
      initiator_hello a i peer ea ta na = NOk e -> send_envelope e = NOk w1 ->
      run_initiator_inner a i peer ea ta na tc nc (w ++ rest) =
      (w1, NErr (HandshakeDeclined
            (if decide (2 <= 1 <= 3) then "intent-refused" else "version-incompatible"))).
Proof.
  apply (refusal_reaches_initiator side2 n2 8 n1 future_hello
    {| Hello.v_max := 3; Hello.v_min := 2; Hello.extensions := []; Hello.eph_pub := replicate 32 Byte.x01;
       Hello.intent := 1; Hello.capabilities := ∅ |} []);
    [apply valid_of_wire; vm_compute; reflexivity|vm_compute; done|vm_compute; reflexivity..| |done|done].
  cbn. lia.
Defined.

End ConnectionExamples.
