(* ===== verification/Storage.v ===== *)
(** The content-addressed store ([sidevers-storage/src]): references
    ([reference.rs]), the object store with its disk budget ([object.rs]) and
    the chunking of large objects ([chunking.rs]).

    The SQLite table is a finite map from hashes to rows, on which each SQL
    statement of the source acts as written; the blob directory is a finite
    map from hashes to file contents (the path of a blob is its hash in hex).
    Their failures are not modelled, except a missing blob file.  Each
    statement runs under the connection's lock. *)

From S2P Require Import Prelude Utf8 Cbor CborCodec CborValue Containers Keys.

Open Scope N_scope.

Definition ADDRESS_LEN : N := 32.

(** ** References *)

Module Reference.

Definition DEFAULT_DEP_DEPTH_LIMIT : nat := 64.

Inductive t := mk {
  hash : bytes;
  size : N;
  mime : string;
  hints : list bytes;
  deps : list t
}.

Definition new (hash : bytes) (size : N) (mime : string) : t := mk hash size mime [] [].

Definition encode_hints_array (hints : list bytes) : bytes := write_array bytestr hints.

Fixpoint encode (r : t) : bytes :=
  match r with
  | mk hash size mime hints deps =>
    encode_map
      [ entry "deps" (write_array encode deps);
        entry "hash" (bytestr hash);
        entry "size" (uint size);
        entry "type" (text mime);
        entry "hints" (encode_hints_array hints) ]
  end.

Definition encode_dep_array (deps : list t) : bytes := write_array encode deps.

Definition decode_hints_array : Reader (list bytes) := read_array (read_fixed_bytes "hint" 32).

(** [decode_inner(r, depth)]; [fuel] is [DEFAULT_DEP_DEPTH_LIMIT + 1 - depth],
    so the fuel runs out exactly where the source's check fails. *)
Fixpoint decode_inner (fuel : nat) : Reader t :=
  match fuel with
  | O => fail (Error.Invariant "reference depth limit exceeded")
  | S fuel' =>
    let e := "Reference keys not in canonical order" in
    _ ← expect_map 5 "Reference expected 5 keys, got {n}";
    _ ← expect_key "deps" e;
    ds ← read_array (decode_inner fuel');
    _ ← expect_key "hash" e;
    h ← read_fixed_bytes "hash" ADDRESS_LEN;
    _ ← expect_key "size" e;
    sz ← read_u64;
    _ ← expect_key "type" e;
    m ← read_text;
    _ ← expect_key "hints" e;
    hs ← decode_hints_array;
    mret (mk h sz m hs ds)
  end.

(** No trailing-bytes check. *)
Definition decode (bs : bytes) : result t :=
  decode_with (decode_inner (S DEFAULT_DEP_DEPTH_LIMIT)) bs.

(** Well-formed references with at most [fuel] levels. *)
Fixpoint wf (fuel : nat) (r : t) : Prop :=
  match fuel with
  | O => False
  | S fuel' =>
    (Forall (wf fuel') (deps r) /\ N.of_nat (length (deps r)) <= MAX_CBOR_ENTRIES) /\
    blen (hash r) = ADDRESS_LEN /\ size r < u64_size /\ wf_text (mime r) /\
    Forall (fun h => blen h = 32) (hints r) /\ N.of_nat (length (hints r)) <= MAX_CBOR_ENTRIES
  end.

End Reference.

(** ** The object store *)

Inductive storage_error :=
| Io
| HashMismatch (expected got : string)
| RangeOutOfBounds (start end_ size : N)
| CoreError (e : Error.t).

Inductive sresult (A : Type) := SOk (a : A) | SErr (e : storage_error).
Arguments SOk {A} a.
Arguments SErr {A} e.

Module Objects.

Definition INLINE_MAX : N := 4096.

Record Row := {
  size : N;
  inline : option bytes;
  pinned : bool;
  added_at : N;
  last_accessed : N
}.

Record Store := { rows : gmap bytes Row; blobs : gmap bytes bytes; max_bytes : N }.

Definition open : Store := {| rows := ∅; blobs := ∅; max_bytes := 0 |}.

Definition set_max_bytes (n : N) (s : Store) : Store :=
  {| rows := rows s; blobs := blobs s; max_bytes := n |}.

Definition with_rows (r : gmap bytes Row) (s : Store) : Store :=
  {| rows := r; blobs := blobs s; max_bytes := max_bytes s |}.

(** [SELECT COALESCE(SUM(size), 0) FROM objects]. *)
Definition total_bytes (s : Store) : N := map_fold (fun _ r n => size r + n) 0 (rows s).

(** [INSERT OR IGNORE INTO objects .. VALUES ..]. *)
Definition insert_or_ignore (h : bytes) (r : Row) (m : gmap bytes Row) : gmap bytes Row :=
  match m !! h with Some _ => m | None => <[h := r]> m end.

Definition evict_one (h : bytes) (s : Store) : Store :=
  {| rows := delete h (rows s); blobs := delete h (blobs s); max_bytes := max_bytes s |}.

Definition has (h : bytes) (s : Store) : bool := bool_decide (is_Some (rows s !! h)).

Definition object_size (h : bytes) (s : Store) : option N := size <$> rows s !! h.

Definition set_pinned (b : bool) (r : Row) : Row :=
  {| size := size r; inline := inline r; pinned := b; added_at := added_at r;
     last_accessed := last_accessed r |}.
Definition pin (h : bytes) (s : Store) : Store := with_rows (alter (set_pinned true) h (rows s)) s.
Definition unpin (h : bytes) (s : Store) : Store := with_rows (alter (set_pinned false) h (rows s)) s.

(** [UPDATE objects SET last_accessed = ? WHERE hash = ?]. *)
Definition set_accessed (now : N) (r : Row) : Row :=
  {| size := size r; inline := inline r; pinned := pinned r; added_at := added_at r;
     last_accessed := now |}.
Definition touch_last_accessed (h : bytes) (now : N) (s : Store) : Store :=
  with_rows (alter (set_accessed now) h (rows s)) s.

(** The order [last_accessed ASC, added_at ASC] of two rows. *)
Definition older (a b : bytes * Row) : Prop :=
  last_accessed (snd a) < last_accessed (snd b) \/
  (last_accessed (snd a) = last_accessed (snd b) /\ added_at (snd a) <= added_at (snd b)).

#[export] Instance older_dec a b : Decision (older a b).
Proof. unfold older. apply _. Defined.

(** [for (hash, size) in candidates { .. }]. *)
Fixpoint evict_loop (candidates : list (bytes * Row)) (bytes_to_drop : N) (count bs : N) (s : Store)
    : (N * N) * Store :=
  match candidates with
  | [] => ((count, bs), s)
  | (h, r) :: rest =>
    if bytes_to_drop =? 0 then ((count, bs), s)
    else evict_loop rest (bytes_to_drop - size r) (count + 1) (bs + size r) (evict_one h s)
  end.

(** [SELECT hash, size FROM objects WHERE pinned = 0 ORDER BY ..]. *)
Definition candidates `{HashIter} (s : Store) : list (bytes * Row) :=
  merge_sort older (List.filter (fun hr => negb (pinned (snd hr))) (hiter (rows s))).

Definition evict_to_budget `{HashIter} (s : Store) : (N * N) * Store :=
  if max_bytes s =? 0 then ((0, 0), s)
  else if total_bytes s <=? max_bytes s then ((0, 0), s)
  else evict_loop (candidates s) (total_bytes s - max_bytes s) 0 0 s.

Section Hashed.
Context `{Crypto}.

Definition put (bs : bytes) (now : N) (s : Store) : bytes * Store :=
  let h := blake3 bs in
  let row i := {| size := blen bs; inline := i; pinned := false; added_at := now;
                  last_accessed := now |} in
  if blen bs <=? INLINE_MAX then
    (h, with_rows (insert_or_ignore h (row (Some bs)) (rows s)) s)
  else
    (h, {| rows := insert_or_ignore h (row None) (rows s);
           blobs := <[h := bs]> (blobs s); max_bytes := max_bytes s |}).

Definition verify_hash (bs expected : bytes) : sresult unit :=
  if bool_decide (blake3 bs = expected) then SOk tt
  else SErr (HashMismatch "{expected}" "{got}").

Definition get (h : bytes) (now : N) (s : Store) : sresult (option bytes) * Store :=
  match rows s !! h with
  | None => (SOk None, s)
  | Some r =>
    match (match inline r with Some b => Some b | None => blobs s !! h end) with
    | None => (SErr Io, s)
    | Some b =>
      match verify_hash b h with
      | SErr e => (SErr e, s)
      | SOk _ => (SOk (Some b), touch_last_accessed h now s)
      end
    end
  end.

Definition get_range (h : bytes) (start end_ : N) (now : N) (s : Store)
    : sresult (option bytes) * Store :=
  match get h now s with
  | (SOk (Some whole), s') =>
    if (end_ <? start) || (blen whole <? end_) then
      (SErr (RangeOutOfBounds start end_ (blen whole)), s')
    else (SOk (Some (take (N.to_nat (end_ - start)) (drop (N.to_nat start) whole))), s')
  | (SOk None, s') => (SOk None, s')
  | (SErr e, s') => (SErr e, s')
  end.

End Hashed.

End Objects.

(** ** Chunking *)

Module Chunking.
Import Objects.

Definition CHUNK_MAX : N := 256 * 1024.
Definition MANIFEST_MIME : string := "application/sidevers.chunk-manifest+cbor".
Definition CHUNK_MIME : string := "application/sidevers.chunk+binary".
Definition SINGLE_MIME : string := "application/octet-stream".

Definition encode_manifest (total_size : N) (chunks : list bytes) : bytes :=
  encode_map [ entry "chunks" (write_array bytestr chunks); entry "total_size" (uint total_size) ].

Definition manifest_fields : Reader (N * list bytes) :=
  _ ← expect_map 2 "chunk manifest expected 2 keys, got {n}";
  _ ← expect_key "chunks" "chunk manifest: key order";
  cs ← read_array (read_fixed_bytes "chunk.hash" ADDRESS_LEN);
  _ ← expect_key "total_size" "chunk manifest: key order";
  n ← read_u64;
  mret (n, cs).

Definition decode_manifest (bs : bytes) : result (N * list bytes) :=
  decode_with (m ← manifest_fields;
               _ ← check_end (Error.CborDecode "trailing bytes after manifest"); mret m) bs.

(** [bytes.chunks(n)] for [0 < n]; every round takes at least one byte. *)
Fixpoint chunks (fuel n : nat) (bs : bytes) : list bytes :=
  match fuel, bs with
  | _, [] | O, _ => []
  | S fuel', _ => take n bs :: chunks fuel' n (drop n bs)
  end.

Definition split (bs : bytes) : list bytes := chunks (length bs) (N.to_nat CHUNK_MAX) bs.

Section Store.
Context `{Crypto}.

(** [for chunk in bytes.chunks(CHUNK_MAX) { .. }]. *)
Fixpoint put_chunks (cs : list bytes) (now : N) (s : Store)
    : (list Reference.t * list bytes) * Store :=
  match cs with
  | [] => (([], []), s)
  | c :: cs =>
    let '(h, s) := put c now s in
    let '((refs, hs), s) := put_chunks cs now s in
    ((Reference.new h (blen c) CHUNK_MIME :: refs, h :: hs), s)
  end.

Definition put_chunked (bs : bytes) (now : N) (s : Store) : Reference.t * Store :=
  let total_size := blen bs in
  if blen bs <=? CHUNK_MAX then
    let '(h, s) := put bs now s in (Reference.new h total_size SINGLE_MIME, s)
  else
    let '((chunk_refs, chunk_hashes), s) := put_chunks (split bs) now s in
    let manifest_bytes := encode_manifest total_size chunk_hashes in
    let '(manifest_hash, s) := put manifest_bytes now s in
    (Reference.mk manifest_hash total_size MANIFEST_MIME [] chunk_refs, s).

(** [store.get(h).await?.ok_or(HashMismatch { .. })?]. *)
Definition fetch (missing : string) (h : bytes) (now : N) (s : Store) : sresult bytes * Store :=
  match get h now s with
  | (SOk (Some b), s') => (SOk b, s')
  | (SOk None, s') => (SErr (HashMismatch "{expected}" missing), s')
  | (SErr e, s') => (SErr e, s')
  end.

(** [for h in chunk_hashes { .. out.extend_from_slice(&piece) }]. *)
Fixpoint fetch_chunks (hs : list bytes) (now : N) (out : bytes) (s : Store) : sresult bytes * Store :=
  match hs with
  | [] => (SOk out, s)
  | h :: hs =>
    match fetch "(missing chunk)" h now s with
    | (SOk piece, s') => fetch_chunks hs now (out ++ piece) s'
    | (SErr e, s') => (SErr e, s')
    end
  end.

(** A disagreement between the manifest's size and the reference's is only
    logged. *)
Definition get_chunked (r : Reference.t) (now : N) (s : Store) : sresult bytes * Store :=
  if negb (String.eqb (Reference.mime r) MANIFEST_MIME) then
    fetch "(missing)" (Reference.hash r) now s
  else
    match fetch "(missing manifest)" (Reference.hash r) now s with
    | (SErr e, s) => (SErr e, s)
    | (SOk manifest_bytes, s) =>
      match decode_manifest manifest_bytes with
      | Err e => (SErr (CoreError e), s)
      | Ok (declared_total, chunk_hashes) =>
        match fetch_chunks chunk_hashes now [] s with
        | (SErr e, s) => (SErr e, s)
        | (SOk out, s) =>
          if blen out =? declared_total then (SOk out, s)
          else (SErr (HashMismatch "{declared_total} bytes (per manifest)"
                        "{} bytes (per chunks)"), s)
        end
      end
    end.

End Store.

End Chunking.

(** ** The codec of references *)

Lemma reference_encode_eq r :
  Reference.encode r =
  encode_map
    [ entry "deps" (write_array Reference.encode (Reference.deps r));
      entry "hash" (bytestr (Reference.hash r));
      entry "size" (uint (Reference.size r));
      entry "type" (text (Reference.mime r));
      entry "hints" (Reference.encode_hints_array (Reference.hints r)) ].
Proof. by destruct r. Qed.

#[export] Instance hints_codec :
  Codec Reference.encode_hints_array Reference.decode_hints_array
    (fun l => Forall (fun h => blen h = 32) l /\ N.of_nat (length l) <= MAX_CBOR_ENTRIES) :=
  codec_array bytestr (read_fixed_bytes "hint" 32) (fun h => blen h = 32).

#[export] Instance reference_codec fuel :
  Codec Reference.encode (Reference.decode_inner fuel) (Reference.wf fuel).
Proof.
  induction fuel as [|fuel IH].
  - intros r a r' F. cbn. by split; [|intros [? _]].
  - intros r a r' F. rewrite reference_encode_eq. revert r a r' F.
    cbn [Reference.decode_inner Reference.wf].
    assert (Codec (fun a => encode_map
      [ entry "deps" (write_array Reference.encode (Reference.deps a));
        entry "hash" (bytestr (Reference.hash a));
        entry "size" (uint (Reference.size a));
        entry "type" (text (Reference.mime a));
        entry "hints" (Reference.encode_hints_array (Reference.hints a)) ])
      (Reference.decode_inner (S fuel)) (Reference.wf (S fuel))) as H; [|exact H].
    cbn [Reference.decode_inner Reference.wf]. solve_codec.
Qed.

#[export] Instance manifest_codec :
  Codec (fun p => Chunking.encode_manifest (fst p) (snd p)) Chunking.manifest_fields
    (fun p => (Forall (fun h => blen h = ADDRESS_LEN) (snd p) /\
               N.of_nat (length (snd p)) <= MAX_CBOR_ENTRIES) /\ fst p < u64_size).
Proof. unfold Chunking.encode_manifest, Chunking.manifest_fields. solve_codec. Qed.

(** ** The object store *)

Module ObjectsFacts.
Import Objects.

(** The bytes a row stands for. *)
Definition content (s : Store) (h : bytes) : option bytes :=
  r ← rows s !! h; match inline r with Some b => Some b | None => blobs s !! h end.

Section Facts.
Context `{Crypto}.

(** Every row has its bytes, under their own hash. *)
Definition consistent (s : Store) : Prop :=
  forall h, is_Some (rows s !! h) -> exists b, content s h = Some b /\ blake3 b = h.

Lemma content_get h now s b :
  content s h = Some b -> blake3 b = h -> get h now s = (SOk (Some b), touch_last_accessed h now s).
Proof using.
  unfold content, get. destruct (rows s !! h) as [r|]; [|done]. cbn. intros -> Hb.
  unfold verify_hash. by rewrite bool_decide_eq_true_2.
Qed.

Lemma content_touch h now s h' : content (touch_last_accessed h now s) h' = content s h'.
Proof using.
  unfold content, touch_last_accessed. cbn. destruct (decide (h' = h)) as [->|Hh].
  - rewrite lookup_alter_eq. by destruct (rows s !! h).
  - by rewrite lookup_alter_ne.
Qed.

Lemma consistent_touch h now s : consistent s -> consistent (touch_last_accessed h now s).
Proof using.
  intros Hc h' Hr. rewrite content_touch. apply Hc. revert Hr. unfold touch_last_accessed. cbn.
  destruct (decide (h' = h)) as [->|Hh]; [|by rewrite lookup_alter_ne].
  rewrite lookup_alter_eq. by destruct (rows s !! h).
Qed.

(** The bytes [x] do not collide with an object of the store. *)
Definition fits_in (s : Store) (x : bytes) : Prop :=
  forall b, content s (blake3 x) = Some b -> b = x.

Lemma content_put x now s h :
  consistent s -> fits_in s x ->
  content (put x now s).2 h = if decide (h = blake3 x) then Some x else content s h.
Proof using.
  intros Hc Hf. unfold put, content. case_bool; cbn; unfold insert_or_ignore.
  - destruct (rows s !! blake3 x) as [r|] eqn:E; case_decide as Hh; subst.
    + destruct (Hc (blake3 x)) as (b & Hb & _); [eauto|]. pose proof (Hf b Hb) as ->. exact Hb.
    + done.
    + by rewrite lookup_insert_eq.
    + by rewrite lookup_insert_ne.
  - destruct (rows s !! blake3 x) as [r|] eqn:E; case_decide as Hh; subst.
    + rewrite E. cbn. destruct (Hc (blake3 x)) as (b & Hb & _); [eauto|].
      pose proof (Hf b Hb) as ->. unfold content in Hb. rewrite E in Hb. cbn in Hb.
      destruct (inline r); [done|]. by rewrite lookup_insert_eq.
    + by rewrite lookup_insert_ne.
    + rewrite lookup_insert_eq. cbn. by rewrite lookup_insert_eq.
    + by rewrite !lookup_insert_ne.
Qed.

Lemma rows_put x now s h :
  is_Some (rows (put x now s).2 !! h) <-> h = blake3 x \/ is_Some (rows s !! h).
Proof using.
  unfold put, insert_or_ignore. case_bool; cbn; destruct (rows s !! blake3 x) eqn:E.
  1, 3: split; [by right|]; intros [->|?]; [by rewrite E|done].
  all: destruct (decide (h = blake3 x)) as [->|Hh];
    [rewrite lookup_insert_eq; split; eauto|rewrite lookup_insert_ne by done; naive_solver].
Qed.

Lemma consistent_put x now s : consistent s -> fits_in s x -> consistent (put x now s).2.
Proof using.
  intros Hc Hf h Hr. rewrite content_put by done. case_decide as Hh; [by exists x|].
  apply Hc. apply rows_put in Hr as [?|?]; done.
Qed.
End Facts.

(** *** Eviction *)

Lemma total_evict h r s :
  rows s !! h = Some r -> total_bytes s = size r + total_bytes (evict_one h s).
Proof.
  intros E. unfold total_bytes, evict_one. cbn.
  rewrite <-(insert_delete_id (rows s) h r E) at 1. rewrite map_fold_insert_L.
  - done.
  - intros. lia.
  - apply lookup_delete_eq.
Qed.

Definition sum_sizes (l : list (bytes * Row)) : N := foldr (fun hr n => size (snd hr) + n) 0 l.

Fixpoint evict_all (l : list (bytes * Row)) (s : Store) : Store :=
  match l with [] => s | (h, _) :: l => evict_all l (evict_one h s) end.

Lemma evict_all_lookup l : forall s h,
  rows (evict_all l s) !! h = (if decide (h ∈ map fst l) then None else rows s !! h) /\
  blobs (evict_all l s) !! h = (if decide (h ∈ map fst l) then None else blobs s !! h) /\
  max_bytes (evict_all l s) = max_bytes s.
Proof.
  induction l as [|[h1 r1] l IH]; intros s h; cbn [evict_all map fst].
  - by rewrite !decide_False by apply not_elem_of_nil.
  - destruct (IH (evict_one h1 s) h) as (-> & -> & ->). cbn.
    destruct (decide (h ∈ map fst l)) as [Hin|Hin].
    + by rewrite !decide_True by (by right).
    + destruct (decide (h = h1)) as [->|Hh].
      * rewrite !decide_True by (by left). by rewrite !lookup_delete_eq.
      * rewrite !decide_False by (by rewrite elem_of_cons; intros [?|?]).
        by rewrite !lookup_delete_ne.
Qed.

(** The loop evicts the shortest prefix of the candidates that frees enough. *)
Lemma evict_loop_spec cs : forall drop c b s,
  NoDup (map fst cs) -> (forall h r, (h, r) ∈ cs -> rows s !! h = Some r) ->
  exists ev rest, cs = ev ++ rest /\ (rest = [] \/ drop <= sum_sizes ev) /\
    evict_loop cs drop c b s = ((c + N.of_nat (length ev), b + sum_sizes ev), evict_all ev s) /\
    total_bytes s = sum_sizes ev + total_bytes (evict_all ev s) /\
    (forall pre x, ev = pre ++ [x] -> sum_sizes pre < drop).
Proof.
  induction cs as [|[h r] cs IH]; intros drop c b s Hnd Hin; cbn [evict_loop].
  - exists [], []. rewrite !N.add_0_r. split_and!; auto. intros [] ? ?; done.
  - case_bool; to_prop.
    + subst. exists [], ((h, r) :: cs). rewrite !N.add_0_r.
      split_and!; auto; intros [] ? ?; done.
    + cbn in Hnd. inversion Hnd as [|? ? Hnin Hnd']; subst.
      destruct (IH (drop - size r) (c + 1) (b + size r) (evict_one h s)) as
        (ev & rest & -> & Hrest & -> & Htot & Hmin); [done| |].
      { intros h' r' Hr'. cbn. rewrite lookup_delete_ne; [apply Hin; by right|]. intros <-.
        apply Hnin. apply list_elem_of_fmap. by exists (h, r'). }
      exists ((h, r) :: ev), rest. cbn [app sum_sizes foldr snd length evict_all].
      change (foldr _ 0 ev) with (sum_sizes ev). split_and!; [done| | | |].
      * destruct Hrest; [by left|right; lia].
      * rewrite Nat2N.inj_succ. do 2 f_equal; lia.
      * rewrite (total_evict h r s), Htot by (apply Hin; by left). lia.
      * intros [|y pre] x Hx; [cbn; lia|]. injection Hx as <- Hx. apply Hmin in Hx. cbn.
        change (foldr _ 0 pre) with (sum_sizes pre). lia.
Qed.

#[export] Instance older_total : Total older.
Proof. intros a b. unfold older. lia. Qed.

#[export] Instance older_trans : Transitive older.
Proof. intros a b c. unfold older. lia. Qed.

Lemma candidates_spec `{HashIterLaws} s :
  NoDup (map fst (candidates s)) /\ StronglySorted older (candidates s) /\
  (forall h r, (h, r) ∈ candidates s <-> rows s !! h = Some r /\ pinned r = false).
Proof.
  unfold candidates. set (l := List.filter _ _).
  assert (merge_sort older l ≡ₚ l) as Hp by apply merge_sort_Permutation.
  assert (forall h r, (h, r) ∈ l <-> rows s !! h = Some r /\ pinned r = false) as Hl.
  { intros h r. unfold l. rewrite list_elem_of_In, filter_In, <-list_elem_of_In, elem_of_hiter.
    cbn. by rewrite negb_true_iff. }
  split_and!.
  - change (map fst) with (fmap (M := list) (@fst bytes Row)). rewrite Hp. unfold l.
    apply NoDup_fst_filter, hiter_NoDup.
  - apply StronglySorted_merge_sort; apply _.
  - intros h r. by rewrite Hp, Hl.
Qed.

End ObjectsFacts.

(** ** Properties *)

Module StorageFacts.
Import Objects ObjectsFacts Chunking.

(** Whatever is in the database and in the blob directory, bytes leave the
    store only under the hash they have. *)
Theorem get_verified `{Crypto} h now s b
    (G : (get h now s).1 = SOk (Some b)) : blake3 b = h /\ content s h = Some b.
Proof.
  revert G. unfold get, content. destruct (rows s !! h) as [r|]; [|done]. cbn.
  destruct (match inline r with Some _ => _ | None => _ end) as [b'|]; [|done].
  unfold verify_hash. case_bool; cbn; [|done]. to_prop. by intros [= <-].
Qed.

(** What was stored is read back, small or large, also when the object was
    already there, and every other object keeps its bytes. *)
Theorem put_get `{Crypto} x now now' s
    (C : consistent s) (F : fits_in s x) :
  let '(h, s') := put x now s in
  h = blake3 x /\ consistent s' /\ (get h now' s').1 = SOk (Some x) /\
  forall h', h' <> h -> content s' h' = content s h'.
Proof.
  pose proof (content_put x now s) as Hp. pose proof (consistent_put x now s C F) as Hc.
  assert ((put x now s).1 = blake3 x) as Hh by (unfold put; by case_bool).
  destruct (put x now s) as [h s']. cbn [fst snd] in *. subst h. split_and!; [done|done| |].
  - by rewrite (content_get _ _ _ x) by (rewrite ?Hp, ?decide_True; done).
  - intros h' Hne. by rewrite Hp, decide_False.
Qed.

(** Eviction respects pins, frees exactly what it reports, stops as soon as
    the budget is met, and gives up the least recently used objects first: an
    evicted object is never newer than an unpinned one that stays. *)
Theorem evict_to_budget_spec `{HashIterLaws} s :
  let '((count, freed), s') := evict_to_budget s in
  total_bytes s = total_bytes s' + freed /\
  rows s' ⊆ rows s /\
  (forall h r, rows s !! h = Some r -> pinned r = true ->
     rows s' !! h = Some r /\ blobs s' !! h = blobs s !! h) /\
  (max_bytes s <> 0 -> total_bytes s' <= max_bytes s \/
     forall h r, rows s' !! h = Some r -> pinned r = true) /\
  (forall h r h' r', rows s !! h = Some r -> rows s' !! h = None ->
     rows s' !! h' = Some r' -> pinned r' = false -> older (h, r) (h', r')).
Proof.
  unfold evict_to_budget.
  repeat case_bool; to_prop; [split_and!; [lia|done|done|lia|congruence]..|].
  destruct (candidates_spec s) as (Hnd & Hs & Hin).
  destruct (evict_loop_spec (candidates s) (total_bytes s - max_bytes s) 0 0 s Hnd)
    as (ev & rest & Hc & Hrest & -> & Htot & _); [by intros h r [? _]%Hin|].
  pose proof (evict_all_lookup ev s) as Hl. rewrite Hc in Hs, Hin.
  assert (forall h r, h ∈ map fst ev -> rows s !! h = Some r -> (h, r) ∈ ev) as Hev.
  { intros h r ([h0 r0] & -> & Hh)%list_elem_of_fmap Hr.
    assert ((h0, r0) ∈ ev ++ rest) as [Hr0 _]%Hin by by apply elem_of_app; left.
    cbn in *. by assert (r0 = r) as -> by congruence. }
  assert (forall h r, rows (evict_all ev s) !! h = Some r ->
    rows s !! h = Some r /\ h ∉ map fst ev) as Hkept.
  { intros h r Hr. destruct (Hl h) as (Hlr & _). rewrite Hlr in Hr. by case_decide. }
  split_and!.
  - lia.
  - apply map_subseteq_spec. by intros h r [? _]%Hkept.
  - intros h r Hr Hp. destruct (Hl h) as (-> & -> & _). rewrite !decide_False; [done|..];
      intros Hh; pose proof (Hev h r Hh Hr) as He;
      assert ((h, r) ∈ ev ++ rest) as [_ Hx]%Hin by (apply elem_of_app; by left); congruence.
  - intros Hm. destruct Hrest as [-> |Hd]; [right|left; lia].
    intros h r [Hr Hn]%Hkept. destruct (pinned r) eqn:Hp; [done|]. exfalso. apply Hn.
    assert ((h, r) ∈ ev ++ []) as He by by apply Hin. rewrite app_nil_r in He.
    apply list_elem_of_fmap. by exists (h, r).
  - intros h r h' r' Hr Hgone [Hr' Hn]%Hkept Hp. apply StronglySorted_app in Hs as (Hcross & _ & _).
    apply Hcross.
    + apply Hev; [|done]. destruct (Hl h) as (Hlr & _). rewrite Hlr in Hgone.
      case_decide; [done|congruence].
    + assert ((h', r') ∈ ev ++ rest) as [He|?]%elem_of_app by (by apply Hin); [|done].
      exfalso. apply Hn. apply list_elem_of_fmap. by exists (h', r').
Qed.

(** A reference is decoded exactly from its encoding, followed by
    anything, and only when it nests at most [DEFAULT_DEP_DEPTH_LIMIT] deep
    below the root. *)
Theorem reference_decode_prefix bs r (F : blen bs < u64_size) :
  Reference.decode bs = Ok r <->
  Reference.wf (S Reference.DEFAULT_DEP_DEPTH_LIMIT) r /\
  exists trailing, bs = Reference.encode r ++ trailing.
Proof. by apply (decode_prefix Reference.encode _ (Reference.wf _)). Qed.

(** *** Chunking *)

Lemma chunks_concat n fuel : forall bs,
  (0 < n)%nat -> (length bs <= fuel)%nat -> concat (chunks fuel n bs) = bs.
Proof.
  induction fuel as [|fuel IH]; intros [|b bs] Hn Hl; cbn [chunks concat]; try done; cbn in Hl; [lia|].
  rewrite IH; [|done|]; [by rewrite take_drop|].
  rewrite length_drop. cbn. lia.
Qed.

Lemma chunks_length n fuel : forall bs,
  (0 < n)%nat -> (length (chunks fuel n bs) * n < length bs + n)%nat.
Proof.
  induction fuel as [|fuel IH]; intros [|b bs] Hn; cbn [chunks length]; try lia.
  destruct (Nat.le_gt_cases n (length (b :: bs))) as [Hle|Hgt].
  - specialize (IH (drop n (b :: bs)) Hn). rewrite length_drop in IH. cbn [length] in *. lia.
  - rewrite drop_ge by lia. destruct fuel; cbn; lia.
Qed.

(** What [put_chunked] stores besides what is already there. *)
Definition objects_of `{Crypto} (bs : bytes) : list bytes :=
  if blen bs <=? CHUNK_MAX then [bs]
  else split bs ++ [encode_manifest (blen bs) (map blake3 (split bs))].

(** No two of [xs] and of the objects in the store collide. *)
Definition no_collision `{Crypto} (s : Store) (xs : list bytes) : Prop :=
  Forall (fun x => fits_in s x) xs /\
  forall x y, x ∈ xs -> y ∈ xs -> blake3 x = blake3 y -> x = y.

Lemma no_collision_put `{Crypto} x xs now s :
  consistent s -> no_collision s (x :: xs) -> no_collision (put x now s).2 xs.
Proof.
  intros Hc [Hf Hi]. inversion Hf as [|? ? Hx Hxs]; subst. split.
  - rewrite Forall_forall in *. intros y Hy b. rewrite content_put by done. case_decide as E.
    + intros [= <-]. apply Hi; [by left|by right|done].
    + by apply Hxs.
  - intros y z Hy Hz. apply Hi; by right.
Qed.

Lemma put_chunks_spec `{Crypto} cs now : forall rest s,
  consistent s -> no_collision s (cs ++ rest) ->
  let '((refs, hs), s') := put_chunks cs now s in
  hs = map blake3 cs /\ refs = map (fun c => Reference.new (blake3 c) (blen c) CHUNK_MIME) cs /\
  consistent s' /\ no_collision s' rest /\
  (forall c, c ∈ cs -> content s' (blake3 c) = Some c) /\
  (forall h, h ∉ map blake3 cs -> content s' h = content s h).
Proof.
  induction cs as [|c cs IH]; intros rest s Hc Hn; cbn [put_chunks map app] in *.
  - split_and!; try done. intros ? ?%not_elem_of_nil. done.
  - pose proof (no_collision_put _ _ now s Hc Hn) as Hn'. destruct Hn as [Hf Hi].
    inversion Hf as [|? ? Hfc _]; subst.
    pose proof (consistent_put c now s Hc Hfc) as Hc'. pose proof (content_put c now s) as Hp.
    assert ((put c now s).1 = blake3 c) as Hh by (unfold put; by case_bool).
    destruct (put c now s) as [h s1]. cbn [fst snd] in *. subst h.
    specialize (IH rest s1 Hc' Hn'). destruct (put_chunks cs now s1) as [[refs hs] s2].
    destruct IH as (-> & -> & Hc2 & Hn2 & Hin & Hout). split_and!; try done.
    + intros x [->|Hx]%elem_of_cons; [|by apply Hin].
      destruct (decide (blake3 c ∈ map blake3 cs)) as [Hd|Hd].
      * apply list_elem_of_fmap in Hd as (y & E & Hy). rewrite E.
        rewrite (Hin y Hy). f_equal. symmetry. apply Hi; [by left| |done].
        right. apply elem_of_app. by left.
      * rewrite Hout, Hp by done. by rewrite decide_True.
    + intros h [Hne Hnin]%not_elem_of_cons. rewrite Hout, Hp by done. by rewrite decide_False.
Qed.

Lemma fetch_content `{Crypto} missing h b now s :
  content s h = Some b -> blake3 b = h ->
  fetch missing h now s = (SOk b, touch_last_accessed h now s).
Proof. intros Hc Hb. unfold fetch. by rewrite (content_get h now s b Hc Hb). Qed.

Lemma fetch_chunks_spec `{Crypto} cs now : forall out s,
  (forall c, c ∈ cs -> content s (blake3 c) = Some c) ->
  (fetch_chunks (map blake3 cs) now out s).1 = SOk (out ++ concat cs).
Proof.
  induction cs as [|c cs IH]; intros out s Hin; cbn [map fetch_chunks concat].
  - by rewrite app_nil_r.
  - rewrite (fetch_content _ _ c) by (try done; apply Hin; by left).
    rewrite IH; [by rewrite app_assoc|]. intros x Hx. rewrite content_touch. apply Hin. by right.
Qed.

Lemma blen_array_le l : Forall (fun h => blen h = 32) l ->
  blen (write_array bytestr l) <= 9 + 41 * N.of_nat (length l).
Proof.
  intros Hl. rewrite write_array_eq, blen_app. pose proof (head_bytes_le 4 (N.of_nat (length l))).
  enough (blen (concat (map bytestr l)) <= 41 * N.of_nat (length l)) by lia.
  match goal with H : _ <= 9 |- _ => clear H end.
  induction Hl as [|h l Hh Hl IH]; [done|]. cbn [map concat length].
  rewrite blen_app. pose proof (blen_bytestr_ub h). lia.
Qed.

Lemma manifest_roundtrip `{CryptoLaws} total cs :
  total < u64_size -> N.of_nat (length cs) <= MAX_CBOR_ENTRIES ->
  decode_manifest (encode_manifest total (map blake3 cs)) = Ok (total, map blake3 cs).
Proof.
  intros Ht Hn. assert (Forall (fun h => blen h = 32) (map blake3 cs)) as H32.
  { apply Forall_fmap, Forall_forall. intros c _. apply blake3_length. }
  change (encode_manifest total (map blake3 cs))
    with ((fun p => encode_manifest (fst p) (snd p)) (total, map blake3 cs)).
  apply (decode_exact (fun p => encode_manifest (fst p) (snd p)) manifest_fields
    (fun p => (Forall (fun h => blen h = ADDRESS_LEN) (snd p) /\
               N.of_nat (length (snd p)) <= MAX_CBOR_ENTRIES) /\ fst p < u64_size)); [apply _| |].
  - cbn [fst snd]. unfold encode_manifest. flatten. rewrite !blen_app.
    pose proof (blen_array_le _ H32) as Hl. pose proof (blen_uint_ub total). rewrite length_map in *.
    pose proof (head_bytes_le 5 (N.of_nat 2)).
    change (blen (text "chunks")) with 7. change (blen (text "total_size")) with 11.
    change (blen (key "chunks")) with 7. change (blen (key "total_size")) with 11.
    change MAX_CBOR_ENTRIES with 1048576 in *. unfold u64_size. lia.
  - cbn [fst snd]. rewrite length_map. done.
Qed.

(** C25: an object of up to 256 GiB that was stored whole or in chunks is
    reassembled byte for byte, given that none of the stored pieces collide
    under BLAKE3. *)
Theorem chunked_roundtrip `{CryptoLaws} bs now now' s
    (C : consistent s) (N : no_collision s (objects_of bs)) (L : blen bs <= 2 ^ 38) :
  let '(r, s') := put_chunked bs now s in (get_chunked r now' s').1 = SOk bs.
Proof.
  unfold put_chunked, objects_of in *. case_bool; to_prop.
  - destruct N as [Nf _]. inversion Nf as [|? ? Hf _]; subst.
    pose proof (content_put bs now s) as Hp.
    assert ((put bs now s).1 = blake3 bs) as Hh by (unfold put; by case_bool).
    destruct (put bs now s) as [h s1]. cbn [fst snd] in *. subst h.
    unfold get_chunked. cbn. rewrite (fetch_content _ _ bs); [done| |done].
    by rewrite Hp, decide_True.
  - pose proof (put_chunks_spec (split bs) now _ s C N) as Hput.
    destruct (put_chunks (split bs) now s) as [[refs hs] s1].
    destruct Hput as (-> & _ & Hc1 & Hn1 & Hin & _). set (m := encode_manifest _ _) in *.
    destruct Hn1 as [Hf _]. inversion Hf as [|? ? Hfm _]; subst.
    pose proof (content_put m now s1) as Hp.
    assert ((put m now s1).1 = blake3 m) as Hh by (unfold put; by case_bool).
    destruct (put m now s1) as [h s2]. cbn [fst snd] in *. subst h.
    assert (N.of_nat (length (split bs)) <= MAX_CBOR_ENTRIES) as Hcount.
    { pose proof (chunks_length (N.to_nat CHUNK_MAX) (length bs) bs) as Hl.
      unfold split, blen, CHUNK_MAX in *. change MAX_CBOR_ENTRIES with 1048576. lia. }
    unfold get_chunked. cbn [Reference.mime Reference.hash]. rewrite String.eqb_refl. cbn [negb].
    rewrite (fetch_content _ _ m); [|by rewrite Hp, decide_True|done].
    unfold m. rewrite manifest_roundtrip by (try done; unfold u64_size; lia).
    destruct (fetch_chunks _ now' [] _) as [res s3] eqn:E.
    assert (res = SOk bs) as ->.
    { rewrite <-(chunks_concat (N.to_nat CHUNK_MAX) (length bs) bs) by (unfold CHUNK_MAX; lia).
      change res with (res, s3).1. rewrite <-E. apply fetch_chunks_spec.
      intros c Hcin. rewrite content_touch, Hp by done. case_decide as Hd; [|by apply Hin].
      f_equal. symmetry. apply Hfm. rewrite <-Hd. by apply Hin. }
    by rewrite N.eqb_refl.
Qed.
End StorageFacts.

(** ** Concrete instances *)

Module StorageExamples.
Import Objects ObjectsFacts Chunking StorageFacts Toy ToyIter.

Lemma open_consistent : consistent open.
Proof. intros h [r Hr]. cbn in Hr. by rewrite lookup_empty in Hr. Qed.

Lemma fits_in_open x : fits_in open x.
Proof. done. Qed.

Lemma get_verified_witness :
  let s := (put (as_bytes "abc") 1 open).2 in
  let h := (put (as_bytes "abc") 1 open).1 in
  blake3 (as_bytes "abc") = h /\ content s h = Some (as_bytes "abc").
Proof. intros s h. apply (get_verified h 2 s). vm_compute. reflexivity. Defined.

Lemma put_get_witness :
  let '(h, s') := put (as_bytes "abc") 1 open in
  h = blake3 (as_bytes "abc") /\ consistent s' /\ (get h 2 s').1 = SOk (Some (as_bytes "abc")) /\
  forall h', h' <> h -> content s' h' = content open h'.
Proof. apply put_get; [apply open_consistent|apply fits_in_open]. Defined.

Definition nested : Reference.t :=
  Reference.mk (pad 32 []) 3 "text/plain" [] [Reference.new (pad 32 [Byte.x01]) 1 "image/png"].

Lemma reference_decode_prefix_witness :
  Reference.wf (S Reference.DEFAULT_DEP_DEPTH_LIMIT) nested /\
  exists trailing, Reference.encode nested ++ [Byte.xff] = Reference.encode nested ++ trailing.
Proof. apply reference_decode_prefix; vm_compute; reflexivity. Defined.

(** A blob of one full chunk and one byte. *)
Definition blob : bytes := replicate (N.to_nat 262145) Byte.x01.

Lemma blen_blob : blen blob = 262145.
Proof. unfold blen, blob. rewrite length_replicate. lia. Qed.

Lemma split_blob : split blob = [replicate (N.to_nat 262144) Byte.x01; [Byte.x01]].
Proof.
  unfold split. assert (length blob = S (S (N.to_nat 262143))) as ->
    by (pose proof blen_blob; unfold blen in *; lia).
  change (N.to_nat CHUNK_MAX) with (N.to_nat 262144). set (n := N.to_nat 262144).
  assert (blob = replicate n Byte.x01 ++ [Byte.x01]) as ->.
  { unfold blob. replace (N.to_nat 262145) with (n + 1)%nat by lia. by rewrite replicate_add. }
  assert (0 < n)%nat by lia. clearbody n. destruct n as [|n]; [lia|].
  cbn [chunks replicate app]. rewrite app_comm_cons.
  change (Byte.x01 :: replicate n Byte.x01) with (replicate (S n) Byte.x01).
  rewrite take_app_le, drop_app_le by (rewrite length_replicate; lia).
  rewrite take_replicate, drop_replicate, Nat.min_id, Nat.sub_diag. cbn [replicate app].
  rewrite take_ge by (cbn; lia). by rewrite drop_ge by (cbn; lia).
Qed.

Lemma blob_no_collision : no_collision open (objects_of blob).
Proof.
  split; [apply Forall_forall; intros; apply fits_in_open|].
  unfold objects_of. assert ((blen blob <=? CHUNK_MAX) = false) as -> by (by rewrite blen_blob).
  rewrite split_blob. set (m := encode_manifest _ _).
  assert (exists rest, blake3 m = Byte.xa2 :: rest) as [rest Hm].
  { unfold m, encode_manifest. rewrite encode_map_eq. eexists. reflexivity. }
  assert (blake3 (replicate (N.to_nat 262144) Byte.x01) = replicate 32 Byte.x01) as Hc.
  { cbn. unfold pad. rewrite take_app_le by (rewrite length_replicate; lia).
    rewrite take_replicate. done. }
  assert (exists rest2, blake3 [Byte.x01] = Byte.x01 :: Byte.x00 :: rest2) as [rest2 H1]
    by (eexists; reflexivity).
  cbn [app]. clearbody m. revert Hm Hc H1. generalize (@blake3 toy) as bl.
  generalize (replicate (N.to_nat 262144) Byte.x01) as b1. generalize [Byte.x01] as b2.
  intros b2 b1 bl Hm Hc H1 x y. rewrite !elem_of_cons, !elem_of_nil.
  intros [->|[->|[->|[]]]] [->|[->|[->|[]]]] E; try reflexivity; exfalso;
    rewrite ?Hm, ?Hc, ?H1 in E; discriminate E.
Qed.

Lemma chunked_roundtrip_witness :
  let '(r, s') := put_chunked blob 1 open in (get_chunked r 2 s').1 = SOk blob.
Proof.
  apply chunked_roundtrip; [apply open_consistent|apply blob_no_collision|].
  rewrite blen_blob. discriminate.
Defined.

(** Two objects of three bytes with a budget of four: the older one goes. *)
Definition full : Store :=
  set_max_bytes 4 (put (as_bytes "new") 9 (put (as_bytes "old") 5 open).2).2.

Lemma evict_to_budget_spec_witness :
  let '((count, freed), s') := evict_to_budget full in
  total_bytes full = total_bytes s' + freed /\
  rows s' ⊆ rows full /\
  (forall h r, rows full !! h = Some r -> pinned r = true ->
     rows s' !! h = Some r /\ blobs s' !! h = blobs full !! h) /\
  (max_bytes full <> 0 -> total_bytes s' <= max_bytes full \/
     forall h r, rows s' !! h = Some r -> pinned r = true) /\
  (forall h r h' r', rows full !! h = Some r -> rows s' !! h = None ->
     rows s' !! h' = Some r' -> pinned r' = false -> older (h, r) (h', r')).
Proof. apply (evict_to_budget_spec full). Defined.

Example evict_oldest :
  (evict_to_budget full).1 = (1, 3) /\ has (pad 32 (as_bytes "old")) (evict_to_budget full).2 = false.
Proof. split; vm_compute; reflexivity. Qed.

End StorageExamples.
