(* ===== verification/StorageProtocol.v ===== *)
(** The storage messages ([sidevers-net/src/storage_protocol.rs], types 0x30
    to 0x35). As in [Discovery], no decoder looks at the end of the input;
    [StorageOffer] decodes its reference on the slice that follows the key. *)

From S2P Require Import Prelude Utf8 Cbor CborCodec CborValue Keys Storage.

Open Scope N_scope.

Module StorageGet.

Record ByteRange := { start : N; end_ : N }.

Record t := { hash : bytes; range : option ByteRange }.

Definition encode_range (r : ByteRange) : bytes :=
  encode_map [ entry "end" (uint (end_ r)); entry "start" (uint (start r)) ].

Definition entries (p : t) : list MapEntry :=
  [ entry "hash" (bytestr (hash p)); entry "range" (or_null encode_range (range p)) ].

Definition encode (p : t) : bytes := encode_map (entries p).

Definition read_range : Reader ByteRange :=
  _ ← expect_map 2 "range expected 2 keys, got {n}";
  _ ← expect_key "end" "range expects 'end' first";
  e ← read_u64;
  _ ← expect_key "start" "range expects 'start' second";
  s ← read_u64;
  mret {| start := s; end_ := e |}.

Definition decode_optional_range : Reader (option ByteRange) :=
  b ← peek (Error.CborDecode "missing range");
  if decide (b = SIMPLE_NULL) then _ ← (_ ← read_bytes_or_null; mret tt); mret None
  else r ← read_range; mret (Some r).

Definition fields : Reader t :=
  _ ← expect_map 2 "StorageGet expected 2 keys, got {n}";
  _ ← expect_key "hash" "expected 'hash' first";
  h ← read_fixed_bytes "hash" ADDRESS_LEN;
  _ ← expect_key "range" "expected 'range' second";
  r ← decode_optional_range;
  mret {| hash := h; range := r |}.

Definition decode (bs : bytes) : result t := decode_with fields bs.

Definition wf_range (r : ByteRange) : Prop := end_ r < u64_size /\ start r < u64_size.

Definition wf (p : t) : Prop :=
  blen (hash p) = ADDRESS_LEN /\ from_option wf_range True (range p).

End StorageGet.

Module StorageHave.

Record t := { hash : bytes; body : bytes; final_ : bool }.

Definition entries (p : t) : list MapEntry :=
  [ entry "hash" (bytestr (hash p)); entry "bytes" (bytestr (body p));
    entry "final" (boolean (final_ p)) ].

Definition encode (p : t) : bytes := encode_map (entries p).

Definition fields : Reader t :=
  _ ← expect_map 3 "StorageHave expected 3 keys, got {n}";
  _ ← expect_key "hash" "expected 'hash' first";
  h ← read_fixed_bytes "hash" ADDRESS_LEN;
  _ ← expect_key "bytes" "expected 'bytes' second";
  b ← read_bytes;
  _ ← expect_key "final" "expected 'final' third";
  f ← read_bool;
  mret {| hash := h; body := b; final_ := f |}.

Definition decode (bs : bytes) : result t := decode_with fields bs.

Definition wf (p : t) : Prop := blen (hash p) = ADDRESS_LEN /\ wf_bytes (body p).

End StorageHave.

Module StorageMiss.

Record t := { hash : bytes; hints : list bytes }.

Definition entries (p : t) : list MapEntry :=
  [ entry "hash" (bytestr (hash p)); entry "hints" (write_array bytestr (hints p)) ].

Definition encode (p : t) : bytes := encode_map (entries p).

Definition fields : Reader t :=
  _ ← expect_map 2 "StorageMiss expected 2 keys, got {n}";
  _ ← expect_key "hash" "expected 'hash' first";
  h ← read_fixed_bytes "hash" ADDRESS_LEN;
  _ ← expect_key "hints" "expected 'hints' second";
  l ← read_array (read_fixed_bytes "hint" 32);
  mret {| hash := h; hints := l |}.

Definition decode (bs : bytes) : result t := decode_with fields bs.

Definition wf (p : t) : Prop :=
  blen (hash p) = ADDRESS_LEN /\
  (Forall (fun h => blen h = 32) (hints p) /\ N.of_nat (length (hints p)) <= MAX_CBOR_ENTRIES).

End StorageMiss.

Module StorageOffer.

Record t := { reference : Reference.t }.

Definition entries (p : t) : list MapEntry :=
  [ entry "reference" (Reference.encode (reference p)) ].

Definition encode (p : t) : bytes := encode_map (entries p).

Definition header : Reader unit :=
  _ ← expect_map 1 "StorageOffer expected 1 key, got {n}";
  expect_key "reference" "expected 'reference'".

(** [Reference::decode(&bytes[r.position()..])]. *)
Definition decode (bs : bytes) : result t :=
  '(_, r) ← header (new_reader bs);
  reference ← Reference.decode (drop (pos r) bs);
  mret {| reference := reference |}.

Definition wf (p : t) : Prop :=
  Reference.wf (S Reference.DEFAULT_DEP_DEPTH_LIMIT) (reference p).

End StorageOffer.

Module StorageWant.

Record t := { hash : bytes; want : bool }.

Definition entries (p : t) : list MapEntry :=
  [ entry "hash" (bytestr (hash p)); entry "want" (boolean (want p)) ].

Definition encode (p : t) : bytes := encode_map (entries p).

Definition fields : Reader t :=
  _ ← expect_map 2 "StorageWant expected 2 keys, got {n}";
  _ ← expect_key "hash" "expected 'hash' first";
  h ← read_fixed_bytes "hash" ADDRESS_LEN;
  _ ← expect_key "want" "expected 'want' second";
  w ← read_bool;
  mret {| hash := h; want := w |}.

Definition decode (bs : bytes) : result t := decode_with fields bs.

Definition wf (p : t) : Prop := blen (hash p) = ADDRESS_LEN.

End StorageWant.

Module StorageRetract.

Record t := { hash : bytes }.

Definition entries (p : t) : list MapEntry := [ entry "hash" (bytestr (hash p)) ].

Definition encode (p : t) : bytes := encode_map (entries p).

Definition fields : Reader t :=
  _ ← expect_map 1 "StorageRetract expected 1 key, got {n}";
  _ ← expect_key "hash" "expected 'hash'";
  h ← read_fixed_bytes "hash" ADDRESS_LEN;
  mret {| hash := h |}.

Definition decode (bs : bytes) : result t := decode_with fields bs.

Definition wf (p : t) : Prop := blen (hash p) = ADDRESS_LEN.

End StorageRetract.

(** ** Codecs *)

#[export] Instance range_codec : Codec StorageGet.encode_range StorageGet.read_range StorageGet.wf_range.
Proof. unfold StorageGet.encode_range, StorageGet.read_range, StorageGet.wf_range. solve_codec. Qed.

#[export] Instance non_null_range : NonNull StorageGet.encode_range.
Proof.
  intros r. unfold StorageGet.encode_range. rewrite encode_map_eq, head_bytes_eq.
  eexists _, _. split; [done|]. by apply head_non_null.
Qed.

#[export] Instance optional_range_codec :
  Codec (or_null StorageGet.encode_range) StorageGet.decode_optional_range
    (from_option StorageGet.wf_range True) :=
  codec_or_null StorageGet.encode_range StorageGet.read_range _ _ _ read_bytes_or_null_null.

#[export] Instance get_codec : Codec StorageGet.encode StorageGet.fields StorageGet.wf.
Proof. unfold StorageGet.encode, StorageGet.fields, StorageGet.wf, StorageGet.entries. solve_codec. Qed.

#[export] Instance have_codec : Codec StorageHave.encode StorageHave.fields StorageHave.wf.
Proof. unfold StorageHave.encode, StorageHave.fields, StorageHave.wf, StorageHave.entries. solve_codec. Qed.

#[export] Instance miss_codec : Codec StorageMiss.encode StorageMiss.fields StorageMiss.wf.
Proof. unfold StorageMiss.encode, StorageMiss.fields, StorageMiss.wf, StorageMiss.entries. solve_codec. Qed.

#[export] Instance want_codec : Codec StorageWant.encode StorageWant.fields StorageWant.wf.
Proof. unfold StorageWant.encode, StorageWant.fields, StorageWant.wf, StorageWant.entries. solve_codec. Qed.

#[export] Instance retract_codec : Codec StorageRetract.encode StorageRetract.fields StorageRetract.wf.
Proof. unfold StorageRetract.encode, StorageRetract.fields, StorageRetract.wf, StorageRetract.entries. solve_codec. Qed.

Lemma offer_encode_eq p :
  StorageOffer.encode p = (head_bytes 5 1 ++ text "reference") ++ Reference.encode (StorageOffer.reference p).
Proof.
  unfold StorageOffer.encode, StorageOffer.entries. rewrite encode_map_eq. cbn [map concat length entry].
  rewrite app_nil_r. cbn [key_bytes value_bytes]. by rewrite <-app_assoc.
Qed.

#[export] Instance offer_header_codec :
  Codec (fun _ : unit => head_bytes 5 1 ++ text "reference") StorageOffer.header (fun _ => True).
Proof.
  intros r u r' F. unfold StorageOffer.header. rewrite rd_bind_ok, consumes_app. split.
  - intros (v & r1 & [_ C1]%codec_iff & [_ C2]%codec_iff);
      [|by eapply consumes_fits_r|done]. split; [done|]. by exists r1.
  - intros [_ (r1 & C1 & C2)]. exists tt, r1.
    split; (apply codec_iff; [by first [done|eapply consumes_fits_r]|done]).
Qed.

Lemma offer_decode_ok bs p :
  blen bs < u64_size ->
  StorageOffer.decode bs = Ok p <-> StorageOffer.wf p /\ exists s, bs = StorageOffer.encode p ++ s.
Proof.
  intros F. unfold StorageOffer.decode, StorageOffer.wf. rewrite result_bind_ok.
  setoid_rewrite offer_encode_eq. split.
  - intros ([u r] & [_ C]%codec_iff & Hk); [|by apply fits_new].
    apply result_bind_ok in Hk as (ref & Hr & [= <-]). cbn [StorageOffer.reference].
    pose proof (consumes_buf _ _ _ C) as Hb. cbn [buf new_reader] in Hb.
    apply consumes_new in C as [_ Hbs]. unfold remaining in Hbs. rewrite Hb in Hbs.
    apply (decode_prefix Reference.encode _ (Reference.wf _)) in Hr as [Hwf [s Hs]].
    2: { apply N.le_lt_trans with (blen bs); [|done]. unfold blen. rewrite length_drop. lia. }
    split; [done|]. exists s. rewrite Hbs at 1. by rewrite Hs, app_assoc.
  - intros [Hwf [s ->]]. rewrite <-app_assoc in *.
    set (h := head_bytes 5 1 ++ text "reference") in *. set (tail := _ ++ s) in *.
    exists (tt, advance (new_reader (h ++ tail)) (length h)). split.
    + apply codec_iff; [by apply fits_new|]. split; [done|].
      apply (consumes_advance _ _ tail); [by apply fits_new|done].
    + apply result_bind_ok. exists (StorageOffer.reference p). split; [|by destruct p].
      cbn [pos advance new_reader]. rewrite Nat.add_0_l, drop_app_length.
      apply (decode_prefix Reference.encode _ (Reference.wf _)).
      * unfold wf_bytes in F. rewrite blen_app in F. lia.
      * split; [done|]. by exists s.
Qed.

(** ** Properties *)

(** Each storage message is decoded exactly from the encoding of a well
    formed payload (hashes of 32 bytes, ranges, sizes and hint counts within
    their bounds) followed by anything; encoding and decoding round-trip. *)
Theorem storage_payloads_prefix bs (F : blen bs < u64_size) :
  (forall p, StorageGet.decode bs = Ok p <->
     StorageGet.wf p /\ exists s, bs = StorageGet.encode p ++ s) /\
  (forall p, StorageHave.decode bs = Ok p <->
     StorageHave.wf p /\ exists s, bs = StorageHave.encode p ++ s) /\
  (forall p, StorageMiss.decode bs = Ok p <->
     StorageMiss.wf p /\ exists s, bs = StorageMiss.encode p ++ s) /\
  (forall p, StorageOffer.decode bs = Ok p <->
     StorageOffer.wf p /\ exists s, bs = StorageOffer.encode p ++ s) /\
  (forall p, StorageWant.decode bs = Ok p <->
     StorageWant.wf p /\ exists s, bs = StorageWant.encode p ++ s) /\
  (forall p, StorageRetract.decode bs = Ok p <->
     StorageRetract.wf p /\ exists s, bs = StorageRetract.encode p ++ s).
Proof.
  split_and!; intros p; [by apply decode_prefix; [apply _|]..| | |]; [by apply offer_decode_ok|..];
    by apply decode_prefix; [apply _|].
Qed.

Module StorageProtocolExamples.

Definition offer : StorageOffer.t :=
  {| StorageOffer.reference := Reference.new (replicate 32 Byte.x01) 5 "text/plain" |}.

Lemma storage_payloads_prefix_witness :
  StorageOffer.wf offer /\ exists s, StorageOffer.encode offer ++ [Byte.xff] = StorageOffer.encode offer ++ s.
Proof.
  apply (proj1 (proj2 (proj2 (proj2 (storage_payloads_prefix (StorageOffer.encode offer ++ [Byte.xff])
    eq_refl)))) offer).
  vm_compute. reflexivity.
Defined.

End StorageProtocolExamples.
