(* ===== verification/Node.v ===== *)
(** The node ([sidevers-net/src/node.rs], [metrics.rs], [gossip_policy.rs]):
    the gates every inbound envelope passes, and the storage and gossip
    servers, each message handler as a function from the node's state to its
    effects, its new state and whether the session goes on.

    [Services] holds the tables of the node by value: they are behind locks in
    the program, each handler step takes them one at a time, and a step of
    this model is one loop iteration of one session.  The clock is read
    several times in an iteration; a step has one reading, [None] standing for
    a clock before 1970.  The direct and the verse server are in
    [DirectServer.v] and [VerseHost.v]. *)

From S2P Require Import Prelude Containers Cbor CborCodec CborValue Keys Envelope Payload Discovery Replay Reputation NetTables Session Storage StorageProtocol.

Open Scope N_scope.

(** ** Metrics *)

Module Metrics.

Inductive counter :=
| EnvelopesTotal | DroppedReputation | DroppedFreshness | DroppedReplay | DroppedSkewHard
| WarnedSkewSoft | HandshakeThrottled | DmReceived | BroadcastsReceived | VersePostReceived
| LinkageProofReceived | ForwardRetries | StorageRetractIgnored.

#[export] Instance counter_eq_dec : EqDecision counter.
Proof. solve_decision. Defined.

(** The atomic counters, which wrap. *)
Definition t : Type := counter -> N.

Definition new : t := fun _ => 0.

(** [fetch_add(1)] *)
Definition incr (c : counter) (m : t) : t := fun c' =>
  if decide (c' = c) then (m c' + 1) mod u64_size else m c'.

End Metrics.

(** ** Gossip policy *)

Inductive GossipPropagation := Open | ExcludeRefused | RelationshipsOnly.

(** ** State *)

Record Services := {
  side : SideKey;
  store : Objects.Store;
  replay : Replay.ReplayCache;
  peers : Peers.PeerTable;
  mailbox : Mailbox.Mailbox;
  gossip : Gossip.GossipState;
  active_gossip : gset bytes;         (* the peers with an open gossip session *)
  reputation : Reputation.ReputationTable;
  provenance : Provenance.PublisherTable;
  gossip_policy : GossipPropagation;
  relationships : gset bytes;         (* the keys of the side's relationship table *)
  metrics : Metrics.t
}.

Definition with_store (x : Objects.Store) (s : Services) : Services :=
  Build_Services (side s) x (replay s) (peers s) (mailbox s) (gossip s) (active_gossip s)
    (reputation s) (provenance s) (gossip_policy s) (relationships s) (metrics s).
Definition with_replay (x : Replay.ReplayCache) (s : Services) : Services :=
  Build_Services (side s) (store s) x (peers s) (mailbox s) (gossip s) (active_gossip s)
    (reputation s) (provenance s) (gossip_policy s) (relationships s) (metrics s).
Definition with_peers (x : Peers.PeerTable) (s : Services) : Services :=
  Build_Services (side s) (store s) (replay s) x (mailbox s) (gossip s) (active_gossip s)
    (reputation s) (provenance s) (gossip_policy s) (relationships s) (metrics s).
Definition with_mailbox (x : Mailbox.Mailbox) (s : Services) : Services :=
  Build_Services (side s) (store s) (replay s) (peers s) x (gossip s) (active_gossip s)
    (reputation s) (provenance s) (gossip_policy s) (relationships s) (metrics s).
Definition with_gossip (x : Gossip.GossipState) (s : Services) : Services :=
  Build_Services (side s) (store s) (replay s) (peers s) (mailbox s) x (active_gossip s)
    (reputation s) (provenance s) (gossip_policy s) (relationships s) (metrics s).
Definition with_reputation (x : Reputation.ReputationTable) (s : Services) : Services :=
  Build_Services (side s) (store s) (replay s) (peers s) (mailbox s) (gossip s) (active_gossip s)
    x (provenance s) (gossip_policy s) (relationships s) (metrics s).
Definition with_provenance (x : Provenance.PublisherTable) (s : Services) : Services :=
  Build_Services (side s) (store s) (replay s) (peers s) (mailbox s) (gossip s) (active_gossip s)
    (reputation s) x (gossip_policy s) (relationships s) (metrics s).
Definition incr (c : Metrics.counter) (s : Services) : Services :=
  Build_Services (side s) (store s) (replay s) (peers s) (mailbox s) (gossip s) (active_gossip s)
    (reputation s) (provenance s) (gossip_policy s) (relationships s) (Metrics.incr c (metrics s)).

(** A reading of the system clock. *)
Definition Clock : Type := option N.

(** [envelope::now_unix_seconds] and [peers::unix_now]. *)
Definition now_unix_seconds (clock : Clock) : result N :=
  ok_or clock (Error.Invariant "system clock before unix epoch").
Definition unix_now (clock : Clock) : N := default 0 clock.

(** ** The gates *)

Section Gates.
Context `{HashIter}.

Definition check_reputation_gate (clock : Clock) (env : Envelope) (s : Services) : bool * Services :=
  let s := incr Metrics.EnvelopesTotal s in
  let '(ok, rep) := Reputation.observe_envelope (from env) (unix_now clock) (reputation s) in
  let s := with_reputation rep s in
  (ok, if ok then s else incr Metrics.DroppedReputation s).

Definition check_freshness_and_replay_metered (clock : Clock) (env : Envelope) (s : Services)
    : bool * Services :=
  match clock with
  | None => (false, s)
  | Some now =>
    let skew := abs_diff (timestamp env) now in
    if SOFT_MAX_SKEW_SECS <? skew then
      (false, incr Metrics.DroppedFreshness (incr Metrics.DroppedSkewHard s))
    else
      let s := if DEFAULT_MAX_SKEW_SECS <? skew then incr Metrics.WarnedSkewSoft s else s in
      let '(is_replay, cache) := Replay.observe now (from env) (nonce env) (replay s) in
      let s := with_replay cache s in
      (negb is_replay, if is_replay then incr Metrics.DroppedReplay s else s)
  end.

(** The two gates as every server runs them. *)
Definition admit_envelope (clock : Clock) (env : Envelope) (s : Services) : bool * Services :=
  let '(ok, s) := check_reputation_gate clock env s in
  if ok then check_freshness_and_replay_metered clock env s else (false, s).

End Gates.

(** ** Message handlers *)

(** What a handler does besides changing the state. *)
Inductive Effect :=
| Write (bs : bytes)                       (* on the stream of the request *)
| Fanout (peer : bytes) (env : Envelope)   (* on a new stream to another gossip peer *)
| Surface (env : Envelope).                (* to the local application *)

(** Effects, state, and [NErr] when the error ends the session's server. *)
Definition Handled : Type := list Effect * Services * nresult unit.

Definition STORAGE_GET : N := 0x30.
Definition STORAGE_HAVE : N := 0x31.
Definition STORAGE_MISS : N := 0x32.
Definition STORAGE_OFFER : N := 0x33.
Definition STORAGE_WANT : N := 0x34.
Definition STORAGE_RETRACT : N := 0x35.
Definition PEER_ASK : N := 0x40.
Definition PEER_TELL : N := 0x41.
Definition RENDEZVOUS : N := 0x42.
Definition RENDEZVOUS_ACK : N := 0x43.
Definition FORWARD_STORE : N := 0x44.
Definition FORWARD_DELIVER : N := 0x45.

(** [continue] *)
Definition go_on (s : Services) : Handled := ([], s, NOk tt).

(** [send_envelope(&mut send, &resp?).await?; send.finish().ok()] *)
Definition respond (resp : nresult Envelope) (s : Services) : Handled :=
  match (e ← resp; send_envelope e) with
  | NOk bs => ([Write bs], s, NOk tt)
  | NErr e => ([], s, NErr e)
  end.

Section Handlers.
Context `{HashIter, Crypto}.

Definition sign_response (side : SideKey) (peer_side : bytes) (mt : N) (payload : bytes)
    (clock : Clock) (nonce : bytes) : nresult Envelope :=
  now ← core (now_unix_seconds clock);
  core (sign_with mt side (Some peer_side) payload now nonce).

Definition build_storage_response (side : SideKey) (peer_side : bytes) (req : StorageGet.t)
    (clock : Clock) (nonce : bytes) (st : Objects.Store) : nresult Envelope * Objects.Store :=
  let hash := StorageGet.hash req in
  let '(bytes_opt, st) :=
    match StorageGet.range req with
    | Some r => Objects.get_range hash (StorageGet.start r) (StorageGet.end_ r) (unix_now clock) st
    | None => Objects.get hash (unix_now clock) st
    end in
  let miss := StorageMiss.encode {| StorageMiss.hash := hash; StorageMiss.hints := [] |} in
  let resp :=
    match bytes_opt with
    | SOk (Some bs) =>
        sign_response side peer_side STORAGE_HAVE
          (StorageHave.encode {| StorageHave.hash := hash; StorageHave.body := bs;
                                 StorageHave.final_ := true |}) clock nonce
    | SOk None => sign_response side peer_side STORAGE_MISS miss clock nonce
    | SErr _ => sign_response side peer_side STORAGE_MISS miss clock nonce
    end in
  (resp, st).

Definition handle_storage_get (clock : Clock) (nonce : bytes) (env : Envelope) (s : Services) : Handled :=
  match StorageGet.decode (payload env) with
  | Err _ => go_on s
  | Ok req =>
    let '(resp, st) := build_storage_response (side s) (from env) req clock nonce (store s) in
    respond resp (with_store st s)
  end.

(** The follow-up [StorageHave] of an accepted offer. *)
Definition ingest (clock : Clock) (env : Envelope) (offered : bytes) (stream : bytes) (s : Services)
    : Services :=
  match recv_envelope stream with
  | NErr _ => s
  | NOk (have_env, _) =>
    if negb (message_type have_env =? STORAGE_HAVE) then s
    else
      match StorageHave.decode (payload have_env) with
      | Err _ => s
      | Ok have =>
        if negb (bool_decide (StorageHave.hash have = offered)) then s
        else
          let '(addr, st) := Objects.put (StorageHave.body have) (unix_now clock) (store s) in
          let s := with_store st s in
          if bool_decide (addr = offered)
          then with_provenance (Provenance.note_publisher addr (from env) (provenance s)) s
          else s
      end
  end.

(** [stream] is what the offerer sends after the offer. *)
Definition handle_storage_offer (clock : Clock) (nonce : bytes) (env : Envelope) (stream : bytes)
    (s : Services) : Handled :=
  match StorageOffer.decode (payload env) with
  | Err _ => go_on s
  | Ok offer =>
    let hash := Reference.hash (StorageOffer.reference offer) in
    let already_have := Objects.has hash (store s) in
    let want := {| StorageWant.hash := hash; StorageWant.want := negb already_have |} in
    match (e ← sign_response (side s) (from env) STORAGE_WANT (StorageWant.encode want) clock nonce;
           send_envelope e) with
    | NErr e => ([], s, NErr e)
    | NOk bs =>
      if already_have then ([Write bs], s, NOk tt)
      else ([Write bs], ingest clock env hash stream s, NOk tt)
    end
  end.

Definition handle_storage_retract (env : Envelope) (s : Services) : Handled :=
  match StorageRetract.decode (payload env) with
  | Err _ => go_on s
  | Ok retract =>
    let hash := StorageRetract.hash retract in
    if negb (Provenance.has_publisher hash (from env) (provenance s)) then
      go_on (incr Metrics.StorageRetractIgnored s)
    else
      let '(others_remain, t) := Provenance.drop_publisher hash (from env) (provenance s) in
      let s := with_provenance t s in
      if others_remain then go_on s
      else if Objects.has hash (store s) then go_on (with_store (Objects.unpin hash (store s)) s)
      else go_on s
  end.

(** The [match env.message_type] of [serve_storage]. *)
Definition handle_storage (clock : Clock) (nonce : bytes) (env : Envelope) (stream : bytes)
    (s : Services) : Handled :=
  let mt := message_type env in
  if mt =? STORAGE_GET then handle_storage_get clock nonce env s
  else if mt =? STORAGE_OFFER then handle_storage_offer clock nonce env stream s
  else if mt =? STORAGE_RETRACT then handle_storage_retract env s
  else go_on s.

(** [fanout_broadcast]: the peers it opens a stream to. *)
Definition fanout_targets (s : Services) (source_peer : bytes) : gset bytes :=
  let connections := active_gossip s ∖ {[source_peer]} in
  match gossip_policy s with
  | Open => connections
  | ExcludeRefused =>
      filter (fun p => Reputation.is_refused p (reputation s) = false) connections
  | RelationshipsOnly => connections ∩ relationships s
  end.

Definition fanout_broadcast (s : Services) (env : Envelope) (source_peer : bytes) : list Effect :=
  map (fun p => Fanout p env) (elements (fanout_targets s source_peer)).

(** The [match env.message_type] of [serve_gossip]; [peer] is the session's. *)
Definition handle_gossip (peer : bytes) (clock : Clock) (nonce : bytes) (env : Envelope)
    (s : Services) : Handled :=
  let mt := message_type env in
  if mt =? PEER_ASK then
    match PeerAsk.decode (payload env) with
    | Err _ => go_on s
    | Ok req =>
      let found := Peers.sample (N.min (PeerAsk.limit req) 256) (PeerAsk.intent_filter req) (peers s) in
      respond (sign_response (side s) (from env) PEER_TELL
                 (PeerTell.encode {| PeerTell.peers := found |}) clock nonce) s
    end
  else if mt =? RENDEZVOUS then
    match Rendezvous.decode (payload env) with
    | Err _ => go_on s
    | Ok req =>
      let endpoints := default [] (PeerInfo.endpoints <$> Peers.get (Rendezvous.target req) (peers s)) in
      respond (sign_response (side s) (from env) RENDEZVOUS_ACK
                 (RendezvousAck.encode {| RendezvousAck.target := Rendezvous.target req;
                                          RendezvousAck.endpoints := endpoints |}) clock nonce) s
    end
  else if mt =? FORWARD_STORE then
    match ForwardStore.decode (payload env) with
    | Err _ => go_on s
    | Ok req =>
      go_on (with_mailbox
        (Mailbox.store (ForwardStore.recipient req) (ForwardStore.envelope req) (unix_now clock)
           (ForwardStore.ttl_secs req) (mailbox s)) s)
    end
  else
    match category mt with
    | Public =>
      let '(novel, g) := Gossip.observe env (unix_now clock) (gossip s) in
      let s := with_gossip g s in
      if novel then
        (fanout_broadcast s env peer ++ [Surface env], incr Metrics.BroadcastsReceived s, NOk tt)
      else go_on s
    | _ => go_on s
    end.

(** One iteration of a server's loop on the bytes of the stream it accepts. *)
Definition serve_step (handle : Clock -> bytes -> Envelope -> bytes -> Services -> Handled)
    (session : Session) (clock : Clock) (nonce stream : bytes) (s : Services) : Handled :=
  match accept_one session stream with
  | NErr e => ([], s, NErr e)
  | NOk (env, rest) =>
    let '(ok, s) := admit_envelope clock env s in
    if ok then handle clock nonce env rest s else go_on s
  end.

Definition serve_storage_step (session : Session) (clock : Clock) (nonce stream : bytes) (s : Services)
    : Handled := serve_step handle_storage session clock nonce stream s.

Definition serve_gossip_step (session : Session) (clock : Clock) (nonce stream : bytes) (s : Services)
    : Handled :=
  serve_step (fun clock nonce env _ s => handle_gossip (peer_side session) clock nonce env s)
    session clock nonce stream s.

(** ** Deliveries at the start of a gossip session *)

(** The body of the loop, for one held message; [carries] tells whether the
    connection takes the bytes of an envelope. *)
Definition deliver_one (session : Session) (clock : Clock) (nonce : bytes)
    (carries : Envelope -> bool) (msg : Mailbox.HeldMessage) (s : Services) : list Effect * Services :=
  let now := unix_now clock in
  let restored :=
    with_mailbox (Mailbox.store (peer_side session) (Mailbox.envelope msg) now
                    (Mailbox.expires_at msg - now) (mailbox s)) s in
  if Mailbox.expires_at msg <=? now then ([], s)
  else
    match sign_response (side s) (peer_side session) FORWARD_DELIVER
            (ForwardDeliver.encode {| ForwardDeliver.envelope := Mailbox.envelope msg;
                                      ForwardDeliver.stored_at := Mailbox.stored_at msg |})
            clock nonce with
    | NErr _ => ([], restored)
    | NOk env =>
      match open_and_send session env with
      | NOk bs => if carries env then ([Write bs], s) else ([], incr Metrics.ForwardRetries restored)
      | NErr _ => ([], incr Metrics.ForwardRetries restored)
      end
    end.

(** [rng] is the nonce drawn for the n-th held message. *)
Fixpoint deliver_held (session : Session) (clock : Clock) (rng : nat -> bytes)
    (carries : Envelope -> bool) (i : nat) (held : list Mailbox.HeldMessage) (s : Services)
    : list Effect * Services :=
  match held with
  | [] => ([], s)
  | msg :: held =>
    let '(out, s) := deliver_one session clock (rng i) carries msg s in
    let '(out', s) := deliver_held session clock rng carries (S i) held s in
    (out ++ out', s)
  end.

Definition deliver_forwards (session : Session) (clock : Clock) (rng : nat -> bytes)
    (carries : Envelope -> bool) (s : Services) : list Effect * Services :=
  let '(held, m) := Mailbox.drain (peer_side session) (unix_now clock) (mailbox s) in
  deliver_held session clock rng carries 0 held (with_mailbox m s).

End Handlers.

(** ** The client of the storage server ([fetch_object]) *)

Section Client.
Context `{Crypto}.

(** What it sends on a new stream. *)
Definition fetch_request (session : Session) (side : SideKey) (hash : bytes) (clock : Clock)
    (nonce : bytes) : nresult bytes :=
  let req := {| StorageGet.hash := hash; StorageGet.range := None |} in
  env ← sign_response side (peer_side session) STORAGE_GET (StorageGet.encode req) clock nonce;
  open_and_send session env.

(** What it makes of the answer. *)
Definition fetch_finish (hash : bytes) (stream : bytes) : nresult (option bytes) :=
  '(resp, _) ← recv_envelope stream;
  if message_type resp =? STORAGE_HAVE then
    have ← core (StorageHave.decode (payload resp));
    if bool_decide (blake3 (StorageHave.body have) = hash) then mret (Some (StorageHave.body have))
    else NErr (NetInvariant "storage have: hash mismatch")
  else if message_type resp =? STORAGE_MISS then mret None
  else NErr (NetInvariant "unexpected storage response").

End Client.
