(* ===== verification/NodeFacts.v ===== *)
(** Theorems about the node: what the gates let through over any interleaving
    of the sessions of a node, and what the storage and gossip servers do. *)

From S2P Require Import Prelude Containers Utf8 Cbor CborCodec CborValue Keys Envelope Payload Handshake Discovery Replay Reputation NetTables Session Storage StorageProtocol Node.

Open Scope N_scope.

(** ** Interleavings *)

(** One step of one of the node's sessions. *)
Inductive event :=
| EStorage (session : Session) (clock : Clock) (nonce stream : bytes)
| EGossip (session : Session) (clock : Clock) (nonce stream : bytes)
| EDeliver (session : Session) (clock : Clock) (rng : nat -> bytes) (carries : Envelope -> bool).

Definition event_clock (e : event) : Clock :=
  match e with
  | EStorage _ clock _ _ | EGossip _ clock _ _ | EDeliver _ clock _ _ => clock
  end.

Section Runs.
Context `{HashIter, Crypto}.

Definition run_event (e : event) (s : Services) : Handled :=
  match e with
  | EStorage session clock nonce stream => serve_storage_step session clock nonce stream s
  | EGossip session clock nonce stream => serve_gossip_step session clock nonce stream s
  | EDeliver session clock rng carries =>
    let '(out, s) := deliver_forwards session clock rng carries s in (out, s, NOk tt)
  end.

(** The steps of all sessions, in the order the node's locks put them. *)
Fixpoint run_events (es : list event) (s : Services) : Services :=
  match es with [] => s | e :: es => run_events es (run_event e s).1.2 end.

(** The envelope a step takes off its stream. *)
Definition incoming (e : event) : option Envelope :=
  match e with
  | EStorage session _ _ stream | EGossip session _ _ stream =>
    match accept_one session stream with NOk (env, _) => Some env | NErr _ => None end
  | EDeliver _ _ _ _ => None
  end.

(** A step whose envelope passes both gates. *)
Definition admitted (e : event) (s : Services) : bool :=
  match incoming e with Some env => (admit_envelope (event_clock e) env s).1 | None => false end.

End Runs.

(** The tables the servers act on, those of the gates apart. *)
Record same_tables (s s' : Services) : Prop := {
  same_side : side s' = side s;
  same_store : store s' = store s;
  same_peers : peers s' = peers s;
  same_mailbox : mailbox s' = mailbox s;
  same_gossip : gossip s' = gossip s;
  same_active : active_gossip s' = active_gossip s;
  same_provenance : provenance s' = provenance s;
  same_policy : gossip_policy s' = gossip_policy s;
  same_relationships : relationships s' = relationships s
}.

#[export] Instance same_tables_preorder : PreOrder same_tables.
Proof.
  split; [done|]. intros s1 s2 s3 [] []. split; etrans; eassumption.
Qed.

(** ** The gates *)

Section GateLemmas.
Context `{HashIterLaws}.

Lemma admit_tables clock env s : same_tables s (admit_envelope clock env s).2.
Proof using.
  unfold admit_envelope, check_reputation_gate, check_freshness_and_replay_metered.
  destruct (Reputation.observe_envelope _ _ _) as [[] rep]; [|done].
  destruct clock as [now|]; [|done]. destruct (SOFT_MAX_SKEW_SECS <? _); [done|].
  destruct (DEFAULT_MAX_SKEW_SECS <? _); cbn; by destruct (Replay.observe _ _ _ _) as [[] c].
Qed.

(** The replay cache after the gates. *)
Lemma admit_replay clock env s :
  replay (admit_envelope clock env s).2 = replay s \/
  exists now, clock = Some now /\
    replay (admit_envelope clock env s).2 = (Replay.observe now (from env) (nonce env) (replay s)).2.
Proof using.
  unfold admit_envelope, check_reputation_gate, check_freshness_and_replay_metered.
  destruct (Reputation.observe_envelope _ _ _) as [[] rep]; [|by left].
  destruct clock as [now|]; [|by left]. destruct (SOFT_MAX_SKEW_SECS <? _); [by left|].
  right. exists now. split; [done|].
  destruct (DEFAULT_MAX_SKEW_SECS <? _); cbn; by destruct (Replay.observe _ _ _ _) as [[] c].
Qed.

(** What the gates let through. *)
Lemma admit_ok now env s :
  (admit_envelope (Some now) env s).1 =
  (Reputation.observe_envelope (from env) now (reputation s)).1 &&
  (abs_diff (timestamp env) now <=? SOFT_MAX_SKEW_SECS) &&
  negb (Replay.observe now (from env) (nonce env) (replay s)).1.
Proof using.
  unfold admit_envelope, check_reputation_gate, check_freshness_and_replay_metered, unix_now. cbn [default].
  destruct (Reputation.observe_envelope _ _ _) as [[] rep]; [|done].
  rewrite (N.leb_antisym (SOFT_MAX_SKEW_SECS) _). cbn [fst andb negb].
  destruct (SOFT_MAX_SKEW_SECS <? _); [done|].
  destruct (DEFAULT_MAX_SKEW_SECS <? _); cbn; by destruct (Replay.observe _ _ _ _) as [[] c].
Qed.

Lemma admit_no_clock env s : (admit_envelope None env s).1 = false.
Proof using.
  unfold admit_envelope, check_reputation_gate, check_freshness_and_replay_metered.
  by destruct (Reputation.observe_envelope _ _ _) as [[] rep].
Qed.

Lemma admitted_replay now env s :
  (admit_envelope (Some now) env s).1 = true ->
  (Replay.observe now (from env) (nonce env) (replay s)).1 = false /\
  replay (admit_envelope (Some now) env s).2 = (Replay.observe now (from env) (nonce env) (replay s)).2.
Proof using.
  intros Hadm. pose proof Hadm as Hall. rewrite admit_ok, !andb_true_iff in Hall.
  destruct Hall as [[Hrep Hskew] Hrp]. apply negb_true_iff in Hrp. split; [done|].
  destruct (admit_replay (Some now) env s) as [E|(now' & [= <-] & E)]; [|done].
  revert E. unfold admit_envelope, check_reputation_gate, check_freshness_and_replay_metered, unix_now.
  cbn [default]. destruct (Reputation.observe_envelope _ _ _) as [ok rep]. cbn [fst] in Hrep. subst ok.
  rewrite (proj2 (N.ltb_ge _ _)) by (by apply N.leb_le).
  destruct (DEFAULT_MAX_SKEW_SECS <? _); cbn; by destruct (Replay.observe _ _ _ _) as [[] c].
Qed.
End GateLemmas.

(** ** The handlers leave the gates' tables alone *)

Section HandlerLemmas.
Context `{HashIterLaws, Crypto}.

(** What the gates consult. *)
Definition same_gates (s s' : Services) : Prop :=
  replay s' = replay s /\ reputation s' = reputation s.

Lemma respond_state resp s : (respond resp s).1.2 = s.
Proof using. unfold respond. by destruct (mbind _ resp). Qed.

Lemma ingest_gates clock env h stream s : same_gates s (ingest clock env h stream s).
Proof using.
  unfold ingest. destruct (recv_envelope stream) as [[have_env r]|]; [|done].
  destruct (negb _); [done|]. destruct (StorageHave.decode _) as [have|]; [|done].
  destruct (negb _); [done|]. destruct (Objects.put _ _ _) as [addr st]. by case_bool_decide.
Qed.

Lemma handle_storage_gates clock n env stream s : same_gates s (handle_storage clock n env stream s).1.2.
Proof using.
  unfold handle_storage. destruct (_ =? STORAGE_GET).
  { unfold handle_storage_get. destruct (StorageGet.decode _) as [req|]; [|done].
    destruct (build_storage_response _ _ _ _ _ _) as [resp st]. by rewrite respond_state. }
  destruct (_ =? STORAGE_OFFER).
  { unfold handle_storage_offer. destruct (StorageOffer.decode _) as [o|]; [|done].
    destruct (mbind _ _); [|done]. destruct (Objects.has _ _); [done|]. apply ingest_gates. }
  destruct (_ =? STORAGE_RETRACT); [|done].
  unfold handle_storage_retract. destruct (StorageRetract.decode _) as [r|]; [|done].
  destruct (negb _); [done|]. destruct (Provenance.drop_publisher _ _ _) as [[] t]; [done|].
  by destruct (Objects.has _ _).
Qed.

Lemma handle_gossip_gates peer clock n env s : same_gates s (handle_gossip peer clock n env s).1.2.
Proof using.
  unfold handle_gossip. destruct (_ =? PEER_ASK).
  { destruct (PeerAsk.decode _); [|done]. by rewrite respond_state. }
  destruct (_ =? RENDEZVOUS).
  { destruct (Rendezvous.decode _); [|done]. by rewrite respond_state. }
  destruct (_ =? FORWARD_STORE); [by destruct (ForwardStore.decode _)|].
  destruct (category _); try done. by destruct (Gossip.observe _ _ _) as [[] g].
Qed.

Lemma deliver_held_gates session clock rng carries held : forall i s,
  same_gates s (deliver_held session clock rng carries i held s).2.
Proof using.
  induction held as [|msg held IH]; intros i s; [done|]. cbn [deliver_held].
  assert (same_gates s (deliver_one session clock (rng i) carries msg s).2) as [E1 E2].
  { unfold deliver_one. destruct (_ <=? _); [done|]. destruct (sign_response _ _ _ _ _ _); [|done].
    destruct (open_and_send _ _); [|done]. by destruct (carries _). }
  destruct (deliver_one session clock (rng i) carries msg s) as [out s1]. cbn [snd] in *.
  destruct (IH (S i) s1) as [E3 E4]. destruct (deliver_held _ _ _ _ _ _ s1).
  split; etrans; eassumption.
Qed.

(** A step runs the gates on the envelope it takes, and only then a handler. *)
Lemma serve_step_inv handle session clock n stream s :
  match accept_one session stream with
  | NErr e => serve_step handle session clock n stream s = ([], s, NErr e)
  | NOk (env, rest) =>
    serve_step handle session clock n stream s =
      if (admit_envelope clock env s).1 then handle clock n env rest (admit_envelope clock env s).2
      else go_on (admit_envelope clock env s).2
  end.
Proof using.
  unfold serve_step. destruct (accept_one session stream) as [[env rest]|]; [|done].
  by destruct (admit_envelope clock env s) as [[] s'].
Qed.

(** A step changes the tables of the gates at most by running the gates. *)
Lemma run_event_gates e s :
  same_gates s (run_event e s).1.2 \/
  exists env, same_gates (admit_envelope (event_clock e) env s).2 (run_event e s).1.2.
Proof using.
  assert (forall handle session clock n stream,
    (forall env rest s', same_gates s' (handle clock n env rest s').1.2) ->
    let s' := (serve_step handle session clock n stream s).1.2 in
    same_gates s s' \/ exists env, same_gates (admit_envelope clock env s).2 s') as Hstep.
  { intros handle session clock n stream Hh. pose proof (serve_step_inv handle session clock n stream s) as E.
    destruct (accept_one session stream) as [[env rest]|]; rewrite E; [|by left].
    right. exists env. destruct (admit_envelope clock env s).1; [apply Hh|done]. }
  destruct e as [session clock n stream|session clock n stream|session clock rng carries].
  - apply Hstep. intros. apply handle_storage_gates.
  - apply Hstep. intros. apply handle_gossip_gates.
  - left. cbn [run_event]. unfold deliver_forwards.
    destruct (Mailbox.drain _ _ _) as [held m].
    pose proof (deliver_held_gates session clock rng carries held 0 (with_mailbox m s)) as E.
    by destruct (deliver_held _ _ _ _ _ _ _).
Qed.

Lemma run_event_replay e s :
  replay (run_event e s).1.2 = replay s \/
  exists now from nonce, event_clock e = Some now /\
    replay (run_event e s).1.2 = (Replay.observe now from nonce (replay s)).2.
Proof using.
  destruct (run_event_gates e s) as [[-> _]|(env & -> & _)]; [by left|].
  destruct (admit_replay (event_clock e) env s) as [?|(now & ? & ?)]; [by left|right; by eauto].
Qed.

(** An entry of the replay cache survives the steps taken while it is alive,
    as long as there is room. *)
Lemma run_events_keep k t0 es : forall s,
  Replay.entries (replay s) !! k = Some t0 ->
  Forall (fun e => forall now, event_clock e = Some now -> now - t0 < Replay.ttl (replay s)) es ->
  N.of_nat (size (Replay.entries (replay s)) + length es) <= Replay.max_entries (replay s) ->
  Replay.entries (replay (run_events es s)) !! k = Some t0 /\
  Replay.ttl (replay (run_events es s)) = Replay.ttl (replay s).
Proof.
  induction es as [|e es IH]; intros s Hk Hall Hs; [done|].
  inversion Hall as [|? ? Hnow Hall']; subst. cbn [run_events length] in *.
  destruct (run_event_replay e s) as [E|(now & fr & n & Hc & E)].
  - specialize (IH (run_event e s).1.2). rewrite E in IH. apply IH; [done|done|lia].
  - destruct (Replay.observe_keeps now fr n (replay s) k t0) as [Hk' Hs'];
      [lia|by apply Replay.live_lookup; auto|].
    destruct (Replay.observe_fields now fr n (replay s)) as [Ht Hm]. rewrite <-E in *.
    destruct (IH (run_event e s).1.2) as [Hk2 Ht2]; [done|by rewrite Ht|rewrite Hm; lia|].
    split; [done|congruence].
Qed.
End HandlerLemmas.

(** ** Admission *)

(** The counters of the three causes a refusal has. *)
Definition drop_counters : list Metrics.counter :=
  [Metrics.DroppedReputation; Metrics.DroppedFreshness; Metrics.DroppedReplay].

Lemma observe_answer `{HashIter} now from nonce c :
  (Replay.observe now from nonce c).1 = false <->
  forall t, Replay.entries c !! (from, nonce) = Some t -> Replay.ttl c <= now - t.
Proof.
  destruct (Replay.live c now !! Replay.mk_key from nonce) as [t|] eqn:E.
  - rewrite Replay.observe_hit by eauto. split; [done|]. intros Hall.
    apply Replay.live_lookup in E as [E Hlt]. specialize (Hall t E). lia.
  - rewrite Replay.observe_miss by done. split; [|done]. intros _ t Ht.
    destruct (N.le_gt_cases (Replay.ttl c) (now - t)) as [|Hlt]; [done|].
    assert (Replay.live c now !! Replay.mk_key from nonce = Some t) by (by apply Replay.live_lookup).
    congruence.
Qed.

(** An envelope is admitted exactly when its sender is neither refused nor
    out of tokens, its timestamp is at most 900 seconds off, and the replay
    cache has no live entry for it; the gates touch none of the tables the
    servers work on, and a refusal is counted under exactly one cause. *)
Theorem admit_spec `{HashIter} now env s :
  let s' := (admit_envelope (Some now) env s).2 in
  ((admit_envelope (Some now) env s).1 = true <->
     (Reputation.observe_envelope (from env) now (reputation s)).1 = true /\
     abs_diff (timestamp env) now <= SOFT_MAX_SKEW_SECS /\
     (forall t, Replay.entries (replay s) !! (from env, nonce env) = Some t ->
        Replay.ttl (replay s) <= now - t)) /\
  same_tables s s' /\
  (if (admit_envelope (Some now) env s).1
   then forall c, c ∈ drop_counters -> metrics s' c = metrics s c
   else exists c, c ∈ drop_counters /\ metrics s' c = (metrics s c + 1) mod u64_size /\
     forall c', c' ∈ drop_counters -> c' <> c -> metrics s' c' = metrics s c').
Proof.
  intros s'. split; [|split; [apply admit_tables|]].
  - rewrite admit_ok, !andb_true_iff, negb_true_iff, N.leb_le, observe_answer. tauto.
  - assert (forall c, c ∈ drop_counters <->
      c = Metrics.DroppedReputation \/ c = Metrics.DroppedFreshness \/ c = Metrics.DroppedReplay) as Hc.
    { intros c. unfold drop_counters. rewrite !elem_of_cons, elem_of_nil. tauto. }
    subst s'. unfold admit_envelope, check_reputation_gate, check_freshness_and_replay_metered, unix_now.
    cbn [default]. destruct (Reputation.observe_envelope _ _ _) as [[] rep].
    2: { exists Metrics.DroppedReputation. split; [apply Hc; auto|]. split; [done|].
         by intros c' [->|[->| ->]]%Hc. }
    destruct (SOFT_MAX_SKEW_SECS <? _).
    { exists Metrics.DroppedFreshness. split; [apply Hc; auto|]. split; [done|].
      by intros c' [->|[->| ->]]%Hc. }
    destruct (DEFAULT_MAX_SKEW_SECS <? _); cbn; destruct (Replay.observe _ _ _ _) as [[] c]; cbn.
    1, 3: exists Metrics.DroppedReplay; split; [apply Hc; auto|]; split; [done|];
      by intros c' [->|[->| ->]]%Hc.
    all: by intros c' [->|[->| ->]]%Hc.
Qed.

Lemma admitted_inv `{HashIter, Crypto} e s env t :
  incoming e = Some env -> event_clock e = Some t -> admitted e s = true ->
  replay (run_event e s).1.2 = (Replay.observe t (from env) (nonce env) (replay s)).2 /\
  (Replay.observe t (from env) (nonce env) (replay s)).1 = false.
Proof.
  unfold admitted. intros Hi Ht Ha. rewrite Hi, Ht in Ha.
  destruct (admitted_replay _ _ _ Ha) as [Ho Hr]. split; [|done]. rewrite <-Hr.
  destruct e as [session clock n stream|session clock n stream|]; cbn in Hi, Ht; [..|done]; subst clock;
    cbn [run_event]; unfold serve_storage_step, serve_gossip_step, serve_step;
    destruct (accept_one session stream) as [[env' rest]|]; try done; injection Hi as ->;
    destruct (admit_envelope (Some t) env s) as [ok s1]; cbn [fst snd] in *; subst ok.
  - apply handle_storage_gates.
  - apply handle_gossip_gates.
Qed.

(** A step whose envelope the gates refuse does nothing else. *)
Lemma refused_step `{HashIter, Crypto} e s env :
  incoming e = Some env -> admitted e s = false ->
  exists s', run_event e s = ([], s', NOk tt) /\ same_tables s s'.
Proof.
  unfold admitted. intros Hi Ha. rewrite Hi in Ha. exists (admit_envelope (event_clock e) env s).2.
  split; [|apply admit_tables].
  destruct e as [session clock n stream|session clock n stream|]; cbn in Hi, Ha; [..|done];
    cbn [run_event event_clock]; unfold serve_storage_step, serve_gossip_step, serve_step;
    destruct (accept_one session stream) as [[env' rest]|]; try done; injection Hi as ->;
    destruct (admit_envelope clock env s) as [ok s1]; cbn [fst] in Ha; by subst ok.
Qed.

(** Whatever the node's sessions do in between, an envelope admitted once
    is inert when it comes again within the time to live of the replay cache,
    on any session: no effect, no change of any table, as long as the cache
    has had room for the steps in between. *)
Theorem replay_is_inert `{HashIterLaws, Crypto} e1 e2 es s env1 env2 t1 t2
    (I1 : incoming e1 = Some env1) (I2 : incoming e2 = Some env2)
    (Kf : from env2 = from env1) (Kn : nonce env2 = nonce env1)
    (C1 : event_clock e1 = Some t1) (C2 : event_clock e2 = Some t2)
    (A : admitted e1 s = true)
    (W : Forall (fun e => forall now, event_clock e = Some now -> now - t1 < Replay.ttl (replay s)) es)
    (R : N.of_nat (size (Replay.entries (replay (run_event e1 s).1.2)) + length es)
         <= Replay.max_entries (replay s))
    (T : t2 - t1 < Replay.ttl (replay s)) :
  let s2 := run_events es (run_event e1 s).1.2 in
  exists s3, run_event e2 s2 = ([], s3, NOk tt) /\ same_tables s2 s3.
Proof.
  intros s2. apply (refused_step _ _ env2 I2). unfold admitted. rewrite I2, C2, admit_ok.
  apply andb_false_intro2, negb_false_iff, not_false_iff_true. rewrite observe_answer, Kf, Kn.
  destruct (admitted_inv e1 s env1 t1 I1 C1 A) as [E Ho].
  destruct (Replay.observe_fields t1 (from env1) (nonce env1) (replay s)) as [Hl Hm].
  rewrite <-E in Hl, Hm.
  assert (Replay.entries (replay (run_event e1 s).1.2) !! Replay.mk_key (from env1) (nonce env1)
          = Some t1) as Hk.
  { rewrite E. destruct (Replay.live (replay s) t1 !! Replay.mk_key (from env1) (nonce env1)) eqn:El;
      [by rewrite Replay.observe_hit in Ho by eauto|].
    rewrite Replay.observe_miss by done. cbn. by rewrite lookup_insert_eq. }
  destruct (run_events_keep _ t1 es _ Hk) as [Hk2 Hl2]; [by rewrite Hl|lia|].
  fold s2 in Hk2, Hl2. intros Hall. specialize (Hall t1 Hk2). rewrite Hl2, Hl in Hall. lia.
Qed.

(** The time to live (600 seconds) is shorter than the time a timestamp
    stays acceptable (900 seconds on either side): an admitted envelope is
    admitted a second time once 600 seconds have passed, if its timestamp is
    still within 900 seconds and its sender has a token left. *)
Theorem replay_window_gap `{HashIter} env s t0 t
    (L : Replay.ttl (replay s) = Replay.DEFAULT_TTL_SECS)
    (A : (admit_envelope (Some t0) env s).1 = true)
    (T : t0 + 600 <= t) (S : abs_diff (timestamp env) t <= 900)
    (B : (Reputation.observe_envelope (from env) t (reputation (admit_envelope (Some t0) env s).2)).1 = true) :
  (admit_envelope (Some t) env (admit_envelope (Some t0) env s).2).1 = true.
Proof.
  destruct (admitted_replay _ _ _ A) as [Ho E].
  rewrite admit_ok, B, (proj2 (N.leb_le _ _)) by done. cbn [andb].
  apply negb_true_iff, observe_answer. rewrite E.
  destruct (Replay.live (replay s) t0 !! Replay.mk_key (from env) (nonce env)) eqn:El;
    [by rewrite Replay.observe_hit in Ho by eauto|].
  rewrite Replay.observe_miss by done. cbn.
  destruct (Replay.make_room_fields (Replay.sweep t0 (replay s))) as [-> _]. cbn. rewrite L.
  change (from env, nonce env) with (Replay.mk_key (from env) (nonce env)).
  intros t1. rewrite lookup_insert_eq. intros [= <-]. unfold Replay.DEFAULT_TTL_SECS. lia.
Qed.

Lemma admit_refused `{HashIter} clock env s p :
  Reputation.is_refused p (reputation (admit_envelope clock env s).2) = Reputation.is_refused p (reputation s).
Proof.
  unfold admit_envelope, check_reputation_gate, check_freshness_and_replay_metered.
  set (now := unix_now clock). cbn [reputation incr].
  assert (Reputation.is_refused p (Reputation.observe_envelope (from env) now (reputation s)).2
          = Reputation.is_refused p (reputation s)) as <-.
  { unfold Reputation.observe_envelope, Reputation.is_refused.
    pose proof (Reputation.observe_rep_refused (Reputation.policy (reputation s)) now
      (Reputation.entry_or_fresh (from env) now (reputation s))) as Er.
    destruct (Reputation.observe_rep _ _ _) as [ok r]. cbn [snd] in *.
    rewrite Reputation.lookup_put. case_decide as Hp; [|done]. rewrite Er, Hp.
    unfold Reputation.entry_or_fresh. by destruct (Reputation.reps _ !! _). }
  destruct (Reputation.observe_envelope _ _ _) as [[] rep]; [|done].
  destruct clock as [t|]; [|done]. destruct (SOFT_MAX_SKEW_SECS <? _); [done|].
  destruct (DEFAULT_MAX_SKEW_SECS <? _); cbn; by destruct (Replay.observe _ _ _ _) as [[] c].
Qed.

(** The servers never raise a sender's refusal: whatever envelopes come in,
    malformed ones included, every peer is refused after a run exactly if it
    was before; the thresholds on bad signatures and malformed payloads are
    not fed by the receive path. *)
Theorem serving_never_refuses `{HashIter, Crypto} es s p :
  Reputation.is_refused p (reputation (run_events es s)) = Reputation.is_refused p (reputation s).
Proof.
  revert s. induction es as [|e es IH]; intros s; [done|]. cbn [run_events]. rewrite IH.
  destruct (run_event_gates e s) as [[_ ->]|(env & _ & ->)]; [done|]. apply admit_refused.
Qed.

(** ** The storage server *)

Section StorageServer.
Context `{CryptoLaws}.

Lemma accept_frame session e rest :
  valid e -> blen (to_wire_bytes e) <= MAX_ENVELOPE_LEN ->
  Intent.accepts (intent session) (message_type e) = true ->
  accept_one session (frame e ++ rest) = NOk (e, rest).
Proof using.
  intros Hv Hl Hi. unfold accept_one.
  rewrite (proj2 (recv_envelope_ok (frame e ++ rest) e rest)) by done. cbn. by rewrite Hi.
Qed.

(** A response that fits an envelope is received. *)
Lemma sign_response_ok sd peer mt pl now n :
  mt <= 0xFF -> blen peer = PUBLIC_KEY_LEN -> now < u64_size -> blen n = NONCE_LEN ->
  blen pl <= 65236 ->
  exists e, sign_response sd peer mt pl (Some now) n = NOk e /\ valid e /\
    blen (to_wire_bytes e) <= MAX_ENVELOPE_LEN /\ message_type e = mt /\ payload e = pl /\
    from e = public_bytes sd.
Proof.
  intros. unfold sign_response. cbn [core now_unix_seconds ok_or mbind nresult_bind].
  destruct (sign_with_valid mt sd (Some peer) pl now n) as (e & -> & ?); [done..|].
  by exists e.
Qed.

(** One whose payload alone exceeds the limit cannot be sent. *)
Lemma respond_too_large sd peer mt pl now n s :
  MAX_ENVELOPE_LEN < blen pl ->
  exists len, respond (sign_response sd peer mt pl (Some now) n) s =
    ([], s, NErr (EnvelopeTooLarge len MAX_ENVELOPE_LEN)).
Proof using.
  intros Hpl. unfold respond, sign_response.
  cbn [core now_unix_seconds ok_or mbind nresult_bind sign_with mret result_ret].
  match goal with |- context [send_envelope ?e] => set (env := e) end.
  assert (blen pl <= blen (to_wire_bytes env)) as Hle.
  { change pl with (payload env). apply blen_payload_le. }
  unfold send_envelope. rewrite (proj2 (N.ltb_lt _ _)) by lia. by eexists.
Qed.

Lemma have_bounds h b :
  blen h = 32 ->
  let p := {| StorageHave.hash := h; StorageHave.body := b; StorageHave.final_ := true |} in
  blen b <= blen (StorageHave.encode p) /\
  (blen b <= 65000 -> blen (StorageHave.encode p) <= 65236 /\
                      StorageHave.decode (StorageHave.encode p) = Ok p).
Proof using.
  intros Hh p. split.
  - etrans; [|apply (blen_value_le (StorageHave.entries p) (entry "bytes" (bytestr b))); right; by left].
    cbn [value_bytes entry]. apply blen_bytestr_le.
  - intros Hb. assert (blen (StorageHave.encode p) <= 65236) as Hle.
    { pose proof (blen_bytestr_ub h). pose proof (blen_bytestr_ub b). unfold StorageHave.encode, StorageHave.entries, p.
      cbn [StorageHave.hash StorageHave.body StorageHave.final_]. bound_map. lia. }
    split; [done|]. apply (decode_prefix StorageHave.encode _ StorageHave.wf); [unfold u64_size; lia|].
    split; [|exists []; by rewrite app_nil_r].
    split; [done|]. unfold wf_bytes, p, u64_size. cbn. lia.
Qed.

Lemma miss_bounds h :
  blen h = 32 ->
  blen (StorageMiss.encode {| StorageMiss.hash := h; StorageMiss.hints := [] |}) <= 65236.
Proof using.
  intros Hh. pose proof (blen_bytestr_ub h). unfold StorageMiss.encode, StorageMiss.entries.
  cbn [StorageMiss.hash StorageMiss.hints].
  change (write_array bytestr []) with (encode_array_of_text []). bound_map. lia.
Qed.

Lemma get_request_ok h :
  blen h = 32 ->
  let p := {| StorageGet.hash := h; StorageGet.range := None |} in
  blen (StorageGet.encode p) <= 65236 /\ StorageGet.decode (StorageGet.encode p) = Ok p.
Proof using.
  intros Hh p. assert (blen (StorageGet.encode p) <= 65236) as Hle.
  { pose proof (blen_bytestr_ub h). unfold StorageGet.encode, StorageGet.entries, p.
    cbn [StorageGet.hash StorageGet.range or_null]. bound_map. change (blen null) with 1. lia. }
  split; [done|]. apply (decode_prefix StorageGet.encode _ StorageGet.wf); [unfold u64_size; lia|].
  split; [|exists []; by rewrite app_nil_r]. by split.
Qed.
End StorageServer.

(** The bytes [fetch_object] sends are the frame of a [StorageGet]. *)
Lemma fetch_request_ok `{CryptoLaws} session a h t1 n1 req :
  intent session = Intent.Storage -> blen h = 32 -> blen (peer_side session) = PUBLIC_KEY_LEN ->
  t1 < u64_size -> blen n1 = NONCE_LEN ->
  fetch_request session a h (Some t1) n1 = NOk req ->
  exists e, req = frame e /\ valid e /\ blen (to_wire_bytes e) <= MAX_ENVELOPE_LEN /\
    message_type e = STORAGE_GET /\ from e = public_bytes a /\
    payload e = StorageGet.encode {| StorageGet.hash := h; StorageGet.range := None |}.
Proof.
  intros Hi Hh Hp Ht Hn. unfold fetch_request. destruct (get_request_ok h Hh) as [Hl _].
  destruct (sign_response_ok a (peer_side session) STORAGE_GET
    (StorageGet.encode {| StorageGet.hash := h; StorageGet.range := None |}) t1 n1)
    as (e & -> & Hv & Hlen & Hty & Hpl & Hf); [done..|].
  cbn [mbind nresult_bind]. unfold open_and_send. rewrite Hi, Hty. cbn.
  rewrite send_envelope_frame by done. intros [= <-]. by exists e.
Qed.

(** The server's answer to a client that fetches [h] out of [st]: the object's
    bytes when they fit an envelope, a miss when there is no such object; an
    object larger than an envelope gets no answer and ends the session. *)
Definition answers_fetch `{Crypto} (h : bytes) (st : Objects.Store) (answer : Handled) : Prop :=
  (forall b, ObjectsFacts.content st h = Some b -> blake3 b = h ->
     (blen b <= 65000 -> exists w, answer.1.1 = [Write w] /\ answer.2 = NOk tt /\
        fetch_finish h w = NOk (Some b)) /\
     (MAX_ENVELOPE_LEN < blen b -> answer.1.1 = [] /\
        exists n, answer.2 = NErr (EnvelopeTooLarge n MAX_ENVELOPE_LEN))) /\
  (Objects.rows st !! h = None ->
     exists w, answer.1.1 = [Write w] /\ answer.2 = NOk tt /\ fetch_finish h w = NOk None).

(** The answer to a [StorageGet] without a range. *)
Lemma get_answer `{HashIter, CryptoLaws} e s t2 n2 h :
  message_type e = STORAGE_GET -> blen h = 32 -> blen (from e) = PUBLIC_KEY_LEN ->
  payload e = StorageGet.encode {| StorageGet.hash := h; StorageGet.range := None |} ->
  t2 < u64_size -> blen n2 = NONCE_LEN ->
  answers_fetch h (store s) (handle_storage (Some t2) n2 e [] s).
Proof.
  intros Hty Hh Hf Hpl Ht Hn. destruct (get_request_ok h Hh) as [_ Hdec].
  assert (forall resp st, build_storage_response (side s) (from e)
      {| StorageGet.hash := h; StorageGet.range := None |} (Some t2) n2 (store s) = (resp, st) ->
    handle_storage (Some t2) n2 e [] s = respond resp (with_store st s)) as Hans.
  { intros resp st E. unfold handle_storage. rewrite Hty. cbn [N.eqb Pos.eqb STORAGE_GET].
    unfold handle_storage_get. by rewrite Hpl, Hdec, E. }
  set (answer := handle_storage _ _ _ _ _) in *. split.
  - intros b Hb Hbh.
    pose proof (Hans _ _ ltac:(unfold build_storage_response;
      cbn [StorageGet.range StorageGet.hash];
      rewrite (ObjectsFacts.content_get h _ _ b) by done; reflexivity)) as E.
    subst answer. rewrite E. clear E Hans.
    destruct (have_bounds h b Hh) as [Hle Hfit]. split; intros Hlen.
    + destruct (Hfit Hlen) as [Hl Hd].
      destruct (sign_response_ok (side s) (from e) STORAGE_HAVE (StorageHave.encode
        {| StorageHave.hash := h; StorageHave.body := b; StorageHave.final_ := true |}) t2 n2)
        as (r & Hr & Hv & Hrl & Hrt & Hrp & _); [done..|].
      unfold respond. rewrite Hr. cbn [mbind nresult_bind]. rewrite send_envelope_frame by done.
      exists (frame r). split; [done|]. split; [done|]. unfold fetch_finish.
      rewrite (proj2 (recv_envelope_ok (frame r) r [])) by (rewrite app_nil_r; done).
      cbn [mbind nresult_bind]. rewrite Hrt, Hrp, Hd. cbn.
      by rewrite bool_decide_eq_true_2.
    + edestruct (respond_too_large (side s) (from e) STORAGE_HAVE) as [len E];
        [|rewrite E]; [lia|]. split; [done|]. by exists len.
  - intros Hr.
    pose proof (Hans _ _ ltac:(unfold build_storage_response, Objects.get;
      cbn [StorageGet.range StorageGet.hash]; rewrite Hr; reflexivity)) as E.
    subst answer. rewrite E. clear E Hans.
    destruct (sign_response_ok (side s) (from e) STORAGE_MISS
      (StorageMiss.encode {| StorageMiss.hash := h; StorageMiss.hints := [] |}) t2 n2)
      as (r & Hres & Hv & Hrl & Hrt & Hrp & _); [done..|exact (miss_bounds h Hh)|].
    unfold respond. rewrite Hres. cbn [mbind nresult_bind]. rewrite send_envelope_frame by done.
    exists (frame r). split; [done|]. split; [done|]. unfold fetch_finish.
    rewrite (proj2 (recv_envelope_ok (frame r) r [])) by (rewrite app_nil_r; done).
    cbn [mbind nresult_bind]. by rewrite Hrt.
Qed.

(** Fetching an object over the wire: the bytes [fetch_object] sends, once
    admitted, are answered with the object, verified against its hash, if the
    node has it and it fits an envelope, and with a miss if it does not have
    it.  An object of more than 64 KiB, such as any full chunk of
    [put_chunked], is not answered: the error ends the session's server. *)
Lemma fetch_served `{HashIter, CryptoLaws} sc ss a h t1 n1 t2 n2 req s
    (Ic : intent sc = Intent.Storage) (Is : intent ss = Intent.Storage)
    (Hh : blen h = 32) (Hp : blen (peer_side sc) = PUBLIC_KEY_LEN)
    (T1 : t1 < u64_size) (N1 : blen n1 = NONCE_LEN) (T2 : t2 < u64_size) (N2 : blen n2 = NONCE_LEN)
    (Q : fetch_request sc a h (Some t1) n1 = NOk req)
    (A : admitted (EStorage ss (Some t2) n2 req) s = true) :
  answers_fetch h (store s) (serve_storage_step ss (Some t2) n2 req s).
Proof.
  destruct (fetch_request_ok sc a h t1 n1 req) as (e & -> & Hv & Hl & Hty & Hf & Hpl); [done..|].
  assert (accept_one ss (frame e) = NOk (e, [])) as Ha.
  { rewrite <-(app_nil_r (frame e)). apply accept_frame; [done|done|]. by rewrite Is, Hty. }
  unfold admitted in A. cbn [incoming event_clock] in A. rewrite Ha in A.
  unfold serve_storage_step. pose proof (serve_step_inv handle_storage ss (Some t2) n2 (frame e) s) as E.
  rewrite Ha in E. rewrite E, A. rewrite <-(same_store _ _ (admit_tables (Some t2) e s)).
  apply get_answer; try done. rewrite Hf. apply ed_public_length.
Qed.

(** An offer can change one object at most: if the node has the offered
    object nothing is taken over and the offerer is not noted as a publisher;
    otherwise whatever follows is one [put] at most, and only bytes that hash
    to the offered hash make the sender a publisher. *)
Theorem offer_spec `{HashIter, Crypto} clock n env stream offer s
    (D : StorageOffer.decode (payload env) = Ok offer) :
  let hash := Reference.hash (StorageOffer.reference offer) in
  let s' := (handle_storage_offer clock n env stream s).1.2 in
  (Objects.has hash (store s) = true -> store s' = store s /\ provenance s' = provenance s) /\
  ((store s' = store s /\ provenance s' = provenance s) \/
   (exists body, store s' = (Objects.put body (unix_now clock) (store s)).2 /\
      provenance s' = if decide (blake3 body = hash)
                      then Provenance.note_publisher hash (from env) (provenance s)
                      else provenance s)).
Proof.
  intros hash s'. subst s'. unfold handle_storage_offer. rewrite D. fold hash.
  destruct (mbind _ _) as [w|e]; [|by split; [|left]].
  destruct (Objects.has hash (store s)); [by split; [|left]|]. split; [done|]. cbn [fst snd].
  unfold ingest. destruct (recv_envelope stream) as [[have_env r]|]; [|by left].
  destruct (negb _); [by left|]. destruct (StorageHave.decode _) as [have|]; [|by left].
  destruct (negb _); [by left|]. right. exists (StorageHave.body have).
  assert ((Objects.put (StorageHave.body have) (unix_now clock) (store s)).1
          = blake3 (StorageHave.body have)) as Hh by (unfold Objects.put; by case_match).
  destruct (Objects.put _ _ _) as [addr st]. cbn [fst snd] in *. subst addr.
  case_bool_decide as Hb; [|by rewrite decide_False]. by rewrite decide_True, Hb.
Qed.

(** The bytes that follow an accepted offer are stored before their hash is
    compared: bytes that do not match the offer are kept, under their own
    hash, without a publisher. *)
Theorem mismatched_bytes_kept `{HashIter, CryptoLaws} t n env stream offer have_env have s rest
    (D : StorageOffer.decode (payload env) = Ok offer)
    (New : Objects.has (Reference.hash (StorageOffer.reference offer)) (store s) = false)
    (Hf : blen (from env) = PUBLIC_KEY_LEN) (T : t < u64_size) (N : blen n = NONCE_LEN)
    (W : blen (Reference.hash (StorageOffer.reference offer)) = 32)
    (R : recv_envelope stream = NOk (have_env, rest)) (Ht : message_type have_env = STORAGE_HAVE)
    (Hd : StorageHave.decode (payload have_env) = Ok have)
    (Hh : StorageHave.hash have = Reference.hash (StorageOffer.reference offer))
    (M : blake3 (StorageHave.body have) <> StorageHave.hash have)
    (C : ObjectsFacts.consistent (store s)) (F : ObjectsFacts.fits_in (store s) (StorageHave.body have)) :
  let s' := (handle_storage_offer (Some t) n env stream s).1.2 in
  ObjectsFacts.content (store s') (blake3 (StorageHave.body have)) = Some (StorageHave.body have) /\
  provenance s' = provenance s.
Proof.
  intros s'. set (hash := Reference.hash (StorageOffer.reference offer)) in *.
  assert (s' = ingest (Some t) env hash stream s) as ->.
  { subst s'. unfold handle_storage_offer. rewrite D. fold hash. rewrite New.
    assert (blen (StorageWant.encode {| StorageWant.hash := hash; StorageWant.want := true |}) <= 65236).
    { pose proof (blen_bytestr_ub hash). unfold StorageWant.encode, StorageWant.entries.
      cbn [StorageWant.hash StorageWant.want]. bound_map. lia. }
    destruct (sign_response_ok (side s) (from env) STORAGE_WANT
      (StorageWant.encode {| StorageWant.hash := hash; StorageWant.want := true |}) t n)
      as (r & Hr & _ & Hrl & _); [done..|].
    cbn [negb]. rewrite Hr. cbn [mbind nresult_bind]. by rewrite send_envelope_frame. }
  unfold ingest. rewrite R, Ht. cbn [negb N.eqb Pos.eqb STORAGE_HAVE]. rewrite Hd, Hh.
  rewrite bool_decide_eq_true_2 by done. cbn [negb].
  pose proof (ObjectsFacts.content_put (StorageHave.body have) (unix_now (Some t)) (store s)
    (blake3 (StorageHave.body have)) C F) as Hput. rewrite decide_True in Hput by done.
  assert ((Objects.put (StorageHave.body have) (unix_now (Some t)) (store s)).1
          = blake3 (StorageHave.body have)) as Ha by (unfold Objects.put; by case_match).
  destruct (Objects.put _ _ _) as [addr st]. cbn [fst snd] in *. subst addr.
  rewrite bool_decide_eq_false_2 by congruence. done.
Qed.

(** A retract never takes bytes out of the store: every object reads as
    before.  From a sender that is not a recorded publisher it changes
    neither the store nor the publishers; from a publisher it removes that
    publisher only, and the object loses its pin exactly when none is left. *)
Theorem retract_spec `{HashIter} env s r
    (D : StorageRetract.decode (payload env) = Ok r) :
  let hash := StorageRetract.hash r in
  let s' := (handle_storage_retract env s).1.2 in
  (forall h, ObjectsFacts.content (store s') h = ObjectsFacts.content (store s) h) /\
  (Provenance.has_publisher hash (from env) (provenance s) = false ->
     store s' = store s /\ provenance s' = provenance s) /\
  (Provenance.has_publisher hash (from env) (provenance s) = true ->
     (forall h p, Provenance.has_publisher h p (provenance s') = true <->
        Provenance.has_publisher h p (provenance s) = true /\ ~ (h = hash /\ p = from env)) /\
     store s' = if decide (Provenance.publishers hash (provenance s) = {[from env]})
                then Objects.unpin hash (store s) else store s).
Proof.
  intros hash s'. subst s'. unfold handle_storage_retract. rewrite D. fold hash.
  destruct (Provenance.has_publisher hash (from env) (provenance s)) eqn:P; cbn [negb].
  2: { by split_and!. }
  pose proof (ProvenanceFacts.drop_publisher_ok hash (from env) (provenance s)) as Hdrop.
  assert (forall h, ObjectsFacts.content (Objects.unpin hash (store s)) h
                    = ObjectsFacts.content (store s) h) as Hunpin.
  { intros h. unfold ObjectsFacts.content, Objects.unpin. cbn.
    destruct (decide (h = hash)) as [->|Hn]; [|by rewrite lookup_alter_ne].
    rewrite lookup_alter_eq. by destruct (Objects.rows (store s) !! hash). }
  assert (Objects.has hash (store s) = false -> Objects.unpin hash (store s) = store s) as Hnone.
  { unfold Objects.has, Objects.unpin, Objects.with_rows. intros Hn%bool_decide_eq_false.
    rewrite alter_id; [by destruct (store s)|]. intros x Hx. exfalso. apply Hn. eauto. }
  destruct (Provenance.drop_publisher hash (from env) (provenance s)) as [others t] eqn:E.
  destruct Hdrop as [Hothers Hhas]. change (store (with_provenance t s)) with (store s).
  assert (others = false <-> Provenance.publishers hash (provenance s) = {[from env]}) as Ho.
  { rewrite <-(ProvenanceFacts.drop_publisher_last _ _ _ P). by rewrite E. }
  split; [|split; [done|]].
  - destruct others; [done|]. destruct (Objects.has hash (store s)); [exact Hunpin|done].
  - intros _. split.
    + destruct others; [done|]. by destruct (Objects.has hash (store s)).
    + destruct others.
      * rewrite decide_False; [done|]. intros Hp. by apply Ho in Hp.
      * rewrite decide_True by (by apply Ho).
        destruct (Objects.has hash (store s)) eqn:Eh; [done|]. by rewrite Hnone.
Qed.

(** ** The gossip server *)


(** ** Held messages *)

(** The queue of a recipient only grows during the deliveries. *)
Lemma deliver_held_spec `{Crypto} session t rng carries (G : intent session = Intent.Gossip) held :
  forall i s,
  let '(out, s') := deliver_held session (Some t) rng carries i held s in
  (forall m, m ∈ default [] (mailbox s !! peer_side session) ->
             m ∈ default [] (mailbox s' !! peer_side session)) /\
  (forall m, m ∈ held -> t < Mailbox.expires_at m ->
     Mailbox.expires_at m <= t + Mailbox.DEFAULT_TTL_SECS ->
     (exists bs env, Write bs ∈ out /\ send_envelope env = NOk bs /\
        from env = public_bytes (side s) /\ to env = Some (peer_side session) /\
        message_type env = FORWARD_DELIVER /\
        payload env = ForwardDeliver.encode
          {| ForwardDeliver.envelope := Mailbox.envelope m; ForwardDeliver.stored_at := Mailbox.stored_at m |})
     \/ (exists m', m' ∈ default [] (mailbox s' !! peer_side session) /\
           Mailbox.envelope m' = Mailbox.envelope m /\ Mailbox.expires_at m' = Mailbox.expires_at m)).
Proof.
  induction held as [|msg held IH]; intros i s.
  { split; [done|]. by intros m ?%elem_of_nil. }
  cbn [deliver_held].
  set (peer := peer_side session) in *.
  set (restored := Mailbox.store peer (Mailbox.envelope msg) t (Mailbox.expires_at msg - t) (mailbox s)).
  assert (default [] (restored !! peer) = default [] (mailbox s !! peer)
    ++ [Mailbox.held (Mailbox.envelope msg) t (Mailbox.expires_at msg - t)]) as Hres
    by (unfold restored, Mailbox.store; by rewrite lookup_insert_eq).
  set (step := deliver_one session (Some t) (rng i) carries msg s).
  assert (side step.2 = side s /\
    (forall m, m ∈ default [] (mailbox s !! peer) -> m ∈ default [] (mailbox step.2 !! peer)) /\
    (t < Mailbox.expires_at msg ->
     (exists bs env, Write bs ∈ step.1 /\ send_envelope env = NOk bs /\
        from env = public_bytes (side s) /\ to env = Some peer /\
        message_type env = FORWARD_DELIVER /\
        payload env = ForwardDeliver.encode
          {| ForwardDeliver.envelope := Mailbox.envelope msg;
             ForwardDeliver.stored_at := Mailbox.stored_at msg |})
     \/ mailbox step.2 = restored)) as (Hside & Hgrow & Hmsg).
  { assert (forall m, m ∈ default [] (mailbox s !! peer) -> m ∈ default [] (restored !! peer)) as Hg
      by (intros m Hm; rewrite Hres; set_solver).
    subst step. unfold deliver_one. cbn [unix_now default from_option id]. fold peer. fold restored.
    destruct (N.leb_spec (Mailbox.expires_at msg) t); [split_and!; [done|done|lia]|].
    unfold sign_response. cbn [core now_unix_seconds ok_or mbind nresult_bind sign_with mret result_ret].
    unfold open_and_send. rewrite G. cbn [message_type Intent.accepts category nensure mbind nresult_bind].
    change (Intent.accepts Intent.Gossip FORWARD_DELIVER) with true. cbn [nensure].
    match goal with |- context [send_envelope ?e] => set (env := e) end.
    destruct (send_envelope env) as [bs|err] eqn:Es; [destruct (carries env)|];
      (split; [done|]); (split; [done|]); intros _; [left|by right..].
    exists bs, env. split_and!; try done. cbn. set_solver. }
  destruct step as [out1 s1]. cbn [fst snd] in *. specialize (IH (S i) s1).
  destruct (deliver_held session (Some t) rng carries (S i) held s1) as [out2 s2].
  destruct IH as [Hkeep Hdel]. rewrite Hside in Hdel. split; [auto|].
  intros m [->|Hm]%elem_of_cons Hlive Hcap.
  - destruct (Hmsg Hlive) as [(bs & env & Hw & Henv)|E].
    + left. exists bs, env. split; [set_solver|done].
    + right. exists (Mailbox.held (Mailbox.envelope msg) t (Mailbox.expires_at msg - t)).
      split; [apply Hkeep; rewrite E, Hres; set_solver|]. split; [done|]. cbn.
      unfold Mailbox.DEFAULT_TTL_SECS in *. lia.
  - destruct (Hdel m Hm Hlive Hcap) as [(bs & env & Hw & Henv)|?]; [left|by right].
    exists bs, env. split; [set_solver|done].
Qed.

(** At the start of a gossip session every held message that is still
    alive is either written to the peer in a [ForwardDeliver] or held again
    with its old expiry, whichever sends the connection lets through; no
    message is dropped before it expires. *)
Theorem forward_delivery_keeps `{Crypto} session t rng carries s m
    (G : intent session = Intent.Gossip) (T : t < u64_size)
    (M : m ∈ default [] (mailbox s !! peer_side session))
    (L : t < Mailbox.expires_at m)
    (X : Mailbox.expires_at m <= t + Mailbox.DEFAULT_TTL_SECS) :
  let '(out, s') := deliver_forwards session (Some t) rng carries s in
  (exists bs env, Write bs ∈ out /\ send_envelope env = NOk bs /\
     from env = public_bytes (side s) /\ to env = Some (peer_side session) /\
     message_type env = FORWARD_DELIVER /\
     payload env = ForwardDeliver.encode
       {| ForwardDeliver.envelope := Mailbox.envelope m; ForwardDeliver.stored_at := Mailbox.stored_at m |})
  \/ (exists m', m' ∈ default [] (mailbox s' !! peer_side session) /\
        Mailbox.envelope m' = Mailbox.envelope m /\ Mailbox.expires_at m' = Mailbox.expires_at m).
Proof.
  unfold deliver_forwards, Mailbox.drain. cbn [unix_now default from_option id].
  assert (m ∈ List.filter (Mailbox.live t) (default [] (mailbox s !! peer_side session))) as Hm.
  { apply PeersFacts.list_filter_In. split; [done|]. by apply N.ltb_lt. }
  set (held := List.filter _ _) in *. set (s0 := with_mailbox _ s).
  pose proof (deliver_held_spec session t rng carries G held 0%nat s0) as Hspec.
  change (side s) with (side s0).
  destruct (deliver_held session (Some t) rng carries 0 held s0) as [out s'].
  by apply Hspec.
Qed.

(** ** From a client to a server *)

Section Sent.
Context `{Laws : CryptoLaws}.

(** What a client signs and sends is accepted by a session of the same intent. *)
Lemma sent_accepted sc ss t side to pl ts n e bs :
  t <= 0xFF -> from_option (fun b => blen b = PUBLIC_KEY_LEN) True to -> ts < u64_size ->
  blen n = NONCE_LEN -> intent ss = intent sc ->
  sign_with t side to pl ts n = Ok e -> open_and_send sc e = NOk bs ->
  accept_one ss bs = NOk (e, []).
Proof using Laws.
  intros Ht Hto Hts Hn Hi Hs Hb. unfold open_and_send in Hb.
  apply nresult_bind_ok in Hb as (u & Ha%nensure_ok & Hb).
  destruct (decide (blen (to_wire_bytes e) <= MAX_ENVELOPE_LEN)) as [Hl|Hl].
  - rewrite send_envelope_frame in Hb by done. injection Hb as <-.
    rewrite <-(app_nil_r (frame e)). apply accept_frame; [|done|by rewrite Hi].
    pose proof (blen_payload_le e) as Hp. injection Hs as <-.
    split; [|split; [done|apply signed_by_sign]].
    unfold wf_envelope, wf_bytes. cbn [payload version message_type from Envelope.to timestamp nonce sig] in *.
    split_and!; try done; [apply ed_sign_length|apply ed_public_length|].
    unfold MAX_ENVELOPE_LEN, u64_size in *. lia.
  - unfold send_envelope in Hb. by rewrite (proj2 (N.ltb_lt _ _)) in Hb by lia.
Qed.

Lemma sign_with_fields t side to pl ts n e :
  sign_with t side to pl ts n = Ok e ->
  message_type e = t /\ from e = public_bytes side /\ nonce e = n /\ payload e = pl.
Proof using. by intros [= <-]. Qed.

(** The envelope passes the gates of the node. *)
Definition gates_pass `{HashIter} (ss : Session) (clock : Clock) (bs : bytes) (s : Services) : Prop :=
  forall e rest, accept_one ss bs = NOk (e, rest) -> (admit_envelope clock e s).1 = true.

End Sent.

Lemma accepted_fits `{Crypto} session stream env rest :
  accept_one session stream = NOk (env, rest) -> blen (payload env) < u64_size.
Proof.
  unfold accept_one. intros A. apply nresult_bind_ok in A as ([e r] & Hr & A).
  apply nresult_bind_ok in A as (u & _ & [= <- <-]).
  apply recv_envelope_ok in Hr as (_ & Hl & _). pose proof (blen_payload_le e).
  unfold MAX_ENVELOPE_LEN, u64_size in *. lia.
Qed.

Lemma gates_pass_compute `{HashIter, Crypto} ss clock bs s :
  match accept_one ss bs with NOk (e, _) => (admit_envelope clock e s).1 = true | NErr _ => True end ->
  gates_pass ss clock bs s.
Proof. unfold gates_pass. intros C e rest E. by rewrite E in C. Qed.

(** ** Concrete instances *)

Module NodeExamples.
Import Toy ToyIter SessionExamples.

Definition abc : bytes := as_bytes "abc".
Definition now0 : N := 1700000000.
Definition peer3 : bytes := replicate 32 Byte.x03.

Definition session (i : Intent.t) : Session :=
  {| session_key := n1; peer_side := public_bytes side; intent := i; peer_capabilities := ∅ |}.

(** A node of [side2] that holds one object. *)
Definition node : Services := {|
  Node.side := side2; store := (Objects.put abc 1 Objects.open).2; replay := Replay.new;
  peers := Peers.new 256; mailbox := ∅; gossip := Gossip.new;
  active_gossip := {[public_bytes side; peer3]};
  reputation := Reputation.new Reputation.default_policy; provenance := ∅; gossip_policy := Open;
  relationships := ∅; metrics := Metrics.new |}.

Definition forward : Envelope :=
  env FORWARD_STORE (ForwardStore.encode
    {| ForwardStore.envelope := [Byte.xaa]; ForwardStore.recipient := peer3;
       ForwardStore.ttl_secs := 3600 |}).

Definition at_time (t : N) : event := EGossip (session Intent.Gossip) (Some t) n1 (frame forward).

(** 599 seconds later the same envelope is inert. *)
Lemma replay_is_inert_witness :
  let s2 := run_events [EStorage (session Intent.Storage) (Some (now0 + 5)) n1 (frame forward)]
              (run_event (at_time now0) node).1.2 in
  exists s3, run_event (at_time (now0 + 599)) s2 = ([], s3, NOk tt) /\ same_tables s2 s3.
Proof.
  refine (replay_is_inert (at_time now0) (at_time (now0 + 599)) _ node forward forward now0 (now0 + 599)
    _ _ eq_refl eq_refl eq_refl eq_refl _ _ _ _); [vm_compute; reflexivity..| | |vm_compute; reflexivity].
  - repeat constructor. intros now [= <-]. vm_compute. reflexivity.
  - vm_compute. discriminate.
Defined.

(** 600 seconds later it is admitted again. *)
Lemma replay_window_gap_witness :
  (admit_envelope (Some (now0 + 600)) forward (admit_envelope (Some now0) forward node).2).1 = true.
Proof. apply replay_window_gap; [vm_compute; reflexivity..|discriminate|discriminate|vm_compute; reflexivity]. Defined.

(** The message of one signed envelope is held twice. *)
Example forwarded_twice :
  let s := run_events [at_time now0; at_time (now0 + 600)] node in
  length (default [] (mailbox s !! peer3)) = 2%nat.
Proof. vm_compute. reflexivity. Qed.

Definition get_bytes : bytes :=
  match fetch_request (session Intent.Storage) side (blake3 abc) (Some now0) n1 with
  | NOk bs => bs | NErr _ => []
  end.

Example fetched :
  let '(out, _, r) := serve_storage_step (session Intent.Storage) (Some (now0 + 1)) n2 get_bytes node in
  match out with [Write w] => fetch_finish (blake3 abc) w = NOk (Some abc) | _ => False end /\ r = NOk tt.
Proof. vm_compute. split; reflexivity. Qed.

(** An offer of [peer3], with other bytes behind it. *)
Definition xyz : bytes := as_bytes "xyz".
Definition offered : StorageOffer.t := {| StorageOffer.reference := Reference.new peer3 3 "text/plain" |}.
Definition offer_env : Envelope := env STORAGE_OFFER (StorageOffer.encode offered).
Definition have_xyz : StorageHave.t :=
  {| StorageHave.hash := peer3; StorageHave.body := xyz; StorageHave.final_ := true |}.
Definition have_env : Envelope := env STORAGE_HAVE (StorageHave.encode have_xyz).

Lemma offer_spec_witness :
  let s' := (handle_storage_offer (Some now0) n1 offer_env (frame have_env) node).1.2 in
  (Objects.has peer3 (store node) = true -> store s' = store node /\ provenance s' = provenance node) /\
  ((store s' = store node /\ provenance s' = provenance node) \/
   (exists body, store s' = (Objects.put body now0 (store node)).2 /\
      provenance s' = if decide (blake3 body = peer3)
                      then Provenance.note_publisher peer3 (from offer_env) (provenance node)
                      else provenance node)).
Proof. apply (offer_spec (Some now0) n1 offer_env (frame have_env) offered). vm_compute. reflexivity. Defined.

Lemma mismatched_bytes_kept_witness :
  let s' := (handle_storage_offer (Some now0) n1 offer_env (frame have_env) node).1.2 in
  ObjectsFacts.content (store s') (blake3 xyz) = Some xyz /\ provenance s' = provenance node.
Proof.
  apply (mismatched_bytes_kept now0 n1 offer_env (frame have_env) offered have_env have_xyz node []);
    try (vm_compute; reflexivity).
  - vm_compute. discriminate.
  - apply ObjectsFacts.consistent_put; [apply StorageExamples.open_consistent|apply StorageExamples.fits_in_open].
  - intros b. vm_compute. discriminate.
Defined.

Definition published : Services :=
  with_provenance (Provenance.note_publisher (blake3 abc) (public_bytes side) ∅)
    (with_store (Objects.pin (blake3 abc) (store node)) node).
Definition retract_env : Envelope :=
  env STORAGE_RETRACT (StorageRetract.encode {| StorageRetract.hash := blake3 abc |}).

Lemma retract_spec_witness :
  let s' := (handle_storage_retract retract_env published).1.2 in
  (forall h, ObjectsFacts.content (store s') h = ObjectsFacts.content (store published) h) /\
  (Provenance.has_publisher (blake3 abc) (from retract_env) (provenance published) = false ->
     store s' = store published /\ provenance s' = provenance published) /\
  (Provenance.has_publisher (blake3 abc) (from retract_env) (provenance published) = true ->
     (forall h p, Provenance.has_publisher h p (provenance s') = true <->
        Provenance.has_publisher h p (provenance published) = true /\
        ~ (h = blake3 abc /\ p = from retract_env)) /\
     store s' = if decide (Provenance.publishers (blake3 abc) (provenance published) = {[from retract_env]})
                then Objects.unpin (blake3 abc) (store published) else store published).
Proof.
  apply (retract_spec retract_env published {| StorageRetract.hash := blake3 abc |}).
  vm_compute. reflexivity.
Defined.

Definition announcement : Envelope := env 0x65 (as_bytes "hello").


Definition held_message : Mailbox.HeldMessage :=
  {| Mailbox.envelope := [Byte.xbb]; Mailbox.stored_at := now0; Mailbox.expires_at := now0 + 60 |}.
Definition holding : Services := with_mailbox {[public_bytes side := [held_message]]} node.

Lemma forward_delivery_keeps_witness :
  let '(out, s') := deliver_forwards (session Intent.Gossip) (Some (now0 + 1)) (fun _ => n1)
                      (fun _ => false) holding in
  (exists bs env, Write bs ∈ out /\ send_envelope env = NOk bs /\
     from env = public_bytes side2 /\ to env = Some (public_bytes side) /\
     message_type env = FORWARD_DELIVER /\
     payload env = ForwardDeliver.encode
       {| ForwardDeliver.envelope := [Byte.xbb]; ForwardDeliver.stored_at := now0 |})
  \/ (exists m', m' ∈ default [] (mailbox s' !! public_bytes side) /\
        Mailbox.envelope m' = [Byte.xbb] /\ Mailbox.expires_at m' = now0 + 60).
Proof.
  apply (forward_delivery_keeps (session Intent.Gossip) (now0 + 1) (fun _ => n1) (fun _ => false)
    holding held_message); try (vm_compute; reflexivity).
  - vm_compute. left.
  - vm_compute. discriminate.
Defined.

End NodeExamples.
