(* ===== verification/DirectServer.v ===== *)
(** The direct server and the pairing of devices ([sidevers-net/src/node.rs]).

    [serve_direct] answers profile queries, hands messages, profiles and
    linkage proofs to the local application, and applies the records that
    change the hosted side: retirements, pairing requests, revocations and
    state deltas.  [DirectServices] puts the node's tables ([Node.v]) and the
    hosted side with its store ([SideState.v]) together; the set
    [Node.relationships] is not read here.  Reading the store and drawing a
    nonce do not fail in the model, and the channels to the application take
    what they are given.  The clients of this server are at the end. *)

From S2P Require Import Prelude Containers Utf8 Cbor CborCodec CborValue TextMap Keys Envelope Payload Profile Device Qr Records Replay Reputation NetTables Session Storage Node SideStore SideState.

Open Scope N_scope.

(** ** State and effects *)

Record DirectServices := { services : Services; hosted : Hosted }.

Definition with_hosted (h : Hosted) (d : DirectServices) : DirectServices :=
  {| services := services d; hosted := h |}.
Definition with_services (s : Services) (d : DirectServices) : DirectServices :=
  {| services := s; hosted := hosted d |}.

(** The side in memory. *)
Definition side_state (d : DirectServices) : Side := fst (hosted d).

Inductive DirectEffect :=
| DWrite (bs : bytes)                                  (* on the stream of the request *)
| DMessage (env : Envelope) (plaintext : bytes)        (* to the application: [dm_tx] *)
| DProfile (env : Envelope) (p : ProfilePayload)       (* [profile_tx] *)
| DLinkage (env : Envelope) (p : Linkage.LinkageProof). (* [linkage_tx] *)

Definition DirectHandled : Type := list DirectEffect * DirectServices * nresult unit.

(** [continue] *)
Definition skip (d : DirectServices) : DirectHandled := ([], d, NOk tt).

Definition MT_DIRECT_MESSAGE : N := 0x20.
Definition MT_PROFILE_FETCH : N := 0x23.
Definition MT_PROFILE_DELIVER : N := 0x24.
Definition MT_SIDE_RETIREMENT : N := 0x25.
Definition MT_DEVICE_PAIRING_REQUEST : N := 0x26.
Definition MT_DEVICE_STATE_BUNDLE : N := 0x27.
Definition MT_DEVICE_REVOKE : N := 0x28.
Definition MT_STATE_DELTA : N := 0x29.
Definition MT_LINKAGE_PUBLISH : N := 0x2A.

(** ** Who may send what *)

(** A relationship decides alone; else the profile; else a default. *)
Definition capability_allows (sender : bytes) (token : string) (s : Side) : bool :=
  match get_relationship sender s with
  | Some r => bool_decide (token ∈ capabilities r)
  | None =>
    match SideState.profile s with
    | Some p => Profile.Profile.has_capability p token
    | None => String.eqb token DIRECT_MESSAGE || String.eqb token STORAGE_HOST
              || String.eqb token GOSSIP_RELAY
    end
  end.

(** ** The state bundle *)

(** [addresses.sort()]. *)
Definition bytes_le (a b : bytes) : Prop := bytes_ltb b a = false.
#[export] Instance bytes_le_dec a b : Decision (bytes_le a b).
Proof. unfold bytes_le. apply _. Defined.

Definition record_of_relationship (r : SideRelationship) : Relationship.RelationshipRecord :=
  {| Relationship.address := SideStore.address r; Relationship.nickname := nickname r;
     Relationship.introduced_by := introduced_by r;
     Relationship.capabilities := set_to_list (capabilities r); Relationship.notes := notes r;
     Relationship.pinned := pinned r; Relationship.added_at := added_at r |}.

Definition address_le (a b : SideRelationship) : Prop := bytes_le (SideStore.address a) (SideStore.address b).
#[export] Instance address_le_dec a b : Decision (address_le a b).
Proof. unfold address_le. apply _. Defined.

(** [RelationshipTable::list]: the values in the order of their addresses. *)
Definition list_relationships (s : Side) : list SideRelationship :=
  merge_sort address_le (map snd (map_to_list (relationships s))).

Definition build_state_bundle_inner `{Crypto} (clock : Clock) (h : Hosted) : BundleInner.StateBundleInner :=
  let '(s, t) := h in
  {| BundleInner.side_seed := signing (keypair s);
     BundleInner.profile_wire := Profile.Profile.to_wire_bytes <$> SideState.profile s;
     BundleInner.relationships := map record_of_relationship (list_relationships s);
     BundleInner.retired_sides := merge_sort bytes_le (SideStore.list_retired_seen (public_bytes (keypair s)) t);
     BundleInner.lifecycle := lifecycle_label (lifecycle s);
     BundleInner.co_holders :=
       merge_sort bytes_le (map (fun kv => device_pubkey (snd kv)) (map_to_list (co_holders s)));
     BundleInner.bundled_at := default 0 clock |}.

Section Direct.
Context `{HashIter, Crypto, Ecies}.

(** ** Handlers *)

(** [send_envelope(&mut send, &resp?).await?; send.finish().ok()] *)
Definition answer (resp : nresult Envelope) (d : DirectServices) : DirectHandled :=
  match (e ← resp; send_envelope e) with
  | NOk bs => ([DWrite bs], d, NOk tt)
  | NErr e => ([], d, NErr e)
  end.

Definition handle_direct_message (env : Envelope) (d : DirectServices) : DirectHandled :=
  if negb (capability_allows (from env) DIRECT_MESSAGE (side_state d)) then skip d
  else
    match Payload.open (payload env) (side (services d)) (from env) (nonce env) [] with
    | Err _ => skip d
    | Ok plaintext =>
      ([DMessage env plaintext], with_services (incr Metrics.DmReceived (services d)) d, NOk tt)
    end.

Definition handle_profile_fetch (clock : Clock) (rnd : bytes) (env : Envelope) (d : DirectServices)
    : DirectHandled :=
  if negb (blen (payload env) =? 32) then skip d
  else if negb (bool_decide (payload env = public_bytes (side (services d)))) then skip d
  else
    match SideState.profile (side_state d) with
    | None => skip d
    | Some p =>
      answer (sign_response (side (services d)) (from env) MT_PROFILE_DELIVER
                (Profile.Profile.to_wire_bytes p) clock rnd) d
    end.

Definition handle_profile_deliver (env : Envelope) (d : DirectServices) : DirectHandled :=
  match Profile.Profile.from_wire_bytes (payload env) with
  | Err _ => skip d
  | Ok p =>
    if negb (bool_decide (Profile.side p = from env)) then skip d
    else ([DProfile env p], d, NOk tt)
  end.

Definition handle_side_retirement (clock : Clock) (io : Io) (env : Envelope) (d : DirectServices)
    : DirectHandled :=
  match Retirement.from_wire_bytes (payload env) with
  | Err _ => skip d
  | Ok record =>
    if negb (bool_decide (Retirement.side record = from env)) then skip d
    else skip (with_hosted (mark_retired_seen clock io (Retirement.side record) (hosted d)) d)
  end.

Definition handle_linkage_publish (env : Envelope) (d : DirectServices) : DirectHandled :=
  match Linkage.from_wire_bytes (payload env) with
  | Err _ => skip d
  | Ok proof =>
    if negb (bool_decide (from env = Linkage.side_a proof))
       && negb (bool_decide (from env = Linkage.side_b proof)) then skip d
    else ([DLinkage env proof], with_services (incr Metrics.LinkageProofReceived (services d)) d, NOk tt)
  end.

(** The sealed and signed bundle for a request. *)
Definition state_bundle_for (clock : Clock) (key_nonce : bytes) (req : PairingRequest.PairingRequestPayload)
    (side : SideKey) (h : Hosted) : result StateBundle.StateBundlePayload :=
  let inner := build_state_bundle_inner clock h in
  let inner_bytes := BundleInner.encode inner in
  sealed ← Payload.seal inner_bytes side (PairingRequest.device_x25519_pubkey req) key_nonce STATE_BUNDLE_AAD;
  StateBundle.sign side (PairingRequest.device_pubkey req) (PairingRequest.nonce req) key_nonce sealed.

(** [key_nonce] and [rnd] are the two nonces drawn. *)
Definition handle_pairing_request (clock : Clock) (io : Io) (key_nonce rnd : bytes) (env : Envelope)
    (d : DirectServices) : DirectHandled :=
  match PairingRequest.from_wire_bytes (payload env) with
  | Err _ => skip d
  | Ok req =>
    if negb (bool_decide (PairingRequest.side req = public_bytes (side (services d)))) then skip d
    else
      let '(taken, h) := take_pending_pairing clock (PairingRequest.nonce req) (hosted d) in
      let d := with_hosted h d in
      match taken with
      | None => skip d
      | Some _ =>
        match state_bundle_for clock key_nonce req (side (services d)) h with
        | Err _ => skip d
        | Ok bundle =>
          match (e ← sign_response (side (services d)) (from env) MT_DEVICE_STATE_BUNDLE
                       (StateBundle.to_wire_bytes bundle) clock rnd; send_envelope e) with
          | NErr e => ([], d, NErr e)
          | NOk bs =>
            ([DWrite bs],
             with_hosted (add_co_holder clock io 0 (PairingRequest.device_pubkey req)
                            (Some (public_bytes (side (services d)))) h) d,
             NOk tt)
          end
        end
      end
  end.

Definition handle_device_revoke (clock : Clock) (io : Io) (env : Envelope) (d : DirectServices)
    : DirectHandled :=
  match DeviceRevoke.from_wire_bytes (payload env) with
  | Err _ => skip d
  | Ok record =>
    if negb (bool_decide (DeviceRevoke.side record = public_bytes (side (services d)))) then skip d
    else
      let dev := DeviceRevoke.device_pubkey record in
      skip (with_hosted (remove_co_holder io 1 dev (add_revoked_device clock io 0 dev (hosted d))) d)
  end.

(** [ios n] are the outcomes of the statements of the n-th operation. *)
Definition handle_state_delta (clock : Clock) (ios : nat -> Io) (env : Envelope) (d : DirectServices)
    : DirectHandled :=
  match Delta.from_wire_bytes (payload env) with
  | Err _ => skip d
  | Ok delta =>
    if negb (bool_decide (Delta.side delta = public_bytes (side (services d)))) then skip d
    else skip (with_hosted (apply_deltas clock ios (Delta.ops delta) (Delta.applied_at delta) (hosted d)) d)
  end.

(** The [match env.message_type] of [serve_direct]. *)
Definition handle_direct (clock : Clock) (ios : nat -> Io) (key_nonce rnd : bytes) (env : Envelope)
    (d : DirectServices) : DirectHandled :=
  let mt := message_type env in
  if mt =? MT_DIRECT_MESSAGE then handle_direct_message env d
  else if mt =? MT_PROFILE_FETCH then handle_profile_fetch clock rnd env d
  else if mt =? MT_PROFILE_DELIVER then handle_profile_deliver env d
  else if mt =? MT_SIDE_RETIREMENT then handle_side_retirement clock (ios 0%nat) env d
  else if mt =? MT_LINKAGE_PUBLISH then handle_linkage_publish env d
  else if mt =? MT_DEVICE_PAIRING_REQUEST then
    handle_pairing_request clock (ios 0%nat) key_nonce rnd env d
  else if mt =? MT_DEVICE_REVOKE then handle_device_revoke clock (ios 0%nat) env d
  else if mt =? MT_DEVICE_STATE_BUNDLE then skip d
  else if mt =? MT_STATE_DELTA then handle_state_delta clock ios env d
  else skip d.

(** One iteration of [serve_direct] on the bytes of the stream it accepts. *)
Definition serve_direct_step (session : Session) (clock : Clock) (ios : nat -> Io)
    (key_nonce rnd stream : bytes) (d : DirectServices) : DirectHandled :=
  match accept_one session stream with
  | NErr e => ([], d, NErr e)
  | NOk (env, _) =>
    let '(ok, s) := admit_envelope clock env (services d) in
    let d := with_services s d in
    if ok then handle_direct clock ios key_nonce rnd env d else skip d
  end.

(** ** Clients *)

(** [send_dm]: the bytes on a fresh stream. *)
Definition send_dm (session : Session) (side : SideKey) (plaintext : bytes) (clock : Clock) (rnd : bytes)
    : nresult bytes :=
  ciphertext ← core (Payload.seal plaintext side (peer_side session) rnd []);
  now ← core (now_unix_seconds clock);
  env ← core (sign_with MT_DIRECT_MESSAGE side (Some (peer_side session)) ciphertext now rnd);
  open_and_send session env.

Definition publish_linkage_proof (session : Session) (side : SideKey) (proof : Linkage.LinkageProof)
    (clock : Clock) (rnd : bytes) : nresult bytes :=
  env ← sign_response side (peer_side session) MT_LINKAGE_PUBLISH (Linkage.to_wire_bytes proof) clock rnd;
  open_and_send session env.

(** [fetch_profile] up to the wait for the answer. *)
Definition fetch_profile_request (session : Session) (side : SideKey) (target : bytes) (clock : Clock)
    (rnd : bytes) : nresult bytes :=
  env ← sign_response side (peer_side session) MT_PROFILE_FETCH target clock rnd;
  open_and_send session env.

(** [fetch_profile] on the bytes that come back on the stream. *)
Definition fetch_profile_finish (target stream : bytes) : nresult ProfilePayload :=
  '(resp, _) ← recv_envelope stream;
  _ ← nensure (message_type resp =? MT_PROFILE_DELIVER) (NetInvariant "expected PROFILE_DELIVER");
  p ← core (Profile.Profile.from_wire_bytes (payload resp));
  _ ← nensure (bool_decide (Profile.side p = target)) (NetInvariant "PROFILE_DELIVER: profile.side != target");
  _ ← nensure (bool_decide (Profile.side p = from resp)) (NetInvariant "PROFILE_DELIVER: profile.side != env.from");
  mret p.

Definition announce_retirement (session : Session) (side : SideKey)
    (record : Retirement.SideRetirementPayload) (clock : Clock) (rnd : bytes) : nresult bytes :=
  env ← sign_response side (peer_side session) MT_SIDE_RETIREMENT (Retirement.to_wire_bytes record) clock rnd;
  open_and_send session env.

End Direct.
