(* ===== verification/Host.v ===== *)
(** The sides a node hosts, and what it offers its user for them
    ([sidevers-net/src/node.rs], [impl Node]): pairing, revocation,
    retirement, profile and contacts, and the deltas pushed to the other
    devices of a side.

    A [HostNode] has its primary side, further sides in the order they were
    added, and the store they share.  [listen] is the address an endpoint is
    bound to.  What goes out on the network is a list of [Push]es, the address
    dialled and the payload; dialling and its failures are not modelled. *)

From S2P Require Import Prelude Containers Utf8 Cbor CborCodec CborValue TextMap Keys Envelope Payload Profile Device Qr Records NetTables Session Storage Node SideStore SideState DirectServer.

Open Scope N_scope.

(** ** The hosted sides *)

Record HostNode := {
  primary : Side;
  listen_addr : string;
  extras : list (Side * string);
  side_store : Tables
}.

Definition set_primary (x : Side) (n : HostNode) : HostNode :=
  Build_HostNode x (listen_addr n) (extras n) (side_store n).
Definition set_extras (x : list (Side * string)) (n : HostNode) : HostNode :=
  Build_HostNode (primary n) (listen_addr n) x (side_store n).
Definition set_store (x : Tables) (n : HostNode) : HostNode :=
  Build_HostNode (primary n) (listen_addr n) (extras n) x.

Section Host.
Context `{Crypto, Ecies}.

(** [&self.services.side.public_bytes() == address] *)
Definition is_primary (a : bytes) (n : HostNode) : bool :=
  bool_decide (public_bytes (keypair (primary n)) = a).

(** The first of the further sides with the address. *)
Definition find_extra (a : bytes) (l : list (Side * string)) : option (nat * (Side * string)) :=
  list_find (fun x => SideState.address (fst x) = a) l.

Definition side_by_address (a : bytes) (n : HostNode) : option Side :=
  if is_primary a n then Some (primary n)
  else match find_extra a (extras n) with Some (_, x) => Some (fst x) | None => None end.

Definition side_listen_addr (a : bytes) (n : HostNode) : option string :=
  if is_primary a n then Some (listen_addr n)
  else match find_extra a (extras n) with Some (_, x) => Some (snd x) | None => None end.

Definition sides (n : HostNode) : list Side := primary n :: map fst (extras n).

(** An operation on the side [side_by_address] finds, which is shared: the
    node sees the change. *)
Definition on_side (a : bytes) (f : Hosted -> Hosted) (n : HostNode) : HostNode :=
  if is_primary a n then
    let '(s, t) := f (primary n, side_store n) in set_store t (set_primary s n)
  else
    match find_extra a (extras n) with
    | Some (i, (s, addr)) =>
      let '(s, t) := f (s, side_store n) in set_store t (set_extras (<[i := (s, addr)]> (extras n)) n)
    | None => n
    end.

(** [services.side_state], changed. *)
Definition on_primary (f : Hosted -> Hosted) (n : HostNode) : HostNode :=
  let '(s, t) := f (primary n, side_store n) in set_store t (set_primary s n).

(** [add_side], on the address its endpoint is bound to. *)
Definition add_side (clock : Clock) (io : Io) (key : SideKey) (listen : string) (n : HostNode)
    : nresult (Side * HostNode) :=
  '(s, t) ← core (load_or_create clock io key (Some (side_label key)) (side_store n));
  mret (s, set_store t (set_extras (extras n ++ [(s, listen)]) n)).

(** ** Deltas to the other devices *)

Record Push := { dial : string; push_payload : bytes }.

(** [push_delta_to_co_holders] up to the dialling of each address. *)
Definition push_delta_to_co_holders (clock : Clock) (a : bytes) (ops : list DeltaOp) (n : HostNode)
    : list Push :=
  match side_by_address a n with
  | None => []
  | Some s =>
    let addrs := map_to_list (co_holder_addrs s) in
    if bool_decide (addrs = []) then []
    else
      match now_unix_seconds clock with
      | Err _ => []
      | Ok applied_at =>
        match Delta.sign (keypair s) ops applied_at with
        | Err _ => []
        | Ok delta =>
          map (fun kv => {| dial := snd kv; push_payload := Delta.to_wire_bytes delta |}) addrs
        end
      end
  end.

(** The envelope of a push on the session its dialling gave. *)
Definition push_envelope (side_key : SideKey) (session : Session) (clock : Clock) (rnd payload : bytes)
    : result Envelope :=
  ts ← now_unix_seconds clock;
  sign_with MT_STATE_DELTA side_key (Some (peer_side session)) payload ts rnd.

(** ** Pairing, on the device that holds the side *)

Definition generate_pairing_qr (clock : Clock) (rnd : bytes) (a : bytes) (n : HostNode)
    : nresult PairingQr.t * HostNode :=
  match side_by_address a n with
  | None => (NErr (NetInvariant "generate_pairing_qr: side not hosted"), n)
  | Some _ =>
    match side_listen_addr a n with
    | None => (NErr (NetInvariant "generate_pairing_qr: side has no endpoint"), n)
    | Some listen =>
      (NOk {| PairingQr.side := a; PairingQr.nonce := rnd; PairingQr.dial_addr := listen |},
       on_side a (add_pending_pairing clock rnd) n)
    end
  end.

(** ** Pairing, on the new device *)

(** [accept_pairing], step 3: the request on the session with the dialled
    device, by a device key made for the purpose. *)
Definition accept_pairing_request (session : Session) (device_key : SideKey) (qr : PairingQr.t)
    (clock : Clock) (rnd : bytes) : nresult bytes :=
  let device_pubkey := public_bytes device_key in
  req ← core (PairingRequest.sign (PairingQr.side qr) device_key device_pubkey (PairingQr.nonce qr));
  now ← core (now_unix_seconds clock);
  env ← core (sign_with MT_DEVICE_PAIRING_REQUEST device_key (Some (PairingQr.side qr))
                (PairingRequest.to_wire_bytes req) now rnd);
  open_and_send session env.

(** Steps 4 to 7: the answer on the stream, checked and opened. *)
Definition accept_pairing_open (device_key : SideKey) (qr : PairingQr.t) (stream : bytes)
    : nresult (SideKey * BundleInner.StateBundleInner) :=
  let device_pubkey := public_bytes device_key in
  '(resp, _) ← recv_envelope stream;
  _ ← nensure (message_type resp =? MT_DEVICE_STATE_BUNDLE)
        (NetInvariant "accept_pairing: expected DEVICE_STATE_BUNDLE");
  bundle ← core (StateBundle.from_wire_bytes (payload resp));
  _ ← nensure (bool_decide (StateBundle.side bundle = PairingQr.side qr))
        (NetInvariant "accept_pairing: bundle.side != qr.side");
  _ ← nensure (bool_decide (StateBundle.recipient_device bundle = device_pubkey))
        (NetInvariant "accept_pairing: recipient mismatch");
  _ ← nensure (bool_decide (StateBundle.nonce bundle = PairingQr.nonce qr))
        (NetInvariant "accept_pairing: nonce mismatch");
  inner_bytes ← core (Payload.open (StateBundle.sealed_state bundle) device_key (PairingQr.side qr)
                        (StateBundle.key_nonce bundle) STATE_BUNDLE_AAD);
  inner ← core (BundleInner.decode inner_bytes);
  let new_side_key := side_from_seed (BundleInner.side_seed inner) "joined" in
  _ ← nensure (bool_decide (public_bytes new_side_key = PairingQr.side qr))
        (NetInvariant "accept_pairing: bundle seed produces wrong pubkey");
  mret (new_side_key, inner).

(** Step 9: the bundle replayed into the side.  [ios k i] are the outcomes of
    the statements of the i-th operation of the k-th kind. *)
Definition replay {A} (f : Io -> A -> Hosted -> Hosted) (ios : nat -> Io) (l : list A) (h : Hosted) : Hosted :=
  snd (foldl (fun '(i, h) x => (S i, f (ios i) x h)) (0%nat, h) l).

Definition replay_bundle (clock : Clock) (ios : nat -> nat -> Io) (device_pubkey : bytes) (qr : PairingQr.t)
    (inner : BundleInner.StateBundleInner) (h : Hosted) : nresult Hosted :=
  h ← match BundleInner.profile_wire inner with
      | None => mret h
      | Some wire => prof ← core (Profile.Profile.from_wire_bytes wire); mret (set_profile (ios 0 0)%nat 0 prof h)
      end;
  let h := replay (fun io rec => add_relationship io (relationship_from_record rec)) (ios 1%nat)
             (BundleInner.relationships inner) h in
  let h := replay (mark_retired_seen clock) (ios 2%nat) (BundleInner.retired_sides inner) h in
  let h := replay (fun io dev h => if bool_decide (dev = device_pubkey) then h
                                   else add_co_holder clock io 0 dev None h) (ios 3%nat)
             (BundleInner.co_holders inner) h in
  let h := set_lifecycle (ios 4 0)%nat 0 (delta_lifecycle (BundleInner.lifecycle inner)) h in
  let h := record_co_holder_addr clock (ios 5 0)%nat 0 (PairingQr.side qr) (PairingQr.dial_addr qr) h in
  mret (add_co_holder clock (ios 6 0)%nat 0 (PairingQr.side qr) (Some device_pubkey) h).

(** [accept_pairing] from step 8 on.  A profile that does not verify is an
    error, with the side installed by then. *)
Definition accept_pairing_install (clock : Clock) (io : Io) (ios : nat -> nat -> Io) (device_pubkey : bytes)
    (qr : PairingQr.t) (listen : string) (key : SideKey) (inner : BundleInner.StateBundleInner)
    (n : HostNode) : nresult Side * HostNode * list Push :=
  match add_side clock io key listen n with
  | NErr e => (NErr e, n, [])
  | NOk (s, n1) =>
    match replay_bundle clock ios device_pubkey qr inner (s, side_store n1) with
    | NErr e => (NErr e, n1, [])
    | NOk (s, t) =>
      let n2 := set_store t (set_extras (extras n ++ [(s, listen)]) n1) in
      (NOk s, n2,
       push_delta_to_co_holders clock (SideState.address s) [CoHolderAdded device_pubkey listen] n2)
    end
  end.

(** ** Devices *)

Definition list_co_holders (a : bytes) (n : HostNode) : list bytes :=
  match side_by_address a n with
  | Some s => map (fun kv => device_pubkey (snd kv)) (map_to_list (co_holders s))
  | None => []
  end.

Definition revoke_co_holder (clock : Clock) (io : Io) (a dev : bytes) (reason : option string)
    (n : HostNode) : nresult DeviceRevoke.DeviceRevokePayload * HostNode :=
  match side_by_address a n with
  | None => (NErr (NetInvariant "revoke_co_holder: side not hosted"), n)
  | Some s =>
    match (now ← core (now_unix_seconds clock); core (DeviceRevoke.sign (keypair s) dev now reason)) with
    | NErr e => (NErr e, n)
    | NOk record =>
      (NOk record,
       on_side a (fun h => remove_co_holder io 1 dev (add_revoked_device clock io 0 dev h)) n)
    end
  end.

(** [announce_revocation]: the bytes on a fresh stream. *)
Definition announce_revocation (session : Session) (a : bytes) (record : DeviceRevoke.DeviceRevokePayload)
    (clock : Clock) (rnd : bytes) (n : HostNode) : nresult bytes :=
  match side_by_address a n with
  | None => NErr (NetInvariant "announce_revocation: side not hosted")
  | Some s =>
    now ← core (now_unix_seconds clock);
    env ← core (sign_with MT_DEVICE_REVOKE (keypair s) (Some (peer_side session))
                  (DeviceRevoke.to_wire_bytes record) now rnd);
    open_and_send session env
  end.

Definition is_device_revoked (a dev : bytes) (n : HostNode) : bool :=
  match side_by_address a n with Some s => SideState.is_device_revoked dev s | None => false end.

(** ** Profile, contacts and lifecycle of the primary side *)

Definition primary_address (n : HostNode) : bytes := public_bytes (keypair (primary n)).

Definition set_local_profile (clock : Clock) (io : Io) (p : ProfilePayload) (n : HostNode)
    : HostNode * list Push :=
  let n' := on_primary (set_profile io 0 p) n in
  (n', push_delta_to_co_holders clock (primary_address n)
         [ProfileUpdated (Profile.Profile.to_wire_bytes p)] n').

Definition publish_retirement (clock : Clock) (io : Io) (reason : option string) (n : HostNode)
    : nresult Retirement.SideRetirementPayload * HostNode :=
  match (now ← core (now_unix_seconds clock); core (Retirement.sign (keypair (primary n)) now reason)) with
  | NErr e => (NErr e, n)
  | NOk record => (NOk record, on_primary (set_self_retired io) n)
  end.

Definition retire_side (clock : Clock) (io : Io) (a : bytes) (reason : option string) (n : HostNode)
    : nresult Retirement.SideRetirementPayload * HostNode :=
  match side_by_address a n with
  | None => (NErr (NetInvariant "retire_side: side not hosted"), n)
  | Some s =>
    match (now ← core (now_unix_seconds clock); core (Retirement.sign (keypair s) now reason)) with
    | NErr e => (NErr e, n)
    | NOk record => (NOk record, on_side a (set_lifecycle io 0 Lifecycle.Retired) n)
    end
  end.

Definition is_side_retired (a : bytes) (n : HostNode) : bool := is_retired_seen a (primary n).

Definition node_add_relationship (clock : Clock) (io : Io) (r : SideRelationship) (n : HostNode)
    : HostNode * list Push :=
  let n' := on_primary (add_relationship io r) n in
  (n', push_delta_to_co_holders clock (primary_address n)
         [RelationshipUpserted (record_of_relationship r)] n').

Definition node_remove_relationship (clock : Clock) (io : Io) (a : bytes) (n : HostNode)
    : HostNode * list Push :=
  let n' := on_primary (remove_relationship io a) n in
  (n', push_delta_to_co_holders clock (primary_address n) [RelationshipRemoved a] n').

(** Only the three mutators above push a delta. *)
Definition node_update_relationship (io : Io) (a : bytes) (f : SideRelationship -> SideRelationship)
    (n : HostNode) : option SideRelationship * HostNode :=
  ((update_relationship io a f (primary n, side_store n)).1, on_primary (fun h => (update_relationship io a f h).2) n).

Definition node_get_relationship (a : bytes) (n : HostNode) : option SideRelationship :=
  get_relationship a (primary n).

Definition node_lifecycle (n : HostNode) : SideLifecycle := lifecycle (primary n).

Definition node_set_lifecycle (io : Io) (state : SideLifecycle) (n : HostNode) : HostNode :=
  on_primary (set_lifecycle io 0 state) n.

Definition node_refresh_lifecycle (clock : Clock) (io : Io) (n : HostNode) : HostNode :=
  on_primary (refresh_lifecycle clock io) n.

(** ** Sending, with the lifecycle *)

Definition touch_local_send (clock : Clock) (io : Io) (n : HostNode) : HostNode :=
  on_primary (touch_send clock io) n.

(** [out] are the bytes of the message, [sent] what the stream makes of them. *)
Definition node_send (out : nresult bytes) (sent : nresult unit) (clock : Clock) (io : Io) (n : HostNode)
    : nresult bytes * HostNode :=
  match (bs ← out; _ ← sent; mret bs) with
  | NOk bs => (NOk bs, touch_local_send clock io n)
  | NErr e => (NErr e, n)
  end.

Definition node_send_dm (session : Session) (plaintext : bytes) (sent : nresult unit) (clock : Clock)
    (io : Io) (rnd : bytes) (n : HostNode) : nresult bytes * HostNode :=
  node_send (send_dm session (keypair (primary n)) plaintext clock rnd) sent clock io n.

Definition node_announce_retirement (session : Session) (record : Retirement.SideRetirementPayload)
    (sent : nresult unit) (clock : Clock) (io : Io) (rnd : bytes) (n : HostNode) : nresult bytes * HostNode :=
  node_send (announce_retirement session (keypair (primary n)) record clock rnd) sent clock io n.

End Host.
