(* ===== verification/DirectFacts.v ===== *)
(** The direct server and the pairing of devices: facts about
    [DirectServer.v] and [Host.v].

    First what reaches the application and who may change the hosted side;
    then the runs of two nodes against each other: a direct message, the
    pairing of a new device, a delta pushed to another device, and the
    revocation of one. *)

From S2P Require Import Prelude Containers Utf8 Cbor CborCodec CborValue TextMap Keys Envelope Payload Profile Device Qr Records Replay Reputation NetTables Session Storage Node NodeFacts SideStore SideState SideFacts DirectServer Host.

Open Scope N_scope.

Section Server.
Context `{HashIter, Crypto, Ecies}.

(** ** Effects *)

(** Case analysis on everything a handler looks at. *)
Ltac handler_cases :=
  repeat (case_match; cbn [fst snd mbind nresult_bind result_bind] in *); try done.

Lemma answer_effects resp d e : e ∈ (answer resp d).1.1 -> exists bs, e = DWrite bs.
Proof using.
  unfold answer. case_match; cbn [fst]; [|by intros ?%not_elem_of_nil].
  intros ?%list_elem_of_singleton. eauto.
Qed.

Ltac no_effect := intros Hin; cbn [fst skip] in Hin; first
  [ by apply not_elem_of_nil in Hin
  | apply answer_effects in Hin as [? ?]; discriminate
  | apply list_elem_of_singleton in Hin; discriminate ].

(** Messages come from the handler of messages only. *)
Lemma handle_direct_messages clock ios kn rnd env d e pt :
  DMessage e pt ∈ (handle_direct clock ios kn rnd env d).1.1 <->
  message_type env = MT_DIRECT_MESSAGE /\ e = env /\
  capability_allows (from env) DIRECT_MESSAGE (side_state d) = true /\
  Payload.open (payload env) (side (services d)) (from env) (nonce env) [] = Ok pt.
Proof using.
  unfold handle_direct.
  destruct (N.eqb_spec (message_type env) MT_DIRECT_MESSAGE) as [->|Hne].
  - unfold handle_direct_message. destruct (capability_allows _ _ _); cbn [negb].
    + destruct (Payload.open _ _ _ _ _) as [p|]; cbn [fst skip].
      * rewrite list_elem_of_singleton. split; [by intros [= <- <-]|]. by intros (_ & -> & _ & [= ->]).
      * split; [by intros ?%not_elem_of_nil|]. by intros (_ & _ & _ & [=]).
    + split; [by intros ?%not_elem_of_nil|]. by intros (_ & _ & [=] & _).
  - split; [|by intros [? _]].
    unfold handle_profile_fetch, handle_profile_deliver, handle_side_retirement, handle_linkage_publish,
      handle_pairing_request, handle_device_revoke, handle_state_delta.
    repeat (case_match; try (no_effect; fail)).
Qed.

(** ** Changes of the hosted side *)

(** What an envelope does to the hosted side, with the record that does it. *)
Inductive SideChange (clock : Clock) (ios : nat -> Io) (own : bytes) (env : Envelope) (h : Hosted)
    : Hosted -> Prop :=
| Unchanged : SideChange clock ios own env h h
| SenderRetired rec :
    Retirement.from_wire_bytes (payload env) = Ok rec -> Retirement.side rec = from env ->
    SideChange clock ios own env h (mark_retired_seen clock (ios 0%nat) (from env) h)
| NonceTaken n :
    SideChange clock ios own env h (snd (take_pending_pairing clock n h))
| DeviceJoined req p h' :
    PairingRequest.from_wire_bytes (payload env) = Ok req -> PairingRequest.side req = own ->
    take_pending_pairing clock (PairingRequest.nonce req) h = (Some p, h') ->
    SideChange clock ios own env h
      (add_co_holder clock (ios 0%nat) 0 (PairingRequest.device_pubkey req) (Some own) h')
| DeviceRevoked rec :
    DeviceRevoke.from_wire_bytes (payload env) = Ok rec -> DeviceRevoke.side rec = own ->
    SideChange clock ios own env h
      (remove_co_holder (ios 0%nat) 1 (DeviceRevoke.device_pubkey rec)
         (add_revoked_device clock (ios 0%nat) 0 (DeviceRevoke.device_pubkey rec) h))
| DeltaApplied delta :
    Delta.from_wire_bytes (payload env) = Ok delta -> Delta.side delta = own ->
    SideChange clock ios own env h (apply_deltas clock ios (Delta.ops delta) (Delta.applied_at delta) h).

Lemma handle_direct_change clock ios kn rnd env d :
  SideChange clock ios (public_bytes (side (services d))) env (hosted d)
    (hosted (handle_direct clock ios kn rnd env d).1.2).
Proof using.
  unfold handle_direct, handle_direct_message, handle_profile_fetch, handle_profile_deliver,
    handle_side_retirement, handle_linkage_publish, handle_pairing_request, handle_device_revoke,
    handle_state_delta, answer.
  repeat (case_match; cbn [fst snd skip hosted with_hosted with_services services side] in *;
          try apply Unchanged).
  all: repeat match goal with H : negb (bool_decide _) = false |- _ =>
         apply negb_false_iff, bool_decide_eq_true in H end.
  all: try match goal with H : take_pending_pairing ?c ?n ?h = (_, ?h') |- SideChange _ _ _ _ ?h ?h' =>
         replace h' with (snd (take_pending_pairing c n h)) by (by rewrite H); apply NonceTaken end.
  - match goal with H : Retirement.side _ = _ |- _ => rewrite H end. by eapply SenderRetired.
  - by eapply DeviceJoined.
  - by apply DeviceRevoked.
  - by apply DeltaApplied.
Qed.

(** The gates and the frame do not touch the side. *)
Lemma serve_direct_step_inv session clock ios kn rnd stream d :
  serve_direct_step session clock ios kn rnd stream d
  = match accept_one session stream with
    | NErr e => ([], d, NErr e)
    | NOk (env, _) =>
      let d' := with_services (admit_envelope clock env (services d)).2 d in
      if (admit_envelope clock env (services d)).1 then handle_direct clock ios kn rnd env d' else skip d'
    end.
Proof using.
  unfold serve_direct_step. destruct (accept_one _ _) as [[env rest]|]; [|done].
  by destruct (admit_envelope clock env (services d)).
Qed.

Lemma admit_side clock env d :
  side (services (with_services (admit_envelope clock env (services d)).2 d)) = side (services d).
Proof using. cbn [services with_services]. apply (same_side _ _ (admit_tables clock env (services d))). Qed.

End Server.

(** ** Who changes the side *)

(** A revocation or a batch of deltas, signed by [own]. *)
Definition own_record `{Crypto} (own bs : bytes) : Prop :=
  (exists r, bs = DeviceRevoke.to_wire_bytes r /\ DeviceRevoke.wf r /\ DeviceRevoke.side r = own /\
     signed_by own (DeviceRevoke.unsigned_bytes r) (DeviceRevoke.signature r)) \/
  (exists p, bs = Delta.to_wire_bytes p /\ Delta.wf p /\ Delta.side p = own /\
     signed_by own (Delta.unsigned_bytes p) (Delta.signature p)).

Lemma own_record_parses `{Crypto} own bs :
  blen bs < u64_size -> own_record own bs ->
  is_ok (DeviceRevoke.from_wire_bytes bs) = true \/ is_ok (Delta.from_wire_bytes bs) = true.
Proof.
  intros F [(r & Hb & Hw & Hs & Hg)|(p & Hb & Hw & Hs & Hg)].
  - left. by rewrite (proj2 (device_revoke_wire bs r F)) by (rewrite Hs; done).
  - right. by rewrite (proj2 (state_delta_wire bs p F)) by (rewrite Hs; done).
Qed.

(** The fields only the side's own devices change. *)
Definition same_own_state (s s' : Side) : Prop :=
  SideState.profile s' = SideState.profile s /\ relationships s' = relationships s /\
  lifecycle s' = lifecycle s /\ is_self_retired s' = is_self_retired s /\
  revoked_devices s' = revoked_devices s /\ co_holder_addrs s' = co_holder_addrs s /\
  keypair s' = keypair s.

(** A device with a live nonce of the side, and a request it signed. *)
Definition joins `{Crypto} (clock : Clock) (own : bytes) (s s' : Side) (bs : bytes) : Prop :=
  exists req p,
    bs = PairingRequest.to_wire_bytes req /\ PairingRequest.side req = own /\
    signed_by (PairingRequest.device_pubkey req) (PairingRequest.unsigned_bytes req)
      (PairingRequest.signature req) /\
    pending_pairings s !! PairingRequest.nonce req = Some p /\
    now_or_log_zero clock < issued_at p + PAIRING_TTL_SECS /\
    pending_pairings s' !! PairingRequest.nonce req = None /\
    co_holders s' = <[PairingRequest.device_pubkey req :=
      {| device_pubkey := PairingRequest.device_pubkey req; co_added_at := now_or_log_zero clock;
         added_by := Some own |}]> (co_holders s).

Lemma side_change_stranger `{Crypto} clock ios own env h h' (F : blen (payload env) < u64_size) :
  SideChange clock ios own env h h' -> ~ own_record own (payload env) ->
  same_own_state (fst h) (fst h') /\
  (retired_sides_seen (fst h') = retired_sides_seen (fst h) \/
   retired_sides_seen (fst h') = {[ from env ]} ∪ retired_sides_seen (fst h)) /\
  (co_holders (fst h') = co_holders (fst h) \/ joins clock own (fst h) (fst h') (payload env)).
Proof.
  destruct h as [s t]. intros C N. destruct C as [|rec E Es|n|req p h' E Es Ht|rec E Es|delta E Es].
  - by repeat split; left.
  - split; [by repeat split|]. split; [by right|by left].
  - split; [by repeat split|]. split; by left.
  - destruct h' as [s' t']. pose proof (take_pending_some _ _ _ _ _ Ht) as (Hp & Hl & Hg).
    unfold take_pending_pairing in Ht. injection Ht as _ <- <-. cbn [fst] in *.
    split; [by repeat split|]. split; [by left|]. right. exists req, p.
    apply pairing_request_wire in E as (_ & Hs & Hb); [|done].
    split_and!; try done. unfold pairing_live, PAIRING_TTL_SECS in *. to_prop. lia.
  - destruct N. left. exists rec. apply device_revoke_wire in E as (Hw & Hs & Hb); [|done].
    split_and!; try done. by rewrite <-Es.
  - destruct N. right. exists delta. apply state_delta_wire in E as (Hw & Hs & Hb); [|done].
    split_and!; try done. by rewrite <-Es.
Qed.

(** ** Properties of the server *)

(** C12: a direct message reaches the application exactly when its envelope comes
    off the stream with a valid signature, passes the gates, is of a sender the
    side allows to send messages, and opens with the keys of the sender and of
    the side. *)
Theorem dm_surfaced_exactly `{HashIter, Crypto, !Ecies} session clock ios kn rnd stream d e pt :
  DMessage e pt ∈ (serve_direct_step session clock ios kn rnd stream d).1.1 <->
  (exists rest, accept_one session stream = NOk (e, rest)) /\
  (admit_envelope clock e (services d)).1 = true /\
  message_type e = MT_DIRECT_MESSAGE /\
  capability_allows (from e) DIRECT_MESSAGE (side_state d) = true /\
  Payload.open (payload e) (side (services d)) (from e) (nonce e) [] = Ok pt.
Proof.
  rewrite serve_direct_step_inv. destruct (accept_one session stream) as [[env rest]|err].
  - cbn zeta. destruct (admit_envelope clock env (services d)).1 eqn:Ea.
    + rewrite handle_direct_messages, admit_side. cbn [side_state hosted with_services]. split.
      * intros (Ht & -> & Hc & Ho). split_and!; eauto.
      * intros ([r [= <- <-]] & _ & Ht & Hc & Ho). done.
    + split; [by intros ?%not_elem_of_nil|]. intros ([r [= <- <-]] & Ha & _). congruence.
  - split; [by intros ?%not_elem_of_nil|]. by intros ([r [=]] & _).
Qed.

(** Who is not a device of the side changes nothing of its profile, its
    contacts, its lifecycle or its revocations, whatever it sends: it can have
    itself noted as retired, and it becomes a device with a request under a
    nonce the side issued less than ninety seconds ago, which is then gone. *)
Theorem strangers_change_nothing `{HashIter, Crypto, !Ecies} session clock ios kn rnd stream env rest d
    (A : accept_one session stream = NOk (env, rest))
    (N : ~ own_record (public_bytes (side (services d))) (payload env)) :
  let s := side_state d in
  let s' := side_state (serve_direct_step session clock ios kn rnd stream d).1.2 in
  same_own_state s s' /\
  (retired_sides_seen s' = retired_sides_seen s \/
   retired_sides_seen s' = {[ from env ]} ∪ retired_sides_seen s) /\
  (co_holders s' = co_holders s \/
   joins clock (public_bytes (side (services d))) s s' (payload env)).
Proof.
  intros s s'. subst s s'. rewrite serve_direct_step_inv, A. cbn zeta.
  pose proof (accepted_fits _ _ _ _ A) as F.
  destruct (admit_envelope clock env (services d)).1.
  - pose proof (handle_direct_change clock ios kn rnd env
      (with_services (admit_envelope clock env (services d)).2 d)) as C.
    rewrite admit_side in C. exact (side_change_stranger _ _ _ _ _ _ F C N).
  - by repeat split; left.
Qed.

(** ** Two nodes *)

(** A direct message sent to a side that allows its sender and whose gates let
    the envelope in reaches the application as it was written, under its nonce
    and with the sender's key as its origin, and leaves the side alone. *)
Lemma dm_delivered `{HashIter, CryptoLaws, !Ecies, !EciesLaws} sc ss a pt t1 n1 bs clock ios kn rnd d
    (Ic : intent sc = Intent.Direct) (Is : intent ss = Intent.Direct)
    (Hp : peer_side sc = public_bytes (side (services d)))
    (T1 : t1 < u64_size) (N1 : blen n1 = NONCE_LEN)
    (Q : send_dm sc a pt (Some t1) n1 = NOk bs) (A : gates_pass ss clock bs (services d))
    (C : capability_allows (public_bytes a) DIRECT_MESSAGE (side_state d) = true) :
  let '(out, d', r) := serve_direct_step ss clock ios kn rnd bs d in
  exists e, out = [DMessage e pt] /\ from e = public_bytes a /\ Envelope.to e = Some (public_bytes (side (services d))) /\
    Envelope.nonce e = n1 /\ hosted d' = hosted d /\ r = NOk tt.
Proof.
  unfold send_dm in Q. apply nresult_bind_ok in Q as (ct & Hs%core_ok & Q).
  cbn [core now_unix_seconds ok_or mbind nresult_bind] in Q.
  apply nresult_bind_ok in Q as (e & He%core_ok & Q).
  assert (accept_one ss bs = NOk (e, [])) as Ha.
  { eapply sent_accepted; [..|exact He|exact Q]; try done; [|by rewrite Ic].
    rewrite Hp. apply ed_public_length. }
  assert (Envelope.to e = Some (public_bytes (side (services d)))) as Hto by (injection He as <-; by rewrite Hp).
  apply sign_with_fields in He as (Ht & Hf & Hn & Hpl).
  pose proof (A e [] Ha) as Ad. rewrite serve_direct_step_inv, Ha, Ad. cbn zeta.
  unfold handle_direct. rewrite Ht. cbn [N.eqb Pos.eqb MT_DIRECT_MESSAGE].
  unfold handle_direct_message. rewrite Hf, Hn, Hpl, admit_side.
  rewrite (C : capability_allows _ _ (side_state (with_services _ d)) = true). cbn [negb].
  rewrite Hp in Hs. rewrite (opens_sealed _ _ _ _ _ _ Hs). by exists e.
Qed.

(** ** Pairing *)

Section Pairing.
Context `{Crypto}.

(** A field through a replay. *)
Lemma replay_field {A B} (field : Side -> B) (g : B -> A -> B) (f : Io -> A -> Hosted -> Hosted) ios l h :
  (forall io x h, field (fst (f io x h)) = g (field (fst h)) x) ->
  field (fst (replay f ios l h)) = foldl g (field (fst h)) l.
Proof using.
  intros Hf. unfold replay. generalize 0%nat. revert h.
  induction l as [|x l IH]; intros h i; [done|]. cbn [foldl]. rewrite IH. by rewrite Hf.
Qed.

Lemma foldl_same {A B} (b : B) (l : list A) : foldl (fun b _ => b) b l = b.
Proof using. by induction l. Qed.

(** A contact as it crosses the wire: without the address it was last seen at. *)
Definition forget_listen (r : SideRelationship) : SideRelationship :=
  {| SideStore.address := SideStore.address r; nickname := nickname r; introduced_by := introduced_by r;
     capabilities := capabilities r; notes := notes r; pinned := pinned r; added_at := added_at r;
     peer_listen_addr := None |}.

Lemma relationship_record_back r : relationship_from_record (record_of_relationship r) = forget_listen r.
Proof using.
  unfold relationship_from_record, record_of_relationship, forget_listen. cbn. f_equal.
  apply set_eq. intros x. rewrite elem_of_list_to_set, set_to_list_permutation. apply elem_of_elements.
Qed.

(** The contacts of the bundle, inserted one by one. *)
Lemma foldl_insert_relationships (rows : list (bytes * SideRelationship)) (out : gmap bytes SideRelationship) a :
  NoDup (map fst rows) -> Forall (fun kv => SideStore.address (snd kv) = fst kv) rows ->
  foldl (fun m r => RelationshipTable.insert (forget_listen r) m) out (map snd rows) !! a
  = match (list_to_map rows : gmap bytes SideRelationship) !! a with
    | Some r => Some (forget_listen r)
    | None => out !! a
    end.
Proof using.
  intros Hnd Hk. rewrite foldl_map, <-(foldl_insert_rows (fun _ => forget_listen) rows out a Hnd).
  f_equal. clear Hnd. revert out. induction Hk as [|[k r] rows Hr _ IH]; intros out; [done|].
  cbn [foldl fst snd] in *. rewrite IH. do 2 f_equal. unfold RelationshipTable.insert.
  cbn [forget_listen SideStore.address]. by rewrite Hr.
Qed.

Lemma replayed_relationships s :
  map_Forall (fun a r => SideStore.address r = a) (relationships s) ->
  foldl (fun m rec => RelationshipTable.insert (relationship_from_record rec) m) RelationshipTable.new
    (map record_of_relationship (list_relationships s))
  = forget_listen <$> relationships s.
Proof using.
  intros Hk. rewrite foldl_map. unfold list_relationships.
  set (l := map snd (map_to_list (relationships s))).
  assert (exists rows, map snd rows = merge_sort address_le l /\ rows ≡ₚ map_to_list (relationships s))
    as (rows & <- & Hrows).
  { pose proof (merge_sort_Permutation address_le l) as P. subst l.
    destruct (Permutation_map_inv _ _ P) as (rows & E & Pr). by exists rows. }
  apply map_eq. intros a. rewrite lookup_fmap.
  transitivity (foldl (fun m r => RelationshipTable.insert (forget_listen r) m) RelationshipTable.new
                  (map snd rows) !! a).
  { f_equal. generalize (RelationshipTable.new). induction (map snd rows) as [|r rs IH]; intros m; [done|].
    cbn [foldl]. by rewrite relationship_record_back, IH. }
  assert (NoDup (map fst rows)) as Hnd.
  { change (NoDup (fst <$> rows)). rewrite Hrows. apply NoDup_fst_map_to_list. }
  rewrite foldl_insert_relationships; [|done|].
  - rewrite (list_to_map_proper _ _ Hnd Hrows), list_to_map_to_list. by destruct (relationships s !! a).
  - apply Forall_forall. intros [k r] Hin. rewrite Hrows, elem_of_map_to_list in Hin. exact (Hk k r Hin).
Qed.

(** The mutators on the memory. *)
Lemma fst_set_profile io n p h : fst (set_profile io n p h) = set_profile_mem (Some p) (fst h).
Proof using. by destruct h. Qed.
Lemma fst_add_relationship io r h :
  fst (add_relationship io r h)
  = set_relationships_mem (RelationshipTable.insert r (relationships (fst h))) (fst h).
Proof using. by destruct h. Qed.
Lemma fst_mark_retired clock io r h :
  fst (mark_retired_seen clock io r h) = set_retired_mem ({[ r ]} ∪ retired_sides_seen (fst h)) (fst h).
Proof using. by destruct h. Qed.
Definition new_co_holder (clock : Clock) (dev : bytes) (by_ : option bytes) : CoHolderRecord :=
  {| device_pubkey := dev; co_added_at := now_or_log_zero clock; added_by := by_ |}.
Lemma fst_add_co_holder clock io n dev by_ h :
  fst (add_co_holder clock io n dev by_ h)
  = set_co_holders_mem (<[dev := new_co_holder clock dev by_]> (co_holders (fst h))) (fst h).
Proof using. by destruct h. Qed.
Lemma fst_set_lifecycle io n lc h : fst (set_lifecycle io n lc h) = set_lifecycle_mem lc (fst h).
Proof using. by destruct h. Qed.
Lemma fst_record_addr clock io n dev a h :
  fst (record_co_holder_addr clock io n dev a h)
  = set_addrs_mem (<[dev := a]> (co_holder_addrs (fst h))) (fst h).
Proof using. by destruct h. Qed.

(** The three replays of a bundle. *)
Abbreviation replay_rels := (replay (fun io rec => add_relationship io (relationship_from_record rec))).
Abbreviation replay_retired clock := (replay (mark_retired_seen clock)).
Abbreviation replay_devices clock k :=
  (replay (fun io dev h => if bool_decide (dev = k) then h else add_co_holder clock io 0 dev None h)).

Lemma fst_replay_rels ios l h :
  fst (replay_rels ios l h)
  = set_relationships_mem
      (foldl (fun m rec => RelationshipTable.insert (relationship_from_record rec) m) (relationships (fst h)) l)
      (fst h).
Proof using.
  rewrite (replay_field (fun s => s) (fun s rec => set_relationships_mem
    (RelationshipTable.insert (relationship_from_record rec) (relationships s)) s)).
  - generalize (fst h). induction l as [|r l IH]; intros s; [by destruct s|]. cbn [foldl]. by rewrite IH.
  - intros. apply fst_add_relationship.
Qed.

Lemma fst_replay_retired clock ios l h :
  fst (replay_retired clock ios l h)
  = set_retired_mem (foldl (fun m r => {[ r ]} ∪ m) (retired_sides_seen (fst h)) l) (fst h).
Proof using.
  rewrite (replay_field (fun s => s) (fun s r => set_retired_mem ({[ r ]} ∪ retired_sides_seen s) s)).
  - generalize (fst h). induction l as [|r l IH]; intros s; [by destruct s|]. cbn [foldl]. by rewrite IH.
  - intros. apply fst_mark_retired.
Qed.

Definition insert_device (clock : Clock) (k : bytes) (m : gmap bytes CoHolderRecord) (dev : bytes) :=
  if bool_decide (dev = k) then m else <[dev := new_co_holder clock dev None]> m.

Lemma fst_replay_devices clock k ios l h :
  fst (replay_devices clock k ios l h)
  = set_co_holders_mem (foldl (insert_device clock k) (co_holders (fst h)) l) (fst h).
Proof using.
  rewrite (replay_field (fun s => s) (fun s dev => set_co_holders_mem (insert_device clock k (co_holders s) dev) s)).
  - generalize (fst h). induction l as [|r l IH]; intros s; [by destruct s|]. cbn [foldl]. by rewrite IH.
  - intros io x h'. unfold insert_device. case_bool_decide; [by destruct (fst h')|]. apply fst_add_co_holder.
Qed.

Lemma foldl_retired (l : list bytes) (m : gset bytes) : foldl (fun m r => {[ r ]} ∪ m) m l = list_to_set l ∪ m.
Proof using.
  revert m. induction l as [|x l IH]; intros m; cbn [foldl list_to_set]; [set_solver|]. rewrite IH. set_solver.
Qed.

Lemma foldl_devices clock k l m d :
  is_Some (foldl (insert_device clock k) m l !! d) <-> is_Some (m !! d) \/ (d <> k /\ d ∈ l).
Proof using.
  revert m. induction l as [|x l IH]; intros m; cbn [foldl]; [set_solver|]. rewrite IH.
  unfold insert_device. case_bool_decide as E.
  - subst. set_solver.
  - destruct (decide (x = d)) as [->|Hx].
    + rewrite lookup_insert_eq. set_solver.
    + rewrite lookup_insert_ne by done. set_solver.
Qed.

(** The side [s'] a new device [dev] installs, out of the side [s] of the
    device with the address [dial]. *)
Record clone (dev : bytes) (dial : string) (s s' : Side) : Prop := {
  clone_key : signing (keypair s') = signing (keypair s);
  clone_address : SideState.address s' = SideState.address s;
  clone_profile : SideState.profile s' = SideState.profile s;
  clone_relationships : relationships s' = forget_listen <$> relationships s;
  clone_retired : retired_sides_seen s' = retired_sides_seen s;
  clone_lifecycle : lifecycle s' = lifecycle s;
  clone_devices : forall d, is_Some (co_holders s' !! d) <->
    d = SideState.address s \/ (d <> dev /\ is_Some (co_holders s !! d));
  clone_addrs : co_holder_addrs s' = {[ SideState.address s := dial ]};
  clone_revoked : revoked_devices s' = ∅;
  clone_self_retired : is_self_retired s' = false
}.

Lemma synced_devices s t d :
  Synced (s, t) ->
  d ∈ merge_sort bytes_le (map (fun kv => device_pubkey (snd kv)) (map_to_list (co_holders s))) <->
  is_Some (co_holders s !! d).
Proof using.
  intros Sy. pose proof (sync_co_holders _ Sy) as Hco. cbn [fst snd] in Hco.
  rewrite merge_sort_Permutation, list_elem_of_fmap. split.
  - intros ([k r] & -> & Hin%elem_of_map_to_list). rewrite <-Hco in Hin.
    apply fmap_Some in Hin as ([at_ by_] & E & ->). cbn [snd device_pubkey]. rewrite <-Hco, E. by eexists.
  - intros [r E]. exists (d, r). split; [|by apply elem_of_map_to_list].
    rewrite <-Hco in E. by apply fmap_Some in E as (x & _ & ->).
Qed.

Lemma delta_lifecycle_label lc : delta_lifecycle (lifecycle_label lc) = lc.
Proof using. by destruct lc. Qed.

(** The profile of a bundle. *)
Lemma replayed_profile io (o : option ProfilePayload) (h : Hosted) :
  from_option profile_ok True o -> SideState.profile (fst h) = None ->
  exists h', match Profile.Profile.to_wire_bytes <$> o with
    | None => mret h
    | Some wire => prof ← core (Profile.Profile.from_wire_bytes wire); mret (set_profile io 0 prof h)
    end = NOk h' /\ fst h' = set_profile_mem o (fst h).
Proof using.
  intros Ho Hn. destruct o as [p|]; cbn [fmap option_fmap option_map].
  - exists (set_profile io 0 p h). split; [|apply fst_set_profile].
    apply nresult_bind_ok. exists p. split; [by apply core_ok|done].
  - exists h. split; [done|]. rewrite <-Hn. by destruct (fst h).
Qed.

(** A bundle replayed into a fresh side. *)
Lemma replay_clones clock now ios dev qr key lbl created s t t0 :
  Synced (s, t) -> signing key = signing (keypair s) -> PairingQr.side qr = SideState.address s ->
  exists h, replay_bundle clock ios dev qr (build_state_bundle_inner now (s, t)) (fresh key lbl created, t0) = NOk h /\
    clone dev (PairingQr.dial_addr qr) s (fst h).
Proof using.
  intros Sy Hkey Hqr. unfold replay_bundle, build_state_bundle_inner.
  cbn [BundleInner.profile_wire BundleInner.relationships BundleInner.retired_sides BundleInner.co_holders
       BundleInner.lifecycle].
  destruct (replayed_profile (ios 0 0)%nat (SideState.profile s) (fresh key lbl created, t0)
    (sync_profile_ok _ Sy) eq_refl) as (h0 & -> & Hh0).
  eexists. split; [reflexivity|].
  rewrite fst_add_co_holder, fst_record_addr, fst_set_lifecycle, fst_replay_devices, fst_replay_retired,
    fst_replay_rels, Hh0.
  pose proof (sync_address _ Sy) as Ha. pose proof (sync_keys _ Sy) as Hk.
  pose proof (sync_retired _ Sy) as Hret. cbn [fst snd] in *.
  assert (SideState.address (fresh key lbl created) = SideState.address s) as Haddr.
  { cbn [fresh SideState.address]. rewrite Ha. unfold public_bytes. by rewrite Hkey. }
  constructor; try done; cbn [co_holders relationships retired_sides_seen lifecycle co_holder_addrs
      set_co_holders_mem set_addrs_mem set_lifecycle_mem set_retired_mem set_relationships_mem set_profile_mem
      fresh fst].
  - by apply replayed_relationships.
  - rewrite foldl_retired. apply set_eq. intros x.
    rewrite elem_of_union, elem_of_list_to_set, merge_sort_Permutation, Hret, Ha.
    rewrite <-elem_of_listed, elem_of_list_to_set. unfold SideStore.list_retired_seen. set_solver.
  - by rewrite delta_lifecycle_label.
  - intros d. destruct (decide (PairingQr.side qr = d)) as [E|E].
    + rewrite E, lookup_insert_eq. split; [intros _; left; congruence|by eexists].
    + rewrite lookup_insert_ne by done. rewrite foldl_devices, (synced_devices s t d Sy), lookup_empty.
      split; [intros [[? [=]]|?]; by right|]. intros [->|?]; [by rewrite Hqr in E|by right].
  - rewrite Hqr. apply insert_empty.
Qed.

End Pairing.

Section PairingRun.
Context `{HI : HashIter} `{Laws : CryptoLaws, EC : !Ecies, EL : !EciesLaws}.

(** What the client signs is accepted by the parsers of the server. *)
Lemma pairing_request_signed side k nonce req :
  PairingRequest.sign side k (public_bytes k) nonce = Ok req ->
  blen side = 32 -> blen nonce = PAIRING_NONCE_LEN ->
  blen (PairingRequest.to_wire_bytes req) < u64_size ->
  PairingRequest.from_wire_bytes (PairingRequest.to_wire_bytes req) = Ok req /\
  PairingRequest.side req = side /\ PairingRequest.nonce req = nonce /\
  PairingRequest.device_pubkey req = public_bytes k /\ PairingRequest.device_x25519_pubkey req = public_bytes k.
Proof using Laws.
  intros [= <-] Hs Hn F. split; [|done]. apply pairing_request_wire; [done|].
  split; [|split; [apply signed_by_sign|done]].
  unfold PairingRequest.wf. cbn. split_and!; try done; try apply ed_sign_length; apply ed_public_length.
Qed.

Lemma state_bundle_signed k dev nonce kn sealed b :
  StateBundle.sign k dev nonce kn sealed = Ok b ->
  blen dev = 32 -> blen nonce = PAIRING_NONCE_LEN -> blen kn = KEY_NONCE_LEN -> blen sealed < u64_size ->
  blen (StateBundle.to_wire_bytes b) < u64_size ->
  StateBundle.from_wire_bytes (StateBundle.to_wire_bytes b) = Ok b.
Proof using Laws.
  intros [= <-] Hd Hn Hk Hsl F. apply state_bundle_wire; [done|].
  split; [|split; [apply signed_by_sign|done]].
  unfold StateBundle.wf. cbn. split_and!; try done; try apply ed_sign_length; apply ed_public_length.
Qed.

(** The new device opens the bundle made for its request. *)
Lemma bundle_opens clock kn req own k h bundle qr e peer t2 rnd :
  state_bundle_for clock kn req own h = Ok bundle ->
  PairingRequest.sign (PairingQr.side qr) k (public_bytes k) (PairingQr.nonce qr) = Ok req ->
  PairingQr.side qr = public_bytes own -> signing (keypair (fst h)) = signing own ->
  blen (PairingQr.nonce qr) = PAIRING_NONCE_LEN -> blen kn = KEY_NONCE_LEN ->
  blen (StateBundle.to_wire_bytes bundle) <= 65236 ->
  BundleInner.wf (build_state_bundle_inner clock h) ->
  blen (BundleInner.encode (build_state_bundle_inner clock h)) < u64_size ->
  blen (StateBundle.sealed_state bundle) < u64_size ->
  sign_response own peer MT_DEVICE_STATE_BUNDLE (StateBundle.to_wire_bytes bundle) (Some t2) rnd = NOk e ->
  valid e -> blen (to_wire_bytes e) <= MAX_ENVELOPE_LEN ->
  accept_pairing_open k qr (frame e)
  = NOk (side_from_seed (signing own) "joined", build_state_bundle_inner clock h).
Proof using Laws EL.
  intros B [= <-] Hqr Hkey Hn Hk Hs Hwf Hin Hsl He Hv Hl. unfold state_bundle_for in B.
  cbn [PairingRequest.device_x25519_pubkey PairingRequest.device_pubkey PairingRequest.nonce] in B.
  apply result_bind_ok in B as (sealed & Hseal & B).
  assert (message_type e = MT_DEVICE_STATE_BUNDLE /\ payload e = StateBundle.to_wire_bytes bundle) as [Ht Hpl].
  { unfold sign_response in He. cbn [core now_unix_seconds ok_or mbind nresult_bind] in He.
    apply core_ok in He. by injection He as <-. }
  unfold accept_pairing_open. rewrite (proj2 (recv_envelope_ok (frame e) e [])) by (rewrite app_nil_r; done).
  cbn [mbind nresult_bind]. rewrite Ht. cbn [nensure MT_DEVICE_STATE_BUNDLE N.eqb Pos.eqb mbind nresult_bind].
  rewrite Hpl.
  assert (blen sealed < u64_size) as Hsl' by (injection B as <-; exact Hsl).
  rewrite (state_bundle_signed _ _ _ _ _ _ B); try done; [|apply ed_public_length|unfold u64_size in *; lia].
  cbn [core mbind nresult_bind]. injection B as <-.
  cbn [StateBundle.side StateBundle.recipient_device StateBundle.nonce StateBundle.sealed_state
       StateBundle.key_nonce].
  rewrite Hqr, !bool_decide_eq_true_2 by done. cbn [nensure mbind nresult_bind].
  rewrite (opens_sealed _ _ _ _ _ _ Hseal). cbn [core mbind nresult_bind].
  rewrite (proj2 (bundle_inner_wire _ (build_state_bundle_inner clock h) Hin)) by done.
  cbn [core mbind nresult_bind]. destruct h as [s t]. cbn [build_state_bundle_inner BundleInner.side_seed fst] in *.
  rewrite Hkey, bool_decide_eq_true_2 by done. done.
Qed.

(** Installing an opened bundle. *)
Lemma install_clones clock io ios dev qr listen own now s t n :
  Synced (s, t) -> keypair s = own -> PairingQr.side qr = public_bytes own ->
  SideStore.load_side (PairingQr.side qr) (side_store n) = None -> io 0%nat = true ->
  exists s' n' pushes,
    accept_pairing_install clock io ios dev qr listen (side_from_seed (signing own) "joined")
      (build_state_bundle_inner now (s, t)) n = (NOk s', n', pushes) /\
    clone dev (PairingQr.dial_addr qr) s s'.
Proof using.
  intros Sy K Hqr Hnone Hio. rewrite Hqr in Hnone. unfold accept_pairing_install, add_side, load_or_create.
  change (public_bytes (side_from_seed (signing own) "joined")) with (public_bytes own).
  rewrite Hnone, Hio. cbn [ensure core mbind result_bind nresult_bind].
  destruct (replay_clones clock now ios dev qr (side_from_seed (signing own) "joined") (Some "joined")
    (now_or_log_zero clock) s t
    (SideStore.upsert_side (stored_row (fresh (side_from_seed (signing own) "joined")
       (Some "joined") (now_or_log_zero clock)) Lifecycle.Created None) (side_store n)) Sy)
    as ([s' t'] & Hrep & Hcl).
  - by rewrite K.
  - rewrite Hqr, <-K. symmetry. exact (sync_address _ Sy).
  - cbn [mret nresult_ret side_store set_store set_extras side_label side_from_seed].
    rewrite Hrep. by eexists s', _, _.
Qed.

End PairingRun.

Lemma blen_sealed_le b : blen (StateBundle.sealed_state b) <= blen (StateBundle.to_wire_bytes b).
Proof.
  etrans; [apply blen_bytestr_le|].
  apply (blen_value_le (StateBundle.wire_entries b) (entry "sealed_state" (bytestr (StateBundle.sealed_state b)))).
  unfold StateBundle.wire_entries. set_solver.
Qed.

(** C5: pairing, from the scan of the code to the installed side.  The request
    of the new device, let in while the nonce of the code is live, is answered,
    the device becomes a co-holder, and whatever node installs what it opens
    from the answer, having no such side yet, has the key, the profile, the
    contacts, the retirements, the lifecycle and the devices of the side.  The
    revocations do not come with it. *)
Theorem pairing_clones_side `{HashIter, CryptoLaws, !Ecies, !EciesLaws}
    sc ss k qr t1 n1 bs t2 ios kn rnd d p h req bundle
    (Ic : intent sc = Intent.Direct) (Is : intent ss = Intent.Direct)
    (Sy : Synced (hosted d)) (K : keypair (side_state d) = side (services d))
    (Hqr : PairingQr.side qr = public_bytes (side (services d))) (Hn : blen (PairingQr.nonce qr) = PAIRING_NONCE_LEN)
    (T1 : t1 < u64_size) (N1 : blen n1 = NONCE_LEN)
    (T2 : t2 < u64_size) (N2 : blen rnd = NONCE_LEN) (N3 : blen kn = KEY_NONCE_LEN)
    (Q : accept_pairing_request sc k qr (Some t1) n1 = NOk bs) (A : gates_pass ss (Some t2) bs (services d))
    (P : take_pending_pairing (Some t2) (PairingQr.nonce qr) (hosted d) = (Some p, h))
    (R : PairingRequest.sign (PairingQr.side qr) k (public_bytes k) (PairingQr.nonce qr) = Ok req)
    (B : state_bundle_for (Some t2) kn req (side (services d)) h = Ok bundle)
    (S : blen (StateBundle.to_wire_bytes bundle) <= 65236)
    (W : BundleInner.wf (build_state_bundle_inner (Some t2) h))
    (F : blen (BundleInner.encode (build_state_bundle_inner (Some t2) h)) < u64_size) :
  exists w d', serve_direct_step ss (Some t2) ios kn rnd bs d = ([DWrite w], d', NOk tt) /\
    is_Some (co_holders (side_state d') !! public_bytes k) /\
    exists key inner, accept_pairing_open k qr w = NOk (key, inner) /\
      forall clock io ios' listen n,
        SideStore.load_side (PairingQr.side qr) (side_store n) = None -> io 0%nat = true ->
        exists s' n' pushes,
          accept_pairing_install clock io ios' (public_bytes k) qr listen key inner n = (NOk s', n', pushes) /\
          clone (public_bytes k) (PairingQr.dial_addr qr) (side_state d) s'.
Proof.
  unfold accept_pairing_request in Q. rewrite R in Q. cbn [core mbind nresult_bind now_unix_seconds ok_or] in Q.
  apply nresult_bind_ok in Q as (e & He%core_ok & Q).
  assert (accept_one ss bs = NOk (e, [])) as Ha.
  { eapply sent_accepted; [..|exact He|exact Q]; try done; [|by rewrite Ic].
    rewrite Hqr. apply ed_public_length. }
  apply sign_with_fields in He as (Ht & Hf & _ & Hpl).
  assert (blen (PairingRequest.to_wire_bytes req) < u64_size) as Freq.
  { rewrite <-Hpl. by eapply accepted_fits. }
  assert (blen (PairingQr.side qr) = 32) as Hside by (rewrite Hqr; apply ed_public_length).
  destruct (pairing_request_signed _ _ _ _ R Hside Hn Freq) as (Hreq & Hrs & Hrn & Hrd & Hrx).
  pose proof (A e [] Ha) as Ad. rewrite serve_direct_step_inv, Ha, Ad. cbn zeta.
  unfold handle_direct. rewrite Ht.
  cbn [N.eqb Pos.eqb MT_DEVICE_PAIRING_REQUEST MT_DIRECT_MESSAGE MT_PROFILE_FETCH MT_PROFILE_DELIVER
       MT_SIDE_RETIREMENT MT_LINKAGE_PUBLISH].
  unfold handle_pairing_request. rewrite Hpl, Hreq, admit_side, Hrs, Hqr, bool_decide_eq_true_2 by done.
  cbn [negb]. change (hosted (with_services _ d)) with (hosted d). rewrite Hrn, P.
  cbn [services with_hosted with_services].
  rewrite (same_side _ _ (admit_tables (Some t2) e (services d))), B.
  destruct (sign_response_ok (side (services d)) (from e) MT_DEVICE_STATE_BUNDLE
    (StateBundle.to_wire_bytes bundle) t2 rnd) as (resp & Hresp & Hv & Hl & _);
    [done|rewrite Hf; apply ed_public_length|done..|].
  rewrite Hresp. cbn [mbind nresult_bind]. rewrite send_envelope_frame by done.
  eexists _, _. split; [reflexivity|]. split.
  { unfold side_state. cbn [hosted with_hosted]. rewrite fst_add_co_holder, Hrd.
    cbn [co_holders set_co_holders_mem]. by rewrite lookup_insert_eq. }
  unfold side_state in *. destruct (hosted d) as [s t] eqn:Eh. cbn [fst] in *.
  unfold take_pending_pairing in P. injection P as _ <-.
  eexists _, _. split.
  { eapply bundle_opens; try eassumption; [cbn [fst keypair set_pending_mem]; by rewrite K|].
    pose proof (blen_sealed_le bundle). unfold u64_size in *. lia. }
  intros clock io ios' listen n Hnone Hio.
  match goal with |- context [build_state_bundle_inner _ (set_pending_mem ?x s, t)] =>
    destruct (install_clones clock io ios' (public_bytes k) qr listen (side (services d)) (Some t2)
      (set_pending_mem x s) t n) as (s' & n' & pushes & Hi & Hc); try done
  end.
  - by apply (synced_durable s).
  - by rewrite Hqr.
  - exists s', n', pushes. split; [exact Hi|]. by destruct Hc.
Qed.

(** ** Pushed deltas *)

Section Pushes.
Context `{Crypto}.

Lemma pushed clock a ops n p :
  p ∈ push_delta_to_co_holders clock a ops n <->
  exists s dev t, side_by_address a n = Some s /\ clock = Some t /\
    co_holder_addrs s !! dev = Some (dial p) /\
    push_payload p = Delta.to_wire_bytes
      {| Delta.side := public_bytes (keypair s); Delta.ops := ops; Delta.applied_at := t;
         Delta.signature := side_sign (keypair s)
           (blake3 (Delta.encode_unsigned (public_bytes (keypair s)) ops t)) |}.
Proof using.
  unfold push_delta_to_co_holders. destruct (side_by_address a n) as [s|].
  2:{ split; [by intros ?%not_elem_of_nil|]. by intros (s & dev & t & [=] & _). }
  case_bool_decide as Hn.
  { split; [by intros ?%not_elem_of_nil|]. intros (s' & dev & t & [= <-] & _ & E & _).
    apply map_to_list_empty_iff in Hn. by rewrite Hn, lookup_empty in E. }
  destruct clock as [t|]; cbn [now_unix_seconds ok_or].
  2:{ split; [by intros ?%not_elem_of_nil|]. by intros (s' & dev & t & _ & [=] & _). }
  cbn [Delta.sign]. rewrite list_elem_of_fmap. split.
  - intros ([dev addr] & -> & Hin%elem_of_map_to_list). by exists s, dev, t.
  - intros (s' & dev & t' & [= <-] & [= <-] & E & Hp). exists (dev, dial p).
    split; [by destruct p; cbn in *; subst|]. by apply elem_of_map_to_list.
Qed.

(** The side an operation on it leaves. *)
Lemma side_by_address_on_side a f n s :
  (forall h, SideState.address (fst (f h)) = SideState.address (fst h) /\ keypair (fst (f h)) = keypair (fst h)) ->
  side_by_address a n = Some s ->
  side_by_address a (on_side a f n) = Some (fst (f (s, side_store n))).
Proof using.
  intros Hf. unfold side_by_address, on_side. destruct (is_primary a n) eqn:Ep.
  - intros [= <-]. destruct (f (primary n, side_store n)) as [s' t'] eqn:E.
    destruct (Hf (primary n, side_store n)) as [_ Hk]. rewrite E in Hk. cbn [fst] in *.
    unfold is_primary in *. cbn [primary set_store set_primary]. by rewrite Hk, Ep.
  - unfold find_extra. destruct (list_find _ (extras n)) as [[i [s0 addr]]|] eqn:El; [|done].
    cbn [fst]. intros [= <-]. destruct (f (s0, side_store n)) as [s' t'] eqn:E.
    destruct (Hf (s0, side_store n)) as [Ha _]. rewrite E in Ha. cbn [fst] in *.
    unfold is_primary in *. cbn [primary extras set_store set_extras]. rewrite Ep.
    apply list_find_Some in El as (Hi & Hp & Hmin). cbn [fst] in Hp.
    rewrite (proj2 (list_find_Some _ _ i (s', addr))); [done|].
    pose proof (lookup_lt_Some _ _ _ Hi). split; [by rewrite list_lookup_insert_eq|].
    cbn [fst]. split; [congruence|]. intros j y Hj Hlt.
    rewrite list_lookup_insert_ne in Hj by lia. by eapply Hmin.
Qed.

End Pushes.

(** What one device pushes another applies: a push of any operations of a
    side goes to an address on record for a device, and the envelope it is sent
    in, let in by a node that holds the same side, applies exactly these
    operations with the sender's time. *)
Theorem pushed_delta_applies `{HashIter, CryptoLaws, !Ecies} a n s ops t0 p sc ss t1 n1 e bs clock ios kn rnd d
    (Hs : side_by_address a n = Some s) (Hp : p ∈ push_delta_to_co_holders (Some t0) a ops n)
    (Ic : intent sc = Intent.Direct) (Is : intent ss = Intent.Direct)
    (Hpeer : blen (peer_side sc) = PUBLIC_KEY_LEN)
    (T0 : t0 < u64_size) (T1 : t1 < u64_size) (N1 : blen n1 = NONCE_LEN) (W : Delta.wf_ops ops)
    (He : push_envelope (keypair s) sc (Some t1) n1 (push_payload p) = Ok e) (Hb : open_and_send sc e = NOk bs)
    (K : public_bytes (side (services d)) = public_bytes (keypair s))
    (A : gates_pass ss clock bs (services d)) :
  (exists dev, co_holder_addrs s !! dev = Some (dial p)) /\
  exists d', serve_direct_step ss clock ios kn rnd bs d = ([], d', NOk tt) /\
    hosted d' = apply_deltas clock ios ops t0 (hosted d).
Proof.
  apply pushed in Hp as (s' & dev & t & Hs' & [= <-] & Ha & Hp). rewrite Hs in Hs'. injection Hs' as <-.
  split; [by exists dev|]. unfold push_envelope in He. cbn [now_unix_seconds ok_or mbind result_bind] in He.
  assert (accept_one ss bs = NOk (e, [])) as Hacc.
  { eapply sent_accepted; [..|exact He|exact Hb]; try done. by rewrite Ic. }
  pose proof (accepted_fits _ _ _ _ Hacc) as F.
  apply sign_with_fields in He as (Ht & _ & _ & Hpl).
  pose proof (A e [] Hacc) as Ad. rewrite serve_direct_step_inv, Hacc, Ad. cbn zeta.
  unfold handle_direct. rewrite Ht.
  cbn [N.eqb Pos.eqb MT_STATE_DELTA MT_DEVICE_PAIRING_REQUEST MT_DIRECT_MESSAGE MT_PROFILE_FETCH
       MT_PROFILE_DELIVER MT_SIDE_RETIREMENT MT_LINKAGE_PUBLISH MT_DEVICE_REVOKE MT_DEVICE_STATE_BUNDLE].
  unfold handle_state_delta. rewrite Hpl, Hp in F |- *.
  match type of F with blen (Delta.to_wire_bytes ?q) < _ =>
    rewrite (proj2 (state_delta_wire (Delta.to_wire_bytes q) q F)); [|split; [|split; [apply signed_by_sign|done]]]
  end.
  - rewrite admit_side. cbn [Delta.side Delta.ops Delta.applied_at]. rewrite K, bool_decide_eq_true_2 by done.
    cbn [negb]. eexists. split; [reflexivity|]. done.
  - unfold Delta.wf. cbn. split_and!; try done; [apply ed_public_length|apply ed_sign_length].
Qed.

(** A revoked device is out of the devices and on record as revoked, but the
    address on record for it stays, and every later delta of the side is
    pushed to it. *)
Theorem revoked_device_still_pushed_to `{Crypto} t io a dev reason n s addr t' ops
    (Hs : side_by_address a n = Some s) (Ha : co_holder_addrs s !! dev = Some addr) :
  let n' := snd (revoke_co_holder (Some t) io a dev reason n) in
  is_device_revoked a dev n' = true /\
  (exists s', side_by_address a n' = Some s' /\ co_holders s' !! dev = None) /\
  exists p, p ∈ push_delta_to_co_holders (Some t') a ops n' /\ dial p = addr.
Proof.
  intros n'. set (f := fun h => remove_co_holder io 1 dev (add_revoked_device (Some t) io 0 dev h)).
  assert (side_by_address a n' = Some (fst (f (s, side_store n)))) as Hn'.
  { subst n'. unfold revoke_co_holder. rewrite Hs. apply side_by_address_on_side; [|done].
    by intros [s0 t0]. }
  unfold is_device_revoked. rewrite Hn'. split_and!.
  - unfold SideState.is_device_revoked. apply bool_decide_eq_true_2. cbn. set_solver.
  - eexists. split; [done|]. cbn. by rewrite lookup_delete_eq.
  - eexists {| dial := addr; push_payload := _ |}. split; [|done]. apply pushed.
    by exists (fst (f (s, side_store n))), dev, t'.
Qed.

(** ** Concrete instances *)

Module DirectExamples.
Import Toy ToyEcies ToyIter NodeExamples SideExamples.

Definition direct (peer : bytes) : Session :=
  {| session_key := []; peer_side := peer; intent := Intent.Direct; peer_capabilities := ∅ |}.

(** A node that hosts [side], and a peer [side2]. *)
Definition host_services : Services := {|
  Node.side := Toy.side; store := Objects.open; Node.replay := Replay.new; peers := Peers.new 256; mailbox := ∅;
  gossip := Gossip.new; active_gossip := ∅; reputation := Reputation.new Reputation.default_policy;
  provenance := ∅; gossip_policy := Open; Node.relationships := ∅; metrics := Metrics.new |}.
Definition ds : DirectServices := {| services := host_services; hosted := h0 |}.
Definition own : bytes := public_bytes Toy.side.
Definition peer : bytes := public_bytes Toy.side2.
Definition nonce1 : bytes := replicate 16 Byte.x41.
Definition nonce2 : bytes := replicate 16 Byte.x42.
Definition sent (r : nresult bytes) : bytes := match r with NOk bs => bs | NErr _ => [] end.
Definition clk : Clock := Some (now0 + 1).
Definition no_io : nat -> Io := fun _ => io_ok.

Definition dm : bytes := sent (send_dm (direct own) Toy.side2 (as_bytes "hello") (Some now0) nonce1).

(** A retirement from the peer: no record of the side. *)
Definition retired_bytes : bytes :=
  match Retirement.sign Toy.side2 now0 None with
  | Ok r => sent (announce_retirement (direct own) Toy.side2 r (Some now0) nonce1)
  | Err _ => []
  end.
Definition retired_env : Envelope :=
  match accept_one (direct peer) retired_bytes with NOk (e, _) => e | NErr _ => EnvelopeExamples.env end.

Lemma strangers_change_nothing_witness :
  let s := side_state ds in
  let s' := side_state (serve_direct_step (direct peer) clk no_io nonce1 nonce2 retired_bytes ds).1.2 in
  same_own_state s s' /\
  (retired_sides_seen s' = retired_sides_seen s \/
   retired_sides_seen s' = {[ from retired_env ]} ∪ retired_sides_seen s) /\
  (co_holders s' = co_holders s \/ joins clk own s s' (payload retired_env)).
Proof.
  apply (strangers_change_nothing (direct peer) clk no_io nonce1 nonce2 retired_bytes retired_env [] ds).
  - vm_compute. reflexivity.
  - intros Hown. apply own_record_parses in Hown; [|by vm_compute].
    destruct Hown as [E|E]; vm_compute in E; discriminate.
Defined.
(** The side shows a code; the device [side2] scans it. *)
Definition shown : Hosted :=
  add_pending_pairing (Some now0) nonce1 (SideFacts.step (Some 5) io_ok (OAddRelationship (rel "bob" 10)) h0).
Definition dp : DirectServices := {| services := host_services; hosted := shown |}.
Definition qr : PairingQr.t :=
  {| PairingQr.side := own; PairingQr.nonce := nonce1; PairingQr.dial_addr := "127.0.0.1:9" |}.
Definition scanned : bytes :=
  sent (accept_pairing_request (direct own) Toy.side2 qr (Some now0) nonce2).
Definition taken : Hosted := snd (take_pending_pairing clk nonce1 shown).
Definition request : PairingRequest.PairingRequestPayload :=
  let u := PairingRequest.encode_unsigned own (public_bytes Toy.side2) (public_bytes Toy.side2) nonce1 in
  {| PairingRequest.side := own; PairingRequest.device_pubkey := public_bytes Toy.side2;
     PairingRequest.device_x25519_pubkey := public_bytes Toy.side2; PairingRequest.nonce := nonce1;
     PairingRequest.signature := side_sign Toy.side2 (blake3 u) |}.
Definition bundle : StateBundle.StateBundlePayload :=
  match state_bundle_for clk nonce2 request Toy.side taken with
  | Ok b => b
  | Err _ => {| StateBundle.side := []; StateBundle.recipient_device := []; StateBundle.nonce := [];
                StateBundle.key_nonce := []; StateBundle.sealed_state := []; StateBundle.signature := [] |}
  end.

Lemma shown_synced : Synced shown.
Proof.
  pose proof (synced_step (Some 5) (OAddRelationship (rel "bob" 10)) h0 eq_refl rel_bob_ok h0_synced) as Sy.
  unfold shown. destruct (SideFacts.step _ _ _ _) as [s t]. by apply (synced_durable s).
Qed.

Lemma pairing_clones_side_witness :
  exists w d', serve_direct_step (direct (public_bytes Toy.side2)) clk no_io nonce2 nonce2 scanned dp
      = ([DWrite w], d', NOk tt) /\
    is_Some (co_holders (side_state d') !! public_bytes Toy.side2) /\
    exists key inner, accept_pairing_open Toy.side2 qr w = NOk (key, inner) /\
      forall clock io ios' listen n,
        SideStore.load_side (PairingQr.side qr) (side_store n) = None -> io 0%nat = true ->
        exists s' n' pushes,
          accept_pairing_install clock io ios' (public_bytes Toy.side2) qr listen key inner n
            = (NOk s', n', pushes) /\
          clone (public_bytes Toy.side2) (PairingQr.dial_addr qr) (side_state dp) s'.
Proof.
  apply (pairing_clones_side (direct own) (direct (public_bytes Toy.side2)) Toy.side2 qr now0 nonce2 scanned
    (now0 + 1) no_io nonce2 nonce2 dp {| issued_at := now0 |} taken request bundle).
  1-2: reflexivity.
  1: exact shown_synced.
  1-9: vm_compute; reflexivity.
  1: apply gates_pass_compute; vm_compute; reflexivity.
  1: vm_compute; reflexivity.
  1: vm_compute; reflexivity.
  1: vm_compute; reflexivity.
  1: vm_compute; discriminate.
  2: vm_compute; reflexivity.
  apply (bundle_inner_wire (BundleInner.encode (build_state_bundle_inner clk taken))); vm_compute; reflexivity.
Defined.

(** The new device, with an address of its own, then pushes to the old one;
    and it is pushed to, once the old one has its address. *)
Definition hosting : HostNode :=
  {| primary := fst shown; Host.listen_addr := "127.0.0.1:9"; extras := []; side_store := snd shown |}.
Definition with_device : HostNode :=
  on_primary (fun h => record_co_holder_addr (Some now0) io_ok 1 peer "127.0.0.1:7"
                         (add_co_holder (Some now0) io_ok 0 peer None h)) hosting.
Definition ops : list DeltaOp := [rel_delta "carol" 20; LifecycleChanged "Active"].
Definition push : Push :=
  match push_delta_to_co_holders (Some now0) own ops with_device with
  | [p] => p
  | _ => {| dial := ""; push_payload := [] |}
  end.
Definition push_env : Envelope :=
  match push_envelope Toy.side (direct own) (Some now0) nonce2 (push_payload push) with
  | Ok e => e
  | Err _ => EnvelopeExamples.env
  end.

Lemma pushed_delta_applies_witness :
  (exists dev, co_holder_addrs (primary with_device) !! dev = Some (dial push)) /\
  exists d', serve_direct_step (direct own) clk no_io nonce1 nonce1 (sent (open_and_send (direct own) push_env)) ds
      = ([], d', NOk tt) /\
    hosted d' = apply_deltas clk no_io ops now0 (hosted ds).
Proof.
  apply (pushed_delta_applies own with_device (primary with_device) ops now0 push (direct own) (direct own)
    now0 nonce2 push_env (sent (open_and_send (direct own) push_env)) clk no_io nonce1 nonce1 ds).
  - vm_compute. reflexivity.
  - replace (push_delta_to_co_holders (Some now0) own ops with_device) with [push] by (vm_compute; reflexivity).
    by left.
  - reflexivity.
  - reflexivity.
  - vm_compute. reflexivity.
  - vm_compute. reflexivity.
  - vm_compute. reflexivity.
  - vm_compute. reflexivity.
  - split; [|by vm_compute]. repeat constructor; vm_compute; try reflexivity; try discriminate.
  - vm_compute. reflexivity.
  - vm_compute. reflexivity.
  - vm_compute. reflexivity.
  - apply gates_pass_compute. vm_compute. reflexivity.
Defined.

Lemma revoked_device_still_pushed_to_witness :
  let n' := snd (revoke_co_holder (Some now0) io_ok own peer None with_device) in
  is_device_revoked own peer n' = true /\
  (exists s', side_by_address own n' = Some s' /\ co_holders s' !! peer = None) /\
  exists p, p ∈ push_delta_to_co_holders (Some now0) own ops n' /\ dial p = "127.0.0.1:7".
Proof.
  apply (revoked_device_still_pushed_to now0 io_ok own peer None with_device (primary with_device) "127.0.0.1:7");
    vm_compute; reflexivity.
Defined.

End DirectExamples.
