(* ===== verification/VerseHost.v ===== *)
(** Hosting verses ([sidevers-net/src/verse.rs], [verse_post_store.rs] and the
    verse server of [node.rs]): admission, posting, leaving, removal,
    re-consent, amendment and the rotation of the content key, with the
    clients of the same protocol.

    A [VerseHost] is shared: the node's table and every open session hold
    references to it, and a session keeps those it found when it began.  [Heap]
    is the list of all hosts ever made, and references are positions in it.  A
    connection is a number; what is sent on connections of other sessions is
    spawned by the program, and here is done at once, [carries] telling which
    of these sends succeed.  [rng] are the nonces drawn, in order, and one
    reading of the clock serves a step.  [getrandom] does not fail. *)

From S2P Require Import Prelude Containers Cbor CborCodec CborValue TextMap Keys Envelope Payload Verse VerseMessages Session Storage Node.

Open Scope N_scope.

(** ** The log of posts *)

Module Posts.

Record StoredVersePost := { envelope : Envelope; sealed_payload : bytes; stored_at : N }.

Abbreviation t := (gmap bytes (gmap bytes (list StoredVersePost))).

(** A post whose author and nonce are on record is not stored again. *)
Definition insert (verse author : bytes) (env : Envelope) (sealed : bytes) (at_ : N) (g : t) : t :=
  let by_author := default ∅ (g !! verse) in
  let bucket := default [] (by_author !! author) in
  let bucket :=
    if existsb (fun p => bool_decide (nonce (envelope p) = nonce env)) bucket then bucket
    else bucket ++ [{| envelope := env; sealed_payload := sealed; stored_at := at_ |}] in
  <[verse := <[author := bucket]> by_author]> g.

Definition retract_by_author (verse author : bytes) (g : t) : nat * t :=
  match g !! verse with
  | None => (0%nat, g)
  | Some by_author =>
    (length (default [] (by_author !! author)), <[verse := delete author by_author]> g)
  end.

(** [sort_by_key(Reverse(stored_at))], which is stable. *)
Definition newer_first (a b : StoredVersePost) : Prop := stored_at b <= stored_at a.
#[export] Instance newer_first_dec a b : Decision (newer_first a b).
Proof. unfold newer_first. apply _. Defined.

Definition list_verse `{HashIter} (verse : bytes) (g : t) : list StoredVersePost :=
  match g !! verse with
  | None => []
  | Some by_author => merge_sort newer_first (concat (map snd (hiter by_author)))
  end.

Definition len (verse : bytes) (g : t) : nat :=
  match g !! verse with
  | None => 0%nat
  | Some by_author => sum_list_with length (map snd (map_to_list by_author))
  end.

End Posts.

(** ** One hosted verse *)

(** A QUIC connection, and a reference to a host. *)
Definition Conn : Type := nat.
Abbreviation HostId := nat.

Record VerseHost := {
  verse_key : SideKey;
  contract : ContractObject;
  content_key : bytes;
  members : gset bytes;
  consented_versions : gmap bytes N;
  active_sessions : gmap bytes Conn;
  pending_key_pushes : gmap bytes Envelope;
  posts : Posts.t
}.

Definition with_contract x h :=
  Build_VerseHost (verse_key h) x (content_key h) (members h) (consented_versions h) (active_sessions h)
    (pending_key_pushes h) (posts h).
Definition with_content_key x h :=
  Build_VerseHost (verse_key h) (contract h) x (members h) (consented_versions h) (active_sessions h)
    (pending_key_pushes h) (posts h).
Definition with_members x y h :=
  Build_VerseHost (verse_key h) (contract h) (content_key h) x y (active_sessions h)
    (pending_key_pushes h) (posts h).
Definition with_sessions x h :=
  Build_VerseHost (verse_key h) (contract h) (content_key h) (members h) (consented_versions h) x
    (pending_key_pushes h) (posts h).
Definition with_pending x h :=
  Build_VerseHost (verse_key h) (contract h) (content_key h) (members h) (consented_versions h)
    (active_sessions h) x (posts h).
Definition with_posts x h :=
  Build_VerseHost (verse_key h) (contract h) (content_key h) (members h) (consented_versions h)
    (active_sessions h) (pending_key_pushes h) x.

Definition new (key : SideKey) (c : ContractObject) (ck : bytes) : VerseHost :=
  {| verse_key := key; contract := c; content_key := ck; members := ∅; consented_versions := ∅;
     active_sessions := ∅; pending_key_pushes := ∅; posts := ∅ |}.

Definition stash_pending_key_push (member : bytes) (env : Envelope) (h : VerseHost) : VerseHost :=
  with_pending (<[member := env]> (pending_key_pushes h)) h.

Definition take_pending_key_push (member : bytes) (h : VerseHost) : option Envelope * VerseHost :=
  (pending_key_pushes h !! member, with_pending (delete member (pending_key_pushes h)) h).

Definition is_member (side : bytes) (h : VerseHost) : bool := bool_decide (side ∈ members h).
Definition member_count (h : VerseHost) : nat := size (members h).

(** The two insertions of [add_local_member] and of a join. *)
Definition admit_member (side : bytes) (version : N) (h : VerseHost) : VerseHost :=
  with_members ({[ side ]} ∪ members h) (<[side := version]> (consented_versions h)) h.

(** The closure of a leave and of a removal; whether it was a member. *)
Definition drop_member (side : bytes) (h : VerseHost) : bool * VerseHost :=
  (is_member side h,
   with_sessions (delete side (active_sessions h))
     (with_members (members h ∖ {[ side ]}) (delete side (consented_versions h)) h)).

Definition rotate_content_key (fresh : bytes) (h : VerseHost) : VerseHost := with_content_key fresh h.
Definition amend_contract (c : ContractObject) (h : VerseHost) : VerseHost := with_contract c h.

Definition KEY_SHARE_AAD : bytes := as_bytes "sidevers/v1/verse-key-share".
Definition POST_AAD : bytes := as_bytes "sidevers/v1/verse-post".

Definition MT_CONTRACT_FETCH : N := 0x50.
Definition MT_CONTRACT_DELIVER : N := 0x51.
Definition MT_JOIN_REQUEST : N := 0x52.
Definition MT_JOIN_ACCEPT : N := 0x53.
Definition MT_JOIN_DECLINE : N := 0x54.
Definition MT_VERSE_LEAVE : N := 0x55.
Definition MT_VERSE_REMOVE : N := 0x56.
Definition MT_VERSE_POST : N := 0x57.
Definition MT_VERSE_AMEND : N := 0x58.
Definition MT_VERSE_RECONSENT : N := 0x59.

(** What a step of a verse session does besides changing the state. *)
Inductive VerseEffect :=
| VWrite (bs : bytes)                        (* on the stream of the request *)
| VSend (conn : Conn) (env : Envelope)       (* on a new stream of a member's connection *)
| VPost (env : Envelope) (plaintext : bytes). (* to the local application *)

Section Verse.
Context `{HashIter, Crypto, Ecies}.

Definition verse_addr (h : VerseHost) : bytes := public_bytes (verse_key h).

(** [add_local_member]: the token and the content key. *)
Definition add_local_member (side : bytes) (issued_at : N) (h : VerseHost) : result (bytes * bytes) * VerseHost :=
  let h := admit_member side (version (contract h)) h in
  ((token ← Token.sign (verse_key h) (Contract.hash (contract h)) side issued_at;
    Ok (Token.to_wire_bytes token, content_key h)), h).

(** ** Key shares and rotation *)

(** The payload of a [JOIN_ACCEPT]: a token, and the content key sealed for
    the member. *)
Definition key_share (h : VerseHost) (contract_hash member : bytes) (now : N) (key_nonce : bytes)
    : result JoinAccept.JoinAcceptPayload :=
  token ← Token.sign (verse_key h) contract_hash member now;
  sealed ← Payload.seal (content_key h) (verse_key h) member key_nonce KEY_SHARE_AAD;
  Ok {| JoinAccept.membership_token := Token.to_wire_bytes token; JoinAccept.key_nonce := key_nonce;
        JoinAccept.sealed_content_key := sealed |}.

(** The members with an open session. *)
Definition member_sessions (h : VerseHost) : list (bytes * Conn) :=
  List.filter (fun kv => is_member (fst kv) h) (hiter (active_sessions h)).

(** One envelope for each of them; [i] counts the members. *)
Fixpoint rotation_pushes (h : VerseHost) (now : N) (rng : nat -> bytes) (i : nat) (l : list (bytes * Conn))
    : result (list (bytes * Conn * Envelope)) :=
  match l with
  | [] => Ok []
  | (member, conn) :: l =>
    p ← key_share h (Contract.hash (contract h)) member now (rng (2 * i)%nat);
    env ← sign_with MT_JOIN_ACCEPT (verse_key h) (Some member) (JoinAccept.encode p) now (rng (2 * i + 1)%nat);
    rest ← rotation_pushes h now rng (S i) l;
    Ok ((member, conn, env) :: rest)
  end.

(** The tasks of the pushes: what fails is stashed. *)
Definition deliver_push (carries : Conn -> Envelope -> bool) (acc : list VerseEffect * VerseHost)
    (push : bytes * Conn * Envelope) : list VerseEffect * VerseHost :=
  let '(out, h) := acc in
  let '(member, conn, env) := push in
  if carries conn env then (out ++ [VSend conn env], h) else (out, stash_pending_key_push member env h).

(** The key is replaced before anything that can fail. *)
Definition rotate_and_push_verse_key (clock : Clock) (rng : nat -> bytes) (fresh : bytes)
    (carries : Conn -> Envelope -> bool) (h : VerseHost) : list VerseEffect * VerseHost * nresult unit :=
  let h := rotate_content_key fresh h in
  match (now ← now_unix_seconds clock; rotation_pushes h now rng 0 (member_sessions h)) with
  | Err e => ([], h, NErr (Core e))
  | Ok pushes => let '(out, h) := foldl (deliver_push carries) ([], h) pushes in (out, h, NOk tt)
  end.

(** [verse_fanout_post] *)
Definition verse_fanout_post (carries : Conn -> Envelope -> bool) (h : VerseHost) (env : Envelope)
    (author : bytes) : list VerseEffect :=
  map (fun kv => VSend (snd kv) env)
    (List.filter (fun kv => negb (bool_decide (fst kv = author)) && carries (snd kv) env) (member_sessions h)).

(** ** The table of hosts, and sessions *)

Record Verses := { heap : list VerseHost; hosted_verses : gmap bytes HostId }.

Definition modify_host (i : HostId) (f : VerseHost -> VerseHost) (v : Verses) : Verses :=
  {| heap := alter f i (heap v); hosted_verses := hosted_verses v |}.

(** [Node::host_verse] *)
Definition host_verse (h : VerseHost) (v : Verses) : Verses :=
  {| heap := heap v ++ [h]; hosted_verses := <[verse_addr h := length (heap v)]> (hosted_verses v) |}.

Definition hosted_verse (addr : bytes) (v : Verses) : option (HostId * VerseHost) :=
  i ← hosted_verses v !! addr; h ← heap v !! i; Some (i, h).

Record VerseSession := {
  link : Session;
  conn : Conn;
  hosts : gmap bytes HostId;
  contract_hash_index : gmap bytes bytes;
  default_host : HostId
}.

(** [hosts.keys()], the least address. *)
Definition least (l : list bytes) : option bytes :=
  foldl (fun cur a => match cur with
                      | None => Some a
                      | Some c => if bytes_ltb a c then Some a else cur
                      end) None l.

Definition index_contracts (v : Verses) (hosts : gmap bytes HostId) : gmap bytes bytes :=
  foldl (fun idx kv => match heap v !! snd kv with
                       | Some h => <[Contract.hash (contract h) := fst kv]> idx
                       | None => idx
                       end) ∅ (hiter hosts).

(** The redelivery of a stashed key on the new connection. *)
Definition redeliver (carries : Conn -> Envelope -> bool) (c : Conn) (peer : bytes)
    (acc : list VerseEffect * Verses) (i : HostId) : list VerseEffect * Verses :=
  let '(out, v) := acc in
  match heap v !! i with
  | None => acc
  | Some h =>
    match take_pending_key_push peer h with
    | (None, h) => (out, modify_host i (fun _ => h) v)
    | (Some env, h) =>
      if carries c env then (out ++ [VSend c env], modify_host i (fun _ => h) v)
      else (out, modify_host i (fun _ => stash_pending_key_push peer env h) v)
    end
  end.

(** [serve_verse] up to its loop; [None] when nothing is hosted. *)
Definition open_session (carries : Conn -> Envelope -> bool) (link : Session) (c : Conn) (v : Verses)
    : option VerseSession * list VerseEffect * Verses :=
  let hosts := hosted_verses v in
  let peer := peer_side link in
  match least (map fst (hiter hosts)) ≫= fun a => hosts !! a with
  | None => (None, [], v)
  | Some dflt =>
    let s := {| link := link; conn := c; hosts := hosts; contract_hash_index := index_contracts v hosts;
                default_host := dflt |} in
    let ids := map snd (hiter hosts) in
    let v := foldl (fun v i => modify_host i (fun h => with_sessions (<[peer := c]> (active_sessions h)) h) v) v ids in
    let '(out, v) := foldl (redeliver carries c peer) ([], v) ids in
    (Some s, out, v)
  end.

(** The guards, when the session ends. *)
Definition close_session (s : VerseSession) (v : Verses) : Verses :=
  foldl (fun v i => modify_host i (fun h => with_sessions (delete (peer_side (link s)) (active_sessions h)) h) v)
    v (map snd (hiter (hosts s))).

End Verse.

(** ** The verse server *)

Record VerseServices := { services : Services; verses : Verses }.

Definition with_verses (v : Verses) (s : VerseServices) : VerseServices :=
  {| services := services s; verses := v |}.

Definition VerseHandled : Type := list VerseEffect * VerseServices * nresult unit.

(** [continue] *)
Definition vskip (s : VerseServices) : VerseHandled := ([], s, NOk tt).

Section Server.
Context `{HashIter, Crypto, Ecies}.
Context (carries : Conn -> Envelope -> bool).

(** [send_envelope(&mut send, &resp).await?; send.finish().ok()] *)
Definition vrespond (resp : nresult Envelope) (s : VerseServices) : VerseHandled :=
  match (e ← resp; send_envelope e) with
  | NOk bs => ([VWrite bs], s, NOk tt)
  | NErr e => ([], s, NErr e)
  end.

Definition handle_contract_fetch (clock : Clock) (rng : nat -> bytes) (vs : VerseSession) (env : Envelope)
    (s : VerseServices) : VerseHandled :=
  match heap (verses s) !! default_host vs with
  | None => vskip s
  | Some h =>
    vrespond (sign_response (side (services s)) (from env) MT_CONTRACT_DELIVER
                (ContractDeliver.encode {| ContractDeliver.contract := contract h |}) clock (rng 0%nat)) s
  end.

(** The host a request names by the hash of its contract, else the default. *)
Definition route_by_hash (vs : VerseSession) (hash : bytes) : HostId :=
  default (default_host vs) (a ← contract_hash_index vs !! hash; hosts vs !! a).

(** The declines, in the order of the checks. *)
Definition join_refusal (c : ContractObject) (req : JoinRequest.JoinRequestPayload) : option string :=
  if negb (bool_decide (JoinRequest.contract_hash req = Contract.hash c)) then Some "contract-version-mismatch"
  else if existsb (fun spec => negb (bool_decide (is_Some (JoinRequest.fields req !! spec_kind spec))))
            (required c) then Some "missing-required"
  else if existsb (Contract.is_forbidden c) (map fst (map_to_list (JoinRequest.fields req)))
  then Some "forbidden-field"
  else None.

Definition handle_join_request (clock : Clock) (rng : nat -> bytes) (vs : VerseSession) (env : Envelope)
    (s : VerseServices) : VerseHandled :=
  match JoinRequest.decode (payload env) with
  | Err _ => vskip s
  | Ok req =>
    let i := route_by_hash vs (JoinRequest.contract_hash req) in
    match heap (verses s) !! i with
    | None => vskip s
    | Some h =>
      let expected_hash := Contract.hash (contract h) in
      match join_refusal (contract h) req with
      | Some reason =>
        vrespond (sign_response (side (services s)) (from env) MT_JOIN_DECLINE
                    (JoinDecline.encode {| JoinDecline.contract_hash := expected_hash;
                                           JoinDecline.reason := reason |}) clock (rng 0%nat)) s
      | None =>
        match (now ← now_unix_seconds clock;
               p ← key_share h expected_hash (JoinRequest.side req) now (rng 0%nat); Ok (now, p)) with
        | Err e => ([], s, NErr (Core e))
        | Ok (now, accept) =>
          let s := with_verses
            (modify_host i (admit_member (JoinRequest.side req) (version (contract h))) (verses s)) s in
          vrespond (core (sign_with MT_JOIN_ACCEPT (verse_key h) (Some (from env)) (JoinAccept.encode accept)
                            now (rng 1%nat))) s
        end
      end
    end
  end.

(** The host a post is addressed to, else the default. *)
Definition route_by_to (vs : VerseSession) (env : Envelope) : HostId :=
  default (default_host vs) (a ← Envelope.to env; hosts vs !! a).

(** A current member that has consented to the current version. *)
Definition may_post (author : bytes) (h : VerseHost) : bool :=
  is_member author h && bool_decide (consented_versions h !! author = Some (version (contract h))).

Definition handle_verse_post (clock : Clock) (vs : VerseSession) (env : Envelope) (s : VerseServices)
    : VerseHandled :=
  match VersePost.decode (payload env) with
  | Err _ => vskip s
  | Ok post =>
    let i := route_by_to vs env in
    match heap (verses s) !! i with
    | None => vskip s
    | Some h =>
      if negb (may_post (from env) h) then vskip s
      else
        match ContentKey.open {| ContentKey.key_bytes := content_key h |} (VersePost.nonce post)
                (VersePost.ciphertext post) POST_AAD with
        | Err _ => vskip s
        | Ok plain =>
          let log := Posts.insert (verse_addr h) (from env) env (payload env) (unix_now clock) in
          let s := with_verses (modify_host i (fun h => with_posts (log (posts h)) h) (verses s)) s in
          let s := {| services := incr Metrics.VersePostReceived (services s); verses := verses s |} in
          (verse_fanout_post carries h env (from env) ++ [VPost env plain], s, NOk tt)
        end
    end
  end.

(** [if let Err(e) = rotate_and_push_verse_key(&host).await { warn!(..) }] *)
Definition rotate_host (clock : Clock) (rng : nat -> bytes) (fresh : bytes) (i : HostId) (s : VerseServices)
    : list VerseEffect * VerseServices :=
  match heap (verses s) !! i with
  | None => ([], s)
  | Some h =>
    let '(out, h, _) := rotate_and_push_verse_key clock rng fresh carries h in
    (out, with_verses (modify_host i (fun _ => h) (verses s)) s)
  end.

Definition handle_verse_leave (clock : Clock) (rng : nat -> bytes) (fresh : bytes) (vs : VerseSession)
    (env : Envelope) (s : VerseServices) : VerseHandled :=
  match VerseLeave.decode (payload env) with
  | Err _ => vskip s
  | Ok leave =>
    if negb (bool_decide (VerseLeave.side leave = from env)) then vskip s
    else
      match i ← hosts vs !! VerseLeave.verse leave; h ← heap (verses s) !! i; Some (i, h) with
      | None => vskip s
      | Some (i, h) =>
        let '(was_member, h) := drop_member (VerseLeave.side leave) h in
        if was_member then
          let h :=
            if decide (VerseLeave.disposition leave = Retract) then
              with_posts (snd (Posts.retract_by_author (verse_addr h) (VerseLeave.side leave) (posts h))) h
            else h in
          let '(out, s) :=
            rotate_host clock rng fresh i (with_verses (modify_host i (fun _ => h) (verses s)) s) in
          (out, s, NOk tt)
        else vskip (with_verses (modify_host i (fun _ => h) (verses s)) s)
      end
  end.

Definition handle_verse_remove (clock : Clock) (rng : nat -> bytes) (fresh : bytes) (vs : VerseSession)
    (env : Envelope) (s : VerseServices) : VerseHandled :=
  match VerseRemove.decode (payload env) with
  | Err _ => vskip s
  | Ok remove =>
    match i ← hosts vs !! VerseRemove.verse remove; h ← heap (verses s) !! i; Some (i, h) with
    | None => vskip s
    | Some (i, h) =>
      if negb (Contract.is_moderator (contract h) (VerseRemove.issued_by remove)) then vskip s
      else if negb (bool_decide (from env = VerseRemove.issued_by remove)) then vskip s
      else
        let '(was_member, h) := drop_member (VerseRemove.side remove) h in
        let s := with_verses (modify_host i (fun _ => h) (verses s)) s in
        if was_member then let '(out, s) := rotate_host clock rng fresh i s in (out, s, NOk tt)
        else vskip s
    end
  end.

(** On the default host, whatever verse the sender means. *)
Definition handle_verse_reconsent (vs : VerseSession) (env : Envelope) (s : VerseServices) : VerseHandled :=
  match VerseReconsent.decode_and_verify (payload env) (from env) with
  | Err _ => vskip s
  | Ok recon =>
    match heap (verses s) !! default_host vs with
    | None => vskip s
    | Some h =>
      if negb (is_member (from env) h) then vskip s
      else if negb (bool_decide (VerseReconsent.contract_hash recon = Contract.hash (contract h))) then vskip s
      else
        let h := with_members (members h) (<[from env := version (contract h)]> (consented_versions h)) h in
        vskip (with_verses (modify_host (default_host vs) (fun _ => h) (verses s)) s)
    end
  end.

(** The [match env.message_type] of [serve_verse]. *)
Definition handle_verse (clock : Clock) (rng : nat -> bytes) (fresh : bytes) (vs : VerseSession)
    (env : Envelope) (s : VerseServices) : VerseHandled :=
  let mt := message_type env in
  if mt =? MT_CONTRACT_FETCH then handle_contract_fetch clock rng vs env s
  else if mt =? MT_JOIN_REQUEST then handle_join_request clock rng vs env s
  else if mt =? MT_VERSE_POST then handle_verse_post clock vs env s
  else if mt =? MT_VERSE_LEAVE then handle_verse_leave clock rng fresh vs env s
  else if mt =? MT_VERSE_REMOVE then handle_verse_remove clock rng fresh vs env s
  else if mt =? MT_VERSE_RECONSENT then handle_verse_reconsent vs env s
  else vskip s.

(** One iteration of [serve_verse] on the bytes of the stream it accepts. *)
Definition serve_verse_step (vs : VerseSession) (clock : Clock) (rng : nat -> bytes) (fresh stream : bytes)
    (s : VerseServices) : VerseHandled :=
  match accept_one (link vs) stream with
  | NErr e => ([], s, NErr e)
  | NOk (env, _) =>
    let '(ok, sv) := admit_envelope clock env (services s) in
    let s := {| services := sv; verses := verses s |} in
    if ok then handle_verse clock rng fresh vs env s else vskip s
  end.

(** ** The node's user *)

Definition host_rotate_verse_key (clock : Clock) (rng : nat -> bytes) (fresh addr : bytes) (v : Verses)
    : list VerseEffect * Verses * nresult unit :=
  match hosted_verse addr v with
  | None => ([], v, NErr (NetInvariant "rotate: verse not hosted"))
  | Some (i, h) =>
    let '(out, h, r) := rotate_and_push_verse_key clock rng fresh carries h in
    (out, modify_host i (fun _ => h) v, r)
  end.

(** One [VERSE_AMEND] for each member with an open session; what fails to be
    sent is lost. *)
Definition amend_envelope (h : VerseHost) (c : ContractObject) (now : N) (rnd member : bytes) : result Envelope :=
  sign_with MT_VERSE_AMEND (verse_key h) (Some member)
    (VerseAmend.encode {| VerseAmend.contract := c |}) now rnd.

Fixpoint amend_pushes (h : VerseHost) (c : ContractObject) (now : N) (rng : nat -> bytes) (i : nat)
    (l : list (bytes * Conn)) : result (list (Conn * Envelope)) :=
  match l with
  | [] => Ok []
  | (member, conn) :: l =>
    env ← amend_envelope h c now (rng i) member;
    rest ← amend_pushes h c now rng (S i) l;
    Ok ((conn, env) :: rest)
  end.

Definition host_amend_verse (clock : Clock) (rng : nat -> bytes) (c : ContractObject) (v : Verses)
    : list VerseEffect * Verses * nresult unit :=
  match hosted_verse (verse c) v with
  | None => ([], v, NErr (NetInvariant "no hosted verse for that contract.verse"))
  | Some (i, h) =>
    let h := amend_contract c h in
    let v := modify_host i (fun _ => h) v in
    match (now ← now_unix_seconds clock; amend_pushes h c now rng 0 (member_sessions h)) with
    | Err e => ([], v, NErr (Core e))
    | Ok pushes =>
      (map (fun ce => VSend (fst ce) (snd ce)) (List.filter (fun ce => carries (fst ce) (snd ce)) pushes), v, NOk tt)
    end
  end.

End Server.

(** ** Clients *)

Record VerseMembership := {
  m_verse : bytes;
  m_contract_hash : bytes;
  membership_token : bytes;
  m_content_key : bytes
}.

Section Clients.
Context `{Crypto, Ecies}.

(** [fetch_contract] up to the wait for the answer, and from it. *)
Definition fetch_contract_request (session : Session) (side : SideKey) (clock : Clock) (rnd : bytes)
    : nresult bytes :=
  env ← sign_response side (peer_side session) MT_CONTRACT_FETCH
          (ContractFetch.encode {| ContractFetch.version := None |}) clock rnd;
  open_and_send session env.

Definition fetch_contract_finish (stream : bytes) : nresult ContractObject :=
  '(resp, _) ← recv_envelope stream;
  _ ← nensure (message_type resp =? MT_CONTRACT_DELIVER) (NetInvariant "expected ContractDeliver");
  deliver ← core (ContractDeliver.decode (payload resp));
  mret (ContractDeliver.contract deliver).

(** [request_join], the same way. *)
Definition request_join_send (session : Session) (side : SideKey) (c : ContractObject)
    (fields : gmap string string) (clock : Clock) (rnd : bytes) : nresult bytes :=
  req ← core (JoinRequest.sign side (Contract.hash c) fields);
  env ← sign_response side (peer_side session) MT_JOIN_REQUEST (JoinRequest.encode req) clock rnd;
  open_and_send session env.

(** The reasons the client knows. *)
Definition decline_error (reason : string) : net_error :=
  NetInvariant
    (if String.eqb reason "contract-version-mismatch" then "join declined: contract-version-mismatch"
     else if String.eqb reason "missing-required" then "join declined: missing-required"
     else if String.eqb reason "forbidden-field" then "join declined: forbidden-field"
     else if String.eqb reason "moderator-rejected" then "join declined: moderator-rejected"
     else "join declined").

Definition accept_share (side : SideKey) (c : ContractObject) (bs : bytes) : nresult VerseMembership :=
  accept ← core (JoinAccept.decode bs);
  token ← core (Token.from_wire_bytes (JoinAccept.membership_token accept));
  _ ← nensure (bool_decide (Token.verse token = verse c)) (NetInvariant "membership-token verse mismatch");
  _ ← nensure (bool_decide (Token.contract_hash token = Contract.hash c))
        (NetInvariant "membership-token contract mismatch");
  plain ← core (Payload.open (JoinAccept.sealed_content_key accept) side (verse c)
                  (JoinAccept.key_nonce accept) KEY_SHARE_AAD);
  _ ← nensure (blen plain =? 32) (NetInvariant "verse content key not 32 bytes");
  mret {| m_verse := verse c; m_contract_hash := Contract.hash c;
          membership_token := JoinAccept.membership_token accept; m_content_key := plain |}.

Definition request_join_finish (side : SideKey) (c : ContractObject) (stream : bytes) : nresult VerseMembership :=
  '(resp, _) ← recv_envelope stream;
  if message_type resp =? MT_JOIN_ACCEPT then accept_share side c (payload resp)
  else if message_type resp =? MT_JOIN_DECLINE then
    decline ← core (JoinDecline.decode (payload resp));
    NErr (decline_error (JoinDecline.reason decline))
  else NErr (NetInvariant "unexpected join response").

Definition leave_verse (session : Session) (side : SideKey) (m : VerseMembership)
    (disposition : DataDisposition) (reason : option string) (clock : Clock) (rnd : bytes) : nresult bytes :=
  p ← core (VerseLeave.sign side (m_verse m) (blake3 (membership_token m)) reason disposition);
  now ← core (now_unix_seconds clock);
  env ← core (sign_with MT_VERSE_LEAVE side (Some (m_verse m)) (VerseLeave.encode p) now rnd);
  open_and_send session env.

Definition reconsent_to_amendment (session : Session) (side : SideKey) (new_contract_hash : bytes)
    (clock : Clock) (rnd : bytes) : nresult bytes :=
  p ← core (VerseReconsent.sign side new_contract_hash);
  now ← core (now_unix_seconds clock);
  env ← core (sign_with MT_VERSE_RECONSENT side (Some (peer_side session)) (VerseReconsent.encode p) now rnd);
  open_and_send session env.

Definition decode_verse_amend (push : Envelope) (expected_verse_pubkey : bytes) : nresult ContractObject :=
  _ ← nensure (message_type push =? MT_VERSE_AMEND) (NetInvariant "expected VERSE_AMEND envelope");
  _ ← nensure (bool_decide (from push = expected_verse_pubkey)) (NetInvariant "VerseAmend not signed by the verse");
  p ← core (VerseAmend.decode (payload push));
  _ ← nensure (bool_decide (verse (VerseAmend.contract p) = expected_verse_pubkey))
        (NetInvariant "VerseAmend contract.verse mismatch");
  mret (VerseAmend.contract p).

Definition apply_verse_key_rotation (side : SideKey) (m : VerseMembership) (push : Envelope)
    : nresult VerseMembership :=
  _ ← nensure (bool_decide (from push = m_verse m)) (NetInvariant "rotation push: from != verse");
  accept ← core (JoinAccept.decode (payload push));
  plain ← core (Payload.open (JoinAccept.sealed_content_key accept) side (m_verse m)
                  (JoinAccept.key_nonce accept) KEY_SHARE_AAD);
  _ ← nensure (blen plain =? 32) (NetInvariant "verse content key not 32 bytes");
  mret {| m_verse := m_verse m; m_contract_hash := m_contract_hash m;
          membership_token := JoinAccept.membership_token accept; m_content_key := plain |}.

(** [post_nonce] is the nonce the content key drew. *)
Definition post_to_verse (session : Session) (side : SideKey) (m : VerseMembership) (body : bytes)
    (post_nonce : bytes) (clock : Clock) (rnd : bytes) : nresult bytes :=
  '(nonce, ct) ← core (ContentKey.seal {| ContentKey.key_bytes := m_content_key m |} post_nonce body POST_AAD);
  now ← core (now_unix_seconds clock);
  env ← core (sign_with MT_VERSE_POST side (Some (m_verse m))
                (VersePost.encode {| VersePost.nonce := nonce; VersePost.ciphertext := ct |}) now rnd);
  open_and_send session env.

End Clients.
