(* ===== verification/VerseFacts.v ===== *)
(** Hosting verses: facts about [VerseHost.v].

    An invariant over every run of sessions and of the node's user; what a
    post, a departure and a rotation do; and a member's client run against the
    server. *)

From S2P Require Import Prelude Utf8 Containers Cbor CborCodec CborValue TextMap Keys Envelope Payload Verse VerseMessages Session Storage Node NodeFacts VerseHost.

Open Scope N_scope.

(** ** Runs *)

Inductive VEvent :=
| EOpen (carries : Conn -> Envelope -> bool) (link : Session) (c : Conn)
| EStep (carries : Conn -> Envelope -> bool) (vs : VerseSession) (clock : Clock) (rng : nat -> bytes)
    (fresh stream : bytes)
| EClose (vs : VerseSession)
| EHost (key : SideKey) (c : ContractObject) (ck : bytes)
| EJoinLocal (addr side : bytes) (issued_at : N)
| ERotate (carries : Conn -> Envelope -> bool) (clock : Clock) (rng : nat -> bytes) (fresh addr : bytes)
| EAmend (carries : Conn -> Envelope -> bool) (clock : Clock) (rng : nat -> bytes) (c : ContractObject).

Section Runs.
Context `{HashIter, Crypto, Ecies}.

Definition vevent (s : VerseServices) (e : VEvent) : VerseServices :=
  match e with
  | EOpen carries link c => with_verses (open_session carries link c (verses s)).2 s
  | EStep carries vs clock rng fresh stream => (serve_verse_step carries vs clock rng fresh stream s).1.2
  | EClose vs => with_verses (close_session vs (verses s)) s
  | EHost key c ck => with_verses (host_verse (VerseHost.new key c ck) (verses s)) s
  | EJoinLocal addr side t =>
    match hosted_verse addr (verses s) with
    | Some (i, h) => with_verses (modify_host i (fun h => (add_local_member side t h).2) (verses s)) s
    | None => s
    end
  | ERotate carries clock rng fresh addr =>
    with_verses (host_rotate_verse_key carries clock rng fresh addr (verses s)).1.2 s
  | EAmend carries clock rng c => with_verses (host_amend_verse carries clock rng c (verses s)).1.2 s
  end.

(** ** The invariant *)

(** Members are the sides with a consent on record, and the log holds each
    author's own posts, under distinct nonces. *)
Record host_ok (h : VerseHost) : Prop := {
  ok_consents : dom (consented_versions h) = members h;
  ok_posts : map_Forall (fun _ by_author =>
    map_Forall (fun author l => Forall (fun p => from (Posts.envelope p) = author) l /\
                                NoDup (map (fun p => nonce (Posts.envelope p)) l)) by_author) (posts h)
}.

Definition verses_ok (s : VerseServices) : Prop := Forall host_ok (heap (verses s)).

Lemma ok_modify i f v :
  Forall host_ok (heap v) -> (forall h, heap v !! i = Some h -> host_ok h -> host_ok (f h)) ->
  Forall host_ok (heap (modify_host i f v)).
Proof using.
  intros Hv Hf. unfold modify_host. cbn [heap]. apply Forall_lookup. intros j h Hj.
  rewrite Forall_lookup in Hv. destruct (decide (i = j)) as [->|Hij].
  - rewrite list_lookup_alter_eq in Hj. apply fmap_Some in Hj as (h0 & E & ->). eauto.
  - rewrite list_lookup_alter_ne in Hj by done. eauto.
Qed.

Lemma ok_same h h' :
  host_ok h -> members h' = members h -> consented_versions h' = consented_versions h -> posts h' = posts h ->
  host_ok h'.
Proof using. intros [? ?] Hm Hc Hp. split; [by rewrite Hc, Hm|by rewrite Hp]. Qed.

Lemma ok_admit side version h : host_ok h -> host_ok (admit_member side version h).
Proof using. intros [Hc Hp]. split; [|exact Hp]. cbn. rewrite dom_insert_L. by rewrite Hc. Qed.

Lemma ok_drop side h : host_ok h -> host_ok (drop_member side h).2.
Proof using. intros [Hc Hp]. split; [|exact Hp]. cbn. rewrite dom_delete_L. by rewrite Hc. Qed.

Lemma ok_insert_post verse env sealed t h :
  host_ok h -> host_ok (with_posts (Posts.insert verse (from env) env sealed t (posts h)) h).
Proof using.
  intros [Hc Hp]. split; [exact Hc|]. cbn [posts with_posts]. unfold Posts.insert.
  apply map_Forall_insert_2; [|exact Hp].
  assert (map_Forall (fun author l => Forall (fun p => from (Posts.envelope p) = author) l /\
    NoDup (map (fun p => nonce (Posts.envelope p)) l)) (default ∅ (posts h !! verse))) as Hb.
  { destruct (posts h !! verse) as [m|] eqn:E; [exact (Hp _ _ E)|apply map_Forall_empty]. }
  apply map_Forall_insert_2; [|exact Hb].
  assert (Forall (fun p => from (Posts.envelope p) = from env) (default [] (default ∅ (posts h !! verse) !! from env)) /\
    NoDup (map (fun p => nonce (Posts.envelope p)) (default [] (default ∅ (posts h !! verse) !! from env)))) as [Hf Hn].
  { destruct (default ∅ (posts h !! verse) !! from env) as [l|] eqn:E; [exact (Hb _ _ E)|].
    split; [by constructor|constructor]. }
  destruct (existsb _ _) eqn:Ex; [done|]. split.
  - apply Forall_app. split; [done|]. by constructor.
  - rewrite map_app. apply NoDup_app. split; [done|]. split; [|apply NoDup_singleton].
    intros x Hx Hy. apply list_elem_of_singleton in Hy. subst x.
    apply list_elem_of_fmap in Hx as (p & Hn' & Hin).
    apply not_true_iff_false in Ex. apply Ex. apply existsb_exists. exists p.
    split; [by apply list_elem_of_In|]. by apply bool_decide_eq_true_2.
Qed.

Lemma ok_retract verse side h :
  host_ok h -> host_ok (with_posts (Posts.retract_by_author verse side (posts h)).2 h).
Proof using.
  intros [Hc Hp]. split; [exact Hc|]. unfold Posts.retract_by_author. cbn [posts with_posts].
  destruct (posts h !! verse) as [m|] eqn:E; [|exact Hp]. apply map_Forall_insert_2; [|exact Hp].
  apply map_Forall_delete. exact (Hp _ _ E).
Qed.

(** A rotation replaces the key and stashes what it could not send. *)
Definition same_but_key (h h' : VerseHost) : Prop :=
  verse_key h' = verse_key h /\ contract h' = contract h /\ members h' = members h /\
  consented_versions h' = consented_versions h /\ active_sessions h' = active_sessions h /\ posts h' = posts h.

Lemma deliver_pushes_same carries pushes out h :
  same_but_key h (foldl (deliver_push carries) (out, h) pushes).2 /\
  content_key (foldl (deliver_push carries) (out, h) pushes).2 = content_key h.
Proof using.
  revert out h. induction pushes as [|[[m c] e] pushes IH]; intros out h; [done|]. cbn [foldl deliver_push].
  destruct (carries c e); [apply IH|]. exact (IH out (stash_pending_key_push m e h)).
Qed.

Lemma rotate_same clock rng fresh carries h :
  same_but_key h (rotate_and_push_verse_key clock rng fresh carries h).1.2 /\
  content_key (rotate_and_push_verse_key clock rng fresh carries h).1.2 = fresh.
Proof using.
  unfold rotate_and_push_verse_key. destruct (mbind _ _) as [pushes|e]; [|done].
  destruct (foldl _ _ _) as [out h'] eqn:E. cbn [fst snd].
  pose proof (deliver_pushes_same carries pushes [] (rotate_content_key fresh h)) as K. by rewrite E in K.
Qed.

Lemma ok_rotate clock rng fresh carries h :
  host_ok h -> host_ok (rotate_and_push_verse_key clock rng fresh carries h).1.2.
Proof using.
  intros Hok. destruct (rotate_same clock rng fresh carries h) as [(_ & _ & ? & ? & _ & ?) _].
  by apply (ok_same h).
Qed.

Lemma ok_rotate_host carries clock rng fresh i s :
  verses_ok s -> verses_ok (rotate_host carries clock rng fresh i s).2.
Proof using.
  unfold rotate_host, verses_ok. intros Hv. destruct (heap (verses s) !! i) as [h|] eqn:E; [|done].
  pose proof (ok_rotate clock rng fresh carries h (proj1 (Forall_lookup _ _) Hv i h E)) as Hh.
  destruct (rotate_and_push_verse_key _ _ _ _ _) as [[out h'] r]. cbn [snd with_verses verses].
  by apply ok_modify.
Qed.

Lemma vrespond_state resp s : (vrespond resp s).1.2 = s.
Proof using. unfold vrespond. by destruct (mbind _ _). Qed.

Lemma handle_verse_ok carries clock rng fresh vs env s :
  verses_ok s -> verses_ok (handle_verse carries clock rng fresh vs env s).1.2.
Proof using.
  intros Hv. assert (forall i h, heap (verses s) !! i = Some h -> host_ok h) as Hh.
  { intros i h. exact (proj1 (Forall_lookup _ _) Hv i h). }
  unfold handle_verse. repeat case_match; try exact Hv.
  - unfold handle_contract_fetch. case_match; [by rewrite vrespond_state|done].
  - unfold handle_join_request. repeat case_match; rewrite ?vrespond_state; try exact Hv.
    apply ok_modify; [done|]. intros; by apply ok_admit.
  - unfold handle_verse_post. repeat case_match; try done. apply ok_modify; [done|].
    intros; by apply ok_insert_post.
  - unfold handle_verse_leave. destruct (VerseLeave.decode _) as [l|]; [|done].
    destruct (negb _); [done|].
    destruct (mbind _ _) as [[i h]|] eqn:E; [|done].
    apply bind_Some in E as (i' & _ & E). apply bind_Some in E as (h' & E & [= -> ->]).
    pose proof (ok_drop (VerseLeave.side l) h (Hh _ _ E)) as Hd.
    destruct (drop_member (VerseLeave.side l) h) as [was h1]. cbn [snd] in Hd.
    destruct was.
    + set (h2 := if decide _ then _ else h1).
      assert (host_ok h2) as Hh2 by (subst h2; destruct (decide _); [by apply ok_retract|done]).
      pose proof (ok_rotate_host carries clock rng fresh i (with_verses (modify_host i (fun _ => h2) (verses s)) s)) as K.
      destruct (rotate_host _ _ _ _ _ _) as [out s']. apply K. by apply ok_modify.
    + cbn [vskip fst snd]. by apply ok_modify.
  - unfold handle_verse_remove. destruct (VerseRemove.decode _) as [l|]; [|done].
    destruct (mbind _ _) as [[i h]|] eqn:E; [|done].
    apply bind_Some in E as (i' & _ & E). apply bind_Some in E as (h' & E & [= -> ->]).
    do 2 (destruct (negb _); [done|]).
    pose proof (ok_drop (VerseRemove.side l) h (Hh _ _ E)) as Hd.
    destruct (drop_member (VerseRemove.side l) h) as [was h1]. cbn [snd] in Hd.
    destruct was; [|cbn [vskip fst snd]; by apply ok_modify].
    pose proof (ok_rotate_host carries clock rng fresh i (with_verses (modify_host i (fun _ => h1) (verses s)) s)) as K.
    destruct (rotate_host _ _ _ _ _ _) as [out s']. apply K. by apply ok_modify.
  - unfold handle_verse_reconsent. destruct (VerseReconsent.decode_and_verify _ _) as [r|]; [|done].
    destruct (heap _ !! _) as [h|] eqn:E; [|done]. destruct (is_member _ h) eqn:Em; [|done]. cbn [negb].
    destruct (negb _); [done|]. cbn [vskip fst snd]. apply ok_modify; [done|]. intros h' _ _.
    destruct (Hh _ _ E) as [Hc Hp]. split; [|exact Hp]. cbn. rewrite dom_insert_L, Hc.
    unfold is_member in Em. apply bool_decide_eq_true in Em. set_solver.
Qed.

(** Opening and closing a session change no members and no posts. *)
Lemma ok_fold_modify (f : VerseHost -> VerseHost) ids v :
  (forall h, host_ok h -> host_ok (f h)) -> Forall host_ok (heap v) ->
  Forall host_ok (heap (foldl (fun v i => modify_host i f v) v ids)).
Proof using.
  intros Hf. revert v. induction ids as [|i ids IH]; intros v Hv; [done|]. cbn [foldl]. apply IH.
  apply ok_modify; [done|]. eauto.
Qed.

Lemma ok_redeliver carries c peer ids out v :
  Forall host_ok (heap v) -> Forall host_ok (heap (foldl (redeliver carries c peer) (out, v) ids).2).
Proof using.
  revert out v. induction ids as [|i ids IH]; intros out v Hv; [done|]. cbn [foldl]. unfold redeliver at 2.
  destruct (heap v !! i) as [h|] eqn:E; [|by apply IH]. unfold take_pending_key_push.
  pose proof (proj1 (Forall_lookup _ _) Hv i h E) as Hh.
  destruct (pending_key_pushes h !! peer); [case_match|]; apply IH; apply ok_modify; try done; intros; by apply (ok_same h).
Qed.

Lemma ok_open carries link c v : Forall host_ok (heap v) -> Forall host_ok (heap (open_session carries link c v).2).
Proof using.
  intros Hv. unfold open_session. destruct (mbind _ _) as [d|]; [|done].
  destruct (foldl (redeliver _ _ _) _ _) as [out v'] eqn:E. cbn [snd].
  match type of E with foldl _ (_, ?v0) _ = _ => assert (Forall host_ok (heap v0)) as Hv0 end.
  { apply ok_fold_modify; [|done]. intros h Hh. by apply (ok_same h). }
  eapply ok_redeliver in Hv0. by rewrite E in Hv0.
Qed.

Lemma vevent_ok e s : verses_ok s -> verses_ok (vevent s e).
Proof using.
  intros Hv. assert (forall i h, heap (verses s) !! i = Some h -> host_ok h) as Hh.
  { intros i h. exact (proj1 (Forall_lookup _ _) Hv i h). }
  destruct e as [carries link c|carries vs clock rng fresh stream|vs|key c ck|addr side t|carries clock rng fresh addr|carries clock rng c];
    cbn [vevent]; unfold verses_ok; cbn [verses with_verses].
  - by apply ok_open.
  - unfold serve_verse_step. destruct (accept_one _ _) as [[env rest]|]; [|done].
    destruct (admit_envelope clock env (services s)) as [ok sv]. destruct ok; [|done]. by apply handle_verse_ok.
  - apply ok_fold_modify; [|done]. intros h ?. by apply (ok_same h).
  - apply Forall_app. split; [done|]. constructor; [|done]. split; [apply dom_empty_L|apply map_Forall_empty].
  - destruct (hosted_verse _ _) as [[i h]|]; [|done]. apply ok_modify; [done|]. intros h' _ ?.
    cbn [add_local_member snd]. by apply ok_admit.
  - unfold host_rotate_verse_key, hosted_verse. destruct (mbind _ _) as [[i h]|] eqn:E; [|done].
    apply bind_Some in E as (i' & _ & E). apply bind_Some in E as (h' & E & [= -> ->]).
    pose proof (ok_rotate clock rng fresh carries h (Hh _ _ E)) as K.
    destruct (rotate_and_push_verse_key _ _ _ _ _) as [[out h2] r]. by apply ok_modify.
  - unfold host_amend_verse, hosted_verse. destruct (mbind _ _) as [[i h]|] eqn:E; [|done].
    apply bind_Some in E as (i' & _ & E). apply bind_Some in E as (h' & E & [= -> ->]).
    pose proof (Hh _ _ E). destruct (mbind _ _); (apply ok_modify; [done|]; intros; by apply (ok_same h)).
Qed.

End Runs.

(** ** Pushes of a rotation *)

Section Rotation.
Context `{HIL : HashIterLaws} `{!Crypto, !Ecies}.

(** The envelope of a push to [member]. *)
Definition is_push (rng : nat -> bytes) (h : VerseHost) (now : N) (member : bytes) (env : Envelope) : Prop :=
  exists p i j, key_share h (Contract.hash (contract h)) member now (rng i) = Ok p /\
    sign_with MT_JOIN_ACCEPT (verse_key h) (Some member) (JoinAccept.encode p) now (rng j) = Ok env.

Lemma rotation_pushes_spec h now rng l : forall i pushes,
  rotation_pushes h now rng i l = Ok pushes ->
  map fst pushes = l /\ Forall (fun x => is_push rng h now (fst (fst x)) (snd x)) pushes.
Proof using.
  induction l as [|[m c] l IH]; intros i pushes; cbn [rotation_pushes].
  - intros [= <-]. by split.
  - intros Hr. apply result_bind_ok in Hr as (p & Hp & Hr). apply result_bind_ok in Hr as (env & He & Hr).
    apply result_bind_ok in Hr as (rest & Hrest & [= <-]). apply IH in Hrest as [Hm Hf].
    cbn [map fst snd]. split; [by rewrite Hm|]. constructor; [|done]. by exists p, (2 * i)%nat, (2 * i + 1)%nat.
Qed.

(** What the delivery of the pushes sends and what it stashes. *)
Lemma deliver_pushes_spec carries pushes : forall out h,
  (foldl (deliver_push carries) (out, h) pushes).1
    = out ++ map (fun x => VSend (snd (fst x)) (snd x)) (List.filter (fun x => carries (snd (fst x)) (snd x)) pushes) /\
  (forall m, m ∉ map (fun x => fst (fst x)) pushes ->
     pending_key_pushes (foldl (deliver_push carries) (out, h) pushes).2 !! m = pending_key_pushes h !! m) /\
  (NoDup (map (fun x => fst (fst x)) pushes) ->
   forall m c e, (m, c, e) ∈ pushes -> carries c e = false ->
     pending_key_pushes (foldl (deliver_push carries) (out, h) pushes).2 !! m = Some e).
Proof using.
  clear H HIL. induction pushes as [|[[m0 c0] e0] pushes IH]; intros out h; cbn [foldl map List.filter fst snd].
  - rewrite app_nil_r. split; [done|]. split; [done|]. by intros _ ? ? ? ?%not_elem_of_nil.
  - cbn [deliver_push]. destruct (carries c0 e0) eqn:Ec.
    + destruct (IH (out ++ [VSend c0 e0]) h) as (I1 & I2 & I3). split_and!.
      * rewrite I1, <-app_assoc. done.
      * intros m Hm. apply I2. set_solver.
      * intros Hnd m c e Hin Hc. apply NoDup_cons in Hnd as [_ Hnd].
        apply elem_of_cons in Hin as [[= -> -> ->]|Hin]; [congruence|]. by eapply I3.
    + destruct (IH out (stash_pending_key_push m0 e0 h)) as (I1 & I2 & I3). split_and!.
      * exact I1.
      * intros m Hm. rewrite I2 by set_solver. cbn. apply lookup_insert_ne. set_solver.
      * intros Hnd m c e Hin Hc. apply NoDup_cons in Hnd as [Hn Hnd].
        apply elem_of_cons in Hin as [[= -> -> ->]|Hin]; [|by eapply I3].
        rewrite I2 by done. cbn. by rewrite lookup_insert_eq.
Qed.

Lemma member_sessions_spec h m c :
  (m, c) ∈ member_sessions h <-> active_sessions h !! m = Some c /\ m ∈ members h.
Proof using HIL.
  unfold member_sessions. rewrite list_elem_of_In, filter_In, <-list_elem_of_In, elem_of_hiter.
  unfold is_member. cbn [fst]. by rewrite bool_decide_eq_true.
Qed.

Lemma member_sessions_NoDup h : NoDup (map fst (member_sessions h)).
Proof using HIL.
  unfold member_sessions. pose proof (NoDup_fst_map_to_list (active_sessions h)) as Hn.
  assert (NoDup (map fst (hiter (active_sessions h)))) as Hi.
  { change (NoDup (fst <$> hiter (active_sessions h))). by rewrite (hiter_perm (active_sessions h)). }
  clear Hn. induction (hiter (active_sessions h)) as [|x l IH]; [constructor|]. cbn [List.filter map] in *.
  apply NoDup_cons in Hi as [Hx Hl]. destruct (is_member _ h); [|by apply IH]. cbn [map]. apply NoDup_cons.
  split; [|by apply IH]. intros Hin. apply Hx. apply list_elem_of_fmap in Hin as (y & -> & Hy).
  apply list_elem_of_In, filter_In in Hy as [Hy _]. apply list_elem_of_fmap. exists y.
  split; [done|]. by apply list_elem_of_In.
Qed.

(** A rotation: every member with a session is sent the new key or has it
    stashed; nobody else is sent anything. *)
Lemma rotate_spec now rng fresh carries h :
  let '(out, h', r) := rotate_and_push_verse_key (Some now) rng fresh carries h in
  (forall x, x ∈ out -> exists m c e, x = VSend c e /\ active_sessions h !! m = Some c /\ m ∈ members h /\
     is_push rng (with_content_key fresh h) now m e) /\
  (forall m, ~ (m ∈ members h /\ is_Some (active_sessions h !! m)) ->
     pending_key_pushes h' !! m = pending_key_pushes h !! m) /\
  (r = NOk tt -> forall m c, active_sessions h !! m = Some c -> m ∈ members h ->
     exists e, is_push rng (with_content_key fresh h) now m e /\
       if carries c e then VSend c e ∈ out else pending_key_pushes h' !! m = Some e).
Proof using HIL.
  unfold rotate_and_push_verse_key. cbn [now_unix_seconds ok_or mbind result_bind].
  destruct (rotation_pushes _ _ _ _ _) as [pushes|e] eqn:E.
  2:{ split; [by intros ? ?%not_elem_of_nil|]. split; [done|]. discriminate. }
  apply rotation_pushes_spec in E as [Hm Hf].
  pose proof (deliver_pushes_spec carries pushes [] (rotate_content_key fresh h)) as (D1 & D2 & D3).
  destruct (foldl _ _ _) as [out h'] eqn:Ef. cbn [fst snd] in *.
  assert (map (fun x => fst (fst x)) pushes = map fst (member_sessions h)) as Hmm.
  { rewrite <-map_map with (g := fst) (f := fst). by rewrite Hm. }
  split; [|split].
  - intros x Hx. rewrite D1 in Hx. cbn [app] in Hx. apply list_elem_of_fmap in Hx as ([[m c] e] & -> & Hin).
    apply list_elem_of_In, filter_In in Hin as [Hin _]. apply list_elem_of_In in Hin.
    exists m, c, e. split; [done|].
    assert ((m, c) ∈ member_sessions h) as K.
    { change (member_sessions h) with (member_sessions (rotate_content_key fresh h)). rewrite <-Hm.
      apply list_elem_of_fmap. by exists (m, c, e). }
    apply member_sessions_spec in K as [? ?]. split; [done|]. split; [done|].
    exact (proj1 (Forall_forall _ _) Hf _ Hin).
  - intros m Hn. apply D2. rewrite Hmm. intros Hin. apply Hn.
    apply list_elem_of_fmap in Hin as ([m' c] & -> & Hin). apply member_sessions_spec in Hin as [? ?].
    split; [done|by eexists].
  - intros _ m c Hc Hmem.
    assert ((m, c) ∈ map fst pushes) as Hin.
    { rewrite Hm. by apply member_sessions_spec. }
    apply list_elem_of_fmap in Hin as ([[m' c'] e] & [= <- <-] & Hin). exists e.
    split; [exact (proj1 (Forall_forall _ _) Hf _ Hin)|]. destruct (carries c e) eqn:Ec.
    + rewrite D1. apply list_elem_of_fmap. exists (m, c, e). split; [done|].
      apply list_elem_of_In, filter_In. split; [by apply list_elem_of_In|done].
    + apply (D3 ltac:(rewrite Hmm; apply member_sessions_NoDup) m c e Hin Ec).
Qed.

End Rotation.

(** ** A member opens what it is sent *)

Lemma blen_share_le p :
  blen (JoinAccept.membership_token p) <= blen (JoinAccept.encode p) /\
  blen (JoinAccept.sealed_content_key p) <= blen (JoinAccept.encode p).
Proof.
  unfold JoinAccept.encode. split; (etrans; [apply blen_bytestr_le|]).
  - apply (blen_value_le _ (entry "membership_token" (bytestr (JoinAccept.membership_token p)))). set_solver.
  - apply (blen_value_le _ (entry "sealed_content_key" (bytestr (JoinAccept.sealed_content_key p)))). set_solver.
Qed.

Section Opening.
Context `{CL : CryptoLaws, EC : !Ecies, EL : !EciesLaws}.

Lemma join_accept_back p :
  JoinAccept.wf p -> blen (JoinAccept.encode p) < u64_size -> JoinAccept.decode (JoinAccept.encode p) = Ok p.
Proof using.
  intros Hwf F. apply (decode_prefix _ _ _ (JoinAccept.encode p) p F). split; [done|].
  exists []. by rewrite app_nil_r.
Qed.

Lemma share_opens h hash key now kn p :
  key_share h hash (public_bytes key) now kn = Ok p -> blen kn = NONCE_LEN ->
  blen (JoinAccept.encode p) < u64_size ->
  JoinAccept.decode (JoinAccept.encode p) = Ok p /\
  Payload.open (JoinAccept.sealed_content_key p) key (verse_addr h) (JoinAccept.key_nonce p) KEY_SHARE_AAD
  = Ok (content_key h).
Proof using CL EL.
  intros Hp Hk F. unfold key_share in Hp. apply result_bind_ok in Hp as (t & _ & Hp).
  apply result_bind_ok in Hp as (sealed & Hs & [= <-]). split.
  - apply join_accept_back; [|done]. unfold JoinAccept.wf, wf_bytes. cbn [JoinAccept.key_nonce JoinAccept.membership_token JoinAccept.sealed_content_key].
    pose proof (blen_share_le {| JoinAccept.membership_token := Token.to_wire_bytes t; JoinAccept.key_nonce := kn;
      JoinAccept.sealed_content_key := sealed |}) as [? ?].
    cbn [JoinAccept.membership_token JoinAccept.sealed_content_key] in *. split_and!; [done|lia|lia].
  - by apply opens_sealed.
Qed.

Lemma push_opens rng h now key env m :
  is_push rng h now (public_bytes key) env -> (forall n, blen (rng n) = NONCE_LEN) ->
  m_verse m = verse_addr h -> blen (content_key h) = 32 -> blen (payload env) < u64_size ->
  exists m', apply_verse_key_rotation key m env = NOk m' /\ m_content_key m' = content_key h /\ m_verse m' = m_verse m.
Proof using CL EL.
  intros (p & i & j & Hp & He) Hr Hv Hk F. injection He as <-. cbn [payload from] in *.
  destruct (share_opens _ _ _ _ _ _ Hp (Hr i) F) as [Hd Ho].
  unfold apply_verse_key_rotation. cbn [from payload]. rewrite Hv, bool_decide_eq_true_2 by done.
  cbn [nensure mbind nresult_bind]. rewrite Hd. cbn [core mbind nresult_bind]. rewrite Ho. cbn [core mbind nresult_bind].
  rewrite (proj2 (N.eqb_eq _ _)) by done. cbn [nensure mbind nresult_bind mret nresult_ret].
  eexists. split; [reflexivity|]. by split.
Qed.

End Opening.

(** ** Posts come from the handler of posts only *)

Section PostEffects.
Context `{HashIter, Crypto, Ecies}.

Lemma vrespond_effects resp s x : x ∈ (vrespond resp s).1.1 -> exists bs, x = VWrite bs.
Proof using.
  unfold vrespond. destruct (mbind _ _); cbn [fst]; [|by intros ?%not_elem_of_nil].
  intros ?%list_elem_of_singleton. eauto.
Qed.

Lemma deliver_push_effects carries pushes out h x :
  (forall y, y ∈ out -> exists c e, y = VSend c e) ->
  x ∈ (foldl (deliver_push carries) (out, h) pushes).1 -> exists c e, x = VSend c e.
Proof using.
  revert out h. induction pushes as [|[[m c] e] pushes IH]; intros out h Ho; [by apply Ho|].
  cbn [foldl deliver_push]. destruct (carries c e); apply IH; [|done].
  intros y [Hy|Hy%list_elem_of_singleton]%elem_of_app; [by apply Ho|eauto].
Qed.

Lemma rotate_host_effects carries clock rng fresh i s x :
  x ∈ (rotate_host carries clock rng fresh i s).1 -> exists c e, x = VSend c e.
Proof using.
  unfold rotate_host, rotate_and_push_verse_key. destruct (heap _ !! i) as [h|]; [|by intros ?%not_elem_of_nil].
  destruct (mbind _ _) as [pushes|]; [|by intros ?%not_elem_of_nil].
  destruct (foldl _ _ _) as [out h'] eqn:E. cbn [fst]. intros Hx.
  eapply (deliver_push_effects carries pushes [] (rotate_content_key fresh h)); [by intros ? ?%not_elem_of_nil|].
  by rewrite E.
Qed.

Ltac not_post :=
  first [ by intros ?%not_elem_of_nil
        | intros [? [=]]%vrespond_effects
        | intros (? & ? & [=])%rotate_host_effects ].

Lemma handle_verse_posts carries clock rng fresh vs env s e pt :
  VPost e pt ∈ (handle_verse carries clock rng fresh vs env s).1.1 <->
  e = env /\ message_type env = MT_VERSE_POST /\
  exists post h, VersePost.decode (payload env) = Ok post /\
    heap (verses s) !! route_by_to vs env = Some h /\ may_post (from env) h = true /\
    ContentKey.open {| ContentKey.key_bytes := content_key h |} (VersePost.nonce post)
      (VersePost.ciphertext post) POST_AAD = Ok pt.
Proof using.
  unfold handle_verse. destruct (N.eqb_spec (message_type env) MT_VERSE_POST) as [Ht|Ht].
  - rewrite Ht. cbn [N.eqb Pos.eqb MT_VERSE_POST MT_CONTRACT_FETCH MT_JOIN_REQUEST].
    unfold handle_verse_post. destruct (VersePost.decode (payload env)) as [post|].
    2:{ split; [by intros ?%not_elem_of_nil|]. by intros (_ & _ & ? & ? & [=] & _). }
    destruct (heap (verses s) !! route_by_to vs env) as [h|].
    2:{ split; [by intros ?%not_elem_of_nil|]. by intros (_ & _ & ? & ? & _ & [=] & _). }
    destruct (may_post (from env) h) eqn:Em; cbn [negb].
    2:{ split; [by intros ?%not_elem_of_nil|]. intros (_ & _ & ? & ? & _ & [= <-] & E & _). congruence. }
    destruct (ContentKey.open _ _ _ _) as [plain|] eqn:Eo.
    2:{ split; [by intros ?%not_elem_of_nil|]. intros (_ & _ & ? & ? & [= <-] & [= <-] & _ & E). congruence. }
    cbn [fst]. rewrite elem_of_app, list_elem_of_singleton. split.
    + intros [Hf|[= -> ->]].
      * unfold verse_fanout_post in Hf. by apply list_elem_of_fmap in Hf as (x & [=] & _).
      * split; [done|]. split; [done|]. by exists post, h.
    + intros (-> & _ & post' & h' & [= <-] & [= <-] & _ & E). right. congruence.
  - split; [|by intros (_ & ? & _)].
    unfold handle_contract_fetch, handle_join_request, handle_verse_leave, handle_verse_remove,
      handle_verse_reconsent.
    repeat (case_match; try (not_post; fail)).
    all: match goal with E : rotate_host _ _ _ _ _ _ = (?out, _) |- _ ∈ _ -> _ =>
           intros Hx; cbn [fst] in Hx;
           match type of E with ?t = _ => replace out with (fst t) in Hx by (by rewrite E) end;
           by apply rotate_host_effects in Hx as (? & ? & [=]) end.
Qed.

End PostEffects.

(** ** Departures *)

Section Departure.
Context `{HIL : HashIterLaws} `{!Crypto, !Ecies}.

Lemma heap_modify i f v j :
  heap (modify_host i f v) !! j = if decide (i = j) then f <$> heap v !! j else heap v !! j.
Proof using.
  unfold modify_host. cbn [heap]. destruct (decide (i = j)) as [->|Hij].
  - apply list_lookup_alter_eq.
  - by apply list_lookup_alter_ne.
Qed.

(** The side [m] is out of the verse: the key is another one, and what was
    sent went to the remaining members. *)
Definition cut_off (m : bytes) (fresh : bytes) (out : list VerseEffect) (h' : VerseHost) : Prop :=
  content_key h' = fresh /\ may_post m h' = false /\ active_sessions h' !! m = None /\
  forall x, x ∈ out -> exists m' c e, x = VSend c e /\ m' <> m /\ m' ∈ members h' /\
    active_sessions h' !! m' = Some c /\ Envelope.to e = Some m'.

Lemma rotated_cut_off carries clock rng fresh i s hd out s2 h' m :
  rotate_host carries clock rng fresh i (with_verses (modify_host i (fun _ => hd) (verses s)) s) = (out, s2) ->
  is_Some (heap (verses s) !! i) -> heap (verses s2) !! i = Some h' ->
  m ∉ members hd -> active_sessions hd !! m = None -> cut_off m fresh out h' /\ members h' = members hd.
Proof using HIL.
  intros E [h Hh] Hh' Hm Ha. unfold rotate_host in E. cbn [with_verses verses services] in E.
  rewrite heap_modify, decide_True, Hh in E by done. cbn [fmap option_fmap option_map] in E.
  pose proof (rotate_same clock rng fresh carries hd) as [(_ & Hct & Hmem & Hcons & Hact & _) Hk].
  assert (forall x, x ∈ (rotate_and_push_verse_key clock rng fresh carries hd).1.1 ->
    exists m c e, x = VSend c e /\ active_sessions hd !! m = Some c /\ m ∈ members hd /\ Envelope.to e = Some m) as Hout.
  { destruct clock as [now|]; [|by intros ? ?%not_elem_of_nil].
    pose proof (rotate_spec now rng fresh carries hd) as S.
    destruct (rotate_and_push_verse_key _ _ _ _ _) as [[out' h2] r]. destruct S as (S1 & _ & _).
    intros x Hx. destruct (S1 x Hx) as (m' & c & e & -> & Hc & Hm' & p & i' & j & _ & He).
    exists m', c, e. split_and!; try done. by injection He as <-. }
  destruct (rotate_and_push_verse_key _ _ _ _ _) as [[out' h2] r]. injection E as -> <-. cbn [fst snd] in *.
  cbn [with_verses verses services] in Hh'. rewrite heap_modify, decide_True in Hh' by done.
  rewrite heap_modify, decide_True, Hh in Hh' by done. injection Hh' as <-.
  split; [|done]. split; [done|]. split; [|split; [by rewrite Hact|]].
  - unfold may_post, is_member. by rewrite Hmem, bool_decide_eq_false_2.
  - intros x Hx. destruct (Hout x Hx) as (m' & c & e & -> & Hc & Hm' & Ht).
    exists m', c, e. rewrite Hmem, Hact. split_and!; try done. by intros ->.
Qed.

(** Of two hosts at the same step, the one that changes is the one departed. *)
Lemma departed_host carries clock rng fresh j i s hd out s2 h hj h' side m :
  rotate_host carries clock rng fresh j (with_verses (modify_host j (fun _ => hd) (verses s)) s) = (out, s2) ->
  heap (verses s) !! i = Some h -> heap (verses s) !! j = Some hj -> heap (verses s2) !! i = Some h' ->
  members hd = members hj ∖ {[ side ]} -> active_sessions hd = delete side (active_sessions hj) ->
  m ∈ members h -> m ∉ members h' -> i = j /\ side = m /\ cut_off m fresh out h'.
Proof using HIL.
  intros E Hh Hj Hh' Hmd Had Hm Hout. destruct (decide (i = j)) as [->|Hij].
  - simplify_eq. assert (side = m) as ->.
    { destruct (decide (side = m)); [done|]. exfalso.
      assert (m ∈ members h').
      { unfold rotate_host in E. cbn [with_verses verses services] in E.
        rewrite heap_modify, decide_True, Hh in E by done. cbn [fmap option_fmap option_map] in E.
        pose proof (rotate_same clock rng fresh carries hd) as [(_ & _ & Hmem & _) _].
        destruct (rotate_and_push_verse_key _ _ _ _ _) as [[out' h2] r]. injection E as _ <-. cbn [fst snd] in *.
        cbn [with_verses verses services] in Hh'. rewrite !heap_modify, !decide_True, Hh in Hh' by done.
        injection Hh' as <-. rewrite Hmem, Hmd. set_solver. }
      done. }
    split; [done|]. split; [done|]. eapply rotated_cut_off; [exact E|by eexists|done|rewrite Hmd; set_solver|].
    rewrite Had. apply lookup_delete_eq.
  - exfalso. unfold rotate_host in E. cbn [with_verses verses services] in E.
    rewrite heap_modify, decide_True, Hj in E by done. cbn [fmap option_fmap option_map] in E.
    destruct (rotate_and_push_verse_key _ _ _ _ _) as [[out' h2] r]. injection E as _ <-.
    cbn [with_verses verses services] in Hh'. rewrite !heap_modify, !decide_False, Hh in Hh' by congruence.
    by injection Hh' as <-.
Qed.

(** A join, a post and a re-consent take nobody out. *)
Lemma members_kept carries clock rng fresh vs env s i h h' :
  message_type env <> MT_VERSE_LEAVE -> message_type env <> MT_VERSE_REMOVE ->
  heap (verses s) !! i = Some h ->
  heap (verses (handle_verse carries clock rng fresh vs env s).1.2) !! i = Some h' -> members h ⊆ members h'.
Proof using.
  clear HIL. intros Hl Hr Hh. unfold handle_verse. rewrite (proj2 (N.eqb_neq _ _) Hl), (proj2 (N.eqb_neq _ _) Hr).
  assert (forall j f v, heap v = heap (verses s) -> (forall g, members g ⊆ members (f g)) ->
    heap (modify_host j f v) !! i = Some h' -> members h ⊆ members h') as Hmod.
  { intros j f v Hv Hf. rewrite heap_modify, Hv, Hh. case_decide; [intros [= <-]; apply Hf|by intros [= <-]]. }
  assert (heap (verses s) !! i = Some h' -> members h ⊆ members h') as Hsame by (rewrite Hh; by intros [= <-]).
  repeat case_match; try exact Hsame.
  - unfold handle_contract_fetch. case_match; [rewrite vrespond_state|]; exact Hsame.
  - unfold handle_join_request. repeat case_match; rewrite ?vrespond_state; try exact Hsame.
    apply Hmod; [done|]. intros g. cbn. set_solver.
  - unfold handle_verse_post. repeat case_match; try exact Hsame. by apply Hmod.
  - unfold handle_verse_reconsent. repeat case_match; try exact Hsame.
    cbn [vskip fst snd with_verses verses]. intros E. rewrite heap_modify, Hh in E. case_decide; [|by injection E as <-].
    injection E as <-. cbn [members with_members]. subst i. by simplify_eq.
Qed.

End Departure.

(** ** Properties *)

(** In every state that sessions and the user of the node can bring about,
    the members of a verse are exactly the sides with a consent on record, and
    its log holds under each author envelopes of that author only, no nonce
    twice. *)
Theorem members_have_consents `{HashIter, Crypto, !Ecies} es s i h :
  verses_ok s -> heap (verses (foldl vevent s es)) !! i = Some h -> host_ok h.
Proof.
  intros Hv Hi. assert (verses_ok (foldl vevent s es)) as K; [|exact (proj1 (Forall_lookup _ _) K i h Hi)].
  clear Hi. revert s Hv. induction es as [|e es IH]; intros s Hv; [done|]. cbn [foldl]. apply IH. by apply vevent_ok.
Qed.

(** C22: rotating the content key.  Every member with an open session is sent an
    envelope it opens to the new key, or, where its connection fails, has that
    envelope stashed; nobody who is not a member is sent anything; and for a
    member without an open session nothing is sent or stashed: it is left
    without the key. *)
Theorem rotation_reaches_members `{HashIterLaws, CryptoLaws, !Ecies, !EciesLaws} now rng fresh carries h
    (R : forall n, blen (rng n) = NONCE_LEN) (K : blen fresh = 32) :
  let '(out, h', r) := rotate_and_push_verse_key (Some now) rng fresh carries h in
  content_key h' = fresh /\
  (forall x, x ∈ out -> exists m c e, x = VSend c e /\ m ∈ members h /\ active_sessions h !! m = Some c /\
     Envelope.to e = Some m) /\
  (forall m, m ∈ members h -> active_sessions h !! m = None ->
     pending_key_pushes h' !! m = pending_key_pushes h !! m) /\
  (r = NOk tt -> forall m c, m ∈ members h -> active_sessions h !! m = Some c ->
     exists e, (if carries c e then VSend c e ∈ out else pending_key_pushes h' !! m = Some e) /\
       forall key ms, public_bytes key = m -> m_verse ms = verse_addr h -> blen (payload e) < u64_size ->
         exists ms', apply_verse_key_rotation key ms e = NOk ms' /\ m_content_key ms' = fresh).
Proof.
  pose proof (rotate_spec now rng fresh carries h) as S.
  pose proof (rotate_same (Some now) rng fresh carries h) as [_ Hk].
  destruct (rotate_and_push_verse_key _ _ _ _ _) as [[out h'] r]. destruct S as (S1 & S2 & S3).
  split; [exact Hk|]. split; [|split].
  - intros x Hx. destruct (S1 x Hx) as (m & c & e & -> & Hc & Hm & p & i & j & _ & He).
    exists m, c, e. split_and!; try done. by injection He as <-.
  - intros m Hm Hn. apply S2. rewrite Hn. by intros [_ [? [=]]].
  - intros Hr m c Hm Hc. destruct (S3 Hr m c Hc Hm) as (e & He & Hd). exists e. split; [done|].
    intros key ms <- Hv F. destruct (push_opens _ _ _ _ _ ms He R Hv K F) as (ms' & ? & ? & _).
    by exists ms'.
Qed.

Lemma may_post_iff author h :
  may_post author h = true <->
  author ∈ members h /\ consented_versions h !! author = Some (version (contract h)).
Proof. unfold may_post, is_member. by rewrite andb_true_iff, !bool_decide_eq_true. Qed.

(** C13: a post reaches the application exactly when its envelope comes off the
    stream with a valid signature and passes the gates, and its author is a
    member of the verse it is routed to, has consented to the current version
    of the contract, and sealed it with the current content key. *)
Theorem post_surfaced_exactly `{HashIter, Crypto, !Ecies} carries vs clock rng fresh stream s e pt :
  VPost e pt ∈ (serve_verse_step carries vs clock rng fresh stream s).1.1 <->
  (exists rest, accept_one (link vs) stream = NOk (e, rest)) /\
  (admit_envelope clock e (services s)).1 = true /\ message_type e = MT_VERSE_POST /\
  exists post h, VersePost.decode (payload e) = Ok post /\
    heap (verses s) !! route_by_to vs e = Some h /\ from e ∈ members h /\
    consented_versions h !! from e = Some (version (contract h)) /\
    ContentKey.open {| ContentKey.key_bytes := content_key h |} (VersePost.nonce post)
      (VersePost.ciphertext post) POST_AAD = Ok pt.
Proof.
  unfold serve_verse_step. destruct (accept_one (link vs) stream) as [[env rest]|err].
  2:{ split; [by intros ?%not_elem_of_nil|]. by intros ([r [=]] & _). }
  destruct (admit_envelope clock env (services s)) as [ok sv] eqn:Ea. destruct ok.
  2:{ split; [by intros ?%not_elem_of_nil|]. intros ([r [= <- <-]] & Ha & _). by rewrite Ea in Ha. }
  set (s1 := {| services := sv; verses := verses s |}).
  transitivity (e = env /\ VPost e pt ∈ (handle_verse carries clock rng fresh vs env s1).1.1).
  { split; [|by intros [_ ?]]. intros Hin. split; [|done]. revert Hin. rewrite handle_verse_posts. tauto. }
  rewrite handle_verse_posts. cbn [verses s1]. split.
  - intros (-> & _ & Ht & post & h & ? & ? & [? ?]%may_post_iff & ?). split; [by eexists|].
    rewrite Ea. split_and!; eauto 10.
  - intros ([r [= <- <-]] & _ & Ht & post & h & ? & ? & ? & ? & ?). split_and!; try done.
    exists post, h. rewrite may_post_iff. auto.
Qed.


(** ** Clients against the server *)

Section Clients.
Context `{CL : CryptoLaws, EC : !Ecies, EL : !EciesLaws}.

Lemma join_request_back key hash fields req :
  JoinRequest.sign key hash fields = Ok req -> blen hash = 32 -> wf_text_map wf_text fields ->
  blen (JoinRequest.encode req) < u64_size ->
  JoinRequest.decode (JoinRequest.encode req) = Ok req.
Proof using CL.
  intros [= <-] Hh Hf F. unfold JoinRequest.decode.
  refine (proj2 (signed_prefix_ok _ JoinRequest.wf JoinRequest.encode
    JoinRequest.side JoinRequest.unsigned_bytes JoinRequest.signature _ _ _) _).
  { intros x. exact (decode_prefix _ _ _ _ x F). }
  split; [|split; [apply signed_by_sign|exists []; by rewrite app_nil_r]].
  unfold JoinRequest.wf. cbn. split_and!; try done; [apply ed_public_length|apply ed_sign_length].
Qed.

Lemma token_back key hash member now t :
  Token.sign key hash member now = Ok t -> blen hash = 32 -> blen member = PUBLIC_KEY_LEN -> now < u64_size ->
  blen (Token.to_wire_bytes t) < u64_size ->
  Token.from_wire_bytes (Token.to_wire_bytes t) = Ok t.
Proof using CL.
  intros [= <-] Hh Hm Hn F. unfold Token.from_wire_bytes.
  refine (proj2 (signed_prefix_ok _ Token.wf Token.to_wire_bytes
    Token.verse Token.unsigned_bytes Token.signature _ _ _) _).
  { intros x. exact (decode_prefix _ _ _ _ x F). }
  split; [|split; [apply signed_by_sign|exists []; by rewrite app_nil_r]].
  unfold Token.wf. cbn. split_and!; try done; [apply ed_public_length|apply ed_sign_length].
Qed.

(** A share from a host opens to a membership with the host's key. *)
Lemma share_accepted h key now kn p c :
  key_share h (Contract.hash c) (public_bytes key) now kn = Ok p -> blen kn = NONCE_LEN -> now < u64_size ->
  blen (JoinAccept.encode p) < u64_size -> verse c = verse_addr h -> blen (content_key h) = 32 ->
  exists ms, accept_share key c (JoinAccept.encode p) = NOk ms /\
    m_content_key ms = content_key h /\ m_verse ms = verse_addr h.
Proof using CL EL.
  intros Hp Hk Hn F Hv Hc. destruct (share_opens _ _ _ _ _ _ Hp Hk F) as [Hd Ho].
  pose proof (blen_share_le p) as [Ft _].
  unfold key_share in Hp. apply result_bind_ok in Hp as (t & Ht & Hp).
  apply result_bind_ok in Hp as (sealed & Hs & [= <-]). cbn [JoinAccept.membership_token] in Ft.
  unfold accept_share. rewrite Hd. cbn [core mbind nresult_bind JoinAccept.membership_token JoinAccept.key_nonce
    JoinAccept.sealed_content_key] in *.
  rewrite (token_back _ _ _ _ _ Ht); [|apply blake3_length|apply ed_public_length|done|lia].
  injection Ht as <-. cbn [core mbind nresult_bind Token.verse Token.contract_hash].
  rewrite (bool_decide_eq_true_2 (_ = verse c)) by (by rewrite Hv).
  rewrite (bool_decide_eq_true_2 (Contract.hash c = _)) by done. cbn [nensure mbind nresult_bind].
  rewrite Hv, Ho. cbn [core mbind nresult_bind]. rewrite (proj2 (N.eqb_eq _ _)) by done.
  cbn [nensure mbind nresult_bind mret nresult_ret]. eexists. split; [reflexivity|]. by split.
Qed.

End Clients.

(** C9: joining.  The request a client makes under the current contract of a
    hosted verse, with every required field and none that is forbidden, is
    accepted: the side is a member that may post, and the client reads out of
    the answer a membership with the content key of the verse. *)
Theorem join_gives_key `{HashIter, CryptoLaws, !Ecies, !EciesLaws}
    carries sc vs key c fields t1 n1 bs t2 rng fresh s h req p
    (Ic : intent sc = Intent.Verse) (Is : intent (link vs) = Intent.Verse)
    (Hp : blen (peer_side sc) = PUBLIC_KEY_LEN)
    (T1 : t1 < u64_size) (N1 : blen n1 = NONCE_LEN) (T2 : t2 < u64_size) (R : forall n, blen (rng n) = NONCE_LEN)
    (Wf : wf_text_map wf_text fields)
    (Q : request_join_send sc key c fields (Some t1) n1 = NOk bs)
    (A : gates_pass (link vs) (Some t2) bs (services s))
    (Hh : heap (verses s) !! route_by_hash vs (Contract.hash c) = Some h)
    (Hc : contract h = c) (Hv : verse c = verse_addr h) (Hk : blen (content_key h) = 32)
    (Hreq : JoinRequest.sign key (Contract.hash c) fields = Ok req) (Ok_ : join_refusal c req = None)
    (Hshare : key_share h (Contract.hash c) (public_bytes key) t2 (rng 0%nat) = Ok p)
    (Hsize : blen (JoinAccept.encode p) <= 65236) :
  exists w s', serve_verse_step carries vs (Some t2) rng fresh bs s = ([VWrite w], s', NOk tt) /\
    heap (verses s') !! route_by_hash vs (Contract.hash c) = Some (admit_member (public_bytes key) (version c) h) /\
    may_post (public_bytes key) (admit_member (public_bytes key) (version c) h) = true /\
    exists ms, request_join_finish key c w = NOk ms /\
      m_content_key ms = content_key h /\ m_verse ms = verse_addr h.
Proof.
  unfold request_join_send in Q. rewrite Hreq in Q. unfold sign_response in Q.
  cbn [core mbind nresult_bind now_unix_seconds ok_or] in Q.
  apply nresult_bind_ok in Q as (e & He%core_ok & Q).
  assert (accept_one (link vs) bs = NOk (e, [])) as Ha.
  { eapply sent_accepted; [..|exact He|exact Q]; try done. by rewrite Ic. }
  pose proof (accepted_fits _ _ _ _ Ha) as F. pose proof (A e [] Ha) as Ad.
  apply sign_with_fields in He as (Ht & Hf & _ & Hpl). rewrite Hpl in F.
  pose proof (join_request_back _ _ _ _ Hreq ltac:(apply blake3_length) Wf F) as Hdec.
  assert (JoinRequest.contract_hash req = Contract.hash c /\ JoinRequest.side req = public_bytes key) as [Hrh Hrs].
  { by injection Hreq as <-. }
  unfold serve_verse_step. rewrite Ha. destruct (admit_envelope (Some t2) e (services s)) as [ok sv].
  cbn [fst] in Ad. subst ok. unfold handle_verse. rewrite Ht.
  cbn [N.eqb Pos.eqb MT_JOIN_REQUEST MT_CONTRACT_FETCH].
  unfold handle_join_request. rewrite Hpl, Hdec, Hrh. cbn [verses]. rewrite Hh, Hc, Ok_.
  cbn [now_unix_seconds ok_or mbind result_bind]. rewrite Hrs, Hshare. cbn [mbind result_bind].
  destruct (sign_with_valid MT_JOIN_ACCEPT (verse_key h) (Some (from e)) (JoinAccept.encode p) t2 (rng 1%nat))
    as (resp & Hresp & Hvd & Hl & Hrt & Hrp & _);
    [done|rewrite Hf; apply ed_public_length|done|by apply R|done|].
  rewrite Hresp. unfold vrespond. cbn [core mbind nresult_bind]. rewrite send_envelope_frame by done.
  eexists (frame resp), _. split; [reflexivity|]. split; [|split].
  - cbn [verses with_verses]. unfold modify_host. cbn [heap]. by rewrite list_lookup_alter_eq, Hh.
  - apply may_post_iff. cbn [members consented_versions contract admit_member with_members].
    rewrite Hc, lookup_insert_eq. set_solver.
  - destruct (share_accepted h key t2 (rng 0%nat) p c) as (ms & Hacc & Hms & Hmv); try done;
      [unfold u64_size; lia|].
    exists ms. split; [|done]. unfold request_join_finish.
    rewrite (proj2 (recv_envelope_ok (frame resp) resp [])) by (rewrite app_nil_r; done).
    cbn [mbind nresult_bind]. rewrite Hrt, Hrp. exact Hacc.
Qed.

(** C21: what a member posts with the key of its membership is read by the host,
    and relayed, sealed as it is, to every other member with a session whose
    connection takes it. *)
Theorem member_post_delivered `{HashIterLaws, CryptoLaws, !Ecies, !EciesLaws}
    carries sc vs key ms body pn t1 n1 bs t2 rng fresh s h
    (Ic : intent sc = Intent.Verse) (Is : intent (link vs) = Intent.Verse)
    (T1 : t1 < u64_size) (N1 : blen n1 = NONCE_LEN) (Pn : blen pn = 12)
    (Q : post_to_verse sc key ms body pn (Some t1) n1 = NOk bs)
    (A : gates_pass (link vs) (Some t2) bs (services s))
    (Hr : exists i, hosts vs !! m_verse ms = Some i /\ heap (verses s) !! i = Some h)
    (Hv : blen (m_verse ms) = PUBLIC_KEY_LEN)
    (Hk : m_content_key ms = content_key h) (Hm : may_post (public_bytes key) h = true) :
  exists e, from e = public_bytes key /\
    VPost e body ∈ (serve_verse_step carries vs (Some t2) rng fresh bs s).1.1 /\
    forall m c, m ∈ members h -> m <> public_bytes key -> active_sessions h !! m = Some c -> carries c e = true ->
      VSend c e ∈ (serve_verse_step carries vs (Some t2) rng fresh bs s).1.1.
Proof.
  unfold post_to_verse in Q. apply nresult_bind_ok in Q as ([pn' ct] & Hs%core_ok & Q).
  unfold ContentKey.seal in Hs. apply result_bind_ok in Hs as (ct' & Hct%ok_or_ok & [= <- <-]).
  cbn [core mbind nresult_bind now_unix_seconds ok_or] in Q.
  apply nresult_bind_ok in Q as (e & He%core_ok & Q).
  assert (accept_one (link vs) bs = NOk (e, [])) as Ha.
  { eapply sent_accepted; [..|exact He|exact Q]; try done. by rewrite Ic. }
  pose proof (accepted_fits _ _ _ _ Ha) as F. pose proof (A e [] Ha) as Ad.
  assert (Envelope.to e = Some (m_verse ms)) as Hto by (by injection He as <-).
  apply sign_with_fields in He as (Ht & Hf & _ & Hpl). rewrite Hpl in F. cbn [ContentKey.key_bytes] in Hct. rewrite Hk in Hct.
  destruct Hr as (i & Hi & Hh). exists e. split; [done|].
  assert (VersePost.decode (payload e) = Ok {| VersePost.nonce := pn; VersePost.ciphertext := ct' |}) as Hd.
  { rewrite Hpl. apply (decode_prefix _ _ _ _ _ F). split; [|exists []; by rewrite app_nil_r].
    split; [done|]. unfold wf_bytes. cbn [VersePost.ciphertext]. revert F. unfold VersePost.encode. intros F.
    pose proof (blen_bytestr_le ct'). pose proof (blen_value_le [ entry "nonce" (bytestr pn);
      entry "ciphertext" (bytestr ct') ] (entry "ciphertext" (bytestr ct')) ltac:(set_solver)) as K.
    change (blen (bytestr ct') <= blen (encode_map [ entry "nonce" (bytestr pn); entry "ciphertext" (bytestr ct') ])) in K.
    cbn [VersePost.nonce VersePost.ciphertext] in F. lia. }
  unfold serve_verse_step. rewrite Ha. destruct (admit_envelope (Some t2) e (services s)) as [ok sv].
  cbn [fst] in Ad. subst ok. unfold handle_verse. rewrite Ht.
  cbn [N.eqb Pos.eqb MT_VERSE_POST MT_JOIN_REQUEST MT_CONTRACT_FETCH].
  unfold handle_verse_post, route_by_to. rewrite Hd, Hto. cbn [mbind option_bind]. rewrite Hi.
  cbn [default from_option id verses]. rewrite Hh, Hf, Hm. cbn [negb].
  unfold ContentKey.open. cbn [ContentKey.key_bytes VersePost.nonce VersePost.ciphertext].
  rewrite (aead_decrypt_encrypt _ _ _ _ _ Hct). cbn [ok_or fst]. split.
  - apply elem_of_app. right. by left.
  - intros m c Hmm Hne Hc Hcar. apply elem_of_app. left. unfold verse_fanout_post.
    apply list_elem_of_fmap. exists (m, c). split; [done|].
    apply list_elem_of_In, filter_In. split; [apply list_elem_of_In; by apply member_sessions_spec|].
    cbn [fst snd]. by rewrite bool_decide_eq_false_2, Hcar.
Qed.

(** A re-consent reaches the default verse of the session only: whatever
    verse its sender means, no other hosted verse changes, so a member of
    another verse cannot consent to its amended contract. *)
Theorem reconsent_default_only `{HashIter, Crypto, !Ecies} carries clock rng fresh vs env s i
    (Ht : message_type env = MT_VERSE_RECONSENT) (Hi : i <> default_host vs) :
  heap (verses (handle_verse carries clock rng fresh vs env s).1.2) !! i = heap (verses s) !! i.
Proof.
  unfold handle_verse. rewrite Ht.
  cbn [N.eqb Pos.eqb MT_VERSE_RECONSENT MT_VERSE_LEAVE MT_VERSE_REMOVE MT_CONTRACT_FETCH MT_JOIN_REQUEST MT_VERSE_POST].
  unfold handle_verse_reconsent. repeat case_match; try done.
  cbn [vskip fst snd with_verses verses]. unfold modify_host. cbn [heap]. by apply list_lookup_alter_ne.
Qed.

(** ** Concrete instances *)

Module VerseHostExamples.
Import Toy ToyEcies ToyIter SessionExamples NodeExamples.

Definition all (c : Conn) (e : Envelope) : bool := true.
Definition nonces (n : nat) : bytes := replicate 16 (as_u8 (N.of_nat n)).
Definition key1 : bytes := replicate 32 Byte.x51.
Definition key2 : bytes := replicate 32 Byte.x52.
Definition member : bytes := public_bytes Toy.side2.
Definition verse_session (peer : bytes) : Session :=
  {| session_key := []; peer_side := peer; intent := Intent.Verse; peer_capabilities := ∅ |}.
Definition sent (r : nresult bytes) : bytes := match r with NOk bs => bs | NErr _ => [] end.

(** One hosted verse, of the key [Toy.side]. *)
Definition host0 : VerseHost := VerseHost.new Toy.side VerseExamples.c1 key1.
Definition v0 : Verses := host_verse host0 {| heap := []; hosted_verses := ∅ |}.
Definition opened : VerseSession :=
  match (open_session all (verse_session member) 7%nat v0).1.1 with
  | Some vs => vs
  | None => {| link := verse_session []; conn := 0%nat; hosts := ∅; contract_hash_index := ∅; default_host := 0%nat |}
  end.
Definition s0 : VerseServices :=
  {| VerseHost.services := node; verses := (open_session all (verse_session member) 7%nat v0).2 |}.
Definition h0 : VerseHost := default host0 (heap (verses s0) !! 0%nat).
Definition fields : gmap string string := {[ "display-name" := "Ada" ]}.
Definition join_request : JoinRequest.JoinRequestPayload :=
  {| JoinRequest.contract_hash := Contract.hash VerseExamples.c1; JoinRequest.side := member;
     JoinRequest.fields := fields;
     JoinRequest.signature := side_sign Toy.side2 (blake3 (JoinRequest.encode_unsigned
       (Contract.hash VerseExamples.c1) member fields)) |}.
Definition share : JoinAccept.JoinAcceptPayload :=
  match key_share h0 (Contract.hash VerseExamples.c1) member (now0 + 1) (nonces 0) with
  | Ok p => p
  | Err _ => {| JoinAccept.membership_token := []; JoinAccept.key_nonce := []; JoinAccept.sealed_content_key := [] |}
  end.
Definition join_bytes : bytes :=
  sent (request_join_send (verse_session (public_bytes Toy.side)) Toy.side2 VerseExamples.c1 fields (Some now0) n1).

Lemma nonces_length n : blen (nonces n) = NONCE_LEN.
Proof. unfold blen, nonces. by rewrite length_replicate. Qed.

Lemma fields_wf : wf_text_map wf_text fields.
Proof.
  split; [vm_compute; discriminate|]. apply map_Forall_singleton. repeat split; vm_compute; reflexivity.
Qed.

Lemma join_gives_key_witness :
  exists w s', serve_verse_step all opened (Some (now0 + 1)) nonces key2 join_bytes s0 = ([VWrite w], s', NOk tt) /\
    heap (verses s') !! route_by_hash opened (Contract.hash VerseExamples.c1)
      = Some (admit_member (public_bytes Toy.side2) (version VerseExamples.c1) h0) /\
    may_post (public_bytes Toy.side2) (admit_member (public_bytes Toy.side2) (version VerseExamples.c1) h0) = true /\
    exists ms, request_join_finish Toy.side2 VerseExamples.c1 w = NOk ms /\
      m_content_key ms = content_key h0 /\ m_verse ms = verse_addr h0.
Proof.
  apply (join_gives_key all (verse_session (public_bytes Toy.side)) opened Toy.side2 VerseExamples.c1 fields
    now0 n1 join_bytes (now0 + 1) nonces key2 s0 h0 join_request share).
  1-6: vm_compute; reflexivity.
  1: exact nonces_length.
  1: exact fields_wf.
  2: apply gates_pass_compute; vm_compute; reflexivity.
  9: vm_compute; discriminate.
  all: vm_compute; reflexivity.
Defined.

(** A host with the member, whose session is on connection 7. *)
Definition h1 : VerseHost := admit_member member 1 h0.
Definition s1 : VerseServices := with_verses (modify_host 0%nat (admit_member member 1) (verses s0)) s0.
Definition membership : VerseMembership :=
  {| m_verse := public_bytes Toy.side; m_contract_hash := Contract.hash VerseExamples.c1; membership_token := [];
     m_content_key := key1 |}.
Definition post_bytes : bytes :=
  sent (post_to_verse (verse_session (public_bytes Toy.side)) Toy.side2 membership (as_bytes "hi")
          (replicate 12 Byte.x01) (Some now0) n1).

Lemma member_post_delivered_witness :
  exists e, from e = public_bytes Toy.side2 /\
    VPost e (as_bytes "hi") ∈ (serve_verse_step all opened (Some (now0 + 1)) nonces key2 post_bytes s1).1.1 /\
    forall m c, m ∈ members h1 -> m <> public_bytes Toy.side2 -> active_sessions h1 !! m = Some c ->
      all c e = true ->
      VSend c e ∈ (serve_verse_step all opened (Some (now0 + 1)) nonces key2 post_bytes s1).1.1.
Proof.
  apply (member_post_delivered all (verse_session (public_bytes Toy.side)) opened Toy.side2 membership (as_bytes "hi")
    (replicate 12 Byte.x01) now0 n1 post_bytes (now0 + 1) nonces key2 s1 h1).
  1-6: vm_compute; reflexivity.
  1: apply gates_pass_compute; vm_compute; reflexivity.
  1: exists 0%nat; split; vm_compute; reflexivity.
  all: vm_compute; reflexivity.
Defined.

(** The rotation after which the member is sent the new key. *)
Lemma rotation_reaches_members_witness :
  let '(out, h', r) := rotate_and_push_verse_key (Some now0) nonces key2 all h1 in
  content_key h' = key2 /\
  (forall x, x ∈ out -> exists m c e, x = VSend c e /\ m ∈ members h1 /\ active_sessions h1 !! m = Some c /\
     Envelope.to e = Some m) /\
  (forall m, m ∈ members h1 -> active_sessions h1 !! m = None ->
     pending_key_pushes h' !! m = pending_key_pushes h1 !! m) /\
  (r = NOk tt -> forall m c, m ∈ members h1 -> active_sessions h1 !! m = Some c ->
     exists e, (if all c e then VSend c e ∈ out else pending_key_pushes h' !! m = Some e) /\
       forall key ms, public_bytes key = m -> m_verse ms = verse_addr h1 -> blen (payload e) < u64_size ->
         exists ms', apply_verse_key_rotation key ms e = NOk ms' /\ m_content_key ms' = key2).
Proof. apply (rotation_reaches_members now0 nonces key2 all h1); [exact nonces_length|reflexivity]. Defined.

Example rotation_sends : (rotate_and_push_verse_key (Some now0) nonces key2 all h1).2 = NOk tt.
Proof. by vm_compute. Qed.

(** The member leaves. *)
Definition leave_env : Envelope :=
  match accept_one (verse_session member)
          (sent (leave_verse (verse_session (public_bytes Toy.side)) Toy.side2 membership Retract None (Some now0) n1)) with
  | NOk (e, _) => e
  | NErr _ => EnvelopeExamples.env
  end.
Definition left_host : VerseHost :=
  default h1 (heap (verses (handle_verse all (Some now0) nonces key2 opened leave_env s1).1.2) !! 0%nat).


Lemma members_have_consents_witness :
  host_ok (default host0 (heap (verses (foldl vevent {| VerseHost.services := node; verses := v0 |}
    [EOpen all (verse_session member) 7%nat; EStep all opened (Some (now0 + 1)) nonces key2 join_bytes;
     ERotate all (Some (now0 + 2)) nonces key2 (public_bytes Toy.side); EClose opened])) !! 0%nat)).
Proof.
  eapply (members_have_consents
    [EOpen all (verse_session member) 7%nat; EStep all opened (Some (now0 + 1)) nonces key2 join_bytes;
     ERotate all (Some (now0 + 2)) nonces key2 (public_bytes Toy.side); EClose opened]
    {| VerseHost.services := node; verses := v0 |} 0%nat).
  - constructor; [|constructor]. split; [apply dom_empty_L|apply map_Forall_empty].
  - vm_compute. reflexivity.
Defined.

(** Two hosted verses: the member of the one that is not the default cannot
    re-consent to its amended contract, and its posts are refused. *)
Definition other_contract (version : N) : ContractObject :=
  match Contract.sign Toy.side2 version "other" "" [] [] [] [] [] [] 5 with
  | Ok c => c
  | Err _ => VerseExamples.c1
  end.
Definition author : SideKey := {| signing := Toy.pad 32 [Byte.x0c]; side_label := "m" |}.
Definition v2 : Verses :=
  host_verse (admit_member (public_bytes author) 1 (VerseHost.new Toy.side2 (other_contract 1) key2)) v0.
Definition vs2 : VerseSession :=
  match (open_session all (verse_session (public_bytes author)) 8%nat v2).1.1 with
  | Some vs => vs
  | None => opened
  end.
Definition amended : VerseServices :=
  {| VerseHost.services := node;
     verses := (host_amend_verse all (Some now0) nonces (other_contract 2)
                  (open_session all (verse_session (public_bytes author)) 8%nat v2).2).1.2 |}.
Definition reconsent_env : Envelope :=
  match accept_one (verse_session (public_bytes author))
          (sent (reconsent_to_amendment (verse_session (public_bytes Toy.side2)) author
                   (Contract.hash (other_contract 2)) (Some now0) n1)) with
  | NOk (e, _) => e
  | NErr _ => EnvelopeExamples.env
  end.

Lemma reconsent_default_only_witness :
  heap (verses (handle_verse all (Some now0) nonces key1 vs2 reconsent_env amended).1.2) !! 1%nat
  = heap (verses amended) !! 1%nat.
Proof.
  apply (reconsent_default_only all (Some now0) nonces key1 vs2 reconsent_env amended 1%nat).
  - vm_compute. reflexivity.
  - vm_compute. discriminate.
Defined.

Example cannot_post_after_reconsent :
  option_map (may_post (public_bytes author))
    (heap (verses (handle_verse all (Some now0) nonces key1 vs2 reconsent_env amended).1.2) !! 1%nat) = Some false.
Proof. by vm_compute. Qed.

(** A session that ends takes the registration of the newer session of the
    same peer with it. *)
Example stale_close_unregisters :
  let v := (open_session all (verse_session member) 9%nat (verses s1)).2 in
  option_map (fun h => active_sessions h !! member) (heap v !! 0%nat) = Some (Some 9%nat) /\
  option_map (fun h => active_sessions h !! member) (heap (close_session opened v) !! 0%nat) = Some None.
Proof. by vm_compute. Qed.

(** Anybody who has the join request of a side can have it admitted again: the
    sender of the envelope is not compared with the side that joins. *)
Definition replayed_join : Envelope :=
  match sign_with MT_JOIN_REQUEST author (Some (public_bytes Toy.side)) (JoinRequest.encode join_request) now0 n1 with
  | Ok e => e
  | Err _ => EnvelopeExamples.env
  end.
Example join_of_another :
  let left_state := (handle_verse all (Some now0) nonces key2 opened leave_env s1).1.2 in
  from replayed_join <> member /\
  option_map (is_member member) (heap (verses left_state) !! 0%nat) = Some false /\
  option_map (is_member member)
    (heap (verses (handle_verse all (Some now0) nonces key2 opened replayed_join left_state).1.2) !! 0%nat) = Some true.
Proof. split; [vm_compute; discriminate|]. by vm_compute. Qed.

End VerseHostExamples.
