(* ===== verification/Replies.v ===== *)
(** What the servers put on the stream of a request.

    The four servers sign and send their replies in the same way; this file
    proves once that a reply is always a well-formed envelope its receiver can
    parse, and applies it to every handler of the storage, the gossip, the
    direct and the verse server. *)

From S2P Require Import Prelude Containers Utf8 Cbor CborCodec CborValue Keys Envelope Payload Device Session Storage StorageProtocol Node NodeFacts SideStore SideState SideFacts DirectServer VerseMessages VerseHost.

Open Scope N_scope.

(** ** Definitions *)

(** Nothing, or the frame of one valid envelope, signed by one of [keys] and
    addressed to the sender of the request. *)
Definition reply_ok `{Crypto} (keys : list SideKey) (env : Envelope) (writes : list bytes) : Prop :=
  writes = [] \/
  exists key e, key ∈ keys /\ writes = [frame e] /\ valid e /\ recv_envelope (frame e) = NOk (e, []) /\
    from e = public_bytes key /\ Envelope.to e = Some (from env).

(** The bytes on the stream of the request. *)
Definition node_writes : list Effect -> list bytes :=
  omap (fun e => match e with Write bs => Some bs | _ => None end).
Definition direct_writes : list DirectEffect -> list bytes :=
  omap (fun e => match e with DWrite bs => Some bs | _ => None end).
Definition verse_writes : list VerseEffect -> list bytes :=
  omap (fun e => match e with VWrite bs => Some bs | _ => None end).

(** The keys a verse server answers with. *)
Definition verse_keys (s : VerseServices) : list SideKey := side (services s) :: map verse_key (heap (verses s)).

(** ** Replies *)

Section Replies.
Context `{Laws : CryptoLaws}.

Definition clock_ok (clock : Clock) : Prop := from_option (fun t => t < u64_size) True clock.

Lemma signed_reply keys key env mt pl now n e bs :
  mt <= 0xFF -> now < u64_size -> blen n = NONCE_LEN -> blen (from env) = PUBLIC_KEY_LEN -> key ∈ keys ->
  sign_with mt key (Some (from env)) pl now n = Ok e -> send_envelope e = NOk bs ->
  reply_ok keys env [bs].
Proof using Laws.
  intros Hmt Hnow Hn Hf Hk Hs Hb. right. exists key, e.
  set (ss := {| session_key := []; peer_side := []; intent := Intent.Direct; peer_capabilities := ∅ |}).
  assert (blen (to_wire_bytes e) <= MAX_ENVELOPE_LEN) as Hl.
  { destruct (decide (blen (to_wire_bytes e) <= MAX_ENVELOPE_LEN)); [done|].
    unfold send_envelope in Hb. by rewrite (proj2 (N.ltb_lt _ _)) in Hb by lia. }
  rewrite send_envelope_frame in Hb by done. injection Hb as <-.
  assert (valid e) as Hv.
  { pose proof (blen_payload_le e) as Hp. injection Hs as <-.
    split; [|split; [done|apply signed_by_sign]].
    unfold wf_envelope, wf_bytes. cbn [payload version message_type from Envelope.to timestamp nonce sig] in *.
    split_and!; try done; [apply ed_sign_length|apply ed_public_length|].
    unfold MAX_ENVELOPE_LEN, u64_size in *. lia. }
  split_and!; try done.
  - rewrite <-(app_nil_r (frame e)) at 1. by apply recv_envelope_ok.
  - by injection Hs as <-.
  - by injection Hs as <-.
Qed.

Lemma response_reply keys key env mt pl clock n bs :
  mt <= 0xFF -> clock_ok clock -> blen n = NONCE_LEN -> blen (from env) = PUBLIC_KEY_LEN -> key ∈ keys ->
  (e ← sign_response key (from env) mt pl clock n; send_envelope e) = NOk bs ->
  reply_ok keys env [bs].
Proof using Laws.
  intros Hmt Hc Hn Hf Hk Hb. destruct clock as [now|]; [|done].
  apply nresult_bind_ok in Hb as (e & Hs & Hb).
  eapply (signed_reply keys key env mt pl now n e bs); try done. by injection Hs as <-.
Qed.

Lemma accepted_from session stream env rest :
  accept_one session stream = NOk (env, rest) -> blen (from env) = PUBLIC_KEY_LEN.
Proof using Laws.
  unfold accept_one. intros A. apply nresult_bind_ok in A as ([e r] & Hr & A).
  apply nresult_bind_ok in A as (u & _ & [= <- <-]).
  apply recv_envelope_ok in Hr as ((Hwf & _) & _). apply Hwf.
Qed.

End Replies.

(** ** The servers *)

Section Servers.
Context `{HashIter, Laws : CryptoLaws, Ec : Ecies}.

Lemma respond_reply keys key env mt pl clock n s :
  mt <= 0xFF -> clock_ok clock -> blen n = NONCE_LEN -> blen (from env) = PUBLIC_KEY_LEN -> key ∈ keys ->
  reply_ok keys env (node_writes (respond (sign_response key (from env) mt pl clock n) s).1.1).
Proof using Laws.
  intros. unfold respond. destruct (mbind _ (sign_response _ _ _ _ _ _)) eqn:E; [|by left].
  by eapply response_reply.
Qed.

Lemma storage_reply clock n env stream s :
  clock_ok clock -> blen n = NONCE_LEN -> blen (from env) = PUBLIC_KEY_LEN ->
  reply_ok [side s] env (node_writes (handle_storage clock n env stream s).1.1).
Proof using Laws.
  intros Hc Hn Hf. unfold handle_storage.
  destruct (_ =? STORAGE_GET); [|destruct (_ =? STORAGE_OFFER); [|destruct (_ =? STORAGE_RETRACT)]].
  - unfold handle_storage_get. destruct (StorageGet.decode _) as [req|]; [|by left].
    unfold build_storage_response. destruct (match StorageGet.range req with Some _ => _ | None => _ end) as [o st].
    destruct o as [[bs|]|e]; (apply respond_reply; [done..|by left]).
  - unfold handle_storage_offer. destruct (StorageOffer.decode _) as [o|]; [|by left].
    destruct (mbind _ (sign_response _ _ _ _ _ _)) eqn:E; [|by left].
    destruct (Objects.has _ _); (eapply response_reply; [..|exact E]; [done..|by left]).
  - unfold handle_storage_retract. destruct (StorageRetract.decode _) as [o|]; [|by left].
    destruct (negb _); [by left|]. destruct (NetTables.Provenance.drop_publisher _ _ _) as [[] ?]; [by left|].
    destruct (Objects.has _ _); by left.
  - by left.
Qed.

Lemma gossip_reply peer clock n env s :
  clock_ok clock -> blen n = NONCE_LEN -> blen (from env) = PUBLIC_KEY_LEN ->
  reply_ok [side s] env (node_writes (handle_gossip peer clock n env s).1.1).
Proof using Laws.
  intros Hc Hn Hf. unfold handle_gossip. destruct (_ =? PEER_ASK).
  { destruct (Discovery.PeerAsk.decode _); [|by left]. apply respond_reply; [done..|by left]. }
  destruct (_ =? RENDEZVOUS).
  { destruct (Discovery.Rendezvous.decode _); [|by left]. apply respond_reply; [done..|by left]. }
  destruct (_ =? FORWARD_STORE); [destruct (Discovery.ForwardStore.decode _); by left|].
  destruct (category _); try by left. destruct (NetTables.Gossip.observe _ _ _) as [[] g]; [|by left].
  left. unfold node_writes. cbn [fst]. unfold fanout_broadcast. rewrite omap_app. cbn. rewrite app_nil_r.
  by induction (elements _).
Qed.

Lemma direct_reply clock ios key_nonce rnd env d :
  clock_ok clock -> blen rnd = NONCE_LEN -> blen (from env) = PUBLIC_KEY_LEN ->
  reply_ok [side (DirectServer.services d)] env (direct_writes (handle_direct clock ios key_nonce rnd env d).1.1).
Proof using Laws.
  intros Hc Hn Hf. unfold handle_direct.
  destruct (_ =? MT_DIRECT_MESSAGE).
  { unfold handle_direct_message. destruct (negb _); [by left|]. destruct (Payload.open _ _ _ _ _); by left. }
  destruct (_ =? MT_PROFILE_FETCH).
  { unfold handle_profile_fetch. destruct (negb (_ =? 32)); [by left|]. destruct (negb _); [by left|].
    destruct (SideState.profile _); [|by left]. unfold answer.
    destruct (mbind _ (sign_response _ _ _ _ _ _)) eqn:E; [|by left].
    eapply response_reply; [..|exact E]; [done..|by left]. }
  destruct (_ =? MT_PROFILE_DELIVER).
  { unfold handle_profile_deliver. destruct (Profile.Profile.from_wire_bytes _); [|by left].
    destruct (negb _); by left. }
  destruct (_ =? MT_SIDE_RETIREMENT).
  { unfold handle_side_retirement. destruct (Records.Retirement.from_wire_bytes _); [|by left].
    destruct (negb _); by left. }
  destruct (_ =? MT_LINKAGE_PUBLISH).
  { unfold handle_linkage_publish. destruct (Records.Linkage.from_wire_bytes _); [|by left].
    destruct (_ && _); by left. }
  destruct (_ =? MT_DEVICE_PAIRING_REQUEST).
  { unfold handle_pairing_request. destruct (PairingRequest.from_wire_bytes _); [|by left].
    destruct (negb _); [by left|]. destruct (take_pending_pairing _ _ _) as [[] h]; [|by left].
    destruct (state_bundle_for _ _ _ _ _); [|by left].
    destruct (mbind _ (sign_response _ _ _ _ _ _)) eqn:E; [|by left].
    eapply response_reply; [..|exact E]; [done..|by left]. }
  destruct (_ =? MT_DEVICE_REVOKE).
  { unfold handle_device_revoke. destruct (DeviceRevoke.from_wire_bytes _); [|by left].
    destruct (negb _); by left. }
  destruct (_ =? MT_DEVICE_STATE_BUNDLE); [by left|].
  destruct (_ =? MT_STATE_DELTA); [|by left].
  unfold handle_state_delta. destruct (Delta.from_wire_bytes _); [|by left]. destruct (negb _); by left.
Qed.

Lemma vrespond_reply keys key env mt pl clock n s :
  mt <= 0xFF -> clock_ok clock -> blen n = NONCE_LEN -> blen (from env) = PUBLIC_KEY_LEN -> key ∈ keys ->
  reply_ok keys env (verse_writes (vrespond (sign_response key (from env) mt pl clock n) s).1.1).
Proof using Laws.
  intros. unfold vrespond. destruct (mbind _ (sign_response _ _ _ _ _ _)) eqn:E; [|by left].
  by eapply response_reply.
Qed.

(** Posts and rotations write on other streams only. *)
Lemma fanout_writes carries h env author : verse_writes (verse_fanout_post carries h env author) = [].
Proof using. unfold verse_writes, verse_fanout_post. by induction (List.filter _ _). Qed.

Lemma rotation_writes clock rng fresh carries h :
  verse_writes (rotate_and_push_verse_key clock rng fresh carries h).1.1 = [].
Proof using.
  unfold rotate_and_push_verse_key. destruct (mbind _ (now_unix_seconds clock)) as [pushes|]; [|done].
  set (h' := rotate_content_key fresh h). clearbody h'.
  enough (forall acc, verse_writes acc.1 = [] ->
    verse_writes (foldl (deliver_push carries) acc pushes).1 = []) as Hall.
  { specialize (Hall ([], h') eq_refl). by destruct (foldl _ _ _). }
  induction pushes as [|[[m c] e] l IH]; intros [out g] Ha; [done|]. cbn [foldl]. apply IH.
  unfold deliver_push. destruct (carries c e); [|done]. cbn [fst] in *. unfold verse_writes in *.
  by rewrite omap_app, Ha.
Qed.

Lemma rotate_host_writes carries clock rng fresh i s : verse_writes (rotate_host carries clock rng fresh i s).1 = [].
Proof using.
  unfold rotate_host. destruct (heap (verses s) !! i) as [h|]; [|done].
  pose proof (rotation_writes clock rng fresh carries h).
  by destruct (rotate_and_push_verse_key _ _ _ _ _) as [[out h'] r].
Qed.

Lemma verse_reply carries clock rng fresh vs env s :
  clock_ok clock -> (forall i, blen (rng i) = NONCE_LEN) -> blen (from env) = PUBLIC_KEY_LEN ->
  reply_ok (verse_keys s) env (verse_writes (handle_verse carries clock rng fresh vs env s).1.1).
Proof using Laws.
  intros Hc Hn Hf. unfold handle_verse.
  destruct (_ =? MT_CONTRACT_FETCH).
  { unfold handle_contract_fetch. destruct (heap _ !! _); [|by left].
    apply vrespond_reply; [done..|by left]. }
  destruct (_ =? MT_JOIN_REQUEST).
  { unfold handle_join_request. destruct (JoinRequest.decode _) as [req|]; [|by left].
    destruct (heap _ !! _) as [h|] eqn:Eh; [|by left].
    destruct (join_refusal _ _); [apply vrespond_reply; [done..|by left]|].
    destruct (mbind _ (now_unix_seconds clock)) as [[now p]|] eqn:E; [|by left].
    apply result_bind_ok in E as (t & Et & E). apply result_bind_ok in E as (p' & _ & [= -> ->]).
    destruct clock as [t'|]; [injection Et as ->|done].
    unfold vrespond. destruct (mbind _ (core _)) eqn:Es; [|by left].
    apply nresult_bind_ok in Es as (e & He & Hb).
    apply (signed_reply _ (verse_key h) env MT_JOIN_ACCEPT (JoinAccept.encode p) now (rng 1%nat) e);
      try done; [|by injection He as <-].
    right. apply list_elem_of_fmap. exists h. split; [done|]. by eapply list_elem_of_lookup_2. }
  destruct (_ =? MT_VERSE_POST).
  { unfold handle_verse_post. destruct (VersePost.decode _) as [post|]; [|by left].
    destruct (heap _ !! _) as [h|]; [|by left]. destruct (negb _); [by left|].
    destruct (Verse.ContentKey.open _ _ _ _); [|by left]. left. cbn [fst].
    unfold verse_writes. rewrite omap_app. fold verse_writes. by rewrite fanout_writes. }
  destruct (_ =? MT_VERSE_LEAVE).
  { unfold handle_verse_leave. destruct (VerseLeave.decode _) as [l|]; [|by left]. destruct (negb _); [by left|].
    destruct (mbind _ (hosts vs !! _)) as [[i h]|]; [|by left]. destruct (drop_member _ _) as [[] h']; [|by left].
    set (s' := with_verses _ _). pose proof (rotate_host_writes carries clock rng fresh i s').
    destruct (rotate_host _ _ _ _ _ s') as [out s2]. by left. }
  destruct (_ =? MT_VERSE_REMOVE).
  { unfold handle_verse_remove. destruct (VerseRemove.decode _) as [l|]; [|by left].
    destruct (mbind _ (hosts vs !! _)) as [[i h]|]; [|by left].
    destruct (negb _); [by left|]. destruct (negb _); [by left|]. destruct (drop_member _ _) as [[] h']; [|by left].
    set (s' := with_verses _ _). pose proof (rotate_host_writes carries clock rng fresh i s').
    destruct (rotate_host _ _ _ _ _ s') as [out s2]. by left. }
  destruct (_ =? MT_VERSE_RECONSENT); [|by left].
  unfold handle_verse_reconsent. destruct (VerseReconsent.decode_and_verify _ _); [|by left].
  destruct (heap _ !! _); [|by left]. destruct (negb _); [by left|]. destruct (negb _); by left.
Qed.

End Servers.

(** ** Properties *)

(** C24: every reply is well typed: whatever bytes arrive, a step of the storage,
    the gossip, the direct or the verse server writes on the stream of the
    request nothing or the frame of one valid envelope, which the requester's
    parser accepts whole, addressed to the request's sender and signed by the
    node's side or, in a verse session, by a verse the node hosts. *)
Theorem replies_well_typed `{HashIter, CryptoLaws, Ecies} session stream env rest clock ios key_nonce rng fresh
    carries vs s h v
    (A : accept_one session stream = NOk (env, rest))
    (Link : link vs = session)
    (Hc : clock_ok clock) (Hn : forall i, blen (rng i) = NONCE_LEN) :
  let d := {| DirectServer.services := s; hosted := h |} in
  let w := {| VerseHost.services := s; verses := v |} in
  reply_ok [side s] env (node_writes (serve_storage_step session clock (rng 0%nat) stream s).1.1) /\
  reply_ok [side s] env (node_writes (serve_gossip_step session clock (rng 0%nat) stream s).1.1) /\
  reply_ok [side s] env (direct_writes (serve_direct_step session clock ios key_nonce (rng 0%nat) stream d).1.1) /\
  reply_ok (verse_keys w) env (verse_writes (serve_verse_step carries vs clock rng fresh stream w).1.1).
Proof.
  pose proof (accepted_from _ _ _ _ A) as Hf. pose proof (same_side _ _ (admit_tables clock env s)) as Hside.
  intros d w. split_and!.
  - unfold serve_storage_step, serve_step. rewrite A.
    destruct (admit_envelope clock env s) as [[] s']; [|by left]. rewrite <-Hside. by apply storage_reply.
  - unfold serve_gossip_step, serve_step. rewrite A.
    destruct (admit_envelope clock env s) as [[] s']; [|by left]. rewrite <-Hside. by apply gossip_reply.
  - unfold serve_direct_step. rewrite A. cbn [DirectServer.services d].
    destruct (admit_envelope clock env s) as [[] s']; [|by left]. rewrite <-Hside.
    by apply (direct_reply clock ios key_nonce (rng 0%nat) env (with_services s' d)).
  - unfold serve_verse_step. rewrite Link, A. cbn [VerseHost.services w].
    destruct (admit_envelope clock env s) as [[] s']; [|by left].
    unfold verse_keys. cbn [VerseHost.services w verses]. rewrite <-Hside.
    by apply (verse_reply carries clock rng fresh vs env {| VerseHost.services := s'; verses := v |}).
Qed.

(** ** A request at a concrete node *)

Module RepliesExamples.
Import Toy ToyEcies ToyIter SessionExamples NodeExamples.

Definition ask : Envelope :=
  env PEER_ASK (Discovery.PeerAsk.encode
    {| Discovery.PeerAsk.intent_filter := None; Discovery.PeerAsk.limit := 5 |}).
Definition gossip_session : VerseSession :=
  {| link := session Intent.Gossip; conn := 0%nat; default_host := 0%nat; hosts := ∅; contract_hash_index := ∅ |}.
Definition no_verses : Verses := {| heap := []; hosted_verses := ∅ |}.

(** The question gets one answer. *)
Example ask_answered :
  length (node_writes (serve_gossip_step (session Intent.Gossip) (Some now0) n1 (frame ask) node).1.1) = 1%nat.
Proof. vm_compute. reflexivity. Qed.

Lemma replies_well_typed_witness :
  reply_ok [side2] ask
    (node_writes (serve_gossip_step (session Intent.Gossip) (Some now0) n1 (frame ask) node).1.1).
Proof.
  refine (proj1 (proj2 (replies_well_typed (session Intent.Gossip) (frame ask) ask [] (Some now0)
    (fun _ => io_ok) n1 (fun _ => n1) n1 (fun _ _ => true) gossip_session node SideExamples.h0 no_verses
    _ _ _ _))).
  - vm_compute. reflexivity.
  - reflexivity.
  - vm_compute. reflexivity.
  - intros i. vm_compute. reflexivity.
Defined.

End RepliesExamples.
