(* ===== verification/Migrations.v ===== *)
(** Opening the database of the sides: the schema and its migrations
    ([SideStore::open], [run_migrations] in [sidevers-net/src/side_store.rs]).

    A catalog is what SQLite knows of the file's tables: the rows of
    [schema_version] and the columns of the others, each with its declaration.
    No statement here touches a row of those: a created table is empty, and an
    added column reads as NULL.  Every statement is a transaction of its own
    ([execute_batch] opens none), so that the process, or the disk, may stop
    between any two. *)

From S2P Require Import Prelude Session.

Open Scope Z_scope.

(** ** The database *)

(** A column or a table constraint: its name, and the rest of its declaration. *)
Abbreviation Column := (string * string)%type.

Record Catalog := {
  schema_version : option (list Z);
  tables : gmap string (list Column)
}.

Inductive Statement :=
| CreateVersionTable
| CreateTable (name : string) (columns : list Column)     (* IF NOT EXISTS *)
| AddColumn (table : string) (column : Column)
| InsertVersion (v : Z)
| UpdateVersion (v : Z).

Definition has_column (table name : string) (c : Catalog) : bool :=
  match tables c !! table with
  | Some columns => bool_decide (name ∈ columns.*1)
  | None => false
  end.

Definition exec (s : Statement) (c : Catalog) : nresult Catalog :=
  match s with
  | CreateVersionTable => NOk {| schema_version := Some (default [] (schema_version c)); tables := tables c |}
  | CreateTable name columns =>
    match tables c !! name with
    | Some _ => NOk c
    | None => NOk {| schema_version := schema_version c; tables := <[name := columns]> (tables c) |}
    end
  | AddColumn table column =>
    match tables c !! table with
    | None => NErr (Sqlite "no such table: {}")
    | Some columns =>
      if has_column table column.1 c then NErr (Sqlite "duplicate column name: {}")
      else NOk {| schema_version := schema_version c; tables := <[table := columns ++ [column]]> (tables c) |}
    end
  | InsertVersion v =>
    match schema_version c with
    | None => NErr (Sqlite "no such table: schema_version")
    | Some vs => NOk {| schema_version := Some (vs ++ [v]); tables := tables c |}
    end
  | UpdateVersion v =>
    match schema_version c with
    | None => NErr (Sqlite "no such table: schema_version")
    | Some vs => NOk {| schema_version := Some (map (fun _ => v) vs); tables := tables c |}
    end
  end.

(** Statements in order until one fails; [room] is how many are executed
    before the process or the disk stops. *)
Fixpoint execute (ss : list Statement) (room : nat) (c : Catalog) : nresult unit * Catalog :=
  match ss, room with
  | [], _ => (NOk tt, c)
  | _, O => (NErr (Sqlite "interrupted"), c)
  | s :: ss, S room =>
    match exec s c with
    | NOk c => execute ss room c
    | NErr e => (NErr e, c)
    end
  end.

(** ** The schemas *)

Definition SCHEMA_VERSION : Z := 5.

Definition SCHEMA_V1 : list Statement := [
  CreateTable "sides" [
    ("address", "BLOB PRIMARY KEY"); ("seed", "BLOB NOT NULL"); ("label", "TEXT");
    ("created_at", "INTEGER NOT NULL"); ("lifecycle", "TEXT NOT NULL"); ("last_send_at", "INTEGER");
    ("is_self_retired", "INTEGER NOT NULL DEFAULT 0")];
  CreateTable "profiles" [
    ("side_address", "BLOB PRIMARY KEY REFERENCES sides(address) ON DELETE CASCADE");
    ("wire_bytes", "BLOB NOT NULL"); ("updated_at", "INTEGER NOT NULL")];
  CreateTable "retired_sides_seen" [
    ("observer_address", "BLOB NOT NULL REFERENCES sides(address) ON DELETE CASCADE");
    ("retired_address", "BLOB NOT NULL"); ("observed_at", "INTEGER NOT NULL");
    ("PRIMARY KEY", "(observer_address, retired_address)")];
  CreateTable "relationships" [
    ("side_address", "BLOB NOT NULL REFERENCES sides(address) ON DELETE CASCADE");
    ("peer_address", "BLOB NOT NULL"); ("nickname", "TEXT"); ("introduced_by", "BLOB");
    ("capabilities", "TEXT NOT NULL"); ("notes", "TEXT"); ("pinned", "INTEGER NOT NULL DEFAULT 0");
    ("added_at", "INTEGER NOT NULL"); ("PRIMARY KEY", "(side_address, peer_address)")];
  CreateTable "co_holders" [
    ("side_address", "BLOB NOT NULL REFERENCES sides(address) ON DELETE CASCADE");
    ("device_pubkey", "BLOB NOT NULL"); ("added_at", "INTEGER NOT NULL"); ("added_by", "BLOB");
    ("PRIMARY KEY", "(side_address, device_pubkey)")];
  CreateTable "revoked_devices" [
    ("side_address", "BLOB NOT NULL REFERENCES sides(address) ON DELETE CASCADE");
    ("device_pubkey", "BLOB NOT NULL"); ("revoked_at", "INTEGER NOT NULL");
    ("PRIMARY KEY", "(side_address, device_pubkey)")]].

Definition SCHEMA_V2_DELTA : list Statement := [
  CreateTable "co_holder_addrs" [
    ("side_address", "BLOB NOT NULL REFERENCES sides(address) ON DELETE CASCADE");
    ("device_pubkey", "BLOB NOT NULL"); ("dial_addr", "TEXT NOT NULL"); ("updated_at", "INTEGER NOT NULL");
    ("PRIMARY KEY", "(side_address, device_pubkey)")]].

Definition SCHEMA_V3_DELTA : list Statement := [
  CreateTable "settings" [("key", "TEXT PRIMARY KEY NOT NULL"); ("value", "TEXT NOT NULL")]].

Definition SCHEMA_V4_DELTA : list Statement := [AddColumn "relationships" ("peer_listen_addr", "TEXT")].

Definition SCHEMA_V5_DELTA : list Statement := [
  CreateTable "verse_memberships" [
    ("side_address", "BLOB NOT NULL REFERENCES sides(address) ON DELETE CASCADE");
    ("verse_address", "BLOB NOT NULL"); ("contract_hash", "BLOB NOT NULL");
    ("membership_token", "BLOB NOT NULL"); ("content_key", "BLOB NOT NULL"); ("joined_at", "INTEGER NOT NULL");
    ("role", "TEXT NOT NULL"); ("name", "TEXT"); ("photo_hash", "BLOB"); ("dial_addr", "TEXT");
    ("verse_seed", "BLOB"); ("contract_wire", "BLOB"); ("PRIMARY KEY", "(side_address, verse_address)")]].

(** ** Migration *)

(** [SELECT version FROM schema_version], [optional()]: the first row. *)
Definition current (c : Catalog) : option Z := schema_version c ≫= head.

Definition migration (current : option Z) : list Statement :=
  match current with
  | None =>
    SCHEMA_V1 ++ SCHEMA_V2_DELTA ++ SCHEMA_V3_DELTA ++ SCHEMA_V4_DELTA ++ SCHEMA_V5_DELTA
    ++ [InsertVersion SCHEMA_VERSION]
  | Some v =>
    if v <? 2 then
      SCHEMA_V2_DELTA ++ SCHEMA_V3_DELTA ++ SCHEMA_V4_DELTA ++ SCHEMA_V5_DELTA ++ [UpdateVersion SCHEMA_VERSION]
    else if v <? 3 then SCHEMA_V3_DELTA ++ SCHEMA_V4_DELTA ++ SCHEMA_V5_DELTA ++ [UpdateVersion SCHEMA_VERSION]
    else if v <? 4 then SCHEMA_V4_DELTA ++ SCHEMA_V5_DELTA ++ [UpdateVersion SCHEMA_VERSION]
    else if v <? 5 then SCHEMA_V5_DELTA ++ [UpdateVersion SCHEMA_VERSION]
    else []
  end.

Definition run_migrations (room : nat) (c : Catalog) : nresult unit * Catalog :=
  match room, exec CreateVersionTable c with
  | S room, NOk c => execute (migration (current c)) room c
  | S _, NErr e => (NErr e, c)
  | O, _ => (NErr (Sqlite "interrupted"), c)
  end.

(** A file that does not exist yet. *)
Definition empty_file : Catalog := {| schema_version := None; tables := ∅ |}.

(** The file a release with this schema version wrote. *)
Definition schema_statements (v : nat) : list Statement :=
  concat (take v [SCHEMA_V1; SCHEMA_V2_DELTA; SCHEMA_V3_DELTA; SCHEMA_V4_DELTA; SCHEMA_V5_DELTA]).

Definition release (v : nat) : Catalog :=
  (execute (CreateVersionTable :: schema_statements v ++ [InsertVersion (Z.of_nat v)]) 20 empty_file).2.

(** The column is there, the version that says so is not. *)
Definition half_migrated (c : Catalog) : bool :=
  has_column "relationships" "peer_listen_addr" c &&
  match current c with None => true | Some v => v <? 4 end.

(** ** Facts *)

Lemma has_column_exec t x s c c' : exec s c = NOk c' -> has_column t x c = true -> has_column t x c' = true.
Proof.
  unfold has_column. destruct s as [|name cols|table col|v|v]; cbn [exec].
  - by intros [= <-].
  - destruct (tables c !! name) as [old|] eqn:E; intros [= <-]; [done|]. cbn.
    destruct (decide (name = t)) as [->|Hne]; [by rewrite E|by rewrite lookup_insert_ne].
  - destruct (tables c !! table) as [old|] eqn:E; [|done]. destruct (has_column _ _ _); [done|]. intros [= <-]. cbn.
    destruct (decide (table = t)) as [->|Hne]; [|by rewrite lookup_insert_ne].
    rewrite E, lookup_insert_eq, !bool_decide_eq_true, fmap_app, elem_of_app. by left.
  - destruct (schema_version c); [|done]. by intros [= <-].
  - destruct (schema_version c); [|done]. by intros [= <-].
Qed.

(** A column that is there already is never added. *)
Lemma execute_duplicate t col ss : forall room c,
  AddColumn t col ∈ ss -> has_column t col.1 c = true -> exists e, (execute ss room c).1 = NErr e.
Proof.
  induction ss as [|s ss IH]; intros room c Hin Hc; [by apply not_elem_of_nil in Hin|].
  destruct room as [|room]; [by eexists|]. cbn [execute].
  apply elem_of_cons in Hin as [<-|Hin].
  - cbn [exec]. destruct (tables c !! t); [rewrite Hc|]; by eexists.
  - destruct (exec s c) as [c'|e] eqn:E; [|by eexists]. apply IH; [done|]. by eapply has_column_exec.
Qed.

(** Statements other than the writes of a version leave it alone. *)
Definition writes_version (s : Statement) : bool :=
  match s with InsertVersion _ | UpdateVersion _ | CreateVersionTable => true | _ => false end.

Lemma exec_version s c c' : writes_version s = false -> exec s c = NOk c' -> schema_version c' = schema_version c.
Proof.
  destruct s as [|name cols|table col|v|v]; cbn [exec writes_version]; try done; intros _.
  - destruct (tables c !! name); by intros [= <-].
  - destruct (tables c !! table); [|done]. destruct (has_column _ _ _); [done|]. by intros [= <-].
Qed.

Lemma execute_duplicate_version t col post pre : forall room c,
  Forall (fun s => writes_version s = false) pre -> has_column t col.1 c = true ->
  schema_version (execute (pre ++ AddColumn t col :: post) room c).2 = schema_version c /\
  has_column t col.1 (execute (pre ++ AddColumn t col :: post) room c).2 = true.
Proof.
  induction pre as [|s pre IH]; intros room c Hp Hc; destruct room as [|room]; try done; cbn [app execute].
  - cbn [exec]. destruct (tables c !! t); [rewrite Hc|]; done.
  - inversion Hp; subst. destruct (exec s c) as [c'|e] eqn:E; [|done].
    rewrite <-(exec_version s c c') by done. apply IH; [done|]. by eapply has_column_exec.
Qed.

Lemma half_migrated_has_step c :
  half_migrated c = true ->
  exists pre post, migration (current c) = pre ++ AddColumn "relationships" ("peer_listen_addr", "TEXT") :: post /\
    Forall (fun s => writes_version s = false) pre.
Proof.
  unfold half_migrated. intros [_ Hv]%andb_true_iff. unfold migration.
  assert (forall pre post ss, ss = pre ++ SCHEMA_V4_DELTA ++ post -> forallb (fun s => negb (writes_version s)) pre = true ->
    exists pre post, ss = pre ++ AddColumn "relationships" ("peer_listen_addr", "TEXT") :: post /\
      Forall (fun s => writes_version s = false) pre) as K.
  { intros pre post ss -> Hf. exists pre, post. split; [done|]. apply Forall_forall. intros s Hs.
    rewrite forallb_forall in Hf. apply negb_true_iff, Hf, list_elem_of_In, Hs. }
  destruct (current c) as [v|].
  2: { by eapply (K (SCHEMA_V1 ++ SCHEMA_V2_DELTA ++ SCHEMA_V3_DELTA)); [rewrite <-!app_assoc|]. }
  destruct (v <? 2); [by eapply (K (SCHEMA_V2_DELTA ++ SCHEMA_V3_DELTA)); [rewrite <-!app_assoc|]|].
  destruct (v <? 3); [by eapply (K SCHEMA_V3_DELTA)|]. rewrite Hv. by eapply (K []).
Qed.

(** Once half migrated, every later open fails, and leaves the file so. *)
Lemma half_migrated_stuck c room :
  half_migrated c = true ->
  (exists e, (run_migrations room c).1 = NErr e) /\ half_migrated (run_migrations room c).2 = true.
Proof.
  intros Hh. destruct room as [|room]; [by split; [eexists|]|]. unfold run_migrations. cbn [exec].
  set (c0 := {| schema_version := Some (default [] (schema_version c)); tables := tables c |}).
  assert (current c0 = current c) as Ec by (unfold current, c0; cbn; by destruct (schema_version c)).
  assert (half_migrated c0 = true) as H0 by (unfold half_migrated in *; by rewrite Ec).
  destruct (half_migrated_has_step c0 H0) as (pre & post & E & Hp). rewrite E.
  pose proof H0 as [Hc Hv]%andb_true_iff. split.
  - eapply (execute_duplicate "relationships" ("peer_listen_addr", "TEXT")); [|exact Hc].
    apply elem_of_app. right. by left.
  - destruct (execute_duplicate_version "relationships" ("peer_listen_addr", "TEXT") post pre room c0 Hp Hc) as [Es Hc'].
    unfold half_migrated, current in *. cbn [fst] in Hc'. by rewrite Hc', Es.
Qed.

Lemma execute_enough ss : forall room c, (length ss <= room)%nat -> execute ss room c = execute ss (length ss) c.
Proof.
  induction ss as [|s ss IH]; intros [|room] c Hr; cbn in *; try done; [lia|].
  destruct (exec s c); [|done]. apply IH. lia.
Qed.

(** No open executes more statements than these. *)
Definition all_of_them : nat := 12.

Lemma migration_length v : (length (migration v) <= 11)%nat.
Proof. unfold migration. repeat case_match; cbn; lia. Qed.

Lemma run_enough room c : (all_of_them <= room)%nat -> run_migrations room c = run_migrations all_of_them c.
Proof.
  unfold all_of_them. intros Hr. destruct room as [|room]; [lia|]. unfold run_migrations. cbn [exec].
  match goal with |- execute (migration ?v) _ ?c = _ => pose proof (migration_length v);
    rewrite (execute_enough _ room c), (execute_enough _ 11 c) by lia end. done.
Qed.

Lemma run_capped room c : run_migrations room c = run_migrations (Nat.min room all_of_them) c.
Proof.
  destruct (Nat.le_gt_cases all_of_them room) as [Hr|Hr].
  - rewrite run_enough by done. by rewrite Nat.min_r.
  - by rewrite Nat.min_l by lia.
Qed.

(** ** Every file that can arise *)

#[export] Instance catalog_eq_dec : EqDecision Catalog.
Proof. solve_decision. Defined.

Definition starts : list Catalog := empty_file :: map release [1; 2; 3; 4; 5]%nat.
Definition after (room : nat) (c : Catalog) : Catalog := (run_migrations room c).2.

(** The files an interrupted open of a release leaves, if they are not half migrated. *)
Definition sound_files : list Catalog := Eval vm_compute in
  remove_dups (List.filter (fun c => negb (half_migrated c)) (starts ≫= fun c => map (fun k => after k c) (seq 0 13))).

Definition is_sound (c : Catalog) : bool := existsb (fun c' => bool_decide (c = c')) sound_files.

Lemma is_sound_in c : is_sound c = true <-> c ∈ sound_files.
Proof.
  unfold is_sound. rewrite existsb_exists. split.
  - intros (c' & Hin & ->%bool_decide_eq_true). by apply list_elem_of_In.
  - intros Hin. exists c. split; [by apply list_elem_of_In|by apply bool_decide_eq_true].
Qed.

Lemma sound_closed :
  forallb (fun c => forallb (fun k => half_migrated (after k c) || is_sound (after k c)) (seq 0 13)) sound_files = true.
Proof. vm_compute. reflexivity. Qed.

(** Another uninterrupted open brings the file to the current schema. *)
Definition completes (c : Catalog) : bool :=
  match run_migrations all_of_them c with (NOk _, c') => bool_decide (c' = release 5) | _ => false end.

Lemma sound_complete : forallb completes sound_files = true.
Proof. vm_compute. reflexivity. Qed.

Lemma starts_sound : forallb is_sound starts = true.
Proof. vm_compute. reflexivity. Qed.

Lemma sound_after room c : is_sound c = true -> half_migrated (after room c) = true \/ is_sound (after room c) = true.
Proof.
  intros Hs%is_sound_in. unfold after. rewrite run_capped. apply orb_true_iff.
  pose proof sound_closed as K. rewrite forallb_forall in K. specialize (K c). rewrite forallb_forall in K.
  apply K; [by apply list_elem_of_In|]. apply in_seq. unfold all_of_them. lia.
Qed.

(** The database is opened again and again, interrupted after any number of statements. *)
Definition opened (rooms : list nat) (c : Catalog) : Catalog := foldl (fun c room => after room c) c rooms.

Lemma opened_sound rooms : forall c,
  half_migrated c = true \/ is_sound c = true ->
  half_migrated (opened rooms c) = true \/ is_sound (opened rooms c) = true.
Proof.
  induction rooms as [|room rooms IH]; intros c Hc; [done|]. apply IH.
  destruct Hc as [Hh|Hs]; [left; by apply half_migrated_stuck|by apply sound_after].
Qed.

(** ** Properties *)

(** C37: the database of a fresh install or of any earlier release, opened any
    number of times and interrupted after any statement, is brought to the
    current schema by the next open that is not interrupted, unless an open
    stopped between the statement that adds [peer_listen_addr] and the one that
    records the version: then that open and every later one fail, for good. *)
Theorem migration_recovers c rooms room (Hc : c ∈ starts) (Hr : (all_of_them <= room)%nat) :
  (half_migrated (opened rooms c) = false -> run_migrations room (opened rooms c) = (NOk tt, release 5)) /\
  (half_migrated (opened rooms c) = true ->
     forall rooms' room', exists e, (run_migrations room' (opened rooms' (opened rooms c))).1 = NErr e).
Proof.
  assert (half_migrated (opened rooms c) = true \/ is_sound (opened rooms c) = true) as K.
  { apply opened_sound. right. pose proof starts_sound as S. rewrite forallb_forall in S. by apply S, list_elem_of_In. }
  split; intros Hh.
  - destruct K as [?|Hs]; [congruence|]. rewrite run_enough by done.
    pose proof sound_complete as C. rewrite forallb_forall in C. apply is_sound_in, list_elem_of_In, C in Hs.
    unfold completes in Hs. destruct (run_migrations _ _) as [[[]|e] c']; [|done].
    by apply bool_decide_eq_true in Hs as ->.
  - clear K. generalize (opened rooms c) Hh. clear. intros c Hh rooms. revert c Hh.
    induction rooms as [|k rooms IH]; intros c Hh room; [by apply half_migrated_stuck|].
    apply IH. by apply half_migrated_stuck.
Qed.

Module MigrationExamples.

Lemma migration_recovers_witness :
  run_migrations 40 (opened [2; 0; 1]%nat (release 2)) = (NOk tt, release 5).
Proof.
  assert (release 2 ∈ starts) as Hin by (right; right; left).
  destruct (migration_recovers (release 2) [2; 0; 1]%nat 40 Hin) as [K _]; [unfold all_of_them; lia|].
  apply K. vm_compute. reflexivity.
Defined.

(** A first start that is cut off after its tenth statement. *)
Example cut_off_for_good : half_migrated (opened [10]%nat empty_file) = true.
Proof. vm_compute. reflexivity. Qed.

Example cut_off_error : (run_migrations 40 (opened [10]%nat empty_file)).1 = NErr (Sqlite "duplicate column name: {}").
Proof. vm_compute. reflexivity. Qed.

End MigrationExamples.
