(* ===== verification/ReplayJournal.v ===== *)
(** The durable replay journal ([sidevers-net/src/replay_journal.rs]) and how
    a node starts from it ([Node::start] in [node.rs]).

    The table [replay_journal] is a finite map from its primary key, the pair
    [("from", nonce)], to [first_seen], a signed 64-bit column.  A statement
    that fails leaves the rows as they were; the arguments [.._ok] and
    [failure] say which statements do.  The order in which SQLite returns rows
    is not specified: it is that of [hiter].  A poisoned mutex, which needs a
    panic in an earlier call, is not modelled. *)

From S2P Require Import Prelude Keys Envelope Containers Replay SideStore Session.
From stdpp Require Import sorting.

Open Scope N_scope.

(** [type ReplayJournalEntry = (from, nonce, first_seen)] *)
Definition ReplayJournalEntry : Type := bytes * bytes * N.

(** The rows of the journal's connection. *)
Record SqliteReplayJournal := { rows : gmap Key Z }.

(** [CREATE TABLE IF NOT EXISTS replay_journal] on a new file. *)
Definition empty_journal : SqliteReplayJournal := {| rows := ∅ |}.

(** ** [impl ReplayJournal for SqliteReplayJournal] *)

(** [INSERT OR REPLACE INTO replay_journal .. VALUES (?1, ?2, ?3)] *)
Definition record (ok : bool) (from nonce : bytes) (first_seen : N) (j : SqliteReplayJournal)
    : SqliteReplayJournal :=
  if ok then {| rows := <[mk_key from nonce := as_i64 first_seen]> (rows j) |} else j.

(** [DELETE FROM replay_journal WHERE "from" = ?1 AND nonce = ?2] *)
Definition evict (ok : bool) (from nonce : bytes) (j : SqliteReplayJournal) : SqliteReplayJournal :=
  if ok then {| rows := delete (mk_key from nonce) (rows j) |} else j.

(** The calls a cache made to the journal attached to it, in their order;
    [oks i] says whether the statement of call [i] succeeds. *)
Definition sql_call (ok : bool) (call : JournalCall) (j : SqliteReplayJournal) : SqliteReplayJournal :=
  match call with
  | JRecord (from, nonce) first_seen => record ok from nonce first_seen j
  | JEvict (from, nonce) => evict ok from nonce j
  end.

Fixpoint sql_calls (oks : nat -> bool) (calls : list JournalCall) (j : SqliteReplayJournal)
    : SqliteReplayJournal :=
  match calls with
  | [] => j
  | call :: calls' => sql_calls (fun i => oks (S i)) calls' (sql_call (oks O) call j)
  end.

Definition all_ok : nat -> bool := fun _ => true.

(** ** [load_active] and the start of a node *)

Section Start.
Context `{HashIter}.

(** The loop over the rows the [SELECT] returned. *)
Definition read_row (row : Key * Z) : option ReplayJournalEntry :=
  let '((from_bytes, nonce_bytes), first_seen) := row in
  if negb (blen from_bytes =? PUBLIC_KEY_LEN) || negb (blen nonce_bytes =? NONCE_LEN) then None
  else Some (from_bytes, nonce_bytes, as_u64 first_seen).

(** [delete_ok]: the [DELETE] succeeds; [failure]: the error of the [SELECT]. *)
Definition load_active (delete_ok : bool) (failure : option string) (now_ts_secs ttl_secs : N)
    (j : SqliteReplayJournal) : SqliteReplayJournal * nresult (list ReplayJournalEntry) :=
  let cutoff := now_ts_secs - ttl_secs in
  let j :=
    if delete_ok then
      {| rows := retain (fun _ first_seen => negb (Z.ltb first_seen (as_i64 cutoff))) (rows j) |}
    else j in
  match failure with
  | Some message => (j, NErr (Sqlite message))
  | None => (j, NOk (omap read_row (hiter (rows j))))
  end.

(** The replay cache of [Node::start]: load, preload, attach. *)
Definition start_cache (delete_ok : bool) (failure : option string) (now : N) (j : SqliteReplayJournal)
    : SqliteReplayJournal * ReplayCache :=
  let '(j, loaded) := load_active delete_ok failure now DEFAULT_TTL_SECS j in
  let preload_entries := match loaded with NOk l => l | NErr _ => [] end in
  (j, set_journal (preload now preload_entries Replay.new)).

(** One life of a node: it starts at [now], its cache runs [ops], and it
    stops.  What is left are the rows; the cache is the one it had at the end. *)
Definition live_through (now : N) (ops : list op) (j : SqliteReplayJournal)
    : SqliteReplayJournal * ReplayCache :=
  let '(j, c) := start_cache true None now j in
  let c := run_ops ops c in
  (sql_calls all_ok (default [] (journal c)) j, c).

(** The rows after several lives, each with the time it started at. *)
Definition after_lives (lives : list (N * list op)) (j : SqliteReplayJournal) : SqliteReplayJournal :=
  fold_left (fun j life => (live_through (fst life) (snd life) j).1) lives j.

End Start.

(** ** Lemmas *)

(** A [first_seen] the signed column keeps in order: before the year 292 billion. *)
Definition wf_seen (t : N) : Prop := t < 2 ^ 63.

Definition wf_key (k : Key) : Prop := blen (fst k) = PUBLIC_KEY_LEN /\ blen (snd k) = NONCE_LEN.

Definition wf_op (o : op) : Prop :=
  match o with
  | OObserve now from nonce => wf_seen now /\ wf_key (from, nonce)
  | OSweep _ => True
  end.

Definition wf_call (call : JournalCall) : Prop :=
  match call with JRecord k t => wf_key k /\ wf_seen t | JEvict _ => True end.

(** The rows as the cache would read them. *)
Definition seen (j : SqliteReplayJournal) : gmap Key N := as_u64 <$> rows j.

Definition wf_journal (j : SqliteReplayJournal) : Prop :=
  forall k z, rows j !! k = Some z -> wf_key k /\ exists t, wf_seen t /\ z = Z.of_N t.

Lemma as_i64_seen t : wf_seen t -> as_i64 t = Z.of_N t.
Proof. unfold wf_seen, as_i64. intros Ht. cbv zeta. rewrite (proj2 (Z.ltb_lt _ _)) by lia. done. Qed.

Lemma as_u64_seen t : wf_seen t -> as_u64 (Z.of_N t) = t.
Proof. intros Ht. rewrite <-as_i64_seen by done. apply as_u64_as_i64. unfold wf_seen, u64_size in *. lia. Qed.

Lemma sql_call_seen call j : wf_call call -> seen (sql_call true call j) = apply_call (seen j) call.
Proof.
  destruct call as [[f n] t|[f n]]; intros Hc; unfold seen; cbn.
  - rewrite fmap_insert, as_i64_seen, as_u64_seen by apply Hc. done.
  - by rewrite fmap_delete.
Qed.

Lemma sql_call_wf call j : wf_call call -> wf_journal j -> wf_journal (sql_call true call j).
Proof.
  intros Hc Hj k z. destruct call as [[f n] t|[f n]]; cbn.
  - intros [[<- <-]|[_ Hk]]%lookup_insert_Some; [|by apply Hj].
    destruct Hc as [Hk Ht]. split; [done|]. exists t. by rewrite as_i64_seen.
  - intros [_ Hk]%lookup_delete_Some. by apply Hj.
Qed.

Lemma sql_calls_seen calls : forall j, Forall wf_call calls -> wf_journal j ->
  seen (sql_calls all_ok calls j) = apply_calls (seen j) calls /\ wf_journal (sql_calls all_ok calls j).
Proof.
  induction calls as [|call calls IH]; intros j Hc Hj; [done|].
  inversion Hc; subst. cbn [sql_calls]. change (all_ok 0) with true.
  change (fun i => all_ok (S i)) with all_ok.
  destruct (IH (sql_call true call j)) as [E ?]; [done|by apply sql_call_wf|].
  split; [|done]. rewrite E, sql_call_seen by done. done.
Qed.

(** The calls a cache makes are those of its observations. *)
Definition calls_ok (c : ReplayCache) : Prop := Forall wf_call (default [] (journal c)).

Lemma calls_ok_add calls c e :
  calls_ok c -> Forall wf_call calls -> calls_ok (journal_calls calls (with_entries e c)).
Proof.
  unfold calls_ok. cbn. destruct (journal c); cbn; [|done]. intros. by apply Forall_app.
Qed.

Section Calls.
Context `{HashIter}.

Lemma calls_ok_sweep now c : calls_ok c -> calls_ok (sweep now c).
Proof.
  intros Hc. apply calls_ok_add; [done|]. apply Forall_forall. intros call (kv & -> & _)%list_elem_of_fmap.
  done.
Qed.

Lemma calls_ok_make_room c : calls_ok c -> calls_ok (make_room c).
Proof.
  intros Hc. unfold make_room. case_bool; [|done]. destruct (find_oldest_in (entries c)); [|done].
  apply calls_ok_add; [done|]. by repeat constructor.
Qed.

Lemma calls_ok_run c o : wf_op o -> calls_ok c -> calls_ok (run_op c o).
Proof.
  intros Ho Hc. destruct o as [now from nonce|now]; cbn [run_op]; [|by apply calls_ok_sweep].
  destruct (live c now !! mk_key from nonce) eqn:E.
  - rewrite observe_hit by eauto. by apply calls_ok_sweep.
  - rewrite observe_miss by done. cbn [snd]. destruct Ho.
    apply calls_ok_add; [by apply calls_ok_make_room, calls_ok_sweep|]. by constructor.
Qed.

Lemma calls_ok_runs ops : forall c, Forall wf_op ops -> calls_ok c -> calls_ok (run_ops ops c).
Proof.
  induction ops as [|o ops IH]; intros c Ho Hc; [done|]. inversion Ho; subst.
  apply IH; [done|]. by apply calls_ok_run.
Qed.

End Calls.

Lemma observe_replayed `{HashIter} t from nonce c :
  (observe t from nonce c).1 = true <-> exists t0, entries c !! (from, nonce) = Some t0 /\ t - t0 < ttl c.
Proof.
  setoid_rewrite <-live_lookup. destruct (live c t !! mk_key from nonce) eqn:E.
  - rewrite observe_hit by eauto. split; [eauto|done].
  - rewrite observe_miss by done. split; [done|]. intros (t0 & Ht). unfold mk_key in *. congruence.
Qed.

(** What fits a fresh cache. *)
Definition recent (now : N) (j : SqliteReplayJournal) : gmap Key N :=
  retain (fun _ t => now - DEFAULT_TTL_SECS <=? t) (seen j).

Definition room (j : SqliteReplayJournal) (now : N) : Prop :=
  N.of_nat (size (recent now j)) <= DEFAULT_MAX_ENTRIES.

Section Restart.
Context `{HashIterLaws}.

Lemma omap_read_row l :
  (forall row, row ∈ l -> wf_key (fst row)) -> omap read_row l = map (fun row => (fst row, as_u64 (snd row))) l.
Proof.
  induction l as [|[[f n] z] l IH]; intros Hl; [done|]. cbn [omap list_omap map fst snd read_row].
  destruct (Hl (f, n, z)) as [Hf Hn]; [by left|]. cbn [fst snd] in *. rewrite Hf, Hn, !N.eqb_refl. cbn.
  f_equal. apply IH. intros row Hr. apply Hl. by right.
Qed.

Lemma load_exact now j (J : wf_journal j) (T : wf_seen now) :
  exists j' l, load_active true None now DEFAULT_TTL_SECS j = (j', NOk l) /\
    wf_journal j' /\ seen j' = recent now j /\ NoDup (map fst l) /\
    length l = size (recent now j) /\ forall k t, (k, t) ∈ l <-> recent now j !! k = Some t.
Proof.
  unfold load_active. set (j' := Build_SqliteReplayJournal _). eexists j', _. split; [done|].
  assert (wf_journal j') as J' by (intros k z [Hz _]%retain_lookup; by apply J).
  assert (seen j' = recent now j) as E.
  { apply map_eq. intros k. apply option_eq. intros t. unfold recent, seen. cbn.
    rewrite retain_lookup, !lookup_fmap, !fmap_Some. setoid_rewrite retain_lookup. split.
    - intros (z & [Hz Hc] & ->). split; [eauto|]. destruct (J _ _ Hz) as (_ & t & Ht & ->).
      rewrite as_u64_seen by done. rewrite as_i64_seen in Hc by (unfold wf_seen in *; lia).
      apply negb_true_iff, Z.ltb_ge in Hc. apply N.leb_le. lia.
    - intros ((z & Hz & ->) & Hc). exists z. split; [|done]. split; [done|].
      destruct (J _ _ Hz) as (_ & t & Ht & ->). rewrite as_u64_seen in Hc by done.
      rewrite as_i64_seen by (unfold wf_seen in *; lia). apply N.leb_le in Hc.
      apply negb_true_iff, Z.ltb_ge. lia. }
  assert (forall row, row ∈ hiter (rows j') -> wf_key (fst row)) as Hw.
  { intros [k z] Hr%elem_of_hiter. by apply (J' k z). }
  rewrite (omap_read_row _ Hw). split_and!; [done|done| | |].
  - rewrite map_map. cbn. apply hiter_NoDup.
  - rewrite length_map, length_hiter, <-E. unfold seen. by rewrite map_size_fmap.
  - intros k t. rewrite <-E. unfold seen. rewrite lookup_fmap, fmap_Some. split.
    + intros ([k' z] & [= -> ->] & Hr%elem_of_hiter)%list_elem_of_fmap. eauto.
    + intros (z & Hz & ->). apply list_elem_of_fmap. exists (k, z). split; [done|]. by apply elem_of_hiter.
Qed.

Lemma trim_id fuel mx m : N.of_nat (size m) <= mx -> trim fuel mx m = m.
Proof. intros Hs. destruct fuel; cbn [trim]; [done|]. by rewrite (proj2 (N.ltb_ge _ _)). Qed.

(** A start whose rows fit takes exactly the pairs that are still alive. *)
Lemma start_exact now j (J : wf_journal j) (T : wf_seen now) (R : room j now) :
  let '(j', c) := start_cache true None now j in
  wf_journal j' /\ seen j' = recent now j /\ journal c = Some [] /\
  ttl c = DEFAULT_TTL_SECS /\ max_entries c = DEFAULT_MAX_ENTRIES /\
  entries c = retain (fun _ t => alive DEFAULT_TTL_SECS now t) (seen j).
Proof.
  unfold start_cache. destruct (load_exact now j J T) as (j' & l & -> & J' & E & Hnd & Hl & Hin).
  split_and!; try done. cbn [set_journal preload with_entries entries ttl max_entries Replay.new with_ttl with_capacity].
  destruct (preload_loop DEFAULT_TTL_SECS now l ∅ Hnd) as [Hk Hs]; [intros; apply lookup_empty|].
  assert (size (fold_left (preload_insert DEFAULT_TTL_SECS now) l ∅) <= size (recent now j))%nat as Hsz
    by (rewrite <-Hl; exact Hs).
  rewrite trim_id; [|unfold room, DEFAULT_MAX_ENTRIES in *; lia].
  apply map_eq. intros k. apply option_eq. intros t. rewrite Hk, retain_lookup, Hin, lookup_empty.
  unfold recent, alive. rewrite retain_lookup, N.ltb_lt, N.leb_le. split; [|intros [? ?]; left].
  - intros [[[? ?] ?]|?]; done.
  - split_and!; [done|lia|done].
Qed.

(** A running node and its rows: the cache is in the table, and what only the
    table has was too old when the node started. *)
Record synced (start : N) (j : SqliteReplayJournal) (c : ReplayCache) : Prop := {
  sy_wf : wf_journal j;
  sy_bounded : bounded c;
  sy_ttl : ttl c = DEFAULT_TTL_SECS;
  sy_max : max_entries c = DEFAULT_MAX_ENTRIES;
  sy_in : forall k t, entries c !! k = Some t -> seen j !! k = Some t;
  sy_old : forall k t, seen j !! k = Some t -> entries c !! k = Some t \/ t + DEFAULT_TTL_SECS <= start
}.

Lemma apply_call_lookup m call k :
  apply_call m call !! k =
  match call with
  | JRecord k' t => if decide (k' = k) then Some t else m !! k
  | JEvict k' => if decide (k' = k) then None else m !! k
  end.
Proof.
  destruct call as [k' t|k']; cbn; case_decide; subst;
    by rewrite ?lookup_insert_eq, ?lookup_insert_ne, ?lookup_delete_eq, ?lookup_delete_ne.
Qed.

(** The same calls keep two tables as close as they were. *)
Lemma apply_calls_close (P : N -> Prop) calls : forall m1 m2 : gmap Key N,
  (forall k t, m1 !! k = Some t -> m2 !! k = Some t) ->
  (forall k t, m2 !! k = Some t -> m1 !! k = Some t \/ P t) ->
  (forall k t, apply_calls m1 calls !! k = Some t -> apply_calls m2 calls !! k = Some t) /\
  (forall k t, apply_calls m2 calls !! k = Some t -> apply_calls m1 calls !! k = Some t \/ P t).
Proof.
  induction calls as [|call calls IH]; intros m1 m2 H1 H2; [done|].
  apply IH; intros k t; rewrite !apply_call_lookup; destruct call; case_decide; eauto.
Qed.

Lemma recent_bound start now2 j c :
  synced start j c -> start < now2 -> room j now2.
Proof.
  intros S Hn. unfold room.
  assert (recent now2 j ⊆ entries c) as Hsub.
  { apply map_subseteq_spec. intros k t [Hk Ht]%retain_lookup. apply N.leb_le in Ht.
    destruct (sy_old _ _ _ S k t Hk) as [?|Ho]; [done|]. unfold DEFAULT_TTL_SECS in *. lia. }
  apply map_subseteq_size in Hsub. destruct (sy_bounded _ _ _ S) as [_ Hb].
  rewrite (sy_max _ _ _ S) in Hb. unfold len in Hb. lia.
Qed.

Lemma start_synced now j (J : wf_journal j) (T : wf_seen now) (R : room j now) :
  let '(j', c) := start_cache true None now j in synced now j' c /\ journal c = Some [].
Proof.
  pose proof (start_exact now j J T R) as H1.
  destruct (start_cache true None now j) as [j' c] eqn:Es.
  destruct H1 as (J' & E & Hj & Ht & Hm & He). split; [|done]. constructor; try done.
  - unfold start_cache in Es. destruct (load_active _ _ _ _ _) as [j1 l]. injection Es as _ <-.
    apply (preload_bounded now _ Replay.new). by split; vm_compute.
  - intros k t. rewrite He, E. unfold recent, alive. rewrite !retain_lookup, N.ltb_lt, N.leb_le.
    unfold DEFAULT_TTL_SECS. intros [? ?]. split; [done|lia].
  - intros k t. rewrite He, E. unfold recent, alive. rewrite !retain_lookup, N.ltb_lt, N.leb_le.
    unfold DEFAULT_TTL_SECS. intros [? ?]. destruct (decide (now - t < 600)); [left; done|right; lia].
Qed.

Lemma run_op_bounded o c : bounded c -> bounded (run_op c o) /\
  ttl (run_op c o) = ttl c /\ max_entries (run_op c o) = max_entries c.
Proof.
  intros Hb. destruct o as [now from nonce|now]; cbn [run_op].
  - split; [by apply observe_bounded|]. apply observe_fields.
  - split; [by apply sweep_bounded|done].
Qed.

Lemma run_ops_bounded ops : forall c, bounded c -> bounded (run_ops ops c) /\
  ttl (run_ops ops c) = ttl c /\ max_entries (run_ops ops c) = max_entries c.
Proof.
  induction ops as [|o ops IH]; intros c Hb; [done|]. cbn [run_ops fold_left].
  destruct (run_op_bounded o c Hb) as (Hb' & Ht & Hm). destruct (IH _ Hb') as (? & Ht' & Hm').
  unfold run_ops in *. by rewrite Ht', Hm'.
Qed.

Lemma in_sync_runs ops m0 : forall c, in_sync m0 c -> in_sync m0 (run_ops ops c).
Proof. induction ops as [|o ops IH]; intros c Hc; [done|]. by apply IH, in_sync_op. Qed.

(** A life keeps the rows and the cache together. *)
Lemma live_through_synced now ops j
    (J : wf_journal j) (T : wf_seen now) (R : room j now) (O : Forall wf_op ops) :
  let '(j', c) := live_through now ops j in synced now j' c.
Proof.
  unfold live_through. pose proof (start_synced now j J T R) as Hs.
  destruct (start_cache true None now j) as [j1 c1]. destruct Hs as [S Hj].
  assert (in_sync (entries c1) (run_ops ops c1)) as (calls & Hc & He)
    by (apply in_sync_runs; by exists []).
  assert (calls_ok (run_ops ops c1)) as Hok.
  { apply calls_ok_runs; [done|]. unfold calls_ok. rewrite Hj. constructor. }
  unfold calls_ok in Hok. rewrite Hc in *. cbn [default from_option id] in *.
  destruct (sql_calls_seen calls j1 Hok (sy_wf _ _ _ S)) as [E J'].
  destruct (run_ops_bounded ops c1 (sy_bounded _ _ _ S)) as (Hb & Ht & Hm).
  destruct (apply_calls_close (fun t => t + DEFAULT_TTL_SECS <= now) calls (entries c1) (seen j1)
    (sy_in _ _ _ S) (sy_old _ _ _ S)) as [H1 H2].
  rewrite He in H1, H2. constructor; try done.
  - rewrite Ht. apply S.
  - rewrite Hm. apply S.
  - by rewrite E.
  - by rewrite E.
Qed.

Lemma after_lives_room lives ts : forall j,
  StronglySorted N.lt (map fst lives ++ ts) -> Forall wf_seen (map fst lives) ->
  Forall (fun life => Forall wf_op (snd life)) lives ->
  wf_journal j -> Forall (room j) (map fst lives ++ ts) ->
  wf_journal (after_lives lives j) /\ Forall (room (after_lives lives j)) ts.
Proof.
  induction lives as [|[now ops] lives IH]; intros j Hs Ht Ho J R; [done|].
  cbn [map fst app] in *. inversion Hs as [|? ? Hs' Hlt]; inversion Ht; inversion Ho; inversion R; subst.
  cbn [after_lives fold_left fst snd].
  pose proof (live_through_synced now ops j J) as Hl.
  destruct (live_through now ops j) as [j' c]. cbn [fst].
  specialize (Hl ltac:(done) ltac:(done) ltac:(done)).
  apply IH; try done; [apply Hl|]. eapply Forall_impl; [exact Hlt|]. cbn. intros t. by apply recent_bound with c.
Qed.

End Restart.

(** ** Properties *)

(** C27: a restart keeps the replay window.  Whatever a node did in its earlier
    lives and in this one, each starting later than the one before and with
    every statement of the journal succeeding, the cache it has after its next
    start holds exactly the pairs that were in the cache when it stopped and
    are not yet 600 seconds old; so an envelope is refused afterwards exactly
    if it was seen before and is still within its window. *)
Theorem restart_keeps_replays `{HashIterLaws} lives now ops now2
    (Hlater : StronglySorted N.lt (map fst lives ++ [now; now2]))
    (Hnow : wf_seen now2)
    (Hlives : Forall (fun life => Forall wf_op (snd life)) lives) (Hops : Forall wf_op ops) :
  let '(j, c) := live_through now ops (after_lives lives empty_journal) in
  let c2 := (start_cache true None now2 j).2 in
  entries c2 = live c now2 /\
  forall t from nonce, (observe t from nonce c2).1 = true <->
    exists t0, entries c !! (from, nonce) = Some t0 /\
      now2 - t0 < DEFAULT_TTL_SECS /\ t - t0 < DEFAULT_TTL_SECS.
Proof.
  assert (now < now2 /\ Forall (fun t => t < now2) (map fst lives)) as [Hlt Hall].
  { clear - Hlater. induction (map fst lives) as [|t ts IH]; cbn in *; inversion Hlater as [|? ? Hs Hf]; subst.
    - by inversion Hf.
    - destruct (IH Hs) as [? ?]. split; [done|]. constructor; [|done].
      rewrite Forall_app in Hf. destruct Hf as [_ Hf]. by inversion Hf as [|? ? ? Hf2]; inversion Hf2. }
  destruct (after_lives_room lives [now; now2] empty_journal) as [J R]; try done.
  { eapply Forall_impl; [exact Hall|]. unfold wf_seen in *. cbn. lia. }
  { apply Forall_forall. intros t _. unfold room, DEFAULT_MAX_ENTRIES.
    change (size (recent t empty_journal)) with O. lia. }
  inversion R as [|? ? R1 R2]; subst.
  pose proof (live_through_synced now ops _ J ltac:(unfold wf_seen in *; lia) R1 Hops) as S.
  destruct (live_through now ops (after_lives lives empty_journal)) as [j c].
  pose proof (start_exact now2 j (sy_wf _ _ _ S) Hnow (recent_bound _ _ _ _ S Hlt)) as E.
  destruct (start_cache true None now2 j) as [j2 c2]. destruct E as (_ & _ & _ & Ht & _ & E). cbn [snd].
  assert (entries c2 = live c now2) as Ec.
  { rewrite E. apply map_eq. intros k. apply option_eq. intros t. unfold live, alive.
    rewrite !retain_lookup, (sy_ttl _ _ _ S), N.ltb_lt. split; intros [Hk Hlive]; (split; [|done]).
    - destruct (sy_old _ _ _ S k t Hk) as [?|Ho]; [done|]. unfold DEFAULT_TTL_SECS in *. lia.
    - by apply (sy_in _ _ _ S). }
  split; [done|]. intros t from nonce. rewrite observe_replayed, Ht, Ec.
  setoid_rewrite live_lookup. rewrite (sy_ttl _ _ _ S). split.
  - intros (t0 & [? ?] & ?). eauto.
  - intros (t0 & ? & ? & ?). exists t0. done.
Qed.

(** ** Concrete instances *)

Module JournalExamples.
Import ToyIter.

Definition alice : bytes := replicate 32 Byte.x0a.
Definition n1 : bytes := replicate 16 Byte.x01.
Definition n2 : bytes := replicate 16 Byte.x02.
Definition first_life : N * list op := (1000, [OObserve 1001 alice n1]).

Lemma restart_keeps_replays_witness :
  let '(j, c) := live_through 1100 [OObserve 1101 alice n2] (after_lives [first_life] empty_journal) in
  let c2 := (start_cache true None 1610 j).2 in
  entries c2 = live c 1610 /\
  forall t from nonce, (observe t from nonce c2).1 = true <->
    exists t0, entries c !! (from, nonce) = Some t0 /\
      1610 - t0 < DEFAULT_TTL_SECS /\ t - t0 < DEFAULT_TTL_SECS.
Proof.
  apply restart_keeps_replays.
  - repeat constructor.
  - done.
  - by repeat constructor.
  - by repeat constructor.
Defined.

(** The journal's tests: a row is read back, a stale one is dropped, an
    evicted one is gone, and the second run refuses what the first has seen. *)
Example round_trip :
  (load_active true None 1100 600 (record true alice n1 1000 empty_journal)).2 = NOk [(alice, n1, 1000)].
Proof. vm_compute. reflexivity. Qed.

Example stale_dropped :
  (load_active true None 2000 600 (record true alice n1 1000 empty_journal)).2 = NOk [].
Proof. vm_compute. reflexivity. Qed.

Example evict_removes :
  (load_active true None 1050 600 (evict true alice n1 (record true alice n1 1000 empty_journal))).2 = NOk [].
Proof. vm_compute. reflexivity. Qed.

Example restart_refuses :
  let '(j, _) := live_through 1000 [OObserve 1000 alice n1] empty_journal in
  (observe 1150 alice n1 (start_cache true None 1100 j).2).1 = true.
Proof. vm_compute. reflexivity. Qed.

(** When the [SELECT] fails the node starts all the same, with an empty cache. *)
Example failed_load_forgets :
  let '(j, _) := live_through 1000 [OObserve 1000 alice n1] empty_journal in
  (observe 1150 alice n1 (start_cache true (Some "disk I/O error") 1100 j).2).1 = false.
Proof. vm_compute. reflexivity. Qed.

End JournalExamples.
