(* ===== verification/Inbox.v ===== *)
(** The persistent inbox of direct messages ([sidevers-net/src/inbox_store.rs]).

    The table [inbox] is a finite map from its primary key
    [("to", "from", nonce)] to its other columns; [received_at] is a signed
    64-bit column.  The order in which SQLite returns rows of equal
    [received_at] is not specified: it follows [hiter].  A poisoned mutex is
    not modelled. *)

From S2P Require Import Prelude Keys Containers SideStore Session ReplayJournal.
From stdpp Require Import sorting.

Open Scope N_scope.

Record InboxEntry := {
  to : bytes;
  from : bytes;
  nonce : bytes;
  wire_envelope : bytes;
  plaintext : bytes;
  received_at : N
}.

#[export] Instance inbox_entry_eq_dec : EqDecision InboxEntry.
Proof. solve_decision. Defined.

Definition InboxKey : Type := bytes * bytes * bytes.
Definition key (e : InboxEntry) : InboxKey := (to e, from e, nonce e).

(** The columns that are not part of the key. *)
Record InboxRow := { c_wire : bytes; c_plaintext : bytes; c_received_at : Z }.

Record InboxStore := { inbox : gmap InboxKey InboxRow }.

Definition empty_inbox : InboxStore := {| inbox := ∅ |}.

Definition row_of (e : InboxEntry) : InboxRow :=
  {| c_wire := wire_envelope e; c_plaintext := plaintext e; c_received_at := as_i64 (received_at e) |}.

(** [INSERT OR IGNORE INTO inbox ..] *)
Definition insert (ok : bool) (entry : InboxEntry) (s : InboxStore) : InboxStore :=
  if ok then {| inbox := SideStore.insert_or_ignore (key entry) (row_of entry) (inbox s) |} else s.

(** The loop of [list_for] over the rows. *)
Definition read_entry (row : InboxKey * InboxRow) : option InboxEntry :=
  let '((to_b, from_b, nonce), r) := row in
  if negb (blen to_b =? 32) || negb (blen from_b =? 32) then None
  else Some {| to := to_b; from := from_b; nonce := nonce; wire_envelope := c_wire r;
               plaintext := c_plaintext r; received_at := as_u64 (c_received_at r) |}.

(** [ORDER BY received_at DESC] *)
Definition newer (r1 r2 : InboxKey * InboxRow) : Prop :=
  Z.le (c_received_at (snd r2)) (c_received_at (snd r1)).

#[export] Instance newer_dec r1 r2 : Decision (newer r1 r2).
Proof. unfold newer. apply _. Defined.

(** [WHERE "to" = ?1] *)
Definition addressed (recipient : bytes) (row : InboxKey * InboxRow) : bool :=
  bool_decide ((fst row).1.1 = recipient).

Section Queries.
Context `{HashIter}.

Definition list_for (failure : option string) (recipient : bytes) (s : InboxStore)
    : nresult (list InboxEntry) :=
  match failure with
  | Some message => NErr (Sqlite message)
  | None => NOk (omap read_entry (merge_sort newer (List.filter (addressed recipient) (hiter (inbox s)))))
  end.

(** [SELECT COUNT( * )]; an error counts as zero. *)
Definition len (failure : option string) (s : InboxStore) : nresult N :=
  NOk (match failure with Some _ => 0 | None => N.of_nat (size (inbox s)) end).

Definition is_empty (failure : option string) (s : InboxStore) : nresult bool :=
  n ← len failure s; mret (n =? 0).

(** [DELETE FROM inbox WHERE "to" = ?1], with the number of rows it removed. *)
Definition clear_for (failure : option string) (recipient : bytes) (s : InboxStore)
    : InboxStore * nresult N :=
  match failure with
  | Some message => (s, NErr (Sqlite message))
  | None =>
    ({| inbox := retain (fun k _ => negb (bool_decide (k.1.1 = recipient))) (inbox s) |},
     NOk (N.of_nat (length (List.filter (addressed recipient) (hiter (inbox s))))))
  end.

(** Messages as they arrive, every [INSERT] succeeding. *)
Definition receive_all (es : list InboxEntry) (s : InboxStore) : InboxStore :=
  fold_left (fun s e => insert true e s) es s.

End Queries.

(** ** Lemmas *)

(** An entry as the callers build it: two public keys, a clock. *)
Definition wf_entry (e : InboxEntry) : Prop :=
  blen (to e) = 32 /\ blen (from e) = 32 /\ wf_seen (received_at e).

(** [e] is the first of [es] with its key. *)
Definition first_of (e : InboxEntry) (es : list InboxEntry) : Prop :=
  exists l1 l2, es = l1 ++ e :: l2 /\ forall e', e' ∈ l1 -> key e' <> key e.

Lemma first_of_cons e a es :
  first_of e (a :: es) <-> e = a \/ (key a <> key e /\ first_of e es).
Proof.
  split.
  - intros ([|b l1] & l2 & [= -> ->] & Hl); [by left|]. right. split; [apply Hl; by left|].
    exists l1, l2. split; [done|]. intros e' He. apply Hl. by right.
  - intros [->|[Hk (l1 & l2 & -> & Hl)]].
    + exists [], es. split; [done|]. by intros e' ?%not_elem_of_nil.
    + exists (a :: l1), l2. split; [done|]. intros e' [->|He]%elem_of_cons; [done|]. by apply Hl.
Qed.

Lemma first_of_in e es : first_of e es -> e ∈ es.
Proof. intros (l1 & l2 & -> & _). rewrite elem_of_app. right. by left. Qed.

Lemma receive_all_lookup es : forall s k r,
  inbox (receive_all es s) !! k = Some r <->
  inbox s !! k = Some r \/ (inbox s !! k = None /\ exists e, first_of e es /\ key e = k /\ row_of e = r).
Proof.
  induction es as [|a es IH]; intros s k r; cbn [receive_all fold_left].
  { split; [by left|]. intros [?|[_ (e & (l1 & l2 & Hn & _) & _)]]; [done|]. by destruct l1. }
  unfold receive_all in IH. rewrite IH. cbn [insert inbox]. unfold SideStore.insert_or_ignore.
  setoid_rewrite first_of_cons.
  destruct (decide (key a = k)) as [<-|Hk].
  - destruct (inbox s !! key a) as [r'|] eqn:E.
    + rewrite E. split; [intros [?|[? _]]; [by left|done]|]. intros [?|[? _]]; [by left|done].
    + rewrite lookup_insert_eq. split.
      * intros [[= <-]|[? _]]; [|done]. right. eauto 6.
      * intros [?|[_ (e & [->|[Hn _]] & He & Hr)]]; [done| |by destruct Hn]. left. congruence.
  - assert ((match inbox s !! key a with Some _ => inbox s | None => <[key a := row_of a]> (inbox s) end) !! k
      = inbox s !! k) as -> by (destruct (inbox s !! key a); [done|by rewrite lookup_insert_ne]).
    split.
    + intros [?|[? (e & ? & <- & ?)]]; [by left|]. right. split; [done|]. exists e. eauto.
    + intros [?|[? (e & [->|[_ ?]] & He & ?)]]; [by left|done|]. right. eauto.
Qed.

Lemma read_row_of e : wf_entry e -> read_entry (key e, row_of e) = Some e.
Proof.
  intros (Ht & Hf & Hr). cbn. rewrite Ht, Hf. cbn. rewrite as_i64_seen, as_u64_seen by done.
  by destruct e.
Qed.

#[export] Instance newer_total : Total newer.
Proof. intros r1 r2. unfold newer. lia. Qed.

#[export] Instance newer_trans : Transitive newer.
Proof. intros r1 r2 r3. unfold newer. lia. Qed.

Lemma elem_of_addressed recipient rows row :
  row ∈ List.filter (addressed recipient) rows <-> row ∈ rows /\ (fst row).1.1 = recipient.
Proof. unfold addressed. by rewrite list_elem_of_In, filter_In, <-list_elem_of_In, bool_decide_eq_true. Qed.

Section Facts.
Context `{HashIterLaws}.

(** The rows of [receive_all] are the entries that came first. *)
Lemma received_rows es row :
  row ∈ hiter (inbox (receive_all es empty_inbox)) <->
  exists e, first_of e es /\ row = (key e, row_of e).
Proof.
  destruct row as [k r]. rewrite elem_of_hiter, receive_all_lookup. cbn [empty_inbox inbox].
  rewrite lookup_empty. split.
  - intros [?|[_ (e & ? & <- & <-)]]; [done|]. eauto.
  - intros (e & ? & [= -> ->]). right. eauto.
Qed.

(** Reading rows that were all written by [insert]. *)
Lemma read_rows (P : InboxEntry -> Prop) rows :
  (forall row, row ∈ rows -> exists e, wf_entry e /\ P e /\ row = (key e, row_of e)) ->
  rows = map (fun e => (key e, row_of e)) (omap read_entry rows) /\ Forall (fun e => wf_entry e /\ P e) (omap read_entry rows).
Proof.
  induction rows as [|row rows IH]; intros Hr; [done|].
  destruct (Hr row) as (e & We & Pe & ->); [by left|]. cbn [omap list_omap].
  rewrite (read_row_of e We). destruct IH as [E F]; [intros; apply Hr; by right|].
  cbn. split; [by f_equal|by constructor].
Qed.

Lemma map_sorted es :
  Forall wf_entry es -> Sorted newer (map (fun e => (key e, row_of e)) es) ->
  Sorted (fun e1 e2 => received_at e2 <= received_at e1) es.
Proof.
  induction es as [|e es IH]; cbn; [constructor|]. intros Hw Hs.
  inversion Hw as [|? ? We Wes]; inversion Hs as [|? ? Hs' Hh]; subst. constructor; [by apply IH|].
  destruct es as [|e2 es]; constructor. inversion Hh as [|? ? Hn]; subst. inversion Wes as [|? ? We2 _]; subst.
  unfold newer in Hn. cbn in Hn. destruct We as (_ & _ & ?), We2 as (_ & _ & ?).
  rewrite !as_i64_seen in Hn by done. lia.
Qed.

End Facts.

(** ** Properties *)

(** The inbox keeps the first of the messages with the same recipient,
    sender and nonce, and lists a recipient's messages newest first: after any
    sequence of arrivals the list has every first arrival addressed to the
    recipient, nothing else and nothing twice, in descending order of arrival
    time, whatever the order the rows come in. *)
Theorem inbox_list_exact `{HashIterLaws} es recipient (W : Forall wf_entry es) :
  exists l, list_for None recipient (receive_all es empty_inbox) = NOk l /\
    (forall e, e ∈ l <-> first_of e es /\ to e = recipient) /\
    NoDup (map key l) /\
    Sorted (fun e1 e2 => received_at e2 <= received_at e1) l.
Proof.
  unfold list_for. eexists. split; [done|].
  set (all := hiter (inbox (receive_all es empty_inbox))).
  set (rows := merge_sort newer (List.filter (addressed recipient) all)).
  assert (rows ≡ₚ List.filter (addressed recipient) all) as Hp by apply merge_sort_Permutation.
  assert (forall row, row ∈ rows <-> exists e, first_of e es /\ to e = recipient /\ row = (key e, row_of e)) as Hin.
  { intros row. rewrite Hp, elem_of_addressed. unfold all. rewrite received_rows. split.
    - intros [(e & ? & ->) ?]. eauto.
    - intros (e & ? & <- & ->). eauto. }
  rewrite Forall_forall in W.
  destruct (read_rows (fun e => first_of e es /\ to e = recipient) rows) as [E F].
  { intros row (e & Hf & Ht & ->)%Hin. exists e.
    split_and!; [|done..]. by apply W, first_of_in. }
  set (l := omap read_entry rows) in *. split_and!.
  - intros e. split.
    + intros He. rewrite Forall_forall in F. by apply F.
    + intros [Hf Ht]. apply list_elem_of_omap. exists (key e, row_of e).
      split; [apply Hin; eauto|]. apply read_row_of, W. by apply first_of_in.
  - assert (NoDup (map fst rows)) as Hnd.
    { change (map fst rows) with (fst <$> rows). rewrite Hp. apply NoDup_fst_filter, hiter_NoDup. }
    rewrite E, map_map in Hnd. exact Hnd.
  - apply map_sorted; [by eapply Forall_impl; [exact F|]; intros ? [? _]|].
    rewrite <-E. apply Sorted_merge_sort. apply _.
Qed.

(** Clearing a recipient removes that recipient's rows and reports how many
    there were; every other recipient's list has the same messages as before.
    When the statement fails nothing changes. *)
Theorem clear_for_exact `{HashIterLaws} failure recipient s :
  let '(s', n) := clear_for failure recipient s in
  match failure with
  | Some message => s' = s /\ n = NErr (Sqlite message)
  | None =>
    n = NOk (N.of_nat (size (inbox s) - size (inbox s'))) /\
    (size (inbox s') <= size (inbox s))%nat /\
    list_for None recipient s' = NOk [] /\
    forall r, r <> recipient -> exists l l', list_for None r s = NOk l /\ list_for None r s' = NOk l' /\ l ≡ₚ l'
  end.
Proof.
  unfold clear_for. destruct failure as [message|]; [done|].
  set (s' := Build_InboxStore _).
  assert (hiter (inbox s') ≡ₚ List.filter (fun row => negb (addressed recipient row)) (hiter (inbox s))) as Hp.
  { apply NoDup_Permutation.
    - apply (NoDup_fmap_1 fst), hiter_NoDup.
    - apply (NoDup_fmap_1 fst), NoDup_fst_filter, hiter_NoDup.
    - intros [k r]. rewrite elem_of_hiter, list_elem_of_In, filter_In, <-list_elem_of_In, elem_of_hiter.
      cbn [s' inbox]. by rewrite retain_lookup. }
  pose proof (Permutation_length Hp) as Hl. rewrite length_hiter in Hl.
  pose proof (List.filter_length (addressed recipient) (hiter (inbox s))) as Hc. rewrite length_hiter in Hc.
  split_and!; [f_equal; lia|lia| |].
  - unfold list_for. assert (List.filter (addressed recipient) (hiter (inbox s')) = []) as ->; [|done].
    apply elem_of_nil_inv. intros row [Hr Ha]%elem_of_addressed. rewrite Hp in Hr.
    apply list_elem_of_In, filter_In in Hr as [_ Hn]. unfold addressed in Hn.
    by rewrite bool_decide_eq_true_2 in Hn.
  - intros r Hr. unfold list_for. do 2 eexists. split; [done|]. split; [done|].
    apply omap_Permutation. rewrite !merge_sort_Permutation. apply NoDup_Permutation.
    + apply (NoDup_fmap_1 fst), NoDup_fst_filter, hiter_NoDup.
    + apply (NoDup_fmap_1 fst), NoDup_fst_filter, hiter_NoDup.
    + intros row. rewrite !elem_of_addressed, Hp, list_elem_of_In, list_elem_of_In, filter_In.
      assert (negb (addressed recipient row) = true <-> (fst row).1.1 <> recipient) as ->.
      { unfold addressed. by rewrite negb_true_iff, bool_decide_eq_false. }
      split; [intros [? <-]|intros [[? ?] ?]]; done.
Qed.

(** ** Concrete instances: the tests of the store *)

Module InboxExamples.
Import ToyIter.

Definition sample (to from nonce : Byte.byte) (ts : N) : InboxEntry :=
  {| to := replicate 32 to; from := replicate 32 from; nonce := replicate 16 nonce;
     wire_envelope := replicate 8 Byte.xab; plaintext := replicate 4 Byte.xcd; received_at := ts |}.

Definition three : list InboxEntry :=
  [sample Byte.x01 Byte.x02 Byte.x01 100; sample Byte.x01 Byte.x02 Byte.x02 200;
   sample Byte.x01 Byte.x03 Byte.x03 150].

Example insert_then_list :
  (l ← list_for None (replicate 32 Byte.x01) (receive_all three empty_inbox); mret (map received_at l))
  = NOk [200; 150; 100].
Proof. vm_compute. reflexivity. Qed.

Example insert_dedup :
  len None (receive_all [sample Byte.x01 Byte.x02 Byte.x09 100; sample Byte.x01 Byte.x02 Byte.x09 200] empty_inbox)
  = NOk 1.
Proof. vm_compute. reflexivity. Qed.

Example clear_only_target :
  let s := receive_all (three ++ [sample Byte.x07 Byte.x02 Byte.x03 300]) empty_inbox in
  let '(s', n) := clear_for None (replicate 32 Byte.x01) s in
  n = NOk 3 /\ len None s' = NOk 1 /\ is_empty None s' = NOk false.
Proof. vm_compute. done. Qed.

Lemma inbox_list_exact_witness :
  exists l, list_for None (replicate 32 Byte.x01) (receive_all three empty_inbox) = NOk l /\
    (forall e, e ∈ l <-> first_of e three /\ to e = replicate 32 Byte.x01) /\
    NoDup (map key l) /\ Sorted (fun e1 e2 => received_at e2 <= received_at e1) l.
Proof. apply inbox_list_exact. by repeat constructor. Defined.

Lemma clear_for_exact_witness :
  let s := receive_all three empty_inbox in
  let '(s', n) := clear_for None (replicate 32 Byte.x01) s in
  n = NOk (N.of_nat (size (inbox s) - size (inbox s'))) /\
  (size (inbox s') <= size (inbox s))%nat /\ list_for None (replicate 32 Byte.x01) s' = NOk [] /\
  forall r, r <> replicate 32 Byte.x01 ->
    exists l l', list_for None r s = NOk l /\ list_for None r s' = NOk l' /\ l ≡ₚ l'.
Proof. exact (clear_for_exact None (replicate 32 Byte.x01) (receive_all three empty_inbox)). Defined.

End InboxExamples.
