(* ===== verification/Client.v ===== *)
(** The client-side helpers of [sidevers-net/src/node.rs] for the gossip and
    storage servers, and what they achieve together with those servers.

    A helper is split where it waits for the peer: what it sends on a new
    stream, and what it makes of the bytes that come back on it.  Waiting for
    the peer to stop the stream ([send.stopped()]) and the publishing jitter
    delay the return and nothing else. *)

From S2P Require Import Prelude Utf8 Cbor CborCodec TextMap Keys Envelope Discovery NetTables Containers Session Connection Storage StorageProtocol Node NodeFacts.

Open Scope N_scope.

Definition ANNOUNCEMENT : N := 0x65.

(** [Error::Storage] next to the errors of the network. *)
Inductive offer_error := OfferNet (e : net_error) | OfferStorage (e : storage_error).

(** ** Gossip clients *)

Section Clients.
Context `{Crypto}.

(** [query_peers] *)
Definition query_peers_request (session : Session) (side : SideKey) (limit : N) (intent_filter : option N)
    (clock : Clock) (rnd : bytes) : nresult bytes :=
  let req := {| PeerAsk.limit := limit; PeerAsk.intent_filter := intent_filter |} in
  env ← sign_response side (peer_side session) PEER_ASK (PeerAsk.encode req) clock rnd;
  open_and_send session env.

Definition query_peers_finish (stream : bytes) : nresult (list PeerInfo.t) :=
  '(resp, _) ← recv_envelope stream;
  _ ← nensure (message_type resp =? PEER_TELL) (NetInvariant "expected PeerTell");
  tell ← core (PeerTell.decode (payload resp));
  mret (PeerTell.peers tell).

(** [request_rendezvous] *)
Definition request_rendezvous_request (session : Session) (side : SideKey) (target : bytes)
    (clock : Clock) (rnd : bytes) : nresult bytes :=
  let req := {| Rendezvous.target := target |} in
  env ← sign_response side (peer_side session) RENDEZVOUS (Rendezvous.encode req) clock rnd;
  open_and_send session env.

Definition request_rendezvous_finish (target stream : bytes) : nresult (list string) :=
  '(resp, _) ← recv_envelope stream;
  _ ← nensure (message_type resp =? RENDEZVOUS_ACK) (NetInvariant "expected RendezvousAck");
  ack ← core (RendezvousAck.decode (payload resp));
  _ ← nensure (bool_decide (RendezvousAck.target ack = target)) (NetInvariant "RendezvousAck target mismatch");
  mret (RendezvousAck.endpoints ack).

Definition submit_forward (session : Session) (side : SideKey) (recipient envelope : bytes) (ttl_secs : N)
    (clock : Clock) (rnd : bytes) : nresult bytes :=
  let req := {| ForwardStore.envelope := envelope; ForwardStore.recipient := recipient;
                ForwardStore.ttl_secs := ttl_secs |} in
  env ← sign_response side (peer_side session) FORWARD_STORE (ForwardStore.encode req) clock rnd;
  open_and_send session env.

Definition publish_broadcast (session : Session) (side : SideKey) (payload : bytes) (clock : Clock)
    (rnd : bytes) : nresult bytes :=
  now ← core (now_unix_seconds clock);
  env ← core (sign_with ANNOUNCEMENT side None payload now rnd);
  open_and_send session env.

(** On the bytes of a stream the peer opened. *)
Definition accept_one_push (session : Session) (stream : bytes) : nresult Envelope :=
  '(env, _) ← accept_one session stream;
  mret env.

(** ** Storage clients *)

Definition retract_object (session : Session) (side : SideKey) (hash : bytes) (clock : Clock) (rnd : bytes)
    : nresult bytes :=
  env ← sign_response side (peer_side session) STORAGE_RETRACT
    (StorageRetract.encode {| StorageRetract.hash := hash |}) clock rnd;
  open_and_send session env.

(** [offer_object] up to the wait for the answer. *)
Definition offer_object_request (session : Session) (side : SideKey) (reference : Reference.t)
    (clock : Clock) (rnd : bytes) : nresult bytes :=
  env ← sign_response side (peer_side session) STORAGE_OFFER
    (StorageOffer.encode {| StorageOffer.reference := reference |}) clock rnd;
  open_and_send session env.

(** [offer_object] on the answer: the further bytes it writes, its result and
    the store, whose [get] counts the access. *)
Definition offer_object_finish (session : Session) (side : SideKey) (reference : Reference.t)
    (clock : Clock) (rnd : bytes) (stream : bytes) (st : Objects.Store)
    : bytes * (bool + offer_error) * Objects.Store :=
  let h := Reference.hash reference in
  match
    ('(resp, _) ← recv_envelope stream;
     _ ← nensure (message_type resp =? STORAGE_WANT) (NetInvariant "expected StorageWant");
     want ← core (StorageWant.decode (payload resp));
     _ ← nensure (bool_decide (StorageWant.hash want = h)) (NetInvariant "StorageWant hash mismatch");
     mret (StorageWant.want want))
  with
  | NErr e => ([], inr (OfferNet e), st)
  | NOk false => ([], inl false, st)
  | NOk true =>
    let '(found, st) := Objects.get h (unix_now clock) st in
    match found with
    | SErr e => ([], inr (OfferStorage e), st)
    | SOk None => ([], inr (OfferNet (NetInvariant "offer_object: object not in local store")), st)
    | SOk (Some bs) =>
      match
        (env ← sign_response side (peer_side session) STORAGE_HAVE
           (StorageHave.encode {| StorageHave.hash := h; StorageHave.body := bs; StorageHave.final_ := true |})
           clock rnd;
         send_envelope env)
      with
      | NErr e => ([], inr (OfferNet e), st)
      | NOk w => (w, inl true, st)
      end
    end
  end.

End Clients.

(** ** Lemmas *)

Lemma decode_back {A} (enc : A -> bytes) (body : Reader A) wf `{!Codec enc body wf} a :
  wf a -> blen (enc a) < u64_size -> decode_with body (enc a) = Ok a.
Proof.
  intros W F. apply (decode_prefix enc body wf); [done|]. split; [done|]. exists []. by rewrite app_nil_r.
Qed.

Lemma decode_wf {A} (enc : A -> bytes) (body : Reader A) wf `{!Codec enc body wf} a :
  blen (enc a) < u64_size -> decode_with body (enc a) = Ok a -> wf a.
Proof. intros F E. by apply (decode_prefix enc body wf) in E as [? _]. Qed.

(** What the frame [bs] of a client is. *)
Definition frames `{Crypto} (sc : Session) (side : SideKey) (mt : N) (to : option bytes) (pl : bytes)
    (e : Envelope) (bs : bytes) : Prop :=
  bs = frame e /\ valid e /\ blen (to_wire_bytes e) <= MAX_ENVELOPE_LEN /\
  message_type e = mt /\ from e = public_bytes side /\ Envelope.to e = to /\ payload e = pl /\
  Intent.accepts (intent sc) mt = true.

Section Exchange.
Context `{Laws : CryptoLaws}.

Lemma frames_sent sc side mt to pl now n e bs :
  mt <= 0xFF -> from_option (fun b => blen b = PUBLIC_KEY_LEN) True to -> now < u64_size ->
  blen n = NONCE_LEN ->
  sign_with mt side to pl now n = Ok e -> open_and_send sc e = NOk bs -> frames sc side mt to pl e bs.
Proof using Laws.
  intros Hm Hto Hts Hn Hs Hb. unfold open_and_send in Hb.
  apply nresult_bind_ok in Hb as (u & Ha%nensure_ok & Hb). injection Hs as <-. cbn [message_type] in Ha.
  match type of Hb with send_envelope ?x = _ => set (e := x) in * end.
  destruct (N.ltb_spec MAX_ENVELOPE_LEN (blen (to_wire_bytes e))) as [Hl|Hl].
  - unfold send_envelope in Hb. by rewrite (proj2 (N.ltb_lt _ _)) in Hb.
  - rewrite send_envelope_frame in Hb by done. injection Hb as <-.
    assert (blen pl <= blen (to_wire_bytes e)) as Hp by exact (blen_payload_le e). split; [done|]. split; [|split_and!; done].
    split; [|split; [done|apply signed_by_sign]].
    unfold wf_envelope, wf_bytes. cbn [payload version message_type from Envelope.to timestamp nonce sig e].
    split_and!; try done; [apply ed_sign_length|apply ed_public_length|].
    unfold MAX_ENVELOPE_LEN, u64_size in *. lia.
Qed.

(** The helpers that go through [sign_response]. *)
Lemma frames_response sc side mt pl now n bs :
  mt <= 0xFF -> blen (peer_side sc) = PUBLIC_KEY_LEN -> now < u64_size -> blen n = NONCE_LEN ->
  (env ← sign_response side (peer_side sc) mt pl (Some now) n; open_and_send sc env) = NOk bs ->
  exists e, frames sc side mt (Some (peer_side sc)) pl e bs.
Proof using Laws.
  intros Hm Hp Hts Hn (e & Hs & Hb)%nresult_bind_ok. exists e.
  unfold sign_response in Hs. apply nresult_bind_ok in Hs as (t & [= <-]%core_ok & Hs%core_ok).
  by eapply frames_sent.
Qed.

(** A session of the same intent takes the envelope off its stream. *)
Lemma frames_accept sc ss side mt to pl e bs rest :
  frames sc side mt to pl e bs -> intent ss = intent sc -> accept_one ss (bs ++ rest) = NOk (e, rest).
Proof using.
  intros (-> & Hv & Hl & Ht & _ & _ & _ & Ha) Hi. apply accept_frame; [done|done|]. by rewrite Hi, Ht.
Qed.

Lemma frames_payload_fits sc side mt to pl e bs : frames sc side mt to pl e bs -> blen pl < u64_size.
Proof using.
  intros (_ & _ & Hl & _ & _ & _ & <- & _). pose proof (blen_payload_le e).
  unfold MAX_ENVELOPE_LEN, u64_size in *. lia.
Qed.

(** A response that fits an envelope is written and read back. *)
Lemma respond_read side peer mt pl now n s :
  mt <= 0xFF -> blen peer = PUBLIC_KEY_LEN -> now < u64_size -> blen n = NONCE_LEN -> blen pl <= 65236 ->
  exists w r, respond (sign_response side peer mt pl (Some now) n) s = ([Write w], s, NOk tt) /\
    recv_envelope w = NOk (r, []) /\ message_type r = mt /\ payload r = pl /\ from r = public_bytes side.
Proof using Laws.
  intros. destruct (sign_response_ok side peer mt pl now n) as (r & Hr & Hv & Hl & Ht & Hp & Hf); [done..|].
  exists (frame r), r. split.
  - unfold respond. rewrite Hr. cbn [mbind nresult_bind]. by rewrite send_envelope_frame.
  - split; [|done]. rewrite <-(app_nil_r (frame r)). by apply recv_envelope_ok.
Qed.

End Exchange.

Section Served.
Context `{HashIter, Laws : CryptoLaws}.

(** The step of a server on the frame of a client. *)
Lemma serve_frame handle sc ss side mt to pl e bs rest clock n s :
  frames sc side mt to pl e bs -> intent ss = intent sc -> gates_pass ss clock bs s ->
  let s1 := (admit_envelope clock e s).2 in
  serve_step handle ss clock n (bs ++ rest) s = handle clock n e rest s1 /\ same_tables s s1.
Proof using.
  intros Hf Hi Hg. cbv zeta. split; [|apply admit_tables].
  pose proof (serve_step_inv handle ss clock n (bs ++ rest) s) as E.
  rewrite (frames_accept _ _ _ _ _ _ _ _ rest Hf Hi) in E. rewrite E, (Hg e []); [done|].
  rewrite <-(app_nil_r bs). by apply (frames_accept _ _ _ _ _ _ _ _ [] Hf).
Qed.

End Served.

(** ** Discovery *)

(** Asking a broker for peers: the bytes [query_peers] sends, once admitted,
    are answered with the freshest peers of the wanted intent, at most as many
    as asked for and at most 256, and [query_peers] returns exactly these, if
    the list fits an envelope. *)
Theorem peers_served `{HashIter, CryptoLaws} sc ss a limit want t1 n1 t2 n2 bs s
    (Ic : intent sc = Intent.Gossip) (Is : intent ss = Intent.Gossip)
    (Hp : blen (peer_side sc) = PUBLIC_KEY_LEN)
    (T1 : t1 < u64_size) (N1 : blen n1 = NONCE_LEN) (T2 : t2 < u64_size) (N2 : blen n2 = NONCE_LEN)
    (L : limit < u64_size) (I : from_option (fun i => i <= 0xFF) True want)
    (Q : query_peers_request sc a limit want (Some t1) n1 = NOk bs)
    (A : gates_pass ss (Some t2) bs s) :
  let found := Peers.sample (N.min limit 256) want (peers s) in
  PeerTell.wf {| PeerTell.peers := found |} ->
  blen (PeerTell.encode {| PeerTell.peers := found |}) <= 65236 ->
  exists w s', serve_gossip_step ss (Some t2) n2 bs s = ([Write w], s', NOk tt) /\
    peers s' = peers s /\ query_peers_finish w = NOk found.
Proof.
  intros found W F. unfold query_peers_request in Q.
  apply frames_response in Q as (e & Hf); try done.
  destruct (serve_frame (fun clock nonce env _ s => handle_gossip (peer_side ss) clock nonce env s)
    sc ss a PEER_ASK _ _ e bs [] (Some t2) n2 s Hf) as [E S]; [congruence|done|].
  rewrite app_nil_r in E. unfold serve_gossip_step. rewrite E. clear E.
  set (s1 := (admit_envelope (Some t2) e s).2) in *.
  pose proof (frames_payload_fits _ _ _ _ _ _ _ Hf) as Hpl.
  destruct Hf as (_ & _ & _ & Ht & Hfrom & _ & Hpay & _).
  unfold handle_gossip. rewrite Ht, Hpay. cbn [N.eqb Pos.eqb PEER_ASK].
  unfold PeerAsk.decode. rewrite (decode_back PeerAsk.encode PeerAsk.fields PeerAsk.wf) by done.
  cbn [PeerAsk.limit PeerAsk.intent_filter]. rewrite (same_peers _ _ S). fold found.
  destruct (respond_read (side s1) (from e) PEER_TELL (PeerTell.encode {| PeerTell.peers := found |}) t2 n2 s1)
    as (w & r & -> & Hr & Hrt & Hrp & _); [done|rewrite Hfrom; apply ed_public_length|done..|].
  exists w, s1. split; [done|]. split; [apply S|]. unfold query_peers_finish. rewrite Hr.
  cbn [mbind nresult_bind]. rewrite Hrt, Hrp. cbn [N.eqb Pos.eqb PEER_TELL nensure].
  unfold PeerTell.decode. rewrite (decode_back PeerTell.encode PeerTell.fields PeerTell.wf); [done|done|].
  unfold u64_size. lia.
Qed.

(** Asking a broker for the endpoints of a peer gives the endpoints of the
    broker's table, and none if it does not know the peer. *)
Theorem rendezvous_served `{HashIter, CryptoLaws} sc ss a target t1 n1 t2 n2 bs s
    (Ic : intent sc = Intent.Gossip) (Is : intent ss = Intent.Gossip)
    (Hp : blen (peer_side sc) = PUBLIC_KEY_LEN)
    (T1 : t1 < u64_size) (N1 : blen n1 = NONCE_LEN) (T2 : t2 < u64_size) (N2 : blen n2 = NONCE_LEN)
    (G : blen target = 32)
    (Q : request_rendezvous_request sc a target (Some t1) n1 = NOk bs)
    (A : gates_pass ss (Some t2) bs s) :
  let found := default [] (PeerInfo.endpoints <$> Peers.get target (peers s)) in
  let ack := {| RendezvousAck.target := target; RendezvousAck.endpoints := found |} in
  wf_text_array found -> blen (RendezvousAck.encode ack) <= 65236 ->
  exists w s', serve_gossip_step ss (Some t2) n2 bs s = ([Write w], s', NOk tt) /\
    peers s' = peers s /\ request_rendezvous_finish target w = NOk found.
Proof.
  intros found ack W F. unfold request_rendezvous_request in Q.
  apply frames_response in Q as (e & Hf); try done.
  destruct (serve_frame (fun clock nonce env _ s => handle_gossip (peer_side ss) clock nonce env s)
    sc ss a RENDEZVOUS _ _ e bs [] (Some t2) n2 s Hf) as [E S]; [congruence|done|].
  rewrite app_nil_r in E. unfold serve_gossip_step. rewrite E. clear E.
  set (s1 := (admit_envelope (Some t2) e s).2) in *.
  pose proof (frames_payload_fits _ _ _ _ _ _ _ Hf) as Hpl.
  destruct Hf as (_ & _ & _ & Ht & Hfrom & _ & Hpay & _).
  unfold handle_gossip. rewrite Ht, Hpay. cbn [N.eqb Pos.eqb PEER_ASK RENDEZVOUS].
  unfold Rendezvous.decode. rewrite (decode_back Rendezvous.encode Rendezvous.fields Rendezvous.wf) by done.
  cbn [Rendezvous.target]. rewrite (same_peers _ _ S). fold found. fold ack.
  destruct (respond_read (side s1) (from e) RENDEZVOUS_ACK (RendezvousAck.encode ack) t2 n2 s1)
    as (w & r & -> & Hr & Hrt & Hrp & _); [done|rewrite Hfrom; apply ed_public_length|done..|].
  exists w, s1. split; [done|]. split; [apply S|]. unfold request_rendezvous_finish. rewrite Hr.
  cbn [mbind nresult_bind]. rewrite Hrt, Hrp. cbn [N.eqb Pos.eqb RENDEZVOUS_ACK nensure].
  unfold RendezvousAck.decode.
  rewrite (decode_back RendezvousAck.encode RendezvousAck.fields RendezvousAck.wf);
    [|done|unfold u64_size; lia].
  cbn. by rewrite bool_decide_eq_true_2.
Qed.

(** ** Store and forward *)

Section Forward.
Context `{HashIter, Crypto}.

(** [m] is held for [r]. *)
Definition held_at (r : bytes) (m : Mailbox.HeldMessage) (s : Services) : Prop :=
  m ∈ default [] (mailbox s !! r).

(** Steps that are not a delivery to [r]. *)
Definition not_delivering (r : bytes) (e : event) : Prop :=
  match e with EDeliver session _ _ _ => peer_side session <> r | _ => True end.

Lemma store_held (r : bytes) (m : Mailbox.HeldMessage) (recipient env : bytes) (now ttl : N) (b : Mailbox.Mailbox) :
  m ∈ default [] (b !! r) -> m ∈ default [] (Mailbox.store recipient env now ttl b !! r).
Proof.
  intros Hm. unfold Mailbox.store. destruct (decide (recipient = r)) as [->|Hr].
  - rewrite lookup_insert_eq. cbn. rewrite elem_of_app. by left.
  - by rewrite lookup_insert_ne.
Qed.

Lemma handle_storage_mailbox clock n env stream s :
  let s' := (handle_storage clock n env stream s).1.2 in mailbox s' = mailbox s /\ side s' = side s.
Proof.
  unfold handle_storage. destruct (_ =? STORAGE_GET).
  { unfold handle_storage_get. destruct (StorageGet.decode _) as [req|]; [|done].
    destruct (build_storage_response _ _ _ _ _ _) as [resp st]. by rewrite respond_state. }
  destruct (_ =? STORAGE_OFFER).
  { unfold handle_storage_offer. destruct (StorageOffer.decode _) as [o|]; [|done].
    destruct (mbind _ _); [|done]. destruct (Objects.has _ _); [done|]. cbn [fst snd]. unfold ingest.
    destruct (recv_envelope stream) as [[have_env r]|]; [|done].
    destruct (negb _); [done|]. destruct (StorageHave.decode _) as [have|]; [|done].
    destruct (negb _); [done|]. destruct (Objects.put _ _ _) as [addr st]. by case_bool_decide. }
  destruct (_ =? STORAGE_RETRACT); [|done].
  unfold handle_storage_retract. destruct (StorageRetract.decode _) as [r|]; [|done].
  destruct (negb _); [done|]. destruct (Provenance.drop_publisher _ _ _) as [[] t]; [done|].
  by destruct (Objects.has _ _).
Qed.

Lemma handle_gossip_held r m peer clock n env s :
  held_at r m s ->
  let s' := (handle_gossip peer clock n env s).1.2 in held_at r m s' /\ side s' = side s.
Proof.
  intros Hm. unfold handle_gossip. destruct (_ =? PEER_ASK).
  { destruct (PeerAsk.decode _); [|done]. by rewrite respond_state. }
  destruct (_ =? RENDEZVOUS).
  { destruct (Rendezvous.decode _); [|done]. by rewrite respond_state. }
  destruct (_ =? FORWARD_STORE).
  { destruct (ForwardStore.decode _); [|done]. split; [|done]. by apply store_held. }
  destruct (category _); try done. by destruct (Gossip.observe _ _ _) as [[] g].
Qed.

Lemma deliver_held_held r m session clock rng carries held : forall i s,
  held_at r m s ->
  let s' := (deliver_held session clock rng carries i held s).2 in held_at r m s' /\ side s' = side s.
Proof.
  induction held as [|msg held IH]; intros i s Hm; [done|]. cbn [deliver_held].
  assert (held_at r m (deliver_one session clock (rng i) carries msg s).2 /\
    side (deliver_one session clock (rng i) carries msg s).2 = side s) as [E1 E2].
  { unfold deliver_one. destruct (_ <=? _); [done|].
    destruct (sign_response _ _ _ _ _ _); [|by split; [apply store_held|]].
    destruct (open_and_send _ _); [|by split; [apply store_held|]].
    destruct (carries _); [done|]. by split; [apply store_held|]. }
  destruct (deliver_one session clock (rng i) carries msg s) as [out s1]. cbn [snd] in *.
  specialize (IH (S i) s1 E1). destruct (deliver_held _ _ _ _ _ _ s1). cbn [snd] in *.
  destruct IH as [? ->]. done.
Qed.

(** A step of a server keeps what its handler keeps. *)
Lemma serve_step_held r m handle session clock n stream s :
  (forall env rest s0, held_at r m s0 ->
     held_at r m (handle clock n env rest s0).1.2 /\ side (handle clock n env rest s0).1.2 = side s0) ->
  held_at r m s ->
  let s' := (serve_step handle session clock n stream s).1.2 in held_at r m s' /\ side s' = side s.
Proof.
  intros Hh Hm. pose proof (serve_step_inv handle session clock n stream s) as E.
  destruct (accept_one session stream) as [[env rest]|]; rewrite E; [|done].
  pose proof (admit_tables clock env s) as S. destruct (admit_envelope clock env s) as [ok s1].
  cbn [fst snd] in *. assert (held_at r m s1) as Hm1 by (unfold held_at; by rewrite (same_mailbox _ _ S)).
  rewrite <-(same_side _ _ S). destruct ok; [by apply Hh|done].
Qed.

Lemma run_event_held r m e s :
  not_delivering r e -> held_at r m s ->
  held_at r m (run_event e s).1.2 /\ side (run_event e s).1.2 = side s.
Proof.
  destruct e as [session clock n stream|session clock n stream|session clock rng carries]; intros Hn Hm;
    cbn [run_event].
  - apply serve_step_held; [|done]. intros env rest s0 Hs0. unfold held_at.
    destruct (handle_storage_mailbox clock n env rest s0) as [-> ->]. done.
  - apply serve_step_held; [|done]. intros env rest s0 Hs0. by apply handle_gossip_held.
  - unfold deliver_forwards, Mailbox.drain.
    match goal with |- context [with_mailbox ?b s] => set (s0 := with_mailbox b s) end.
    assert (held_at r m s0) as Hs0.
    { unfold held_at, s0. cbn [mailbox with_mailbox]. by rewrite lookup_delete_ne. }
    pose proof (deliver_held_held r m session clock rng carries
      (List.filter (Mailbox.live (unix_now clock)) (default [] (mailbox s !! peer_side session))) 0 s0 Hs0) as E.
    by destruct (deliver_held _ _ _ _ _ _ _).
Qed.

Lemma run_events_held r m es : forall s,
  Forall (not_delivering r) es -> held_at r m s ->
  held_at r m (run_events es s) /\ side (run_events es s) = side s.
Proof.
  induction es as [|e es IH]; intros s Hes Hm; [done|]. inversion Hes; subst. cbn [run_events].
  destruct (run_event_held r m e s) as [H1 E1]; [done|done|]. rewrite <-E1. by apply IH.
Qed.

End Forward.

(** A held message that fits an envelope is written to a connection that
    takes everything, and the peer reads it back. *)
Lemma forward_written `{CryptoLaws} sr scr t rng held : forall i s m,
  intent sr = Intent.Gossip -> intent scr = Intent.Gossip -> blen (peer_side sr) = PUBLIC_KEY_LEN ->
  t < u64_size -> (forall i, blen (rng i) = NONCE_LEN) ->
  m ∈ held -> t < Mailbox.expires_at m -> Mailbox.stored_at m < u64_size ->
  blen (Mailbox.envelope m) <= 65000 ->
  let '(out, _) := deliver_held sr (Some t) rng (fun _ => true) i held s in
  exists w push, Write w ∈ out /\ accept_one_push scr w = NOk push /\
    from push = public_bytes (side s) /\ Envelope.to push = Some (peer_side sr) /\
    message_type push = FORWARD_DELIVER /\
    ForwardDeliver.decode (payload push) =
      Ok {| ForwardDeliver.envelope := Mailbox.envelope m; ForwardDeliver.stored_at := Mailbox.stored_at m |}.
Proof.
  induction held as [|msg held IH]; intros i s m Hi Hic Hp Ht Hn Hm Hl Hst Hfit; [by apply not_elem_of_nil in Hm|].
  cbn [deliver_held]. apply elem_of_cons in Hm as [<-|Hm].
  - set (p := {| ForwardDeliver.envelope := Mailbox.envelope m; ForwardDeliver.stored_at := Mailbox.stored_at m |}).
    assert (blen (ForwardDeliver.encode p) <= 65236) as Hb.
    { pose proof (blen_bytestr_ub (Mailbox.envelope m)). pose proof (blen_uint_ub (Mailbox.stored_at m)).
      unfold ForwardDeliver.encode, ForwardDeliver.entries, p.
      cbn [ForwardDeliver.envelope ForwardDeliver.stored_at]. bound_map. lia. }
    destruct (sign_response_ok (side s) (peer_side sr) FORWARD_DELIVER (ForwardDeliver.encode p) t (rng i))
      as (r & Hr & Hv & Hrl & Hrt & Hrp & Hrf); [done..|].
    unfold deliver_one at 1. cbn [unix_now default from_option id].
    rewrite (proj2 (N.leb_gt _ _)) by done. fold p. rewrite Hr.
    unfold open_and_send. rewrite Hi, Hrt. change (Intent.accepts Intent.Gossip FORWARD_DELIVER) with true.
    cbn [nensure mbind nresult_bind]. rewrite send_envelope_frame by done.
    destruct (deliver_held _ _ _ _ _ _ _) as [out s']. exists (frame r), r.
    split; [by left|]. split.
    { unfold accept_one_push. rewrite <-(app_nil_r (frame r)).
      rewrite accept_frame; [done|done|done|by rewrite Hic, Hrt]. }
    split_and!; [done| |done|].
    + unfold sign_response in Hr. cbn [core now_unix_seconds ok_or mbind nresult_bind] in Hr.
      by injection Hr as <-.
    + rewrite Hrp. apply (decode_back ForwardDeliver.encode ForwardDeliver.fields ForwardDeliver.wf).
      * unfold ForwardDeliver.wf, wf_bytes, p, u64_size in *. cbn. split; [lia|done].
      * unfold u64_size. lia.
  - destruct (deliver_one sr (Some t) (rng i) (fun _ => true) msg s) as [out1 s1] eqn:E1.
    assert (side s1 = side s) as Hs1.
    { revert E1. unfold deliver_one. destruct (_ <=? _); [by intros [= _ <-]|].
      destruct (sign_response _ _ _ _ _ _); [|by intros [= _ <-]].
      destruct (open_and_send _ _); by intros [= _ <-]. }
    specialize (IH (S i) s1 m). destruct (deliver_held sr (Some t) rng (fun _ => true) (S i) held s1) as [out2 s2].
    destruct IH as (w & push & Hw & Hrest); [done..|]. rewrite Hs1 in Hrest.
    exists w, push. split; [|done]. apply elem_of_app. by right.
Qed.

(** C32: store and forward: an envelope handed to a broker with [submit_forward]
    is still there after any other steps of the broker's sessions, and when
    the recipient connects before it expires, at most seven days later, over
    a connection that carries it, the recipient gets it with [accept_one_push]
    in a [ForwardDeliver] signed by the broker: the same bytes, with the time
    they were stored at. *)
Theorem forward_end_to_end `{HashIter, CryptoLaws} sc ss a recipient env ttl t1 n1 t2 n2 bs s es sr scr t3 rng
    (Ic : intent sc = Intent.Gossip) (Is : intent ss = Intent.Gossip)
    (Ir : intent sr = Intent.Gossip) (Icr : intent scr = Intent.Gossip)
    (Hp : blen (peer_side sc) = PUBLIC_KEY_LEN) (Hr : blen recipient = 32) (Hsr : peer_side sr = recipient)
    (T1 : t1 < u64_size) (N1 : blen n1 = NONCE_LEN) (T2 : t2 < u64_size) (L : ttl < u64_size)
    (Q : submit_forward sc a recipient env ttl (Some t1) n1 = NOk bs)
    (A : gates_pass ss (Some t2) bs s)
    (Es : Forall (not_delivering recipient) es)
    (T3 : t3 < u64_size) (N3 : forall i, blen (rng i) = NONCE_LEN)
    (Live : t3 < t2 + N.min ttl Mailbox.DEFAULT_TTL_SECS)
    (Fits : blen env <= 65000) :
  let s1 := (serve_gossip_step ss (Some t2) n2 bs s).1.2 in
  let '(out, _) := deliver_forwards sr (Some t3) rng (fun _ => true) (run_events es s1) in
  exists w push, Write w ∈ out /\ accept_one_push scr w = NOk push /\
    from push = public_bytes (side s) /\ Envelope.to push = Some recipient /\
    message_type push = FORWARD_DELIVER /\
    ForwardDeliver.decode (payload push) =
      Ok {| ForwardDeliver.envelope := env; ForwardDeliver.stored_at := t2 |}.
Proof.
  intros s1. set (m := Mailbox.held env t2 ttl).
  assert (held_at recipient m s1 /\ side s1 = side s) as [Hm Hside].
  { unfold submit_forward in Q. apply frames_response in Q as (e & Hf); try done.
    destruct (serve_frame (fun clock nonce env _ s => handle_gossip (peer_side ss) clock nonce env s)
      sc ss a FORWARD_STORE _ _ e bs [] (Some t2) n2 s Hf) as [E S]; [congruence|done|].
    rewrite app_nil_r in E. subst s1. unfold serve_gossip_step. rewrite E. clear E.
    pose proof (frames_payload_fits _ _ _ _ _ _ _ Hf) as Hpl.
    destruct Hf as (_ & _ & _ & Ht & _ & _ & Hpay & _).
    unfold handle_gossip. rewrite Ht, Hpay. cbn [N.eqb Pos.eqb PEER_ASK RENDEZVOUS FORWARD_STORE].
    unfold ForwardStore.decode.
    rewrite (decode_back ForwardStore.encode ForwardStore.fields ForwardStore.wf);
      [|unfold ForwardStore.wf, wf_bytes, u64_size; cbn; by split_and!; [lia| |]|done].
    cbn [fst snd go_on ForwardStore.recipient ForwardStore.envelope ForwardStore.ttl_secs unix_now default].
    split; [|apply S]. unfold held_at. cbn [mailbox with_mailbox]. unfold Mailbox.store.
    rewrite lookup_insert_eq. cbn. rewrite elem_of_app. right. by apply list_elem_of_singleton. }
  destruct (run_events_held recipient m es s1 Es Hm) as [Hm2 Hs2].
  rewrite <-Hside, <-Hs2. set (s2 := run_events es s1) in *. clearbody s2.
  unfold deliver_forwards, Mailbox.drain. rewrite Hsr. cbn [unix_now default from_option id].
  set (q := List.filter _ _). set (s0 := with_mailbox _ s2).
  assert (m ∈ q) as Hq.
  { apply PeersFacts.list_filter_In. split; [done|]. apply N.ltb_lt. exact Live. }
  pose proof (forward_written sr scr t3 rng q 0 s0 m) as Hw. rewrite Hsr in Hw. by apply Hw.
Qed.

(** ** Offering an object *)

Lemma want_bounds h w :
  blen h = 32 ->
  let p := {| StorageWant.hash := h; StorageWant.want := w |} in
  blen (StorageWant.encode p) <= 65236 /\ StorageWant.decode (StorageWant.encode p) = Ok p.
Proof.
  intros Hh p. assert (blen (StorageWant.encode p) <= 65236) as Hl.
  { pose proof (blen_bytestr_ub h). unfold StorageWant.encode, StorageWant.entries, p.
    cbn [StorageWant.hash StorageWant.want]. destruct w; bound_map; lia. }
  split; [done|]. apply (decode_back StorageWant.encode StorageWant.fields StorageWant.wf); [done|].
  unfold u64_size. lia.
Qed.

(** What [offer_object] makes of a [StorageWant] for its object. *)
Lemma offer_finish_want `{CryptoLaws} sc a ref t n w r h wanted st b :
  h = Reference.hash ref -> blen h = 32 -> blen (peer_side sc) = PUBLIC_KEY_LEN ->
  t < u64_size -> blen n = NONCE_LEN ->
  recv_envelope w = NOk (r, []) -> message_type r = STORAGE_WANT ->
  payload r = StorageWant.encode {| StorageWant.hash := h; StorageWant.want := wanted |} ->
  ObjectsFacts.content st h = Some b -> blake3 b = h -> blen b <= 65000 ->
  exists more st', offer_object_finish sc a ref (Some t) n w st = (more, inl wanted, st') /\
    (wanted = true -> exists e, more = frame e /\ recv_envelope more = NOk (e, []) /\
       message_type e = STORAGE_HAVE /\
       StorageHave.decode (payload e) =
         Ok {| StorageHave.hash := h; StorageHave.body := b; StorageHave.final_ := true |}).
Proof.
  intros -> Hh Hp Ht Hn Hr Hrt Hrp Hc Hb Hlen. unfold offer_object_finish. rewrite Hr.
  cbn [mbind nresult_bind]. rewrite Hrt, Hrp. cbn [N.eqb Pos.eqb STORAGE_WANT nensure].
  destruct (want_bounds (Reference.hash ref) wanted Hh) as [_ ->]. cbn [core mbind nresult_bind StorageWant.hash StorageWant.want].
  rewrite bool_decide_eq_true_2 by done. cbn [nensure mbind nresult_bind mret nresult_ret].
  destruct wanted; [|by eexists [], st].
  rewrite (ObjectsFacts.content_get _ _ _ _ Hc Hb).
  destruct (have_bounds (Reference.hash ref) b Hh) as [_ Hfit]. destruct (Hfit Hlen) as [Hl Hd].
  destruct (sign_response_ok a (peer_side sc) STORAGE_HAVE (StorageHave.encode
    {| StorageHave.hash := Reference.hash ref; StorageHave.body := b; StorageHave.final_ := true |}) t n)
    as (e & -> & Hv & Hel & Het & Hep & _); [done..|].
  cbn [mbind nresult_bind]. rewrite send_envelope_frame by done. do 2 eexists. split; [done|].
  intros _. exists e. split; [done|]. split; [|by rewrite Hep].
  rewrite <-(app_nil_r (frame e)). by apply recv_envelope_ok.
Qed.


(** ** Concrete instances *)

Module ClientExamples.
Import Toy ToyIter SessionExamples NodeExamples.

(** The client's end of a session with [node]. *)
Definition conn (i : Intent.t) : Session :=
  {| session_key := n1; peer_side := public_bytes side2; intent := i; peer_capabilities := ∅ |}.

Definition sent (r : nresult bytes) : bytes := match r with NOk bs => bs | NErr _ => [] end.

(** Side conditions on closed terms. *)
Ltac computed :=
  match goal with
  | |- gates_pass _ _ _ _ => apply gates_pass_compute; vm_compute; reflexivity
  | |- PeerTell.wf _ => idtac
  | |- wf_text_array _ => idtac
  | |- StorageOffer.wf _ => idtac
  | |- ObjectsFacts.consistent _ => idtac
  | |- ObjectsFacts.fits_in _ _ => idtac
  | |- Forall _ _ => by repeat constructor
  | |- _ => vm_compute; first [reflexivity|discriminate|by repeat constructor]
  end.

Definition known : PeerInfo.t :=
  {| PeerInfo.address := peer3; PeerInfo.intents := [1; 3];
     PeerInfo.endpoints := ["127.0.0.1:7777"]; PeerInfo.last_seen := now0 |}.
Definition broker : Services := with_peers (Peers.insert known (peers node)) node.

Definition ask : bytes := sent (query_peers_request (conn Intent.Gossip) side 10 (Some 3) (Some now0) n1).

Lemma peers_served_witness :
  exists w s', serve_gossip_step (session Intent.Gossip) (Some (now0 + 1)) n2 ask broker = ([Write w], s', NOk tt) /\
    peers s' = peers broker /\ query_peers_finish w = NOk [known].
Proof.
  assert (Peers.sample (N.min 10 256) (Some 3) (peers broker) = [known]) as <- by (vm_compute; reflexivity).
  apply (peers_served (conn Intent.Gossip) (session Intent.Gossip) side 10 (Some 3) now0 n1 (now0 + 1) n2 ask broker).
  all: computed.
  apply (decode_wf PeerTell.encode PeerTell.fields PeerTell.wf); computed.
Defined.

Definition where_is : bytes :=
  sent (request_rendezvous_request (conn Intent.Gossip) side peer3 (Some now0) n1).

Lemma rendezvous_served_witness :
  exists w s', serve_gossip_step (session Intent.Gossip) (Some (now0 + 1)) n2 where_is broker
      = ([Write w], s', NOk tt) /\
    peers s' = peers broker /\ request_rendezvous_finish peer3 w = NOk ["127.0.0.1:7777"].
Proof.
  assert (default [] (PeerInfo.endpoints <$> Peers.get peer3 (peers broker)) = ["127.0.0.1:7777"]) as <-
    by (vm_compute; reflexivity).
  apply (rendezvous_served (conn Intent.Gossip) (session Intent.Gossip) side peer3 now0 n1 (now0 + 1) n2
    where_is broker).
  all: computed.
  apply (decode_wf encode_text_array decode_text_array wf_text_array); computed.
Defined.

(** A message for [peer3], which connects a minute later; in between another
    peer asks for an object. *)
Definition letter : bytes := as_bytes "letter".
Definition deposit : bytes :=
  sent (submit_forward (conn Intent.Gossip) side peer3 letter 3600 (Some now0) n1).
Definition to_peer3 : Session :=
  {| session_key := n2; peer_side := peer3; intent := Intent.Gossip; peer_capabilities := ∅ |}.

Lemma forward_end_to_end_witness :
  let s1 := (serve_gossip_step (session Intent.Gossip) (Some (now0 + 1)) n2 deposit node).1.2 in
  let '(out, _) := deliver_forwards to_peer3 (Some (now0 + 60)) (fun _ => n2) (fun _ => true)
    (run_events [EStorage (session Intent.Storage) (Some (now0 + 2)) n2 get_bytes] s1) in
  exists w push, Write w ∈ out /\ accept_one_push (conn Intent.Gossip) w = NOk push /\
    from push = public_bytes side2 /\ Envelope.to push = Some peer3 /\
    message_type push = FORWARD_DELIVER /\
    ForwardDeliver.decode (payload push) =
      Ok {| ForwardDeliver.envelope := letter; ForwardDeliver.stored_at := now0 + 1 |}.
Proof.
  apply (forward_end_to_end (conn Intent.Gossip) (session Intent.Gossip) side peer3 letter 3600 now0 n1
    (now0 + 1) n2 deposit node _ to_peer3 (conn Intent.Gossip) (now0 + 60) (fun _ => n2)).
  all: computed.
Defined.

(** [side] offers an object [node] does not have. *)
Definition reference : Reference.t := Reference.new (blake3 xyz) 3 "text/plain".
Definition own_store : Objects.Store := (Objects.put xyz 1 Objects.open).2.
Definition offer : bytes := sent (offer_object_request (conn Intent.Storage) side reference (Some now0) n1).


(** The bytes of [retract_object] and [publish_broadcast] reach their handlers. *)
Example retract_accepted :
  match accept_one (session Intent.Storage)
          (sent (retract_object (conn Intent.Storage) side (blake3 abc) (Some now0) n1)) with
  | NOk (e, []) => StorageRetract.decode (payload e) = Ok {| StorageRetract.hash := blake3 abc |}
  | _ => False
  end.
Proof. vm_compute. reflexivity. Qed.

Example broadcast_accepted :
  match accept_one (session Intent.Gossip)
          (sent (publish_broadcast (conn Intent.Gossip) side (as_bytes "hello") (Some now0) n1)) with
  | NOk (e, []) => category (message_type e) = Public /\ payload e = as_bytes "hello"
  | _ => False
  end.
Proof. vm_compute. split; reflexivity. Qed.

End ClientExamples.
