(* ===== verification/Limiter.v ===== *)
(** The per-address limit on handshakes ([sidevers-net/src/handshake_limit.rs]):
    a token bucket per source address, in [f64].

    A floating-point number is a [spec_float] of the standard library, and the
    operations are its IEEE 754 operations at the precision and exponent range
    of [f64], rounding to nearest.  An [IpAddr] is its text.  The clock, in
    seconds with their fraction, is an argument. *)

From Stdlib Require Import SpecFloat.
From S2P Require Import Prelude Containers.

Open Scope N_scope.

(** ** [f64] *)

Module F64.

Definition prec : Z := 53.
Definition emax : Z := 1024.

Definition t : Type := spec_float.
Definition add : t -> t -> t := SFadd prec emax.
Definition sub : t -> t -> t := SFsub prec emax.
Definition mul : t -> t -> t := SFmul prec emax.
Definition ltb : t -> t -> bool := SFltb.
Definition leb : t -> t -> bool := SFleb.

Definition is_nan (x : t) : bool := match x with S754_nan => true | _ => false end.

(** [x.max(y)] and [x.min(y)]: a NaN gives way to the other number. *)
Definition max (x y : t) : t :=
  if is_nan x then y else if is_nan y then x else if ltb x y then y else x.
Definition min (x y : t) : t :=
  if is_nan x then y else if is_nan y then x else if ltb y x then y else x.

Definition of_Z (z : Z) : t := binary_normalize prec emax z 0 false.
Definition zero : t := S754_zero false.
Definition one : t := of_Z 1.

(** A number that is neither infinite nor NaN. *)
Definition finite (x : t) : Prop :=
  match x with S754_zero _ | S754_finite _ _ _ => True | _ => False end.

End F64.

(** ** The limiter *)

Definition HANDSHAKE_BURST : F64.t := F64.of_Z 8.
Definition HANDSHAKE_REFILL_PER_SEC : F64.t := F64.of_Z 2.
Definition HANDSHAKE_IDLE_FORGET_SECS : F64.t := F64.of_Z 3600.

(** The literal [0.01]: the nearest number to one hundredth. *)
Definition one_hundredth : F64.t := S754_finite false 5764607523034235 (-59).

Record Bucket := { tokens : F64.t; last_refill_at : F64.t }.

Record HandshakeLimiter := { inner : gmap string Bucket; burst : F64.t; refill_per_sec : F64.t }.

Definition with_inner (m : gmap string Bucket) (l : HandshakeLimiter) : HandshakeLimiter :=
  {| inner := m; burst := burst l; refill_per_sec := refill_per_sec l |}.

Definition new (burst refill_per_sec : F64.t) : HandshakeLimiter :=
  {| inner := ∅; burst := F64.max burst F64.one; refill_per_sec := F64.max refill_per_sec one_hundredth |}.

Definition default_limiter : HandshakeLimiter := new HANDSHAKE_BURST HANDSHAKE_REFILL_PER_SEC.

(** What [try_acquire] makes of the bucket of the address. *)
Definition acquire (l : HandshakeLimiter) (now : F64.t) (bucket : Bucket) : bool * Bucket :=
  let elapsed := F64.max (F64.sub now (last_refill_at bucket)) F64.zero in
  let filled := F64.min (F64.add (tokens bucket) (F64.mul elapsed (refill_per_sec l))) (burst l) in
  if F64.leb F64.one filled then (true, {| tokens := F64.sub filled F64.one; last_refill_at := now |})
  else (false, {| tokens := filled; last_refill_at := now |}).

Definition try_acquire (now : F64.t) (ip : string) (l : HandshakeLimiter) : bool * HandshakeLimiter :=
  let tab := retain (fun _ b => F64.ltb (F64.sub now (last_refill_at b)) HANDSHAKE_IDLE_FORGET_SECS) (inner l) in
  let bucket := default {| tokens := burst l; last_refill_at := now |} (tab !! ip) in
  let '(ok, bucket) := acquire l now bucket in
  (ok, with_inner (<[ip := bucket]> tab) l).

Definition bucket_tokens (ip : string) (l : HandshakeLimiter) : option F64.t := tokens <$> inner l !! ip.
Definition tracked (l : HandshakeLimiter) : nat := size (inner l).

(** Attempts of several addresses at one instant, and their answers. *)
Fixpoint attempts (now : F64.t) (ips : list string) (l : HandshakeLimiter) : list bool * HandshakeLimiter :=
  match ips with
  | [] => ([], l)
  | ip :: ips' =>
    let '(ok, l1) := try_acquire now ip l in
    let '(oks, l2) := attempts now ips' l1 in
    (ok :: oks, l2)
  end.

(** ** Lemmas *)

Lemma sub_self x : F64.finite x -> F64.sub x x = F64.zero.
Proof.
  destruct x as [[]|s|  |s m e]; cbn; try done. intros _. by rewrite Z.sub_diag.
Qed.

Lemma add_zero x : F64.finite x -> x <> S754_zero true -> F64.add x F64.zero = x.
Proof. by destruct x as [[]|s| |s m e]. Qed.

(** The bucket of an address from which [n] attempts came at this instant. *)
Definition bucket_after (now : F64.t) (n : N) : Bucket :=
  {| tokens := F64.of_Z (Z.of_N (8 - N.min n 8)); last_refill_at := now |}.

Lemma acquire_at now n : F64.finite now ->
  acquire default_limiter now (bucket_after now n) = (n <? 8, bucket_after now (n + 1)).
Proof.
  intros Hf. unfold acquire, bucket_after. cbn [last_refill_at tokens]. rewrite sub_self by done.
  change (F64.mul (F64.max F64.zero F64.zero) (refill_per_sec default_limiter)) with F64.zero.
  destruct (N.ltb_spec n 8) as [Hn|Hn].
  - assert (n = 0 \/ n = 1 \/ n = 2 \/ n = 3 \/ n = 4 \/ n = 5 \/ n = 6 \/ n = 7) as Hc by lia.
    repeat (destruct Hc as [->|Hc]; [reflexivity|]). subst. reflexivity.
  - rewrite (N.min_r n 8), (N.min_r (n + 1) 8) by lia. reflexivity.
Qed.

(** The table after the attempts [ips] at one instant. *)
Definition count (ip : string) (ips : list string) : N :=
  N.of_nat (length (List.filter (String.eqb ip) ips)).

Definition table_after (now : F64.t) (ips : list string) (l : HandshakeLimiter) : Prop :=
  burst l = burst default_limiter /\ refill_per_sec l = refill_per_sec default_limiter /\
  forall ip, inner l !! ip = if count ip ips =? 0 then None else Some (bucket_after now (count ip ips)).

Lemma count_snoc ip ips ip' : count ip (ips ++ [ip']) = count ip ips + if String.eqb ip ip' then 1 else 0.
Proof.
  unfold count. rewrite List.filter_app, length_app, Nat2N.inj_add. cbn. by destruct (String.eqb ip ip').
Qed.

Lemma try_acquire_at now ips ip l : F64.finite now -> table_after now ips l ->
  let '(ok, l') := try_acquire now ip l in ok = (count ip ips <? 8) /\ table_after now (ips ++ [ip]) l'.
Proof.
  intros Hf (Hb & Hr & Ht). unfold try_acquire.
  set (tab := retain _ (inner l)).
  assert (forall a, tab !! a = inner l !! a) as Htab.
  { intros a. destruct (inner l !! a) as [b|] eqn:E.
    - apply retain_lookup. split; [done|]. rewrite Ht in E. case_bool; [done|]. injection E as <-.
      unfold bucket_after. cbn [last_refill_at]. by rewrite sub_self.
    - apply retain_lookup_None. intros v Hv. congruence. }
  assert (default {| tokens := burst l; last_refill_at := now |} (tab !! ip) = bucket_after now (count ip ips)) as ->.
  { rewrite Htab, Ht. case_bool; to_prop; [|done]. cbn. rewrite Hb. unfold bucket_after.
    by replace (count ip ips) with 0 by congruence. }
  assert (acquire l now (bucket_after now (count ip ips))
    = acquire default_limiter now (bucket_after now (count ip ips))) as ->.
  { unfold acquire. by rewrite Hb, Hr. }
  rewrite acquire_at by done. split; [done|]. split_and!; [done|done|].
  intros a. cbn [with_inner inner]. rewrite count_snoc. destruct (decide (a = ip)) as [->|Hn].
  - rewrite lookup_insert_eq, String.eqb_refl. by rewrite (proj2 (N.eqb_neq _ _)) by lia.
  - rewrite lookup_insert_ne, Htab, Ht by done. rewrite (proj2 (String.eqb_neq _ _)) by done.
    by rewrite N.add_0_r.
Qed.

(** ** Properties *)

(** The burst is capped, for each address apart: of any interleaving of
    attempts at one instant, whatever its floating-point value, an attempt is
    let through exactly if fewer than eight of the attempts before it came
    from the same address. *)
Theorem burst_is_capped now ips i ip (F : F64.finite now) :
  ips !! i = Some ip ->
  (attempts now ips default_limiter).1 !! i = Some (count ip (take i ips) <? 8).
Proof.
  enough (forall before l, table_after now before l -> forall i ip, ips !! i = Some ip ->
    (attempts now ips l).1 !! i = Some (count ip (before ++ take i ips) <? 8)) as He.
  { intros Hi. apply (He []); [|done]. split_and!; [done|done|]. intros a. apply lookup_empty. }
  clear i ip. induction ips as [|a ips IH]; intros before l Ht i ip Hi; [done|].
  cbn [attempts]. pose proof (try_acquire_at now before a l F Ht) as Hs.
  destruct (try_acquire now a l) as [ok l1]. destruct Hs as [Hok Ht1].
  specialize (IH (before ++ [a]) l1 Ht1). revert IH. destruct (attempts now ips l1) as [oks l2]. intros IH.
  destruct i as [|i]; cbn in *.
  - injection Hi as <-. by rewrite Hok, app_nil_r.
  - specialize (IH i ip Hi). rewrite <-app_assoc in IH. exact IH.
Qed.

(** ** Concrete instances *)

Module LimiterExamples.

Definition noon : F64.t := F64.of_Z 1700000000.
Definition later : F64.t := F64.add noon (S754_finite false 4503599627370496 (-53)).  (* half a second *)

Lemma burst_is_capped_witness :
  (attempts noon (replicate 8 "10.0.0.1" ++ ["10.0.0.2"; "10.0.0.1"]) default_limiter).1 !! 9%nat = Some false.
Proof. exact (burst_is_capped noon (replicate 8 "10.0.0.1" ++ ["10.0.0.2"; "10.0.0.1"]) 9 "10.0.0.1" I eq_refl). Defined.

(** The module's tests: a small burst, a refill and separate budgets. *)
Definition tiny : F64.t := S754_zero false.

Example burst_of_three :
  (attempts noon (replicate 4 "127.0.0.1") (new (F64.of_Z 3) tiny)).1 = [true; true; true; false].
Proof. vm_compute. reflexivity. Qed.

Example refill_allows_more :
  let '(_, l) := attempts noon (replicate 9 "127.0.0.1") default_limiter in
  (try_acquire noon "127.0.0.1" l).1 = false /\ (try_acquire later "127.0.0.1" l).1 = true.
Proof. vm_compute. split; reflexivity. Qed.

Example forgotten_after_an_hour :
  let '(_, l) := attempts noon (replicate 9 "127.0.0.1") default_limiter in
  tracked (try_acquire (F64.add noon (F64.of_Z 3600)) "127.0.0.2" l).2 = 1%nat.
Proof. vm_compute. reflexivity. Qed.

End LimiterExamples.
