(* ===== verification/Transport.v ===== *)
(** What the node keeps around its QUIC transport: the connection pool
    ([sidevers-net/src/connection_pool.rs]), the hole-punching retries
    ([hole_punch.rs]), certificate pins ([cert.rs]) and the text of the
    metrics endpoint ([metrics.rs]).

    quinn, rustls and the timers are third-party or the runtime's: a connection
    is a value of the type [Conn], whether it is closed is asked at the moment
    of the call, and the outcome of an attempt to dial is given.  A
    [SocketAddr] is its text. *)

From stdpp Require Import pretty.
From S2P Require Import Prelude Keys Containers Session Node.

Open Scope N_scope.

(** ** The connection pool *)

Module Pool.

Section Pool.
Context {Conn : Type}.

(** From [type Key = (SocketAddr, [u8; 32])]: the address of the peer and the
    side that dialled it. *)
Definition t : Type := gmap (string * bytes) Conn.

Definition new : t := ∅.

(** [tab.retain(|_, c| c.close_reason().is_none())] *)
Definition sweep (closed : Conn -> bool) (tab : t) : t := retain (fun _ c => negb (closed c)) tab.

Definition get (closed : Conn -> bool) (peer_addr : string) (source_side : bytes) (tab : t)
    : option Conn * t :=
  let tab := sweep closed tab in (tab !! (peer_addr, source_side), tab).

Definition insert (peer_addr : string) (source_side : bytes) (conn : Conn) (tab : t) : t :=
  <[(peer_addr, source_side) := conn]> tab.

Definition invalidate (peer_addr : string) (source_side : bytes) (tab : t) : t :=
  delete (peer_addr, source_side) tab.

Definition len (closed : Conn -> bool) (tab : t) : nat * t :=
  let tab := sweep closed tab in (size tab, tab).

Definition is_empty (closed : Conn -> bool) (tab : t) : bool * t :=
  let '(n, tab) := len closed tab in ((n =? 0)%nat, tab).

Definition clear (tab : t) : t := ∅.

End Pool.
Arguments t : clear implicits.

End Pool.

(** ** Hole punching *)

Module HolePunch.

(** Durations are in milliseconds. *)
Record HolePunchConfig := { attempts : N; attempt_timeout : N; backoff : N }.

Definition HOLE_PUNCH_ATTEMPT_TIMEOUT : N := 2000.
Definition HOLE_PUNCH_ATTEMPTS : N := 5.
Definition HOLE_PUNCH_BACKOFF : N := 250.

Definition default_config : HolePunchConfig :=
  {| attempts := HOLE_PUNCH_ATTEMPTS; attempt_timeout := HOLE_PUNCH_ATTEMPT_TIMEOUT;
     backoff := HOLE_PUNCH_BACKOFF |}.

(** What [timeout(config.attempt_timeout, attempt)] returns. *)
Inductive outcome (S : Type) := Dialled (session : S) | Failed (e : net_error) | TimedOut.
Arguments Dialled {S} session.
Arguments Failed {S} e.
Arguments TimedOut {S}.

(** What the loop does in between: it calls [dial_once], and it sleeps. *)
Inductive action := Dial (i : nat) | Sleep (ms : N).

Section Loop.
Context {S : Type} (config : HolePunchConfig) (dial_once : nat -> outcome S).

Definition unreachable : net_error :=
  NetInvariant "hole_punch_dial: peer unreachable after all attempts".

(** The [for] loop from round [i] on, with [left] rounds to go. *)
Fixpoint rounds (left i : nat) : list action * nresult S :=
  match left with
  | O => ([], NErr unreachable)
  | Datatypes.S left' =>
    match dial_once i with
    | Dialled session => ([Dial i], NOk session)
    | _ =>
      let '(acts, r) := rounds left' (Datatypes.S i) in
      (Dial i :: (if (0 <? left')%nat then [Sleep (backoff config)] else []) ++ acts, r)
    end
  end.

Definition hole_punch_with : list action * nresult S :=
  rounds (N.to_nat (N.max (attempts config) 1)) 0.

End Loop.

End HolePunch.

(** ** Certificate pins *)

Module Certs.

Section Certs.
Context `{Crypto}.

(** Of a certificate in DER. *)
Definition fingerprint (cert : bytes) : bytes := blake3 cert.

Definition CertPinTable : Type := gmap string bytes.

Definition pin (peer_addr : string) (expected_hash : bytes) (t : CertPinTable) : CertPinTable :=
  <[peer_addr := expected_hash]> t.
Definition unpin (peer_addr : string) (t : CertPinTable) : option bytes * CertPinTable :=
  (t !! peer_addr, delete peer_addr t).
Definition get (peer_addr : string) (t : CertPinTable) : option bytes := t !! peer_addr.
Definition len (t : CertPinTable) : nat := size t.

Record PinnedOrAccept := { snapshot : CertPinTable }.

Definition from_snapshot (s : CertPinTable) : PinnedOrAccept := {| snapshot := s |}.
Definition permissive : PinnedOrAccept := {| snapshot := ∅ |}.

(** The server name is the constant "sidevers" and is not looked at; the
    error is rustls' [General]. *)
Definition verify_server_cert (v : PinnedOrAccept) (end_entity : bytes) : unit + string :=
  if bool_decide (snapshot v = ∅) then inl tt
  else
    let presented := fingerprint end_entity in
    if existsb (fun kv => bool_decide (snd kv = presented)) (map_to_list (snapshot v)) then inl tt
    else inr "TLS cert pin mismatch (Phase 1.H2)".

End Certs.
End Certs.

(** ** Lemmas and properties *)

Module PoolFacts.
Import Pool.

Section Pool.
Context {Conn : Type}.

(** A call of the pool, with the connections that are closed when it looks. *)
Inductive call :=
| Get (closed : Conn -> bool) (a : string) (s : bytes)
| Insert (a : string) (s : bytes) (c : Conn)
| Invalidate (a : string) (s : bytes)
| Len (closed : Conn -> bool)
| Clear.

Definition run_call (x : call) (tab : t Conn) : t Conn :=
  match x with
  | Get closed a s => (get closed a s tab).2
  | Insert a s c => insert a s c tab
  | Invalidate a s => invalidate a s tab
  | Len closed => (len closed tab).2
  | Clear => clear tab
  end.

Definition run_calls (xs : list call) (tab : t Conn) : t Conn := fold_left (fun tab x => run_call x tab) xs tab.

(** The reference: a table that never sweeps. *)
Definition note (m : string * bytes -> option Conn) (x : call) : string * bytes -> option Conn :=
  match x with
  | Insert a s c => fun k => if decide ((a, s) = k) then Some c else m k
  | Invalidate a s => fun k => if decide ((a, s) = k) then None else m k
  | Clear => fun _ => None
  | Get _ _ _ | Len _ => m
  end.

Definition latest (xs : list call) : string * bytes -> option Conn := fold_left note xs (fun _ => None).

(** A connection that was closed during a call is closed now. *)
Definition closed_by (closed : Conn -> bool) (x : call) : Prop :=
  match x with
  | Get closed' _ _ | Len closed' => forall c, closed' c = true -> closed c = true
  | _ => True
  end.

Definition if_open (closed : Conn -> bool) (o : option Conn) : option Conn :=
  match o with Some c => if closed c then None else Some c | None => None end.

Lemma sweep_lookup closed (tab : t Conn) (k : string * bytes) : sweep closed tab !! k = if_open closed (tab !! k).
Proof.
  unfold sweep, if_open. destruct (tab !! k) as [c|] eqn:E.
  - destruct (closed c) eqn:Ec.
    + apply retain_lookup_None. intros v Hv. pose proof (eq_trans (eq_sym E) Hv) as [= <-]. by rewrite Ec.
    + apply retain_lookup. by rewrite Ec.
  - apply retain_lookup_None. intros v Hv. by pose proof (eq_trans (eq_sym E) Hv).
Qed.

Lemma sweep_idemp closed (tab : t Conn) (k : string * bytes) :
  sweep closed (sweep closed tab) !! k = sweep closed tab !! k.
Proof.
  rewrite !sweep_lookup. unfold if_open. destruct (tab !! k) as [c|]; [|done].
  destruct (closed c) eqn:E; [done|]. by rewrite E.
Qed.

Lemma insert_lookup a s c (tab : t Conn) k :
  insert a s c tab !! k = if decide ((a, s) = k) then Some c else tab !! k.
Proof.
  unfold insert, t in *. case_decide as E.
  - rewrite <-E. apply (lookup_insert_eq (M := gmap (string * bytes))).
  - by apply (lookup_insert_ne (M := gmap (string * bytes))).
Qed.

Lemma invalidate_lookup a s (tab : t Conn) k :
  invalidate a s tab !! k = if decide ((a, s) = k) then None else tab !! k.
Proof.
  unfold invalidate, t in *. case_decide as E.
  - rewrite <-E. apply (lookup_delete_eq (M := gmap (string * bytes))).
  - by apply (lookup_delete_ne (M := gmap (string * bytes))).
Qed.

Lemma run_calls_latest closed xs : forall (tab : t Conn) m,
  Forall (closed_by closed) xs -> (forall k, if_open closed (tab !! k) = if_open closed (m k)) ->
  forall k, if_open closed (run_calls xs tab !! k) = if_open closed (fold_left note xs m k).
Proof.
  assert (forall closed' (tab : t Conn) k, (forall c, closed' c = true -> closed c = true) ->
    if_open closed (sweep closed' tab !! k) = if_open closed (tab !! k)) as Hs.
  { intros closed' tab k Hc. rewrite sweep_lookup. destruct (tab !! k) as [c|]; [|done]. cbn.
    destruct (closed' c) eqn:E; [|done]. cbn. by rewrite Hc. }
  induction xs as [|x xs IH]; intros tab m Hx Hm k; [apply Hm|]. inversion Hx; subst. cbn [run_calls fold_left].
  apply IH; [done|]. clear k. intros k.
  destruct x as [closed' a s|a s c|a s|closed'|]; cbn; rewrite ?Hs by done; try done.
  - rewrite insert_lookup. by case_decide.
  - rewrite invalidate_lookup. by case_decide.
Qed.

Lemma latest_inserted xs : forall m k c,
  fold_left note xs m k = Some c -> m k = Some c \/ Insert k.1 k.2 c ∈ xs.
Proof.
  induction xs as [|x xs IH]; intros m k c Hc; [by left|]. cbn [fold_left] in Hc.
  destruct (IH _ _ _ Hc) as [Hm|?]; [|right; by right]. clear Hc.
  destruct x as [| a s c'|a s| |]; cbn in Hm; try (by left).
  - case_decide; [|by left]. subst. injection Hm as ->. right. by left.
  - case_decide; [done|by left].
Qed.

(** The pool is a table without sweeping, seen through the connections that
    are still open: after any calls [get] returns the connection inserted
    last under the same address and the same side, unless it was invalidated,
    cleared or closed since.  So a connection opened for one hosted side is
    never used for another. *)
Theorem pool_get_exact closed a s xs
    (M : Forall (closed_by closed) xs) :
  (get closed a s (run_calls xs new)).1 = if_open closed (latest xs (a, s)) /\
  forall c, (get closed a s (run_calls xs new)).1 = Some c -> Insert a s c ∈ xs /\ closed c = false.
Proof.
  assert ((get closed a s (run_calls xs new)).1 = if_open closed (latest xs (a, s))) as E.
  { cbn [get fst]. rewrite sweep_lookup. by apply run_calls_latest. }
  split; [done|]. rewrite E. intros c Hc. destruct (latest xs (a, s)) as [c'|] eqn:El; [|done].
  cbn in Hc. destruct (closed c') eqn:Ec; [done|]. injection Hc as ->. split; [|done].
  by apply latest_inserted in El as [?|?].
Qed.

End Pool.
End PoolFacts.

Module HolePunchFacts.
Import HolePunch.

Section Facts.
Context {S : Type} (config : HolePunchConfig) (dial_once : nat -> outcome S).

Definition dials (acts : list action) : list nat :=
  omap (fun a => match a with Dial i => Some i | Sleep _ => None end) acts.
Definition sleeps (acts : list action) : nat :=
  length (List.filter (fun a => match a with Sleep _ => true | Dial _ => false end) acts).

Definition reached (i : nat) : bool := match dial_once i with Dialled _ => true | _ => false end.

(** A failed round in front of the rest. *)
Lemma retry_trace left i n acts :
  (n <= left)%nat -> ((0 < left)%nat -> (0 < n)%nat) ->
  dials acts = seq (Datatypes.S i) n -> sleeps acts = (n - 1)%nat ->
  let acts' := Dial i :: (if (0 <? left)%nat then [Sleep (backoff config)] else []) ++ acts in
  dials acts' = seq i (Datatypes.S n) /\ sleeps acts' = n.
Proof.
  intros Hn Hpos Hd Hs. unfold dials, sleeps in *. destruct (Nat.ltb_spec 0 left) as [Hl|Hl].
  - specialize (Hpos Hl). split; cbn; [by f_equal|]. rewrite Hs. lia.
  - split; cbn; [by f_equal|]. rewrite Hs. lia.
Qed.

Lemma rounds_spec left : forall i,
  let '(acts, r) := rounds config dial_once left i in
  exists n, (n <= left)%nat /\ ((0 < left)%nat -> (0 < n)%nat) /\
    dials acts = seq i n /\ sleeps acts = (n - 1)%nat /\
    (forall j, (i <= j < i + n - 1)%nat -> reached j = false) /\
    match r with
    | NOk s => (0 < n)%nat /\ dial_once (i + n - 1)%nat = Dialled s
    | NErr e => e = unreachable /\ n = left /\ (forall j, (i <= j < i + left)%nat -> reached j = false)
    end.
Proof.
  induction left as [|left IH]; intros i; cbn [rounds].
  { exists 0%nat. split_and!; try done; lia. }
  specialize (IH (Datatypes.S i)).
  destruct (rounds config dial_once left (Datatypes.S i)) as [acts r].
  destruct IH as (n & Hn & Hpos & Hd & Hs & Hf & Hr).
  destruct (retry_trace left i n acts Hn Hpos Hd Hs) as [Hd2 Hs2].
  destruct (dial_once i) as [s|e|] eqn:E.
  { exists 1%nat. split_and!; try done; try lia. by replace (i + 1 - 1)%nat with i by lia. }
  all: assert (reached i = false) as Hi' by (unfold reached; by rewrite E);
    exists (Datatypes.S n); split_and!; [lia|lia|exact Hd2|rewrite Hs2; lia| |];
    [intros j Hj; destruct (decide (j = i)) as [->|]; [done|apply Hf; lia]|].
  all: destruct r as [s|e'];
    [destruct Hr as [? Hr]; split; [lia|]; by replace (i + Datatypes.S n - 1)%nat with (Datatypes.S i + n - 1)%nat by lia
    |destruct Hr as (? & ? & Hr); split_and!; [done|lia|];
     intros j Hj; destruct (decide (j = i)) as [->|]; [done|apply Hr; lia]].
Qed.

(** Hole punching stops: it dials in order, at most [attempts] times and at
    least once, sleeps exactly between two dials, and returns the first
    session a dial gives; it fails only after every one of the
    [max attempts 1] dials has failed or timed out. *)
Theorem hole_punch_exact :
  let '(acts, r) := hole_punch_with config dial_once in
  let most := N.to_nat (N.max (attempts config) 1) in
  exists n, (1 <= n <= most)%nat /\ dials acts = seq 0 n /\ sleeps acts = (n - 1)%nat /\
    (forall j, (j < n - 1)%nat -> reached j = false) /\
    match r with
    | NOk s => dial_once (n - 1)%nat = Dialled s
    | NErr e => e = unreachable /\ n = most /\ forall j, (j < most)%nat -> reached j = false
    end.
Proof.
  unfold hole_punch_with. set (most := N.to_nat (N.max (attempts config) 1)).
  assert (1 <= most)%nat as Hm by (unfold most; lia).
  pose proof (rounds_spec most 0) as Hr. destruct (rounds config dial_once most 0) as [acts r].
  destruct Hr as (n & Hn & Hpos & Hd & Hs & Hf & Hr). exists n. assert (1 <= n)%nat by (apply Hpos; lia).
  split_and!; [done|done|done|done|intros j Hj; apply Hf; lia|].
  destruct r as [s|e]; [apply Hr|]. destruct Hr as (? & ? & Hr). split_and!; [done|done|].
  intros j Hj. apply Hr. lia.
Qed.

End Facts.
End HolePunchFacts.

Module CertFacts.
Import Certs.

(** What pins enforce: without pins every certificate is accepted; with
    pins a certificate is accepted exactly if its fingerprint is one of the
    pinned ones, whichever address it is pinned for. *)
Theorem verify_pins `{Crypto} v cert :
  verify_server_cert v cert = inl tt <->
  snapshot v = ∅ \/ exists addr, snapshot v !! addr = Some (fingerprint cert).
Proof.
  unfold verify_server_cert. case_bool_decide as E; [split; auto|].
  destruct (existsb _ _) eqn:X.
  - split; [|done]. intros _. right. apply existsb_exists in X as ([a h] & Hin & Hb).
    apply bool_decide_eq_true in Hb. cbn in Hb. subst h. exists a.
    by apply elem_of_map_to_list, list_elem_of_In.
  - split; [done|]. intros [?|[a Ha]]; [done|]. exfalso. apply not_true_iff_false in X. apply X, existsb_exists.
    exists (a, fingerprint cert). split; [by apply list_elem_of_In, elem_of_map_to_list|].
    by apply bool_decide_eq_true.
Qed.

(** A certificate pinned for one peer passes for every other pinned peer. *)
Example other_peers_certificate `{Crypto} cert h :
  verify_server_cert (from_snapshot (pin "198.51.100.7:9" h (pin "192.0.2.1:9" (fingerprint cert) ∅))) cert
  = inl tt.
Proof. apply verify_pins. right. by exists "192.0.2.1:9". Qed.

End CertFacts.

(** ** The metrics endpoint *)

Module Prometheus.

Definition nl : string := String (Ascii.ascii_of_nat 10) EmptyString.
Definition cr : string := String (Ascii.ascii_of_nat 13) EmptyString.

(** The entries of [render_prometheus], the values apart.  No code counts
    evicted objects: that counter stays zero. *)
Definition entries (m : Metrics.t) : list (string * string * N) :=
  [("sidevers_envelopes_total", "Total inbound envelopes (before any gate).", m Metrics.EnvelopesTotal);
   ("sidevers_envelopes_dropped_reputation_total", "Envelopes dropped by reputation/rate-limit gate.",
    m Metrics.DroppedReputation);
   ("sidevers_envelopes_dropped_freshness_total", "Envelopes dropped by freshness check.",
    m Metrics.DroppedFreshness);
   ("sidevers_envelopes_dropped_replay_total", "Envelopes dropped by replay-cache match.",
    m Metrics.DroppedReplay);
   ("sidevers_envelopes_dropped_skew_hard_total", "Envelopes dropped for exceeding SOFT_MAX_SKEW_SECS.",
    m Metrics.DroppedSkewHard);
   ("sidevers_envelopes_warned_skew_soft_total",
    "Envelopes accepted in soft-skew band (DEFAULT < skew <= SOFT).", m Metrics.WarnedSkewSoft);
   ("sidevers_handshake_throttled_total", "Handshake attempts refused by per-source rate limit.",
    m Metrics.HandshakeThrottled);
   ("sidevers_dms_received_total", "Direct messages successfully delivered to the inbox channel.",
    m Metrics.DmReceived);
   ("sidevers_broadcasts_received_total", "Public broadcasts successfully delivered to the gossip channel.",
    m Metrics.BroadcastsReceived);
   ("sidevers_verse_posts_received_total", "Verse posts successfully delivered to the verse channel.",
    m Metrics.VersePostReceived);
   ("sidevers_linkage_proofs_received_total", "Linkage proofs successfully delivered to the linkage channel.",
    m Metrics.LinkageProofReceived);
   ("sidevers_forward_deliver_retries_total",
    "Times a held message was re-stored after a transient send failure.", m Metrics.ForwardRetries);
   ("sidevers_storage_retract_ignored_total",
    "STORAGE_RETRACT envelopes dropped because the sender wasn't a recorded publisher.",
    m Metrics.StorageRetractIgnored);
   ("sidevers_storage_objects_evicted_total", "Object-store evictions performed by the LRU policy.", 0)].

Definition render_entry (e : string * string * N) : string :=
  let '(name, help, value) := e in
  "# HELP " +:+ name +:+ " " +:+ help +:+ nl
  +:+ "# TYPE " +:+ name +:+ " counter" +:+ nl
  +:+ name +:+ " " +:+ pretty value +:+ nl.

Definition render_prometheus (m : Metrics.t) : string :=
  fold_right (fun e rest => render_entry e +:+ rest) "" (entries m).

(** The answer to any request; the body is ASCII. *)
Definition response (m : Metrics.t) : string :=
  let body := render_prometheus m in
  "HTTP/1.1 200 OK" +:+ cr +:+ nl +:+ "Content-Type: text/plain; version=0.0.4" +:+ cr +:+ nl
  +:+ "Content-Length: " +:+ pretty (N.of_nat (String.length body)) +:+ cr +:+ nl
  +:+ "Connection: close" +:+ cr +:+ nl +:+ cr +:+ nl +:+ body.

Lemma string_append_assoc (s1 s2 s3 : string) : s1 +:+ s2 +:+ s3 = (s1 +:+ s2) +:+ s3.
Proof. induction s1 as [|c s1 IH]; [done|]. exact (f_equal (String c) IH). Qed.

(** Every counter has its line. *)
Lemma render_shows m e :
  e ∈ entries m -> exists before after, render_prometheus m = before +:+ render_entry e +:+ after.
Proof.
  unfold render_prometheus. induction (entries m) as [|e' es IH]; [by intros ?%not_elem_of_nil|].
  intros [->|Hin]%elem_of_cons; cbn [fold_right].
  - by exists "", (fold_right (fun e rest => render_entry e +:+ rest) "" es).
  - destruct (IH Hin) as (before & after & ->). exists (render_entry e' +:+ before), after.
    by rewrite string_append_assoc.
Qed.

End Prometheus.

(** ** Concrete instances *)

Module TransportExamples.
Import Pool PoolFacts HolePunch HolePunchFacts.

Definition phone : bytes := replicate 32 Byte.x01.
Definition laptop : bytes := replicate 32 Byte.x02.

(** Connection 7 is opened for one side, 8 for another; 7 is closed later. *)
Definition calls : list call :=
  [Insert "10.0.0.1:9" phone 7%nat; Get (fun _ => false) "10.0.0.1:9" phone; Insert "10.0.0.1:9" laptop 8%nat].

Lemma pool_get_exact_witness :
  (get (Nat.eqb 7) "10.0.0.1:9" phone (run_calls calls new)).1 = None /\
  forall c, (get (Nat.eqb 7) "10.0.0.1:9" phone (run_calls calls new)).1 = Some c ->
    Insert "10.0.0.1:9" phone c ∈ calls /\ Nat.eqb 7 c = false.
Proof. apply (pool_get_exact (Nat.eqb 7) "10.0.0.1:9" phone calls). by repeat constructor. Defined.

Example pool_keeps_sides_apart :
  (get (Nat.eqb 7) "10.0.0.1:9" laptop (run_calls calls new)).1 = Some 8%nat.
Proof. vm_compute. reflexivity. Qed.

(** The third dial gets through. *)
Definition nat_opens (i : nat) : outcome nat :=
  match i with 0%nat => TimedOut | 1%nat => Failed ReadExact | _ => Dialled 42%nat end.

Example third_dial :
  hole_punch_with default_config nat_opens = ([Dial 0; Sleep 250; Dial 1; Sleep 250; Dial 2], NOk 42%nat).
Proof. reflexivity. Qed.

Example gives_up :
  hole_punch_with {| attempts := 3; attempt_timeout := 20; backoff := 1 |} (fun _ => @Failed nat ReadExact)
  = ([Dial 0; Sleep 1; Dial 1; Sleep 1; Dial 2], NErr unreachable).
Proof. reflexivity. Qed.

Example zero_baseline :
  Prometheus.render_entry ("sidevers_handshake_throttled_total", "Help.", 0)
  = "# HELP sidevers_handshake_throttled_total Help." +:+ Prometheus.nl
    +:+ "# TYPE sidevers_handshake_throttled_total counter" +:+ Prometheus.nl
    +:+ "sidevers_handshake_throttled_total 0" +:+ Prometheus.nl.
Proof. reflexivity. Qed.

End TransportExamples.
