(* ===== verification/Dialing.v ===== *)
(** How a node opens and accepts connections ([sidevers-net/src/node.rs]):
    [dial], [dial_pooled], [dial_from], [dial_anonymous], [hole_punch_dial] and
    [handle_connection] up to the choice of the server.

    What quinn does is given: [connected] is the outcome of connecting an
    endpoint to the peer, [handshake c k] the outcome of [run_initiator] as the
    side [k] on the connection [c], which [Connection.v] defines on the bytes
    the peer sends; for an accepted connection these bytes are an argument. *)

From S2P Require Import Prelude Keys Envelope Payload Handshake Discovery Replay Reputation NetTables Containers Session Connection Storage Node SideState DirectServer Host Limiter Transport.

Open Scope N_scope.

(** ** Outgoing connections *)

Record Dialer (Conn : Type) := {
  services : Services;
  pool : Pool.t Conn;
  dial_extras : list (Side * string)
}.
Arguments services {Conn} d : rename.
Arguments pool {Conn} d : rename.
Arguments dial_extras {Conn} d : rename.
Arguments Build_Dialer {Conn} services pool dial_extras : rename.

Section Dial.
Context {Conn : Type} `{HashIter, Crypto}.

Definition with_pool (p : Pool.t Conn) (d : Dialer Conn) : Dialer Conn :=
  Build_Dialer (services d) p (dial_extras d).

(** [services.peers.insert(PeerInfo { .. })] after a handshake. *)
Definition note_peer (session : Session) (i : Intent.t) (endpoint : string) (clock : Clock) (s : Services)
    : Services :=
  with_peers (Peers.insert
    {| PeerInfo.address := peer_side session; PeerInfo.intents := [Intent.as_u8 i];
       PeerInfo.endpoints := [endpoint]; PeerInfo.last_seen := unix_now clock |} (peers s)) s.

Definition note_dialled (session : Session) (i : Intent.t) (endpoint : string) (clock : Clock)
    (d : Dialer Conn) : Dialer Conn :=
  Build_Dialer (note_peer session i endpoint clock (services d)) (pool d) (dial_extras d).

Context (connected : nresult Conn) (handshake : Conn -> SideKey -> Intent.t -> nresult Session).

Definition dial (clock : Clock) (peer_addr : string) (i : Intent.t) (d : Dialer Conn)
    : nresult Session * Dialer Conn :=
  match connected with
  | NErr e => (NErr e, d)
  | NOk conn =>
    match handshake conn (side (services d)) i with
    | NErr e => (NErr e, d)
    | NOk session =>
      let d := with_pool (Pool.insert peer_addr (public_bytes (side (services d))) conn (pool d)) d in
      (NOk session, note_dialled session i peer_addr clock d)
    end
  end.

Definition dial_pooled (closed : Conn -> bool) (clock : Clock) (peer_addr : string) (i : Intent.t)
    (d : Dialer Conn) : nresult Session * Dialer Conn :=
  let side_pk := public_bytes (side (services d)) in
  let '(cached, p) := Pool.get closed peer_addr side_pk (pool d) in
  let d := with_pool p d in
  match cached with
  | Some conn =>
    match handshake conn (side (services d)) i with
    | NOk session => (NOk session, note_dialled session i peer_addr clock d)
    | NErr _ => dial clock peer_addr i (with_pool (Pool.invalidate peer_addr side_pk (pool d)) d)
    end
  | None => dial clock peer_addr i d
  end.

(** [connected] is for the endpoint of the side that dials. *)
Definition dial_from (clock : Clock) (side_addr : bytes) (peer_addr : string) (i : Intent.t) (d : Dialer Conn)
    : nresult Session * Dialer Conn :=
  if bool_decide (public_bytes (side (services d)) = side_addr) then dial clock peer_addr i d
  else
    match find_extra side_addr (dial_extras d) with
    | None => (NErr (NetInvariant "dial_from: side not hosted"), d)
    | Some (_, (s, _)) =>
      match (conn ← connected; handshake conn (keypair s) i) with
      | NErr e => (NErr e, d)
      | NOk session => (NOk session, note_dialled session i peer_addr clock d)
      end
    end.

(** [seed] is the fresh master's. *)
Definition dial_anonymous (seed : bytes) (i : Intent.t) : nresult (Session * SideKey) :=
  let ephemeral_side := derive_side {| master_seed := seed |} "anon" in
  conn ← connected;
  session ← handshake conn ephemeral_side i;
  mret (session, ephemeral_side).

(** One task of [push_delta_to_co_holders], by the endpoint of the node;
    [parses] is [str::parse::<SocketAddr>].  The caller sees none of its errors. *)
Definition push_delta (parses : string -> bool) (side_key : SideKey) (clock : Clock) (rnd : bytes) (p : Push)
    : nresult bytes :=
  _ ← nensure (parses (Host.dial p)) (NetInvariant "push_delta: dial address");
  conn ← connected;
  session ← handshake conn side_key Intent.Direct;
  env ← core (push_envelope side_key session clock rnd (push_payload p));
  open_and_send session env.

End Dial.

(** [dials i] is the network of the attempt [i], and whether it took longer
    than the attempt's timeout; the node changes from attempt to attempt. *)
Section Punch.
Context {Conn : Type} `{HashIter, Crypto}.

Record Attempt := {
  at_connected : nresult Conn;
  at_handshake : Conn -> SideKey -> Intent.t -> nresult Session;
  at_clock : Clock;
  late : bool
}.

(** The node before attempt [n].  An attempt that is cut off has not reached
    the pool and the peer table, which are written at its end. *)
Fixpoint before_attempt (dials : nat -> Attempt) (peer_addr : string) (i : Intent.t) (n : nat)
    (d : Dialer Conn) : Dialer Conn :=
  match n with
  | O => d
  | S n =>
    let d := before_attempt dials peer_addr i n d in
    let a := dials n in
    if late a then d else (dial (at_connected a) (at_handshake a) (at_clock a) peer_addr i d).2
  end.

Definition dial_once (dials : nat -> Attempt) (peer_addr : string) (i : Intent.t) (d : Dialer Conn) (n : nat)
    : HolePunch.outcome Session :=
  let a := dials n in
  if late a then HolePunch.TimedOut
  else
    match (dial (at_connected a) (at_handshake a) (at_clock a) peer_addr i
             (before_attempt dials peer_addr i n d)).1 with
    | NOk session => HolePunch.Dialled session
    | NErr e => HolePunch.Failed e
    end.

Definition hole_punch_dial (config : HolePunch.HolePunchConfig) (dials : nat -> Attempt) (peer_addr : string)
    (i : Intent.t) (d : Dialer Conn) : list HolePunch.action * nresult Session :=
  HolePunch.hole_punch_with config (dial_once dials peer_addr i d).

End Punch.

(** ** Incoming connections *)

(** Which server takes over the connection. *)
Inductive served :=
| Throttled                                (* closed without a handshake *)
| NoHandshake (e : net_error)
| ServeDirect (session : Session) | ServeStorage (session : Session) | ServeGossip (session : Session)
| ServeVerse (session : Session)
| NotImplemented (session : Session).      (* the public layer: closed *)

(** The servers of an intent. *)
Definition serve_intent (session : Session) : served :=
  match intent session with
  | Intent.Direct => ServeDirect session
  | Intent.Storage => ServeStorage session
  | Intent.Gossip => ServeGossip session
  | Intent.Verse => ServeVerse session
  | Intent.PublicLayer => NotImplemented session
  end.

(** An incoming connection: its source, the bytes of its handshake stream, and
    the key, clock and nonce the responder uses. *)
Record Incoming := {
  remote_ip : string;
  remote_address : string;
  hs_stream : bytes;
  hs_eph : bytes;
  hs_now : N;
  hs_nonce : bytes;
  hs_clock : Clock
}.

Section Accept.
Context `{HashIter, Crypto, Ecies}.

(** What it writes to the handshake stream, what comes of it, and the state. *)
Definition handle_connection (now : F64.t) (c : Incoming) (st : Services * HandshakeLimiter)
    : bytes * served * (Services * HandshakeLimiter) :=
  let '(s, limit) := st in
  let '(ok, limit) := try_acquire now (remote_ip c) limit in
  if negb ok then ([], Throttled, (Node.incr Metrics.HandshakeThrottled s, limit))
  else
    let '(w, r) := run_responder_inner (side s) (hs_eph c) (hs_now c) (hs_nonce c) (hs_stream c) in
    match r with
    | NErr e => (w, NoHandshake e, (s, limit))
    | NOk (session, _) =>
      (w, serve_intent session, (note_peer session (intent session) (remote_address c) (hs_clock c) s, limit))
    end.

(** Connections accepted at one instant, in the order the limiter's lock
    serves them. *)
Fixpoint handle_connections (now : F64.t) (cs : list Incoming) (st : Services * HandshakeLimiter)
    : list (bytes * served) * (Services * HandshakeLimiter) :=
  match cs with
  | [] => ([], st)
  | c :: cs' =>
    let '(out, st1) := handle_connection now c st in
    let '(outs, st2) := handle_connections now cs' st1 in
    (out :: outs, st2)
  end.

End Accept.

(** ** Lemmas *)

Lemma peers_insert_get `{HashIter} info t : Peers.get (PeerInfo.address info) (Peers.insert info t) = Some info.
Proof. unfold Peers.get, Peers.insert. cbn [Peers.inner Peers.with_inner]. apply lookup_insert_eq. Qed.

(** ** Properties *)

(** [dial] on a pool that has no connection for this address. *)
Lemma dial_at {Conn} `{HashIter, Crypto} connected (handshake : Conn -> SideKey -> Intent.t -> nresult Session)
    clock addr i d :
  let me := side (services d) in
  pool d !! (addr, public_bytes me) = None ->
  let '(r, d') := dial connected handshake clock addr i d in
  match r with
  | NOk session =>
    (exists info, Peers.get (peer_side session) (peers (services d')) = Some info /\
       PeerInfo.endpoints info = [addr] /\ PeerInfo.intents info = [Intent.as_u8 i]) /\
    exists c, connected = NOk c /\ handshake c me i = NOk session /\
      pool d' !! (addr, public_bytes me) = Some c
  | NErr e =>
    services d' = services d /\ pool d' !! (addr, public_bytes me) = None /\
    (connected = NErr e \/ exists c, connected = NOk c /\ handshake c me i = NErr e)
  end.
Proof.
  intros me Hp. unfold dial. destruct connected as [c|e]; [|by split_and!; auto]. fold me.
  destruct (handshake c me i) as [session|e] eqn:Eh; [|by split_and!; eauto].
  split; [eexists; split; [apply (peers_insert_get (PeerInfo.Build_t _ _ _ _))|done]|].
  exists c. split_and!; [done|done|]. cbn. rewrite PoolFacts.insert_lookup. by case_decide.
Qed.

(** A pooled dial uses a connection the pool has for this address under the
    node's own side, if one is open, and otherwise dials.  When it returns a
    session, that session comes from a handshake as the node's side on that
    connection or on the fresh one, and the peer is in the peer table; a
    cached connection whose handshake failed is not left in the pool: it is
    gone or replaced by the fresh one. *)
Theorem dial_pooled_spec {Conn} `{HashIter, Crypto} connected (handshake : Conn -> SideKey -> Intent.t -> nresult Session)
    closed clock addr i d :
  let me := side (services d) in
  let cached := (Pool.get closed addr (public_bytes me) (pool d)).1 in
  let '(r, d') := dial_pooled connected handshake closed clock addr i d in
  match r with
  | NOk session =>
    (exists info, Peers.get (peer_side session) (peers (services d')) = Some info /\
       PeerInfo.endpoints info = [addr] /\ PeerInfo.intents info = [Intent.as_u8 i]) /\
    ((exists c, cached = Some c /\ handshake c me i = NOk session /\
        (Pool.get closed addr (public_bytes me) (pool d')).1 = Some c) \/
     (exists c, connected = NOk c /\ handshake c me i = NOk session /\
        pool d' !! (addr, public_bytes me) = Some c /\
        forall c0, cached = Some c0 -> exists e, handshake c0 me i = NErr e))
  | NErr e =>
    services d' = services d /\ pool d' !! (addr, public_bytes me) = None /\
    (connected = NErr e \/ exists c, connected = NOk c /\ handshake c me i = NErr e) /\
    forall c0, cached = Some c0 -> exists e0, handshake c0 me i = NErr e0
  end.
Proof.
  intros me cached. unfold dial_pooled. fold me. cbn [Pool.get] in *. cbn [fst] in cached.
  set (p := Pool.sweep closed (pool d)) in *.
  change (side (services (with_pool p d))) with me.
  change (p !! (addr, public_bytes me)) with cached.
  assert (cached = None \/ exists c, cached = Some c) as [Ec|[c Ec]] by (destruct cached; eauto).
  - rewrite Ec. pose proof (dial_at connected handshake clock addr i (with_pool p d) Ec) as Hdial.
    destruct (dial _ _ _ _ _ _) as [[session|e] d'].
    + destruct Hdial as [Hi (c1 & ? & ? & ?)]. split; [done|]. right. exists c1. by split_and!.
    + destruct Hdial as (? & ? & ?). by split_and!.
  - rewrite Ec. destruct (handshake c me i) as [session|e0] eqn:Eh.
    + split; [eexists; split; [apply (peers_insert_get (PeerInfo.Build_t _ _ _ _))|done]|].
      left. exists c. split_and!; [done|done|]. cbn. unfold p. by rewrite PoolFacts.sweep_idemp.
    + pose proof (dial_at connected handshake clock addr i
        (with_pool (Pool.invalidate addr (public_bytes me) p) (with_pool p d))) as Hdial.
      cbn [pool with_pool services] in *. rewrite PoolFacts.invalidate_lookup, decide_True in Hdial by done.
      specialize (Hdial eq_refl).
      destruct (dial _ _ _ _ _ _) as [[session|e] d'].
      * destruct Hdial as [Hi (c1 & ? & ? & ?)]. split; [done|]. right. exists c1. split_and!; try done.
        intros c0 [= <-]. eauto.
      * destruct Hdial as (? & ? & ?). split_and!; try done. intros c0 [= <-]. eauto.
Qed.

(** What the outcome of a connection says about the peer. *)
Definition session_of (x : served) : option Session :=
  match x with
  | ServeDirect session | ServeStorage session | ServeGossip session | ServeVerse session
  | NotImplemented session => Some session
  | Throttled | NoHandshake _ => None
  end.

Lemma session_of_intent session : session_of (serve_intent session) = Some session.
Proof. unfold serve_intent. by destruct (intent session). Qed.

(** One connection at the instant [now], after those from the addresses [ips]. *)
Lemma handle_connection_at `{HashIter, Crypto, Ecies} now ips c s l :
  F64.finite now -> table_after now ips l ->
  let '((w, x), (s', l')) := handle_connection now c (s, l) in
  table_after now (ips ++ [remote_ip c]) l' /\ side s' = side s /\
  ((8 <= count (remote_ip c) ips /\ w = [] /\ x = Throttled /\ s' = Node.incr Metrics.HandshakeThrottled s) \/
   (count (remote_ip c) ips < 8 /\
    ((exists e, x = NoHandshake e /\ s' = s) \/
     exists session rest,
       run_responder_inner (side s) (hs_eph c) (hs_now c) (hs_nonce c) (hs_stream c) = (w, NOk (session, rest)) /\
       x = serve_intent session /\
       exists info, Peers.get (peer_side session) (peers s') = Some info /\
         PeerInfo.endpoints info = [remote_address c] /\
         PeerInfo.intents info = [Intent.as_u8 (intent session)]))).
Proof.
  intros F T. unfold handle_connection. pose proof (try_acquire_at now ips (remote_ip c) l F T) as Ht.
  destruct (try_acquire now (remote_ip c) l) as [ok l']. destruct Ht as [-> Ht].
  destruct (N.ltb_spec (count (remote_ip c) ips) 8) as [Hc|Hc]; cbn [negb].
  - destruct (run_responder_inner _ _ _ _ _) as [w [[session rest]|e]] eqn:E.
    + split_and!; [done|done|]. right. split; [done|]. right. exists session, rest. split_and!; [done|done|].
      eexists. split; [apply (peers_insert_get (PeerInfo.Build_t _ _ _ _))|done].
    + split_and!; [done|done|]. right. split; [done|]. left. eauto.
  - split_and!; [done|done|]. by left.
Qed.


(** ** Concrete instances *)

Module DialingExamples.
Import Toy ToyEcies ToyIter SessionExamples ConnectionExamples LimiterExamples.

Definition node : Services :=
  Build_Services side2 Objects.open Replay.new (Peers.new 256) ∅ Gossip.new ∅
    (Reputation.new Reputation.default_policy) ∅ Open ∅ Metrics.new.

Definition from_ip (ip : string) (stream : bytes) : Incoming := {|
  remote_ip := ip; remote_address := (ip ++ ":4433")%string; hs_stream := stream; hs_eph := n2; hs_now := 8;
  hs_nonce := n1; hs_clock := Some 1700000000 |}.

(** Eight empty connections, a good one from elsewhere and a ninth. *)
Definition flood : list Incoming :=
  replicate 8 (from_ip "10.0.0.1" []) ++ [from_ip "10.0.0.2" wire; from_ip "10.0.0.1" wire].


Example flood_outcomes :
  map snd (handle_connections noon flood (node, default_limiter)).1 =
  replicate 8 (NoHandshake ReadExact) ++ [serve_intent responder_session; Throttled].
Proof. vm_compute. reflexivity. Qed.

(** A cached connection the peer has dropped is replaced by a fresh one. *)
Definition stale : Dialer N :=
  Build_Dialer node {[ ("10.0.0.2:4433"%string, public_bytes side2) := 1 ]} [].

Definition peer_shake (c : N) (k : SideKey) (i : Intent.t) : nresult Session :=
  if decide (c = 1) then NErr ReadExact else NOk responder_session.

Example stale_connection_replaced :
  let '(r, d) := dial_pooled (NOk 2) peer_shake (fun _ => false) (Some 5) "10.0.0.2:4433" Intent.Verse stale in
  r = NOk responder_session /\ pool d !! ("10.0.0.2:4433"%string, public_bytes side2) = Some 2.
Proof. vm_compute. split; reflexivity. Qed.

End DialingExamples.
