(* ===== verification/Address.v ===== *)
(** Network addresses ([sidevers-core/src/address.rs]): a public key and a
    kind, written in bech32m under the prefix ["sv"] or ["svv"].

    The bech32 crate is the class [Bech32]: its encoder for the [m] variant,
    its decoder, which accepts both variants, and the documented behaviour the
    program relies on.  [str::to_lowercase] is defined on ASCII; what the
    Unicode tables say beyond it is the argument [unicode_lower]. *)

From S2P Require Import Prelude Utf8 Keys.
From stdpp Require Import strings pretty.

Open Scope N_scope.

(** ** Strings *)

Definition is_ascii (s : string) : bool := forallb (in_range 0 0x7F) (as_bytes s).

(** [s.chars().any(|c| c.is_ascii_uppercase())]: in UTF-8 an ASCII character
    is the byte of its code, and no other character has such a byte. *)
Definition has_upper (s : string) : bool := existsb (in_range 0x41 0x5A) (as_bytes s).
Definition has_lower (s : string) : bool := existsb (in_range 0x61 0x7A) (as_bytes s).

Definition byte_lower (b : byte) : byte :=
  if in_range 0x41 0x5A b then default b (Byte.of_N (Byte.to_N b + 32)) else b.

Definition ascii_lower (s : string) : string := of_bytes (map byte_lower (as_bytes s)).

(** ** The bech32 crate *)

Class Bech32 := {
  (* [bech32::encode::<Bech32m>(hrp, data)] *)
  bech32m_encode : string -> bytes -> string + string;
  (* [bech32::decode(s)], for either variant of the checksum *)
  bech32_decode : string -> string + (string * bytes);
  (* [str::to_lowercase] of a string that is not ASCII *)
  unicode_lower : string -> string
}.

(** The two prefixes the program passes. *)
Definition HRP_SIDE : string := "sv".
Definition HRP_VERSE : string := "svv".

Class Bech32Laws `{Bech32} := {
  (* far below the 1023 characters of a code word *)
  encode_short hrp data :
    hrp ∈ [HRP_SIDE; HRP_VERSE] -> blen data = 32 -> exists s, bech32m_encode hrp data = inr s;
  (* the encoder writes lowercase ASCII *)
  encode_lowercase hrp data s :
    hrp ∈ [HRP_SIDE; HRP_VERSE] -> bech32m_encode hrp data = inr s -> is_ascii s = true /\ has_upper s = false;
  decode_encode hrp data s :
    hrp ∈ [HRP_SIDE; HRP_VERSE] -> bech32m_encode hrp data = inr s -> bech32_decode s = inr (hrp, data)
}.

(** ** Addresses *)

Module AddressKind.

Inductive t := Side | Verse.

#[global] Instance eq_dec : EqDecision t.
Proof. solve_decision. Defined.

Definition hrp_str (k : t) : string := match k with Side => HRP_SIDE | Verse => HRP_VERSE end.

(** [Hrp::parse_unchecked(self.hrp_str())], an [Hrp] being its text. *)
Definition hrp (k : t) : string := hrp_str k.

End AddressKind.

Record Address := { kind : AddressKind.t; key : bytes }.

Definition new (kind : AddressKind.t) (key : bytes) : Address := {| kind := kind; key := key |}.
Definition from_public_key (kind : AddressKind.t) (pk : PublicKey) : Address := new kind (pk_bytes pk).

#[export] Instance address_eq_dec : EqDecision Address.
Proof. solve_decision. Defined.

(** Every [Address] holds 32 bytes. *)
Definition wf_address (a : Address) : Prop := blen (key a) = PUBLIC_KEY_LEN.

Section Address.
Context `{Bech32}.

Definition to_lowercase (s : string) : string := if is_ascii s then ascii_lower s else unicode_lower s.

Definition public_key `{Crypto} (a : Address) : result PublicKey := pk_from_bytes (key a).

(** [encode]; [None] where the [expect] panics. *)
Definition encode (a : Address) : option string :=
  match bech32m_encode (AddressKind.hrp (kind a)) (key a) with inr s => Some s | inl _ => None end.

Definition parse (s : string) : result Address :=
  if has_upper s && has_lower s then Err (Error.Address "mixed case not allowed")
  else
    let canonical := to_lowercase s in
    match bech32_decode canonical with
    | inl e => Err (Error.Address ("bech32 decode: " +:+ e))
    | inr (hrp, data) =>
      kind ← (if String.eqb hrp HRP_SIDE then Ok AddressKind.Side
              else if String.eqb hrp HRP_VERSE then Ok AddressKind.Verse
              else Err (Error.Address ("unknown HRP: " +:+ hrp)));
      _ ← ensure (blen data =? PUBLIC_KEY_LEN)
            (Error.Address ("expected " +:+ pretty PUBLIC_KEY_LEN +:+ " bytes, got " +:+ pretty (blen data)));
      match bech32m_encode hrp data with
      | inl e => Err (Error.Address ("re-encode failed: " +:+ e))
      | inr reencoded =>
        if String.eqb reencoded canonical then Ok {| kind := kind; key := data |}
        else Err (Error.Address "non-canonical encoding (not bech32m)")
      end
    end.

(** [Debug], and [Display]. *)
Definition fmt_debug (a : Address) : option string := s ← encode a; Some ("Address(" +:+ s +:+ ")").
Definition fmt_display (a : Address) : option string := encode a.

End Address.

(** ** Lemmas *)

Section Facts.
Context `{Bech32Laws}.

Lemma hrp_known k : AddressKind.hrp k ∈ [HRP_SIDE; HRP_VERSE].
Proof. destruct k; set_solver. Qed.

Lemma encode_total a : wf_address a -> exists s, encode a = Some s.
Proof.
  intros W. destruct (encode_short _ _ (hrp_known (kind a)) W) as [s Es]. exists s. unfold encode. by rewrite Es.
Qed.

Lemma encode_inr a s : encode a = Some s <-> bech32m_encode (AddressKind.hrp (kind a)) (key a) = inr s.
Proof. unfold encode. destruct (bech32m_encode _ _); naive_solver. Qed.

Lemma byte_lower_id b : in_range 0x41 0x5A b = false -> byte_lower b = b.
Proof. unfold byte_lower. by intros ->. Qed.

Lemma ascii_lower_id s : has_upper s = false -> ascii_lower s = s.
Proof.
  unfold has_upper, ascii_lower. intros U.
  rewrite <-(String.string_of_list_byte_of_string s) at 2. unfold of_bytes. f_equal. fold (as_bytes s).
  induction (as_bytes s) as [|b l IH]; [done|]. cbn in *. apply orb_false_iff in U as [Ub U].
  rewrite byte_lower_id, IH; done.
Qed.

Lemma encode_fixed a s : encode a = Some s -> to_lowercase s = s /\ has_upper s = false.
Proof.
  intros Es%encode_inr. destruct (encode_lowercase _ _ _ (hrp_known _) Es) as [A U].
  unfold to_lowercase. rewrite A. split; [by apply ascii_lower_id|done].
Qed.

Lemma kind_of_hrp k :
  (if String.eqb (AddressKind.hrp k) HRP_SIDE then Ok AddressKind.Side
   else if String.eqb (AddressKind.hrp k) HRP_VERSE then Ok AddressKind.Verse
   else Err (Error.Address ("unknown HRP: " +:+ AddressKind.hrp k))) = Ok k.
Proof. by destruct k. Qed.

Lemma parse_ok s a :
  wf_address a ->
  (parse s = Ok a <-> (has_upper s = false \/ has_lower s = false) /\ encode a = Some (to_lowercase s)).
Proof.
  intros W. unfold parse. destruct (has_upper s && has_lower s) eqn:M.
  { apply andb_true_iff in M as [-> ->]. naive_solver. }
  apply andb_false_iff in M. rewrite encode_inr. split.
  - intros E. split; [done|]. revert E. destruct (bech32_decode _) as [e|[hrp data]]; [done|].
    destruct (String.eqb_spec hrp HRP_SIDE) as [->|_]; [|destruct (String.eqb_spec hrp HRP_VERSE) as [->|_]; [|done]].
    all: cbn; unfold ensure; destruct (blen data =? PUBLIC_KEY_LEN); [cbn|done].
    all: destruct (bech32m_encode _ data) as [e|r] eqn:Er; [done|].
    all: destruct (String.eqb_spec r (to_lowercase s)) as [->|_]; [|done]; by intros [= <-].
  - intros [_ Es]. rewrite (decode_encode _ _ _ (hrp_known _) Es). destruct a as [k data].
    unfold wf_address in W. cbn [key kind] in *. rewrite kind_of_hrp. cbn. unfold ensure. rewrite W, N.eqb_refl.
    cbn. by rewrite Es, String.eqb_refl.
Qed.

Lemma encode_inj a b e : encode a = Some e -> encode b = Some e -> a = b.
Proof.
  intros Ea%encode_inr%(decode_encode _ _ _ (hrp_known _)) Eb%encode_inr%(decode_encode _ _ _ (hrp_known _)).
  rewrite Ea in Eb. destruct a as [[] ?], b as [[] ?]; injection Eb; congruence.
Qed.

End Facts.

(** ** Properties *)

(** C36: parsing accepts exactly the strings, not of mixed case, whose lowercase
    form is the encoding of the address it returns; an address that is encoded
    is parsed back, and two addresses never share an encoding. *)
Theorem parse_exact `{Bech32Laws} s a :
  wf_address a ->
  (parse s = Ok a <-> (has_upper s = false \/ has_lower s = false) /\ encode a = Some (to_lowercase s)) /\
  (exists e, encode a = Some e /\ parse e = Ok a) /\
  forall b, encode b = encode a -> b = a.
Proof.
  intros W. destruct (encode_total a W) as [e Ee]. split; [by apply parse_ok|split].
  - exists e. split; [done|]. apply parse_ok; [done|]. destruct (encode_fixed _ _ Ee) as [-> U]. auto.
  - intros b E. rewrite Ee in E. by eapply encode_inj.
Qed.

Lemma address_key_length `{Bech32} s a : parse s = Ok a -> blen (key a) = PUBLIC_KEY_LEN.
Proof.
  unfold parse. destruct (_ && _); [done|]. destruct (bech32_decode _) as [e|[hrp data]]; [done|].
  intros (k & _ & H1)%result_bind_ok. apply result_bind_ok in H1 as (u & Hl%ensure_ok & H1). to_prop.
  destruct (bech32m_encode hrp data) as [e|r]; [done|]. destruct (String.eqb r _); [|done]. by injection H1 as <-.
Qed.

(** ** Concrete instances *)

Module AddressExamples.
Import Toy.

(** A stand-in for the crate: the prefix, ["1"], each byte as two letters of
    [a..p], and ["m"] or ["b"] for the variant. *)
Definition letter (n : N) : byte := default Byte.x00 (Byte.of_N (97 + n)).
Definition unletter (b : byte) : N := Byte.to_N b - 97.

Definition body (d : bytes) : bytes :=
  flat_map (fun b => [letter (Byte.to_N b / 16); letter (Byte.to_N b mod 16)]) d.

Fixpoint unbody (l : bytes) : bytes :=
  match l with
  | x :: y :: l' => default Byte.x00 (Byte.of_N (16 * unletter x + unletter y)) :: unbody l'
  | _ => []
  end.

Definition toy_encode (hrp : string) (d : bytes) : string :=
  of_bytes (as_bytes hrp ++ [Byte.x31] ++ body d ++ [Byte.x6d]).

Fixpoint split_one (hrp l : bytes) : option (bytes * bytes) :=
  match l with
  | [] => None
  | b :: l' => if Byte.eqb b Byte.x31 then Some (rev hrp, l') else split_one (b :: hrp) l'
  end.

Definition toy_decode (s : string) : string + (string * bytes) :=
  match split_one [] (as_bytes s) with
  | Some (hrp, l) => inr (of_bytes hrp, unbody (removelast l))
  | None => inl "missing separator"%string
  end.

(** KELVIN SIGN (U+212A), in UTF-8, and its lowercase form. *)
Definition kelvin : bytes := [Byte.xe2; Byte.x84; Byte.xaa].

Fixpoint lower_kelvin (l : bytes) : bytes :=
  match l with
  | x :: (y :: z :: l') as t => if decide ([x; y; z] = kelvin) then Byte.x6b :: lower_kelvin l'
                                else byte_lower x :: lower_kelvin t
  | x :: l' => byte_lower x :: lower_kelvin l'
  | [] => []
  end.

#[export] Instance toy_bech32 : Bech32 := {
  bech32m_encode hrp d := inr (toy_encode hrp d);
  bech32_decode := toy_decode;
  unicode_lower s := of_bytes (lower_kelvin (as_bytes s))
}.

Lemma body_cons b d :
  body (b :: d) = letter (Byte.to_N b / 16) :: letter (Byte.to_N b mod 16) :: body d.
Proof. done. Qed.

Lemma body_range d : forallb (in_range 97 112) (body d) = true.
Proof. induction d as [|b d IH]; [done|]. rewrite body_cons. cbn [forallb]. rewrite IH. by destruct b. Qed.

Lemma unbody_body d : unbody (removelast (body d ++ [Byte.x6d])) = d.
Proof.
  rewrite removelast_last. induction d as [|b d IH]; [done|]. rewrite body_cons. cbn [unbody]. rewrite IH.
  by destruct b.
Qed.

#[export] Instance toy_bech32_laws : Bech32Laws.
Proof.
  split.
  - intros. by eexists.
  - intros hrp d s Hh [= <-]. unfold is_ascii, has_upper, toy_encode.
    rewrite as_bytes_of_bytes. rewrite !forallb_app, !existsb_app.
    assert (forallb (in_range 0 0x7F) (body d) = true /\ existsb (in_range 0x41 0x5A) (body d) = false) as [-> ->].
    { pose proof (body_range d) as R. induction (body d) as [|b l IH]; [done|]. cbn in *.
      apply andb_true_iff in R as [Rb Rl]. destruct (IH Rl) as [-> ->]. rewrite andb_true_r, orb_false_r.
      by destruct b. }
    repeat (apply elem_of_cons in Hh as [->|Hh]; [done|]). by apply elem_of_nil in Hh.
  - intros hrp d s Hh [= <-]. cbn. unfold toy_decode, toy_encode. rewrite as_bytes_of_bytes.
    repeat (apply elem_of_cons in Hh as [->|Hh];
      [cbn -[removelast]; fold (body d); by rewrite unbody_body|]).
    by apply elem_of_nil in Hh.
Qed.

Definition a1 : Address := new AddressKind.Verse (replicate 32 Byte.x1a).

Lemma parse_exact_witness :
  (exists e, encode a1 = Some e /\ parse e = Ok a1) /\ forall b, encode b = encode a1 -> b = a1.
Proof. exact (proj2 (parse_exact "SVV1"%string a1 eq_refl)). Defined.

(** The lowercase and the uppercase form, and one with a single letter raised. *)
Definition upper_byte (b : byte) : byte :=
  if in_range 0x61 0x7A b then default b (Byte.of_N (Byte.to_N b - 32)) else b.

Example cases :
  let e := as_bytes (default ""%string (encode a1)) in
  parse (of_bytes e) = Ok a1 /\ parse (of_bytes (map upper_byte e)) = Ok a1 /\
  parse (of_bytes (upper_byte (hd Byte.x00 e) :: tl e)) = Err (Error.Address "mixed case not allowed").
Proof. vm_compute. auto. Qed.

(** With the KELVIN SIGN where the encoding has a [k], the text is parsed,
    though it is not ASCII. *)
Example kelvin_accepted :
  let e := as_bytes (default ""%string (encode a1)) in
  let s := of_bytes (take 5 e ++ kelvin ++ drop 6 e) in
  e !! 5%nat = Some Byte.x6b /\ is_ascii s = false /\ parse s = Ok a1.
Proof. vm_compute. auto. Qed.

End AddressExamples.
