(* ===== verification/Sas.v ===== *)
(** What a node shows of a transcript and of a key: the short authentication
    string of a pairing ([sidevers-core/src/sas.rs]) and the log-safe form of
    an identifier ([sidevers-core/src/log_id.rs]). *)

From S2P Require Import Prelude Utf8 Keys Device.
From stdpp Require Import strings.

Open Scope N_scope.

(** ** Short authentication strings *)

Module Sas.

Definition SAS_LABEL : bytes := as_bytes "sidevers/v1/pairing-sas".
Definition SAS_WORD_COUNT : nat := 6.

Definition WORDLIST : list string := [
  "able"; "acid"; "aged"; "ahoy"; "ajar"; "alive"; "amid"; "amber";
  "ankle"; "april"; "arena"; "arrow"; "atlas"; "aunt"; "axle"; "badge";
  "baker"; "balsa"; "bank"; "barn"; "basil"; "basin"; "bath"; "bay";
  "bead"; "beam"; "bean"; "bear"; "beech"; "beef"; "bell"; "belt";
  "bench"; "berry"; "biome"; "birch"; "bird"; "bison"; "bit"; "blade";
  "blend"; "block"; "blue"; "blunt"; "blush"; "bog"; "bold"; "bolt";
  "bond"; "book"; "boom"; "boot"; "born"; "boss"; "bowl"; "brain";
  "branch"; "brass"; "brave"; "bread"; "brick"; "brief"; "broom"; "brown";
  "brush"; "bud"; "buddy"; "buoy"; "burn"; "bush"; "byte"; "cab";
  "cabin"; "cable"; "cacao"; "cactus"; "cake"; "calm"; "camel"; "camp";
  "candy"; "cane"; "canoe"; "canon"; "canvas"; "cap"; "cape"; "car";
  "carbon"; "card"; "cargo"; "carol"; "carp"; "carry"; "cart"; "cash";
  "cast"; "cat"; "cedar"; "cell"; "chain"; "chair"; "chalk"; "chant";
  "charm"; "chart"; "chase"; "cheek"; "cheer"; "chef"; "chess"; "chest";
  "chief"; "child"; "chime"; "chin"; "chip"; "choir"; "chord"; "chrome";
  "chunk"; "cider"; "cigar"; "cipher"; "city"; "civic"; "clam"; "claw";
  "clay"; "clean"; "clear"; "clerk"; "click"; "cliff"; "climb"; "cloak";
  "clock"; "clog"; "close"; "cloth"; "cloud"; "clove"; "clown"; "club";
  "clump"; "coal"; "coast"; "coat"; "cobra"; "cocoa"; "code"; "coil";
  "coin"; "comet"; "comic"; "cone"; "cook"; "cool"; "copy"; "coral";
  "core"; "cork"; "corn"; "cost"; "couch"; "court"; "cover"; "cow";
  "crack"; "craft"; "cramp"; "crane"; "crash"; "crate"; "crawl"; "crazy";
  "creak"; "cream"; "creek"; "crepe"; "crew"; "crib"; "cried"; "crime";
  "crisp"; "crop"; "cross"; "crow"; "crown"; "cruel"; "crumb"; "crush";
  "crust"; "cry"; "cube"; "cuff"; "curl"; "curse"; "curve"; "cushy";
  "cute"; "cyan"; "cycle"; "daily"; "dairy"; "dance"; "dart"; "dash";
  "data"; "date"; "dawn"; "day"; "deaf"; "deal"; "dear"; "debt";
  "decoy"; "deed"; "deep"; "deer"; "delay"; "delta"; "den"; "dense";
  "depot"; "derby"; "desk"; "diary"; "dice"; "diet"; "dig"; "dime";
  "diner"; "ding"; "dingo"; "disco"; "ditch"; "dive"; "dizzy"; "dock";
  "dodge"; "doe"; "dog"; "doll"; "donkey"; "donut"; "door"; "dose";
  "doted"; "dough"; "dove"; "dozen"; "draft"; "drag"; "drain"; "drama"
]%string.

(** The [const] block: the length, every word, every pair of words.  An
    assertion that fails is a build that fails. *)
Definition lowercase_word (w : string) : bool :=
  negb (Nat.eqb (length (as_bytes w)) 0) && forallb (in_range 0x61 0x7A) (as_bytes w).

(** The inner comparison, byte by byte. *)
Fixpoint same_bytes (a b : bytes) : bool :=
  match a, b with
  | x :: a', y :: b' => if Byte.eqb x y then same_bytes a' b' else false
  | _, _ => true
  end.

Definition same_word (a b : string) : bool :=
  let av := as_bytes a in
  let bv := as_bytes b in
  if Nat.eqb (length av) (length bv) then same_bytes av bv else false.

Fixpoint no_duplicates (l : list string) : bool :=
  match l with
  | [] => true
  | a :: l' => forallb (fun b => negb (same_word a b)) l' && no_duplicates l'
  end.

Definition wordlist_check : bool :=
  Nat.eqb (length WORDLIST) 256 && forallb lowercase_word WORDLIST && no_duplicates WORDLIST.

Section Sas.
Context `{Crypto}.

Definition digest (side_pubkey pairing_nonce new_device_eph_pub : bytes) : bytes :=
  blake3 (SAS_LABEL ++ side_pubkey ++ pairing_nonce ++ new_device_eph_pub).

(** [*slot = WORDLIST[bytes[i] as usize]]; [None] where an index panics. *)
Definition slot (bytes_ : bytes) (i : nat) : option string :=
  b ← bytes_ !! i; WORDLIST !! N.to_nat (Byte.to_N b).

Definition pairing_sas (side_pubkey pairing_nonce new_device_eph_pub : bytes) : option (list string) :=
  mapM (slot (digest side_pubkey pairing_nonce new_device_eph_pub)) (seq 0 SAS_WORD_COUNT).

Definition pairing_sas_string (side_pubkey pairing_nonce new_device_eph_pub : bytes) : option string :=
  String.concat " " <$> pairing_sas side_pubkey pairing_nonce new_device_eph_pub.

End Sas.

End Sas.

(** ** Log identifiers *)

Module LogId.

Definition PREFIX_BYTES : N := 4.

(** [write!(f, "{b:02x}")]. *)
Definition hex_digit (n : N) : byte :=
  default Byte.x00 (Byte.of_N (if n <? 10 then 48 + n else 87 + n)).
Definition hex_byte (b : byte) : bytes := [hex_digit (Byte.to_N b / 16); hex_digit (Byte.to_N b mod 16)].

(** ["…"] in UTF-8. *)
Definition ELLIPSIS : bytes := [Byte.xe2; Byte.x80; Byte.xa6].

Definition fmt (key : bytes) : string :=
  let n := N.min (blen key) PREFIX_BYTES in
  of_bytes (flat_map hex_byte (take (N.to_nat n) key) ++ match key with [] => [] | _ => ELLIPSIS end).

End LogId.

(** ** Lemmas *)

Module SasFacts.
Import Sas.

Lemma wordlist_ok : wordlist_check = true.
Proof. vm_compute. reflexivity. Qed.

Lemma same_bytes_refl l : same_bytes l l = true.
Proof. induction l as [|b l IH]; [done|]. cbn. rewrite IH. by destruct b. Qed.

Lemma no_duplicates_NoDup l : no_duplicates l = true -> NoDup l.
Proof.
  induction l as [|a l IH]; [constructor|]. cbn. intros [Ha Hl]%andb_true_iff. constructor; [|by apply IH].
  intros Hin%list_elem_of_In. rewrite forallb_forall in Ha. apply Ha in Hin. unfold same_word in Hin.
  by rewrite Nat.eqb_refl, same_bytes_refl in Hin.
Qed.

Lemma wordlist_NoDup : NoDup WORDLIST.
Proof. apply no_duplicates_NoDup. pose proof wordlist_ok as [_ H]%andb_true_iff. done. Qed.

(** The word of a byte, kept folded: the list is long. *)
Definition word (b : byte) : option string := WORDLIST !! N.to_nat (Byte.to_N b).

Lemma word_of_byte b : exists w, word b = Some w /\ w ∈ WORDLIST /\ lowercase_word w = true.
Proof.
  pose proof wordlist_ok as [[Hl Hw]%andb_true_iff _]%andb_true_iff. apply Nat.eqb_eq in Hl.
  destruct (lookup_lt_is_Some_2 WORDLIST (N.to_nat (Byte.to_N b))) as [w Ew].
  { rewrite Hl. pose proof (Byte.to_N_bounded b). lia. }
  apply list_elem_of_lookup_2 in Ew as Hin. exists w. split_and!; [done|done|].
  rewrite forallb_forall in Hw. by apply Hw, list_elem_of_In.
Qed.

Lemma word_inj a b w :
  word a = Some w -> word b = Some w -> a = b.
Proof.
  intros Ha Hb. pose proof (NoDup_lookup _ _ _ _ wordlist_NoDup Ha Hb) as E%N2Nat.inj.
  assert (Byte.of_N (Byte.to_N a) = Byte.of_N (Byte.to_N b)) as Eb by by rewrite E.
  rewrite !Byte.of_to_N in Eb. congruence.
Qed.

Lemma word_no_space w : lowercase_word w = true -> Byte.x20 ∉ as_bytes w.
Proof.
  intros [_ H]%andb_true_iff Hin%list_elem_of_In. rewrite forallb_forall in H. by specialize (H _ Hin).
Qed.

Lemma mapM_word_cons b l : mapM word (b :: l) = (w ← word b; ws ← mapM word l; Some (w :: ws)).
Proof. done. Qed.

Lemma mapM_word l :
  exists ws, mapM word l = Some ws /\ length ws = length l /\
    Forall (fun w => w ∈ WORDLIST /\ lowercase_word w = true) ws.
Proof.
  induction l as [|b l (ws & E & Hl & Hw)]; [by exists []|].
  destruct (word_of_byte b) as (w & Ew & Hw1). exists (w :: ws). rewrite mapM_word_cons, Ew, E.
  split_and!; [done|by cbn; rewrite Hl|by constructor].
Qed.

Lemma mapM_word_inj l : forall l' ws, mapM word l = Some ws -> mapM word l' = Some ws -> l = l'.
Proof.
  induction l as [|b l IH]; intros [|b' l'] ws E E'; rewrite ?mapM_word_cons in *; simplify_option_eq; try done.
  f_equal; [by eapply word_inj|by eapply IH].
Qed.

Lemma slots d : (6 <= length d)%nat -> mapM (slot d) (seq 0 SAS_WORD_COUNT) = mapM word (take 6 d).
Proof. intros L. do 6 (destruct d as [|? d]; [cbn in L; lia|]). done. Qed.

Lemma as_bytes_app a b : as_bytes (a ++ b)%string = as_bytes a ++ as_bytes b.
Proof.
  induction a as [|c a IH]; [done|].
  change (Ascii.byte_of_ascii c :: as_bytes (a ++ b) = Ascii.byte_of_ascii c :: (as_bytes a ++ as_bytes b)).
  by rewrite IH.
Qed.

Lemma concat_space w w' ws :
  as_bytes (String.concat " " (w :: w' :: ws)) = as_bytes w ++ Byte.x20 :: as_bytes (String.concat " " (w' :: ws)).
Proof.
  assert (String.concat " " (w :: w' :: ws) = (w ++ " " ++ String.concat " " (w' :: ws))%string) as -> by done.
  by rewrite !as_bytes_app.
Qed.

(** Words without spaces are recovered from the joined text. *)
Lemma concat_inj ws : forall vs, length ws = length vs ->
  Forall (fun w => Byte.x20 ∉ as_bytes w) ws -> Forall (fun w => Byte.x20 ∉ as_bytes w) vs ->
  String.concat " " ws = String.concat " " vs -> ws = vs.
Proof.
  induction ws as [|w [|w' ws] IH]; intros [|v [|v' vs]] L Fw Fv E; try done; [cbn in *; congruence|].
  apply (f_equal as_bytes) in E. rewrite !concat_space in E.
  inversion_clear Fw as [|? ? Hw Fw']. inversion_clear Fv as [|? ? Hv Fv'].
  apply not_elem_of_app_cons_inv_l in E as (Ew & _ & Es); [|done..].
  apply (f_equal of_bytes) in Ew, Es. rewrite !of_bytes_as_bytes in Ew, Es. subst v. f_equal.
  cbn in L. apply IH; [cbn; lia|done..].
Qed.

End SasFacts.

Module LogIdFacts.
Import LogId.

Lemma hex_byte_inj a b : hex_byte a = hex_byte b -> a = b.
Proof.
  intros E. assert (Byte.to_N a = Byte.to_N b) as En.
  { pose proof (Byte.to_N_bounded a). pose proof (Byte.to_N_bounded b).
    rewrite (N.div_mod (Byte.to_N a) 16), (N.div_mod (Byte.to_N b) 16) by lia.
    unfold hex_byte in E. injection E as E1 E2.
    assert (forall n m, n < 16 -> m < 16 -> hex_digit n = hex_digit m -> n = m) as Hi.
    { intros n m Hn Hm. unfold hex_digit.
      assert (forall k, k < 16 -> exists c, Byte.of_N (if k <? 10 then 48 + k else 87 + k) = Some c) as Hc.
      { intros k Hk. destruct (Byte.of_N _) as [c|] eqn:E; [eauto|].
        apply Byte.of_N_None_iff in E. destruct (k <? 10); lia. }
      destruct (Hc n Hn) as [c Ec], (Hc m Hm) as [c' Ec']. rewrite Ec, Ec'. cbn. intros <-.
      apply Byte.to_of_N in Ec, Ec'. rewrite Ec in Ec'.
      destruct (N.ltb_spec n 10), (N.ltb_spec m 10); lia. }
    apply Hi in E1; [|apply N.Div0.div_lt_upper_bound; lia..].
    apply Hi in E2; [|apply N.mod_lt; lia..]. by rewrite E1, E2. }
  assert (Byte.of_N (Byte.to_N a) = Byte.of_N (Byte.to_N b)) as Eb by by rewrite En.
  rewrite !Byte.of_to_N in Eb. congruence.
Qed.

Lemma hex_inj l : forall l' t, flat_map hex_byte l ++ t = flat_map hex_byte l' ++ t -> l = l'.
Proof.
  induction l as [|b l IH]; intros [|b' l'] t E; [done| | |].
  - apply (f_equal length) in E. cbn in E. rewrite length_app in E. lia.
  - apply (f_equal length) in E. cbn in E. rewrite length_app in E. lia.
  - cbn [flat_map] in E. rewrite <-!app_assoc in E.
    injection E as E1 E2 E3. f_equal; [|by eapply IH]. apply hex_byte_inj. unfold hex_byte. congruence.
Qed.

End LogIdFacts.

(** ** Properties *)

(** Both ends of a pairing always get six words of the list, and the texts
    they show are equal exactly if the first six bytes of the transcripts'
    digests are: the text carries the whole 48 bits. *)
Theorem sas_exact `{CryptoLaws} side nonce eph side' nonce' eph' :
  (exists ws, Sas.pairing_sas side nonce eph = Some ws /\ length ws = Sas.SAS_WORD_COUNT /\
     Forall (fun w => w ∈ Sas.WORDLIST) ws /\
     Sas.pairing_sas_string side nonce eph = Some (String.concat " " ws)) /\
  (Sas.pairing_sas_string side nonce eph = Sas.pairing_sas_string side' nonce' eph' <->
   take 6 (Sas.digest side nonce eph) = take 6 (Sas.digest side' nonce' eph')).
Proof.
  assert (forall s n e, mapM (Sas.slot (Sas.digest s n e)) (seq 0 Sas.SAS_WORD_COUNT) =
    mapM SasFacts.word (take 6 (Sas.digest s n e)) /\ length (take 6 (Sas.digest s n e)) = 6%nat) as Hm.
  { intros. pose proof (blake3_length (Sas.SAS_LABEL ++ s ++ n ++ e)) as L. unfold blen in L.
    fold (Sas.digest s n e) in L. split; [apply SasFacts.slots; lia|rewrite length_take; lia]. }
  destruct (Hm side nonce eph) as [E L], (Hm side' nonce' eph') as [E' L'].
  unfold Sas.pairing_sas_string, Sas.pairing_sas. rewrite E, E'.
  destruct (SasFacts.mapM_word (take 6 (Sas.digest side nonce eph))) as (ws & Ew & Lw & Fw).
  destruct (SasFacts.mapM_word (take 6 (Sas.digest side' nonce' eph'))) as (vs & Ev & Lv & Fv).
  split.
  - exists ws. rewrite Ew. split_and!; [done|by rewrite Lw|eapply Forall_impl; [done|naive_solver]|done].
  - rewrite Ew, Ev. cbn. split; [intros [= Ec]|intros Et; rewrite Et, Ev in Ew; congruence].
    apply SasFacts.concat_inj in Ec as ->; [by eapply SasFacts.mapM_word_inj|congruence| |].
    + eapply Forall_impl; [done|]. intros w [_ Hw]. by apply SasFacts.word_no_space.
    + eapply Forall_impl; [done|]. intros w [_ Hw]. by apply SasFacts.word_no_space.
Qed.

(** The log-safe form of a key tells its first four bytes and whether there
    are any, and nothing else. *)
Theorem log_id_exact key key' :
  LogId.fmt key = LogId.fmt key' <-> take 4 key = take 4 key'.
Proof.
  assert (forall k, take (N.to_nat (N.min (blen k) LogId.PREFIX_BYTES)) k = take 4 k) as Ht.
  { intros k. unfold blen, LogId.PREFIX_BYTES. destruct (Nat.le_ge_cases (length k) 4).
    - rewrite !take_ge by lia. done.
    - f_equal. lia. }
  unfold LogId.fmt. rewrite !Ht. split.
  - intros E%(f_equal as_bytes). rewrite !as_bytes_of_bytes in E.
    destruct key as [|b k], key' as [|b' k']; [done|by destruct (LogId.hex_byte b')|by destruct (LogId.hex_byte b)|].
    by eapply LogIdFacts.hex_inj.
  - intros E. rewrite E. by destruct key, key'.
Qed.

(** ** Concrete instances *)

Module SasExamples.
Import Toy.

Lemma sas_exact_witness :
  Sas.pairing_sas_string (replicate 32 Byte.xaa) (replicate 16 Byte.xbb) (replicate 32 Byte.xcc) =
    Sas.pairing_sas_string [] [] [] <->
  take 6 (Sas.digest (replicate 32 Byte.xaa) (replicate 16 Byte.xbb) (replicate 32 Byte.xcc)) =
    take 6 (Sas.digest [] [] []).
Proof. exact (proj2 (sas_exact (replicate 32 Byte.xaa) (replicate 16 Byte.xbb) (replicate 32 Byte.xcc) [] [] [])). Defined.

(** The doc example of [log_id.rs], and a word of six letters. *)
Example log_id_doc :
  as_bytes (LogId.fmt [Byte.xa3; Byte.xf1; Byte.xc2; Byte.x99; Byte.x00; Byte.x11]) =
    as_bytes "a3f1c299" ++ LogId.ELLIPSIS /\ LogId.fmt [] = ""%string.
Proof. vm_compute. auto. Qed.

Example six_letters : "cipher"%string ∈ Sas.WORDLIST /\ String.length "cipher" = 6%nat.
Proof. split; [|done]. by apply (bool_decide_unpack _). Qed.

End SasExamples.
