(* ===== verification/Features.v ===== *)
(** The registry of protocol features and their lifecycle states
    ([sidevers-core/src/features.rs]).  A [BTreeMap<String, _>] is a [gmap]; its
    iterators visit the keys in the order of their bytes. *)

From S2P Require Import Prelude Containers Profile.
From stdpp Require Import strings gmap sorting.

Open Scope N_scope.

Module FeatureState.

Inductive t :=
| Active
| Deprecated (since_version : N)
| Frozen (since_version : N).

#[global] Instance eq_dec : EqDecision t.
Proof. solve_decision. Defined.

Definition is_active (s : t) : bool := match s with Active => true | _ => false end.
Definition is_deprecated (s : t) : bool := match s with Deprecated _ => true | _ => false end.
Definition is_frozen (s : t) : bool := match s with Frozen _ => true | _ => false end.
Definition allows_emission (s : t) : bool := negb (match s with Frozen _ => true | _ => false end).

End FeatureState.

Record FeatureRegistry := { entries : gmap string FeatureState.t }.

Definition new : FeatureRegistry := {| entries := ∅ |}.

(** [for (n, s) in pairs { entries.insert(n.into(), s) }]. *)
Definition insert_all (pairs : list (string * FeatureState.t)) (m : gmap string FeatureState.t)
    : gmap string FeatureState.t :=
  fold_left (fun m p => <[fst p := snd p]> m) pairs m.

Definition from_pairs (pairs : list (string * FeatureState.t)) : FeatureRegistry :=
  {| entries := insert_all pairs ∅ |}.

Definition register (name : string) (state : FeatureState.t) (r : FeatureRegistry) : FeatureRegistry :=
  {| entries := <[name := state]> (entries r) |}.

Definition state_of (name : string) (r : FeatureRegistry) : option FeatureState.t := entries r !! name.

Definition len (r : FeatureRegistry) : nat := size (entries r).
Definition is_empty (r : FeatureRegistry) : bool := Nat.eqb (size (entries r)) 0.

(** The keys in order, and the pairs in the order of their keys. *)
Definition names (r : FeatureRegistry) : list string := set_to_list (dom (entries r)).

Definition iter (r : FeatureRegistry) : list (string * FeatureState.t) :=
  omap (fun n => s ← entries r !! n; Some (n, s)) (names r).

Definition extended_with (overrides : list (string * FeatureState.t)) (r : FeatureRegistry) : FeatureRegistry :=
  {| entries := insert_all overrides (entries r) |}.

Definition phase1_baseline : FeatureRegistry := from_pairs
  [("envelope.v1", FeatureState.Active);
   ("identity.master_key", FeatureState.Active);
   ("identity.side_key", FeatureState.Active);
   ("linkage_proof.v1", FeatureState.Active);
   ("handshake.v1", FeatureState.Active);
   ("handshake.capabilities", FeatureState.Active);
   ("direct.message", FeatureState.Active);
   ("direct.receipt", FeatureState.Active);
   ("direct.typing", FeatureState.Active);
   ("profile.fetch_deliver", FeatureState.Active);
   ("side.retirement", FeatureState.Active);
   ("device.pairing_request", FeatureState.Active);
   ("device.state_bundle", FeatureState.Active);
   ("device.revoke", FeatureState.Active);
   ("device.state_delta", FeatureState.Active);
   ("storage.get", FeatureState.Active);
   ("storage.have", FeatureState.Active);
   ("storage.miss", FeatureState.Active);
   ("storage.offer", FeatureState.Active);
   ("storage.want", FeatureState.Active);
   ("storage.retract", FeatureState.Active);
   ("storage.preferences", FeatureState.Active);
   ("peer.ask_tell", FeatureState.Active);
   ("rendezvous.v1", FeatureState.Active);
   ("forward.store_deliver", FeatureState.Active);
   ("verse.contract", FeatureState.Active);
   ("verse.join", FeatureState.Active);
   ("verse.leave", FeatureState.Active);
   ("verse.remove", FeatureState.Active);
   ("verse.post", FeatureState.Active);
   ("verse.amend", FeatureState.Active);
   ("verse.reconsent", FeatureState.Active);
   ("public.handle_resolve", FeatureState.Active);
   ("public.handle_attest", FeatureState.Active);
   ("public.page_publish", FeatureState.Active);
   ("public.page_fetch", FeatureState.Active);
   ("public.page_deliver", FeatureState.Active);
   ("public.announcement", FeatureState.Active);
   ("public.directory_entry", FeatureState.Active)]%string.

(** ** Lemmas *)

(** The state the last pair of this name gives. *)
Fixpoint latest (pairs : list (string * FeatureState.t)) (name : string) : option FeatureState.t :=
  match pairs with
  | [] => None
  | (n, s) :: pairs' =>
    match latest pairs' name with
    | Some s' => Some s'
    | None => if decide (n = name) then Some s else None
    end
  end.

Lemma insert_all_lookup pairs name : forall m,
  insert_all pairs m !! name = match latest pairs name with Some s => Some s | None => m !! name end.
Proof.
  induction pairs as [|[n s] pairs IH]; intros m; [done|]. cbn. fold (insert_all pairs (<[n := s]> m)).
  rewrite IH. destruct (latest pairs name); [done|]. case_decide as E.
  - subst. apply lookup_insert_eq.
  - by apply lookup_insert_ne.
Qed.

Lemma iter_names r : map fst (iter r) = names r.
Proof.
  unfold iter. assert (forall n, n ∈ names r -> is_Some (entries r !! n)) as Hs.
  { intros n. unfold names. rewrite set_to_list_permutation, elem_of_elements, elem_of_dom. done. }
  induction (names r) as [|n l IH]; [done|]. cbn.
  destruct (Hs n) as [s ->]; [by left|]. cbn. f_equal. apply IH. intros x Hx. apply Hs. by right.
Qed.

(** ** Properties *)

(** A registry layered over another answers with the last of the overrides
    of a name and otherwise as the one below; both list every feature they
    answer for once, in the order of the names, with the state they answer. *)
Theorem registry_layers overrides r :
  (forall name, state_of name (extended_with overrides r) =
     match latest overrides name with Some s => Some s | None => state_of name r end) /\
  StronglySorted str_lt (names r) /\ map fst (iter r) = names r /\
  forall name s, (name, s) ∈ iter r <-> state_of name r = Some s.
Proof.
  split_and!; [intros; apply insert_all_lookup|apply set_to_list_sorted|apply iter_names|].
  intros name s. unfold iter, state_of. rewrite list_elem_of_omap. split.
  - intros (n & _ & E). destruct (entries r !! n) eqn:En; [|done]. cbn in E. congruence.
  - intros E. exists name. rewrite E. split; [|done].
    unfold names. rewrite set_to_list_permutation, elem_of_elements. by eapply elem_of_dom_2.
Qed.

(** The tests of the module. *)
Example baseline_active :
  len phase1_baseline = 39%nat /\ forallb (fun p => FeatureState.is_active (snd p)) (iter phase1_baseline) = true.
Proof. vm_compute. auto. Qed.

Example overriding :
  let e := extended_with [("verse.post", FeatureState.Deprecated 2)]%string phase1_baseline in
  state_of "verse.post" e = Some (FeatureState.Deprecated 2) /\
  state_of "verse.post" phase1_baseline = Some FeatureState.Active /\ state_of "not.a.feature" e = None.
Proof. vm_compute. auto. Qed.
