(* ===== verification/System.v ===== *)
(** A running node ([sidevers-net/src/node.rs]): its accept loop, the servers
    of its connections and the guards of those that ended, as one transition
    system on the tables they share.

    A step is what runs between two waits for the network: the handshake of a
    connection and the start of its server, one iteration of a server's loop,
    the end of a connection, the task a guard spawned.  What the network and
    the clock give a step are its arguments. *)

From S2P Require Import Prelude Profile Device Records SideStore Keys Envelope Payload Verse VerseMessages Replay Reputation NetTables Containers Session Connection Storage SideState DirectServer Host Node NodeFacts DirectFacts VerseHost VerseFacts Limiter Dialing.

Open Scope N_scope.

(** ** State *)

(** The server of a connection, with the session it was started with. *)
Inductive Serving :=
| OnDirect (s : Session)
| OnStorage (s : Session)
| OnGossip (s : Session)
| OnVerse (vs : VerseSession).

Definition session_of_server (v : Serving) : Session :=
  match v with OnDirect s | OnStorage s | OnGossip s => s | OnVerse vs => link vs end.

Record System := {
  core : Services;
  state : Hosted;                      (* the side and its tables *)
  hosts_of : Verses;
  limit : HandshakeLimiter;
  next : Conn;
  running : gmap Conn Serving;
  guards : list Serving                (* the removals its ended servers spawned *)
}.

Definition with_active_gossip (x : gset bytes) (s : Services) : Services :=
  Build_Services (side s) (store s) (replay s) (peers s) (mailbox s) (gossip s) x
    (reputation s) (provenance s) (gossip_policy s) (Node.relationships s) (metrics s).
Definition with_relationships (x : gset bytes) (s : Services) : Services :=
  Build_Services (side s) (store s) (replay s) (peers s) (mailbox s) (gossip s) (active_gossip s)
    (reputation s) (provenance s) (gossip_policy s) x (metrics s).

(** The addresses the fan-out policy reads are those of the side's table. *)
Definition contacts (h : Hosted) : gset bytes := dom (SideState.relationships (fst h)).

Definition with_core x n := Build_System x (state n) (hosts_of n) (limit n) (next n) (running n) (guards n).
Definition with_state x n := Build_System (with_relationships (contacts x) (core n)) x (hosts_of n) (limit n) (next n) (running n) (guards n).
Definition with_hosts_of x n := Build_System (core n) (state n) x (limit n) (next n) (running n) (guards n).
Definition with_running x n := Build_System (core n) (state n) (hosts_of n) (limit n) (next n) x (guards n).
Definition with_guards x n := Build_System (core n) (state n) (hosts_of n) (limit n) (next n) (running n) x.

(** A connection that got past the limiter has its number, used or not. *)
Definition accepted (s : Services) (l : HandshakeLimiter) n :=
  Build_System s (state n) (hosts_of n) l (S (next n)) (running n) (guards n).

(** What the owner of a side calls on its node: the methods of [Node] that
    read or change the side. *)
Inductive OwnerCall :=
| SetLocalProfile (p : ProfilePayload)
| PublishRetirement (reason : option string)
| RetireSide (a : bytes) (reason : option string)
| AddRelationship (r : SideRelationship)
| RemoveRelationship (a : bytes)
| UpdateRelationship (a : bytes) (f : SideRelationship -> SideRelationship)
| SetLifecycle (state : SideLifecycle)
| RefreshLifecycle
| SendDm (session : Session) (plaintext : bytes) (sent : nresult unit)
| AnnounceRetirement (session : Session) (record : Retirement.SideRetirementPayload) (sent : nresult unit)
| GeneratePairingQr (a : bytes)
| RevokeCoHolder (a dev : bytes) (reason : option string).

Inductive NodeEffect :=
| Handshaken (bs : bytes)
| Pushed (p : Push)                  (* a delta to another device *)
| Sent (bs : bytes)                  (* on a stream the owner opened *)
| FromNode (e : Effect)
| FromDirect (e : DirectEffect)
| FromVerse (e : VerseEffect).

(** What a step gets from outside: the bytes of the stream, the clock, the
    outcomes of the writes to the store, the randomness, and which sends on
    other connections work. *)
Record Arrival := {
  a_stream : bytes;
  a_clock : Clock;
  a_ios : nat -> Io;
  a_nonce : bytes;
  a_key_nonce : bytes;
  a_rng : nat -> bytes;
  a_fresh : bytes;
  a_sends : Envelope -> bool;
  a_carries : Conn -> Envelope -> bool
}.

Inductive Event :=
| Connect (now : F64.t) (c : Incoming) (a : Arrival)
| Stream (c : Conn) (a : Arrival)
| Lost (c : Conn)
| Guard (i : nat)
| HostVerse (key : SideKey) (contract : ContractObject) (content_key : bytes)
| JoinLocal (addr member : bytes) (issued_at : N)
| RotateKey (addr : bytes) (a : Arrival)
| Amend (contract : ContractObject) (a : Arrival)
| SetGossipPolicy (policy : GossipPropagation)
| Owner (call : OwnerCall) (listen : string) (clock : Clock) (io : Io) (rnd : bytes).

Section System.
Context `{HashIter, Crypto, Ecies}.

Definition start (v : Serving) (n : System) : System :=
  with_running (<[next n := v]> (running n)) n.

(** [handle_connection] up to the loop of its server. *)
Definition connect (now : F64.t) (c : Incoming) (a : Arrival) (n : System) : list NodeEffect * System :=
  let '(w, x, (s, l)) := handle_connection now c (core n, limit n) in
  let k := next n in
  let hs := [Handshaken w] in
  match x with
  | ServeDirect ss => (hs, accepted s l (start (OnDirect ss) n))
  | ServeStorage ss => (hs, accepted s l (start (OnStorage ss) n))
  | ServeGossip ss =>
    let s := with_active_gossip ({[peer_side ss]} ∪ active_gossip s) s in
    let '(out, s) := deliver_forwards ss (a_clock a) (a_rng a) (a_sends a) s in
    (hs ++ map FromNode out, accepted s l (start (OnGossip ss) n))
  | ServeVerse ss =>
    match open_session (a_carries a) ss k (hosts_of n) with
    | (None, out, v) => (hs ++ map FromVerse out, accepted s l (with_hosts_of v n))
    | (Some vs, out, v) => (hs ++ map FromVerse out, accepted s l (start (OnVerse vs) (with_hosts_of v n)))
    end
  | Throttled | NoHandshake _ | NotImplemented _ => (hs, accepted s l n)
  end.

(** One iteration of the server [v]. *)
Definition serve (v : Serving) (a : Arrival) (n : System) : list NodeEffect * System * nresult unit :=
  match v with
  | OnDirect ss =>
    let '(out, d, r) := serve_direct_step ss (a_clock a) (a_ios a) (a_key_nonce a) (a_nonce a) (a_stream a)
                          {| DirectServer.services := core n; hosted := state n |} in
    (map FromDirect out, with_state (hosted d) (with_core (DirectServer.services d) n), r)
  | OnStorage ss =>
    let '(out, s, r) := serve_storage_step ss (a_clock a) (a_nonce a) (a_stream a) (core n) in
    (map FromNode out, with_core s n, r)
  | OnGossip ss =>
    let '(out, s, r) := serve_gossip_step ss (a_clock a) (a_nonce a) (a_stream a) (core n) in
    (map FromNode out, with_core s n, r)
  | OnVerse vs =>
    let '(out, s, r) := serve_verse_step (a_carries a) vs (a_clock a) (a_rng a) (a_fresh a) (a_stream a)
                          {| VerseHost.services := core n; verses := hosts_of n |} in
    (map FromVerse out, with_hosts_of (verses s) (with_core (VerseHost.services s) n), r)
  end.

(** The server returns: its guards spawn their removals. *)
Definition guarded (v : Serving) : list Serving :=
  match v with OnGossip _ | OnVerse _ => [v] | OnDirect _ | OnStorage _ => [] end.

Definition ended (c : Conn) (v : Serving) (n : System) : System :=
  with_guards (guards n ++ guarded v) (with_running (delete c (running n)) n).

Definition run_guard (v : Serving) (n : System) : System :=
  match v with
  | OnGossip ss => with_core (with_active_gossip (active_gossip (core n) ∖ {[peer_side ss]}) (core n)) n
  | OnVerse vs => with_hosts_of (close_session vs (hosts_of n)) n
  | OnDirect _ | OnStorage _ => n
  end.

(** [Node::host_verse], [VerseHost::add_local_member],
    [Node::host_rotate_verse_key], [Node::host_amend_verse]. *)
Definition on_verses (f : Verses -> list VerseEffect * Verses) (n : System) : list NodeEffect * System :=
  let '(out, v) := f (hosts_of n) in (map FromVerse out, with_hosts_of v n).

(** [listen] is the address the endpoint is bound to. *)
Definition owner (call : OwnerCall) (listen : string) (clock : Clock) (io : Io) (rnd : bytes) (h : Hosted)
    : list NodeEffect * Hosted :=
  let n := {| primary := fst h; listen_addr := listen; extras := []; side_store := snd h |} in
  let hosted n := (primary n, side_store n) in
  let pushes r := (map Pushed r.2, hosted r.1) in
  let sends r := (match r.1 with NOk bs => [Sent bs] | NErr _ => [] end, hosted r.2) in
  let only n := ([], hosted n) in
  match call with
  | SetLocalProfile p => pushes (set_local_profile clock io p n)
  | PublishRetirement reason => only (publish_retirement clock io reason n).2
  | RetireSide a reason => only (retire_side clock io a reason n).2
  | AddRelationship r => pushes (node_add_relationship clock io r n)
  | RemoveRelationship a => pushes (node_remove_relationship clock io a n)
  | UpdateRelationship a f => only (node_update_relationship io a f n).2
  | SetLifecycle state => only (node_set_lifecycle io state n)
  | RefreshLifecycle => only (node_refresh_lifecycle clock io n)
  | SendDm session plaintext sent => sends (node_send_dm session plaintext sent clock io rnd n)
  | AnnounceRetirement session record sent => sends (node_announce_retirement session record sent clock io rnd n)
  | GeneratePairingQr a => only (generate_pairing_qr clock rnd a n).2
  | RevokeCoHolder a dev reason => only (revoke_co_holder clock io a dev reason n).2
  end.

Definition with_policy (x : GossipPropagation) (s : Services) : Services :=
  Build_Services (side s) (store s) (replay s) (peers s) (mailbox s) (gossip s) (active_gossip s)
    (reputation s) (provenance s) x (Node.relationships s) (metrics s).

Definition step (e : Event) (n : System) : list NodeEffect * System :=
  match e with
  | Connect now c a => connect now c a n
  | Stream c a =>
    match running n !! c with
    | None => ([], n)
    | Some v =>
      let '(out, n, r) := serve v a n in
      (out, match r with NOk _ => n | NErr _ => ended c v n end)
    end
  | Lost c => ([], match running n !! c with Some v => ended c v n | None => n end)
  | Guard i =>
    ([], match guards n !! i with
         | Some v => run_guard v (with_guards (delete i (guards n)) n)
         | None => n
         end)
  | HostVerse key c ck => on_verses (fun v => ([], host_verse (VerseHost.new key c ck) v)) n
  | JoinLocal addr member t =>
    on_verses (fun v => ([], match hosted_verse addr v with
                             | Some (i, _) => modify_host i (fun h => (add_local_member member t h).2) v
                             | None => v
                             end)) n
  | RotateKey addr a =>
    on_verses (fun v => (host_rotate_verse_key (a_carries a) (a_clock a) (a_rng a) (a_fresh a) addr v).1) n
  | Amend c a => on_verses (fun v => (host_amend_verse (a_carries a) (a_clock a) (a_rng a) c v).1) n
  | SetGossipPolicy policy => ([], with_core (with_policy policy (core n)) n)
  | Owner call listen clock io rnd =>
    let '(out, h) := owner call listen clock io rnd (state n) in (out, with_state h n)
  end.

Fixpoint steps (es : list Event) (n : System) : System :=
  match es with [] => n | e :: es => steps es (step e n).2 end.

(** A node after [Node::start]: its side loaded, its replay cache from the
    journal, nothing else. *)
Definition started (k : SideKey) (st : Objects.Store) (cache : Replay.ReplayCache) (side_and_tables : Hosted)
    : System := {|
  core := Build_Services k st cache (Peers.new Peers.DEFAULT_MAX_PEERS) ∅ Gossip.new ∅
    (Reputation.new Reputation.default_policy) ∅ Open (contacts side_and_tables) Metrics.new;
  state := side_and_tables; hosts_of := {| heap := []; hosted_verses := ∅ |}; limit := default_limiter;
  next := 0%nat; running := ∅; guards := [] |}.

(** The tables of a further side ([Node::add_side]), and what its servers leave
    of the tables it shares. *)
Definition side_services (k : SideKey) (relationships : gset bytes) (s : Services) : Services :=
  Build_Services k (store s) Replay.new (peers s) (mailbox s) (gossip s) ∅
    (reputation s) (provenance s) (gossip_policy s) relationships (metrics s).

(** The envelope an event takes off a stream, and whether the gates let it in. *)
Definition taken (e : Event) (n : System) : option Envelope :=
  match e with
  | Stream c a =>
    v ← running n !! c;
    match accept_one (session_of_server v) (a_stream a) with NOk (env, _) => Some env | NErr _ => None end
  | _ => None
  end.

Definition event_time (e : Event) : Clock := match e with Stream _ a => a_clock a | _ => None end.

Definition let_in (e : Event) (n : System) : bool :=
  match taken e n with
  | Some env => (admit_envelope (event_time e) env (core n)).1
  | None => false
  end.

End System.
