(* ===== verification/SystemFacts.v ===== *)
(** Theorems about a running node: what holds in every state its servers,
    its peers and its user can bring about, and what the servers guarantee
    together. *)

From S2P Require Import Prelude Containers Keys Envelope Device Payload Verse VerseMessages Replay Reputation NetTables SignedRecords SideStore SideState SideFacts Session Connection Storage StorageProtocol Node NodeFacts DirectServer DirectFacts VerseHost VerseFacts Limiter Dialing System.

Open Scope N_scope.

(** ** What the handlers leave alone *)

(** The parts of the shared tables that the gates and the fan-out read. *)
Definition base (s : Services)
    : SideKey * Replay.ReplayCache * Reputation.ReputationTable * gset bytes * gset bytes :=
  (Node.side s, Node.replay s, Node.reputation s, Node.relationships s, active_gossip s).

Section Handlers.
Context `{HashIter, Crypto, Ecies}.

Lemma respond_base resp s : (respond resp s).1.2 = s.
Proof using. unfold respond. by destruct (mbind _ resp). Qed.

Lemma handle_storage_base clock n env stream s : base (handle_storage clock n env stream s).1.2 = base s.
Proof using.
  unfold handle_storage, handle_storage_get, handle_storage_offer, handle_storage_retract, ingest.
  repeat (case_match; rewrite ?respond_base; cbn [fst snd go_on]); try done.
Qed.

Lemma handle_gossip_base peer clock n env s : base (handle_gossip peer clock n env s).1.2 = base s.
Proof using.
  unfold handle_gossip. repeat (case_match; rewrite ?respond_base; cbn [fst snd go_on]); done.
Qed.

Lemma deliver_forwards_base ss clock rng sends s : base (deliver_forwards ss clock rng sends s).2 = base s.
Proof using.
  unfold deliver_forwards. destruct (Mailbox.drain _ _ _) as [held m].
  change (base s) with (base (with_mailbox m s)). generalize (with_mailbox m s) as s1. clear s.
  generalize 0%nat. induction held as [|msg held IH]; intros i s; [done|]. cbn [deliver_held].
  assert (base (deliver_one ss clock (rng i) sends msg s).2 = base s) as E.
  { unfold deliver_one. repeat case_match; done. }
  destruct (deliver_one ss clock (rng i) sends msg s) as [out s1]. cbn [snd] in E.
  specialize (IH (S i) s1). destruct (deliver_held _ _ _ _ _ _ s1). cbn [snd] in *. congruence.
Qed.

Lemma handle_direct_base clock ios kn rnd env d :
  base (DirectServer.services (handle_direct clock ios kn rnd env d).1.2) = base (DirectServer.services d).
Proof using.
  unfold handle_direct, handle_direct_message, handle_profile_fetch, handle_profile_deliver,
    handle_side_retirement, handle_linkage_publish, handle_pairing_request, handle_device_revoke,
    handle_state_delta, answer.
  repeat (case_match; cbn [fst snd skip with_hosted with_services DirectServer.services]); done.
Qed.

Lemma rotate_host_base carries clock rng fresh i s :
  VerseHost.services (rotate_host carries clock rng fresh i s).2 = VerseHost.services s.
Proof using.
  unfold rotate_host. destruct (heap _ !! i); [|done]. by destruct (rotate_and_push_verse_key _ _ _ _ _) as [[??]?].
Qed.

Lemma handle_verse_base carries clock rng fresh vs env s :
  base (VerseHost.services (handle_verse carries clock rng fresh vs env s).1.2) = base (VerseHost.services s).
Proof using.
  unfold handle_verse, handle_contract_fetch, handle_join_request, handle_verse_post, handle_verse_leave,
    handle_verse_remove, handle_verse_reconsent.
  repeat (case_match; rewrite ?vrespond_state; cbn [fst snd vskip]); try done.
  all: match goal with E : rotate_host ?c ?k ?g ?f ?i ?s0 = (_, ?s1) |- _ =>
    pose proof (rotate_host_base c k g f i s0) as B; rewrite E in B; cbn [snd fst] in *; by rewrite B end.
Qed.

End Handlers.

(** ** One step *)

(** The fan-out policy reads the contacts of the side. *)
Definition synced (n : System) : Prop := Node.relationships (core n) = contacts (state n).

(** Nothing but the tables of the gates differs. *)
Record unchanged (n n' : System) : Prop := {
  un_core : same_tables (core n) (core n');
  un_state : state n' = state n;
  un_verses : hosts_of n' = hosts_of n;
  un_limit : limit n' = limit n;
  un_next : next n' = next n;
  un_running : running n' = running n;
  un_guards : guards n' = guards n
}.

#[export] Instance unchanged_preorder : PreOrder unchanged.
Proof.
  split; [by split|]. intros n1 n2 n3 [] []. split; [by etrans|congruence..].
Qed.

Section Steps.
Context `{HashIter, Crypto, Ecies}.

Lemma with_state_id n : synced n -> with_state (state n) n = n.
Proof using.
  unfold synced, with_state. destruct n as [c st v l k r g]. cbn. intros <-. by destruct c.
Qed.

Lemma admit_synced clock env n : synced n -> synced (with_core (admit_envelope clock env (core n)).2 n).
Proof using.
  unfold synced. intros S. exact (eq_trans (same_relationships _ _ (admit_tables clock env (core n))) S).
Qed.

(** A server that gets no envelope returns; one that gets an envelope the
    gates refuse goes on. *)
Lemma serve_not_admitted v a n :
  synced n ->
  match accept_one (session_of_server v) (a_stream a) with
  | NErr e => serve v a n = ([], n, NErr e)
  | NOk (env, _) =>
    (admit_envelope (a_clock a) env (core n)).1 = false ->
    serve v a n = ([], with_core (admit_envelope (a_clock a) env (core n)).2 n, NOk tt)
  end.
Proof using.
  intros S. assert (with_core (core n) n = n) as W by (by destruct n).
  assert (with_hosts_of (hosts_of n) n = n) as V by (by destruct n).
  destruct v as [ss|ss|ss|vs]; cbn [session_of_server serve];
    unfold serve_direct_step, serve_storage_step, serve_gossip_step, serve_step, serve_verse_step.
  all: destruct (accept_one _ _) as [[env rest]|e]; cbn [DirectServer.services hosted VerseHost.services verses];
    [pose proof (admit_synced (a_clock a) env n S) as S';
     destruct (admit_envelope (a_clock a) env (core n)) as [ok s]; cbn [fst snd] in *; intros ->|];
    cbn [skip vskip go_on map with_services DirectServer.services hosted VerseHost.services verses]; rewrite ?W, ?V;
    try done.
  - pose proof (with_state_id _ S') as E. cbn [state with_core] in E. by rewrite E.
  - by rewrite with_state_id.
Qed.

(** After an admitted envelope the gates' tables are as the gates left them,
    the side's key is the same, and the contacts are still the side's. *)
Lemma serve_admitted v a n env rest :
  synced n -> accept_one (session_of_server v) (a_stream a) = NOk (env, rest) ->
  (admit_envelope (a_clock a) env (core n)).1 = true ->
  let n' := (serve v a n).1.2 in
  let s := (admit_envelope (a_clock a) env (core n)).2 in
  synced n' /\ Node.side (core n') = Node.side s /\ Node.replay (core n') = Node.replay s /\
  Node.reputation (core n') = Node.reputation s /\ active_gossip (core n') = active_gossip s.
Proof using.
  intros S A Ha n' s. subst n'. pose proof (admit_synced (a_clock a) env n S) as S'. fold s in S'.
  assert (admit_envelope (a_clock a) env (core n) = (true, s)) as E.
  { rewrite <-Ha. by destruct (admit_envelope _ _ _). }
  destruct v as [ss|ss|ss|vs]; cbn [session_of_server serve] in *;
    unfold serve_direct_step, serve_storage_step, serve_gossip_step, serve_step, serve_verse_step;
    rewrite A; cbn [DirectServer.services hosted VerseHost.services verses]; rewrite E.
  - match goal with |- context [handle_direct ?c ?i ?k ?r ?e ?d] =>
      pose proof (handle_direct_base c i k r e d) as B; destruct (handle_direct c i k r e d) as [[out d'] res] end.
    cbn [fst snd DirectServer.services] in *. unfold base in B. cbn [with_services DirectServer.services] in B.
    injection B as B1 B2 B3 B4 B5. by split_and!.
  - match goal with |- context [handle_storage ?c ?k ?e ?r ?d] =>
      pose proof (handle_storage_base c k e r d) as B; destruct (handle_storage c k e r d) as [[out d'] res] end.
    cbn [fst snd] in *. injection B as B1 B2 B3 B4 B5. split_and!; try done. unfold synced in *. cbn in *. congruence.
  - match goal with |- context [handle_gossip ?p ?c ?k ?e ?d] =>
      pose proof (handle_gossip_base p c k e d) as B; destruct (handle_gossip p c k e d) as [[out d'] res] end.
    cbn [fst snd] in *. injection B as B1 B2 B3 B4 B5. split_and!; try done. unfold synced in *. cbn in *. congruence.
  - match goal with |- context [handle_verse ?p ?c ?k ?e ?d ?f ?g] =>
      pose proof (handle_verse_base p c k e d f g) as B; destruct (handle_verse p c k e d f g) as [[out d'] res] end.
    cbn [fst snd VerseHost.services] in *. injection B as B1 B2 B3 B4 B5. split_and!; try done.
    unfold synced in *. cbn in *. congruence.
Qed.

(** What a step makes of the gates' tables. *)
Definition gated (clock : Clock) (s s' : Services) : Prop :=
  same_gates s s' \/ exists env, same_gates (admit_envelope clock env s).2 s'.

Lemma handle_connection_base now c s l : base (handle_connection now c (s, l)).2.1 = base s.
Proof using.
  unfold handle_connection. destruct (try_acquire _ _ _) as [ok l']. destruct ok; cbn [negb]; [|done].
  by destruct (run_responder_inner _ _ _ _ _) as [w [[ss rest]|e]].
Qed.

Lemma connect_base now c a n :
  fst (base (core (connect now c a n).2)) = fst (base (core n)) /\ state (connect now c a n).2 = state n.
Proof using.
  unfold connect. pose proof (handle_connection_base now c (core n) (limit n)) as B.
  destruct (handle_connection now c (core n, limit n)) as [[w x] [s l]]. cbn [fst snd] in B.
  destruct x as [|e|ss|ss|ss|ss|ss]; try (apply (f_equal fst) in B; done).
  - pose proof (deliver_forwards_base ss (a_clock a) (a_rng a) (a_sends a)
      (with_active_gossip ({[peer_side ss]} ∪ active_gossip s) s)) as D.
    destruct (deliver_forwards _ _ _ _ _) as [out s1]. cbn [fst snd] in D. split; [|done].
    exact (eq_trans (f_equal fst D) (f_equal fst B)).
  - apply (f_equal fst) in B. by destruct (open_session _ _ _ _) as [[[vs|] out] v].
Qed.

Lemma on_verses_core f n : core (on_verses f n).2 = core n.
Proof using. unfold on_verses. by destruct (f _). Qed.

Lemma on_verses_state f n : state (on_verses f n).2 = state n.
Proof using. unfold on_verses. by destruct (f _). Qed.

Lemma run_guard_base v n : fst (base (core (run_guard v n))) = fst (base (core n)) /\ state (run_guard v n) = state n.
Proof using. by destruct v. Qed.

(** Every step keeps the contacts in sync and the side's key, and moves the
    gates' tables at most by running the gates on one envelope. *)
Lemma step_base e n :
  synced n ->
  let n' := (step e n).2 in
  synced n' /\ Node.side (core n') = Node.side (core n) /\ gated (event_time e) (core n) (core n').
Proof using.
  intros S. assert (forall n', fst (base (core n')) = fst (base (core n)) -> state n' = state n ->
    synced n' /\ Node.side (core n') = Node.side (core n) /\ gated (event_time e) (core n) (core n')) as Hb.
  { intros n' [= B1 B2 B3 B4] E. split_and!; [|done|by left]. unfold synced in *. by rewrite B4, E. }
  destruct e as [now c a|c a|c|i|key c ck|addr m t|addr a|c a|policy|call listen clock io rnd]; cbn [step event_time snd].
  - apply Hb; apply connect_base.
  - destruct (running n !! c) as [v|]; [|by apply Hb].
    pose proof (serve_not_admitted v a n S) as N.
    destruct (accept_one (session_of_server v) (a_stream a)) as [[env rest]|err] eqn:A.
    + destruct (admit_envelope (a_clock a) env (core n)).1 eqn:Ha.
      * pose proof (serve_admitted v a n env rest S A Ha) as (S1 & S2 & S3 & S4 & _).
        destruct (serve v a n) as [[out n1] r]. cbn [fst snd] in *.
        assert (synced n1 /\ Node.side (core n1) = Node.side (core n) /\ gated (a_clock a) (core n) (core n1)) as K.
        { split_and!; [done| |right; by exists env]. rewrite S2.
          apply (same_side _ _ (admit_tables (a_clock a) env (core n))). }
        by destruct r.
      * rewrite N by done. split_and!; [by apply admit_synced| |right; by exists env].
        apply (same_side _ _ (admit_tables (a_clock a) env (core n))).
    + rewrite N. by apply Hb.
  - apply Hb; by destruct (running n !! c).
  - destruct (guards n !! i) as [v|]; [|by apply Hb]. apply Hb.
    + exact (proj1 (run_guard_base v (with_guards (delete i (guards n)) n))).
    + exact (proj2 (run_guard_base v (with_guards (delete i (guards n)) n))).
  - by apply Hb.
  - apply Hb; [by rewrite on_verses_core|by rewrite on_verses_state].
  - apply Hb; [by rewrite on_verses_core|by rewrite on_verses_state].
  - apply Hb; [by rewrite on_verses_core|by rewrite on_verses_state].
  - by apply Hb.
  - destruct (owner call listen clock io rnd (state n)) as [out h]. by split_and!; [|..|left].
Qed.

Lemma steps_synced es : forall n, synced n -> synced (steps es n).
Proof using. induction es as [|e es IH]; intros n S; [done|]. cbn [steps]. by apply IH, step_base. Qed.

Lemma step_replay e n :
  synced n ->
  Node.replay (core (step e n).2) = Node.replay (core n) \/
  exists now from nonce, event_time e = Some now /\
    Node.replay (core (step e n).2) = (Replay.observe now from nonce (Node.replay (core n))).2.
Proof using.
  intros S. destruct (step_base e n S) as (_ & _ & [[E _]|(env & E & _)]); [by left|]. rewrite E.
  destruct (admit_replay (event_time e) env (core n)) as [?|(now & ? & ?)]; [by left|right; by eauto].
Qed.

End Steps.

(** ** The gates, over all servers *)

Section Gates.
Context `{HashIterLaws, Crypto, Ecies}.

Lemma refused_event e n env :
  synced n -> taken e n = Some env -> let_in e n = false ->
  (step e n).1 = [] /\ unchanged n (step e n).2.
Proof using.
  unfold let_in. intros S T. rewrite T. destruct e as [| c a | | | | | | | |]; try done. cbn [taken step event_time] in *.
  destruct (running n !! c) as [v|]; [|done]. cbn in T. pose proof (serve_not_admitted v a n S) as N.
  destruct (accept_one (session_of_server v) (a_stream a)) as [[env' rest]|]; [|done]. injection T as ->.
  intros Ha. rewrite N by done. split; [done|]. split; try done. apply admit_tables.
Qed.

Lemma let_in_replay e n env t :
  synced n -> taken e n = Some env -> event_time e = Some t -> let_in e n = true ->
  Node.replay (core (step e n).2) = (Replay.observe t (from env) (nonce env) (Node.replay (core n))).2 /\
  (Replay.observe t (from env) (nonce env) (Node.replay (core n))).1 = false.
Proof using.
  unfold let_in. intros S T E. rewrite T, E. destruct e as [| c a | | | | | | | |]; try done. cbn [taken step event_time] in *.
  destruct (running n !! c) as [v|]; [|done]. cbn in T.
  destruct (accept_one (session_of_server v) (a_stream a)) as [[env' rest]|] eqn:A; [|done]. injection T as ->.
  intros Ha. destruct (admitted_replay _ _ _ Ha) as [Ho Hr]. rewrite <-E in Ha.
  destruct (serve_admitted v a n env rest S A Ha) as (_ & _ & E3 & _). rewrite E in E3.
  destruct (serve v a n) as [[out n1] r]. cbn [fst snd] in *. split; [|done]. rewrite <-Hr, <-E3. by destruct r.
Qed.

(** An entry of the replay cache survives the steps taken while it is alive,
    as long as there is room. *)
Lemma steps_keep k t0 es : forall n,
  synced n ->
  Replay.entries (Node.replay (core n)) !! k = Some t0 ->
  Forall (fun e => forall now, event_time e = Some now -> now - t0 < Replay.ttl (Node.replay (core n))) es ->
  N.of_nat (size (Replay.entries (Node.replay (core n))) + length es) <= Replay.max_entries (Node.replay (core n)) ->
  Replay.entries (Node.replay (core (steps es n))) !! k = Some t0 /\
  Replay.ttl (Node.replay (core (steps es n))) = Replay.ttl (Node.replay (core n)).
Proof using.
  induction es as [|e es IH]; intros n S Hk Hall Hs; [done|].
  inversion Hall as [|? ? Hnow Hall']; subst. cbn [steps length] in *.
  pose proof (proj1 (step_base e n S)) as S'.
  destruct (step_replay e n S) as [E|(now & fr & no & Hc & E)].
  - specialize (IH (step e n).2). rewrite E in IH. apply IH; [done|done|done|lia].
  - destruct (Replay.observe_keeps now fr no (Node.replay (core n)) k t0) as [Hk' Hs'];
      [lia|by apply Replay.live_lookup; auto|].
    destruct (Replay.observe_fields now fr no (Node.replay (core n))) as [Ht Hm]. rewrite <-E in *.
    destruct (IH (step e n).2) as [Hk2 Ht2]; [done|done|by rewrite Ht|rewrite Hm; lia|].
    split; [done|congruence].
Qed.

End Gates.


(** A further side has a replay cache of its own: an envelope one side of a
    node has admitted is admitted again by the next, though they share the
    mailbox, the gossip state and the object store. *)
Theorem replay_across_sides `{HashIterLaws, Crypto, Ecies} k rels env s t0 t
    (A : (admit_envelope (Some t0) env s).1 = true)
    (S : abs_diff (timestamp env) t <= SOFT_MAX_SKEW_SECS)
    (B : (Reputation.observe_envelope (from env) t (Node.reputation (admit_envelope (Some t0) env s).2)).1 = true) :
  (admit_envelope (Some t) env (side_services k rels (admit_envelope (Some t0) env s).2)).1 = true.
Proof.
  rewrite admit_ok, !andb_true_iff, N.leb_le, negb_true_iff, observe_answer. cbn [Node.reputation Node.replay side_services].
  split; [by split|]. intros t1. cbn. by rewrite lookup_empty.
Qed.

(** ** Strangers, over a run *)

#[export] Instance same_own_state_preorder : PreOrder same_own_state.
Proof.
  split; [by repeat split|]. intros s1 s2 s3 (?&?&?&?&?&?&?) (?&?&?&?&?&?&?). unfold same_own_state.
  split_and!; congruence.
Qed.

Section Strangers.
Context `{HashIter, Crypto, Ecies}.

(** The devices of a side, and the pairings it still offers. *)
Definition devices_and_offers (s : Side) : nat := (size (co_holders s) + size (pending_pairings s))%nat.

Lemma side_change_pending clock ios own env h h' (F : blen (payload env) < u64_size) :
  SideChange clock ios own env h h' -> ~ own_record own (payload env) ->
  pending_pairings (fst h') ⊆ pending_pairings (fst h).
Proof using.
  destruct h as [s t]. intros C N. destruct C as [|rec E Es|n|req p h' E Es Ht|rec E Es|delta E Es]; try done.
  - cbn. etrans; [apply delete_subseteq|apply map_filter_subseteq].
  - unfold take_pending_pairing in Ht. injection Ht as _ <-. cbn.
    etrans; [apply delete_subseteq|apply map_filter_subseteq].
  - destruct N. right. exists delta. apply state_delta_wire in E as (Hw & Hs & Hb); [|done].
    split_and!; try done. by rewrite <-Es.
Qed.

(** A stranger's envelope changes nothing of the side's own, and a device that
    joins uses up an offer. *)
Lemma side_change_bounded clock ios own env h h' (F : blen (payload env) < u64_size) :
  SideChange clock ios own env h h' -> ~ own_record own (payload env) ->
  same_own_state (fst h) (fst h') /\ (devices_and_offers (fst h') <= devices_and_offers (fst h))%nat.
Proof using.
  intros C N. pose proof (side_change_pending _ _ _ _ _ _ F C N) as P.
  destruct (side_change_stranger _ _ _ _ _ _ F C N) as (Hs & _ & J). split; [done|].
  unfold devices_and_offers. destruct J as [->|(req & p & _ & _ & _ & Hp & _ & Hg & ->)].
  - apply map_subseteq_size in P. lia.
  - assert (pending_pairings (fst h') ⊆ delete (PairingRequest.nonce req) (pending_pairings (fst h))) as P'.
    { apply map_subseteq_spec. intros k x Hk. rewrite lookup_delete_ne; [by eapply lookup_weaken|]. congruence. }
    apply map_subseteq_size in P'. rewrite map_size_delete, Hp in P'.
    assert (size (pending_pairings (fst h)) <> 0%nat) as Hz.
    { intros Hz%map_size_empty_inv. by rewrite Hz, lookup_empty in Hp. }
    rewrite map_size_insert. case_match; unfold id; lia.
Qed.

Lemma connect_state now c a n : state (connect now c a n).2 = state n.
Proof using. apply connect_base. Qed.

(** What the owner of the side does itself. *)
Definition by_owner (e : Event) : bool := match e with Owner _ _ _ _ _ => true | _ => false end.

Lemma step_strangers e n :
  synced n -> by_owner e = false ->
  (forall env, taken e n = Some env -> ~ own_record (public_bytes (Node.side (core n))) (payload env)) ->
  same_own_state (fst (state n)) (fst (state (step e n).2)) /\
  (devices_and_offers (fst (state (step e n).2)) <= devices_and_offers (fst (state n)))%nat.
Proof using.
  intros S Ho Hs. assert (forall n', state n' = state n ->
    same_own_state (fst (state n)) (fst (state n')) /\
    (devices_and_offers (fst (state n')) <= devices_and_offers (fst (state n)))%nat) as Hb by (by intros ? ->).
  destruct e as [now c a|c a|c|i|key c ck|addr m t|addr a|c a|policy|call listen clock io rnd]; cbn [step snd];
    [apply Hb, connect_state| |apply Hb; by destruct (running n !! c)| |by apply Hb
    |apply Hb, on_verses_state..|by apply Hb|done].
  - cbn [taken] in Hs. destruct (running n !! c) as [v|]; [|by apply Hb]. cbn [mbind option_bind] in Hs.
    assert (same_own_state (fst (state n)) (fst (state (serve v a n).1.2)) /\
      (devices_and_offers (fst (state (serve v a n).1.2)) <= devices_and_offers (fst (state n)))%nat) as K.
    2: { destruct (serve v a n) as [[out n'] r]. by destruct r. }
    destruct v as [ss|ss|ss|vs]; cbn [serve session_of_server] in *.
    + rewrite serve_direct_step_inv. destruct (accept_one ss (a_stream a)) as [[env rest]|] eqn:A; [|by apply Hb].
      cbn [DirectServer.services]. destruct (admit_envelope (a_clock a) env (core n)).1; [|by apply Hb].
      match goal with |- context [handle_direct ?c ?i ?k ?r ?e ?d] =>
        pose proof (handle_direct_change c i k r e d) as C; destruct (handle_direct c i k r e d) as [[out d'] res] end.
      cbn [fst snd hosted with_services DirectServer.services state with_state] in *.
      eapply side_change_bounded; [by eapply accepted_fits|exact C|].
      rewrite (same_side _ _ (admit_tables (a_clock a) env (core n))). by apply Hs.
    + apply Hb. by destruct (serve_storage_step _ _ _ _ _) as [[out s] r].
    + apply Hb. by destruct (serve_gossip_step _ _ _ _ _) as [[out s] r].
    + apply Hb. by destruct (serve_verse_step _ _ _ _ _ _ _) as [[out s] r].
  - apply Hb. destruct (guards n !! i) as [v|]; [|done]. by destruct v.
Qed.

End Strangers.

(** C6: over any run of a node in which the owner leaves the side alone, as long
    as no envelope it takes carries a record signed by its side, the side's
    profile, contacts, lifecycle and revocations stay as they are, and the
    devices that join are at most as many as the pairings the side was offering:
    no stranger gains anything by spreading its messages over connections,
    servers and time. *)
Theorem strangers_gain_nothing `{HashIter, Crypto, Ecies} es n
    (S : synced n) (O : Forall (fun e => by_owner e = false) es)
    (N : forall i e env, es !! i = Some e -> taken e (steps (take i es) n) = Some env ->
       ~ own_record (public_bytes (Node.side (core n))) (payload env)) :
  let s := fst (state n) in
  let s' := fst (state (steps es n)) in
  same_own_state s s' /\
  (size (co_holders s') + size (pending_pairings s') <= size (co_holders s) + size (pending_pairings s))%nat.
Proof.
  revert n S N. induction O as [|e es Ho _ IH]; intros n S N; [by repeat split|]. cbn [steps].
  destruct (step_base e n S) as (S' & Hk & _).
  destruct (step_strangers e n S Ho) as [E1 L1]; [intros env; by apply (N 0%nat e env)|].
  destruct (IH (step e n).2 S') as [E2 L2].
  { intros i e' env Hi Ht. rewrite Hk. by apply (N (Datatypes.S i) e' env). }
  split; [by etrans|]. unfold devices_and_offers in *. lia.
Qed.
