(* ===== verification/Pushes.v ===== *)
(** Where the pushes of a hosted verse go: in every state a running node can
    be in, the connection a verse has on record for a member is one that
    member opened, and what is stashed for a member is addressed to it. *)

From S2P Require Import Prelude Containers Keys Envelope Device Payload Verse VerseMessages Replay Reputation NetTables SideStore SideState Session Connection Storage Node NodeFacts DirectServer VerseHost VerseFacts Limiter Dialing System SystemFacts.

Open Scope N_scope.

(** ** Well-routed hosts *)

(** What is on record for the sessions and the stashes of a host; [L i m c]
    says that the connection [c] is [m]'s, for the host [i]. *)
Definition well_routed (L : HostId -> bytes -> Conn -> Prop) (i : HostId) (h : VerseHost) : Prop :=
  (forall m c, active_sessions h !! m = Some c -> L i m c) /\
  (forall m e, pending_key_pushes h !! m = Some e -> Envelope.to e = Some m).

Lemma well_routed_mono (L L' : HostId -> bytes -> Conn -> Prop) i h :
  (forall m c, active_sessions h !! m = Some c -> L i m c -> L' i m c) -> well_routed L i h -> well_routed L' i h.
Proof. intros HL [Ha Hp]. split; [|done]. intros m c Hm. by apply HL, Ha. Qed.

Lemma routed_shrinks L i h h' : well_routed L i h -> active_sessions h' ⊆ active_sessions h ->
  pending_key_pushes h' ⊆ pending_key_pushes h -> well_routed L i h'.
Proof.
  intros [Ha Hp] Sa Sp. split.
  - intros m c Hm. by eapply Ha, lookup_weaken.
  - intros m e Hm. by eapply Hp, lookup_weaken.
Qed.

Lemma routed_stash L i h m e :
  well_routed L i h -> Envelope.to e = Some m -> well_routed L i (stash_pending_key_push m e h).
Proof.
  intros [Ha Hp] Hm. split; [done|]. intros m' e'. cbn. rewrite lookup_insert. case_decide as E; [|by apply Hp].
  subst. by intros [= <-].
Qed.

Section Hosts.
Context `{HIL : HashIterLaws} `{!Crypto, !Ecies}.
Context (L : HostId -> bytes -> Conn -> Prop).
Abbreviation P := (well_routed L).

Definition all_hosts (v : Verses) : Prop := forall i h, heap v !! i = Some h -> P i h.

Lemma all_modify i f v :
  all_hosts v -> (forall h, heap v !! i = Some h -> P i h -> P i (f h)) -> all_hosts (modify_host i f v).
Proof using.
  intros Hv Hf j h. rewrite heap_modify. case_decide as E; [subst|by apply Hv].
  intros (h0 & Eh & ->)%fmap_Some. apply Hf; [done|by apply Hv].
Qed.

(** A function that leaves sessions and stashes alone. *)
Lemma all_modify_same i f v :
  all_hosts v -> (forall h, active_sessions (f h) = active_sessions h) ->
  (forall h, pending_key_pushes (f h) = pending_key_pushes h) -> all_hosts (modify_host i f v).
Proof using.
  intros Hv Ha Hp. apply all_modify; [done|]. intros h _ Hh. eapply routed_shrinks; [done|by rewrite Ha|by rewrite Hp].
Qed.

Lemma routed_drop i h side : P i h -> P i (drop_member side h).2.
Proof using. intros Hh. eapply routed_shrinks; [done| |done]. cbn. apply delete_subseteq. Qed.

(** The connection [c] is on record for the addressee of [e]. *)
Definition on_record (c : Conn) (e : Envelope) : Prop :=
  exists i h m, P i h /\ active_sessions h !! m = Some c /\ Envelope.to e = Some m.

Lemma is_push_to rng h now m e : is_push rng h now m e -> Envelope.to e = Some m.
Proof using. intros (p & i & j & _ & He). by injection He as <-. Qed.

Lemma deliver_pushes_keep carries i pushes : forall out h,
  Forall (fun x => Envelope.to (snd x) = Some (fst (fst x))) pushes -> P i h ->
  P i (foldl (deliver_push carries) (out, h) pushes).2.
Proof using.
  induction pushes as [|[[m c] e] pushes IH]; intros out h F Hh; [done|]. inversion F; subst. cbn [foldl deliver_push].
  destruct (carries c e); apply IH; try done. by apply routed_stash.
Qed.

Lemma rotate_keeps clock rng fresh carries i h :
  P i h -> P i (rotate_and_push_verse_key clock rng fresh carries h).1.2.
Proof using.
  intros Hh. unfold rotate_and_push_verse_key.
  assert (P i (rotate_content_key fresh h)) as Hr by (by eapply routed_shrinks).
  destruct clock as [now|]; cbn [now_unix_seconds ok_or mbind result_bind]; [|done].
  destruct (rotation_pushes _ _ _ _ _) as [pushes|err] eqn:E; [|done].
  apply rotation_pushes_spec in E as [_ Hf].
  pose proof (deliver_pushes_keep carries i pushes [] (rotate_content_key fresh h)) as K.
  destruct (foldl _ _ _) as [out h']. apply K; [|done]. eapply Forall_impl; [exact Hf|].
  intros [[m c] e]. apply is_push_to.
Qed.

Lemma rotate_sends clock rng fresh carries i h c e :
  P i h -> VSend c e ∈ (rotate_and_push_verse_key clock rng fresh carries h).1.1 -> on_record c e.
Proof using HIL.
  intros Hh Hin. destruct clock as [now|]; [|by apply not_elem_of_nil in Hin].
  pose proof (rotate_spec now rng fresh carries h) as S.
  destruct (rotate_and_push_verse_key _ _ _ _ _) as [[out h'] r]. destruct S as (S1 & _).
  destruct (S1 _ Hin) as (m & c' & e' & [= <- <-] & Hc & _ & Hp). exists i, h, m.
  split_and!; [done..|]. by eapply is_push_to.
Qed.

Lemma rotate_host_keeps carries clock rng fresh i s :
  all_hosts (verses s) -> all_hosts (verses (rotate_host carries clock rng fresh i s).2).
Proof using.
  intros Hv. unfold rotate_host. destruct (heap _ !! i) as [h|] eqn:E; [|done].
  pose proof (rotate_keeps clock rng fresh carries i h (Hv _ _ E)) as K.
  destruct (rotate_and_push_verse_key _ _ _ _ _) as [[out h'] r]. by apply all_modify.
Qed.

Lemma rotate_host_sends carries clock rng fresh i s c e :
  all_hosts (verses s) -> VSend c e ∈ (rotate_host carries clock rng fresh i s).1 -> on_record c e.
Proof using HIL.
  intros Hv. unfold rotate_host. destruct (heap _ !! i) as [h|] eqn:E; [|by intros ?%not_elem_of_nil].
  pose proof (rotate_sends clock rng fresh carries i h c e (Hv _ _ E)) as K.
  by destruct (rotate_and_push_verse_key _ _ _ _ _) as [[out h'] r].
Qed.

(** The handler keeps the hosts well routed; what it sends on a connection is
    either addressed to whom the connection is on record for, or the post it
    was given, on the connection of a member. *)
Definition forwarded (v : Verses) (env : Envelope) (c : Conn) (e : Envelope) : Prop :=
  e = env /\ exists i h m, heap v !! i = Some h /\ active_sessions h !! m = Some c /\ m ∈ members h.

Definition well_sent (v : Verses) (env : Envelope) (out : list VerseEffect) : Prop :=
  forall c e, VSend c e ∈ out -> on_record c e \/ forwarded v env c e.

Lemma well_sent_nil v env : well_sent v env [].
Proof using. by intros ? ? ?%not_elem_of_nil. Qed.

Lemma well_sent_respond v env resp s : well_sent v env (vrespond resp s).1.1.
Proof using. by intros c e [? [=]]%vrespond_effects. Qed.

(** A host is replaced and its key rotated. *)
Lemma replace_and_rotate carries clock rng fresh i h s v env :
  P i h -> all_hosts (verses s) ->
  let '(out, s') := rotate_host carries clock rng fresh i (with_verses (modify_host i (fun _ => h) (verses s)) s) in
  all_hosts (verses s') /\ well_sent v env out.
Proof using HIL.
  intros Hh Hv. assert (all_hosts (verses (with_verses (modify_host i (fun _ => h) (verses s)) s))) as Hm
    by (by apply all_modify).
  pose proof (rotate_host_keeps carries clock rng fresh i _ Hm) as K1.
  pose proof (fun c e => rotate_host_sends carries clock rng fresh i _ c e Hm) as K2.
  destruct (rotate_host _ _ _ _ _ _) as [out s']. split; [done|]. intros c e Hin. left. by apply K2.
Qed.

Lemma handle_verse_keeps carries clock rng fresh vs env s :
  all_hosts (verses s) ->
  all_hosts (verses (handle_verse carries clock rng fresh vs env s).1.2) /\
  well_sent (verses s) env (handle_verse carries clock rng fresh vs env s).1.1.
Proof using HIL.
  intros Hv. pose proof (well_sent_nil (verses s) env) as Hnil.
  unfold handle_verse. repeat case_match; try done.
  - unfold handle_contract_fetch. case_match; [rewrite vrespond_state|]; split; try done. apply well_sent_respond.
  - unfold handle_join_request. repeat case_match; rewrite ?vrespond_state; split; try done;
      try apply well_sent_respond. by apply all_modify_same.
  - unfold handle_verse_post. repeat case_match; try done. cbn [fst snd verses with_verses]. split.
    + by apply all_modify_same.
    + intros c e [Hin|[=]%list_elem_of_singleton]%elem_of_app. right.
      apply list_elem_of_fmap in Hin as ([m c'] & [= <- ->] & Hin). apply list_elem_of_In, filter_In in Hin as [Hin _].
      apply list_elem_of_In, member_sessions_spec in Hin as [? ?]. split; [done|]. by eauto 6.
  - unfold handle_verse_leave. destruct (VerseLeave.decode _) as [l|]; [|done]. destruct (negb _); [done|].
    destruct (mbind _ _) as [[i h]|] eqn:E; [|done].
    apply bind_Some in E as (i' & _ & E). apply bind_Some in E as (h' & E & [= -> ->]).
    pose proof (routed_drop i h (VerseLeave.side l) (Hv _ _ E)) as Hd.
    destruct (drop_member (VerseLeave.side l) h) as [was h1]. cbn [snd] in Hd.
    destruct was; [|split; [by apply all_modify|done]].
    set (h2 := if decide _ then _ else h1).
    assert (P i h2) as Hh2 by (subst h2; destruct (decide _); [by eapply routed_shrinks|done]).
    pose proof (replace_and_rotate carries clock rng fresh i h2 s (verses s) env Hh2 Hv).
    by destruct (rotate_host _ _ _ _ _ _) as [out s'].
  - unfold handle_verse_remove. destruct (VerseRemove.decode _) as [l|]; [|done].
    destruct (mbind _ _) as [[i h]|] eqn:E; [|done].
    apply bind_Some in E as (i' & _ & E). apply bind_Some in E as (h' & E & [= -> ->]).
    do 2 (destruct (negb _); [done|]).
    pose proof (routed_drop i h (VerseRemove.side l) (Hv _ _ E)) as Hd.
    destruct (drop_member (VerseRemove.side l) h) as [was h1]. cbn [snd] in Hd.
    destruct was; [|split; [by apply all_modify|done]].
    pose proof (replace_and_rotate carries clock rng fresh i h1 s (verses s) env Hd Hv).
    by destruct (rotate_host _ _ _ _ _ _) as [out s'].
  - unfold handle_verse_reconsent. repeat case_match; try done. split; [|done]. cbn [vskip fst snd verses with_verses].
    apply all_modify; [done|]. intros h' Hh' K. eapply (routed_shrinks _ _ h'); [done| |]; by simplify_eq.
Qed.

(** ** Opening and closing sessions *)

Lemma all_fold_modify f ids v :
  all_hosts v -> (forall i h, i ∈ ids -> P i h -> P i (f h)) ->
  all_hosts (foldl (fun v i => modify_host i f v) v ids).
Proof using.
  revert v. induction ids as [|i ids IH]; intros v Hv Hf; [done|]. cbn [foldl]. apply IH.
  - apply all_modify; [done|]. intros h _. apply Hf. by left.
  - intros j h Hj. apply Hf. by right.
Qed.

Lemma routed_insert i h m c : P i h -> L i m c -> P i (with_sessions (<[m := c]> (active_sessions h)) h).
Proof using.
  intros [Ha Hp] Hl. split; [|done]. intros m' c'. cbn. rewrite lookup_insert. case_decide as E; [|by apply Ha].
  subst. by intros [= <-].
Qed.

Lemma routed_take i h m : P i h -> P i (take_pending_key_push m h).2.
Proof using. intros Hh. eapply routed_shrinks; [done|done|]. apply delete_subseteq. Qed.

(** The redelivery: the stash goes to the peer it is addressed to, on its new
    connection. *)
Lemma redeliver_keeps carries c peer ids : forall out v,
  all_hosts v -> (forall c' e, VSend c' e ∈ out -> c' = c /\ Envelope.to e = Some peer) ->
  let '(out', v') := foldl (redeliver carries c peer) (out, v) ids in
  all_hosts v' /\ forall c' e, VSend c' e ∈ out' -> c' = c /\ Envelope.to e = Some peer.
Proof using.
  induction ids as [|i ids IH]; intros out v Hv Ho; [done|]. cbn [foldl]. unfold redeliver at 2.
  destruct (heap v !! i) as [h|] eqn:E; [|by apply IH].
  pose proof (routed_take i h peer (Hv _ _ E)) as Ht. unfold take_pending_key_push in *. cbn [snd] in Ht.
  destruct (pending_key_pushes h !! peer) as [e|] eqn:Ep; [|apply IH; [by apply all_modify|done]].
  pose proof (proj2 (Hv _ _ E) _ _ Ep) as He.
  destruct (carries c e); apply IH; try done.
  - by apply all_modify.
  - intros c' e' [Hin|[= -> ->]%list_elem_of_singleton]%elem_of_app; [by apply Ho|done].
  - apply all_modify; [done|]. intros _ _ _. by apply routed_stash.
Qed.

Lemma hosts_values (m : gmap bytes HostId) i : i ∈ map snd (hiter m) <-> exists a, m !! a = Some i.
Proof using HIL.
  rewrite list_elem_of_fmap. split.
  - intros ([a j] & -> & Hin%elem_of_hiter). eauto.
  - intros [a Ha]. exists (a, i). split; [done|]. by apply elem_of_hiter.
Qed.

Lemma open_session_keeps carries ss c v :
  all_hosts v -> (forall a i, hosted_verses v !! a = Some i -> L i (peer_side ss) c) ->
  let '(o, out, v') := open_session carries ss c v in
  all_hosts v' /\ (forall c' e, VSend c' e ∈ out -> c' = c /\ Envelope.to e = Some (peer_side ss)) /\
  match o with
  | Some vs => link vs = ss /\ conn vs = c /\ hosts vs = hosted_verses v
  | None => out = [] /\ v' = v
  end.
Proof using HIL.
  intros Hv Hl. unfold open_session. destruct (mbind _ _) as [d|].
  2: { split; [done|]. split; [|done]. by intros ? ? ?%not_elem_of_nil. }
  match goal with |- context [foldl (redeliver carries c (peer_side ss)) ([], ?v0) ?ids] =>
    pose proof (redeliver_keeps carries c (peer_side ss) ids [] v0) as K;
    destruct (foldl (redeliver carries c (peer_side ss)) ([], v0) ids) as [out v'] end.
  destruct K as [K1 K2]; [|by intros ? ? ?%not_elem_of_nil|by split_and!].
  apply all_fold_modify; [done|]. intros i h Hi Hh. apply hosts_values in Hi as [a Ha].
  apply routed_insert; [done|]. by eapply Hl.
Qed.

Lemma heap_fold_modify f ids v i h' :
  heap (foldl (fun v i => modify_host i f v) v ids) !! i = Some h' ->
  (i ∉ ids /\ heap v !! i = Some h') \/
  (i ∈ ids /\ exists h, heap v !! i = Some h /\ exists n, h' = Nat.iter (S n) f h).
Proof using.
  revert v. induction ids as [|j ids IH]; intros v; cbn [foldl].
  - intros E. left. split; [apply not_elem_of_nil|done].
  - intros [[Hn E]|(Hin & h & E & n & ->)]%IH; rewrite heap_modify in E; case_decide as Ej.
    + subst. apply fmap_Some in E as (h & E & ->). right. split; [by left|]. exists h. split; [done|]. by exists 0%nat.
    + left. split; [|done]. by intros [?|?]%elem_of_cons.
    + subst. apply fmap_Some in E as (h0 & E & ->). right. split; [by left|]. exists h0. split; [done|].
      exists (S n). by rewrite (Nat.iter_succ_r (S n)).
    + right. split; [by right|]. exists h. split; [done|]. by exists n.
Qed.

End Hosts.

(** After a session is closed no host it was on has a connection on record for
    its peer; nothing else is on record that was not before. *)
Lemma close_session_keeps `{HashIterLaws, Crypto, Ecies} (L L' : HostId -> bytes -> Conn -> Prop) vs v :
  all_hosts L v ->
  (forall i m c, L i m c -> (m = peer_side (link vs) /\ exists a, hosts vs !! a = Some i) \/ L' i m c) ->
  all_hosts L' (close_session vs v).
Proof.
  intros Hv Hl i h' Hi. unfold close_session in Hi.
  assert (forall n h, active_sessions (Nat.iter (S n) (fun h => with_sessions (delete (peer_side (link vs)) (active_sessions h)) h) h)
    = delete (peer_side (link vs)) (active_sessions h) /\
    pending_key_pushes (Nat.iter (S n) (fun h => with_sessions (delete (peer_side (link vs)) (active_sessions h)) h) h)
    = pending_key_pushes h) as Hd.
  { intros n h. induction n as [|n [IH1 IH2]]; [done|]. rewrite Nat.iter_succ. cbn [active_sessions pending_key_pushes with_sessions].
    by rewrite IH1, IH2, delete_delete_eq. }
  apply heap_fold_modify in Hi as [[Hn E]|(Hin & h & E & n & ->)].
  - eapply well_routed_mono; [|by apply Hv]. intros m c _ [[_ Ha]|?]%Hl; [|done].
    destruct Hn. by apply hosts_values.
  - destruct (Hd n h) as [Ea Ep]. destruct (Hv _ _ E) as [Ha Hp]. split; [|by rewrite Ep].
    intros m c. rewrite Ea. intros [Hne Hm]%lookup_delete_Some. destruct (Hl i m c) as [[-> _]|?]; [by apply Ha|done|done].
Qed.

(** ** The user's operations *)

Section User.
Context `{HIL : HashIterLaws} `{!Crypto, !Ecies}.
Context (L : HostId -> bytes -> Conn -> Prop).

(** Every push among the effects goes to whom its connection is on record for. *)
Definition all_on_record (out : list VerseEffect) : Prop := forall c e, VSend c e ∈ out -> on_record L c e.

Lemma all_on_record_nil : all_on_record [].
Proof using. by intros ? ? ?%not_elem_of_nil. Qed.

Lemma host_verse_keeps key c ck v : all_hosts L v -> all_hosts L (host_verse (VerseHost.new key c ck) v).
Proof using.
  intros Hv i h. unfold host_verse. cbn [heap]. intros [E|[_ E]]%lookup_app_Some; [by apply Hv|].
  apply list_lookup_singleton_Some in E as [_ <-]. split; intros m x; cbn; by rewrite lookup_empty.
Qed.

Lemma hosted_verse_Some addr v i h : hosted_verse addr v = Some (i, h) -> heap v !! i = Some h.
Proof using.
  unfold hosted_verse. intros (i' & _ & E)%bind_Some. by apply bind_Some in E as (h' & E & [= -> ->]).
Qed.

Lemma join_local_keeps addr m t v :
  all_hosts L v ->
  all_hosts L (match hosted_verse addr v with
               | Some (i, _) => modify_host i (fun h => (add_local_member m t h).2) v
               | None => v
               end).
Proof using. intros Hv. destruct (hosted_verse addr v) as [[i h]|]; [|done]. by apply all_modify_same. Qed.

Lemma host_rotate_keeps carries clock rng fresh addr v :
  all_hosts L v ->
  let '(out, v', _) := host_rotate_verse_key carries clock rng fresh addr v in
  all_hosts L v' /\ all_on_record out.
Proof using HIL.
  intros Hv. unfold host_rotate_verse_key. destruct (hosted_verse addr v) as [[i h]|] eqn:E.
  2: { split; [done|apply all_on_record_nil]. }
  apply hosted_verse_Some in E. pose proof (rotate_keeps L clock rng fresh carries i h (Hv _ _ E)) as K.
  pose proof (fun c e => rotate_sends L clock rng fresh carries i h c e (Hv _ _ E)) as K2.
  destruct (rotate_and_push_verse_key _ _ _ _ _) as [[out h'] r]. split; [by apply all_modify|done].
Qed.

Lemma amend_pushes_to h c now rng l : forall i pushes,
  amend_pushes h c now rng i l = Ok pushes ->
  forall k e, (k, e) ∈ pushes -> exists m, (m, k) ∈ l /\ Envelope.to e = Some m.
Proof using.
  induction l as [|[m k] l IH]; intros i pushes; cbn [amend_pushes].
  - intros [= <-]. by intros ? ? ?%not_elem_of_nil.
  - intros Hr. apply result_bind_ok in Hr as (env & He & Hr). apply result_bind_ok in Hr as (rest & Hrest & [= <-]).
    intros k' e' [[= -> ->]|Hin]%elem_of_cons.
    + exists m. split; [by left|]. unfold amend_envelope in He. by injection He as <-.
    + destruct (IH _ _ Hrest k' e' Hin) as (m' & ? & ?). exists m'. split; [by right|done].
Qed.

Lemma host_amend_keeps carries clock rng c v :
  all_hosts L v ->
  let '(out, v', _) := host_amend_verse carries clock rng c v in
  all_hosts L v' /\ all_on_record out.
Proof using HIL.
  intros Hv. unfold host_amend_verse. destruct (hosted_verse (verse c) v) as [[i h]|] eqn:E.
  2: { split; [done|apply all_on_record_nil]. }
  apply hosted_verse_Some in E.
  assert (all_hosts L (modify_host i (fun _ => amend_contract c h) v)) as Hm.
  { apply all_modify; [done|]. intros _ _ _. by eapply routed_shrinks; [apply (Hv _ _ E)|..]. }
  destruct (mbind _ _) as [pushes|err] eqn:Ep; (split; [done|]); [|apply all_on_record_nil].
  apply result_bind_ok in Ep as (now & _ & Ep). intros k e Hin.
  apply list_elem_of_fmap in Hin as ([k' e'] & [= <- <-] & Hin). apply list_elem_of_In, filter_In in Hin as [Hin _].
  apply list_elem_of_In in Hin. destruct (amend_pushes_to _ _ _ _ _ _ _ Ep _ _ Hin) as (m & Hmk & He).
  apply member_sessions_spec in Hmk as [Ha _]. exists i, h, m. split_and!; [by apply Hv|done|done].
Qed.

End User.
