(* ===== verification/Reachable.v ===== *)
(** The invariant of a running node, and what it says about every step the
    node can take. *)

From S2P Require Import Prelude Containers Keys Envelope Device Payload Verse VerseMessages Replay Reputation NetTables SideStore SideState Session Connection Storage Node NodeFacts DirectServer DirectFacts VerseHost VerseFacts Limiter Dialing System SystemFacts Pushes.

Open Scope N_scope.

(** ** The invariant *)

(** A server runs on sessions of its intent, and a verse session knows its
    connection. *)
Definition started_as (c : Conn) (v : Serving) : Prop :=
  match v with
  | OnDirect ss => intent ss = Intent.Direct
  | OnStorage ss => intent ss = Intent.Storage
  | OnGossip ss => intent ss = Intent.Gossip
  | OnVerse vs => intent (link vs) = Intent.Verse /\ conn vs = c
  end.

(** The server still runs, or its guard has yet to. *)
Definition around (n : System) (v : Serving) : Prop :=
  (exists c, running n !! c = Some v) \/ v ∈ guards n.

(** [c] was opened by [m] in a session that is on the host [i]. *)
Definition opened_by (n : System) (i : HostId) (m : bytes) (c : Conn) : Prop :=
  exists vs, conn vs = c /\ peer_side (link vs) = m /\ (exists a, hosts vs !! a = Some i) /\ around n (OnVerse vs).

Record node_ok (n : System) : Prop := {
  ok_synced : synced n;
  ok_replay : Replay.bounded (Node.replay (core n));
  ok_members : Forall host_ok (heap (hosts_of n));
  ok_routed : all_hosts (opened_by n) (hosts_of n);
  ok_running : forall c v, running n !! c = Some v -> (c < next n)%nat /\ started_as c v;
  ok_gossip : forall p, p ∈ active_gossip (core n) -> exists ss, peer_side ss = p /\ around n (OnGossip ss)
}.

Lemma opened_by_mono n n' i m c :
  (forall vs, around n (OnVerse vs) -> around n' (OnVerse vs)) -> opened_by n i m c -> opened_by n' i m c.
Proof. intros Ha (vs & ? & ? & ? & ?). exists vs. split_and!; auto. Qed.

Lemma routed_mono n n' v :
  (forall vs, around n (OnVerse vs) -> around n' (OnVerse vs)) ->
  all_hosts (opened_by n) v -> all_hosts (opened_by n') v.
Proof.
  intros Ha Hv i h Hi. eapply well_routed_mono; [|by apply Hv]. intros m c _. by apply opened_by_mono.
Qed.

Lemma around_start n v0 v :
  (forall c v, running n !! c = Some v -> (c < next n)%nat /\ started_as c v) ->
  around n v -> around (start v0 n) v.
Proof.
  intros Hr [[c Hc]|?]; [|by right]. left. exists c. cbn. rewrite lookup_insert_ne; [done|].
  intros <-. apply Hr in Hc as [? _]. lia.
Qed.

Lemma around_ended c v n w :
  running n !! c = Some v -> guarded w = [w] -> around n w -> around (ended c v n) w.
Proof.
  intros Hc Hw [[c' Hc']|Hg].
  - destruct (decide (c = c')) as [->|Hne].
    + rewrite Hc in Hc'. injection Hc' as ->. right. cbn. rewrite Hw. apply elem_of_app. right. by left.
    + left. exists c'. cbn. by rewrite lookup_delete_ne.
  - right. cbn. apply elem_of_app. by left.
Qed.

Lemma around_guard_run i v n w :
  guards n !! i = Some v -> around n w -> w = v \/ around (with_guards (delete i (guards n)) n) w.
Proof.
  intros Hi [[c Hc]|Hg]; [right; left; by exists c|].
  apply list_elem_of_lookup in Hg as [j Hj]. destruct (decide (j = i)) as [->|Hne]; [left; congruence|].
  right. right. cbn. apply list_elem_of_lookup. destruct (decide (j < i)%nat) as [Hl|Hl].
  - exists j. by rewrite list_lookup_delete_lt.
  - exists (j - 1)%nat. rewrite list_lookup_delete_ge by lia. by replace (S (j - 1)) with j by lia.
Qed.

Section Steps.
Context `{HIL : HashIterLaws} `{!Crypto, !Ecies}.

(** ** Members and consents *)

Definition verse_part (n : System) : VerseServices := {| VerseHost.services := core n; verses := hosts_of n |}.

Lemma step_members e n :
  Forall host_ok (heap (hosts_of n)) -> Forall host_ok (heap (hosts_of (step e n).2)).
Proof using.
  intros Hv. assert (forall x, Forall host_ok (heap (verses (vevent (verse_part n) x)))) as Hx
    by (intros x; by apply vevent_ok).
  destruct e as [now c a|c a|c|i|key c ck|addr m t|addr a|c a|policy|call listen clock io rnd]; cbn [step].
  - unfold connect. destruct (handle_connection _ _ _) as [[w x] [s l]].
    destruct x as [|e|ss|ss|ss|ss|ss]; try done; [by destruct (deliver_forwards _ _ _ _ _)|].
    pose proof (Hx (EOpen (a_carries a) ss (next n))) as K. cbn [vevent verses with_verses verse_part] in K.
    by destruct (open_session _ _ _ _) as [[[vs|] out] v].
  - destruct (running n !! c) as [v|]; [|done].
    assert (Forall host_ok (heap (hosts_of (serve v a n).1.2))) as K.
    2: { destruct (serve v a n) as [[out n'] r]. by destruct r. }
    destruct v as [ss|ss|ss|vs]; cbn [serve].
    + by destruct (serve_direct_step _ _ _ _ _ _ _) as [[out d] r].
    + by destruct (serve_storage_step _ _ _ _ _) as [[out s] r].
    + by destruct (serve_gossip_step _ _ _ _ _) as [[out s] r].
    + pose proof (Hx (EStep (a_carries a) vs (a_clock a) (a_rng a) (a_fresh a) (a_stream a))) as K.
      unfold vevent, verse_part in K. by destruct (serve_verse_step _ _ _ _ _ _ _) as [[out s] r].
  - by destruct (running n !! c).
  - destruct (guards n !! i) as [[ss|ss|ss|vs]|]; try done. exact (Hx (EClose vs)).
  - exact (Hx (EHost key c ck)).
  - pose proof (Hx (EJoinLocal addr m t)) as K. cbn [vevent verse_part verses] in K. unfold on_verses. cbn [snd].
    by destruct (hosted_verse addr (hosts_of n)) as [[i h]|].
  - pose proof (Hx (ERotate (a_carries a) (a_clock a) (a_rng a) (a_fresh a) addr)) as K.
    cbn [vevent verse_part verses with_verses] in K. unfold on_verses.
    by destruct (host_rotate_verse_key _ _ _ _ _ _) as [[out v] r].
  - pose proof (Hx (EAmend (a_carries a) (a_clock a) (a_rng a) c)) as K.
    cbn [vevent verse_part verses with_verses] in K. unfold on_verses.
    by destruct (host_amend_verse _ _ _ _ _) as [[out v] r].
  - done.
  - by destruct (owner call listen clock io rnd (state n)).
Qed.

(** ** Connections *)

Lemma handle_connection_intent now c s l :
  let '(w, x, st) := handle_connection now c (s, l) in
  match x with
  | ServeDirect ss => intent ss = Intent.Direct
  | ServeStorage ss => intent ss = Intent.Storage
  | ServeGossip ss => intent ss = Intent.Gossip
  | ServeVerse ss => intent ss = Intent.Verse
  | Throttled | NoHandshake _ | NotImplemented _ => True
  end.
Proof using.
  unfold handle_connection. destruct (try_acquire _ _ _) as [ok l']. destruct ok; cbn [negb]; [|done].
  destruct (run_responder_inner _ _ _ _ _) as [w [[ss rest]|e]]; [|done].
  unfold serve_intent. by destruct (intent ss) eqn:E.
Qed.

(** Serving touches neither the servers nor the guards. *)
Lemma serve_servers v a n :
  let n' := (serve v a n).1.2 in
  next n' = next n /\ running n' = running n /\ guards n' = guards n.
Proof using.
  destruct v as [ss|ss|ss|vs]; cbn [serve].
  - by destruct (serve_direct_step _ _ _ _ _ _ _) as [[out d] r].
  - by destruct (serve_storage_step _ _ _ _ _) as [[out s] r].
  - by destruct (serve_gossip_step _ _ _ _ _) as [[out s] r].
  - by destruct (serve_verse_step _ _ _ _ _ _ _) as [[out s] r].
Qed.

Lemma serve_active v a n : synced n -> active_gossip (core (serve v a n).1.2) = active_gossip (core n).
Proof using.
  intros S. pose proof (serve_not_admitted v a n S) as N.
  destruct (accept_one (session_of_server v) (a_stream a)) as [[env rest]|err] eqn:A; [|by rewrite N].
  pose proof (same_active _ _ (admit_tables (a_clock a) env (core n))) as Ea.
  destruct (admit_envelope (a_clock a) env (core n)).1 eqn:Ha; [|by rewrite N].
  destruct (serve_admitted v a n env rest S A Ha) as (_ & _ & _ & _ & ->). done.
Qed.

(** ** Routing *)

(** A push on [c]: a peer opened [c] for a session on the verses, and the
    envelope is addressed to it, or is the post just taken and it is a member. *)
Definition pushed_well (ev : Event) (n n' : System) (c : Conn) (e : Envelope) : Prop :=
  exists vs, conn vs = c /\ (around n (OnVerse vs) \/ around n' (OnVerse vs)) /\
    (Envelope.to e = Some (peer_side (link vs)) \/
     taken ev n = Some e /\
     exists i h, heap (hosts_of n) !! i = Some h /\ peer_side (link vs) ∈ members h).

Lemma on_record_pushed ev n n' c e : on_record (opened_by n) c e -> pushed_well ev n n' c e.
Proof using.
  intros (i & h & m & Hh & Ha & Ht). destruct (proj1 Hh _ _ Ha) as (vs & Hc & Hm & _ & Hv).
  exists vs. split_and!; [done|by left|left; congruence].
Qed.

Definition routed_step (ev : Event) (n : System) (r : list NodeEffect * System) : Prop :=
  all_hosts (opened_by r.2) (hosts_of r.2) /\
  forall c e, FromVerse (VSend c e) ∈ r.1 -> pushed_well ev n r.2 c e.

Lemma from_verse_elem c e out : FromVerse (VSend c e) ∈ map FromVerse out <-> VSend c e ∈ out.
Proof using.
  rewrite list_elem_of_fmap. split; [by intros (x & [= <-] & Hx)|intros Hx; by exists (VSend c e)].
Qed.

(** The owner's calls send nothing for a verse. *)
Lemma owner_no_verse call listen clock io rnd h x : FromVerse x ∉ (owner call listen clock io rnd h).1.
Proof using.
  unfold owner. destruct call; cbn [fst]; try apply not_elem_of_nil.
  all: try (intros (y & [=] & _)%list_elem_of_fmap).
  all: case_match; [by intros [=]%list_elem_of_singleton|apply not_elem_of_nil].
Qed.

(** A step that leaves the verses and sends nothing for them. *)
Lemma routed_same ev n r :
  all_hosts (opened_by n) (hosts_of n) -> hosts_of r.2 = hosts_of n ->
  (forall vs, around n (OnVerse vs) -> around r.2 (OnVerse vs)) ->
  (forall c e, FromVerse (VSend c e) ∉ r.1) -> routed_step ev n r.
Proof using.
  intros Hv Hh Ha Ho. split.
  - rewrite Hh. by eapply routed_mono.
  - intros c e Hin. by destruct (Ho c e).
Qed.

Lemma routed_connect now c a n : node_ok n -> routed_step (Connect now c a) n (connect now c a n).
Proof using HIL.
  intros [_ _ _ Hv Hr _]. unfold connect.
  destruct (handle_connection now c (core n, limit n)) as [[w x] [s l]].
  assert (forall v, forall vs, around n (OnVerse vs) -> around (accepted s l (start v n)) (OnVerse vs)) as Hst.
  { intros v vs. apply around_start, Hr. }
  assert (forall c e, FromVerse (VSend c e) ∉ [Handshaken w]) as Hnil by (by intros ? ? [=]%list_elem_of_singleton).
  destruct x as [|e|ss|ss|ss|ss|ss]; try (by apply routed_same; try (intros vs; apply (Hst _ vs))).
  - destruct (deliver_forwards _ _ _ _ _) as [out s1]. apply routed_same; try done.
    + intros vs. apply around_start, Hr.
    + intros c' e' [Hin|Hin]%elem_of_app; [by eapply Hnil|]. by apply list_elem_of_fmap in Hin as (y & [=] & _).
  - set (L i m c := opened_by n i m c \/ (c = next n /\ m = peer_side ss /\ exists a, hosted_verses (hosts_of n) !! a = Some i)).
    pose proof (open_session_keeps L (a_carries a) ss (next n) (hosts_of n)) as K.
    destruct (open_session (a_carries a) ss (next n) (hosts_of n)) as [[o out] v'].
    destruct K as (K1 & K2 & K3).
    { intros i h Hi. eapply well_routed_mono; [|by apply Hv]. intros m k _. by left. }
    { intros x i Hi. right. split_and!; eauto. }
    destruct o as [vs|].
    2: { destruct K3 as [-> ->]. by apply routed_same. }
    destruct K3 as (Hl & Hc & Hh).
    assert (around (accepted s l (start (OnVerse vs) (with_hosts_of v' n))) (OnVerse vs)) as Hnew.
    { left. exists (next n). cbn. by rewrite lookup_insert_eq. }
    split; cbn [fst snd].
    + intros i h Hi. eapply well_routed_mono; [|by apply K1]. intros m k _ [Ho|(-> & -> & Ha)].
      * eapply opened_by_mono; [|done]. intros vs'. apply (around_start (with_hosts_of v' n)), Hr.
      * exists vs. rewrite Hl, Hh. by split_and!.
    + intros k e [Hin|Hin]%elem_of_app; [by apply Hnil in Hin|]. apply from_verse_elem in Hin.
      destruct (K2 _ _ Hin) as [-> He]. exists vs. rewrite Hl. split_and!; [done|by right|by left].
Qed.

(** One iteration of a server keeps the routing as it was. *)
Lemma routed_serve c v a n :
  running n !! c = Some v -> all_hosts (opened_by n) (hosts_of n) ->
  all_hosts (opened_by n) (hosts_of (serve v a n).1.2) /\
  forall k e n', FromVerse (VSend k e) ∈ (serve v a n).1.1 -> pushed_well (Stream c a) n n' k e.
Proof using HIL.
  intros Hc Hv. destruct v as [ss|ss|ss|vs]; cbn [serve].
  - destruct (serve_direct_step _ _ _ _ _ _ _) as [[out d] r]. split; [done|].
    intros k e n' Hin. by apply list_elem_of_fmap in Hin as (y & [=] & _).
  - destruct (serve_storage_step _ _ _ _ _) as [[out s] r]. split; [done|].
    intros k e n' Hin. by apply list_elem_of_fmap in Hin as (y & [=] & _).
  - destruct (serve_gossip_step _ _ _ _ _) as [[out s] r]. split; [done|].
    intros k e n' Hin. by apply list_elem_of_fmap in Hin as (y & [=] & _).
  - unfold serve_verse_step. destruct (accept_one (link vs) (a_stream a)) as [[env rest]|err] eqn:A.
    2: { split; [done|]. by intros ? ? ? ?%not_elem_of_nil. }
    cbn [VerseHost.services verses]. destruct (admit_envelope (a_clock a) env (core n)) as [ok sv].
    destruct ok; [|split; [done|]; by intros ? ? ? ?%not_elem_of_nil].
    pose proof (handle_verse_keeps (opened_by n) (a_carries a) (a_clock a) (a_rng a) (a_fresh a) vs env
      {| VerseHost.services := sv; verses := hosts_of n |} Hv) as [K1 K2].
    destruct (handle_verse _ _ _ _ _ _ _) as [[out s] r]. cbn [fst snd hosts_of with_hosts_of verses] in *.
    split; [done|]. intros k e n' Hin%from_verse_elem. destruct (K2 _ _ Hin) as [Ho|(-> & i & h & m & Hi & Ha & Hm)].
    + by apply on_record_pushed.
    + destruct (proj1 (Hv _ _ Hi) _ _ Ha) as (vs' & Hk & Hp & _ & Hw). exists vs'. split_and!; [done|by left|].
      right. split; [cbn [taken]; rewrite Hc; cbn; by rewrite A|]. exists i, h. by rewrite Hp.
Qed.

Lemma routed_on_verses ev f n :
  all_hosts (opened_by n) (hosts_of n) ->
  (all_hosts (opened_by n) (f (hosts_of n)).2 /\ all_on_record (opened_by n) (f (hosts_of n)).1) ->
  routed_step ev n (on_verses f n).
Proof using.
  intros Hv [K1 K2]. unfold on_verses. destruct (f (hosts_of n)) as [out v]. split; [exact K1|].
  intros c e Hin%from_verse_elem. by apply on_record_pushed, K2.
Qed.

Lemma step_routed e n : node_ok n -> routed_step e n (step e n).
Proof using HIL.
  intros N. pose proof (ok_routed n N) as Hv.
  assert (forall (c : Conn) (x : Envelope), FromVerse (VSend c x) ∉ ([] : list NodeEffect)) as Hnil
    by (intros ? ?; apply not_elem_of_nil).
  destruct e as [now c a|c a|c|i|key c ck|addr m t|addr a|c a|policy|call listen clock io rnd]; cbn [step].
  - by apply routed_connect.
  - destruct (running n !! c) as [v|] eqn:Hc; [|by apply routed_same].
    destruct (routed_serve c v a n Hc Hv) as [K1 K2]. pose proof (serve_servers v a n) as (_ & Fr & Fg).
    destruct (serve v a n) as [[out n'] r]. cbn [fst snd] in *.
    assert (forall w, around n w -> around n' w) as Ha by (unfold around; by rewrite Fr, Fg).
    assert (forall vs, around n (OnVerse vs) -> around (ended c v n') (OnVerse vs)) as He.
    { intros vs Hvs. apply around_ended; [by rewrite Fr|done|by apply Ha]. }
    split; cbn [fst snd].
    + destruct r; (eapply routed_mono; [|exact K1]; eauto).
    + intros k e. by apply K2.
  - destruct (running n !! c) as [v|] eqn:Hc; apply routed_same; try done. intros vs. by apply around_ended.
  - destruct (guards n !! i) as [v|] eqn:Hi; [|by apply routed_same].
    assert (forall vs, v <> OnVerse vs -> around n (OnVerse vs) -> around (with_guards (delete i (guards n)) n) (OnVerse vs)) as Ha.
    { intros vs Hne Hw. by destruct (around_guard_run i v n (OnVerse vs) Hi Hw) as [<-|?]. }
    destruct v as [ss|ss|ss|vs].
    1-3: apply routed_same; try done; intros vs Hvs; apply (Ha vs); [done|exact Hvs].
    split; [|by intros ? ? ?%Hnil]. cbn [snd run_guard hosts_of with_hosts_of].
    eapply close_session_keeps; [exact Hv|]. intros j m k (vs' & Hk & Hm & Hj & Hw).
    destruct (around_guard_run i (OnVerse vs) n (OnVerse vs') Hi Hw) as [[= ->]|Hw'].
    + left. by split.
    + right. exists vs'. by split_and!.
  - apply routed_on_verses; [done|]. split; [by apply host_verse_keeps|apply all_on_record_nil].
  - apply routed_on_verses; [done|]. split; [by apply join_local_keeps|apply all_on_record_nil].
  - apply routed_on_verses; [done|].
    pose proof (host_rotate_keeps _ (a_carries a) (a_clock a) (a_rng a) (a_fresh a) addr _ Hv) as K.
    by destruct (host_rotate_verse_key _ _ _ _ _ _) as [[out v] r].
  - apply routed_on_verses; [done|].
    pose proof (host_amend_keeps _ (a_carries a) (a_clock a) (a_rng a) c _ Hv) as K.
    by destruct (host_amend_verse _ _ _ _ _) as [[out v] r].
  - by apply routed_same.
  - pose proof (owner_no_verse call listen clock io rnd (state n)) as Hno.
    destruct (owner call listen clock io rnd (state n)) as [out h]. by apply routed_same.
Qed.

(** ** Servers and gossip peers *)

Lemma running_start n v c w :
  (forall c v, running n !! c = Some v -> (c < next n)%nat /\ started_as c v) -> started_as (next n) v ->
  running (start v n) !! c = Some w -> (c < S (next n))%nat /\ started_as c w.
Proof using.
  intros Hr Hv. cbn. rewrite lookup_insert. case_decide as E.
  - subst. intros [= <-]. by split; [lia|].
  - intros [? ?]%Hr. by split; [lia|].
Qed.

Lemma step_running e n :
  node_ok n -> forall c v, running (step e n).2 !! c = Some v -> (c < next (step e n).2)%nat /\ started_as c v.
Proof using HIL.
  intros [_ _ _ Hv Hr _]. assert (forall c v, running n !! c = Some v -> (c < S (next n))%nat /\ started_as c v) as Hr'.
  { intros c v [? ?]%Hr. by split; [lia|]. }
  destruct e as [now c a|c a|c|i|key c ck|addr m t|addr a|c a|policy|call listen clock io rnd]; cbn [step].
  - unfold connect. pose proof (handle_connection_intent now c (core n) (limit n)) as Hi.
    destruct (handle_connection now c (core n, limit n)) as [[w x] [s l]].
    destruct x as [|e|ss|ss|ss|ss|ss]; try exact Hr'.
    + intros c' v. by apply running_start.
    + intros c' v. by apply running_start.
    + destruct (deliver_forwards _ _ _ _ _) as [out s1]. intros c' v. by apply running_start.
    + pose proof (open_session_keeps (fun _ _ _ => True) (a_carries a) ss (next n) (hosts_of n)) as K.
      destruct (open_session _ _ _ _) as [[[vs|] out] v']; [|exact Hr']. intros c' v.
      destruct K as (_ & _ & Hl & Hc & _); [|done|].
      * intros i h Hh. eapply (well_routed_mono (opened_by n)); [done|by apply Hv].
      * apply (running_start (with_hosts_of v' n)); [done|]. split; [by rewrite Hl|done].
  - destruct (running n !! c) as [v|] eqn:Hc; [|exact Hr]. pose proof (serve_servers v a n) as (Fn & Fr & _).
    destruct (serve v a n) as [[out n'] r]. cbn [fst snd] in *. intros c' v'.
    destruct r; cbn [snd running next ended with_guards with_running]; rewrite Fn, Fr; [apply Hr|].
    intros [_ ?]%lookup_delete_Some. by apply Hr.
  - destruct (running n !! c) as [v|]; [|exact Hr]. intros c' v'. cbn. intros [_ ?]%lookup_delete_Some. by apply Hr.
  - destruct (guards n !! i) as [[ss|ss|ss|vs]|]; exact Hr.
  - exact Hr.
  - exact Hr.
  - unfold on_verses. by destruct (host_rotate_verse_key _ _ _ _ _ _) as [[out v] r].
  - unfold on_verses. by destruct (host_amend_verse _ _ _ _ _) as [[out v] r].
  - done.
  - by destruct (owner call listen clock io rnd (state n)).
Qed.

Definition gossip_known (n : System) : Prop :=
  forall p, p ∈ active_gossip (core n) -> exists ss, peer_side ss = p /\ around n (OnGossip ss).

Lemma gossip_mono n n' :
  gossip_known n -> active_gossip (core n') ⊆ active_gossip (core n) ->
  (forall ss, around n (OnGossip ss) -> peer_side ss ∈ active_gossip (core n') -> around n' (OnGossip ss)) ->
  gossip_known n'.
Proof using.
  intros Hg Hs Ha p Hp. destruct (Hg p (Hs p Hp)) as (ss & <- & Hss). exists ss. split; [done|]. by apply Ha.
Qed.

Lemma step_gossip e n : node_ok n -> gossip_known (step e n).2.
Proof using HIL.
  intros [Hsync _ _ _ Hr Hg]. change (gossip_known n) in Hg.
  destruct e as [now c a|c a|c|i|key c ck|addr m t|addr a|c a|policy|call listen clock io rnd]; cbn [step].
  - unfold connect. pose proof (handle_connection_base now c (core n) (limit n)) as B.
    destruct (handle_connection now c (core n, limit n)) as [[w x] [s l]]. cbn [fst snd] in B. injection B as _ _ _ _ B.
    assert (forall v, gossip_known (accepted s l (start v n))) as Hst.
    { intros v. apply (gossip_mono n); [done|by rewrite <-B|]. intros ss Hss _. by apply around_start. }
    assert (gossip_known (accepted s l n)) as Hn by (apply (gossip_mono n); [done|by rewrite <-B|done]).
    destruct x as [|e|ss|ss|ss|ss|ss]; try done; try apply Hst.
    + pose proof (deliver_forwards_base ss (a_clock a) (a_rng a) (a_sends a)
        (with_active_gossip ({[peer_side ss]} ∪ active_gossip s) s)) as D.
      destruct (deliver_forwards _ _ _ _ _) as [out s1]. cbn [snd] in *. injection D as _ _ _ _ D.
      intros p. cbn [core accepted]. rewrite D, B. intros [->%elem_of_singleton|Hp]%elem_of_union.
      * exists ss. split; [done|]. left. exists (next n). cbn. by rewrite lookup_insert_eq.
      * destruct (Hg p Hp) as (ss' & Hss & Hw). exists ss'. split; [done|]. by apply (around_start n).
    + destruct (open_session _ _ _ _) as [[[vs|] out] v']; [apply Hst|done].
  - destruct (running n !! c) as [v|] eqn:Hc; [|done]. pose proof (serve_servers v a n) as (_ & Fr & Fg).
    pose proof (serve_active v a n Hsync) as Fa. destruct (serve v a n) as [[out n'] r]. cbn [fst snd] in *.
    assert (gossip_known n') as Hn'.
    { apply (gossip_mono n); [done|by rewrite Fa|]. unfold around. by rewrite Fr, Fg. }
    destruct r; [done|]. apply (gossip_mono n'); [done|done|]. intros ss Hss _.
    apply around_ended; [by rewrite Fr|done|done].
  - destruct (running n !! c) as [v|] eqn:Hc; [|done]. apply (gossip_mono n); [done|done|]. intros ss Hss _.
    by apply around_ended.
  - destruct (guards n !! i) as [v|] eqn:Hi; [|done].
    apply (gossip_mono n); [done|destruct v; cbn; set_solver|]. intros ss Hss Hp.
    destruct (around_guard_run i v n (OnGossip ss) Hi Hss) as [<-|Hw]; [cbn in Hp; set_solver|by destruct v].
  - done.
  - done.
  - unfold on_verses. by destruct (host_rotate_verse_key _ _ _ _ _ _) as [[out v] r].
  - unfold on_verses. by destruct (host_amend_verse _ _ _ _ _) as [[out v] r].
  - done.
  - by destruct (owner call listen clock io rnd (state n)).
Qed.

Lemma step_ok e n : node_ok n -> node_ok (step e n).2.
Proof using HIL.
  intros N. split.
  - apply step_base, N.
  - destruct (step_replay e n (ok_synced n N)) as [->|(now & from & no & _ & ->)]; [apply N|].
    apply Replay.observe_bounded, N.
  - apply step_members, N.
  - by apply step_routed.
  - by apply step_running.
  - by apply step_gossip.
Qed.

End Steps.

(** ** Properties *)

(** The states a node can be in that was started with such a replay cache. *)
Inductive reachable `{HashIter, Crypto, Ecies} : System -> Prop :=
| reach_start k st cache h : Replay.bounded cache -> reachable (started k st cache h)
| reach_step e n : reachable n -> reachable (step e n).2.

Lemma reachable_node_ok `{HashIterLaws, Crypto, Ecies} n : reachable n -> node_ok n.
Proof.
  induction 1 as [k st cache h B|e n _ IH]; [|by apply step_ok]. by split.
Qed.

(** C10: in every state a node can reach, its replay cache is within its bound;
    a server runs only on sessions of its intent; every peer the gossip
    fan-out knows, and every connection a verse has on record for a member,
    belongs to a session that peer opened and that is still running or whose
    guard is still to run; what is stashed for a member is addressed to it; and
    the members of a verse are those with a consent on record. *)
Theorem node_invariant `{HashIterLaws, Crypto, Ecies} n (R : reachable n) :
  Replay.len (Node.replay (core n)) <= Replay.max_entries (Node.replay (core n)) /\
  (forall c v, running n !! c = Some v -> started_as c v) /\
  (forall p, p ∈ active_gossip (core n) -> exists ss, peer_side ss = p /\ around n (OnGossip ss)) /\
  forall i h, heap (hosts_of n) !! i = Some h ->
    (forall m c, active_sessions h !! m = Some c ->
       exists vs, conn vs = c /\ peer_side (link vs) = m /\ around n (OnVerse vs)) /\
    (forall m e, pending_key_pushes h !! m = Some e -> Envelope.to e = Some m) /\
    (forall m, m ∈ members h <-> is_Some (consented_versions h !! m)).
Proof.
  apply reachable_node_ok in R as [_ [_ Hb] Hm Hv Hr Hg]. split_and!; [done|by intros c v [_ ?]%Hr|done|].
  intros i h Hi. destruct (Hv _ _ Hi) as [Ha Hp]. split_and!; [|done|].
  - intros m c (vs & ? & ? & _ & ?)%Ha. by exists vs.
  - intros m. destruct (proj1 (Forall_lookup _ _) Hm _ _ Hi) as [<- _]. by rewrite elem_of_dom.
Qed.


(** ** Concrete instances *)

Module SystemExamples.
Import Toy ToyEcies ToyIter SessionExamples ConnectionExamples NodeExamples LimiterExamples DialingExamples VerseHostExamples.

Definition own_side : Hosted :=
  match load_or_create (Some 5) SideState.io_ok Toy.side2 (Some "home") empty_tables with
  | Ok h => add_pending_pairing (Some now0) n1 h
  | Err _ => (SideState.fresh Toy.side2 None 0, empty_tables)
  end.

Definition arrival (t : N) (bs : bytes) (works : bool) : Arrival := {|
  a_stream := bs; a_clock := Some t; a_ios := fun _ => SideState.io_ok; a_nonce := n1; a_key_nonce := n2;
  a_rng := nonces; a_fresh := key2; a_sends := fun _ => works; a_carries := fun _ _ => works |}.

(** What [Toy.side] writes to open a connection with the intent [i]. *)
Definition dials (i : Intent.t) (s : bytes) : bytes * nresult (Session * bytes) :=
  run_initiator_inner Toy.side i None n1 7 n1 9 n1 s.
Definition wire_of (i : Intent.t) : bytes := (dials i (responder (dials i []).1).1).1.
Definition dialled (i : Intent.t) : Event := Connect noon (from_ip "10.0.0.2" (wire_of i)) (arrival now0 [] true).

(** A node of [side2] that hosts the verse of [Toy.side], a member; the member
    connects under two intents. *)
Definition verse_addr0 : bytes := public_bytes Toy.side.
Definition setup : list Event :=
  [HostVerse Toy.side VerseExamples.c1 key1; JoinLocal verse_addr0 verse_addr0 1;
   dialled Intent.Verse; dialled Intent.Direct].
Definition cold_node : System := started Toy.side2 Objects.open Replay.new own_side.
Definition connected_node : System := steps setup cold_node.

Lemma new_bounded : Replay.bounded Replay.new.
Proof. split; vm_compute; discriminate. Qed.

Lemma connected_reachable : reachable connected_node.
Proof. repeat apply reach_step. apply reach_start, new_bounded. Qed.

Lemma connected_synced : synced connected_node.
Proof. vm_compute. reflexivity. Qed.

Definition rotation : Event := RotateKey verse_addr0 (arrival (now0 + 5) [] true).
Definition pushed : Envelope :=
  match (step rotation connected_node).1 with
  | FromVerse (VSend _ e) :: _ => e
  | _ => announcement
  end.

Lemma rotation_pushed : (step rotation connected_node).1 = [FromVerse (VSend 0%nat pushed)].
Proof. vm_compute. reflexivity. Qed.


Lemma node_invariant_witness :
  Replay.len (Node.replay (core connected_node)) <= Replay.max_entries (Node.replay (core connected_node)) /\
  forall c v, running connected_node !! c = Some v -> started_as c v.
Proof. destruct (node_invariant connected_node connected_reachable) as (H1 & H2 & _). exact (conj H1 H2). Defined.

(** An envelope [Toy.side] signs for the direct server, sent twice, with the
    loss of the other connection in between. *)
Definition typed : Envelope := env DirectServer.MT_PROFILE_FETCH (public_bytes Toy.side2).
Definition first : Event := Stream 1%nat (arrival (now0 + 1) (frame typed) true).
Definition second : Event := Stream 1%nat (arrival (now0 + 599) (frame typed) true).

Definition between : list Event := [Lost 0%nat; dialled Intent.Direct; Guard 0].

Lemma first_taken : taken first connected_node = Some typed.
Proof. vm_compute. reflexivity. Qed.

Lemma first_let_in : let_in first connected_node = true.
Proof. vm_compute. reflexivity. Qed.

Lemma room_between :
  N.of_nat (size (Replay.entries (Node.replay (core (step first connected_node).2))) + length between)
  <= Replay.max_entries (Node.replay (core connected_node)).
Proof. apply N.leb_le. vm_compute. reflexivity. Qed.

Lemma untimed : Forall (fun e => forall now, event_time e = Some now ->
  now - (now0 + 1) < Replay.ttl (Node.replay (core connected_node))) between.
Proof. repeat (constructor; [discriminate|]). constructor. Qed.

Lemma second_taken : taken second (steps between (step first connected_node).2) = Some typed.
Proof. vm_compute. reflexivity. Qed.

Lemma second_soon : now0 + 599 - (now0 + 1) < Replay.ttl (Node.replay (core connected_node)).
Proof. apply N.ltb_lt. vm_compute. reflexivity. Qed.


(** A retirement of the sender is no record of the side. *)
Definition retiring : Event :=
  Stream 1%nat (arrival (now0 + 1) (frame (env DirectServer.MT_SIDE_RETIREMENT (as_bytes "gone"))) true).

Lemma strangers_gain_nothing_witness :
  let s := fst (state connected_node) in
  let s' := fst (state (steps [retiring; Lost 1%nat] connected_node)) in
  same_own_state s s' /\
  (size (co_holders s') + size (pending_pairings s') <= size (co_holders s) + size (pending_pairings s))%nat.
Proof.
  apply (strangers_gain_nothing [retiring; Lost 1%nat] connected_node connected_synced ltac:(by repeat constructor)).
  intros [|[|i]] e x [= <-]; [|done]. intros Ht.
  assert (x = env DirectServer.MT_SIDE_RETIREMENT (as_bytes "gone")) as -> by (vm_compute in Ht; by injection Ht as <-).
  intros Hown. apply own_record_parses in Hown; [|by vm_compute].
  destruct Hown as [E|E]; vm_compute in E; discriminate.
Defined.

(** A message handed to two sides of a node is held twice. *)
Lemma replay_across_sides_witness :
  (admit_envelope (Some (now0 + 1)) forward
     (side_services Toy.side ∅ (admit_envelope (Some now0) forward node).2)).1 = true.
Proof. apply replay_across_sides; [vm_compute; reflexivity|vm_compute; discriminate|vm_compute; reflexivity]. Defined.

Example forwarded_to_two_sides :
  let s1 := (serve_gossip_step (session Intent.Gossip) (Some now0) n1 (frame forward) node).1.2 in
  let s2 := (serve_gossip_step (session Intent.Gossip) (Some (now0 + 1)) n1 (frame forward) (side_services Toy.side ∅ s1)).1.2 in
  length (default [] (mailbox s2 !! peer3)) = 2%nat.
Proof. vm_compute. reflexivity. Qed.

End SystemExamples.
