(* ===== verification/Lives.v ===== *)
(** The side of a node over its whole life: what the servers, the peers and the
    owner do to it, process restarts included.

    Every step of a node acts on its side as a list of the operations of
    [SideState.v], so what [SideFacts.v] proves of histories of operations holds
    of a running node.  The statements on the store are taken to succeed. *)

From S2P Require Import Prelude Keys Profile Device Records Envelope Payload Replay NetTables Containers Session Storage SideStore SideState SideFacts DirectServer Host DirectFacts Node NodeFacts System SystemFacts Reachable.

Open Scope N_scope.

(** ** Lives *)

(** The process ends, and the node is started again on the tables and the
    object store it left; the verses it hosted are hosted anew.  [cache] is the
    replay cache it starts with. *)
Inductive Moment :=
| Does (e : Event)
| Restarts (clock : Clock) (label : option string) (cache : Replay.ReplayCache).

Section Lives.
Context `{HashIter, Crypto, Ecies}.

Definition restart (clock : Clock) (label : option string) (cache : Replay.ReplayCache) (n : System)
    : option System :=
  match load_or_create clock io_ok (keypair (fst (state n))) label (snd (state n)) with
  | Ok h => Some (started (keypair (fst (state n))) (store (core n)) cache h)
  | Err _ => None
  end.

Fixpoint live (ms : list Moment) (n : System) : option System :=
  match ms with
  | [] => Some n
  | Does e :: ms => live ms (step e n).2
  | Restarts clock label cache :: ms => n' ← restart clock label cache n; live ms n'
  end.

(** [P] holds of every event and the node it meets. *)
Fixpoint along (P : Event -> System -> Prop) (ms : list Moment) (n : System) : Prop :=
  match ms with
  | [] => True
  | Does e :: ms => P e n /\ along P ms (step e n).2
  | Restarts clock label cache :: ms => forall n', restart clock label cache n = Some n' -> along P ms n'
  end.

(** ** The operations behind a step *)

Definition owner_ops (call : OwnerCall) (rnd : bytes) : list SideOp :=
  match call with
  | SetLocalProfile p => [OSetProfile p]
  | PublishRetirement _ => [OSetSelfRetired]
  | RetireSide _ _ => [OSetLifecycle Lifecycle.Retired]
  | AddRelationship r => [OAddRelationship r]
  | RemoveRelationship a => [ORemoveRelationship a]
  | UpdateRelationship a f => [OUpdateRelationship a f]
  | SetLifecycle lc => [OSetLifecycle lc]
  | RefreshLifecycle => [ORefreshLifecycle]
  | SendDm _ _ _ | AnnounceRetirement _ _ _ => [OTouchSend]
  | GeneratePairingQr _ => [OAddPending rnd]
  | RevokeCoHolder _ dev _ => [OAddRevoked dev; ORemoveCoHolder dev]
  end.

(** The operations an envelope to the direct server can cause. *)
Definition wire_op (own : bytes) (env : Envelope) (op : SideOp) : Prop :=
  match op with
  | OMarkRetired a => a = from env
  | OTakePending _ => True
  | OAddCoHolder d _ => exists req, PairingRequest.from_wire_bytes (payload env) = Ok req /\
      PairingRequest.side req = own /\ PairingRequest.device_pubkey req = d
  | OAddRevoked d | ORemoveCoHolder d => exists rec, DeviceRevoke.from_wire_bytes (payload env) = Ok rec /\
      DeviceRevoke.side rec = own /\ DeviceRevoke.device_pubkey rec = d
  | ODelta op at_ => exists delta, Delta.from_wire_bytes (payload env) = Ok delta /\
      Delta.side delta = own /\ op ∈ Delta.ops delta /\ at_ = Delta.applied_at delta
  | _ => False
  end.

Definition caused (e : Event) (n : System) (op : SideOp) : Prop :=
  match e with
  | Owner call _ _ _ rnd => op ∈ owner_ops call rnd
  | _ => exists env, taken e n = Some env /\ wire_op (public_bytes (Node.side (core n))) env op
  end.

(** The clock an event reads fits, and its statements on the store succeed. *)
Definition clean (e : Event) : Prop :=
  match e with
  | Stream _ a => from_option wf_time True (a_clock a) /\ forall i, a_ios a i = io_ok
  | Owner _ _ clock io _ => from_option wf_time True clock /\ io = io_ok
  | _ => True
  end.

Definition side_clock (e : Event) : Clock :=
  match e with Stream _ a => a_clock a | Owner _ _ clock _ _ => clock | _ => None end.

Definition calls (clock : Clock) (ops : list SideOp) : list (option N * Io * SideOp) :=
  map (fun op => (clock, io_ok, op)) ops.

(** ** Every step is a history of the side *)

Lemma run_app l1 l2 h : run (l1 ++ l2) h = run l2 (run l1 h).
Proof using. apply foldl_app. Qed.

(** The node an owner's call runs on. *)
Definition owned (listen : string) (h : Hosted) : HostNode :=
  {| primary := fst h; listen_addr := listen; extras := []; side_store := snd h |}.

Lemma on_primary_owned f listen h :
  (primary (on_primary f (owned listen h)), side_store (on_primary f (owned listen h))) = f h.
Proof using. destruct h as [s t]. unfold on_primary. cbn. by destruct (f (s, t)). Qed.

Lemma on_side_owned a f listen h :
  (primary (on_side a f (owned listen h)), side_store (on_side a f (owned listen h))) = f h \/
  on_side a f (owned listen h) = owned listen h.
Proof using.
  unfold on_side, is_primary. cbn [primary extras owned]. case_bool_decide; [left|by right].
  apply on_primary_owned.
Qed.

Lemma owner_history call listen clock rnd h :
  (owner call listen clock io_ok rnd h).2 = h \/
  (owner call listen clock io_ok rnd h).2 = run (calls clock (owner_ops call rnd)) h.
Proof using.
  unfold owner. change {| primary := fst h; listen_addr := listen; extras := []; side_store := snd h |}
    with (owned listen h). destruct call; cbn [fst snd owner_ops].
  1, 4-8: right; by apply on_primary_owned.
  - unfold publish_retirement. case_match; [right; by apply on_primary_owned|by left; destruct h].
  - unfold retire_side. repeat (case_match; [|by left; destruct h]).
    destruct (on_side_owned a (set_lifecycle io_ok 0 Lifecycle.Retired) listen h) as [E|E]; cbn [snd]; rewrite E;
      [by right|by left; destruct h].
  - unfold node_send_dm, node_send. case_match; [right; by apply on_primary_owned|by left; destruct h].
  - unfold node_announce_retirement, node_send.
    case_match; [right; by apply on_primary_owned|by left; destruct h].
  - unfold generate_pairing_qr. repeat (case_match; [|by left; destruct h]).
    destruct (on_side_owned a (add_pending_pairing clock rnd) listen h) as [E|E]; cbn [snd]; rewrite E;
      [by right|by left; destruct h].
  - unfold revoke_co_holder. repeat (case_match; [|by left; destruct h]). cbn [snd].
    destruct (on_side_owned a (fun h => remove_co_holder io_ok 1 dev (add_revoked_device clock io_ok 0 dev h)) listen h)
      as [E|E]; rewrite E; [by right|by left; destruct h].
Qed.

Lemma apply_deltas_run clock ios ops at_ h :
  (forall i, ios i = io_ok) ->
  apply_deltas clock ios ops at_ h = run (calls clock (map (fun op => ODelta op at_) ops)) h.
Proof using.
  intros Hi. unfold apply_deltas. generalize 0%nat. revert h.
  induction ops as [|op ops IH]; intros h i; [done|]. cbn [foldl map calls run].
  rewrite IH, Hi. done.
Qed.

Lemma change_history clock ios own env h h' :
  (forall i, ios i = io_ok) -> SideChange clock ios own env h h' ->
  exists ops, h' = run (calls clock ops) h /\ Forall (wire_op own env) ops.
Proof using.
  intros Hi C. destruct C as [|rec E Es|n|req p h' E Es Ht|rec E Es|delta E Es]; rewrite ?Hi.
  - by exists [].
  - exists [OMarkRetired (from env)]. by repeat constructor.
  - exists [OTakePending n]. by repeat constructor.
  - exists [OTakePending (PairingRequest.nonce req); OAddCoHolder (PairingRequest.device_pubkey req) (Some own)].
    split; [|repeat constructor; by exists req]. cbn [calls map run foldl SideFacts.step]. by rewrite Ht.
  - exists [OAddRevoked (DeviceRevoke.device_pubkey rec); ORemoveCoHolder (DeviceRevoke.device_pubkey rec)].
    split; [done|]. repeat constructor; by exists rec.
  - exists (map (fun op => ODelta op (Delta.applied_at delta)) (Delta.ops delta)).
    split; [by apply apply_deltas_run|]. apply Forall_forall. intros op (x & -> & Hx)%list_elem_of_fmap. by exists delta.
Qed.

Lemma step_history e n :
  synced n -> clean e ->
  exists ops, state (step e n).2 = run (calls (side_clock e) ops) (state n) /\ Forall (caused e n) ops.
Proof using.
  intros S Hc. assert (forall n', state n' = state n ->
    exists ops, state n' = run (calls (side_clock e) ops) (state n) /\ Forall (caused e n) ops) as Hb
    by (intros n' ->; by exists []).
  destruct e as [now c a|c a|c|i|key c ck|addr m t|addr a|c a|policy|call listen clock io rnd]; cbn [step snd];
    [apply Hb, connect_state| |apply Hb; by destruct (running n !! c)| |by apply Hb
    |apply Hb, on_verses_state..|by apply Hb|].
  - destruct Hc as [_ Hi]. cbn [side_clock] in *. destruct (running n !! c) as [v|] eqn:Hr; [|by apply Hb].
    assert (exists ops, state (serve v a n).1.2 = run (calls (a_clock a) ops) (state n) /\
      Forall (caused (Stream c a) n) ops) as K.
    2: { destruct (serve v a n) as [[out n'] r]. by destruct r. }
    destruct v as [ss|ss|ss|vs]; cbn [serve] in *.
    + rewrite serve_direct_step_inv. destruct (accept_one ss (a_stream a)) as [[env rest]|] eqn:A; [|by apply Hb].
      cbn [DirectServer.services]. destruct (admit_envelope (a_clock a) env (core n)).1; [|by apply Hb].
      match goal with |- context [handle_direct ?c ?i ?k ?r ?e ?d] =>
        pose proof (handle_direct_change c i k r e d) as C; destruct (handle_direct c i k r e d) as [[out d'] res] end.
      cbn [fst snd hosted with_services DirectServer.services state with_state] in *.
      rewrite (same_side _ _ (admit_tables (a_clock a) env (core n))) in C.
      destruct (change_history _ _ _ _ _ _ Hi C) as (ops & E & Ho). exists ops. split; [done|].
      eapply Forall_impl; [exact Ho|]. intros op Hop. exists env. split; [|done].
      cbn [taken]. rewrite Hr. cbn. by rewrite A.
    + apply Hb. by destruct (serve_storage_step _ _ _ _ _) as [[out s] r].
    + apply Hb. by destruct (serve_gossip_step _ _ _ _ _) as [[out s] r].
    + apply Hb. by destruct (VerseHost.serve_verse_step _ _ _ _ _ _ _) as [[out s] r].
  - apply Hb. destruct (guards n !! i) as [v|]; [|done]. by destruct v.
  - destruct Hc as [_ ->]. pose proof (owner_history call listen clock rnd (state n)) as K.
    destruct (owner call listen clock io_ok rnd (state n)) as [out h]. cbn [snd state with_state side_clock caused] in *.
    destruct K as [-> | ->]; [by exists []|]. exists (owner_ops call rnd). split; [done|]. by apply Forall_forall.
Qed.

(** ** Every life is a history of the side *)

(** What the rows can hold: profiles that verify, encodable capabilities.  A
    peer's deltas are under no such check, so this is a condition on them. *)
Definition storable (e : Event) (n : System) : Prop := clean e /\ forall op, caused e n op -> op_ok op.

Lemma started_synced k st cache h : synced (started k st cache h).
Proof using. done. Qed.

Lemma run_calls_synced clock ops h :
  from_option wf_time True clock -> Forall op_ok ops -> Synced h -> Synced (run (calls clock ops) h).
Proof using.
  intros Hc Ho. apply synced_run. apply Forall_map. eapply Forall_impl; [exact Ho|]. by intros op Hop.
Qed.

Lemma clean_clock e : clean e -> from_option wf_time True (side_clock e).
Proof using. by destruct e; intros []. Qed.

Lemma step_storable e n :
  synced n -> Synced (state n) -> storable e n -> Synced (state (step e n).2).
Proof using.
  intros S Sy [Hc Ho]. destruct (step_history e n S Hc) as (ops & -> & Hops).
  apply run_calls_synced; [by apply clean_clock| |done]. eapply Forall_impl; [exact Hops|exact Ho].
Qed.

Lemma along_impl (P Q : Event -> System -> Prop) ms : forall n,
  (forall e n, P e n -> Q e n) -> along P ms n -> along Q ms n.
Proof using.
  intros n Hi. revert n. induction ms as [|[e|clock label cache] ms IH]; intros n; cbn [along]; [done| |].
  - intros [??]. split; auto.
  - auto.
Qed.

(** Splits [op ∈ owner_ops call rnd] into the operations of each call. *)
Ltac owner_cases H :=
  match type of H with _ ∈ owner_ops ?call _ => destruct call end; cbn [owner_ops] in H;
  repeat (apply elem_of_cons in H as [H|H]; [try discriminate H|]); try (by apply not_elem_of_nil in H).

(** The operations an event cannot cause. *)
Lemma caused_record e n d dial : ~ caused e n (ORecordAddr d dial).
Proof using.
  destruct e as [| | | | | | | | |call ? ? ? ?]; cbn [caused]; try (by intros (env & _ & [])).
  intros Hin. owner_cases Hin.
Qed.

Lemma caused_joins e n d by_ :
  caused e n (OAddCoHolder d by_) ->
  exists env req, taken e n = Some env /\ PairingRequest.from_wire_bytes (payload env) = Ok req /\
    PairingRequest.side req = public_bytes (Node.side (core n)) /\ PairingRequest.device_pubkey req = d.
Proof using.
  destruct e as [| | | | | | | | |call ? ? ? ?]; cbn [caused]; try (intros (env & Ht & req & ?); by exists env, req).
  intros Hin. owner_cases Hin.
Qed.

Lemma caused_lifecycle e n lc :
  caused e n (OSetLifecycle lc) ->
  lc = Lifecycle.Retired \/ exists listen clock io rnd, e = Owner (SetLifecycle lc) listen clock io rnd.
Proof using.
  destruct e as [| | | | | | | | |call ? ? ? ?]; cbn [caused]; try (by intros (env & _ & [])).
  intros Hin. owner_cases Hin; injection Hin as ->; [by left|right; by repeat eexists].
Qed.

(** A property of sides that the operations keep holds at the end of a life. *)
Lemma live_keeps (P : Side -> Prop) (Q : SideOp -> Prop) ms : forall n,
  (forall clock op h, Synced h -> Q op -> P (fst h) -> P (fst (SideFacts.step clock io_ok op h))) ->
  (forall lbl, Q (ORestart lbl)) ->
  synced n -> Synced (state n) -> along (fun e n => storable e n /\ forall op, caused e n op -> Q op) ms n ->
  P (fst (state n)) ->
  exists n', live ms n = Some n' /\ synced n' /\ Synced (state n') /\ P (fst (state n')).
Proof using.
  intros n HP HQ. revert n. induction ms as [|[e|clock label cache] ms IH]; intros n S Sy Ha Hn; cbn [live].
  - by exists n.
  - destruct Ha as [[Hs Hq] Ha]. apply IH; [by apply step_base|by apply step_storable|done|].
    destruct Hs as [Hc Ho]. destruct (step_history e n S Hc) as (ops & -> & Hops).
    apply (run_invariant P Q HP); [|by apply Forall_map, (Forall_impl _ _ _ Hops)|done|done].
    apply Forall_map. eapply Forall_impl; [exact Hops|]. intros op Hop. split_and!; [by apply clean_clock|done|by apply Ho].
  - pose proof (HP clock (ORestart label) (state n) Sy (HQ label) Hn) as Hn'.
    destruct (restart_durable clock label (state n) Sy) as (s' & E & Hd). cbn [SideFacts.step] in E, Hn'.
    cbn [along] in Ha. unfold restart in *.
    destruct (load_or_create clock io_ok (keypair (fst (state n))) label (snd (state n))) as [h|err] eqn:El.
    2: { by destruct (restart_ok clock label (fst (state n)) (snd (state n))) as (? & ? & _); [by destruct (state n)|congruence]. }
    cbn [mbind option_bind]. apply IH; [done| |by apply Ha|done].
    cbn [state started]. rewrite E. destruct (state n) as [s t]. by eapply synced_durable.
Qed.

End Lives.

(** ** Properties *)


(** C15: a revocation lasts.  A device that was revoked and dropped never
    becomes a co-holder or an address to push to again, whatever the peers, the
    owner and restarts do, unless it pairs anew: by a request for this side with
    a nonce the side has on offer. *)
Theorem node_revocation_lasts `{HashIter, Crypto, Ecies} d ms n
    (S : synced n) (Sy : Synced (state n)) (Ho : shut_out d (fst (state n)))
    (A : along (fun e n => storable e n /\
           forall env req, taken e n = Some env -> PairingRequest.from_wire_bytes (payload env) = Ok req ->
             PairingRequest.side req = public_bytes (Node.side (core n)) -> PairingRequest.device_pubkey req <> d) ms n) :
  exists n', live ms n = Some n' /\ shut_out d (fst (state n')).
Proof.
  destruct (live_keeps (shut_out d) (fun op => ~ lets_in d op) ms n) as (n' & E & _ & _ & Hd); try done; eauto.
  - intros clock op h. apply shut_out_step.
  - eapply along_impl; [|exact A]. intros e n0 [Hs Hj]. split; [done|]. intros op Hc Hl.
    destruct op as [| | | | | | | | |d' b| | | | |d' a| |]; try done; cbn in Hl; subst d'.
    + apply caused_joins in Hc as (env & req & Ht & Hr & Hside & Hdev). by apply (Hj env req).
    + by apply caused_record in Hc.
Qed.

(** C16: retirement is final.  A side whose retirement was published stays
    retired, whatever deltas, envelopes and restarts follow and whatever the
    owner calls, unless the owner sets its lifecycle by hand. *)
Theorem node_retirement_is_final `{HashIter, Crypto, Ecies} ms n
    (S : synced n) (Sy : Synced (state n)) (Ho : retired_for_good (fst (state n)))
    (A : along (fun e n => storable e n /\
           forall lc listen clock io rnd, e = Owner (SetLifecycle lc) listen clock io rnd -> lc = Lifecycle.Retired) ms n) :
  exists n', live ms n = Some n' /\ retired_for_good (fst (state n')).
Proof.
  destruct (live_keeps retired_for_good (fun op => forall lc, op = OSetLifecycle lc -> lc = Lifecycle.Retired) ms n)
    as (n' & E & _ & _ & Hr); try done; eauto.
  - intros clock op h. apply retired_step.
  - eapply along_impl; [|exact A]. intros e n0 [Hs Hl]. split; [done|]. intros op Hc lc ->.
    apply caused_lifecycle in Hc as [?|(listen & clock & io & rnd & ->)]; [done|]. by eapply Hl.
Qed.

(** ** Concrete instances *)

Module LifeExamples.
Import Toy ToyEcies ToyIter SessionExamples NodeExamples SideExamples SystemExamples.

Definition own_addr : bytes := public_bytes Toy.side2.
Definition lost_device : bytes := replicate 32 Byte.x44.

Definition at_home (call : OwnerCall) (t : N) : Event := Owner call "192.0.2.1:7777" (Some t) io_ok SessionExamples.n1.

(** The owner revokes a device and retires the side. *)
Definition leaving : list Event :=
  [at_home (RevokeCoHolder own_addr lost_device None) now0; at_home (PublishRetirement None) now0].
Definition retired_node : System := steps leaving connected_node.

(** Another device of the side, which does not know yet, says it is active. *)
Definition stale : bytes :=
  match Delta.sign Toy.side2 [LifecycleChanged "Active"; CoHolderAdded lost_device "192.0.2.9:1"] now0 with
  | Ok d => Delta.to_wire_bytes d
  | Err _ => []
  end.
Definition stale_arrives : Event := Stream 1%nat (arrival (now0 + 1) (frame (env DirectServer.MT_STATE_DELTA stale)) true).

Definition afterlife : list Moment :=
  [Does stale_arrives; Does (at_home RefreshLifecycle (now0 + 2)); Restarts (Some (now0 + 3)) None Replay.new;
   Does (at_home (SendDm (session Intent.Direct) (as_bytes "still here") (NOk tt)) (now0 + 4))].

Lemma own_side_synced : Synced own_side.
Proof.
  destruct (synced_fresh (Some 5) Toy.side2 (Some "home") empty_tables eq_refl (no_rows_empty _)) as (h & E & _ & Sy).
  unfold own_side. rewrite E. by apply (synced_step (Some now0) (OAddPending SessionExamples.n1)).
Qed.

Lemma connected_side : state connected_node = own_side.
Proof. vm_compute. reflexivity. Qed.

Lemma retired_reached : synced retired_node /\ shut_out lost_device (fst (state retired_node)) /\
  retired_for_good (fst (state retired_node)).
Proof.
  split; [vm_compute; reflexivity|]. split; [|split; vm_compute; reflexivity].
  split; [|split; vm_compute; reflexivity]. refine (bool_decide_eq_true_1 (lost_device ∈ revoked_devices _) _). vm_compute. reflexivity.
Qed.

Lemma at_home_storable call t n :
  from_option wf_time True (Some t) -> Forall op_ok (owner_ops call SessionExamples.n1) -> storable (at_home call t) n.
Proof. intros Ht Ho. split; [done|]. intros op Hop. by eapply Forall_forall in Ho. Qed.

Lemma retired_synced : Synced (state retired_node).
Proof.
  unfold retired_node. cbn [leaving steps].
  apply step_storable; [apply step_base, connected_synced| |apply at_home_storable; [done|by repeat constructor]].
  apply step_storable; [apply connected_synced| |apply at_home_storable; [done|by repeat constructor]].
  rewrite connected_side. apply own_side_synced.
Qed.

Example it_stays_retired :
  (fun n => (lifecycle (fst (state n)), bool_decide (lost_device ∈ dom (co_holders (fst (state n)))))) <$> live afterlife retired_node
  = Some (Lifecycle.Retired, false).
Proof. vm_compute. reflexivity. Qed.

Definition stale_env : Envelope := env DirectServer.MT_STATE_DELTA stale.

Lemma stale_taken : taken stale_arrives retired_node = Some stale_env.
Proof. vm_compute. reflexivity. Qed.

Lemma stale_admitted : let_in stale_arrives retired_node = true.
Proof. vm_compute. reflexivity. Qed.

Lemma stale_ops d :
  Delta.from_wire_bytes stale = Ok d -> Delta.ops d = [LifecycleChanged "Active"; CoHolderAdded lost_device "192.0.2.9:1"].
Proof. intros E. vm_compute in E. injection E as <-. reflexivity. Qed.

Lemma stale_storable : storable stale_arrives retired_node.
Proof.
  split; [by split|]. intros op (e & Ht & Hop). rewrite stale_taken in Ht. injection Ht as <-.
  destruct op as [| | | | | | | | | | | | | | |op at_|]; try exact I; try (by destruct Hop).
  destruct Hop as (d & E & _ & Hin & _). rewrite (stale_ops d E) in Hin.
  repeat (apply elem_of_cons in Hin as [->|Hin]; [exact I|]). destruct (not_elem_of_nil _ Hin).
Qed.

Definition ordinary (call : OwnerCall) : bool :=
  match call with RefreshLifecycle | SendDm _ _ _ => true | _ => false end.

Lemma ordinary_storable call t n :
  from_option wf_time True (Some t) -> ordinary call = true -> storable (at_home call t) n.
Proof. intros Ht Hc. apply at_home_storable; [done|]. by destruct call; try discriminate Hc; repeat constructor. Qed.

(** What is to be shown of the afterlife. *)
Lemma afterlife_along (P : Event -> System -> Prop) :
  P stale_arrives retired_node ->
  (forall call t n, from_option wf_time True (Some t) -> ordinary call = true -> P (at_home call t) n) ->
  along P afterlife retired_node.
Proof.
  intros H1 H2. split; [exact H1|]. split; [exact (H2 RefreshLifecycle (now0 + 2) _ eq_refl eq_refl)|].
  intros n' _. split; [|exact I].
  exact (H2 (SendDm (session Intent.Direct) (as_bytes "still here") (NOk tt)) (now0 + 4) n' eq_refl eq_refl).
Qed.

Lemma afterlife_storable : along storable afterlife retired_node.
Proof. apply afterlife_along; [exact stale_storable|exact ordinary_storable]. Qed.


Lemma stale_no_request req : PairingRequest.from_wire_bytes stale <> Ok req.
Proof. vm_compute. discriminate. Qed.

Lemma node_revocation_lasts_witness :
  exists n', live afterlife retired_node = Some n' /\ shut_out lost_device (fst (state n')).
Proof.
  apply (node_revocation_lasts lost_device afterlife retired_node (proj1 retired_reached) retired_synced
    (proj1 (proj2 retired_reached))).
  apply afterlife_along.
  - split; [exact stale_storable|]. intros e req Ht E. rewrite stale_taken in Ht. injection Ht as <-.
    destruct (stale_no_request _ E).
  - intros call t n Ht Hc. split; [by apply ordinary_storable|]. intros e req [=].
Defined.

Lemma node_retirement_is_final_witness :
  exists n', live afterlife retired_node = Some n' /\ retired_for_good (fst (state n')).
Proof.
  apply (node_retirement_is_final afterlife retired_node (proj1 retired_reached) retired_synced
    (proj2 (proj2 retired_reached))).
  apply afterlife_along.
  - split; [exact stale_storable|]. discriminate.
  - intros call t n Ht Hc. split; [by apply ordinary_storable|]. intros lc listen clock io rnd [= -> _ _ _ _].
    discriminate Hc.
Defined.

End LifeExamples.
