(* ===== verification/Telemetry.v ===== *)
(** The adoption events ([sidevers-net/src/telemetry.rs]): which steps of a
    node fire one, the channel to the background shipper, and the request the
    shipper writes.

    The environment variable, the build profile and the outcome of a delivery
    are given; the three timeouts of a delivery only bound its time. *)

From Stdlib Require Import Ascii.
From stdpp Require Import pretty.
From S2P Require Import Prelude Keys Envelope Payload Replay Containers SideState VerseHost Transport System Lives.
Import Prometheus.

Open Scope N_scope.

(** ** The channel *)

Definition DEFAULT_ENDPOINT : string := "http://stats.sidevers.com/v1/event".
Definition VERSION : string := "0.1.3".
Definition CHANNEL_CAPACITY : nat := 16.

(** [TX]: not initialized; disabled; or the events that wait for the shipper. *)
Inductive Slot := Uninit | Disabled | Enabled (endpoint : string) (waiting : list string).

(** [debug]: [cfg!(debug_assertions)]; [env]: the variable, if it is set. *)
Definition init (debug : bool) (env : option string) (tx : Slot) : Slot :=
  match tx with
  | Uninit =>
    if debug then Disabled
    else let endpoint := default DEFAULT_ENDPOINT env in
         if String.eqb endpoint "" then Disabled else Enabled endpoint []
  | _ => tx
  end.

(** [try_send]: a full channel drops the event. *)
Definition fire (event : string) (tx : Slot) : Slot :=
  match tx with
  | Enabled endpoint waiting =>
    if (length waiting <? CHANNEL_CAPACITY)%nat then Enabled endpoint (waiting ++ [event]) else tx
  | _ => tx
  end.

(** ** Endpoints *)

Fixpoint strip_prefix (p s : string) : option string :=
  match p, s with
  | EmptyString, _ => Some s
  | String a p, String b s => if Ascii.eqb a b then strip_prefix p s else None
  | String _ _, EmptyString => None
  end.

Fixpoint split_once (c : Ascii.ascii) (s : string) : option (string * string) :=
  match s with
  | EmptyString => None
  | String x s => if Ascii.eqb x c then Some (EmptyString, s)
                  else '(a, b) ← split_once c s; Some (String x a, b)
  end.

Fixpoint rsplit_once (c : Ascii.ascii) (s : string) : option (string * string) :=
  match s with
  | EmptyString => None
  | String x s =>
    match rsplit_once c s with
    | Some (a, b) => Some (String x a, b)
    | None => if Ascii.eqb x c then Some (EmptyString, s) else None
    end
  end.

(** [str::parse::<u16>]: decimal digits after an optional plus sign. *)
Fixpoint digits (acc : N) (s : string) : option N :=
  match s with
  | EmptyString => Some acc
  | String x s =>
    let d := Ascii.N_of_ascii x in
    if (48 <=? d) && (d <=? 57) then
      let acc := acc * 10 + (d - 48) in
      if acc <=? u16_max then digits acc s else None
    else None
  end.

Definition parse_u16 (s : string) : option N :=
  match s with
  | EmptyString => None
  | String x rest => if Ascii.eqb x "+"%char then if String.eqb rest "" then None else digits 0 rest else digits 0 s
  end.

Record ParsedEndpoint := { host : string; port : N; path : string }.

Definition parse (url : string) : option ParsedEndpoint :=
  let rest := default url (strip_prefix "http://" url) in
  let rest := default rest (strip_prefix "https://" rest) in
  let '(authority, path_part) := default (rest, "") (split_once "/"%char rest) in
  if String.eqb authority "" then None
  else
    '(host, port) ← match rsplit_once ":"%char authority with
                    | Some (h, p) => port ← parse_u16 p; Some (h, port)
                    | None => Some (authority, 80)
                    end;
    Some {| host := host; port := port; path := if String.eqb path_part "" then "/" else "/" +:+ path_part |}.

(** ** The request *)

Definition quote : string := String (Ascii.ascii_of_nat 34) EmptyString.
Definition crlf : string := cr +:+ nl.

Definition body (channel event : string) : string :=
  let field name value := quote +:+ name +:+ quote +:+ ":" +:+ quote +:+ value +:+ quote in
  "{" +:+ field "event" event +:+ "," +:+ field "version" VERSION +:+ "," +:+ field "channel" channel +:+ "}".

Definition request (ep : ParsedEndpoint) (channel event : string) : string :=
  let b := body channel event in
  "POST " +:+ path ep +:+ " HTTP/1.1" +:+ crlf
  +:+ "Host: " +:+ host ep +:+ crlf
  +:+ "User-Agent: sidevers" +:+ crlf
  +:+ "Content-Type: application/json" +:+ crlf
  +:+ "Content-Length: " +:+ pretty (N.of_nat (String.length b)) +:+ crlf
  +:+ "Connection: close" +:+ crlf +:+ crlf +:+ b.

(** One round of [shipper]: the bytes it writes, to which address.  An endpoint
    that does not parse ends it, and closes the channel. *)
Definition shipper (tx : Slot) : option (string * N * string) * Slot :=
  match tx with
  | Enabled endpoint waiting =>
    match parse endpoint, waiting with
    | None, _ => (None, Disabled)
    | Some _, [] => (None, tx)
    | Some ep, event :: waiting => (Some (host ep, port ep, request ep "stable" event), Enabled endpoint waiting)
    end
  | _ => (None, tx)
  end.

(** ** What fires *)

Section Fires.
Context `{HashIter, Crypto, Ecies}.

(** In [Node::host_verse]: the verse was not hosted. *)
Definition fires (e : Event) (n : System) : list string :=
  match e with
  | HostVerse key c ck =>
    match hosted_verses (hosts_of n) !! verse_addr (VerseHost.new key c ck) with
    | None => ["verse_created"]
    | Some _ => []
    end
  | _ => []
  end.

(** A verse that is hosted again after a restart counts as created again. *)
Theorem verse_created_again clock label cache n n' key c ck :
  restart clock label cache n = Some n' -> fires (HostVerse key c ck) n' = ["verse_created"].
Proof using.
  unfold restart. destruct (load_or_create _ _ _ _ _) as [h|e]; [|done]. by intros [= <-].
Qed.

(** Hosting it twice in one life does not. *)
Theorem verse_created_once key c ck c' ck' n :
  verse_addr (VerseHost.new key c ck) = verse_addr (VerseHost.new key c' ck') ->
  fires (HostVerse key c' ck') (step (HostVerse key c ck) n).2 = [].
Proof using.
  intros E. cbn [fires step on_verses snd hosts_of with_hosts_of host_verse hosted_verses].
  by rewrite <-E, lookup_insert_eq.
Qed.

End Fires.

(** ** Facts *)

Inductive op := Init (debug : bool) (env : option string) | Fire (event : string) | Ship.

Definition act (o : op) (tx : Slot) : list (string * N * string) * Slot :=
  match o with
  | Init debug env => ([], init debug env tx)
  | Fire event => ([], fire event tx)
  | Ship => let '(out, tx) := shipper tx in (option_list out, tx)
  end.

Fixpoint acts (os : list op) (tx : Slot) : list (string * N * string) * Slot :=
  match os with
  | [] => ([], tx)
  | o :: os => let '(out, tx) := act o tx in let '(out', tx) := acts os tx in (out ++ out', tx)
  end.

Definition waiting_in (tx : Slot) : list string := match tx with Enabled _ w => w | _ => [] end.

Lemma act_bounded o tx :
  (length (waiting_in tx) <= CHANNEL_CAPACITY)%nat -> (length (waiting_in (act o tx).2) <= CHANNEL_CAPACITY)%nat.
Proof.
  intros Hl. destruct o as [debug env|event|]; cbn [act].
  - destruct tx; cbn; try done. destruct debug; [cbn; lia|]. destruct (String.eqb _ _); cbn; lia.
  - destruct tx as [| |ep w]; cbn [snd fire]; try done. destruct (Nat.ltb_spec (length w) CHANNEL_CAPACITY); [|done].
    cbn [waiting_in]. rewrite length_app. cbn. lia.
  - destruct tx as [| |ep w]; cbn [shipper]; try done. destruct (parse ep); [|cbn; lia]. destruct w; cbn in *; lia.
Qed.

(** However events are fired, at most sixteen wait. *)
Theorem telemetry_bounded os :
  (length (waiting_in (acts os Uninit).2) <= CHANNEL_CAPACITY)%nat.
Proof.
  assert (forall tx, (length (waiting_in tx) <= CHANNEL_CAPACITY)%nat ->
    (length (waiting_in (acts os tx).2) <= CHANNEL_CAPACITY)%nat) as K; [|apply K; cbn; lia].
  induction os as [|o os IH]; intros tx Hl; [done|]. cbn [acts]. pose proof (act_bounded o tx Hl) as Hl'.
  destruct (act o tx) as [out tx']. specialize (IH tx' Hl'). by destruct (acts os tx').
Qed.

(** A debug build ships none. *)
Theorem debug_ships_nothing os env : (acts (Init true env :: os) Uninit).1 = [].
Proof.
  cbn. assert (forall os, acts os Disabled = ([], Disabled)) as K; [|by rewrite K].
  clear. induction os as [|o os IH]; [done|]. by destruct o; cbn; rewrite IH.
Qed.

(** Both schemes lead to the same plain connection. *)
Theorem https_is_plain s :
  strip_prefix "https://" s = None -> parse ("https://" +:+ s) = parse ("http://" +:+ s).
Proof.
  intros Hs. unfold parse. change (strip_prefix "http://" ("https://" +:+ s)) with (@None string).
  change (strip_prefix "http://" ("http://" +:+ s)) with (Some s). cbn [default]. unfold id.
  change (strip_prefix "https://" ("https://" +:+ s)) with (Some s). rewrite Hs. done.
Qed.

Example default_endpoint :
  parse DEFAULT_ENDPOINT = Some {| host := "stats.sidevers.com"; port := 80; path := "/v1/event" |}.
Proof. vm_compute. reflexivity. Qed.

Example explicit_port : parse "http://127.0.0.1:9999/x" = Some {| host := "127.0.0.1"; port := 9999; path := "/x" |}.
Proof. vm_compute. reflexivity. Qed.

Example port_too_large : parse "http://localhost:65536" = None.
Proof. vm_compute. reflexivity. Qed.
