(* ===== verification/TextMessage.v ===== *)
(** A sealed text message: what every front end of the library sends (the C
    interface, the command line, the JNI bridge), and what each of them reads
    back from it. *)

From S2P Require Import Prelude Utf8 Cbor CborCodec Keys Envelope Payload Direct NodeFacts DirectServer.

Open Scope N_scope.

Definition text_message (s : string) : DirectMessage.t :=
  {| DirectMessage.kind := DirectKind.Text; DirectMessage.body := DirectMessage.Text s;
     DirectMessage.reply_to := None; DirectMessage.thread := None |}.

(** A text that fits a message: Rust's strings are UTF-8 and at most
    [isize::MAX] bytes long. *)
Definition isize_max : N := 2 ^ 63 - 1.
Definition sendable (s : string) : Prop := utf8_valid (as_bytes s) = true /\ blen (as_bytes s) <= isize_max.

Lemma text_message_read s :
  sendable s -> DirectMessage.decode (DirectMessage.encode (text_message s)) = Ok (text_message s).
Proof.
  intros [Hu Hl]. unfold isize_max in Hl.
  apply (decode_exact DirectMessage.encode DirectMessage.fields DirectMessage.wf); [apply _|..].
  - unfold DirectMessage.encode, DirectMessage.entries. flatten. rewrite !blen_app.
    cbn [DirectMessage.body text_message DirectMessage.body_value DirectMessage.thread DirectMessage.reply_to or_null].
    rewrite (text_eq s), blen_app. pose proof (head_bytes_le 3 (blen (as_bytes s))).
    repeat match goal with |- context [blen (Cbor.key ?t)] => eval_blen (Cbor.key t)
      | |- context [blen (text ?t)] => eval_blen (text t) end.
    eval_blen (head_bytes 5 (N.of_nat 4)). eval_blen null. unfold u64_size in *. lia.
  - split; [|done]. unfold DirectMessage.wf, DirectMessage.wf_body, DirectMessage.wf_kind, wf_text, u64_size. cbn.
    split_and!; try done. lia.
Qed.

(** An envelope that parses is well-formed. *)
Lemma parsed_wf `{Crypto} bs e : blen bs < u64_size -> from_wire_bytes bs = Ok e -> wf_envelope e.
Proof.
  intros Hb (e' & [Hwf _]%parse_envelope_ok & Hk)%result_bind_ok; [|done].
  apply result_bind_ok in Hk as (u & _ & Hk). apply result_bind_ok in Hk as (u2 & _ & Hk).
  by apply result_bind_ok in Hk as (u3 & _ & [= <-]).
Qed.

Section Sealed.
Context `{Crypto, Ecies}.

(** [wire] is a message from the side of [seed] to [recipient]; the labels the
    front ends give the side do not matter. *)
Definition sealed_text (seed recipient : bytes) (s : string) (wire : bytes) : Prop :=
  exists nonce ts ct e,
    blen nonce = NONCE_LEN /\ ts < u64_size /\
    Payload.seal (DirectMessage.encode (text_message s)) (side_from_seed seed "") recipient nonce [] = Ok ct /\
    sign_with MT_DIRECT_MESSAGE (side_from_seed seed "") (Some recipient) ct ts nonce = Ok e /\
    wire = to_wire_bytes e.

(** [e] is such a message, as its recipient sees it. *)
Record carries (seed rseed : bytes) (s : string) (wire : bytes) (e : Envelope) : Prop := {
  ca_parsed : from_wire_bytes wire = Ok e;
  ca_type : message_type e = MT_DIRECT_MESSAGE;
  ca_from : from e = ed_public seed;
  ca_to : Envelope.to e = Some (ed_public rseed);
  ca_opens : forall l,
    Payload.open (payload e) (side_from_seed rseed l) (ed_public seed) (Envelope.nonce e) [] =
    Ok (DirectMessage.encode (text_message s));
  ca_read : DirectMessage.decode (DirectMessage.encode (text_message s)) = Ok (text_message s)
}.

Lemma sealed_text_carried `{!CryptoLaws, !EciesLaws} seed rseed s wire :
  sealed_text seed (ed_public rseed) s wire -> sendable s -> blen wire < u64_size ->
  exists e, carries seed rseed s wire e.
Proof using All.
  intros (nonce & ts & ct & e & Hn & Hts & Hct & He & ->) Hs Hl. exists e.
  pose proof He as (F1 & F2 & F3 & F4)%sign_with_fields. split; [| done | done | | | by apply text_message_read].
  - eapply sign_with_roundtrip; [..|exact He|done]; try done. apply ed_public_length.
  - by injection He as <-.
  - intros l. rewrite F3, F4. by apply (opens_sealed _ (side_from_seed seed "") (side_from_seed rseed l)).
Qed.

End Sealed.
