(* ===== verification/Ffi.v ===== *)
(** The C interface ([sidevers-ffi/src]): every exported function, on an
    explicit memory.

    The memory is what the C caller and the library share: cells at block
    numbers, each holding bytes or one scalar of the type the C signature
    gives it, and the set of blocks Rust's allocator handed out.  Reading or
    writing what is not there is undefined behaviour, [Ub]: the theorems say
    when it cannot happen.  Pointers into the middle of a block are not
    modelled, nor are the copies of seeds that are wiped.  [describe] is the
    text of a core error.  A panic, which [catch_unwind] turns into a status,
    occurs where a modelled function of the core has one. *)

From stdpp Require Import pretty.
From S2P Require Import Prelude Utf8 Cbor Keys Envelope Payload Direct Records PublicLayer Qr Address DirectServer.

Open Scope N_scope.

(** ** Status codes ([error.rs]) *)

Module SvStatus.

Inductive t := Okay | NullPtr | InvalidInput | CryptoFailed | Decode | Internal | CsprngUnavailable | Panic.

#[export] Instance eq_dec : EqDecision t.
Proof. solve_decision. Defined.

Definition code (s : t) : Z :=
  match s with
  | Okay => 0 | NullPtr => -1 | InvalidInput => -2 | CryptoFailed => -3 | Decode => -4 | Internal => -5
  | CsprngUnavailable => -6 | Panic => -7
  end.

(** The match of [status_from]. *)
Definition of_error (e : Error.t) : t :=
  match e with
  | Error.SignatureInvalid | Error.DecryptionFailed => CryptoFailed
  | Error.CborEncode _ | Error.CborDecode _ | Error.CborNotCanonical _ => Decode
  | Error.Address _ => Decode
  | Error.CsprngUnavailable _ => CsprngUnavailable
  | Error.BadFieldLength _ _ _ | Error.TimestampSkewed _ | Error.Replay | Error.UnsupportedVersion _
  | Error.UnknownType _ => InvalidInput
  | Error.Invariant _ => Internal
  end.

End SvStatus.

(** ** Memory *)

(** [Dangling] is the address of an allocation of no bytes. *)
Inductive Pointer := Null | Dangling | At (block : N).

#[export] Instance pointer_eq_dec : EqDecision Pointer.
Proof. solve_decision. Defined.

Inductive Cell :=
| CBytes (bs : bytes)
| CPtr (p : Pointer)
| CSize (n : N)                   (* usize, u64 *)
| CKind (k : AddressKind.t).

Record Memory := {
  cells : gmap N Cell;
  owned : gset N;                 (* the blocks the library allocated *)
  last_error : option string      (* the thread's LAST_ERROR *)
}.

Definition with_cells (x : gmap N Cell) (m : Memory) : Memory := Build_Memory x (owned m) (last_error m).
Definition with_error (x : option string) (m : Memory) : Memory := Build_Memory (cells m) (owned m) x.

(** A call runs on, returns a status, or is undefined. *)
Inductive outcome (A : Type) := Val (a : A) (m : Memory) | Ret (s : SvStatus.t) (m : Memory) | Ub.
Arguments Val {A} a m.
Arguments Ret {A} s m.
Arguments Ub {A}.

Definition F (A : Type) : Type := Memory -> outcome A.

#[export] Instance f_ret : MRet F := fun _ a m => Val a m.
#[export] Instance f_bind : MBind F := fun _ _ k f m =>
  match f m with Val a m => k a m | Ret s m => Ret s m | Ub => Ub end.

(** [set_last_error(msg); return s]: a message with a NUL is replaced. *)
Definition has_nul (bs : bytes) : bool := existsb (fun b => Byte.to_N b =? 0) bs.
Definition set_last_error (msg : string) (m : Memory) : Memory :=
  with_error (Some (if has_nul (as_bytes msg) then "error message contained internal NUL" else msg)) m.
Definition clear_last_error : F unit := fun m => Val tt (with_error None m).
Definition leave {A} (s : SvStatus.t) (msg : string) : F A := fun m => Ret s (set_last_error msg m).

Definition is_null (p : Pointer) : bool := match p with Null => true | _ => false end.
Definition not_null (ps : list Pointer) (msg : string) : F unit :=
  if existsb is_null ps then leave SvStatus.NullPtr msg else mret tt.

(** [slice::from_raw_parts(p, n)], copied. *)
Definition read_bytes (p : Pointer) (n : N) : F bytes := fun m =>
  match p with
  | Null => Ub
  | Dangling => if n =? 0 then Val [] m else Ub
  | At b =>
    match cells m !! b with
    | Some (CBytes bs) => if n <=? blen bs then Val (take (N.to_nat n) bs) m else Ub
    | _ => Ub
    end
  end.

(** [copy_nonoverlapping] to, and [ptr::write] at, an output pointer. *)
Definition write_bytes (p : Pointer) (bs : bytes) : F unit := fun m =>
  match p with
  | At b =>
    match cells m !! b with
    | Some (CBytes old) =>
      if blen bs <=? blen old then Val tt (with_cells (<[b := CBytes (bs ++ drop (length bs) old)]> (cells m)) m)
      else Ub
    | _ => Ub
    end
  | _ => Ub
  end.

Definition same_type (c c' : Cell) : bool :=
  match c, c' with CPtr _, CPtr _ | CSize _, CSize _ | CKind _, CKind _ => true | _, _ => false end.

Definition write (p : Pointer) (c : Cell) : F unit := fun m =>
  match p with
  | At b =>
    match cells m !! b with
    | Some old => if same_type old c then Val tt (with_cells (<[b := c]> (cells m)) m) else Ub
    | None => Ub
    end
  | _ => Ub
  end.

(** ** [mem.rs] *)

Definition FFI_CSTR_MAX_LEN : nat := 4096.

(** The bytes before the first NUL among the first [cap], if there is one. *)
Fixpoint scan (cap : nat) (bs : bytes) : option (option bytes) :=
  match cap, bs with
  | O, _ => Some None
  | S _, [] => None
  | S cap, b :: bs =>
    if Byte.to_N b =? 0 then Some (Some [])
    else r ← scan cap bs; Some (option_map (cons b) r)
  end.

(** [cstr_with_cap]; undefined where the scan leaves the block. *)
Definition cstr_with_cap (p : Pointer) : F (option bytes) := fun m =>
  match p with
  | Null => Val None m
  | Dangling => Ub
  | At b =>
    match cells m !! b with
    | Some (CBytes bs) => match scan FFI_CSTR_MAX_LEN bs with Some r => Val r m | None => Ub end
    | _ => Ub
    end
  end.

Definition allocate (bs : bytes) : F Pointer := fun m =>
  let b := fresh (dom (cells m) ∪ owned m) in
  Val (At b) {| cells := <[b := CBytes bs]> (cells m); owned := {[ b ]} ∪ owned m; last_error := last_error m |}.

(** An empty box is not allocated. *)
Definition vec_to_ffi (v : bytes) : F (Pointer * N) :=
  match v with
  | [] => mret (Dangling, 0)
  | _ => p ← allocate v; mret (p, blen v)
  end.

Definition string_to_ffi (s : string) : F Pointer :=
  if has_nul (as_bytes s) then mret Null else allocate (as_bytes s ++ [Byte.x00]).

(** [Box::from_raw] and [CString::from_raw], dropped. *)
Definition release (b : N) : F unit := fun m =>
  if bool_decide (b ∈ owned m)
  then Val tt {| cells := delete b (cells m); owned := owned m ∖ {[ b ]}; last_error := last_error m |}
  else Ub.

Definition sv_free_buffer (p : Pointer) (len : N) : F unit :=
  match p with
  | Null => mret tt
  | Dangling => if len =? 0 then mret tt else fun _ => Ub
  | At b =>
    if len =? 0 then mret tt
    else fun m =>
      match cells m !! b with
      | Some (CBytes bs) => if blen bs =? len then release b m else Ub
      | _ => Ub
      end
  end.

Definition sv_free_string (p : Pointer) : F unit :=
  match p with Null => mret tt | Dangling => fun _ => Ub | At b => release b end.

(** [sv_last_error_message]: a fresh copy, or null. *)
Definition sv_last_error_message : F Pointer := fun m =>
  match last_error m with
  | None => Val Null m
  | Some msg => allocate (as_bytes msg ++ [Byte.x00]) m
  end.

(** The status a call returns, and the memory after it. *)
Definition status (f : F unit) (m : Memory) : option (SvStatus.t * Memory) :=
  match f m with Val _ m => Some (SvStatus.Okay, m) | Ret s m => Some (s, m) | Ub => None end.

(** A C string as text. *)
Definition text_of (bs : bytes) (msg : string) : F string :=
  match from_utf8 bs with Some s => mret s | None => leave SvStatus.InvalidInput msg end.

Definition cstr_text (p : Pointer) (too_long not_utf8 : string) : F string :=
  r ← cstr_with_cap p;
  match r with
  | None => leave SvStatus.InvalidInput too_long
  | Some bs => text_of bs not_utf8
  end.

(** ** The exported functions

    What a function draws from the system is an argument: the seed or nonce
    the random source gave, or its error, and the clock. *)

Section Functions.
Context `{Crypto, Ecies, Bech32} (describe : Error.t -> string).

(** [status_from], and the early return where there is no value. *)
Definition from_core {A} (r : result A) : F A := fun m =>
  match r with
  | Ok v => Val v (with_error None m)
  | Err e => Ret (SvStatus.of_error e) (set_last_error (describe e) m)
  end.

(** [Err(e) => return status_from(Err(e))]: a value leaves the last error alone. *)
Definition or_status {A} (r : result A) : F A := fun m =>
  match r with
  | Ok v => Val v m
  | Err e => Ret (SvStatus.of_error e) (set_last_error (describe e) m)
  end.

(** [keys.rs] *)
Definition sv_keygen_master (generated : result bytes) (out_seed : Pointer) : F unit :=
  _ ← not_null [out_seed] "sv_keygen_master: out_seed_32 is null";
  match generated with
  | Ok seed => write_bytes out_seed seed
  | Err e => or_status (Err e)
  end.

Definition sv_derive_side (master_seed label out_side_seed : Pointer) : F unit :=
  _ ← not_null [master_seed; label; out_side_seed] "sv_derive_side: null pointer argument";
  seed ← read_bytes master_seed SECRET_KEY_LEN;
  label ← cstr_text label "sv_derive_side: label not NUL-terminated within length cap"
            "sv_derive_side: label is not valid UTF-8";
  side ← from_core (Ok (derive_side {| master_seed := seed |} label));
  write_bytes out_side_seed (signing side).

Definition sv_pubkey_from_seed (seed out_pubkey : Pointer) : F unit :=
  _ ← not_null [seed; out_pubkey] "sv_pubkey_from_seed: null pointer argument";
  seed ← read_bytes seed SECRET_KEY_LEN;
  write_bytes out_pubkey (public_bytes (side_from_seed seed "(ffi)")).

(** [address.rs]; the result is the pointer, null on an error. *)
Definition sv_address_encode (pubkey : Pointer) (kind : AddressKind.t) : F Pointer :=
  if is_null pubkey then fun m => Val Null (set_last_error "sv_address_encode: pubkey_32 is null" m)
  else
    key ← read_bytes pubkey PUBLIC_KEY_LEN;
    match encode (Address.new kind key) with
    | Some s => string_to_ffi s
    | None => fun m => Val Null (set_last_error "sv_address_encode: panicked at FFI boundary" m)
    end.

Definition sv_address_decode (addr out_pubkey out_kind : Pointer) : F unit :=
  _ ← not_null [addr; out_pubkey; out_kind] "sv_address_decode: null pointer argument";
  s ← cstr_text addr "sv_address_decode: address not NUL-terminated within length cap"
        "sv_address_decode: address is not valid UTF-8";
  parsed ← from_core (Address.parse s);
  _ ← write_bytes out_pubkey (Address.key parsed);
  write out_kind (CKind (Address.kind parsed)).

(** [dm.rs] *)
Definition sv_dm_seal_text (sender_seed recipient_pubkey text_utf8 : Pointer) (text_len : N)
    (out_wire_ptr out_wire_len : Pointer) (nonce : result bytes) (clock : result N) : F unit :=
  _ ← not_null [sender_seed; recipient_pubkey; text_utf8; out_wire_ptr; out_wire_len]
        "sv_dm_seal_text: null pointer argument";
  seed ← read_bytes sender_seed SECRET_KEY_LEN;
  let side := side_from_seed seed "(ffi-dm-send)" in
  recipient ← read_bytes recipient_pubkey PUBLIC_KEY_LEN;
  text_bytes ← read_bytes text_utf8 text_len;
  txt ← text_of text_bytes "sv_dm_seal_text: text is not valid UTF-8";
  let inner_payload := DirectMessage.encode
    {| DirectMessage.kind := DirectKind.Text; DirectMessage.body := DirectMessage.Text txt;
       DirectMessage.reply_to := None; DirectMessage.thread := None |} in
  wire ← from_core
    (nonce ← nonce;
     ts ← clock;
     ciphertext ← Payload.seal inner_payload side recipient nonce [];
     env ← sign_with MT_DIRECT_MESSAGE side (Some recipient) ciphertext ts nonce;
     Ok (to_wire_bytes env));
  '(ptr, len) ← vec_to_ffi wire;
  _ ← write out_wire_ptr (CPtr ptr);
  write out_wire_len (CSize len).

Definition sv_dm_open_text (recipient_seed wire_ptr : Pointer) (wire_len : N)
    (out_sender_pubkey out_text_ptr out_text_len : Pointer) : F unit :=
  _ ← not_null [recipient_seed; wire_ptr; out_sender_pubkey; out_text_ptr; out_text_len]
        "sv_dm_open_text: null pointer argument";
  seed ← read_bytes recipient_seed SECRET_KEY_LEN;
  let recipient_side := side_from_seed seed "(ffi-dm-recv)" in
  wire ← read_bytes wire_ptr wire_len;
  env ← or_status (from_wire_bytes wire);
  _ ← (if message_type env =? MT_DIRECT_MESSAGE then mret tt
       else leave SvStatus.InvalidInput "sv_dm_open_text: envelope is not a DirectMessage");
  _ ← (if bool_decide (to env = Some (public_bytes recipient_side)) then mret tt
       else leave SvStatus.InvalidInput "sv_dm_open_text: envelope is not addressed to this side");
  plain ← or_status (Payload.open (payload env) recipient_side (from env) (nonce env) []);
  p ← or_status (DirectMessage.decode plain);
  txt ← match DirectMessage.body p with
        | DirectMessage.Text s => mret (as_bytes s)
        | DirectMessage.ReferenceBytes _ =>
          leave SvStatus.InvalidInput "sv_dm_open_text: media DMs not supported in FFI yet"
        end;
  _ ← write_bytes out_sender_pubkey (from env);
  '(ptr, len) ← vec_to_ffi txt;
  _ ← write out_text_ptr (CPtr ptr);
  _ ← write out_text_len (CSize len);
  clear_last_error.

(** [linkage.rs]; [nonce] is drawn by [LinkageProof::sign]. *)
Definition sv_linkage_sign (side_a_seed side_b_seed : Pointer) (issued_at : N)
    (out_wire_ptr out_wire_len : Pointer) (nonce : result bytes) : F unit :=
  _ ← not_null [side_a_seed; side_b_seed; out_wire_ptr; out_wire_len] "sv_linkage_sign: null pointer argument";
  a ← read_bytes side_a_seed SECRET_KEY_LEN;
  b ← read_bytes side_b_seed SECRET_KEY_LEN;
  wire ← from_core
    (nonce ← nonce;
     p ← Linkage.sign_with (side_from_seed a "(ffi-linkage-a)") (side_from_seed b "(ffi-linkage-b)") issued_at nonce;
     Ok (Linkage.to_wire_bytes p));
  '(ptr, len) ← vec_to_ffi wire;
  _ ← write out_wire_ptr (CPtr ptr);
  write out_wire_len (CSize len).

Definition sv_linkage_verify (wire_ptr : Pointer) (wire_len : N) (out_side_a out_side_b out_issued_at : Pointer)
    : F unit :=
  _ ← not_null [wire_ptr; out_side_a; out_side_b; out_issued_at] "sv_linkage_verify: null pointer argument";
  wire ← read_bytes wire_ptr wire_len;
  p ← from_core (Linkage.from_wire_bytes wire);
  _ ← write_bytes out_side_a (Linkage.side_a p);
  _ ← write_bytes out_side_b (Linkage.side_b p);
  write out_issued_at (CSize (Linkage.issued_at p)).

(** [contact.rs] *)
Definition FFI_DIAL_ADDR_MAX : N := 256.
Definition FFI_DISPLAY_NAME_MAX : N := 512.
Definition FFI_SIDE_LABEL_MAX : N := 64.

Definition read_required_string (p : Pointer) (field : string) (max_len : N) : F string :=
  let msg s := "sv_contact_card_encode: " +:+ field +:+ s in
  r ← cstr_with_cap p;
  match r with
  | None => leave SvStatus.InvalidInput (msg " not NUL-terminated within length cap")
  | Some bs =>
    if max_len <? blen bs
    then leave SvStatus.InvalidInput (msg (" too long (" +:+ pretty (blen bs) +:+ " > " +:+ pretty max_len +:+ ")"))
    else text_of bs (msg " is not valid UTF-8")
  end.

Definition read_optional_string (p : Pointer) (field : string) (max_len : N) : F (option string) :=
  if is_null p then mret None else s ← read_required_string p field max_len; mret (Some s).

Definition sv_contact_card_encode (side dial_addr display_name side_label out_uri : Pointer) : F unit :=
  _ ← not_null [side; dial_addr; out_uri]
        "sv_contact_card_encode: null pointer argument (side_32, dial_addr, out_uri are required)";
  side ← read_bytes side 32;
  dial ← read_required_string dial_addr "dial_addr" FFI_DIAL_ADDR_MAX;
  _ ← (if String.eqb dial "" then leave SvStatus.InvalidInput "sv_contact_card_encode: dial_addr is empty"
       else mret tt);
  display ← read_optional_string display_name "display_name" FFI_DISPLAY_NAME_MAX;
  label ← read_optional_string side_label "side_label" FFI_SIDE_LABEL_MAX;
  let uri := ContactCard.encode
    {| ContactCard.side := side; ContactCard.dial_addr := dial; ContactCard.display_name := display;
       ContactCard.side_label := label |} in
  c_uri ← string_to_ffi uri;
  if is_null c_uri
  then leave SvStatus.Internal "sv_contact_card_encode: encoded URI contained interior NUL (invariant)"
  else
    _ ← write out_uri (CPtr c_uri);
    clear_last_error.

(** The strings a call returns, one after the other; when one holds a NUL the
    earlier ones are released.  [None] is an absent optional string. *)
Definition output_string (s : option string) (earlier : list Pointer) (msg : string) : F Pointer :=
  match s with
  | None => mret Null
  | Some s =>
    p ← string_to_ffi s;
    if is_null p then
      _ ← foldr (fun p f => _ ← sv_free_string p; f) (mret tt) earlier;
      leave SvStatus.Decode msg
    else mret p
  end.

Definition sv_contact_card_parse (uri out_side out_dial_addr out_display_name out_side_label : Pointer) : F unit :=
  _ ← not_null [uri; out_side; out_dial_addr; out_display_name; out_side_label]
        "sv_contact_card_parse: null pointer argument";
  uri ← cstr_text uri "sv_contact_card_parse: uri not NUL-terminated within length cap"
          "sv_contact_card_parse: uri is not valid UTF-8";
  card ← from_core (ContactCard.parse uri);
  dial ← output_string (Some (ContactCard.dial_addr card)) []
           "sv_contact_card_parse: dial_addr contained interior NUL";
  display ← output_string (ContactCard.display_name card) [dial]
              "sv_contact_card_parse: display_name contained interior NUL";
  label ← output_string (ContactCard.side_label card) [dial; display]
            "sv_contact_card_parse: side_label contained interior NUL";
  _ ← write_bytes out_side (ContactCard.side card);
  _ ← write out_dial_addr (CPtr dial);
  _ ← write out_display_name (CPtr display);
  write out_side_label (CPtr label).

(** [public.rs] *)
Definition sv_handle_attest_verify (wire_ptr : Pointer) (wire_len : N)
    (out_side out_handle_local out_domain out_issued_at : Pointer) : F unit :=
  _ ← not_null [wire_ptr; out_side; out_handle_local; out_domain; out_issued_at]
        "sv_handle_attest_verify: null pointer argument";
  wire ← read_bytes wire_ptr wire_len;
  p ← from_core (HandleAttest.from_wire_bytes wire);
  handle ← output_string (Some (HandleAttest.handle_local p)) []
             "sv_handle_attest_verify: handle_local contained interior NUL";
  domain ← output_string (Some (HandleAttest.domain p)) [handle]
             "sv_handle_attest_verify: domain contained interior NUL";
  _ ← write_bytes out_side (HandleAttest.side p);
  _ ← write out_handle_local (CPtr handle);
  _ ← write out_domain (CPtr domain);
  write out_issued_at (CSize (HandleAttest.issued_at p)).

Definition sv_page_publish_verify (wire_ptr : Pointer) (wire_len : N)
    (out_side out_slug out_mime out_content_ptr out_content_len out_published_at : Pointer) : F unit :=
  _ ← not_null [wire_ptr; out_side; out_slug; out_mime; out_content_ptr; out_content_len; out_published_at]
        "sv_page_publish_verify: null pointer argument";
  wire ← read_bytes wire_ptr wire_len;
  p ← from_core (PagePublish.from_wire_bytes wire);
  slug ← output_string (Some (PagePublish.slug p)) [] "sv_page_publish_verify: slug contained interior NUL";
  mime ← output_string (Some (PagePublish.mime p)) [slug] "sv_page_publish_verify: mime contained interior NUL";
  '(content, content_len) ← vec_to_ffi (PagePublish.content p);
  _ ← write_bytes out_side (PagePublish.side p);
  _ ← write out_slug (CPtr slug);
  _ ← write out_mime (CPtr mime);
  _ ← write out_content_ptr (CPtr content);
  _ ← write out_content_len (CSize content_len);
  _ ← write out_published_at (CSize (PagePublish.published_at p));
  clear_last_error.

Definition sv_verify_signature (pubkey msg_ptr : Pointer) (msg_len : N) (sig : Pointer) : F unit :=
  _ ← not_null [pubkey; sig] "sv_verify_signature: null pointer argument";
  _ ← (if is_null msg_ptr && negb (msg_len =? 0)
       then leave SvStatus.NullPtr "sv_verify_signature: null message pointer with non-zero length" else mret tt);
  pk ← read_bytes pubkey PUBLIC_KEY_LEN;
  pk ← match pk_from_bytes pk with
       | Ok pk => mret pk
       | Err e => leave SvStatus.Decode ("sv_verify_signature: " +:+ describe e)
       end;
  sig ← read_bytes sig SIGNATURE_LEN;
  msg ← (if msg_len =? 0 then mret [] else read_bytes msg_ptr msg_len);
  match pk_verify pk msg sig with
  | Ok _ => clear_last_error
  | Err e => leave SvStatus.CryptoFailed ("sv_verify_signature: " +:+ describe e)
  end.

Definition sv_blake3 (msg_ptr : Pointer) (msg_len : N) (out_hash : Pointer) : F unit :=
  _ ← not_null [out_hash] "sv_blake3: null output buffer";
  _ ← (if is_null msg_ptr && negb (msg_len =? 0)
       then leave SvStatus.NullPtr "sv_blake3: null message pointer with non-zero length" else mret tt);
  msg ← (if msg_len =? 0 then mret [] else read_bytes msg_ptr msg_len);
  _ ← write_bytes out_hash (blake3 msg);
  clear_last_error.

Definition sv_directory_entry_encode (side handle attestation_ptr : Pointer) (attestation_len : N)
    (out_wire_ptr out_wire_len : Pointer) : F unit :=
  _ ← not_null [side; handle; attestation_ptr; out_wire_ptr; out_wire_len]
        "sv_directory_entry_encode: null pointer argument";
  side ← read_bytes side PUBLIC_KEY_LEN;
  handle ← cstr_text handle "sv_directory_entry_encode: handle not NUL-terminated within length cap"
             "sv_directory_entry_encode: handle is not valid UTF-8";
  wire ← read_bytes attestation_ptr attestation_len;
  attest ← from_core (HandleAttest.from_wire_bytes wire);
  _ ← (if bool_decide (HandleAttest.side attest = side) && String.eqb (HandleAttest.display attest) handle then mret tt
       else leave SvStatus.InvalidInput
              "sv_directory_entry_encode: attestation does not match (side, handle) args");
  '(ptr, len) ← vec_to_ffi (DirectoryEntry.encode
     {| DirectoryEntry.side := side; DirectoryEntry.handle := handle; DirectoryEntry.attestations := [attest] |});
  _ ← write out_wire_ptr (CPtr ptr);
  _ ← write out_wire_len (CSize len);
  clear_last_error.

(** ** All the functions that return a status *)

Inductive Call :=
| KeygenMaster (generated : result bytes) (out_seed : Pointer)
| DeriveSide (master_seed label out_side_seed : Pointer)
| PubkeyFromSeed (seed out_pubkey : Pointer)
| AddressDecode (addr out_pubkey out_kind : Pointer)
| DmSealText (sender_seed recipient_pubkey text_utf8 : Pointer) (text_len : N) (out_wire_ptr out_wire_len : Pointer)
    (nonce : result bytes) (clock : result N)
| DmOpenText (recipient_seed wire_ptr : Pointer) (wire_len : N) (out_sender_pubkey out_text_ptr out_text_len : Pointer)
| LinkageSign (side_a_seed side_b_seed : Pointer) (issued_at : N) (out_wire_ptr out_wire_len : Pointer)
    (nonce : result bytes)
| LinkageVerify (wire_ptr : Pointer) (wire_len : N) (out_side_a out_side_b out_issued_at : Pointer)
| ContactCardEncode (side dial_addr display_name side_label out_uri : Pointer)
| ContactCardParse (uri out_side out_dial_addr out_display_name out_side_label : Pointer)
| HandleAttestVerify (wire_ptr : Pointer) (wire_len : N) (out_side out_handle_local out_domain out_issued_at : Pointer)
| PagePublishVerify (wire_ptr : Pointer) (wire_len : N)
    (out_side out_slug out_mime out_content_ptr out_content_len out_published_at : Pointer)
| VerifySignature (pubkey msg_ptr : Pointer) (msg_len : N) (sig : Pointer)
| Blake3 (msg_ptr : Pointer) (msg_len : N) (out_hash : Pointer)
| DirectoryEntryEncode (side handle attestation_ptr : Pointer) (attestation_len : N)
    (out_wire_ptr out_wire_len : Pointer).

Definition call (c : Call) : F unit :=
  match c with
  | KeygenMaster g o => sv_keygen_master g o
  | DeriveSide m l o => sv_derive_side m l o
  | PubkeyFromSeed s o => sv_pubkey_from_seed s o
  | AddressDecode a o k => sv_address_decode a o k
  | DmSealText s r t n op ol nonce clock => sv_dm_seal_text s r t n op ol nonce clock
  | DmOpenText s w n os op ol => sv_dm_open_text s w n os op ol
  | LinkageSign a b t op ol nonce => sv_linkage_sign a b t op ol nonce
  | LinkageVerify w n oa ob ot => sv_linkage_verify w n oa ob ot
  | ContactCardEncode s d n l o => sv_contact_card_encode s d n l o
  | ContactCardParse u os od on ol => sv_contact_card_parse u os od on ol
  | HandleAttestVerify w n os oh od ot => sv_handle_attest_verify w n os oh od ot
  | PagePublishVerify w n os osl om oc ocl ot => sv_page_publish_verify w n os osl om oc ocl ot
  | VerifySignature p m n s => sv_verify_signature p m n s
  | Blake3 m n o => sv_blake3 m n o
  | DirectoryEntryEncode s h a n op ol => sv_directory_entry_encode s h a n op ol
  end.

End Functions.
