(* ===== verification/FfiFacts.v ===== *)
(** Theorems about the C interface: a call that fails leaves the memory as it
    was, nothing leaks, a call within its contract is defined, and what one
    call writes another reads. *)

From S2P Require Import Prelude Utf8 Cbor CborCodec Keys Envelope Payload Direct Records PublicLayer Qr Address NodeFacts DirectServer TextMessage Ffi.

Open Scope N_scope.

(** ** Calls that fail *)

Definition same_heap (m m' : Memory) : Prop := cells m' = cells m /\ owned m' = owned m.

#[export] Instance same_heap_preorder : PreOrder same_heap.
Proof. split; [done|]. intros m1 m2 m3 [] []. split; congruence. Qed.

Lemma bind_val {A B} (f : F A) (k : A -> F B) m a m' : f m = Val a m' -> (f ≫= k) m = k a m'.
Proof. unfold mbind, f_bind. by intros ->. Qed.
Lemma bind_ret {A B} (f : F A) (k : A -> F B) m s m' : f m = Ret s m' -> (f ≫= k) m = Ret s m'.
Proof. unfold mbind, f_bind. by intros ->. Qed.
Lemma bind_ub {A B} (f : F A) (k : A -> F B) m : f m = Ub -> (f ≫= k) m = Ub.
Proof. unfold mbind, f_bind. by intros ->. Qed.

(** The blocks of the pointers. *)
Definition blocks (ps : list Pointer) : list N := omap (fun p => match p with At b => Some b | _ => None end) ps.

(** [m] is [m0] and the fresh allocations [ps]. *)
Record allocated (m0 : Memory) (ps : list Pointer) (m : Memory) : Prop := {
  al_plain : Dangling ∉ ps;
  al_distinct : NoDup (blocks ps);
  al_fresh : forall b, b ∈ blocks ps -> cells m0 !! b = None /\ b ∉ owned m0;
  al_owned : owned m = list_to_set (blocks ps) ∪ owned m0;
  al_cells : foldr delete (cells m) (blocks ps) = cells m0
}.

Lemma allocated_nil m : allocated m [] m.
Proof. split; try done; [apply not_elem_of_nil|apply NoDup_nil_2|intros b []%not_elem_of_nil|set_solver]. Qed.

Lemma allocated_same m0 m m' : allocated m0 [] m -> same_heap m m' -> same_heap m0 m'.
Proof. intros [_ _ _ Ho Hc] [Ec Eo]. cbn in *. split; [congruence|]. rewrite Eo, Ho. set_solver. Qed.

Lemma allocated_heap m0 ps m m' : allocated m0 ps m -> same_heap m m' -> allocated m0 ps m'.
Proof. intros [] [Ec Eo]. by split; rewrite ?Ec, ?Eo. Qed.

Lemma foldr_delete_comm {A} (b : N) (c : gmap N A) bs : foldr delete (delete b c) bs = delete b (foldr delete c bs).
Proof. induction bs as [|x bs IH]; [done|]. cbn. by rewrite IH, delete_delete. Qed.

Lemma lookup_foldr_delete {A} (b : N) (c : gmap N A) bs : b ∉ bs -> foldr delete c bs !! b = c !! b.
Proof.
  induction bs as [|x bs IH]; [done|]. intros [Hne Hin]%not_elem_of_cons. cbn.
  rewrite lookup_delete_ne by done. by apply IH.
Qed.

(** Releasing the oldest allocation. *)
Lemma release_allocated m0 p ps m :
  allocated m0 (p :: ps) m -> exists m', sv_free_string p m = Val tt m' /\ allocated m0 ps m'.
Proof.
  intros [Hp Hd Hf Ho Hc]. apply not_elem_of_cons in Hp as [Hp Hps]. destruct p as [| |b]; [by eexists|done|].
  cbn [blocks omap list_omap] in *. apply NoDup_cons in Hd as [Hb Hd].
  cbn [sv_free_string]. unfold release. rewrite bool_decide_eq_true_2 by (rewrite Ho; set_solver). eexists. split; [done|].
  destruct (Hf b ltac:(left)) as [_ Hno]. split; cbn [owned cells]; try done.
  - intros c Hin. apply Hf. by right.
  - rewrite Ho. change (omap _ ps) with (blocks ps) in *. set_unfold. intros x. split; [naive_solver|].
    intros Hx. split; [naive_solver|]. intros ->. naive_solver.
  - by rewrite foldr_delete_comm.
Qed.

Lemma release_all m0 ps : forall m,
  allocated m0 ps m ->
  exists m', foldr (fun p f => _ ← sv_free_string p; f) (mret tt) ps m = Val tt m' /\ same_heap m0 m'.
Proof.
  induction ps as [|p ps IH]; intros m Ha.
  - exists m. split; [done|]. by eapply allocated_same.
  - apply release_allocated in Ha as (m1 & E & Ha). apply IH in Ha as (m' & E' & Hs). exists m'. split; [|done].
    cbn [foldr]. by rewrite (bind_val _ _ _ _ _ E).
Qed.

Lemma allocate_allocated m0 ps m bs p m' :
  allocated m0 ps m -> allocate bs m = Val p m' -> (exists b, p = At b) /\ allocated m0 (ps ++ [p]) m'.
Proof.
  intros [Hp Hd Hf Ho Hc]. unfold allocate. set (b := fresh (dom (cells m) ∪ owned m)). intros [= <- <-].
  assert (b ∉ dom (cells m) ∪ owned m) as Hb by apply is_fresh. apply not_elem_of_union in Hb as [Hbc Hbo].
  split; [by exists b|]. assert (blocks (ps ++ [At b]) = blocks ps ++ [b]) as E by (unfold blocks; by rewrite omap_app).
  assert (b ∉ blocks ps) as Hnew by (intros Hin; apply Hbo; rewrite Ho; set_solver).
  assert (cells m0 !! b = None) as H0.
  { rewrite <-Hc, lookup_foldr_delete by done. by apply not_elem_of_dom. }
  split; cbn [owned cells]; rewrite ?E.
  - apply not_elem_of_app. split; [done|]. by intros [=]%list_elem_of_singleton.
  - apply NoDup_app. split; [done|]. split; [|apply NoDup_singleton]. set_solver.
  - intros c [Hin| ->%list_elem_of_singleton]%elem_of_app; [by apply Hf|]. split; [done|]. set_solver.
  - rewrite Ho, list_to_set_app_L. cbn. set_solver.
  - rewrite foldr_app. cbn. rewrite delete_insert_id by by apply not_elem_of_dom. done.
Qed.

(** A call that leaves early has an error to tell, and leaves the heap alone. *)
Definition clean {A} (m0 : Memory) (o : outcome A) : Prop :=
  match o with Ret s m => s <> SvStatus.Okay /\ same_heap m0 m /\ last_error m <> None | _ => True end.

(** A computation that neither allocates nor writes. *)
Definition quiet {A} (f : F A) : Prop :=
  forall m, match f m with Val _ m' => same_heap m m' | o => clean m o end.

(** A computation that does not leave early. *)
Definition silent {A} (f : F A) : Prop := forall m, match f m with Ret _ _ => False | _ => True end.

Lemma clean_weaken {A} m0 m (o : outcome A) : same_heap m0 m -> clean m o -> clean m0 o.
Proof. destruct o as [a m'|s m'|]; try done. intros Hs (? & Hs' & ?). split_and!; try done. by etrans. Qed.

Lemma clean_quiet {A B} m0 m (f : F A) (k : A -> F B) :
  quiet f -> same_heap m0 m -> (forall a m', same_heap m0 m' -> clean m0 (k a m')) -> clean m0 ((f ≫= k) m).
Proof.
  intros Hf Hs Hk. specialize (Hf m). unfold mbind, f_bind. destruct (f m) as [a m'|s m'|]; try done.
  - apply Hk. by etrans.
  - by apply (clean_weaken m0 m (Ret s m')).
Qed.

Lemma clean_silent {A} m0 m (f : F A) : silent f -> clean m0 (f m).
Proof. intros Hf. specialize (Hf m). by destruct (f m). Qed.

Lemma silent_bind {A B} (f : F A) (k : A -> F B) : silent f -> (forall a, silent (k a)) -> silent (f ≫= k).
Proof.
  intros Hf Hk m. specialize (Hf m). unfold mbind, f_bind. destruct (f m) as [a m'|s m'|]; try done. apply Hk.
Qed.

Lemma quiet_bind {A B} (f : F A) (k : A -> F B) : quiet f -> (forall a, quiet (k a)) -> quiet (f ≫= k).
Proof.
  intros Hf Hk m. specialize (Hf m). unfold mbind, f_bind. destruct (f m) as [a m'|s m'|]; try done.
  specialize (Hk a m'). destruct (k a m') as [b m2|s m2|]; [by etrans|by apply (clean_weaken (A:=B) m m' (Ret s m2))|done].
Qed.

(** One more string to return, or the earlier ones released. *)
Lemma output_string_cases m0 m ps s msg :
  allocated m0 ps m ->
  (exists p m', output_string s ps msg m = Val p m' /\ allocated m0 (ps ++ [p]) m') \/
  (exists st m', output_string s ps msg m = Ret st m' /\ clean m0 (Ret (A:=Pointer) st m')).
Proof.
  intros Ha. destruct s as [s|]; cbn [output_string].
  2: { left. exists Null, m. split; [done|].
       destruct Ha as [Hp Hd Hf Ho Hc]. assert (blocks (ps ++ [Null]) = blocks ps) as E
         by (unfold blocks; rewrite omap_app; apply app_nil_r).
       split; rewrite ?E; try done. apply not_elem_of_app. split; [done|]. by intros [=]%list_elem_of_singleton. }
  unfold string_to_ffi. destruct (has_nul (as_bytes s)).
  - right. destruct (release_all m0 ps m Ha) as (m' & E & Hs). exists SvStatus.Decode, (set_last_error msg m').
    split; [|by split_and!]. rewrite (bind_val _ _ m Null m eq_refl). cbn [is_null]. by rewrite (bind_val _ _ _ _ _ E).
  - left. destruct (allocate (as_bytes s ++ [Byte.x00]) m) as [p m'|s' m'|] eqn:E; [|discriminate E..].
    destruct (allocate_allocated _ _ _ _ _ _ Ha E) as [[b ->] Ha']. exists (At b), m'. split; [|done].
    by rewrite (bind_val _ _ _ _ _ E).
Qed.

Lemma output_clean {B} m0 ps m s msg (k : Pointer -> F B) :
  allocated m0 ps m -> (forall p m', allocated m0 (ps ++ [p]) m' -> clean m0 (k p m')) ->
  clean m0 ((output_string s ps msg ≫= k) m).
Proof.
  intros Ha Hk. destruct (output_string_cases m0 m ps s msg Ha) as [(p & m' & E & Ha')|(st & m' & E & Hc)].
  - rewrite (bind_val _ _ _ _ _ E). by apply Hk.
  - by rewrite (bind_ret _ _ _ _ _ E).
Qed.

(** ** The primitives *)

Create HintDb ffi.

Ltac quiet_solver :=
  repeat intro; unfold mret, f_ret; repeat case_match; simplify_eq; cbn [clean]; try (split_and!; try done); try done.

Lemma not_null_quiet ps msg : quiet (not_null ps msg).
Proof. unfold not_null, leave. quiet_solver. Qed.
Lemma read_bytes_quiet p n : quiet (read_bytes p n).
Proof. unfold read_bytes. quiet_solver. Qed.
Lemma cstr_quiet p : quiet (cstr_with_cap p).
Proof. unfold cstr_with_cap. quiet_solver. Qed.
Lemma ret_quiet {A} (a : A) : quiet (mret a).
Proof. quiet_solver. Qed.
Lemma leave_quiet {A} s msg : s <> SvStatus.Okay -> quiet (leave (A:=A) s msg).
Proof. intros Hs m. by split_and!. Qed.
Lemma from_core_quiet {A} d (r : result A) : quiet (from_core d r).
Proof. intros m. unfold from_core. destruct r as [v|[]]; by split_and!. Qed.
Lemma or_status_quiet {A} d (r : result A) : quiet (or_status d r).
Proof. intros m. unfold or_status. destruct r as [v|[]]; by split_and!. Qed.

Lemma write_bytes_silent p bs : silent (write_bytes p bs).
Proof. unfold write_bytes. quiet_solver. Qed.
Lemma write_silent p c : silent (write p c).
Proof. unfold write. quiet_solver. Qed.
Lemma ret_silent {A} (a : A) : silent (mret a).
Proof. quiet_solver. Qed.
Lemma clear_silent : silent clear_last_error.
Proof. quiet_solver. Qed.
Lemma vec_silent v : silent (vec_to_ffi v).
Proof. by destruct v. Qed.
Lemma string_silent s : silent (string_to_ffi s).
Proof. unfold string_to_ffi. by destruct (has_nul _). Qed.
#[export] Hint Resolve not_null_quiet read_bytes_quiet cstr_quiet ret_quiet leave_quiet from_core_quiet
  or_status_quiet write_bytes_silent write_silent ret_silent clear_silent vec_silent string_silent : ffi.

Lemma text_of_quiet bs msg : quiet (text_of bs msg).
Proof. unfold text_of. case_match; auto with ffi. Qed.
Lemma cstr_text_quiet p e1 e2 : quiet (cstr_text p e1 e2).
Proof. apply quiet_bind; [auto with ffi|]. intros [bs|]; [apply text_of_quiet|by apply leave_quiet]. Qed.
Lemma required_quiet p f n : quiet (read_required_string p f n).
Proof.
  apply quiet_bind; [auto with ffi|]. intros [bs|]; [|by apply leave_quiet].
  case_match; [by apply leave_quiet|apply text_of_quiet].
Qed.
Lemma optional_quiet p f n : quiet (read_optional_string p f n).
Proof. unfold read_optional_string. case_match; [auto with ffi|]. apply quiet_bind; [apply required_quiet|]. auto with ffi. Qed.
#[export] Hint Resolve text_of_quiet cstr_text_quiet required_quiet optional_quiet : ffi.

(** A guard, or a match whose branches are all quiet or leave with an error. *)
Ltac quiet := solve [auto with ffi | case_match; first [by apply leave_quiet | auto with ffi]].
Ltac silent := repeat (apply silent_bind; [solve [auto with ffi]|first [intros [? ?] | intros ?]]); auto with ffi.

Ltac clean_step :=
  match goal with
  | |- clean _ ((_ ≫= _) _) => apply clean_quiet; [quiet|done|intros ? ? ?]
  end.
Ltac clean_end := apply clean_silent; solve [silent].

(** The strings a call returns. *)
Ltac outputs :=
  match goal with
  | Hs : same_heap ?m0 ?m |- clean ?m0 ((output_string _ [] _ ≫= _) ?m) =>
    eapply output_clean; [exact (allocated_heap _ _ _ _ (allocated_nil m0) Hs)|intros ? ? ?]
  end;
  repeat (eapply output_clean; [eassumption|cbn [app]; intros ? ? ?]).

Section Calls.
Context `{Crypto, Ecies, Bech32} (describe : Error.t -> string).

Lemma call_clean c m : clean m (call describe c m).
Proof using.
  assert (same_heap m m) as Hm by done.
  destruct c; cbn [call].
  - unfold sv_keygen_master. clean_step. destruct generated as [seed|e]; [clean_end|].
    pose proof (or_status_quiet (A:=unit) describe (Err e) m') as Q. by eapply clean_weaken.
  - unfold sv_derive_side. repeat clean_step. clean_end.
  - unfold sv_pubkey_from_seed. repeat clean_step. clean_end.
  - unfold sv_address_decode. repeat clean_step. clean_end.
  - unfold sv_dm_seal_text. repeat clean_step. clean_end.
  - unfold sv_dm_open_text. repeat clean_step. clean_end.
  - unfold sv_linkage_sign. repeat clean_step. clean_end.
  - unfold sv_linkage_verify. repeat clean_step. clean_end.
  - unfold sv_contact_card_encode. repeat clean_step. unfold string_to_ffi at 1. case_match.
    + rewrite (bind_val _ _ _ _ _ eq_refl). by split_and!.
    + match goal with |- clean _ ((allocate ?bs ≫= _) ?mem) =>
        destruct (allocate bs mem) as [p m1|s m1|] eqn:E; [|discriminate E..] end.
      destruct (allocate_allocated _ _ _ _ _ _ (allocated_nil _) E) as [[b ->] _].
      rewrite (bind_val _ _ _ _ _ E). clean_end.
  - unfold sv_contact_card_parse. repeat clean_step. outputs. clean_end.
  - unfold sv_handle_attest_verify. repeat clean_step. outputs. clean_end.
  - unfold sv_page_publish_verify. repeat clean_step. outputs. clean_end.
  - unfold sv_verify_signature. repeat clean_step. case_match; [clean_end|].
    eapply clean_weaken; [done|]. by apply leave_quiet.
  - unfold sv_blake3. repeat clean_step. clean_end.
  - unfold sv_directory_entry_encode. repeat clean_step. clean_end.
Qed.
End Calls.

(** ** Calls that succeed: every allocation is handed to the caller *)

Definition holds (o p : Pointer) (m : Memory) : Prop := exists k, o = At k /\ cells m !! k = Some (CPtr p).

(** Since [m0] the pointers [ps] were allocated, and each [(o, p)] of [hs]
    written: the pointer [p] to the output [o]. *)
Record traced (m0 : Memory) (ps : list Pointer) (hs : list (Pointer * Pointer)) (m : Memory) : Prop := {
  tr_owned : owned m ⊆ list_to_set (blocks ps) ∪ owned m0;
  tr_holds : forall o p, (o, p) ∈ hs -> holds o p m
}.

Definition wp {A} (f : F A) (Q : A -> Memory -> Prop) (m : Memory) : Prop :=
  match f m with Val a m' => Q a m' | _ => True end.

Lemma wp_bind {A B} (f : F A) (k : A -> F B) Q m : wp f (fun a => wp (k a) Q) m -> wp (f ≫= k) Q m.
Proof. unfold wp, mbind, f_bind. by destruct (f m). Qed.

Lemma wp_quiet {A} m0 ps hs m (f : F A) Q :
  quiet f -> traced m0 ps hs m -> (forall a m', traced m0 ps hs m' -> Q a m') -> wp f Q m.
Proof.
  intros Hf Ht HQ. specialize (Hf m). unfold wp. destruct (f m) as [a m'|s m'|]; try done. apply HQ.
  destruct Hf as [Ec Eo], Ht as [Ho Hh]. split; [by rewrite Eo|]. intros o p Hin.
  destruct (Hh o p Hin) as (k & ? & ?). exists k. by rewrite Ec.
Qed.

Lemma traced_alloc m0 ps m bs p m' :
  traced m0 ps [] m -> allocate bs m = Val p m' -> traced m0 (ps ++ [p]) [] m'.
Proof.
  intros [Ho _]. unfold allocate. set (b := fresh _). intros [= <- <-]. split; [|by intros o p ?%not_elem_of_nil].
  cbn. unfold blocks. rewrite omap_app. cbn. change (omap _ ps) with (blocks ps). rewrite list_to_set_app_L. set_solver.
Qed.

Lemma traced_more m0 ps p m : traced m0 ps [] m -> traced m0 (ps ++ [p]) [] m.
Proof.
  intros [Ho _]. split; [|by intros o q ?%not_elem_of_nil].
  unfold blocks. rewrite omap_app, list_to_set_app_L. change (omap _ ps) with (blocks ps). set_solver.
Qed.

Lemma wp_string m0 ps m s Q :
  traced m0 ps [] m -> (forall p m', traced m0 (ps ++ [p]) [] m' -> Q p m') -> wp (string_to_ffi s) Q m.
Proof.
  intros Ht HQ. unfold wp, string_to_ffi. destruct (has_nul _); [by apply HQ, traced_more|].
  destruct (allocate _ m) as [p m'|s' m'|] eqn:E; [|done..]. apply HQ. by eapply traced_alloc.
Qed.

Lemma wp_vec m0 ps m v Q :
  traced m0 ps [] m -> (forall p n m', traced m0 (ps ++ [p]) [] m' -> Q (p, n) m') -> wp (vec_to_ffi v) Q m.
Proof.
  intros Ht HQ. destruct v as [|b v]; [by apply HQ, traced_more|]. apply wp_bind. unfold wp at 1.
  destruct (allocate (b :: v) m) as [p m'|s' m'|] eqn:E; [|done..]. apply HQ. by eapply traced_alloc.
Qed.

Lemma wp_output m0 ps m s earlier msg Q :
  traced m0 ps [] m -> (forall p m', traced m0 (ps ++ [p]) [] m' -> Q p m') -> wp (output_string s earlier msg) Q m.
Proof.
  intros Ht HQ. destruct s as [s|]; [|by apply HQ, traced_more]. apply wp_bind. eapply wp_string; [done|].
  intros p m' Ht'. destruct (is_null p); [|by apply HQ]. generalize (foldr (fun p f => _ ← sv_free_string p; f) (mret tt) earlier).
  intros f. unfold wp, mbind, f_bind. by destruct (f m').
Qed.

Lemma wp_write_bytes m0 ps hs m o bs Q :
  traced m0 ps hs m -> (forall m', traced m0 ps hs m' -> Q tt m') -> wp (write_bytes o bs) Q m.
Proof.
  intros [Ho Hh] HQ. unfold wp, write_bytes. destruct o as [| |b]; [done..|]. destruct (cells m !! b) as [[old| | |]|] eqn:Eb; try done.
  destruct (blen bs <=? blen old); [|done]. apply HQ. split; [done|]. intros o p Hin.
  destruct (Hh o p Hin) as (k & -> & Hk). exists k. split; [done|]. cbn. rewrite lookup_insert_ne; [done|]. congruence.
Qed.

Lemma wp_write_scalar m0 ps hs m o c Q :
  (forall p, c <> CPtr p) ->
  traced m0 ps hs m -> (forall m', traced m0 ps hs m' -> Q tt m') -> wp (write o c) Q m.
Proof.
  intros Hc [Ho Hh] HQ. unfold wp, write. destruct o as [| |b]; [done..|]. destruct (cells m !! b) as [old|] eqn:Eb; [|done].
  destruct (same_type old c) eqn:Es; [|done]. apply HQ. split; [done|]. intros o p Hin.
  destruct (Hh o p Hin) as (k & -> & Hk). exists k. split; [done|]. cbn. rewrite lookup_insert_ne; [done|].
  intros ->. rewrite Eb in Hk. injection Hk as ->. destruct c; try done. by destruct (Hc p0).
Qed.

Lemma wp_write_ptr m0 ps hs m o p Q :
  o ∉ hs.*1 ->
  traced m0 ps hs m -> (forall m', traced m0 ps ((o, p) :: hs) m' -> Q tt m') -> wp (write o (CPtr p)) Q m.
Proof.
  intros Hn [Ho Hh] HQ. unfold wp, write. destruct o as [| |b]; [done..|]. destruct (cells m !! b) as [old|] eqn:Eb; [|done].
  destruct (same_type old (CPtr p)); [|done]. apply HQ. split; [done|].
  intros o q [[= -> ->]|Hin]%elem_of_cons.
  - exists b. split; [done|]. cbn. apply lookup_insert_eq.
  - destruct (Hh o q Hin) as (k & -> & Hk). exists k. split; [done|]. cbn. rewrite lookup_insert_ne; [done|].
    intros ->. apply Hn. apply list_elem_of_fmap. by exists (At k, q).
Qed.

(** The outputs of a call that receive a pointer. *)
Definition pointer_outputs (c : Call) : list Pointer :=
  match c with
  | DmSealText _ _ _ _ o _ _ _ | DmOpenText _ _ _ _ o _ | LinkageSign _ _ _ o _ _ | ContactCardEncode _ _ _ _ o
  | DirectoryEntryEncode _ _ _ _ o _ => [o]
  | ContactCardParse _ _ o1 o2 o3 => [o1; o2; o3]
  | HandleAttestVerify _ _ _ o1 o2 _ => [o1; o2]
  | PagePublishVerify _ _ _ o1 o2 o3 _ _ => [o1; o2; o3]
  | _ => []
  end.

(** All that was allocated is in an output. *)
Definition handed_over (outs : list Pointer) (m m' : Memory) : Prop :=
  forall b, b ∈ owned m' -> b ∈ owned m \/ exists o, o ∈ outs /\ holds o (At b) m'.

Lemma traced_nil m : traced m [] [] m.
Proof. split; [set_solver|by intros o p ?%not_elem_of_nil]. Qed.

Lemma traced_end m0 ps hs m outs :
  traced m0 ps hs m -> (forall p, p ∈ ps -> exists o, o ∈ outs /\ (o, p) ∈ hs) -> handed_over outs m0 m.
Proof.
  intros [Ho Hh] Hc b Hb. apply Ho, elem_of_union in Hb as [Hb|Hb]; [right|by left].
  apply elem_of_list_to_set in Hb. unfold blocks in Hb. apply list_elem_of_omap in Hb as (p & Hp & E).
  destruct p as [| |b']; [done..|]. injection E as ->. destruct (Hc _ Hp) as (o & Hin & Hoh). exists o. split; [done|]. by apply Hh.
Qed.

Ltac wp_step :=
  match goal with
  | |- wp (leave _ _) _ _ => exact I
  | |- wp (_ ≫= _) _ _ => apply wp_bind
  | Ht : traced ?m0 _ _ ?m |- wp (vec_to_ffi _) _ ?m => eapply wp_vec; [exact Ht|clear Ht; intros ? ? ? Ht]
  | Ht : traced ?m0 _ _ ?m |- wp (string_to_ffi _) _ ?m => eapply wp_string; [exact Ht|clear Ht; intros ? ? Ht]
  | Ht : traced ?m0 _ _ ?m |- wp (output_string _ _ _) _ ?m => eapply wp_output; [exact Ht|clear Ht; intros ? ? Ht]
  | Ht : traced ?m0 _ _ ?m |- wp (write_bytes _ _) _ ?m => eapply wp_write_bytes; [exact Ht|clear Ht; intros ? Ht]
  | Ht : traced ?m0 _ _ ?m |- wp (write _ (CPtr _)) _ ?m => eapply wp_write_ptr; [|exact Ht|clear Ht; intros ? Ht]
  | Ht : traced ?m0 _ _ ?m |- wp (write _ _) _ ?m => eapply wp_write_scalar; [by intros ?|exact Ht|clear Ht; intros ? Ht]
  | Ht : traced ?m0 _ _ ?m |- wp _ _ ?m => eapply wp_quiet; [quiet|exact Ht|clear Ht; intros ? ? Ht]
  end.

(** The distinct outputs, and where each pointer went. *)
Ltac wp_solve Hd :=
  repeat (cbn beta iota; wp_step);
  [ .. | eapply traced_end; [eassumption|];
         intros q Hq; cbn [app] in Hq;
         repeat (apply elem_of_cons in Hq as [->|Hq]; [eexists; split; [|by repeat (left || right)]; by repeat (left || right)|]);
         by apply not_elem_of_nil in Hq ];
  cbn [fmap list_fmap fst]; rewrite ?NoDup_cons in Hd; rewrite ?not_elem_of_cons in *; naive_solver (apply not_elem_of_nil).

Lemma clear_quiet : quiet clear_last_error.
Proof. by intros m. Qed.
#[export] Hint Resolve clear_quiet : ffi.

Section Ownership.
Context `{Crypto, Ecies, Bech32} (describe : Error.t -> string).

Lemma call_hands_over c m :
  NoDup (pointer_outputs c) -> wp (call describe c) (fun _ => handed_over (pointer_outputs c) m) m.
Proof using.
  intros Hd. pose proof (traced_nil m) as Ht. destruct c; cbn [call pointer_outputs] in *.
  - unfold sv_keygen_master. wp_step; wp_step. destruct generated; wp_step; by eapply traced_end; [exact Ht|set_solver].
  - unfold sv_derive_side. wp_solve Hd.
  - unfold sv_pubkey_from_seed. wp_solve Hd.
  - unfold sv_address_decode. wp_solve Hd.
  - unfold sv_dm_seal_text. wp_solve Hd.
  - unfold sv_dm_open_text. wp_solve Hd.
  - unfold sv_linkage_sign. wp_solve Hd.
  - unfold sv_linkage_verify. wp_solve Hd.
  - unfold sv_contact_card_encode. repeat (cbn beta iota; wp_step). case_match; [wp_step|wp_solve Hd].
  - unfold sv_contact_card_parse. wp_solve Hd.
  - unfold sv_handle_attest_verify. wp_solve Hd.
  - unfold sv_page_publish_verify. wp_solve Hd.
  - unfold sv_verify_signature. wp_solve Hd.
  - unfold sv_blake3. wp_solve Hd.
  - unfold sv_directory_entry_encode. wp_solve Hd.
Qed.
End Ownership.

(** ** Calls within their contract are defined *)

Definition same_shape (c c' : Cell) : Prop :=
  match c, c' with
  | CBytes bs, CBytes bs' => blen bs = blen bs'
  | CPtr _, CPtr _ | CSize _, CSize _ | CKind _, CKind _ => True
  | _, _ => False
  end.

#[export] Instance same_shape_preorder : PreOrder same_shape.
Proof. split; [by intros []|]. intros [] [] []; cbn; try done. congruence. Qed.

(** What was there still is, with its type and size. *)
Definition fits (m0 m : Memory) : Prop :=
  forall b c, cells m0 !! b = Some c -> exists c', cells m !! b = Some c' /\ same_shape c c'.

Lemma fits_cells m0 m : cells m = cells m0 -> fits m0 m.
Proof. intros E b c Hb. rewrite E. by exists c. Qed.

Lemma fits_insert m0 m m' b c c' :
  fits m0 m -> cells m' = <[b := c']> (cells m) -> cells m !! b = Some c -> same_shape c c' -> fits m0 m'.
Proof.
  intros Hf E Hb Hs k d Hk. rewrite E. destruct (Hf k d Hk) as (e & He & Hde). destruct (decide (k = b)) as [->|Hne].
  - exists c'. rewrite lookup_insert_eq. split; [done|]. etrans; [exact Hde|]. congruence.
  - exists e. by rewrite lookup_insert_ne.
Qed.

Lemma fits_allocated m0 m1 ps m : fits m0 m1 -> allocated m1 ps m -> fits m0 m.
Proof.
  intros Hf [_ _ Hfresh _ Hc] b c Hb. destruct (Hf b c Hb) as (c' & Hb' & Hs). exists c'. split; [|done].
  rewrite <-Hb', <-Hc. symmetry. apply lookup_foldr_delete. intros Hin. destruct (Hfresh b Hin) as [E _]. congruence.
Qed.

Lemma fits_bytes m0 m b bs :
  fits m0 m -> cells m0 !! b = Some (CBytes bs) -> exists bs', cells m !! b = Some (CBytes bs') /\ blen bs' = blen bs.
Proof. intros Hf Hb. destruct (Hf _ _ Hb) as ([bs'| | |] & E & Hs); [by exists bs'|done..]. Qed.

(** What an argument other than null must point to. *)
Definition input (p : Pointer) (n : N) (m : Memory) : Prop :=
  match p with
  | Null => True
  | Dangling => n = 0
  | At b => exists bs, cells m !! b = Some (CBytes bs) /\ n <= blen bs
  end.

Definition buffer (p : Pointer) (n : N) (m : Memory) : Prop :=
  match p with
  | Null => True
  | Dangling => False
  | At b => exists bs, cells m !! b = Some (CBytes bs) /\ n <= blen bs
  end.

(** A C string, or at least as many bytes as are scanned. *)
Definition c_string (p : Pointer) (m : Memory) : Prop :=
  match p with
  | Null => True
  | Dangling => False
  | At b => exists bs, cells m !! b = Some (CBytes bs) /\ ((FFI_CSTR_MAX_LEN <= length bs)%nat \/ Byte.x00 ∈ bs)
  end.

Definition slot (c : Cell) (p : Pointer) (m : Memory) : Prop :=
  match p with
  | Null => True
  | Dangling => False
  | At b => exists c', cells m !! b = Some c' /\ same_type c' c = true
  end.

Definition pointer_slot := slot (CPtr Null).
Definition size_slot := slot (CSize 0).

(** A byte count that a [usize] holds. *)
Definition wire_input (p : Pointer) (n : N) (m : Memory) : Prop := input p n m /\ n < u64_size.

(** The safety comments of the functions. *)
Definition contract (c : Call) (m : Memory) : Prop :=
  NoDup (pointer_outputs c) /\
  match c with
  | KeygenMaster g o => buffer o SECRET_KEY_LEN m /\ (forall seed, g = Ok seed -> blen seed = SECRET_KEY_LEN)
  | DeriveSide s l o => input s SECRET_KEY_LEN m /\ c_string l m /\ buffer o SECRET_KEY_LEN m
  | PubkeyFromSeed s o => input s SECRET_KEY_LEN m /\ buffer o PUBLIC_KEY_LEN m
  | AddressDecode a o k => c_string a m /\ buffer o PUBLIC_KEY_LEN m /\ slot (CKind AddressKind.Side) k m
  | DmSealText s r t n op ol _ _ =>
    input s SECRET_KEY_LEN m /\ input r PUBLIC_KEY_LEN m /\ input t n m /\ pointer_slot op m /\ size_slot ol m
  | DmOpenText s w n os op ol =>
    input s SECRET_KEY_LEN m /\ wire_input w n m /\ buffer os PUBLIC_KEY_LEN m /\ pointer_slot op m /\ size_slot ol m
  | LinkageSign a b _ op ol _ =>
    input a SECRET_KEY_LEN m /\ input b SECRET_KEY_LEN m /\ pointer_slot op m /\ size_slot ol m
  | LinkageVerify w n oa ob ot =>
    wire_input w n m /\ buffer oa PUBLIC_KEY_LEN m /\ buffer ob PUBLIC_KEY_LEN m /\ size_slot ot m
  | ContactCardEncode s d n l o =>
    input s 32 m /\ c_string d m /\ c_string n m /\ c_string l m /\ pointer_slot o m
  | ContactCardParse u os od on ol =>
    c_string u m /\ buffer os 32 m /\ pointer_slot od m /\ pointer_slot on m /\ pointer_slot ol m
  | HandleAttestVerify w n os oh od ot =>
    wire_input w n m /\ buffer os PUBLIC_KEY_LEN m /\ pointer_slot oh m /\ pointer_slot od m /\ size_slot ot m
  | PagePublishVerify w n os o1 o2 oc ocl ot =>
    wire_input w n m /\ buffer os PUBLIC_KEY_LEN m /\ pointer_slot o1 m /\ pointer_slot o2 m /\ pointer_slot oc m /\
    size_slot ocl m /\ size_slot ot m
  | VerifySignature p g n s => input p PUBLIC_KEY_LEN m /\ input g n m /\ input s SIGNATURE_LEN m
  | Blake3 g n o => input g n m /\ buffer o 32 m
  | DirectoryEntryEncode s h a n op ol =>
    input s PUBLIC_KEY_LEN m /\ c_string h m /\ input a n m /\ pointer_slot op m /\ size_slot ol m
  end.

(** [f] is defined, and what it returns satisfies [Q]. *)
Definition safe {A} (f : F A) (Q : A -> Memory -> Prop) (m : Memory) : Prop :=
  match f m with Val a m' => Q a m' | Ret _ _ => True | Ub => False end.

Lemma safe_bind {A B} (f : F A) (k : A -> F B) Q m : safe f (fun a => safe (k a) Q) m -> safe (f ≫= k) Q m.
Proof. unfold safe, mbind, f_bind. by destruct (f m). Qed.

Lemma safe_not_null ps msg Q m : (Forall (fun p => p <> Null) ps -> Q tt m) -> safe (not_null ps msg) Q m.
Proof.
  unfold safe, not_null. destruct (existsb is_null ps) eqn:E; [done|]. intros HQ. apply HQ.
  apply Forall_forall. intros p Hp ->. apply not_true_iff_false in E. apply E, existsb_exists. exists Null.
  by rewrite <-list_elem_of_In.
Qed.

Lemma safe_read m0 m p n Q :
  p <> Null -> input p n m0 -> cells m = cells m0 -> (forall bs, blen bs = n -> Q bs m) -> safe (read_bytes p n) Q m.
Proof.
  intros Hp Hi E HQ. unfold safe, read_bytes. destruct p as [| |b]; [done| |].
  - cbn in Hi. subst n. cbn. by apply HQ.
  - destruct Hi as (bs & Hb & Hn). rewrite E, Hb, (proj2 (N.leb_le _ _)) by done. apply HQ.
    unfold blen in *. rewrite length_take. lia.
Qed.

Lemma scan_defined cap : forall bs, (cap <= length bs)%nat \/ Byte.x00 ∈ bs -> exists r, scan cap bs = Some r.
Proof.
  induction cap as [|cap IH]; intros bs Hc; [by eexists|]. destruct bs as [|b bs].
  { destruct Hc as [?|[]%not_elem_of_nil]. cbn in *. lia. }
  cbn [scan]. destruct (N.eqb_spec (Byte.to_N b) 0) as [|Hb]; [by eexists|].
  destruct (IH bs) as [r ->]; [|by eexists]. destruct Hc as [Hl|[<-|Hin]%elem_of_cons]; [cbn in Hl; left; lia|done|by right].
Qed.

Lemma safe_cstr m0 m p Q :
  c_string p m0 -> cells m = cells m0 -> (forall r, Q r m) -> safe (cstr_with_cap p) Q m.
Proof.
  intros Hi E HQ. unfold safe, cstr_with_cap. destruct p as [| |b]; [apply HQ|done|].
  destruct Hi as (bs & Hb & Hs). rewrite E, Hb. destruct (scan_defined _ _ Hs) as [r ->]. apply HQ.
Qed.

Lemma safe_quiet {A} m0 m (f : F A) Q :
  quiet f -> safe f (fun _ _ => True) m -> cells m = cells m0 ->
  (forall a m', f m = Val a m' -> cells m' = cells m0 -> Q a m') -> safe f Q m.
Proof.
  intros Hq Hs E HQ. specialize (Hq m). unfold safe in *. destruct (f m) as [a m'|s m'|]; try done.
  apply HQ; [done|]. destruct Hq. congruence.
Qed.

Lemma safe_write_bytes m0 m p n bs Q :
  p <> Null -> buffer p n m0 -> fits m0 m -> blen bs <= n -> (forall m', fits m0 m' -> Q tt m') ->
  safe (write_bytes p bs) Q m.
Proof.
  intros Hp Hi Hf Hn HQ. unfold safe, write_bytes. destruct p as [| |b]; [done..|]. destruct Hi as (old & Hb & Hl).
  destruct (fits_bytes _ _ _ _ Hf Hb) as (old' & E & El). rewrite E, (proj2 (N.leb_le _ _)) by lia. apply HQ.
  eapply fits_insert; [done|reflexivity|exact E|]. cbn. unfold blen in *. rewrite length_app, length_drop. lia.
Qed.

Lemma safe_write m0 m p c c0 Q :
  p <> Null -> slot c0 p m0 -> same_type c0 c = true -> fits m0 m -> (forall m', fits m0 m' -> Q tt m') ->
  safe (write p c) Q m.
Proof.
  intros Hp Hi Hc Hf HQ. unfold safe, write. destruct p as [| |b]; [done..|]. destruct Hi as (old & Hb & Ht).
  destruct (Hf _ _ Hb) as (old' & E & Hs). rewrite E. destruct old, old', c0, c; try done; apply HQ;
    (eapply fits_insert; [done|reflexivity|exact E|done]).
Qed.

Lemma safe_alloc m0 m bs Q :
  fits m0 m -> (forall b m', fits m0 m' -> Q (At b) m') -> safe (allocate bs) Q m.
Proof.
  intros Hf HQ. unfold safe. destruct (allocate bs m) as [p m'|s m'|] eqn:E; [|discriminate E..].
  destruct (allocate_allocated _ _ _ _ _ _ (allocated_nil m) E) as [[b ->] Ha]. apply HQ. by eapply fits_allocated.
Qed.

Lemma safe_vec m0 m v Q :
  fits m0 m -> (forall r m', fits m0 m' -> Q r m') -> safe (vec_to_ffi v) Q m.
Proof. intros Hf HQ. destruct v; [by apply HQ|]. apply safe_bind. eapply safe_alloc; [done|]. intros. by apply HQ. Qed.

Lemma safe_string m0 m s Q :
  fits m0 m -> (forall p m', fits m0 m' -> Q p m') -> safe (string_to_ffi s) Q m.
Proof.
  intros Hf HQ. unfold string_to_ffi. case_match; [by apply HQ|]. eapply safe_alloc; [done|]. intros. by apply HQ.
Qed.

Lemma safe_output m1 m ps s msg Q :
  allocated m1 ps m -> (forall p m', allocated m1 (ps ++ [p]) m' -> Q p m') -> safe (output_string s ps msg) Q m.
Proof.
  intros Ha HQ. unfold safe. destruct (output_string_cases m1 m ps s msg Ha) as [(p & m' & E & Ha')|(st & m' & E & _)];
    rewrite E; [by apply HQ|done].
Qed.

(** Matches that only choose between a value and an error. *)
Lemma safe_ret {A} (a : A) (Q : A -> Memory -> Prop) m : Q a m -> safe (mret a) Q m.
Proof. done. Qed.
Lemma safe_leave {A} st msg (Q : A -> Memory -> Prop) m : safe (leave st msg) Q m.
Proof. done. Qed.

Lemma safe_from_core {A} d (r : result A) (Q : A -> Memory -> Prop) m0 m :
  cells m = cells m0 -> (forall v m', r = Ok v -> cells m' = cells m0 -> Q v m') -> safe (from_core d r) Q m.
Proof. intros E HQ. unfold safe, from_core. destruct r as [v|e]; [by apply HQ|done]. Qed.

Lemma safe_or_status {A} d (r : result A) (Q : A -> Memory -> Prop) m :
  (forall v, r = Ok v -> Q v m) -> safe (or_status d r) Q m.
Proof. intros HQ. unfold safe, or_status. destruct r as [v|e]; [by apply HQ|done]. Qed.

Lemma safe_text bs msg (Q : string -> Memory -> Prop) m : (forall s, Q s m) -> safe (text_of bs msg) Q m.
Proof. intros HQ. unfold text_of. case_match; [apply HQ|done]. Qed.

Lemma safe_clear m (Q : unit -> Memory -> Prop) : Q tt (with_error None m) -> safe clear_last_error Q m.
Proof. done. Qed.

Lemma safe_cstr_text m0 m p e1 e2 (Q : string -> Memory -> Prop) :
  c_string p m0 -> cells m = cells m0 -> (forall s, Q s m) -> safe (cstr_text p e1 e2) Q m.
Proof.
  intros Hp E HQ. apply safe_bind. eapply safe_cstr; [done..|]. intros [bs|]; [by apply safe_text|apply safe_leave].
Qed.

Lemma safe_required m0 m p f n (Q : string -> Memory -> Prop) :
  c_string p m0 -> cells m = cells m0 -> (forall s, Q s m) -> safe (read_required_string p f n) Q m.
Proof.
  intros Hp E HQ. apply safe_bind. eapply safe_cstr; [done..|].
  intros [bs|]; [|apply safe_leave]. case_match; [apply safe_leave|by apply safe_text].
Qed.

Lemma safe_optional m0 m p f n (Q : option string -> Memory -> Prop) :
  c_string p m0 -> cells m = cells m0 -> (forall s, Q s m) -> safe (read_optional_string p f n) Q m.
Proof.
  intros Hp E HQ. unfold read_optional_string. case_match; [apply HQ|]. apply safe_bind.
  eapply safe_required; [done..|]. intros s. apply HQ.
Qed.

(** ** The sizes of what is written *)

Lemma contact_side_length s c : ContactCard.parse s = Ok c -> blen (ContactCard.side c) = 32.
Proof.
  intros (bs & [Hq Hh]%qr_payload_ok & [Hw _]%contact_payload_ok)%result_bind_ok; [apply Hw|done].
Qed.

Ltac sizes :=
  first
  [ lia
  | unfold public_bytes; rewrite ed_public_length; lia
  | unfold derive_side; cbn [signing]; rewrite hkdf_length; lia
  | rewrite blake3_length; lia
  | match goal with
    | H : Address.parse _ = Ok _ |- _ => apply address_key_length in H; by rewrite H
    | H : ContactCard.parse _ = Ok _ |- _ => apply contact_side_length in H; by rewrite H
    | H : from_wire_bytes _ = Ok _ |- _ => apply parsed_wf in H; [unfold wf_envelope in H; destruct_and? H; lia|lia]
    | H : Linkage.from_wire_bytes _ = Ok _ |- _ =>
      apply linkage_ok in H; [unfold Linkage.wf in H; destruct_and? H; lia|lia]
    | H : HandleAttest.from_wire_bytes _ = Ok _ |- _ =>
      apply handle_attest_exact in H; [destruct H as [[W _] _]; unfold HandleAttest.wf in W; destruct_and? W; lia|lia]
    | H : PagePublish.from_wire_bytes _ = Ok _ |- _ =>
      apply page_publish_exact in H; [destruct H as [[W _] _]; unfold PagePublish.wf in W; destruct_and? W; lia|lia]
    end ].

(** Reading, with the cells those of [m0]; then allocating and writing. *)
Ltac safe_read_step :=
  match goal with
  | |- safe (_ ≫= _) _ _ => apply safe_bind
  | |- safe (mret _) _ _ => apply safe_ret
  | |- safe (leave _ _) _ _ => apply safe_leave
  | |- safe (not_null _ _) _ _ =>
    let N := fresh "N" in apply safe_not_null; intros N; rewrite ?Forall_cons in N; destruct_and? N
  | E : cells ?m = cells ?m0 |- safe (read_bytes _ _) _ ?m => eapply (safe_read m0); [done..|intros ? ?]
  | E : cells ?m = cells ?m0 |- safe (cstr_text _ _ _) _ ?m => eapply (safe_cstr_text m0); [done..|intros ?]
  | E : cells ?m = cells ?m0 |- safe (read_required_string _ _ _) _ ?m => eapply (safe_required m0); [done..|intros ?]
  | E : cells ?m = cells ?m0 |- safe (read_optional_string _ _ _) _ ?m => eapply (safe_optional m0); [done..|intros ?]
  | |- safe (text_of _ _) _ _ => apply safe_text; intros ?
  | E : cells ?m = cells ?m0 |- safe (from_core _ _) _ ?m => eapply (safe_from_core _ _ _ m0); [done|clear E; intros ? ? ? E]; try (match goal with V : Ok _ = Ok _ |- _ => injection V as <- end)
  | |- safe (or_status _ _) _ _ => apply safe_or_status; intros ? ?
  | |- safe (match ?x with _ => _ end) _ _ => destruct x eqn:?
  end.

Ltac safe_write_step :=
  match goal with
  | |- True => exact I
  | |- safe (_ ≫= _) _ _ => apply safe_bind
  | |- safe (mret _) _ _ => apply safe_ret
  | |- safe (leave _ _) _ _ => apply safe_leave
  | |- safe clear_last_error _ _ => apply safe_clear
  | Hf : fits ?m0 ?m |- safe (vec_to_ffi _) _ ?m => eapply (safe_vec m0); [exact Hf|clear Hf; intros [? ?] ? Hf]
  | Hf : fits ?m0 ?m |- safe (string_to_ffi _) _ ?m => eapply (safe_string m0); [exact Hf|clear Hf; intros ? ? Hf]
  | Hf : fits ?m0 ?m |- safe (write_bytes _ _) _ ?m =>
    eapply (safe_write_bytes m0); [done|eassumption|exact Hf|sizes|clear Hf; intros ? Hf]
  | Hf : fits ?m0 ?m |- safe (write _ _) _ ?m =>
    eapply (safe_write m0); [done|eassumption|done|exact Hf|clear Hf; intros ? Hf]
  | |- safe (match ?x with _ => _ end) _ _ => destruct x eqn:?
  end.

Ltac safe_reads := repeat (cbn beta iota; safe_read_step).
Ltac safe_writes := try (match goal with E : cells _ = cells _ |- _ => apply fits_cells in E end); repeat (cbn beta iota; safe_write_step).

Ltac safe_outputs :=
  match goal with
  | E : cells ?m = cells ?m0 |- safe (output_string _ [] _) _ ?m =>
    apply fits_cells in E; pose proof (allocated_nil m)
  end;
  repeat (cbn beta iota; first
    [ eapply safe_output; [eassumption|cbn [app]; intros ? ? ?] | apply safe_bind ]);
  match goal with
  | Hf : fits ?m0 ?m1, Ha : allocated ?m1 (_ :: _) ?m |- safe _ _ ?m => pose proof (fits_allocated _ _ _ _ Hf Ha)
  end.

Section Defined.
Context `{CryptoLaws, !Ecies, !Bech32} (describe : Error.t -> string).

Lemma call_safe c m : contract c m -> safe (call describe c) (fun _ _ => True) m.
Proof using All.
  intros [_ C]. assert (cells m = cells m) as E by done. destruct c; cbn [call] in *; unfold wire_input in C; destruct_and? C.
  - unfold sv_keygen_master. safe_reads; [|done].
    match goal with G : forall seed, _ -> blen seed = _ |- _ => pose proof (G _ eq_refl) end. safe_writes.
  - unfold sv_derive_side. safe_reads. safe_writes.
  - unfold sv_pubkey_from_seed. safe_reads. safe_writes.
  - unfold sv_address_decode. safe_reads. safe_writes.
  - unfold sv_dm_seal_text. safe_reads. safe_writes.
  - unfold sv_dm_open_text. safe_reads. all: safe_writes.
  - unfold sv_linkage_sign. safe_reads. safe_writes.
  - unfold sv_linkage_verify. safe_reads. safe_writes.
  - unfold sv_contact_card_encode. safe_reads. safe_writes.
  - unfold sv_contact_card_parse. safe_reads. safe_outputs. safe_writes.
  - unfold sv_handle_attest_verify. safe_reads. safe_outputs. safe_writes.
  - unfold sv_page_publish_verify. safe_reads. safe_outputs. safe_writes.
  - unfold sv_verify_signature. destruct msg_ptr; safe_reads; try done; safe_writes.
  - unfold sv_blake3. destruct msg_ptr; safe_reads; try done; safe_writes.
  - unfold sv_directory_entry_encode. safe_reads. safe_writes.
Qed.
End Defined.

(** ** A message sealed by one call is opened by another *)

Lemma ret_bind {A B} (a : A) (k : A -> F B) m : (mret a ≫= k) m = k a m.
Proof. done. Qed.
Lemma or_status_bind {A B} d (v : A) (k : A -> F B) m : (or_status d (Ok v) ≫= k) m = k v m.
Proof. done. Qed.

Lemma val_bind {A B} (f : F A) (k : A -> F B) m b m' :
  (f ≫= k) m = Val b m' <-> exists a m1, f m = Val a m1 /\ k a m1 = Val b m'.
Proof.
  unfold mbind, f_bind. destruct (f m) as [a m1|s m1|]; split; try done.
  - intros E. by exists a, m1.
  - by intros (a' & m2 & [= -> ->] & E).
  - by intros (a' & m2 & [=] & _).
  - by intros (a' & m2 & [=] & _).
Qed.

Lemma not_null_val ps msg m u m' : not_null ps msg m = Val u m' -> m' = m.
Proof. unfold not_null. case_match; [done|]. by intros [= _ ->]. Qed.

Lemma not_null_passes ps msg m : Forall (fun p => p <> Null) ps -> not_null ps msg m = Val tt m.
Proof.
  intros Hp. unfold not_null. assert (existsb is_null ps = false) as ->; [|done]. apply not_true_iff_false.
  intros (p & Hin%list_elem_of_In & Hn)%existsb_exists. rewrite Forall_forall in Hp. specialize (Hp p Hin). by destruct p.
Qed.

(** What a pointer and a length denote. *)
Definition denotes (p : Pointer) (n : N) (bs : bytes) (m : Memory) : Prop := read_bytes p n m = Val bs m.

Definition sized (o : Pointer) (n : N) (m : Memory) : Prop := exists k, o = At k /\ cells m !! k = Some (CSize n).

Lemma denotes_cells p n bs m m' : denotes p n bs m -> cells m' = cells m -> denotes p n bs m'.
Proof. unfold denotes, read_bytes. intros Hd E. rewrite E. repeat case_match; congruence. Qed.

(** A fresh buffer, and the cells that were there. *)
Lemma vec_denotes v m :
  exists p m', vec_to_ffi v m = Val (p, blen v) m' /\ denotes p (blen v) v m' /\
    (forall b c, cells m !! b = Some c -> cells m' !! b = Some c /\ p <> At b).
Proof.
  destruct v as [|x v]; [by exists Dangling, m|]. unfold vec_to_ffi.
  destruct (allocate (x :: v) m) as [p m'|s m'|] eqn:E; [|discriminate E..]. exists p, m'.
  rewrite (bind_val _ _ _ _ _ E). unfold allocate in E. set (b := fresh _) in E. injection E as <- <-.
  assert (b ∉ dom (cells m) ∪ owned m) as [Hb _]%not_elem_of_union by apply is_fresh. split; [done|]. split.
  - unfold denotes, read_bytes. cbn [cells]. rewrite lookup_insert_eq, N.leb_refl. unfold blen. by rewrite Nat2N.id, firstn_all.
  - intros k c Hk. assert (b <> k) as Hne by (intros ->; apply Hb, elem_of_dom; eauto).
    cbn [cells]. rewrite lookup_insert_ne by done. split; [done|]. congruence.
Qed.

(** A written cell, and those that were not. *)
Lemma write_done k c old m :
  cells m !! k = Some old -> same_type old c = true -> write (At k) c m = Val tt (with_cells (<[k := c]> (cells m)) m).
Proof. intros E Ht. unfold write. by rewrite E, Ht. Qed.

Lemma write_val p c u m m' :
  write p c m = Val u m' ->
  exists k old, p = At k /\ cells m !! k = Some old /\ same_type old c = true /\ m' = with_cells (<[k := c]> (cells m)) m.
Proof.
  unfold write. destruct p as [| |k]; [done..|]. destruct (cells m !! k) as [old|] eqn:E; [|done].
  destruct (same_type old c) eqn:Ht; [|done]. intros [= _ <-]. by exists k, old.
Qed.

Lemma denotes_written p n bs m k c old :
  denotes p n bs m -> cells m !! k = Some old -> same_type old c = true ->
  denotes p n bs (with_cells (<[k := c]> (cells m)) m).
Proof.
  unfold denotes, read_bytes. intros Hd E Ht. destruct p as [| |b]; [done|by destruct (n =? 0); simplify_eq|].
  cbn [cells with_cells]. destruct (decide (b = k)) as [->|Hne].
  - rewrite E in Hd. by destruct old, c.
  - rewrite lookup_insert_ne by done. repeat case_match; congruence.
Qed.

(** The buffer a call returns in [op] and [ol]. *)
Definition returned (op ol : Pointer) (bs : bytes) (m : Memory) : Prop :=
  exists p, holds op p m /\ sized ol (blen bs) m /\ denotes p (blen bs) bs m.

Lemma returned_cells op ol bs m m' : returned op ol bs m -> cells m' = cells m -> returned op ol bs m'.
Proof.
  intros (p & (k & -> & Hk) & (k2 & -> & Hk2) & Hd) E. exists p. split_and!; [exists k|exists k2|by eapply denotes_cells];
    by rewrite E.
Qed.

Definition return_buffer (bs : bytes) (op ol : Pointer) : F unit :=
  '(ptr, len) ← vec_to_ffi bs; _ ← write op (CPtr ptr); write ol (CSize len).

Lemma return_buffer_returned bs op ol u m m' : return_buffer bs op ol m = Val u m' -> returned op ol bs m'.
Proof.
  unfold return_buffer. destruct (vec_denotes bs m) as (p & m1 & E & Hd & _). rewrite (bind_val _ _ _ _ _ E).
  intros (u1 & m2 & W1 & W2)%val_bind. apply write_val in W1 as (k & old & -> & Ek & Ht & ->).
  apply write_val in W2 as (k' & old' & -> & Ek' & Ht' & ->). cbn [cells with_cells] in *.
  assert (k <> k') as Hne by (intros ->; rewrite lookup_insert_eq in Ek'; by injection Ek' as <-).
  exists p. split_and!.
  - exists k. cbn. by rewrite lookup_insert_ne, lookup_insert_eq.
  - exists k'. cbn. by rewrite lookup_insert_eq.
  - apply (denotes_written _ _ _ (with_cells _ _) _ _ old'); [|done..]. by eapply denotes_written.
Qed.

(** What a call that returned did not disturb. *)
Lemma write_bytes_val p bs u m m' :
  write_bytes p bs m = Val u m' ->
  exists k old, p = At k /\ cells m !! k = Some (CBytes old) /\ blen bs <= blen old /\
    m' = with_cells (<[k := CBytes (bs ++ drop (length bs) old)]> (cells m)) m.
Proof.
  unfold write_bytes. destruct p as [| |k]; [done..|]. destruct (cells m !! k) as [[old| | |]|] eqn:E; try done.
  destruct (N.leb_spec (blen bs) (blen old)); [|done]. intros [= _ <-]. by exists k, old.
Qed.

Lemma return_buffer_keeps bs op ol u m m' k b :
  return_buffer bs op ol m = Val u m' -> cells m !! k = Some (CBytes b) -> cells m' !! k = Some (CBytes b).
Proof.
  unfold return_buffer. destruct (vec_denotes bs m) as (p & m1 & E & _ & Hk). rewrite (bind_val _ _ _ _ _ E).
  intros (u1 & m2 & W1 & W2)%val_bind [Hb _]%Hk. apply write_val in W1 as (k1 & old & -> & Ek & Ht & ->).
  apply write_val in W2 as (k2 & old2 & -> & Ek' & Ht' & ->). cbn [cells with_cells] in *.
  assert (k <> k1) by (intros ->; rewrite Hb in Ek; by injection Ek as <-).
  rewrite lookup_insert_ne in Ek' by (intros ->; rewrite lookup_insert_eq in Ek'; by injection Ek' as <-).
  assert (k <> k2) by (intros ->; rewrite Hb in Ek'; by injection Ek' as <-).
  by rewrite !lookup_insert_ne.
Qed.

Lemma return_then bs op ol (k : F unit) m :
  ('(ptr, len) ← vec_to_ffi bs; _ ← write op (CPtr ptr); _ ← write ol (CSize len); k) m =
  (return_buffer bs op ol ≫= fun _ => k) m.
Proof.
  unfold return_buffer, mbind, f_bind. destruct (vec_to_ffi bs m) as [[p n] m1|s m1|]; [|done..].
  by destruct (write op (CPtr p) m1) as [u m2|s m2|].
Qed.

Lemma return_silent bs op ol : silent (return_buffer bs op ol).
Proof. unfold return_buffer. silent. Qed.

(** A computation that does not leave early, and what it returns. *)
Definition lands {A} (f : F A) (Q : A -> Memory -> Prop) (m : Memory) : Prop :=
  match f m with Val a m' => Q a m' | Ret _ _ => False | Ub => True end.

Section Messages.
Context `{CryptoLaws, !Ecies, !EciesLaws, !Bech32} (describe : Error.t -> string).

(** The wire a sealing call returns. *)
Lemma seal_returns sp rp tp n op ol nonce ts m m1 seed recipient txt :
  denotes sp SECRET_KEY_LEN seed m -> denotes rp PUBLIC_KEY_LEN recipient m -> denotes tp n txt m ->
  blen nonce = NONCE_LEN -> ts < u64_size ->
  sv_dm_seal_text describe sp rp tp n op ol (Ok nonce) (Ok ts) m = Val tt m1 ->
  exists s wire, utf8_valid txt = true /\ txt = as_bytes s /\ sealed_text seed recipient s wire /\ returned op ol wire m1.
Proof using.
  intros Hs Hr Ht Hn Hts Q. apply val_bind in Q as (u & m' & ->%not_null_val & Q).
  rewrite (bind_val _ _ _ _ _ Hs), (bind_val _ _ _ _ _ Hr), (bind_val _ _ _ _ _ Ht) in Q.
  unfold text_of in Q. destruct (from_utf8 txt) as [s|] eqn:Es; [|done]. apply from_utf8_Some in Es as [Hu ->]. exists s.
  apply val_bind in Q as (s' & m' & [= <- <-] & Q). apply val_bind in Q as (wire & m' & F & Q).
  unfold from_core in F. destruct (_ ≫= _) as [w|] eqn:E; [|done]. injection F as -> <-.
  cbn [mbind result_bind] in E. apply result_bind_ok in E as (ct & Hct & E).
  apply result_bind_ok in E as (e & He & [= <-]). exists (to_wire_bytes e). split_and!; [done..| |].
  - by exists nonce, ts, ct, e.
  - by eapply return_buffer_returned.
Qed.

(** The message it opens to. *)
Lemma open_returns rs p os op ol m rseed seed s wire e :
  Forall (fun p => p <> Null) [rs; p; os; op; ol] ->
  denotes rs SECRET_KEY_LEN rseed m -> denotes p (blen wire) wire m -> carries seed rseed s wire e ->
  lands (sv_dm_open_text describe rs p (blen wire) os op ol)
    (fun _ m' => denotes os PUBLIC_KEY_LEN (ed_public seed) m' /\ returned op ol (as_bytes s) m') m.
Proof using All.
  intros Hn Hs Hw [Hwire E1 E2 E3 Ho Hd]. unfold sv_dm_open_text, lands.
  rewrite (bind_val _ _ _ _ _ (not_null_passes _ _ _ Hn)), (bind_val _ _ _ _ _ Hs), (bind_val _ _ _ _ _ Hw), Hwire.
  rewrite or_status_bind, E1, E2, E3, N.eqb_refl, ret_bind, bool_decide_eq_true_2, ret_bind by done.
  rewrite Ho, or_status_bind, Hd, or_status_bind. cbn [DirectMessage.body text_message]. rewrite ret_bind.
  pose proof (ed_public_length seed) as Lk. revert Lk. generalize (ed_public seed) as pk. intros pk Lk.
  pose proof (write_bytes_silent os pk m) as Q. destruct (write_bytes os pk m) as [u m1|st m1|] eqn:W;
    [rewrite (bind_val _ _ _ _ _ W)|done|by rewrite (bind_ub _ _ _ W)].
  rewrite return_then. clear Q. pose proof (return_silent (as_bytes s) op ol m1) as Q.
  destruct (return_buffer _ op ol m1) as [u2 m2|st m2|] eqn:R; [|done|by rewrite (bind_ub _ _ _ R)].
  rewrite (bind_val _ _ _ _ _ R). split; [|by eapply returned_cells; [eapply return_buffer_returned|]].
  apply write_bytes_val in W as (k & old & -> & Ek & Hk & ->).
  eapply return_buffer_keeps in R; [|apply lookup_insert_eq].
  unfold denotes, read_bytes. cbn [cells with_error]. rewrite R. unfold blen in *.
  rewrite length_app, (proj2 (N.leb_le _ _)) by lia. by rewrite <-Lk, Nat2N.id, take_app_length.
Qed.

(** In a call within its contract. *)
Lemma ffi_opens seed rseed s wire m2 rs q os oq ol2 :
  sealed_text seed (ed_public rseed) s wire -> sendable s ->
  contract (DmOpenText rs q (blen wire) os oq ol2) m2 -> Forall (fun x => x <> Null) [rs; q; os; oq; ol2] ->
  denotes rs SECRET_KEY_LEN rseed m2 -> denotes q (blen wire) wire m2 ->
  exists m3, sv_dm_open_text describe rs q (blen wire) os oq ol2 m2 = Val tt m3 /\
    denotes os PUBLIC_KEY_LEN (ed_public seed) m3 /\ returned oq ol2 (as_bytes s) m3.
Proof using All.
  intros Hw Hs C Nn S2 W2. pose proof C as (_ & _ & [_ Hlen] & _).
  destruct (sealed_text_carried _ _ _ _ Hw Hs Hlen) as [e Hc].
  pose proof (call_safe describe (DmOpenText rs q (blen wire) os oq ol2) m2 C) as Sf.
  pose proof (open_returns rs q os oq ol2 m2 rseed seed s wire e Nn S2 W2 Hc) as O.
  cbn [call] in Sf. unfold safe in Sf. unfold lands in O.
  destruct (sv_dm_open_text _ _ _ _ _ _ _ m2) as [[] m3|st m3|]; [by exists m3|done..].
Qed.

End Messages.

(** ** Properties *)

(** C38: a call whose arguments are null or point to what its safety comment
    asks for is defined, whatever its inputs hold.  When it returns [Okay],
    every block it allocated is in an output it wrote; with any other status
    the memory is as it was, every block it allocated is released, and the
    error message is set. *)
Theorem ffi_call_spec `{CryptoLaws, !Ecies, !Bech32} (describe : Error.t -> string) c m (C : contract c m) :
  exists st m', status (call describe c) m = Some (st, m') /\
    match st with
    | SvStatus.Okay => handed_over (pointer_outputs c) m m'
    | _ => same_heap m m' /\ last_error m' <> None
    end.
Proof.
  pose proof (call_safe describe c m C) as S. pose proof (call_clean describe c m) as E.
  pose proof (call_hands_over describe c m (proj1 C)) as O. unfold status, safe, wp in *.
  destruct (call describe c m) as [u m'|st m'|]; [|destruct E as [Hne [Hs He]]|done].
  - by exists SvStatus.Okay, m'.
  - exists st, m'. split; [done|]. by destruct st.
Qed.

Lemma denotes_length p n bs m : denotes p n bs m -> blen bs = n.
Proof.
  unfold denotes, read_bytes. destruct p as [| |b]; [done| |].
  - destruct (N.eqb_spec n 0) as [->|]; [by intros [= <-]|done].
  - destruct (cells m !! b) as [[old| | |]|]; try done. destruct (N.leb_spec n (blen old)); [|done].
    intros [= <-]. unfold blen in *. rewrite length_take. lia.
Qed.

Lemma returned_unique op ol bs m p n wire :
  returned op ol bs m -> holds op p m -> sized ol n m -> denotes p n wire m -> wire = bs.
Proof.
  intros (p' & (k & -> & Hk) & (k2 & -> & Hk2) & Hd) (k' & [= <-] & Hp) (k2' & [= <-] & Hn).
  unfold denotes in *. congruence.
Qed.

(** What [sv_dm_seal_text] returns, wherever it is copied, opens with
    [sv_dm_open_text] and the recipient's seed to the same text and the public
    key of the sender. *)
Theorem ffi_dm_roundtrip `{CryptoLaws, !Ecies, !EciesLaws, !Bech32} (describe : Error.t -> string)
    sp rp tp n op ol nonce ts m m1 seed rseed txt p len wire m2 rs q os oq ol2
    (S : denotes sp SECRET_KEY_LEN seed m) (R : denotes rp PUBLIC_KEY_LEN (ed_public rseed) m)
    (T : denotes tp n txt m) (Tn : n <= isize_max) (N1 : blen nonce = NONCE_LEN) (T1 : ts < u64_size)
    (Q : sv_dm_seal_text describe sp rp tp n op ol (Ok nonce) (Ok ts) m = Val tt m1)
    (P : holds op p m1) (L : sized ol len m1) (W : denotes p len wire m1)
    (C : contract (DmOpenText rs q len os oq ol2) m2) (Nn : Forall (fun x => x <> Null) [rs; q; os; oq; ol2])
    (S2 : denotes rs SECRET_KEY_LEN rseed m2) (W2 : denotes q len wire m2) :
  exists m3, sv_dm_open_text describe rs q len os oq ol2 m2 = Val tt m3 /\
    denotes os PUBLIC_KEY_LEN (ed_public seed) m3 /\ returned oq ol2 txt m3.
Proof.
  destruct (seal_returns _ _ _ _ _ _ _ _ _ _ _ _ _ _ S R T N1 T1 Q) as (s & bs & Hu & -> & Hw & Hret).
  pose proof (returned_unique _ _ _ _ _ _ _ Hret P L W) as ->. pose proof (denotes_length _ _ _ _ W) as <-.
  pose proof (denotes_length _ _ _ _ T) as <-. by eapply ffi_opens; [exact Hw|split|..].
Qed.

(** A buffer the library returned is released by [sv_free_buffer], once. *)
Lemma buffer_freed v m p n m1 :
  vec_to_ffi v m = Val (p, n) m1 ->
  exists m2, sv_free_buffer p n m1 = Val tt m2 /\ same_heap m m2 /\ (v <> [] -> sv_free_buffer p n m2 = Ub).
Proof.
  destruct v as [|x v]; [by intros [= <- <- <-]; exists m|].
  assert (blen (x :: v) =? 0 = false) as Hz by by apply N.eqb_neq. unfold vec_to_ffi. revert Hz. generalize (x :: v) as bs.
  intros bs Hz. unfold allocate, mbind, f_bind, mret, f_ret. set (b := fresh _). intros [= <- <- <-].
  assert (b ∉ dom (cells m) ∪ owned m) as [Hb Ho]%not_elem_of_union by apply is_fresh. apply not_elem_of_dom in Hb.
  unfold sv_free_buffer, release. rewrite Hz. cbn [cells owned last_error]. rewrite lookup_insert_eq, N.eqb_refl.
  rewrite bool_decide_eq_true_2 by set_solver. eexists. split; [done|]. cbn [cells owned]. rewrite delete_insert_id by done.
  split; [split; [done|cbn; set_solver]|]. by rewrite Hb.
Qed.

(** ** Concrete instances *)

Module FfiExamples.
Import Toy ToyEcies AddressExamples.
Local Existing Instances toy toy_laws toy_ecies toy_ecies_laws toy_bech32.

Definition seed_a : bytes := replicate 32 Byte.x0a.
Definition seed_b : bytes := replicate 32 Byte.x0b.
Definition zeros : bytes := replicate 32 Byte.x00.

(** The blocks of a caller that writes to itself. *)
Definition mem0 : Memory := {|
  cells := list_to_map (imap (fun i c => (N.of_nat i, c))
    [CBytes seed_a; CBytes (ed_public seed_b); CBytes (as_bytes "hello"); CPtr Null; CSize 0;
     CBytes seed_b; CBytes zeros; CPtr Null; CSize 0]);
  owned := ∅;
  last_error := None
|}.

Definition describe (e : Error.t) : string := "core error".
Definition seal_call : Call := DmSealText (At 0) (At 1) (At 2) 5 (At 3) (At 4) (Ok (replicate 16 Byte.x07)) (Ok 100).

Definition sealed : Memory := match status (call describe seal_call) mem0 with Some (_, m) => m | None => mem0 end.
Definition wire_at : Pointer := match cells sealed !! 3 with Some (CPtr p) => p | _ => Null end.
Definition wire_len : N := match cells sealed !! 4 with Some (CSize n) => n | _ => 0 end.
Definition wire : bytes := match read_bytes wire_at wire_len sealed with Val w _ => w | _ => [] end.

Lemma ffi_call_spec_witness :
  exists st m', status (call describe seal_call) mem0 = Some (st, m') /\
    match st with
    | SvStatus.Okay => handed_over [At 3] mem0 m'
    | _ => same_heap mem0 m' /\ last_error m' <> None
    end.
Proof.
  apply (ffi_call_spec describe seal_call mem0). split; [apply NoDup_singleton|].
  repeat split; eexists; (split; [vm_compute; reflexivity|]); by vm_compute.
Defined.

Lemma ffi_dm_roundtrip_witness :
  exists m3, sv_dm_open_text describe (At 5) wire_at wire_len (At 6) (At 7) (At 8) sealed = Val tt m3 /\
    denotes (At 6) 32 (ed_public seed_a) m3 /\ returned (At 7) (At 8) (as_bytes "hello") m3.
Proof.
  apply (ffi_dm_roundtrip describe (At 0) (At 1) (At 2) 5 (At 3) (At 4) (replicate 16 Byte.x07) 100 mem0 sealed
    seed_a seed_b (as_bytes "hello") wire_at wire_len wire sealed (At 5) wire_at (At 6) (At 7) (At 8));
    try (vm_compute; reflexivity).
  - by vm_compute.
  - exists 3. split; vm_compute; reflexivity.
  - exists 4. split; vm_compute; reflexivity.
  - split; [apply NoDup_singleton|].
    repeat split; try (eexists; (split; [vm_compute; reflexivity|])); by vm_compute.
  - repeat (apply Forall_cons; split; [by vm_compute|]). by apply Forall_nil.
Defined.

End FfiExamples.
