(* ===== verification/Jni.v ===== *)
(** The JNI bridge ([src/mobile/android/sidevers-jni/src/lib.rs]): the core
    operations as Kotlin calls them.

    The [jni] crate is the class [JniEnv]: reading and building Java arrays and
    strings, each of which can fail with a message.  An export returns an
    object, or null with an exception pending.  The random source and the clock
    are arguments; [describe] is the text of a core error. *)

From stdpp Require Import pretty.
From S2P Require Import Prelude Utf8 Cbor CborCodec Keys Envelope Payload Direct Records Address DirectServer TextMessage.

Open Scope N_scope.

(** Of the [jni] crate. *)
Class JniEnv := {
  JByteArray : Type;
  JString : Type;
  convert_byte_array : JByteArray -> string + bytes;
  byte_array_from_slice : bytes -> string + JByteArray;
  get_string : JString -> string + string;
  new_string : string -> string + JString
}.

(** What is built is read back. *)
Class JniLaws `{JniEnv} : Prop := {
  convert_from_slice bs a : byte_array_from_slice bs = inr a -> convert_byte_array a = inr bs;
  get_new_string s js : new_string s = inr js -> get_string js = inr s
}.

(** What Kotlin sees: an object, an exception, or the end of the process, since
    a panic does not unwind out of an [extern "system"] function. *)
Inductive java (A : Type) := Returned (a : A) | Thrown (msg : string) | Aborted.
Arguments Returned {A} a.
Arguments Thrown {A} msg.
Arguments Aborted {A}.

(** [Result<_, String>] of the closures. *)
Definition R (A : Type) : Type := (string + A)%type.

Definition r_ret {A} (a : A) : R A := inr a.
Definition r_bind {A B} (r : R A) (k : A -> R B) : R B := match r with inl e => inl e | inr a => k a end.
Local Notation "x <- m ; k" := (r_bind m (fun x => k)) (at level 20, m at level 100, k at level 200, right associativity).

(** [throw_error], and null. *)
Definition or_throw {A} (r : R A) : java A := match r with inr a => Returned a | inl e => Thrown e end.

Section Bridge.
Context `{Crypto, Ecies, Bech32, JniEnv} (describe : Error.t -> string).

(** [.map_err(|e| e.to_string())] *)
Definition to_string {A} (r : result A) : R A := match r with Ok a => inr a | Err e => inl (describe e) end.

Definition seed_from_bytes (v : bytes) : R bytes :=
  if blen v =? SECRET_KEY_LEN then inr v
  else inl ("expected " +:+ pretty SECRET_KEY_LEN +:+ "-byte seed, got " +:+ pretty (blen v)).

Definition read_seed (a : JByteArray) : R bytes := v <- convert_byte_array a; seed_from_bytes v.

Definition nativeKeygenMaster (generated : result bytes) : java JByteArray :=
  or_throw (seed <- to_string generated; byte_array_from_slice seed).

Definition nativeDeriveSide (master_seed : JByteArray) (label : JString) : java JByteArray :=
  or_throw
    (seed <- read_seed master_seed;
     label <- get_string label;
     byte_array_from_slice (signing (derive_side {| master_seed := seed |} label))).

Definition nativePubkeyFromSeed (seed : JByteArray) : java JByteArray :=
  or_throw (seed <- read_seed seed; byte_array_from_slice (public_bytes (side_from_seed seed "(jni)"))).

Definition public_key_from (what : string) (a : JByteArray) : R bytes :=
  v <- convert_byte_array a;
  if blen v =? 32 then inr v else inl (what +:+ " must be 32 bytes, got " +:+ pretty (blen v)).

(** [kind] is a [jbyte]. *)
Definition address_kind (kind : Z) : R AddressKind.t :=
  if Z.eqb kind 0 then inr AddressKind.Side
  else if Z.eqb kind 1 then inr AddressKind.Verse
  else inl ("unknown address kind " +:+ pretty kind).

Definition nativeAddressEncode (pubkey : JByteArray) (kind : Z) : java JString :=
  match (v <- public_key_from "pubkey" pubkey; k <- address_kind kind; inr (Address.new k v)) with
  | inl e => Thrown e
  | inr a => match encode a with Some s => or_throw (new_string s) | None => Aborted end
  end.

Definition nativeSealDirectMessage (sender_seed recipient_pubkey : JByteArray) (txt : JString)
    (nonce : result bytes) (clock : result N) : java JByteArray :=
  or_throw
    (s <- read_seed sender_seed;
     r <- public_key_from "recipient pubkey" recipient_pubkey;
     txt <- get_string txt;
     nonce <- to_string nonce;
     ts <- to_string clock;
     ciphertext <- to_string
       (Payload.seal (DirectMessage.encode (text_message txt)) (side_from_seed s "(jni-dm-send)") r nonce []);
     env <- to_string
       (sign_with MT_DIRECT_MESSAGE (side_from_seed s "(jni-dm-send)") (Some r) ciphertext ts nonce);
     byte_array_from_slice (to_wire_bytes env)).

Definition nativeOpenDirectMessageText (recipient_seed wire : JByteArray) : java JString :=
  or_throw
    (r <- read_seed recipient_seed;
     wire <- convert_byte_array wire;
     env <- to_string (from_wire_bytes wire);
     let side := side_from_seed r "(jni-dm-recv)" in
     if negb (message_type env =? MT_DIRECT_MESSAGE) then inl "envelope is not a DirectMessage"
     else if negb (bool_decide (Envelope.to env = Some (public_bytes side))) then
       inl "envelope is not addressed to this side"
     else
       plain <- to_string (Payload.open (payload env) side (from env) (Envelope.nonce env) []);
       dm <- to_string (DirectMessage.decode plain);
       match DirectMessage.body dm with
       | DirectMessage.Text s => new_string s
       | DirectMessage.ReferenceBytes _ => inl "media DMs not supported in JNI yet"
       end).

(** [issued_at as u64], of a [jlong]. *)
Definition jlong_as_u64 (z : Z) : N := Z.to_N (z mod 2 ^ 64)%Z.

Definition nativeSignLinkage (side_a side_b : JByteArray) (issued_at : Z) (nonce : result bytes) : java JByteArray :=
  or_throw
    (a <- read_seed side_a;
     b <- read_seed side_b;
     proof <- to_string
       (nonce ← nonce;
        Linkage.sign_with (side_from_seed a "(jni-linkage-a)") (side_from_seed b "(jni-linkage-b)")
          (jlong_as_u64 issued_at) nonce);
     byte_array_from_slice (Linkage.to_wire_bytes proof)).

End Bridge.

(** ** Messages through the bridge *)

Lemma r_bind_ok {A B} (r : R A) (k : A -> R B) b : r_bind r k = inr b <-> exists a, r = inr a /\ k a = inr b.
Proof. destruct r as [e|a]; cbn; split; [done|by intros (a & [=] & _)|eauto|by intros (a' & [= ->] & ?)]. Qed.

Lemma or_throw_ok {A} (r : R A) a : or_throw r = Returned a <-> r = inr a.
Proof. destruct r; cbn; split; congruence. Qed.

Section Messages.
Context `{CryptoLaws, !Ecies, !EciesLaws, !Bech32, JniLaws} (describe : Error.t -> string).

Lemma to_string_ok {A} (r : result A) a : to_string describe r = inr a <-> r = Ok a.
Proof using. destruct r; cbn; split; congruence. Qed.

Lemma read_seed_ok a seed : read_seed a = inr seed <-> convert_byte_array a = inr seed /\ blen seed = SECRET_KEY_LEN.
Proof using.
  unfold read_seed, seed_from_bytes. rewrite r_bind_ok. split.
  - intros (v & Ha & Hv). destruct (N.eqb_spec (blen v) SECRET_KEY_LEN); [|done]. by injection Hv as <-.
  - intros [Ha Hl]. exists seed. by rewrite Hl, N.eqb_refl.
Qed.

Lemma public_key_ok what a v : public_key_from what a = inr v -> convert_byte_array a = inr v.
Proof using. unfold public_key_from. rewrite r_bind_ok. intros (u & Ha & Hv). case_match; [by injection Hv as <-|done]. Qed.

(** What [nativeSealDirectMessage] returns. *)
Lemma jni_seals sa ra ta nonce ts a :
  blen nonce = NONCE_LEN -> ts < u64_size ->
  nativeSealDirectMessage describe sa ra ta (Ok nonce) (Ok ts) = Returned a ->
  exists seed recipient s wire, convert_byte_array sa = inr seed /\ convert_byte_array ra = inr recipient /\
    get_string ta = inr s /\ convert_byte_array a = inr wire /\ sealed_text seed recipient s wire.
Proof using All.
  intros Hn Ht Q. unfold nativeSealDirectMessage in Q. rewrite or_throw_ok in Q.
  apply r_bind_ok in Q as (seed & [Hseed _]%read_seed_ok & Q). apply r_bind_ok in Q as (r & Hr%public_key_ok & Q).
  apply r_bind_ok in Q as (s & Hs & Q). cbn [r_bind to_string] in Q.
  apply r_bind_ok in Q as (ct & Hct%to_string_ok & Q). apply r_bind_ok in Q as (e & He%to_string_ok & Q).
  exists seed, r, s, (to_wire_bytes e). split_and!; [done..|by apply convert_from_slice|]. by exists nonce, ts, ct, e.
Qed.

(** What [nativeOpenDirectMessageText] makes of a sealed message. *)
Lemma jni_opens seed rseed s wire ra wa :
  sealed_text seed (ed_public rseed) s wire -> sendable s -> blen wire < u64_size ->
  convert_byte_array ra = inr rseed -> blen rseed = SECRET_KEY_LEN -> convert_byte_array wa = inr wire ->
  nativeOpenDirectMessageText describe ra wa = or_throw (new_string s).
Proof using All.
  intros Hw Hs Hl Hr Hrl Hwa. destruct (sealed_text_carried _ _ _ _ Hw Hs Hl) as [e [Hp E1 E2 E3 Ho Hd]].
  unfold nativeOpenDirectMessageText. rewrite (proj2 (read_seed_ok ra rseed) (conj Hr Hrl)), Hwa. cbn [r_bind].
  rewrite Hp. cbn [to_string r_bind]. rewrite E1, E2, E3, N.eqb_refl, bool_decide_eq_true_2 by done. cbn [negb].
  rewrite Ho. cbn [to_string r_bind]. by rewrite Hd.
Qed.

End Messages.

(** ** Times *)

(** The cast of a [jlong] keeps the times a clock gives, and sends a negative
    number to a time past 2^63. *)
Lemma jlong_as_u64_spec z :
  (- 2 ^ 63 <= z < 2 ^ 63)%Z ->
  jlong_as_u64 z < u64_size /\
  ((0 <= z)%Z -> Z.of_N (jlong_as_u64 z) = z) /\ ((z < 0)%Z -> 2 ^ 63 <= jlong_as_u64 z).
Proof.
  intros Hz. unfold jlong_as_u64, u64_size. split_and!.
  - pose proof (Z.mod_pos_bound z (2 ^ 64) eq_refl). lia.
  - intros H0. rewrite Z.mod_small by lia. lia.
  - intros H0. replace (z mod 2 ^ 64)%Z with (z + 2 ^ 64)%Z; [lia|]. apply (Z.mod_unique_pos _ _ (-1)); lia.
Qed.
