(* ===== verification/Machine.v ===== *)
(** What the command line and the desktop share of the machine they run on:
    files with their modes, what the operating system makes of a write or a
    [chmod], errors with their contexts, and programs: state passing with
    failure and panic. *)

From S2P Require Import Prelude Cbor Address.

Open Scope N_scope.

Record File := { content : bytes; mode : N }.

(** A write can be refused, or stop midway in a file it has truncated. *)
Inductive WriteOutcome := Written | Refused | Partial (n : nat).

Record System := {
  write_outcome : string -> WriteOutcome;
  chmod_works : string -> bool;
  new_mode : N;                              (* of a file that is created *)
  database_opens : string -> bool;
  store_opens : string -> bool
}.

Definition OWNER_RW : N := 0x180.            (* 0o600 *)

Section Files.
Context (sys : System).

(** [fs::write]: an existing file keeps its mode. *)
Definition put (path : string) (bs : bytes) (fs : gmap string File) : gmap string File :=
  <[path := {| content := bs; mode := match fs !! path with Some f => mode f | None => new_mode sys end |}]> fs.

Definition set_mode (path : string) (m : N) (fs : gmap string File) : gmap string File :=
  alter (fun f => {| content := content f; mode := m |}) path fs.

(** Whether the write succeeds, and the files after it. *)
Definition write (path : string) (bs : bytes) (fs : gmap string File) : bool * gmap string File :=
  match write_outcome sys path with
  | Written => (true, put path bs fs)
  | Refused => (false, fs)
  | Partial n => (false, put path (take n bs) fs)
  end.

End Files.

(** ** Errors and programs *)

Inductive Failure :=
| Anyhow (msg : string)                      (* [anyhow!], [bail!], a string *)
| FromCore (e : Error.t)
| FromSystem                                 (* an I/O or SQLite error *)
| FromNet                                    (* an error of the network layer *)
| FromHex
| Context (msg : string) (cause : Failure).

Inductive answer (A : Type) := Fine (a : A) | Failed (f : Failure) | Panicked.
Arguments Fine {A} a.
Arguments Failed {A} f.
Arguments Panicked {A}.

Definition Prog (W A : Type) : Type := W -> answer A * W.

#[export] Instance m_ret {W} : MRet (Prog W) := fun _ a w => (Fine a, w).
#[export] Instance m_bind {W} : MBind (Prog W) := fun _ _ k m w =>
  match m w with
  | (Fine a, w) => k a w
  | (Failed f, w) => (Failed f, w)
  | (Panicked, w) => (Panicked, w)
  end.

Section Programs.
Context {W : Type}.

Definition failed {A} (f : Failure) : Prog W A := fun w => (Failed f, w).
Definition bail {A} (msg : string) : Prog W A := failed (Anyhow msg).
Definition panicked {A} : Prog W A := fun w => (Panicked, w).

(** [.context(msg)] *)
Definition context {A} (msg : string) (m : Prog W A) : Prog W A := fun w =>
  match m w with (Failed f, w) => (Failed (Context msg f), w) | r => r end.

Definition core {A} (r : result A) : Prog W A := match r with Ok a => mret a | Err e => failed (FromCore e) end.

(** [.map_err(|e| anyhow!("msg: {e}"))] *)
Definition map_err {A} (msg : string) (r : result A) : Prog W A :=
  match r with Ok a => mret a | Err _ => bail msg end.

Definition or_else {A} (msg : string) (o : option A) : Prog W A :=
  match o with Some a => mret a | None => bail msg end.

(** A sum as a program, and a loop that collects. *)
Definition lift {A} (r : Failure + A) : Prog W A := match r with inr a => mret a | inl f => failed f end.

Definition each {A B} (f : A -> Prog W B) (l : list A) : Prog W (list B) :=
  foldr (fun a rest => b ← f a; bs ← rest; mret (b :: bs)) (mret []) l.

(** [Address::new(kind, key).encode()], which panics where bech32 fails. *)
Definition address `{Bech32} (k : AddressKind.t) (key : bytes) : Prog W string :=
  match encode (Address.new k key) with Some s => mret s | None => panicked end.

Lemma lift_fine {A} (r : Failure + A) w a w' : lift r w = (Fine a, w') <-> r = inr a /\ w' = w.
Proof. destruct r; cbn; split; try done; [by intros [[=] _]|by intros [= -> ->]|by intros [[= ->] ->]]. Qed.

Lemma address_fine `{Bech32} k key w s w' :
  address k key w = (Fine s, w') <-> encode (Address.new k key) = Some s /\ w' = w.
Proof.
  unfold address. destruct (encode _); cbn; split; try done; [by intros [= -> ->]|by intros [[= ->] ->]|by intros [[=] _]].
Qed.

Lemma fine_bind {A B} (m : Prog W A) (k : A -> Prog W B) w b w' :
  (m ≫= k) w = (Fine b, w') <-> exists a w1, m w = (Fine a, w1) /\ k a w1 = (Fine b, w').
Proof.
  unfold mbind, m_bind. destruct (m w) as [[a|f|] w1]; split; try done.
  - intros E. by exists a, w1.
  - by intros (a' & w2 & [= <- <-] & E).
  - by intros (a' & w2 & [=] & _).
  - by intros (a' & w2 & [=] & _).
Qed.

Lemma failed_bind {A B} (m : Prog W A) (k : A -> Prog W B) w f w' :
  (m ≫= k) w = (Failed f, w') <-> m w = (Failed f, w') \/ exists a w1, m w = (Fine a, w1) /\ k a w1 = (Failed f, w').
Proof. unfold mbind, m_bind. destruct (m w) as [[a|g|] w1]; naive_solver. Qed.

(** Steps of a run whose outcome is known. *)
Lemma prog_ret {A B} (a : A) (k : A -> Prog W B) w : (mret a ≫= k) w = k a w.
Proof. reflexivity. Qed.
Lemma bind_core {A B} (a : A) (k : A -> Prog W B) w : (core (Ok a) ≫= k) w = k a w.
Proof. reflexivity. Qed.
Lemma bind_core_err {A B} e (k : A -> Prog W B) w : (core (Err e) ≫= k) w = (Failed (FromCore e), w).
Proof. reflexivity. Qed.
Lemma bind_lift {A B} (a : A) (k : A -> Prog W B) w : (lift (inr a) ≫= k) w = k a w.
Proof. reflexivity. Qed.
Lemma bind_some {A B} msg (a : A) (k : A -> Prog W B) w : (or_else msg (Some a) ≫= k) w = k a w.
Proof. reflexivity. Qed.
Lemma bind_map_err {A B} msg (a : A) (k : A -> Prog W B) w : (map_err msg (Ok a) ≫= k) w = k a w.
Proof. reflexivity. Qed.
Lemma bind_assoc {A B C} (m : Prog W A) (k : A -> Prog W B) (k' : B -> Prog W C) w :
  ((m ≫= k) ≫= k') w = (m ≫= fun a => k a ≫= k') w.
Proof. unfold mbind, m_bind. by destruct (m w) as [[]]. Qed.

Lemma core_fine {A} (r : result A) w a w' : core r w = (Fine a, w') <-> r = Ok a /\ w' = w.
Proof. destruct r; cbn; split; try done; [by intros [= -> ->]|by intros [[= ->] ->]|by intros [[=] _]]. Qed.
Lemma map_err_fine {A} msg (r : result A) w a w' : map_err msg r w = (Fine a, w') <-> r = Ok a /\ w' = w.
Proof. destruct r; cbn; split; try done; [by intros [= -> ->]|by intros [[= ->] ->]|by intros [[=] _]]. Qed.
Lemma or_else_fine {A} msg (o : option A) w a w' : or_else msg o w = (Fine a, w') <-> o = Some a /\ w' = w.
Proof. destruct o; cbn; split; try done; [by intros [= -> ->]|by intros [[= ->] ->]|by intros [[=] _]]. Qed.

End Programs.

Create HintDb prog.
#[export] Hint Rewrite @prog_ret @bind_core @bind_core_err @bind_lift @bind_some @bind_map_err : prog.
