(* ===== verification/Cli.v ===== *)
(** The command line client ([sidevers-cli/src/cli.rs]) and the seed files of
    the daemon ([sidevers-node/src/main.rs]).

    A command is a program over the files, the databases and the object
    stores of the machine, and the lines it prints.  A printed line is its
    format literal and its arguments, an error the literals of its contexts
    around its cause.  The random source and the clock are arguments; what the
    operating system does with a write or a [chmod] is a function of the path.
    The commands that run a transient node ([dm send], [store get], [ping],
    [side retire]) are in [CliNode]. *)

From S2P Require Import Prelude Utf8 Cbor Keys Envelope Payload Direct Records Address Keystore SideStore Storage DirectServer TextMessage Str Machine.

Open Scope N_scope.

(** ** The machine *)

Inductive Arg := AText (s : string) | ADebug (s : string) | AHex (bs : bytes) | ANum (n : N) | AHexByte (n : N).

Record Line := { format : string; args : list Arg }.

Record World := {
  files : gmap string File;
  databases : gmap string Tables;            (* [sides.db], by data directory *)
  stores : gmap string Objects.Store;                (* the object stores *)
  stdout : list Line;
  stderr : list Line;
  updates : list (option string)             (* self-updates run, with their pinned tags *)
}.

Definition with_files x w := Build_World x (databases w) (stores w) (stdout w) (stderr w) (updates w).
Definition with_databases x w := Build_World (files w) x (stores w) (stdout w) (stderr w) (updates w).
Definition with_stores x w := Build_World (files w) (databases w) x (stdout w) (stderr w) (updates w).
Definition with_stdout x w := Build_World (files w) (databases w) (stores w) x (stderr w) (updates w).
Definition with_stderr x w := Build_World (files w) (databases w) (stores w) (stdout w) x (updates w).
Definition with_updates x w := Build_World (files w) (databases w) (stores w) (stdout w) (stderr w) x.

(** ** Programs *)

Abbreviation M := (Prog World).

Definition println (fmt : string) (a : list Arg) : M unit := fun w =>
  (Fine tt, with_stdout (stdout w ++ [{| format := fmt; args := a |}]) w).
Definition eprintln (fmt : string) (a : list Arg) : M unit := fun w =>
  (Fine tt, with_stderr (stderr w ++ [{| format := fmt; args := a |}]) w).

Definition read_file (path : string) : M bytes := fun w =>
  match files w !! path with Some f => (Fine (content f), w) | None => (Failed FromSystem, w) end.

(** ** Parsing a message type *)

Definition digit_of (radix : N) (b : byte) : option N :=
  let n := Byte.to_N b in
  let d := if (48 <=? n) && (n <=? 57) then Some (n - 48)
           else if (97 <=? n) && (n <=? 122) then Some (n - 87)
           else if (65 <=? n) && (n <=? 90) then Some (n - 55) else None in
  d ← d; if d <? radix then Some d else None.

(** [u8::from_str_radix]: a leading [+] is allowed, a [-] is not a digit. *)
Definition from_str_radix (radix : N) (bs : bytes) : option N :=
  let digits := match bs with b :: (_ :: _) as rest => if Byte.eqb b Byte.x2b then rest else bs | _ => bs end in
  match digits with
  | [] => None
  | _ =>
    fold_left (fun acc b =>
      n ← acc; d ← digit_of radix b;
      let n := n * radix + d in if n <=? u8_max then Some n else None) digits (Some 0)
  end.

Definition parse_message_type (s : string) : option N :=
  let bs := trim (as_bytes s) in
  let rest := match strip (as_bytes "0x") bs with Some r => Some r | None => strip (as_bytes "0X") bs end in
  match rest with Some r => from_str_radix 16 r | None => from_str_radix 10 bs end.

(** ** The commands *)

Inductive KeygenCmd := Master (out : string) | Side (master label out : string).

Record AddrArgs := { kind : string; addr_seed : option string; pubkey_hex : option string }.

Record EnvelopeSignArgs := {
  side : string; to : option string; text : option string; payload_file : option string;
  message_type : option N; out : string
}.

Inductive EnvelopeCmd := Sign (a : EnvelopeSignArgs) | Verify (file : string) | Decode (file : string) (side : option string).

Inductive LinkageCmd := SignLinkage (side_a side_b : string) (issued_at : option N) (out : string) | VerifyLinkage (file : string).

Inductive SideCmd := Add (data_dir label : string) | ListSides (data_dir : string).

Record SelfUpdateArgs := { check : bool; version : option string; yes : bool }.

Inductive Command :=
| Keygen (c : KeygenCmd)
| Addr (a : AddrArgs)
| Envelope_ (c : EnvelopeCmd)
| Linkage_ (c : LinkageCmd)
| StorePut (side data_dir file : string)
| Side_ (c : SideCmd)
| SelfUpdate (a : SelfUpdateArgs).

(** What [clap] accepts: the attributes [conflicts_with], [conflicts_with_all],
    [requires] and [required_unless_present], and the parsed byte. *)
Definition accepted (c : Command) : bool :=
  match c with
  | Addr a => bool_decide (is_Some (addr_seed a)) && negb (bool_decide (is_Some (pubkey_hex a)))
              || negb (bool_decide (is_Some (addr_seed a))) && bool_decide (is_Some (pubkey_hex a))
  | Envelope_ (Sign a) =>
    negb (bool_decide (is_Some (text a)) && (bool_decide (is_Some (payload_file a)) || bool_decide (is_Some (message_type a))))
    && (negb (bool_decide (is_Some (payload_file a))) || bool_decide (is_Some (message_type a)))
    && match message_type a with Some n => n <=? u8_max | None => true end
  | _ => true
  end.

(** ** Self-update: the comparison and the decision *)

Module VersionRelation.
Inductive t := Same | Ahead | Behind.
End VersionRelation.

(** The [semver] crate. *)
Class Semver := {
  Version : Type;
  version_parse : string -> option Version;
  version_cmp : Version -> Version -> comparison
}.

(** [trim_start_matches('v')] *)
Definition trim_start_v (s : string) : string :=
  of_bytes (trim_start [[Byte.x76]] (length (as_bytes s)) (as_bytes s)).

Definition self_update_compare `{Semver} (local remote : string) : VersionRelation.t :=
  match version_parse (trim_start_v local), version_parse (trim_start_v remote) with
  | Some l, Some r =>
    match version_cmp l r with
    | Lt => VersionRelation.Behind | Eq => VersionRelation.Same | Gt => VersionRelation.Ahead
    end
  | _, _ => if String.eqb local remote then VersionRelation.Same else VersionRelation.Behind
  end.

(** [CARGO_PKG_VERSION] *)
Definition CURRENT : string := "0.1.3".

Section Update.
Context `{Semver}.

(** [target] is the platform label, [latest] the answer of the release list,
    [applied] the version an update installs. *)
Definition self_update_run (target latest applied : option string) (a : SelfUpdateArgs) : M unit :=
  match target with
  | None => bail "self-update has no prebuilt artefact for this target; build from source"
  | Some target =>
    _ ← eprintln "sidevers self-update · target={target} · current=v{current} · repo={}/{}" [AText target; AText CURRENT];
    match latest with
    | None => failed FromSystem
    | Some latest =>
      let relation := self_update_compare CURRENT latest in
      if check a then
        match relation with
        | VersionRelation.Same => println "up-to-date · running v{current}" [AText CURRENT]
        | VersionRelation.Ahead => println "ahead of latest · running v{current} (latest release is v{})" [AText CURRENT; AText latest]
        | VersionRelation.Behind => println "update available · v{current} → v{}" [AText CURRENT; AText latest]
        end
      else
        let update :=
          _ ← (fun w => (Fine tt, with_updates (updates w ++ [version a]) w));
          match applied with
          | Some v => println "updated to v{}" [AText v]
          | None => failed (Context "self-update failed" FromSystem)
          end in
        match relation, version a with
        | VersionRelation.Same, None => println "already on v{current}; nothing to do" [AText CURRENT]
        | VersionRelation.Ahead, None =>
          println "running v{current}, latest release is v{} — refusing to downgrade. Pass --version v{} to override."
            [AText CURRENT; AText latest; AText latest]
        | _, _ => update
        end
    end
  end.

End Update.

(** ** Seed files of the daemon *)

(** [parse_seed_bytes]: the warning it prints is dropped. *)
Definition parse_seed_bytes `{Ecies, Keystore.Kdf} (raw : bytes) (passphrase : option string) : Failure + bytes :=
  if blen raw =? SECRET_KEY_LEN then inr raw
  else
    match passphrase with
    | None => inl (Anyhow "{} is not a plaintext seed (length {}); set {ENV_SEED_PASSPHRASE} to open it")
    | Some pw =>
      if String.eqb pw "" then inl (Anyhow "{ENV_SEED_PASSPHRASE} is empty")
      else match Keystore.open_seed raw pw with
           | Ok seed => inr seed
           | Err _ => inl (Anyhow "opening sealed seed {}: {e}")
           end
    end.

(** ** The commands, as programs *)

Section Commands.
Context `{Crypto, Ecies, Bech32, Semver} (sys : System) (hex_decode : string -> option bytes).

(** [fs::write] *)
Definition write_file (path : string) (bs : bytes) : M unit := fun w =>
  let '(ok, fs) := Machine.write sys path bs (files w) in
  ((if ok then Fine tt else Failed FromSystem), with_files fs w).

(** [set_owner_read_write_only(path).ok()], on Unix. *)
Definition set_owner_read_write_only (path : string) : M unit := fun w =>
  (Fine tt, if chmod_works sys path then with_files (set_mode path OWNER_RW (files w)) w else w).

Definition write_secret (path : string) (bs : bytes) : M unit :=
  _ ← context "writing {}" (write_file path bs);
  set_owner_read_write_only path.

Definition read_seed (path : string) : M bytes :=
  raw ← context "reading {}" (read_file path);
  if blen raw =? SECRET_KEY_LEN then mret raw else bail "{} is {} bytes, expected {SECRET_KEY_LEN}".

(** [keygen] *)
Definition keygen_master (generated : result bytes) (out : string) : M unit :=
  seed ← context "generating master key" (core generated);
  _ ← write_secret out seed;
  addr ← address AddressKind.Side (ed_public seed);
  _ ← eprintln "wrote master seed to {}" [AText out];
  _ ← eprintln "master public address (note: master is not used on wire):" [];
  println "{addr}" [AText addr].

Definition keygen_side (master label out : string) : M unit :=
  seed ← context "reading master seed" (read_seed master);
  let side := derive_side {| master_seed := seed |} label in
  _ ← write_secret out (signing side);
  addr ← address AddressKind.Side (public_bytes side);
  _ ← eprintln "derived side '{label}' to {}" [AText label; AText out];
  println "{addr}" [AText addr].

(** [addr] *)
Definition addr_show (a : AddrArgs) : M unit :=
  k ← (if String.eqb (kind a) "side" then mret AddressKind.Side
       else if String.eqb (kind a) "verse" then mret AddressKind.Verse
       else bail "unknown address kind: {other}");
  key ← match addr_seed a, pubkey_hex a with
        | Some path, _ => seed ← read_seed path; mret (public_bytes (side_from_seed seed "(cli)"))
        | None, Some h =>
          raw ← context "decoding --pubkey hex"
                  (match hex_decode h with Some raw => mret raw | None => failed FromHex end);
          if blen raw =? PUBLIC_KEY_LEN then mret raw
          else bail "expected {PUBLIC_KEY_LEN}-byte public key, got {} bytes"
        | None, None => panicked
        end;
  s ← address k key;
  println "{}" [AText s].

(** [envelope] *)
Definition recipient_of (to : option string) : M (option bytes) :=
  match to with
  | None => mret None
  | Some s =>
    a ← map_err "--to: {e}" (Address.parse s);
    if bool_decide (Address.kind a = AddressKind.Side) then mret (Some (Address.key a))
    else bail "--to must be a side address (sv1q…), got kind {:?}"
  end.

Definition payload_of (a : EnvelopeSignArgs) : M (N * bytes) :=
  match text a with
  | Some s => mret (MT_DIRECT_MESSAGE, DirectMessage.encode (text_message s))
  | None =>
    mt ← match message_type a with
         | Some n => mret n
         | None => bail "either --text or --message-type must be supplied"
         end;
    path ← match payload_file a with
           | Some p => mret p
           | None => bail "--message-type requires --payload-file"
           end;
    bs ← context "reading payload file {}" (read_file path);
    mret (mt, bs)
  end.

Definition envelope_sign (nonce : result bytes) (clock : result N) (a : EnvelopeSignArgs) : M unit :=
  seed ← read_seed (side a);
  let key := side_from_seed seed "(cli)" in
  recipient ← recipient_of (to a);
  '(mt, plain) ← payload_of a;
  nonce ← core nonce;
  ts ← core clock;
  payload ← match recipient with
            | Some r => map_err "payload seal failed: {e}" (Payload.seal plain key r nonce [])
            | None => mret plain
            end;
  env ← map_err "envelope sign failed: {e}" (sign_with mt key recipient payload ts nonce);
  _ ← context "writing envelope to {}" (write_file (out a) (to_wire_bytes env));
  eprintln "wrote {} byte envelope (type 0x{:02X}{}) to {}"
    [ANum (blen (to_wire_bytes env)); AHexByte (Envelope.message_type env);
     AText (match recipient with Some _ => " unicast, encrypted" | None => " broadcast, plaintext" end); AText (out a)].

Definition address_line (fmt : string) (key : bytes) : M unit :=
  s ← address AddressKind.Side key; println fmt [AText s].

Definition envelope_verify (clock : result N) (file : string) : M unit :=
  bs ← context "reading envelope from {}" (read_file file);
  env ← map_err "verify failed: {e}" (from_wire_bytes bs);
  now ← core clock;
  let fresh := match check_freshness env now DEFAULT_MAX_SKEW_SECS with Ok _ => true | Err _ => false end in
  _ ← println "OK  envelope verified" [];
  _ ← println "    type:      0x{:02X}" [AHexByte (Envelope.message_type env)];
  _ ← address_line "    from:      {}" (from env);
  _ ← match Envelope.to env with
      | Some r => address_line "    to:        {}" r
      | None => println "    to:        (broadcast)" []
      end;
  _ ← println "    timestamp: {} ({})" [ANum (timestamp env); AText (if fresh then "fresh" else "STALE/SKEWED")];
  println "    payload:   {} bytes" [ANum (blen (payload env))].

Definition try_pretty_direct_message (bs : bytes) : M unit :=
  match DirectMessage.decode bs with
  | Ok p =>
    _ ← println "    DirectMessage:" [];
    _ ← println "      kind: {}" [AText (DirectKind.as_str (DirectMessage.kind p))];
    _ ← match DirectMessage.body p with
        | DirectMessage.Text s => println "      body: {s:?}" [ADebug s]
        | DirectMessage.ReferenceBytes _ => println "      body: (Reference - decode in Month 3)" []
        end;
    _ ← match DirectMessage.reply_to p with Some r => println "      reply_to: {}" [AHex r] | None => mret tt end;
    match DirectMessage.thread p with Some t => println "      thread:   {}" [AHex t] | None => mret tt end
  | Err _ => println "    (not a DirectMessage payload; raw hex follows)\n    {}" [AHex bs]
  end.

Definition print_payload_attempt (env : Envelope) : M unit :=
  if Envelope.message_type env =? MT_DIRECT_MESSAGE then try_pretty_direct_message (payload env)
  else println "    {}" [AHex (payload env)].

Definition envelope_decode (file : string) (side_path : option string) : M unit :=
  bs ← context "reading envelope from {}" (read_file file);
  env ← map_err "verify failed: {e}" (from_wire_bytes bs);
  _ ← println "envelope (verified):" [];
  _ ← println "  v:    {}" [ANum (Envelope.version env)];
  _ ← println "  t:    0x{:02X}" [AHexByte (Envelope.message_type env)];
  _ ← address_line "  from: {}" (from env);
  _ ← match Envelope.to env with
      | Some r => address_line "  to:   {}" r
      | None => println "  to:   (broadcast)" []
      end;
  _ ← println "  ts:   {}" [ANum (timestamp env)];
  _ ← println "  nonce:{}" [AHex (Envelope.nonce env)];
  _ ← println "  sig:  {}" [AHex (sig env)];
  _ ← println "  payload ({} bytes):" [ANum (blen (payload env))];
  match side_path, Envelope.to env with
  | Some path, Some r =>
    seed ← read_seed path;
    let key := side_from_seed seed "(cli)" in
    if bool_decide (public_bytes key = r) then
      plain ← map_err "decrypt failed: {e}" (Payload.open (payload env) key (from env) (Envelope.nonce env) []);
      _ ← println "    decrypted ({} bytes):" [ANum (blen plain)];
      try_pretty_direct_message plain
    else println "    (provided side is not the recipient; cannot decrypt)" []
  | Some _, None =>
    _ ← println "    (broadcast payload, no decryption needed; raw bytes below)" [];
    print_payload_attempt env
  | None, None => print_payload_attempt env
  | None, Some _ => println "    (unicast/encrypted; supply --side to decrypt)" []
  end.

(** [linkage] *)
Definition linkage_sign (nonce : result bytes) (clock : result N) (side_a side_b : string) (issued_at : option N)
    (out : string) : M unit :=
  a ← read_seed side_a;
  b ← read_seed side_b;
  ts ← match issued_at with Some t => mret t | None => core clock end;
  proof ← map_err "linkage sign: {e}"
            (nonce ← nonce; Linkage.sign_with (side_from_seed a "(cli a)") (side_from_seed b "(cli b)") ts nonce);
  _ ← context "writing linkage proof to {}" (write_file out (Linkage.to_wire_bytes proof));
  _ ← eprintln "wrote linkage proof to {}" [AText out];
  _ ← address_line "side_a: {}" (Linkage.side_a proof);
  address_line "side_b: {}" (Linkage.side_b proof).

Definition linkage_verify (file : string) : M unit :=
  bs ← context "reading linkage proof from {}" (read_file file);
  proof ← map_err "verify failed: {e}" (Linkage.from_wire_bytes bs);
  _ ← println "OK  linkage proof verified" [];
  _ ← address_line "    side_a:    {}" (Linkage.side_a proof);
  _ ← address_line "    side_b:    {}" (Linkage.side_b proof);
  println "    issued_at: {}" [ANum (Linkage.issued_at proof)].

(** [store put] *)
Definition put_object (clock : N) (data_dir : string) (bs : bytes) : M bytes := fun w =>
  if store_opens sys data_dir then
    let '(h, s) := Objects.put bs clock (default Objects.open (stores w !! data_dir)) in
    (Fine h, with_stores (<[data_dir := s]> (stores w)) w)
  else (Failed FromSystem, w).

Definition store_put (clock : N) (side data_dir file : string) : M unit :=
  _ ← read_seed side;
  bs ← context "reading {}" (read_file file);
  h ← put_object clock data_dir bs;
  println "{}" [AHex h].

(** [side add] and [side list]: an opened database exists afterwards. *)
Definition open_database (data_dir : string) : M Tables := fun w =>
  if database_opens sys data_dir
  then let t := default empty_tables (databases w !! data_dir) in
       (Fine t, with_databases (<[data_dir := t]> (databases w)) w)
  else (Failed FromSystem, w).

Definition save_database (data_dir : string) (t : Tables) : M unit := fun w =>
  (Fine tt, with_databases (<[data_dir := t]> (databases w)) w).

Definition side_add (generated : result bytes) (clock : result N) (data_dir label : string) : M unit :=
  t ← open_database data_dir;
  master ← context "generating master key" (core generated);
  let key := derive_side {| master_seed := master |} label in
  now ← context "clock" (core clock);
  _ ← save_database data_dir (SideStore.upsert_side
        {| stored_address := public_bytes key; seed := signing key; SideStore.label := Some label; created_at := now;
           lifecycle := "Created"; last_send_at := None; is_self_retired := false |} t);
  s ← address AddressKind.Side (public_bytes key);
  _ ← println "{}" [AText s];
  eprintln "added side {label:?} → {} (lifecycle Created)" [ADebug label; AHex (public_bytes key)].

Definition side_row (s : StoredSide) : M unit :=
  a ← address AddressKind.Side (stored_address s);
  println "{}\t{}\t{}\t{}" [AText (default "(none)" (SideStore.label s)); AText a; AText (lifecycle s);
                            AText (if is_self_retired s then "yes" else "no")].

Definition side_list (data_dir : string) : M unit :=
  t ← open_database data_dir;
  match SideStore.list_sides t with
  | [] => eprintln "no sides hosted in {}" [AText data_dir]
  | sides =>
    _ ← println "LABEL\tADDRESS\tLIFECYCLE\tRETIRED" [];
    foldr (fun s rest => _ ← side_row s; rest) (mret tt) sides
  end.

(** What a run draws from the system. *)
Record Inputs := {
  generated : result bytes;
  random_nonce : result bytes;
  clock : result N;
  target : option string;
  latest : option string;
  applied : option string
}.

Definition run (i : Inputs) (c : Command) : M unit :=
  match c with
  | Keygen (Master out) => keygen_master (generated i) out
  | Keygen (Side master label out) => keygen_side master label out
  | Addr a => addr_show a
  | Envelope_ (Sign a) => envelope_sign (random_nonce i) (clock i) a
  | Envelope_ (Verify file) => envelope_verify (clock i) file
  | Envelope_ (Decode file side) => envelope_decode file side
  | Linkage_ (SignLinkage a b t out) => linkage_sign (random_nonce i) (clock i) a b t out
  | Linkage_ (VerifyLinkage file) => linkage_verify file
  | StorePut side data_dir file => store_put (match clock i with Ok n => n | Err _ => 0 end) side data_dir file
  | Side_ (Add data_dir label) => side_add (generated i) (clock i) data_dir label
  | Side_ (ListSides data_dir) => side_list data_dir
  | SelfUpdate a => self_update_run (target i) (latest i) (applied i) a
  end.

End Commands.
