(* ===== verification/CliFacts.v ===== *)
(** Theorems about the command line: a command that fails leaves the machine's
    data as it was, none panics, secrets are written for their owner only, an
    update never downgrades unasked, and message types and seed files parse
    back from what prints and seals them. *)

From S2P Require Import Prelude Utf8 Cbor CborCodec Keys Envelope Payload Direct Records Address Keystore SideStore Storage NodeFacts DirectServer TextMessage Str Machine Cli.

Open Scope N_scope.

(** ** Judgements on commands *)

(** The files, objects and rows, an absent database being an empty one. *)
Definition rows_of (w : World) (d : string) : Tables := default empty_tables (databases w !! d).

Record same_data (w w' : World) : Prop := {
  sd_files : files w' = files w;
  sd_stores : stores w' = stores w;
  sd_rows : forall d, rows_of w' d = rows_of w d
}.

#[export] Instance same_data_preorder : PreOrder same_data.
Proof. split; [done|]. intros w1 w2 w3 [] []. split; [congruence..|]. intros d. congruence. Qed.

(** Files are smaller than the address space, and addresses 32 bytes long. *)
Record sound (w : World) : Prop := {
  so_files : forall p f, files w !! p = Some f -> blen (content f) < u64_size;
  so_sides : forall d a r, t_sides (rows_of w d) !! a = Some r -> blen a = PUBLIC_KEY_LEN
}.

Lemma sound_same w w' : same_data w w' -> sound w -> sound w'.
Proof.
  intros [Ef _ Er] [Hf Hs]. split.
  - intros p f. rewrite Ef. apply Hf.
  - intros d a r. rewrite Er. apply Hs.
Qed.

(** A computation that changes no data, does not panic and returns a [P]. *)
Definition quiet {A} (m : M A) (P : A -> Prop) : Prop :=
  forall w, sound w ->
    match m w with
    | (Fine a, w') => same_data w w' /\ P a
    | (Failed _, w') => same_data w w'
    | (Panicked, _) => False
    end.

(** One that changes data only if it succeeds. *)
Definition atomic {A} (m : M A) : Prop :=
  forall w, sound w ->
    match m w with (Fine _, _) => True | (Failed _, w') => same_data w w' | (Panicked, _) => False end.

(** One that always succeeds. *)
Definition total {A} (m : M A) : Prop := forall w, exists a w', m w = (Fine a, w').

Lemma bind_quiet {A B} (m : M A) (k : A -> M B) P Q :
  quiet m P -> (forall a, P a -> quiet (k a) Q) -> quiet (m ≫= k) Q.
Proof.
  intros Hm Hk w Hw. specialize (Hm w Hw). unfold mbind, m_bind. destruct (m w) as [[a|f|] w']; [|done..].
  destruct Hm as [Hs Hp]. specialize (Hk a Hp w' (sound_same _ _ Hs Hw)).
  destruct (k a w') as [[b|f|] w2]; [|by etrans|done]. destruct Hk as [Hs' Hq]. split; [by etrans|done].
Qed.

Lemma quiet_weaken {A} (m : M A) (P Q : A -> Prop) : quiet m P -> (forall a, P a -> Q a) -> quiet m Q.
Proof. intros Hm Hpq w Hw. specialize (Hm w Hw). destruct (m w) as [[a|f|] w']; [|done..]. destruct Hm. split; [done|by apply Hpq]. Qed.

Lemma atomic_quiet {A} (m : M A) P : quiet m P -> atomic m.
Proof. intros Hm w Hw. specialize (Hm w Hw). by destruct (m w) as [[a|f|] w']. Qed.

Lemma atomic_total {A} (m : M A) : total m -> atomic m.
Proof. intros Hm w Hw. by destruct (Hm w) as (a & w' & ->). Qed.

Lemma atomic_bind {A B} (m : M A) (k : A -> M B) P :
  quiet m P -> (forall a, P a -> atomic (k a)) -> atomic (m ≫= k).
Proof.
  intros Hm Hk w Hw. specialize (Hm w Hw). unfold mbind, m_bind. destruct (m w) as [[a|f|] w']; [|done..].
  destruct Hm as [Hs Hp]. specialize (Hk a Hp w' (sound_same _ _ Hs Hw)).
  destruct (k a w') as [[b|f|] w2]; [done|by etrans|done].
Qed.

(** What follows the change always succeeds. *)
Lemma atomic_then {A B} (m : M A) (k : A -> M B) : atomic m -> (forall a, total (k a)) -> atomic (m ≫= k).
Proof.
  intros Hm Hk w Hw. specialize (Hm w Hw). unfold mbind, m_bind. destruct (m w) as [[a|f|] w']; [|done..].
  by destruct (Hk a w') as (b & w2 & ->).
Qed.

Lemma total_bind {A B} (m : M A) (k : A -> M B) : total m -> (forall a, total (k a)) -> total (m ≫= k).
Proof. intros Hm Hk w. destruct (Hm w) as (a & w1 & E). unfold mbind, m_bind. rewrite E. apply Hk. Qed.

(** ** The primitives *)

Definition any {A} (a : A) : Prop := True.

Create HintDb cli.

Lemma quiet_ret {A} (a : A) (P : A -> Prop) : P a -> quiet (mret a) P.
Proof. by intros Hp w Hw. Qed.
Lemma bail_quiet {A} msg (P : A -> Prop) : quiet (bail msg) P.
Proof. by intros w Hw. Qed.
Lemma failed_quiet {A} f (P : A -> Prop) : quiet (failed f) P.
Proof. by intros w Hw. Qed.
Lemma println_quiet f a : quiet (println f a) any.
Proof. intros w Hw. by split. Qed.
Lemma eprintln_quiet f a : quiet (eprintln f a) any.
Proof. intros w Hw. by split. Qed.
Lemma context_quiet {A} msg (m : M A) P : quiet m P -> quiet (context msg m) P.
Proof. intros Hm w Hw. specialize (Hm w Hw). unfold context. by destruct (m w) as [[a|f|] w']. Qed.
Lemma core_quiet {A} (r : result A) : quiet (core r) (fun a => r = Ok a).
Proof. intros w Hw. by destruct r. Qed.
Lemma map_err_quiet {A} msg (r : result A) : quiet (map_err msg r) (fun a => r = Ok a).
Proof. intros w Hw. by destruct r. Qed.
Lemma read_file_quiet p : quiet (read_file p) (fun bs => blen bs < u64_size).
Proof. intros w Hw. unfold read_file. destruct (files w !! p) as [f|] eqn:E; [|done]. split; [done|]. by apply (so_files w Hw p). Qed.
Lemma read_seed_quiet p : quiet (read_seed p) (fun bs => blen bs = SECRET_KEY_LEN).
Proof.
  eapply bind_quiet; [apply context_quiet, read_file_quiet|]. intros raw _.
  destruct (N.eqb_spec (blen raw) SECRET_KEY_LEN); [by apply quiet_ret|apply bail_quiet].
Qed.

Lemma ret_total {A} (a : A) : total (mret a).
Proof. intros w. by exists a, w. Qed.
Lemma println_total f a : total (println f a).
Proof. intros w. by eexists _, _. Qed.
Lemma eprintln_total f a : total (eprintln f a).
Proof. intros w. by eexists _, _. Qed.
Lemma chmod_total sys p : total (set_owner_read_write_only sys p).
Proof. intros w. unfold set_owner_read_write_only. by eexists _, _. Qed.
#[export] Hint Resolve quiet_ret bail_quiet failed_quiet println_quiet eprintln_quiet context_quiet core_quiet map_err_quiet
  read_file_quiet read_seed_quiet ret_total println_total eprintln_total chmod_total : cli.
#[export] Hint Unfold any : cli.

Definition full_writes (sys : System) : Prop := forall p n, write_outcome sys p <> Partial n.

Lemma write_file_atomic sys p bs : full_writes sys -> atomic (write_file sys p bs).
Proof.
  intros Hf w Hw. unfold write_file, Machine.write. destruct (write_outcome sys p) as [| |n] eqn:E; [done|done|].
  by destruct (Hf p n).
Qed.

Lemma context_atomic {A} msg (m : M A) : atomic m -> atomic (context msg m).
Proof. intros Hm w Hw. specialize (Hm w Hw). unfold context. by destruct (m w) as [[a|f|] w']. Qed.

Section Addresses.
Context `{Bech32Laws}.

Lemma address_some k key : blen key = PUBLIC_KEY_LEN -> exists s, encode (Address.new k key) = Some s.
Proof using All. intros Hk. by apply encode_total. Qed.

Lemma address_quiet k key : blen key = PUBLIC_KEY_LEN -> quiet (address k key) any.
Proof using All. intros Hk w Hw. unfold address. destruct (address_some k key Hk) as [s ->]. by split. Qed.

Lemma address_total k key : blen key = PUBLIC_KEY_LEN -> total (address k key).
Proof using All. intros Hk w. unfold address. destruct (address_some k key Hk) as [s ->]. by exists s, w. Qed.

Lemma address_line_quiet fmt key : blen key = PUBLIC_KEY_LEN -> quiet (address_line fmt key) any.
Proof using All. intros Hk. eapply bind_quiet; [by apply address_quiet|]. eauto with cli. Qed.

Lemma address_line_total fmt key : blen key = PUBLIC_KEY_LEN -> total (address_line fmt key).
Proof using All. intros Hk. apply total_bind; [by apply address_total|]. eauto with cli. Qed.
End Addresses.
#[export] Hint Resolve address_quiet address_total address_line_quiet address_line_total : cli.

(** ** The commands *)

(** Case analysis inside a computation whose value does not matter. *)
Ltac quiet_leaf := solve [eauto with cli | repeat case_match; eauto with cli].
Ltac quiet_step :=
  match goal with
  | |- quiet (_ ≫= _) _ =>
    first [ eapply bind_quiet; [solve [eauto with cli]|intros ? ?] | apply (bind_quiet _ _ any); [quiet_leaf|intros ? _] ]
  | |- quiet (match ?x with _ => _ end) _ => destruct x eqn:?
  | |- quiet _ any => quiet_leaf
  end.
Ltac quiets := repeat (cbn beta iota; quiet_step).

Section Commands.
Context `{CryptoLaws, !Ecies, Bech32Laws, Semver} (sys : System) (hex_decode : string -> option bytes).
Context (Full : full_writes sys).

Lemma public_bytes_length side : blen (public_bytes side) = PUBLIC_KEY_LEN.
Proof using All. apply ed_public_length. Qed.
#[local] Hint Resolve public_bytes_length : cli.

Lemma write_secret_atomic p bs : atomic (write_secret sys p bs).
Proof using Full. apply atomic_then; [by apply context_atomic, write_file_atomic|]. eauto with cli. Qed.

Lemma recipient_quiet to : quiet (recipient_of to) (fun r => from_option (fun k => blen k = PUBLIC_KEY_LEN) True r).
Proof using.
  unfold recipient_of. destruct to as [s|]; [|by apply quiet_ret]. eapply bind_quiet; [eauto with cli|].
  intros a Ha. case_bool_decide; [|eauto with cli]. apply quiet_ret. cbn. by apply (address_key_length s).
Qed.

Lemma payload_quiet a : quiet (payload_of a) any.
Proof using. unfold payload_of. quiets. Qed.

Lemma try_pretty_quiet bs : quiet (try_pretty_direct_message bs) any.
Proof using. unfold try_pretty_direct_message. quiets. Qed.
#[local] Hint Resolve try_pretty_quiet : cli.

Lemma addr_show_quiet a : accepted (Addr a) = true -> quiet (addr_show hex_decode a) any.
Proof using All.
  intros Ha. cbn [accepted] in Ha. unfold addr_show. quiet_step. eapply (bind_quiet _ _ (fun k => blen k = PUBLIC_KEY_LEN)).
  - destruct (addr_seed a) as [p|].
    + eapply bind_quiet; [eauto with cli|]. intros seed _. apply quiet_ret, public_bytes_length.
    + destruct (pubkey_hex a) as [h|]; [|done]. apply (bind_quiet _ _ any); [apply context_quiet; quiet_leaf|].
      intros raw _. destruct (N.eqb_spec (blen raw) PUBLIC_KEY_LEN); eauto with cli.
  - intros k Hk. quiets.
Qed.

Lemma parsed_lengths bs e :
  blen bs < u64_size -> from_wire_bytes bs = Ok e ->
  blen (from e) = PUBLIC_KEY_LEN /\ forall r, Envelope.to e = Some r -> blen r = PUBLIC_KEY_LEN.
Proof using.
  intros Hb He. pose proof (parsed_wf bs e Hb He) as W. unfold wf_envelope in W. destruct_and? W. split; [done|].
  intros r Hr. rewrite Hr in *. done.
Qed.

Lemma to_line_quiet e fmt broadcast :
  (forall r, Envelope.to e = Some r -> blen r = PUBLIC_KEY_LEN) ->
  quiet (match Envelope.to e with Some r => address_line fmt r | None => println broadcast [] end) any.
Proof using All. intros Hr. destruct (Envelope.to e) as [r|]; eauto with cli. Qed.
#[local] Hint Resolve to_line_quiet : cli.

Lemma envelope_verify_quiet clock file : quiet (envelope_verify clock file) any.
Proof using All.
  unfold envelope_verify. do 2 (eapply bind_quiet; [eauto with cli|intros ? ?]). cbn beta in *.
  match goal with B : _ < _, E : _ = Ok _ |- _ => pose proof (parsed_lengths _ _ B E) as [? ?] end. quiets.
Qed.

Lemma envelope_decode_quiet file side : quiet (envelope_decode file side) any.
Proof using All.
  unfold envelope_decode. do 2 (eapply bind_quiet; [eauto with cli|intros ? ?]). cbn beta in *.
  match goal with B : _ < _, E : _ = Ok _ |- _ => pose proof (parsed_lengths _ _ B E) as [? ?] end.
  quiets; unfold print_payload_attempt; quiets.
Qed.

Lemma linkage_verify_quiet file : quiet (linkage_verify file) any.
Proof using All.
  unfold linkage_verify. do 2 (eapply bind_quiet; [eauto with cli|intros ? ?]). cbn beta in *.
  match goal with B : _ < _, E : _ = Ok _ |- _ => apply linkage_ok in E as [W _]; [|exact B] end.
  unfold Linkage.wf in W. destruct_and? W. quiets.
Qed.

Lemma self_update_quiet t l ap a : quiet (self_update_run t l ap a) any.
Proof using.
  assert (forall tag, quiet (fun w => (Fine tt, with_updates (updates w ++ [tag]) w)) any) as Hu by (intros tag w Hw; by split).
  unfold self_update_run. quiets; eapply bind_quiet; try apply Hu; intros; quiet_leaf.
Qed.

Lemma open_database_quiet d :
  quiet (open_database sys d) (fun t => forall a r, t_sides t !! a = Some r -> blen a = PUBLIC_KEY_LEN).
Proof using.
  intros w Hw. unfold open_database. destruct (database_opens sys d); [|done]. split.
  - split; [done..|]. intros d'. unfold rows_of. cbn. destruct (decide (d' = d)) as [->|Hne].
    + by rewrite lookup_insert_eq.
    + by rewrite lookup_insert_ne.
  - intros a r. apply (so_sides w Hw d).
Qed.
#[local] Hint Resolve open_database_quiet : cli.

Lemma side_list_quiet d : quiet (side_list sys d) any.
Proof using All.
  unfold side_list. eapply bind_quiet; [eauto with cli|]. intros t Ht. cbn beta in Ht.
  assert (Forall (fun s => blen (stored_address s) = PUBLIC_KEY_LEN) (SideStore.list_sides t)) as Hs.
  { unfold SideStore.list_sides. apply Forall_map, Forall_forall. intros [a r] Hin%elem_of_map_to_list. by apply (Ht a r). }
  destruct (SideStore.list_sides t) as [|s ss]; [eauto with cli|]. quiet_step. clear Ht.
  induction Hs as [|x l Hx Hl IH]; cbn [foldr]; [eauto with cli|].
  apply (bind_quiet _ _ any); [|done]. unfold side_row. quiets.
Qed.

Lemma store_put_atomic clock side d file : atomic (store_put sys clock side d file).
Proof using All.
  unfold store_put. do 2 (eapply atomic_bind; [eauto with cli|intros ? _]). apply atomic_then; [|eauto with cli].
  intros w Hw. unfold put_object. destruct (store_opens sys d); [|done]. by destruct (Objects.put _ _ _).
Qed.

Lemma keygen_master_atomic g out : atomic (keygen_master sys g out).
Proof using All.
  unfold keygen_master. eapply atomic_bind; [eauto with cli|]. intros seed _. apply atomic_then; [by apply write_secret_atomic|].
  intros _. repeat (apply total_bind; [eauto using address_total, ed_public_length with cli|intros ?]). eauto with cli.
Qed.

Lemma keygen_side_atomic m l out : atomic (keygen_side sys m l out).
Proof using All.
  unfold keygen_side. eapply atomic_bind; [eauto with cli|]. intros seed _. apply atomic_then; [by apply write_secret_atomic|].
  intros _. repeat (apply total_bind; [eauto with cli|intros ?]). eauto with cli.
Qed.

Lemma side_add_atomic g clock d l : atomic (side_add sys g clock d l).
Proof using All.
  unfold side_add. do 3 (eapply atomic_bind; [eauto with cli|intros ? _]).
  apply atomic_then; [apply atomic_total; intros w; by eexists _, _|].
  intros _. repeat (apply total_bind; [eauto with cli|intros ?]). eauto with cli.
Qed.

Lemma envelope_sign_atomic nonce clock a : atomic (envelope_sign sys nonce clock a).
Proof using All.
  unfold envelope_sign. eapply atomic_bind; [eauto with cli|intros ? _].
  eapply atomic_bind; [apply recipient_quiet|intros r _]. eapply atomic_bind; [apply payload_quiet|intros [mt plain] _].
  do 2 (eapply atomic_bind; [eauto with cli|intros ? _]).
  apply (atomic_bind _ _ any); [destruct r; eauto using quiet_weaken with cli|intros pl _].
  eapply atomic_bind; [eauto with cli|intros e _]. apply atomic_then; [by apply context_atomic, write_file_atomic|].
  eauto with cli.
Qed.

Lemma linkage_sign_atomic nonce clock a b t out : atomic (linkage_sign sys nonce clock a b t out).
Proof using All.
  unfold linkage_sign. do 2 (eapply atomic_bind; [eauto with cli|intros ? _]).
  apply (atomic_bind _ _ any); [destruct t; [eauto with cli|eapply quiet_weaken; [apply core_quiet|done]]|intros ts _].
  eapply atomic_bind; [eauto with cli|]. intros p Hp. cbn beta in Hp.
  apply result_bind_ok in Hp as (n & _ & [= <-]). apply atomic_then; [by apply context_atomic, write_file_atomic|].
  intros _. repeat (apply total_bind; [eauto with cli|intros ?]). eauto with cli.
Qed.

Lemma run_atomic i c : accepted c = true -> atomic (run sys hex_decode i c).
Proof using All.
  intros Ha. destruct c as [[]| |[]|[]| |[]|]; cbn [run];
    first [ apply keygen_master_atomic | apply keygen_side_atomic | apply envelope_sign_atomic | apply linkage_sign_atomic
          | apply store_put_atomic | apply side_add_atomic | eapply atomic_quiet ].
  - by apply addr_show_quiet.
  - apply envelope_verify_quiet.
  - apply envelope_decode_quiet.
  - apply linkage_verify_quiet.
  - apply side_list_quiet.
  - apply self_update_quiet.
Qed.

End Commands.

(** ** Properties *)


(** A secret file: its mode is the owner's if the [chmod] works; if it does
    not, the command succeeds with the mode the file was created with. *)
Lemma write_secret_spec `{Crypto} sys p bs w :
  write_outcome sys p = Written ->
  exists w', write_secret sys p bs w = (Fine tt, w') /\
    files w' = <[p := {| content := bs;
                         mode := if chmod_works sys p then OWNER_RW
                                 else match files w !! p with Some f => mode f | None => new_mode sys end |}]> (files w).
Proof.
  intros Ho. unfold write_secret, context, write_file, Machine.write, mbind, m_bind. rewrite Ho.
  unfold set_owner_read_write_only, put, set_mode. cbn [files with_files].
  destruct (chmod_works sys p); (eexists; split; [done|]); cbn [files with_files]; [|done].
  by rewrite alter_insert_eq.
Qed.

(** A self-update installs only what is newer than what runs, unless a version
    was asked for; [--check] installs nothing. *)
Lemma self_update_never_downgrades `{Semver} t l ap a w :
  let w' := (self_update_run t l ap a w).2 in
  updates w' = updates w \/
  (updates w' = updates w ++ [version a] /\ check a = false /\
   (is_Some (version a) \/ exists v, l = Some v /\ self_update_compare CURRENT v = VersionRelation.Behind)).
Proof.
  unfold self_update_run. destruct t as [t|]; [|by left]. unfold mbind, m_bind, eprintln at 1.
  destruct l as [v|]; [|by left]. destruct (check a) eqn:Ec; [left; by destruct (self_update_compare CURRENT v)|].
  destruct (version a) as [tag|] eqn:Ev; [right|].
  - destruct (self_update_compare CURRENT v); destruct ap; cbn; eauto.
  - destruct (self_update_compare CURRENT v) eqn:Er; [by left..|right]. destruct ap; cbn; split_and!; try done; eauto.
Qed.

(** [{:02X}] *)
Definition hex_digit (n : N) : byte := default Byte.x00 (Byte.of_N (if n <? 10 then 48 + n else 55 + n)).
Definition hex_byte (n : N) : string := of_bytes [hex_digit (n / 16); hex_digit (n mod 16)].

Lemma from_str_radix_bound radix bs n : from_str_radix radix bs = Some n -> n <= u8_max.
Proof.
  unfold from_str_radix. set (digits := match bs with b :: (_ :: _) as rest => _ | _ => bs end). clearbody digits.
  destruct digits as [|b ds] eqn:Eds; [done|]. rewrite <-Eds. clear Eds.
  assert (from_option (fun x => x <= u8_max) True (Some 0)) as H0 by (cbn; unfold u8_max; lia).
  revert H0. generalize (Some 0). induction digits as [|d digits IH]; intros acc Ha; cbn [fold_left].
  - by intros ->.
  - apply IH. destruct acc as [x|]; [|done]. destruct (digit_of radix d) as [y|]; [|done]. cbn.
    destruct (N.leb_spec (x * radix + y) u8_max); [done|exact I].
Qed.

(** A message type is a byte, and the form the tool prints is read back. *)
Lemma message_type_printed n : n <= u8_max -> parse_message_type ("0x" +:+ hex_byte n) = Some n.
Proof.
  intros Hn. unfold u8_max in Hn.
  assert (forallb (fun k => bool_decide (parse_message_type ("0x" +:+ hex_byte (N.of_nat k)) = Some (N.of_nat k))) (seq 0 256)
          = true) as Hall by (vm_compute; reflexivity).
  rewrite forallb_forall in Hall. specialize (Hall (N.to_nat n) (proj2 (in_seq 256 0 (N.to_nat n)) ltac:(lia))).
  by rewrite N2Nat.id, bool_decide_eq_true in Hall.
Qed.

Lemma message_type_bound s n : parse_message_type s = Some n -> n <= u8_max.
Proof. unfold parse_message_type. case_match; apply from_str_radix_bound. Qed.

(** The parser of Rust's integers also takes a sign. *)
Example message_type_signed : parse_message_type "0x+1F" = Some 31.
Proof. reflexivity. Qed.

(** ** Messages, sides and seed files *)

(** The file at [p] holds [bs]. *)
Definition holds_file (p : string) (bs : bytes) (w : World) : Prop := exists f, files w !! p = Some f /\ content f = bs.

Lemma read_seed_fine p w s w' :
  read_seed p w = (Fine s, w') <-> w' = w /\ holds_file p s w /\ blen s = SECRET_KEY_LEN.
Proof.
  unfold read_seed. rewrite fine_bind. unfold context, read_file, holds_file. split.
  - intros (a & w1 & E & K). destruct (files w !! p) as [f|]; [|done]. injection E as <- <-.
    destruct (N.eqb_spec (blen (content f)) SECRET_KEY_LEN); [|done]. injection K as <- <-. eauto.
  - intros (-> & (f & Ef & <-) & Hl). exists (content f), w. rewrite Ef. split; [done|]. by rewrite Hl, N.eqb_refl.
Qed.

Section Messages.
Context `{CryptoLaws, !Ecies, !EciesLaws, Bech32Laws} (sys : System).

(** The file [envelope sign --text] leaves. *)
Lemma cli_seals a nonce ts s to_addr w w' :
  blen nonce = NONCE_LEN -> ts < u64_size -> text a = Some s -> to a = Some to_addr ->
  envelope_sign sys (Ok nonce) (Ok ts) a w = (Fine tt, w') ->
  exists seed recipient wire, holds_file (side a) seed w /\
    Address.parse to_addr = Ok (Address.new AddressKind.Side recipient) /\
    holds_file (out a) wire w' /\ sealed_text seed recipient s wire.
Proof using.
  intros Hn Ht Et Eto Q. unfold envelope_sign in Q. rewrite Eto in Q.
  apply fine_bind in Q as (seed & w1 & (-> & Hseed & _)%read_seed_fine & Q).
  apply fine_bind in Q as (r & w1 & Hr & Q). unfold recipient_of in Hr.
  apply fine_bind in Hr as (ad & w2 & [Had ->]%map_err_fine & Hr). case_bool_decide as Hk; [|done]. injection Hr as <- <-.
  apply fine_bind in Q as (pl & w1 & Hp & Q). unfold payload_of in Hp. rewrite Et in Hp. injection Hp as <- <-.
  apply fine_bind in Q as (n & w1 & [[= <-] ->]%core_fine & Q). apply fine_bind in Q as (t & w1 & [[= <-] ->]%core_fine & Q).
  apply fine_bind in Q as (ct & w1 & [Hct ->]%map_err_fine & Q). apply fine_bind in Q as (e & w1 & [He ->]%map_err_fine & Q).
  apply fine_bind in Q as ([] & w1 & Hw & Q). injection Q as <-.
  exists seed, (Address.key ad), (to_wire_bytes e). split_and!; [done| | |].
  - rewrite Had. destruct ad as [k key]. cbn in Hk |- *. by rewrite Hk.
  - unfold context, write_file, Machine.write in Hw. destruct (write_outcome sys (out a)); [|done..]. injection Hw as <-.
    eexists. cbn [files with_files with_stderr]. unfold put. by rewrite lookup_insert_eq.
  - by exists nonce, ts, ct, e.
Qed.

(** What [envelope decode --side] prints of a sealed message: its sender and
    its text, among its lines. *)
Lemma cli_opens seed rseed s wire file path w :
  sealed_text seed (ed_public rseed) s wire -> sendable s -> blen wire < u64_size ->
  holds_file file wire w -> holds_file path rseed w -> blen rseed = SECRET_KEY_LEN ->
  exists sender lines w', encode (Address.new AddressKind.Side (ed_public seed)) = Some sender /\
    envelope_decode file (Some path) w = (Fine tt, w') /\ stdout w' = stdout w ++ lines /\
    {| format := "  from: {}"; args := [AText sender] |} ∈ lines /\
    {| format := "      body: {s:?}"; args := [ADebug s] |} ∈ lines.
Proof using All.
  intros Hw Hs Hl (f & Ef & Ec) Hp Hrl. destruct (sealed_text_carried _ _ _ _ Hw Hs Hl) as [e [Hparse E1 E2 E3 Ho Hd]].
  destruct (address_some AddressKind.Side (ed_public seed) (ed_public_length seed)) as [sender Es].
  destruct (address_some AddressKind.Side (ed_public rseed) (ed_public_length rseed)) as [rcpt Er].
  assert (forall w', files w' = files w -> read_seed path w' = (Fine rseed, w')) as Hseed.
  { intros w' Ew. apply read_seed_fine. split; [done|]. unfold holds_file. by rewrite Ew. }
  unfold envelope_decode, address_line, address, mbind, m_bind, context, read_file, map_err, println. rewrite Ef, Ec, Hparse.
  cbv beta iota delta [mret m_ret]. rewrite E2, E3, Es, Er. cbv beta iota. rewrite Hseed by done. cbv beta iota zeta.
  rewrite bool_decide_eq_true_2 by done. rewrite Ho.
  unfold try_pretty_direct_message, mbind, m_bind, println. rewrite Hd.
  cbn [DirectMessage.body DirectMessage.kind DirectMessage.reply_to DirectMessage.thread text_message stdout with_stdout].
  rewrite <-!app_assoc. cbn [app]. exists sender. eexists _, _. split; [done|]. split; [reflexivity|].
  cbn [stdout with_stdout]. split; [reflexivity|]. rewrite !list_elem_of_In. cbn [In]. tauto.
Qed.

End Messages.

(** The row [side add] leaves, and the sides that were there. *)
Lemma side_add_recorded `{Crypto, Bech32} sys master now d label w w' :
  let key := derive_side {| master_seed := master |} label in
  t_sides (rows_of w d) !! public_bytes key = None ->
  side_add sys (Ok master) (Ok now) d label w = (Fine tt, w') ->
  SideStore.load_side (public_bytes key) (rows_of w' d) =
    Some {| stored_address := public_bytes key; seed := signing key; SideStore.label := Some label;
            created_at := as_u64 (as_i64 now); lifecycle := "Created"; last_send_at := None; is_self_retired := false |} /\
  forall a, a <> public_bytes key -> SideStore.load_side a (rows_of w' d) = SideStore.load_side a (rows_of w d).
Proof.
  intros key Hnew Q. unfold side_add in Q. apply fine_bind in Q as (t & w1 & Ho & Q).
  unfold open_database in Ho. destruct (database_opens sys d); [|done]. injection Ho as <- <-.
  apply fine_bind in Q as (m & w1 & Hm & Q). unfold context, core in Hm. injection Hm as <- <-.
  apply fine_bind in Q as (n & w1 & Hn & Q). unfold context, core in Hn. injection Hn as <- <-.
  apply fine_bind in Q as (u & w1 & Hs & Q). unfold save_database in Hs. injection Hs as <- <-.
  apply fine_bind in Q as (s & w1 & Ha & Q). unfold address in Ha. destruct (encode _); [|done]. injection Ha as <- <-.
  apply fine_bind in Q as (u2 & w1 & Hp & Q). injection Hp as <- <-. injection Q as <-.
  change (default empty_tables (databases w !! d)) with (rows_of w d).
  unfold SideStore.load_side, SideStore.upsert_side. cbn [stored_address]. fold key. rewrite Hnew.
  match goal with |- context [t_sides (rows_of ?b d) !! public_bytes key] => set (wb := b) end.
  eassert (rows_of wb d = _) as ->.
  { unfold rows_of, wb. cbn [databases with_databases with_stdout with_stderr]. rewrite lookup_insert_eq. cbn [from_option id]. reflexivity. }
  cbn [t_sides set_sides id]. split.
  - rewrite lookup_insert_eq. reflexivity.
  - intros a Ha. by rewrite lookup_insert_ne.
Qed.

(** A seed file, plain or sealed under a passphrase that is not empty, gives
    the daemon its seed. *)
Lemma seed_file_opens `{CryptoLaws, !Ecies, !EciesLaws, !Keystore.Kdf} seed passphrase params salt nonce bs :
  Keystore.seal_seed_with seed passphrase params salt nonce = Ok bs -> passphrase <> ""%string ->
  blen seed = SECRET_KEY_LEN -> blen salt = Keystore.SALT_LEN -> blen nonce = AEAD_NONCE_LEN ->
  (Keystore.Argon2Params.m_kib params <= u32_max /\ Keystore.Argon2Params.t params <= u32_max /\
   Keystore.Argon2Params.p params <= u32_max) -> blen bs < u64_size ->
  parse_seed_bytes seed None = inr seed /\ parse_seed_bytes bs (Some passphrase) = inr seed /\
  exists f, parse_seed_bytes bs None = inl f.
Proof.
  intros Hs Hp Hl Hsalt Hn Hpar F. assert (blen bs =? SECRET_KEY_LEN = false) as Hne.
  { apply N.eqb_neq. unfold Keystore.seal_seed_with in Hs. apply result_bind_ok in Hs as (kek & _ & Hs).
    apply result_bind_ok in Hs as (c & _ & [= <-]). unfold Keystore.encode_sealed, Keystore.entries. flatten.
    cbn [Keystore.kdf Keystore.aead Keystore.ct Keystore.salt Keystore.nonce Keystore.version Keystore.m_kib Keystore.p Keystore.t].
    rewrite !blen_app. repeat match goal with |- context [blen (Cbor.text ?t)] => eval_blen (Cbor.text t)
      | |- context [blen (Cbor.key ?t)] => eval_blen (Cbor.key t) end. unfold SECRET_KEY_LEN. lia. }
  unfold parse_seed_bytes. rewrite Hl, N.eqb_refl, Hne. split; [done|]. split; [|by eexists].
  rewrite (proj2 (String.eqb_neq _ _) Hp). by rewrite (open_sealed_seed _ _ _ _ _ _ Hs Hl Hsalt Hn Hpar F).
Qed.

(** ** Concrete instances *)

Module CliExamples.
Import Toy ToyEcies AddressExamples.
Local Existing Instances toy toy_laws toy_ecies toy_ecies_laws toy_bech32 toy_bech32_laws.

(** Versions in the order of their texts. *)
#[local] Instance text_versions : Semver := {|
  Version := string; version_parse := Some; version_cmp := String.compare |}.

Definition machine : System := {|
  write_outcome := fun p => if String.eqb p "/" then Refused else Written; chmod_works := fun _ => true;
  new_mode := 0x1A4; database_opens := fun _ => true; store_opens := fun _ => true |}.

Definition empty_world : World := {|
  files := ∅; databases := ∅; stores := ∅; stdout := []; stderr := []; updates := [] |}.

(** A clock before 1970. *)
Definition inputs : Inputs := {|
  generated := Ok (replicate 32 Byte.x0a); random_nonce := Ok (replicate 16 Byte.x07);
  clock := Err (Error.Invariant "system clock before unix epoch"); target := Some "linux-x64"%string;
  latest := Some "0.1.2"%string; applied := Some "0.1.2"%string |}.

Definition adding : Command := Side_ (Add "data" "work").

Definition sample : answer unit * World := run machine (fun _ => None) inputs adding empty_world.


Example no_downgrade : updates (run machine (fun _ => None) inputs (SelfUpdate {| check := false; version := None; yes := true |}) empty_world).2 = [].
Proof. reflexivity. Qed.

End CliExamples.
