(* ===== verification/CliNode.v ===== *)
(** The commands of the client that run a transient node, and the daemon
    ([sidevers-cli/src/cli.rs], [sidevers-node/src/main.rs]).

    What a dial gives and what the peer answers are arguments, as in
    [Commands].  A program returns the bytes it sent.  The temporary directory
    of a transient node, whose rows are gone with the process, is an argument,
    [None] where it cannot be made. *)

From S2P Require Import Prelude Containers Utf8 Cbor Keys Envelope Payload Direct Records Address Keystore Session Storage Node SideStore SideState DirectServer Host Str Machine Cli.

Open Scope N_scope.

Definition net {A} (r : nresult A) : M A := match r with NOk a => mret a | NErr _ => failed FromNet end.

Section Net.
Context `{Crypto, Ecies, HashIter, Bech32, Keystore.Kdf} (sys : System) (hex_decode : string -> option bytes).
Context (journal_opens : string -> bool).
(** [str::to_socket_addrs], its addresses as they are displayed. *)
Context (to_socket_addrs : string -> option (list string)).

(** [Node::start]. *)
Definition node_start (key : SideKey) (data_dir : string) (bound : option string) (clock : Clock) (io : Io) : M HostNode :=
  listen ← match bound with Some a => mret a | None => failed FromNet end;
  if negb (store_opens sys data_dir) then failed FromNet
  else
    t ← open_database sys data_dir;
    '(s, t) ← Machine.core (load_or_create clock io key (Some (side_label key)) t);
    _ ← save_database data_dir t;
    if negb (journal_opens data_dir) then failed FromNet
    else
      _ ← Machine.core (now_unix_seconds clock);
      mret {| primary := s; listen_addr := listen; extras := []; side_store := t |}.

Definition transient_node (key : SideKey) (tmp bound : option string) (clock : Clock) (io : Io) : M HostNode :=
  dir ← context "creating temp dir" (match tmp with Some d => mret d | None => failed FromSystem end);
  node_start key dir bound clock io.

Definition resolve_host (host : string) : M string :=
  addrs ← context "resolving {host}" (match to_socket_addrs host with Some l => mret l | None => failed FromSystem end);
  or_else "no address found for {host}" (head addrs).

(** [dm send] *)
Definition dm_send (tmp bound : option string) (clock : Clock) (io : Io) (rnd : bytes) (dialled : string -> nresult Session)
    (sent : bytes -> nresult unit) (side_path to_addr host text : string) : M bytes :=
  seed ← read_seed side_path;
  let side := side_from_seed seed "(cli)" in
  to ← map_err "--to: {e}" (Address.parse to_addr);
  if negb (bool_decide (Address.kind to = AddressKind.Side)) then bail "--to must be a side address"
  else
    peer_addr ← resolve_host host;
    n ← transient_node side tmp bound clock io;
    session ← net (dialled peer_addr);
    out ← net (DirectServer.send_dm session (keypair (primary n)) (as_bytes text) clock rnd);
    _ ← net (sent out);
    _ ← eprintln "sent {} bytes to {}" [ANum (blen (as_bytes text)); AText to_addr];
    mret out.

(** [store get] *)
Definition store_get (tmp bound : option string) (clock : Clock) (io : Io) (rnd : bytes) (dialled : string -> nresult Session)
    (peer : bytes -> nresult bytes) (side_path host hash_hex out : string) : M unit :=
  seed ← read_seed side_path;
  let side := side_from_seed seed "(cli)" in
  hash ← context "--hash must be hex" (match hex_decode hash_hex with Some h => mret h | None => failed FromHex end);
  if negb (blen hash =? 32) then bail "--hash must be 32 bytes (64 hex chars)"
  else
    peer_addr ← resolve_host host;
    n ← transient_node side tmp bound clock io;
    session ← net (dialled peer_addr);
    answer ← net (req ← fetch_request session (keypair (primary n)) hash clock rnd; bs ← peer req; fetch_finish hash bs);
    match answer with
    | Some b =>
      _ ← context "writing {}" (write_file sys out b);
      eprintln "got {} bytes; hash verified" [ANum (blen b)]
    | None => bail "peer reported StorageMiss for that hash"
    end.

(** [ping] *)
Definition node_ping (tmp bound : option string) (clock : Clock) (io : Io) (dialled : string -> nresult Session)
    (side_path host : string) : M unit :=
  seed ← read_seed side_path;
  peer_addr ← resolve_host host;
  _ ← transient_node (side_from_seed seed "(cli)") tmp bound clock io;
  session ← net (dialled peer_addr);
  a ← address AddressKind.Side (peer_side session);
  println "handshake OK; peer side: {}" [AText a].

(** [side retire] *)
Definition side_retire (bound : option string) (clock : Clock) (io io' : Io) (data_dir side_path : string)
    (reason : option string) : M unit :=
  seed ← read_seed side_path;
  n ← node_start (side_from_seed seed "(cli-retire)") data_dir bound clock io;
  let '(res, n) := publish_retirement clock io' reason n in
  record ← net res;
  _ ← save_database data_dir (side_store n);
  a ← address AddressKind.Side (Retirement.side record);
  eprintln "retired side {} at {} ({})"
    [AText a; ANum (Retirement.retired_at record); AText (default "(no reason)" (Retirement.reason record))].

(** ** The daemon *)

Definition ENV_SEED_PASSPHRASE : string := "SIDEVERS_SEED_PASSPHRASE".

(** [read_seed] of the daemon; [passphrase] is the variable of the environment. *)
Definition daemon_seed (passphrase : option string) (path : string) : M bytes :=
  raw ← context "reading {}" (read_file path);
  _ ← (if blen raw =? SECRET_KEY_LEN then
         eprintln "warning: {} is a plaintext seed file. Consider re-saving it as a passphrase-sealed seed." [AText path]
       else mret tt);
  lift (parse_seed_bytes raw passphrase).

Inductive DaemonEvent := CtrlC | NoMoreMessages | Dm (env : Envelope) (plain : bytes).

(** The loop over what [select!] yields; whether it has returned. *)
Fixpoint daemon_loop (events : list DaemonEvent) : M bool :=
  match events with
  | [] => mret false
  | CtrlC :: _ => _ ← println "\nshutting down…" []; mret true
  | NoMoreMessages :: _ => mret true
  | Dm env plain :: events =>
    _ ← println "[dm from {}…]: {}" [AHex (take 8 (from env)); AText (from_utf8_lossy plain)];
    daemon_loop events
  end.

(** [listen], on all addresses of the machine. *)
Definition listen (passphrase bound : option string) (clock : Clock) (io : Io) (side_path data_dir : string)
    (events : list DaemonEvent) : M bool :=
  seed ← context "reading side seed" (daemon_seed passphrase side_path);
  n ← node_start (side_from_seed seed "(daemon)") data_dir bound clock io;
  _ ← println "listening on {}" [AText (listen_addr n)];
  a ← address AddressKind.Side (SideState.address (primary n));
  _ ← println "address: {}" [AText a];
  daemon_loop events.

End Net.
