(* ===== verification/CliNodeFacts.v ===== *)
(** Theorems about the commands of the client that run a transient node, and
    about the daemon: what [dm send] sends and to whom, what [store get]
    writes, what [side retire] leaves, and what the daemon prints. *)

From S2P Require Import Prelude Containers Utf8 Cbor Keys Envelope Payload Direct Records Address Keystore NetTables Session Storage Node NodeFacts SideStore SideState DirectServer Host Str Machine Cli CliFacts CliNode.

Open Scope N_scope.

Section Facts.
Context `{Crypto, Ecies, HashIter, Bech32, Keystore.Kdf} (sys : System) (hex_decode : string -> option bytes)
  (journal_opens : string -> bool) (to_socket_addrs : string -> option (list string)).

Lemma cli_net_fine {A} (r : nresult A) (w : World) a w' : net r w = (Fine a, w') <-> r = NOk a /\ w' = w.
Proof using.
  unfold net. destruct r; split; intros Q; [by injection Q as <- <-|by destruct Q as [[= ->] ->]|done|by destruct Q].
Qed.

Lemma loaded_key clock io key lbl t s t' : load_or_create clock io key lbl t = Ok (s, t') -> keypair s = key.
Proof using.
  unfold load_or_create. destruct (SideStore.load_side _ _).
  - unfold load_existing. destruct (SideStore.load_profile _ _); [|done]. by intros [= <- _].
  - intros (u & _ & Q)%result_bind_ok. by injection Q as <- _.
Qed.

Lemma loaded_address clock io key lbl t s t' :
  load_or_create clock io key lbl t = Ok (s, t') -> SideState.address s = public_bytes key.
Proof using.
  unfold load_or_create. destruct (SideStore.load_side _ _).
  - unfold load_existing. destruct (SideStore.load_profile _ _); [|done]. by intros [= <- _].
  - intros (u & _ & Q)%result_bind_ok. by injection Q as <- _.
Qed.

Lemma loaded_others clock io key lbl t s t' a :
  load_or_create clock io key lbl t = Ok (s, t') -> a <> public_bytes key -> SideStore.load_side a t' = SideStore.load_side a t.
Proof using.
  unfold load_or_create. intros Q Ha. destruct (SideStore.load_side (public_bytes key) t).
  - unfold load_existing in Q. destruct (SideStore.load_profile _ _); [|done]. by injection Q as _ <-.
  - apply result_bind_ok in Q as (u & _ & Q). injection Q as _ <-.
    unfold SideStore.load_side, SideStore.upsert_side. cbn [t_sides set_sides]. by rewrite lookup_insert_ne.
Qed.

Definition rows_in (dir : string) (w : World) : Tables := default empty_tables (databases w !! dir).

(** A start touches databases only, and the node has the key it was given. *)
Lemma node_start_fine key dir bound clock io w n w' :
  node_start sys journal_opens key dir bound clock io w = (Fine n, w') ->
  keypair (primary n) = key /\ files w' = files w /\ stdout w' = stdout w /\
  databases w' !! dir = Some (side_store n) /\ extras n = [] /\
  load_or_create clock io key (Some (side_label key)) (default empty_tables (databases w !! dir))
    = Ok (primary n, side_store n).
Proof using.
  unfold node_start. intros (l & w1 & Q1 & Q)%fine_bind.
  assert (w1 = w) as -> by (destruct bound; [by injection Q1|done]). destruct (negb (store_opens sys dir)); [done|].
  apply fine_bind in Q as (t & w1 & Q2 & Q). unfold open_database in Q2. destruct (database_opens sys dir); [|done].
  injection Q2 as <- <-. apply fine_bind in Q as ([s t] & w1 & [El ->]%core_fine & Q).
  apply fine_bind in Q as (u & w1 & Q3 & Q). unfold save_database in Q3. injection Q3 as <- <-.
  destruct (negb (journal_opens dir)); [done|]. apply fine_bind in Q as (x & w1 & [_ ->]%core_fine & Q).
  injection Q as <- <-. cbn. split_and!; [by eapply loaded_key|done|done|by rewrite lookup_insert_eq|done|done].
Qed.

Lemma transient_node_fine key tmp bound clock io w n w' :
  transient_node sys journal_opens key tmp bound clock io w = (Fine n, w') ->
  keypair (primary n) = key /\ files w' = files w /\ stdout w' = stdout w.
Proof using.
  unfold transient_node. intros (d & w1 & Q1 & Q)%fine_bind. unfold context in Q1. destruct tmp; [|done]. injection Q1 as -> <-.
  apply node_start_fine in Q as (? & ? & ? & _). done.
Qed.

Lemma resolve_host_fine host w a w' :
  resolve_host to_socket_addrs host w = (Fine a, w') ->
  w' = w /\ exists l, to_socket_addrs host = Some (a :: l).
Proof using.
  unfold resolve_host. intros (l & w1 & Q1 & [El ->]%or_else_fine)%fine_bind. unfold context in Q1.
  destruct (to_socket_addrs host) as [l'|]; [|done]. injection Q1 as -> <-. destruct l; [done|]. injection El as ->. eauto.
Qed.

(** What [dm send] sends: the text, under the key of the seed file, on the
    session of the dial; [--to] is checked for its form. *)
Lemma dm_send_fine tmp bound clock io rnd dialled sent side_path to_addr host text w out w' :
  dm_send sys journal_opens to_socket_addrs tmp bound clock io rnd dialled sent side_path to_addr host text w = (Fine out, w') ->
  exists seed to peer l session, holds_file side_path seed w /\ blen seed = SECRET_KEY_LEN /\
    Address.parse to_addr = Ok to /\ Address.kind to = AddressKind.Side /\
    to_socket_addrs host = Some (peer :: l) /\ dialled peer = NOk session /\
    DirectServer.send_dm session (side_from_seed seed "(cli)") (as_bytes text) clock rnd = NOk out.
Proof using.
  unfold dm_send. intros (seed & w1 & (-> & Hs & Hl)%read_seed_fine & Q)%fine_bind.
  apply fine_bind in Q as (to & w1 & [Et ->]%map_err_fine & Q). case_bool_decide as Hk; [|done]. cbn [negb] in Q.
  apply fine_bind in Q as (peer & w1 & (-> & l & El)%resolve_host_fine & Q).
  apply fine_bind in Q as (n & w1 & (Ek & _ & _)%transient_node_fine & Q).
  apply fine_bind in Q as (session & w2 & [Es ->]%cli_net_fine & Q). apply fine_bind in Q as (o & w2 & [Eo ->]%cli_net_fine & Q).
  apply fine_bind in Q as (u & w2 & _ & Q). apply fine_bind in Q as (u' & w3 & _ & Q). injection Q as <- _.
  rewrite Ek in Eo. exists seed, to, peer, l, session. done.
Qed.

(** The text goes to the side that answers at the host, whatever side [--to]
    names. *)
Lemma dm_send_ignores_to tmp bound clock io rnd dialled sent side_path a1 a2 x1 x2 host text w out w' :
  Address.parse a1 = Ok x1 -> Address.kind x1 = AddressKind.Side ->
  Address.parse a2 = Ok x2 -> Address.kind x2 = AddressKind.Side ->
  dm_send sys journal_opens to_socket_addrs tmp bound clock io rnd dialled sent side_path a1 host text w = (Fine out, w') ->
  exists w2, dm_send sys journal_opens to_socket_addrs tmp bound clock io rnd dialled sent side_path a2 host text w = (Fine out, w2).
Proof using.
  intros P1 K1 P2 K2 Q. unfold dm_send in *.
  apply fine_bind in Q as (seed & w1 & Qs & Q). rewrite P1 in Q. rewrite bind_map_err, K1 in Q.
  case_bool_decide; [|done]. cbn [negb] in Q.
  apply fine_bind in Q as (peer & w2 & Qp & Q). apply fine_bind in Q as (n & w3 & Qn & Q).
  apply fine_bind in Q as (session & w4 & Qc & Q). apply fine_bind in Q as (o & w5 & Qo & Q).
  apply fine_bind in Q as (u & w6 & Qu & Q). apply fine_bind in Q as (u' & w7 & _ & Q). injection Q as -> _.
  eexists. apply fine_bind. exists seed, w1. split; [done|]. rewrite P2, bind_map_err, K2.
  rewrite bool_decide_eq_true_2 by done. cbn [negb].
  apply fine_bind. exists peer, w2. split; [done|]. apply fine_bind. exists n, w3. split; [done|].
  apply fine_bind. exists session, w4. split; [done|]. apply fine_bind. exists out, w5. split; [done|].
  apply fine_bind. exists u, w6. split; [done|]. apply fine_bind. eexists tt, _. split; [reflexivity|]. reflexivity.
Qed.

(** [store get] writes bytes that hash to what was asked for, or nothing. *)
Lemma store_get_writes tmp bound clock io rnd dialled peer side_path host hash_hex out w w' :
  store_get sys hex_decode journal_opens to_socket_addrs tmp bound clock io rnd dialled peer side_path host hash_hex out w
    = (Fine tt, w') ->
  exists h b, hex_decode hash_hex = Some h /\ blake3 b = h /\ holds_file out b w' /\
    forall p, p <> out -> files w' !! p = files w !! p.
Proof using.
  unfold store_get. intros (seed & w1 & (-> & _)%read_seed_fine & Q)%fine_bind.
  apply fine_bind in Q as (h & w1 & Qh & Q). unfold context in Qh. destruct (hex_decode hash_hex) as [h'|] eqn:Eh; [|done].
  injection Qh as -> <-. destruct (negb (blen h =? 32)); [done|].
  apply fine_bind in Q as (a & w1 & (-> & _)%resolve_host_fine & Q).
  apply fine_bind in Q as (n & w1 & (_ & Ef & _)%transient_node_fine & Q).
  apply fine_bind in Q as (session & w2 & [_ ->]%cli_net_fine & Q). apply fine_bind in Q as (answer & w2 & [Ea ->]%cli_net_fine & Q).
  destruct answer as [b|]; [|done]. apply fine_bind in Q as (u & w2 & Qw & Q). unfold eprintln in Q. injection Q as <-.
  unfold context, write_file in Qw. destruct (Machine.write sys out b (files w1)) as [[] fs] eqn:Ew; [|done].
  injection Qw as _ <-. unfold Machine.write in Ew. destruct (write_outcome sys out); [|done..]. injection Ew as <-.
  exists h, b. split_and!; [done| | |].
  - apply nresult_bind_ok in Ea as (req & _ & Ea). apply nresult_bind_ok in Ea as (bs & _ & Ea). unfold fetch_finish in Ea.
    apply nresult_bind_ok in Ea as ([resp rest] & _ & Ea). destruct (_ =? STORAGE_HAVE).
    + apply nresult_bind_ok in Ea as (have & _ & Ea). case_bool_decide as Hb; [|done]. by injection Ea as <-.
    + by destruct (_ =? STORAGE_MISS).
  - unfold holds_file. cbn. unfold Machine.put. rewrite lookup_insert_eq. by eexists.
  - intros p Hp. cbn. unfold Machine.put. by rewrite lookup_insert_ne, Ef.
Qed.

(** The temporary directory of [dm send] is never removed: the seed of the side
    is in its database afterwards. *)
Lemma dm_send_leaves_seed d bound clock io rnd dialled sent side_path to_addr host text w out w' :
  dm_send sys journal_opens to_socket_addrs (Some d) bound clock io rnd dialled sent side_path to_addr host text w = (Fine out, w') ->
  databases w !! d = None ->
  exists seed row, holds_file side_path seed w /\
    SideStore.load_side (ed_public seed) (rows_in d w') = Some row /\ SideStore.seed row = seed.
Proof using.
  unfold dm_send. intros (seed & w1 & (-> & Hs & Hl)%read_seed_fine & Q)%fine_bind Hd.
  apply fine_bind in Q as (to & w1 & [Et ->]%map_err_fine & Q). case_bool_decide as Hk; [|done]. cbn [negb] in Q.
  apply fine_bind in Q as (peer & w1 & (-> & _)%resolve_host_fine & Q).
  apply fine_bind in Q as (n & w1 & Qn & Q).
  apply fine_bind in Q as (session & w2 & [Es ->]%cli_net_fine & Q). apply fine_bind in Q as (o & w2 & [Eo ->]%cli_net_fine & Q).
  apply fine_bind in Q as (u & w2 & [_ ->]%cli_net_fine & Q). apply fine_bind in Q as (u' & w3 & Qp & Q). injection Q as _ <-.
  unfold eprintln in Qp. injection Qp as _ <-.
  unfold transient_node in Qn. apply fine_bind in Qn as (d' & w2 & Qd & Qn). unfold context in Qd. injection Qd as <- <-.
  apply node_start_fine in Qn as (_ & _ & _ & Ed & _ & El). rewrite Hd in El. cbn [from_option id] in El.
  unfold load_or_create in El. unfold SideStore.load_side in El at 1. cbn [t_sides empty_tables] in El. rewrite lookup_empty in El. cbn [fmap option_fmap option_map] in El.
  apply result_bind_ok in El as (x & _ & El). injection El as _ El.
  exists seed. unfold rows_in. cbn [databases with_stderr]. rewrite Ed. cbn [from_option id]. rewrite <-El.
  unfold SideStore.load_side, SideStore.upsert_side. cbn [t_sides set_sides empty_tables stored_row fresh stored_address SideState.address].
  rewrite lookup_insert_eq. eexists. split; [done|]. split; [reflexivity|]. by rewrite lookup_empty.
Qed.

(** What an upsert makes of the rows. *)
Lemma upserted s t :
  (exists row, SideStore.load_side (stored_address s) (SideStore.upsert_side s t) = Some row /\
     SideStore.is_self_retired row = SideStore.is_self_retired s /\ SideStore.lifecycle row = SideStore.lifecycle s) /\
  forall a, a <> stored_address s -> SideStore.load_side a (SideStore.upsert_side s t) = SideStore.load_side a t.
Proof using.
  unfold SideStore.load_side, SideStore.upsert_side. cbn [t_sides set_sides]. split.
  - rewrite lookup_insert_eq. eexists. split; [reflexivity|].
    destruct (t_sides t !! stored_address s); cbn; by destruct (SideStore.is_self_retired s).
  - intros a Ha. by rewrite lookup_insert_ne.
Qed.

(** After [side retire] the row of the side is retired for good, and the rows of
    the other sides are as they were. *)
Lemma side_retire_leaves bound clock io data_dir side_path reason w w' :
  side_retire sys journal_opens bound clock io io_ok data_dir side_path reason w = (Fine tt, w') ->
  exists seed row, holds_file side_path seed w /\
    SideStore.load_side (ed_public seed) (rows_in data_dir w') = Some row /\
    SideStore.is_self_retired row = true /\ SideStore.lifecycle row = lifecycle_label Lifecycle.Retired /\
    forall a, a <> ed_public seed -> SideStore.load_side a (rows_in data_dir w') = SideStore.load_side a (rows_in data_dir w).
Proof using.
  unfold side_retire. intros (seed & w1 & (-> & Hs & _)%read_seed_fine & Q)%fine_bind.
  apply fine_bind in Q as (n & w1 & (Ek & _ & _ & Ed & Ex & El)%node_start_fine & Q).
  destruct (publish_retirement clock io_ok reason n) as [res n'] eqn:Ep. apply fine_bind in Q as (record & w2 & [-> ->]%cli_net_fine & Q).
  apply fine_bind in Q as (u & w2 & Qv & Q). unfold save_database in Qv. injection Qv as _ <-.
  apply fine_bind in Q as (a & w2 & [_ ->]%address_fine & Q). unfold eprintln in Q. injection Q as <-.
  assert (SideState.address (primary n) = ed_public seed) as Ea by exact (loaded_address _ _ _ _ _ _ _ El).
  unfold publish_retirement in Ep. destruct (mbind _ _) as [record'|e]; [|done]. injection Ep as _ <-.
  unfold rows_in. cbn [databases with_databases with_stderr]. rewrite lookup_insert_eq. cbn [from_option id].
  change (side_store (on_primary (set_self_retired io_ok) n)) with
    (SideStore.upsert_side (stored_row (set_lifecycle_mem Lifecycle.Retired (set_self_retired_mem true (primary n))) Lifecycle.Retired
      (SideState.last_send_at (primary n)))
    (SideStore.upsert_side (stored_row (set_lifecycle_mem Lifecycle.Retired (set_self_retired_mem true (primary n))) Lifecycle.Retired
      (SideState.last_send_at (primary n))) (side_store n))).
  set (r := stored_row _ _ _). assert (stored_address r = ed_public seed) as Er by exact Ea.
  destruct (upserted r (SideStore.upsert_side r (side_store n))) as [(row & E1 & E2 & E3) E4]. rewrite Er in E1, E4.
  exists seed, row. split_and!; [done|exact E1|exact E2|exact E3|].
  intros b Hb. rewrite E4 by done. destruct (upserted r (side_store n)) as [_ E5]. rewrite E5 by (by rewrite Er).
  eapply loaded_others; [exact El|done].
Qed.
End Facts.
