(* ===== verification/Desktop.v ===== *)
(** The desktop shell ([src/desktop/tauri/src/main.rs]), what needs no running
    node: the offline commands on hex strings, the names of backups and
    avatars, the checks on media, and how the window shows a message.

    The hex, base64 and Unicode-normalization crates are parameters.  An error
    is the literal of its format string. *)

From S2P Require Import Prelude Utf8 Cbor Keys Envelope Payload Direct Address Sas Storage DirectServer TextMessage Str Machine.

Open Scope N_scope.

Definition trimmed (s : string) : string := of_bytes (trim (as_bytes s)).

(** The [hex] crate: lower-case digits, and every encoding decodes. *)
Class Hex := {
  hex_encode : bytes -> string;
  hex_decode : string -> option bytes
}.

Definition hex_digits (bs : bytes) : bool := forallb (fun b => in_range 0x30 0x39 b || in_range 0x61 0x66 b) bs.

Class HexLaws `{Hex} : Prop := {
  hex_roundtrip bs : hex_decode (hex_encode bs) = Some bs;
  hex_encode_digits bs : hex_digits (as_bytes (hex_encode bs)) = true
}.

(** ** The offline commands *)

Section Offline.
Context `{Crypto, Ecies, Bech32, Hex}.

Definition seed_from_hex (s : string) : Failure + bytes :=
  match hex_decode (trimmed s) with
  | None => inl FromHex
  | Some v => if blen v =? SECRET_KEY_LEN then inr v else inl (Anyhow "expected {SECRET_KEY_LEN}-byte seed, got {}")
  end.

Definition pubkey_from_hex (s : string) : Failure + bytes :=
  match hex_decode (trimmed s) with
  | None => inl FromHex
  | Some v => if blen v =? 32 then inr v else inl (Anyhow "expected 32-byte pubkey, got {}")
  end.

Definition decode_side_address (encoded : string) : Failure + bytes :=
  match Address.parse (trimmed encoded) with
  | Err _ => inl (Anyhow "parse side: {e}")
  | Ok addr =>
    if bool_decide (Address.kind addr = AddressKind.Side) then inr (Address.key addr)
    else inl (Anyhow "not a side address")
  end.

Section Commands.
Context {W : Type}.

Definition generate_master (generated : result bytes) : Prog W string :=
  seed ← Machine.core generated; mret (hex_encode seed).

Definition derive_side_hex (master_hex label : string) : Prog W string :=
  seed ← lift (seed_from_hex master_hex);
  mret (hex_encode (signing (derive_side {| master_seed := seed |} label))).

Definition pubkey_from_seed (seed_hex : string) : Prog W string :=
  seed ← lift (seed_from_hex seed_hex);
  mret (hex_encode (public_bytes (side_from_seed seed "(desktop)"))).

Definition encode_address (pubkey_hex kind : string) : Prog W string :=
  pubkey ← lift (pubkey_from_hex pubkey_hex);
  k ← (if String.eqb kind "side" then mret AddressKind.Side
       else if String.eqb kind "verse" then mret AddressKind.Verse
       else bail "unknown address kind {other:?}");
  Machine.address k pubkey.

Definition seal_dm (sender_seed_hex recipient_pubkey_hex text : string) (nonce : result bytes) (clock : result N)
    : Prog W string :=
  sender_seed ← lift (seed_from_hex sender_seed_hex);
  let sender := side_from_seed sender_seed "(desktop-dm-send)" in
  recipient ← lift (pubkey_from_hex recipient_pubkey_hex);
  nonce ← Machine.core nonce;
  ts ← Machine.core clock;
  ciphertext ← Machine.core (Payload.seal (DirectMessage.encode (text_message text)) sender recipient nonce []);
  env ← Machine.core (sign_with MT_DIRECT_MESSAGE sender (Some recipient) ciphertext ts nonce);
  mret (hex_encode (to_wire_bytes env)).

Definition open_dm (recipient_seed_hex wire_hex : string) : Prog W string :=
  seed ← lift (seed_from_hex recipient_seed_hex);
  let side := side_from_seed seed "(desktop-dm-recv)" in
  wire ← (match hex_decode (trimmed wire_hex) with Some w => mret w | None => failed FromHex end);
  env ← Machine.core (from_wire_bytes wire);
  if negb (message_type env =? MT_DIRECT_MESSAGE) then bail "envelope is not a DirectMessage"
  else if negb (bool_decide (Envelope.to env = Some (public_bytes side))) then
    bail "envelope is not addressed to this side"
  else
    plain ← Machine.core (Payload.open (payload env) side (from env) (Envelope.nonce env) []);
    dm ← Machine.core (DirectMessage.decode plain);
    match DirectMessage.body dm with
    | DirectMessage.Text s => mret s
    | DirectMessage.ReferenceBytes _ => bail "media DMs not yet supported in the desktop UI"
    end.

End Commands.
End Offline.

(** ** Names of backups *)

(** [Path::join], on Unix. *)
Definition path_join (a b : string) : string :=
  if starts_with [Byte.x2f] (as_bytes b) then b
  else if bool_decide (a = ""%string) || ends_with [Byte.x2f] (as_bytes a) then a +:+ b
  else a +:+ "/" +:+ b.

(** [Path::parent], of a path with a separator. *)
Fixpoint after_slash (r : bytes) : option bytes :=
  match r with [] => None | b :: r => if bool_decide (b = Byte.x2f) then Some r else after_slash r end.

Definition parent (p : string) : option string :=
  r ← after_slash (rev (as_bytes p));
  Some (match r with [] => "/"%string | _ => of_bytes (rev r) end).

Definition BACKUP_SUBDIR : string := "backups".
Definition MAX_BACKUP_FILENAME_LEN : N := 128.

Definition WIN_RESERVED : list string :=
  ["CON"; "PRN"; "AUX"; "NUL"; "COM1"; "COM2"; "COM3"; "COM4"; "COM5"; "COM6"; "COM7"; "COM8";
   "COM9"; "LPT1"; "LPT2"; "LPT3"; "LPT4"; "LPT5"; "LPT6"; "LPT7"; "LPT8"; "LPT9"]%string.

(** NUL and : * ? quote < > | *)
Definition NTFS_RESERVED : bytes :=
  [Byte.x00; Byte.x3a; Byte.x2a; Byte.x3f; Byte.x22; Byte.x3c; Byte.x3e; Byte.x7c].

(** U+202A to U+202E, U+2066 to U+2069, U+200B to U+200F, U+FEFF. *)
Definition BIDI_OR_ZERO_WIDTH : list bytes :=
  map (fun b => [Byte.xe2; Byte.x80; b]) [Byte.xaa; Byte.xab; Byte.xac; Byte.xad; Byte.xae] ++
  map (fun b => [Byte.xe2; Byte.x81; b]) [Byte.xa6; Byte.xa7; Byte.xa8; Byte.xa9] ++
  map (fun b => [Byte.xe2; Byte.x80; b]) [Byte.x8b; Byte.x8c; Byte.x8d; Byte.x8e; Byte.x8f] ++
  [[Byte.xef; Byte.xbb; Byte.xbf]].

Section Backups.
Context (nfc : string -> string) (canonicalize : string -> option string).

(** Why a trimmed file name is refused. *)
Definition refused_filename (name : bytes) : option string :=
  if bool_decide (name = []) then Some "backup filename cannot be empty"%string
  else if MAX_BACKUP_FILENAME_LEN <? blen name then
    Some "backup filename too long (max {MAX_BACKUP_FILENAME_LEN} chars)"%string
  else if contains [Byte.x2f] name || contains [Byte.x5c] name then
    Some "backup filename must not contain path separators"%string
  else if bool_decide (name = as_bytes ".") || bool_decide (name = as_bytes "..") || starts_with [Byte.x2e] name then
    Some "backup filename cannot start with '.' or be a parent ref"%string
  else if existsb (fun c => contains [c] name) NTFS_RESERVED then
    Some "backup filename contains a forbidden character"%string
  else if ends_with [Byte.x2e] name || ends_with [Byte.x20] name then
    Some "backup filename cannot end with '.' or space"%string
  else if existsb (fun c => contains c name) BIDI_OR_ZERO_WIDTH then
    Some "backup filename contains a bidi/zero-width control character"%string
  else if existsb (fun r => eq_ignore_ascii_case (before Byte.x2e name) (as_bytes r)) WIN_RESERVED then
    Some "backup filename uses a reserved Windows device name ({stem})"%string
  else if negb (String.eqb (nfc (of_bytes name)) (of_bytes name)) then
    Some "backup filename contains non-NFC-normalized Unicode (visually ambiguous)"%string
  else None.

Definition safe_backup_path (data_dir filename : string) : Failure + string :=
  match refused_filename (trim (as_bytes filename)) with
  | Some msg => inl (Anyhow msg)
  | None =>
    match canonicalize data_dir with
    | None => inl (Anyhow "data_dir does not resolve to a real path: {e}")
    | Some canonical_dir => inr (path_join (path_join canonical_dir BACKUP_SUBDIR) (nfc (trimmed filename)))
    end
  end.

End Backups.

(** ** Avatars and media *)

Definition AVATAR_SUBDIR : string := "avatars".
Definition AVATAR_MAX_BYTES : N := 256 * 1024.
Definition JPEG_MAGIC : bytes := [Byte.xff; Byte.xd8; Byte.xff].

Definition avatar_name (pk : bytes) : string := of_bytes (flat_map LogId.hex_byte pk ++ as_bytes ".jpg").

Definition avatar_path_for `{Bech32} (data_dir side_address : string) : Failure + string :=
  match decode_side_address side_address with
  | inl e => inl e
  | inr pk => inr (path_join (path_join data_dir AVATAR_SUBDIR) (avatar_name pk))
  end.

(** The checks of [set_side_avatar]. *)
Definition validate_avatar (bs : bytes) : Failure + unit :=
  if bool_decide (bs = []) then inl (Anyhow "avatar: empty image")
  else if AVATAR_MAX_BYTES <? blen bs then inl (Anyhow "avatar: image too large ({} bytes; max {})")
  else if (blen bs <? 3) || negb (starts_with JPEG_MAGIC bs) then
    inl (Anyhow "avatar: only JPEG accepted (frontend should resize via canvas)")
  else inr tt.

Definition MEDIA_CACHE_SUBDIR : string := "media-cache".
Definition MEDIA_MAX_BYTES : N := 10 * 1024 * 1024.
Definition PNG_MAGIC : bytes := [Byte.x89; Byte.x50; Byte.x4e; Byte.x47; Byte.x0d; Byte.x0a; Byte.x1a; Byte.x0a].
Definition WEBM_MAGIC : bytes := [Byte.x1a; Byte.x45; Byte.xdf; Byte.xa3].
Definition OGG_MAGIC : bytes := [Byte.x4f; Byte.x67; Byte.x67; Byte.x53].

Definition validate_image_bytes (bs : bytes) : Failure + string :=
  if bool_decide (bs = []) then inl (Anyhow "image: empty")
  else if MEDIA_MAX_BYTES <? blen bs then inl (Anyhow "image: too large ({} bytes; max {})")
  else if (3 <=? blen bs) && starts_with JPEG_MAGIC bs then inr "image/jpeg"%string
  else if (8 <=? blen bs) && starts_with PNG_MAGIC bs then inr "image/png"%string
  else inl (Anyhow "image: only JPEG or PNG accepted").

Definition validate_voice_bytes (bs : bytes) : Failure + string :=
  if bool_decide (bs = []) then inl (Anyhow "voice: empty")
  else if MEDIA_MAX_BYTES <? blen bs then inl (Anyhow "voice: too large ({} bytes; max {})")
  else if (4 <=? blen bs) && starts_with WEBM_MAGIC bs then inr "audio/webm"%string
  else if (4 <=? blen bs) && starts_with OGG_MAGIC bs then inr "audio/ogg"%string
  else inl (Anyhow "voice: only WebM/Ogg containers accepted").

(** The kind of a media message and the type of its bytes. *)
Definition media_kind (kind : string) (bs : bytes) : Failure + (string * DirectKind.t) :=
  if String.eqb kind "image" then
    match validate_image_bytes bs with inr mime => inr (mime, DirectKind.Image) | inl e => inl e end
  else if String.eqb kind "voice" then
    match validate_voice_bytes bs with inr mime => inr (mime, DirectKind.Voice) | inl e => inl e end
  else inl (Anyhow "unknown media kind: {other}").

Definition media_message (kind : DirectKind.t) (r : Reference.t) : DirectMessage.t :=
  {| DirectMessage.kind := kind; DirectMessage.body := DirectMessage.ReferenceBytes (Reference.encode r);
     DirectMessage.reply_to := None; DirectMessage.thread := None |}.

(** ** Messages as the window shows them *)

Record InboxDm := {
  from : string;
  to : string;
  plaintext : string;
  received_at : N;
  kind : string;
  media_hash_hex : option string;
  media_size : option N;
  media_mime : option string
}.

Definition decode_dm_plaintext (bs : bytes) : string * string * option Reference.t :=
  match DirectMessage.decode bs with
  | Ok payload =>
    let kind :=
      match DirectMessage.kind payload with
      | DirectKind.Text => "text" | DirectKind.Image => "image" | DirectKind.Voice => "voice"
      | DirectKind.File => "file" | DirectKind.Other _ => "other"
      end%string in
    match DirectMessage.body payload with
    | DirectMessage.Text s => (kind, s, None)
    | DirectMessage.ReferenceBytes ref_bytes =>
      (kind, ""%string, match Reference.decode ref_bytes with Ok r => Some r | Err _ => None end)
    end
  | Err _ => ("text"%string, from_utf8_lossy bs, None)
  end.

Definition build_inbox_dm `{Hex} (from_addr_bech32 to_addr_bech32 : string) (plaintext_bytes : bytes) (received : N)
    : InboxDm :=
  let '(kind, text, media_ref) := decode_dm_plaintext plaintext_bytes in
  {| from := from_addr_bech32; to := to_addr_bech32; plaintext := text; received_at := received; kind := kind;
     media_hash_hex := (fun r => hex_encode (Reference.hash r)) <$> media_ref;
     media_size := Reference.size <$> media_ref; media_mime := Reference.mime <$> media_ref |}.
