(* ===== verification/DesktopFacts.v ===== *)
(** Theorems on the parts of the desktop shell that need no node: how messages
    are shown, the offline commands, the names of backups and avatars, and the
    checks on media. *)

From S2P Require Import Prelude Utf8 Cbor CborCodec CborValue Keys Envelope Payload Direct Address Sas Storage NodeFacts DirectServer TextMessage Str Machine Desktop.

Open Scope N_scope.

(** ** Messages *)

(** A payload starts with the head of a map, which no text does. *)
Lemma map_major_not_text b rest : N.shiftr (Byte.to_N b) 5 = 5 -> utf8_valid (b :: rest) = false.
Proof.
  intros Hb. rewrite N.shiftr_div_pow2 in Hb. change (2 ^ 5) with 32 in Hb.
  pose proof (N.div_mod (Byte.to_N b) 32 ltac:(done)) as E. pose proof (N.mod_lt (Byte.to_N b) 32 ltac:(done)) as L.
  rewrite Hb in E. revert E L. generalize (Byte.to_N b mod 32). intros m E L. clear Hb. cbn [utf8_valid]. unfold in_range.
  assert (160 <= Byte.to_N b < 192) as [] by lia.
  destruct (N.leb_spec (Byte.to_N b) 0x7F); [lia|]. destruct (N.leb_spec 0xC2 (Byte.to_N b)); [lia|].
  destruct (N.leb_spec 0xE0 (Byte.to_N b)); [lia|]. destruct (N.leb_spec 0xF0 (Byte.to_N b)); [lia|].
  rewrite !andb_false_r. cbn. by repeat case_match.
Qed.

Lemma text_is_no_payload s :
  utf8_valid (as_bytes s) = true -> blen (as_bytes s) < u64_size ->
  exists e, DirectMessage.decode (as_bytes s) = Err e.
Proof.
  intros Hu Hl. destruct (DirectMessage.decode (as_bytes s)) as [p|e] eqn:E; [|by exists e].
  apply (decode_exact DirectMessage.encode DirectMessage.fields DirectMessage.wf) in E; [|apply _|exact Hl].
  destruct E as [_ E].
  unfold DirectMessage.encode, DirectMessage.entries in E. flatten_in E. rewrite head_bytes_eq in E. cbn [app] in E.
  rewrite E, map_major_not_text in Hu; [done|]. by apply major_initial_byte.
Qed.

(** A text sent as its bytes, and one sent in a payload, are shown as they are. *)
Lemma live_text_shown s :
  utf8_valid (as_bytes s) = true -> blen (as_bytes s) < u64_size ->
  decode_dm_plaintext (as_bytes s) = ("text"%string, s, None).
Proof.
  intros Hu Hl. unfold decode_dm_plaintext. destruct (text_is_no_payload s Hu Hl) as [e ->].
  by rewrite from_utf8_lossy_valid.
Qed.

Lemma text_message_shown s :
  sendable s -> decode_dm_plaintext (DirectMessage.encode (text_message s)) = ("text"%string, s, None).
Proof. intros Hs. unfold decode_dm_plaintext. by rewrite text_message_read. Qed.

(** A media message is shown with its reference. *)
Definition reference_value (hash : bytes) (size : N) (mime : string) : cval :=
  CMap [(CText "deps", CArray []); (CText "hash", CBytes hash); (CText "size", CUint size);
        (CText "type", CText mime); (CText "hints", CArray [])].

Lemma reference_value_enc hash size mime :
  Reference.encode (Reference.new hash size mime) = enc (reference_value hash size mime).
Proof.
  unfold Reference.new, Reference.encode, Reference.encode_hints_array, reference_value. flatten.
  cbn [enc length map concat fst snd]. rewrite ?app_nil_r, <-?app_assoc. done.
Qed.

Lemma reference_value_skips hash size mime :
  blen hash = ADDRESS_LEN -> size < u64_size -> wf_text mime -> skips MAX_CBOR_SKIP_DEPTH (reference_value hash size mime).
Proof.
  intros Hh Hs Hm. split; [|cbn; unfold MAX_CBOR_SKIP_DEPTH; lia].
  cbn. unfold wf_bytes, u64_size, MAX_CBOR_ENTRIES, ADDRESS_LEN in *. split_and!; try done. lia.
Qed.

(** The lengths of the parts of an encoding. *)
Ltac bound_blen :=
  rewrite ?blen_app;
  repeat match goal with
    | |- context [blen (Cbor.key ?t)] => eval_blen (Cbor.key t)
    | |- context [blen (head_bytes ?m ?a)] =>
      lazymatch goal with
      | _ : blen (head_bytes m a) <= 9 |- _ => fail
      | _ => pose proof (head_bytes_le m a)
      end
    end.

Lemma reference_blen hash size mime :
  blen (Reference.encode (Reference.new hash size mime)) <= 100 + blen hash + blen (as_bytes mime).
Proof.
  rewrite reference_value_enc. unfold reference_value. cbn [enc length map concat fst snd].
  rewrite (text_eq mime), (bytestr_eq hash), (uint_eq size). bound_blen.
  repeat match goal with |- context [blen (text ?t)] => eval_blen (text t) end.
  change (blen []) with 0. lia.
Qed.

Lemma media_blen k r :
  k = DirectKind.Image \/ k = DirectKind.Voice ->
  blen (DirectMessage.encode (media_message k r)) <= 100 + blen (Reference.encode r).
Proof.
  intros Hk. unfold DirectMessage.encode, DirectMessage.entries. flatten.
  cbn [media_message DirectMessage.body DirectMessage.body_value DirectMessage.thread DirectMessage.reply_to or_null].
  bound_blen.
  assert (blen (text (DirectKind.as_str (DirectMessage.kind (media_message k r)))) = 6) as ->.
  { by destruct Hk as [->| ->]. }
  eval_blen (text "body"). change (blen null) with 1. lia.
Qed.

Lemma media_message_shown k hash size mime :
  k = DirectKind.Image \/ k = DirectKind.Voice ->
  blen hash = ADDRESS_LEN -> size < u64_size -> wf_text mime -> blen (as_bytes mime) < 2 ^ 32 ->
  decode_dm_plaintext (DirectMessage.encode (media_message k (Reference.new hash size mime))) =
  (DirectKind.as_str k, ""%string, Some (Reference.new hash size mime)).
Proof.
  intros Hk Hh Hs Hm Hl. unfold decode_dm_plaintext.
  pose proof (reference_blen hash size mime) as Br. rewrite Hh in Br. unfold ADDRESS_LEN in Br.
  pose proof (media_blen k (Reference.new hash size mime) Hk) as Bm.
  assert (DirectMessage.decode (DirectMessage.encode (media_message k (Reference.new hash size mime))) =
          Ok (media_message k (Reference.new hash size mime))) as ->.
  { apply (decode_exact DirectMessage.encode DirectMessage.fields DirectMessage.wf); [apply _|unfold u64_size; lia|].
    split; [|done]. split_and!; try done.
    - exists (reference_value hash size mime). split; [split; [by apply reference_value_skips|done]|apply reference_value_enc].
    - by destruct Hk as [->| ->]; split. }
  cbn [media_message DirectMessage.body DirectMessage.kind].
  assert (blen (Reference.encode (Reference.new hash size mime)) < u64_size) as F by (unfold u64_size; lia).
  rewrite (proj2 (StorageFacts.reference_decode_prefix _ (Reference.new hash size mime) F)).
  - by destruct Hk as [->| ->].
  - split; [|exists []; by rewrite app_nil_r]. cbn. unfold MAX_CBOR_ENTRIES. by split_and!.
Qed.

(** ** Names of backups *)

(** The components of a Unix path. *)
Fixpoint components_from (acc bs : bytes) : list bytes :=
  match bs with
  | [] => [acc]
  | b :: bs => if bool_decide (b = Byte.x2f) then acc :: components_from [] bs else components_from (acc ++ [b]) bs
  end.

Definition components (p : string) : list bytes := List.filter (fun c => negb (bool_decide (c = []))) (components_from [] (as_bytes p)).

Lemma components_from_app acc a b :
  exists l x, components_from acc a = l ++ [x] /\ components_from acc (a ++ b) = l ++ components_from x b.
Proof.
  revert acc. induction a as [|c a IH]; intros acc; cbn [app components_from]; [by exists [], acc|].
  case_bool_decide.
  - destruct (IH []) as (l & x & E1 & E2). exists (acc :: l), x. by rewrite E1, E2.
  - apply IH.
Qed.

Lemma components_from_name acc name : Byte.x2f ∉ name -> components_from acc name = [acc ++ name].
Proof.
  revert acc. induction name as [|b name IH]; intros acc Hn; cbn [components_from]; [by rewrite app_nil_r|].
  rewrite bool_decide_eq_false_2 by (intros ->; apply Hn; by left).
  rewrite IH by (intros ?; apply Hn; by right). by rewrite <-app_assoc.
Qed.

Lemma starts_with_cons b name : starts_with [b] name = bool_decide (head name = Some b).
Proof.
  unfold starts_with. destruct name as [|c name]; [done|]. cbn [length take head].
  apply bool_decide_ext. split; by intros [= ->].
Qed.

(** Joining a name adds the one component. *)
Lemma components_join dir name :
  name <> ""%string -> Byte.x2f ∉ as_bytes name -> components (path_join dir name) = components dir ++ [as_bytes name].
Proof.
  intros Hne Hn. unfold path_join.
  assert (starts_with [Byte.x2f] (as_bytes name) = false) as ->.
  { rewrite starts_with_cons. apply bool_decide_eq_false. intros E. apply Hn.
    destruct (as_bytes name) as [|b l]; [done|]. injection E as ->. by left. }
  assert (as_bytes name <> []) as Hb.
  { intros E. apply Hne. rewrite <-(of_bytes_as_bytes name), E. done. }
  assert (forall a, List.filter (fun c => negb (bool_decide (c = []))) (components_from [] (a ++ Byte.x2f :: as_bytes name)) =
    List.filter (fun c => negb (bool_decide (c = []))) (components_from [] a) ++ [as_bytes name]) as Hs.
  { intros a. destruct (components_from_app [] a (Byte.x2f :: as_bytes name)) as (l & x & -> & ->).
    cbn [components_from]. rewrite bool_decide_eq_true_2 by done. rewrite (components_from_name []) by done. cbn [app].
    change (x :: [as_bytes name]) with ([x] ++ [as_bytes name]). rewrite app_assoc, (List.filter_app _ (l ++ [x])). f_equal.
    cbn [List.filter]. by rewrite bool_decide_eq_false_2. }
  unfold components. case_bool_decide as Ea; cbn [orb].
  - subst dir. change (as_bytes ("" +:+ name)) with (as_bytes name).
    rewrite (components_from_name []) by done. cbn [app List.filter]. by rewrite bool_decide_eq_false_2.
  - rewrite <-Hs. destruct (ends_with _ _) eqn:Ew.
    + apply starts_with_spec in Ew as [r Er]. apply (f_equal (rev (A:=byte))) in Er. rewrite rev_involutive in Er.
      rewrite rev_app_distr, rev_involutive in Er.
      rewrite SasFacts.as_bytes_app, Er, <-app_assoc. cbn [app].
      rewrite (Hs (rev r)). rewrite (Hs (rev r ++ [Byte.x2f])). f_equal.
      destruct (components_from_app [] (rev r) [Byte.x2f]) as (l & x & -> & ->).
      cbn [components_from]. rewrite bool_decide_eq_true_2 by done.
      change [x; []] with ([x] ++ [[]:bytes]). rewrite app_assoc, (List.filter_app _ (l ++ [x])). cbn. by rewrite app_nil_r.
    + by rewrite !SasFacts.as_bytes_app.
Qed.

(** What the checks ask of a name, spelled out. *)
Record safe_name (nfc : string -> string) (n : bytes) : Prop := {
  sn_length : 0 < blen n <= MAX_BACKUP_FILENAME_LEN;
  sn_chars : forall c, c ∈ n -> c ∉ [Byte.x2f; Byte.x5c] ++ NTFS_RESERVED;
  sn_first : head n <> Some Byte.x2e;
  sn_last : last n <> Some Byte.x2e /\ last n <> Some Byte.x20;
  sn_hidden : forall c l r, c ∈ BIDI_OR_ZERO_WIDTH -> n <> l ++ c ++ r;
  sn_device : forall r, r ∈ WIN_RESERVED ->
    map to_ascii_lowercase (before Byte.x2e n) <> map to_ascii_lowercase (as_bytes r);
  sn_nfc : nfc (of_bytes n) = of_bytes n
}.

Lemma ends_with_last b n : ends_with [b] n = bool_decide (last n = Some b).
Proof.
  unfold ends_with. cbn [rev app]. rewrite starts_with_cons.
  apply bool_decide_ext. induction n as [|x n _] using rev_ind; [done|]. by rewrite rev_app_distr, last_snoc.
Qed.

Lemma existsb_false {A} (f : A -> bool) l : existsb f l = false <-> forall x, x ∈ l -> f x = false.
Proof.
  rewrite <-not_true_iff_false, existsb_exists. split.
  - intros H x Hx. destruct (f x) eqn:E; [|done]. destruct H. exists x. split; [by apply list_elem_of_In|done].
  - intros H (x & Hx%list_elem_of_In & E). by rewrite H in E.
Qed.

Lemma contains_false p bs : contains p bs = false <-> forall l r, bs <> l ++ p ++ r.
Proof.
  rewrite <-not_true_iff_false, contains_spec. split; [intros H l r E; destruct H; eauto|intros H (l & r & E); by eapply H].
Qed.

Lemma refuse_none {A} (b : bool) (x : A) o : (if b then Some x else o) = None <-> b = false /\ o = None.
Proof. destruct b; naive_solver. Qed.

Lemma refused_filename_none nfc n : refused_filename nfc n = None <-> safe_name nfc n.
Proof.
  unfold refused_filename. rewrite !refuse_none, !orb_false_iff, !existsb_false, !ends_with_last, starts_with_cons,
    !bool_decide_eq_false, N.ltb_ge, negb_false_iff, String.eqb_eq. split.
  - intros (H1 & H2 & (H3 & H4) & ((_ & _) & H5) & H6 & (H7 & H8) & H9 & H10 & H11 & _). split; try done.
    + destruct n; [done|]. split; [unfold blen; cbn; lia|done].
    + intros c Hc%contains_byte [Hf|Hf]%elem_of_app; [set_unfold in Hf; destruct Hf as [-> |[-> |[]]]; congruence|].
      by rewrite H6 in Hc.
    + intros c l r Hc. apply contains_false. by apply H9.
    + intros r Hr. specialize (H10 r Hr). unfold eq_ignore_ascii_case in H10. by apply bool_decide_eq_false in H10.
  - intros [[H1 H1'] H2 H3 [H4 H5] H6 H7 H8].
    assert (forall c, c ∈ [Byte.x2f; Byte.x5c] ++ NTFS_RESERVED -> contains [c] n = false) as Hc.
    { intros c Hc. apply not_true_iff_false. intros Hn%contains_byte. by apply (H2 c). }
    split_and!; try done.
    + by intros ->.
    + apply Hc. set_solver.
    + apply Hc. set_solver.
    + by intros ->.
    + by intros ->.
    + intros c Hf. apply Hc. set_solver.
    + intros c Hf. apply contains_false. intros l r. by apply H6.
    + intros r Hr. apply bool_decide_eq_false. by apply H7.
Qed.

Lemma safe_backup_path_ok nfc canonicalize dir filename p :
  safe_backup_path nfc canonicalize dir filename = inr p <->
  safe_name nfc (as_bytes (trimmed filename)) /\
  exists root, canonicalize dir = Some root /\ p = path_join (path_join root BACKUP_SUBDIR) (trimmed filename).
Proof.
  unfold safe_backup_path, trimmed. rewrite as_bytes_of_bytes.
  pose proof (refused_filename_none nfc (trim (as_bytes filename))) as R.
  destruct (refused_filename nfc (trim (as_bytes filename))) as [msg|].
  - split; [done|]. intros [Hs _]. by apply R in Hs.
  - pose proof (proj1 R eq_refl) as Hs. rewrite (sn_nfc _ _ Hs). destruct (canonicalize dir) as [root|]; [|naive_solver].
    split; [intros [= <-]; eauto|]. by intros (_ & root' & [= <-] & ->).
Qed.

(** ** Avatars and media *)

Lemma avatar_name_inj pk pk' : avatar_name pk = avatar_name pk' -> pk = pk'.
Proof.
  unfold avatar_name. intros E. apply (f_equal as_bytes) in E. rewrite !as_bytes_of_bytes in E.
  by eapply LogIdFacts.hex_inj.
Qed.

Lemma hex_byte_digits b : hex_digits (LogId.hex_byte b) = true.
Proof. by destruct b; vm_compute. Qed.

Lemma hex_digit_range b : in_range 0x30 0x39 b || in_range 0x61 0x66 b = true -> 0x30 <= Byte.to_N b.
Proof. unfold in_range. intros [H|H]%orb_true_iff; to_prop; lia. Qed.

(** The name of an avatar is one component. *)
Lemma avatar_name_component pk : avatar_name pk <> ""%string /\ Byte.x2f ∉ as_bytes (avatar_name pk).
Proof.
  assert (as_bytes (avatar_name pk) = flat_map LogId.hex_byte pk ++ as_bytes ".jpg") as E
    by (unfold avatar_name; apply as_bytes_of_bytes).
  split.
  - intros Hn. rewrite Hn in E. by destruct (flat_map LogId.hex_byte pk).
  - rewrite E. intros [H|H]%elem_of_app; [|apply (bool_decide_pack _) in H; by vm_compute in H].
    apply list_elem_of_In, in_flat_map in H as (b & _ & H).
    pose proof (hex_byte_digits b) as D. unfold hex_digits in D. rewrite forallb_forall in D.
    specialize (D _ H). by vm_compute in D.
Qed.

Lemma path_join_inj dir a b :
  Byte.x2f ∉ as_bytes a -> Byte.x2f ∉ as_bytes b -> path_join dir a = path_join dir b -> a = b.
Proof.
  assert (forall a, Byte.x2f ∉ as_bytes a -> starts_with [Byte.x2f] (as_bytes a) = false) as Hs.
  { intros x Hx. rewrite starts_with_cons. apply bool_decide_eq_false. intros E. apply Hx.
    destruct (as_bytes x); [done|]. injection E as ->. by left. }
  intros Ha Hb. unfold path_join. rewrite !Hs by done. case_match; intros E.
  - apply (f_equal as_bytes) in E. rewrite !SasFacts.as_bytes_app in E. apply app_inv_head in E.
    by rewrite <-(of_bytes_as_bytes a), E, of_bytes_as_bytes.
  - apply (f_equal as_bytes) in E. rewrite !SasFacts.as_bytes_app in E. apply app_inv_head, app_inv_head in E.
    by rewrite <-(of_bytes_as_bytes a), E, of_bytes_as_bytes.
Qed.

Lemma avatar_path_ok `{Bech32} dir side p :
  avatar_path_for dir side = inr p <->
  exists pk, decode_side_address side = inr pk /\ p = path_join (path_join dir AVATAR_SUBDIR) (avatar_name pk).
Proof.
  unfold avatar_path_for. destruct (decode_side_address side) as [f|pk]; [naive_solver|].
  split; [intros [= <-]; eauto|]. by intros (pk' & [= <-] & ->).
Qed.

(** Two sides have two files. *)
Lemma avatar_paths_differ `{Bech32} dir a b p :
  avatar_path_for dir a = inr p -> avatar_path_for dir b = inr p -> decode_side_address a = decode_side_address b.
Proof.
  intros (pk & -> & ->)%avatar_path_ok (pk' & -> & E)%avatar_path_ok. f_equal.
  apply avatar_name_inj. eapply path_join_inj; [apply avatar_name_component..|exact E].
Qed.

Lemma magic_eq n m bs : n = blen m -> (n <=? blen bs) && starts_with m bs = starts_with m bs.
Proof.
  intros ->. destruct (starts_with m bs) eqn:E; [|by rewrite andb_false_r].
  apply starts_with_spec in E as [rest ->]. rewrite andb_true_r, blen_app. apply N.leb_le. lia.
Qed.

Lemma starts_with_other b c m m' bs : b <> c -> starts_with (b :: m) bs = true -> starts_with (c :: m') bs = false.
Proof.
  intros Hbc [r ->]%starts_with_spec. apply not_true_iff_false. intros [r' E]%starts_with_spec. by injection E.
Qed.

(** Media is accepted when it is not empty, within the limit, and starts with
    the magic of a format, which gives its type. *)
Lemma validate_ok (empty large neither : Failure) m1 m2 t1 t2 bs mime :
  (forall l, starts_with m1 l = true -> starts_with m2 l = false) ->
  (if bool_decide (bs = []) then inl empty : Failure + string
   else if MEDIA_MAX_BYTES <? blen bs then inl large
   else if (blen m1 <=? blen bs) && starts_with m1 bs then inr t1
   else if (blen m2 <=? blen bs) && starts_with m2 bs then inr t2
   else inl neither) = inr mime <->
  0 < blen bs <= MEDIA_MAX_BYTES /\
  ((mime = t1 /\ starts_with m1 bs = true) \/ (mime = t2 /\ starts_with m2 bs = true)).
Proof.
  intros Hx. rewrite !magic_eq by done. case_bool_decide as E0; [subst; split; [done|intros [[[=] _] _]]|].
  assert (0 < blen bs) as L0 by (destruct bs; [done|unfold blen; cbn; lia]).
  destruct (N.ltb_spec MEDIA_MAX_BYTES (blen bs)) as [L|L]; [split; [done|intros [[_ L'] _]; lia]|].
  specialize (Hx bs). destruct (starts_with m1 bs); [rewrite Hx by done|destruct (starts_with m2 bs)]; naive_solver.
Qed.

Lemma validate_image_ok bs mime :
  validate_image_bytes bs = inr mime <->
  0 < blen bs <= MEDIA_MAX_BYTES /\
  ((mime = "image/jpeg"%string /\ starts_with JPEG_MAGIC bs = true) \/
   (mime = "image/png"%string /\ starts_with PNG_MAGIC bs = true)).
Proof. apply (validate_ok _ _ _ JPEG_MAGIC PNG_MAGIC). intros l. by apply starts_with_other. Qed.

Lemma validate_voice_ok bs mime :
  validate_voice_bytes bs = inr mime <->
  0 < blen bs <= MEDIA_MAX_BYTES /\
  ((mime = "audio/webm"%string /\ starts_with WEBM_MAGIC bs = true) \/
   (mime = "audio/ogg"%string /\ starts_with OGG_MAGIC bs = true)).
Proof. apply (validate_ok _ _ _ WEBM_MAGIC OGG_MAGIC). intros l. by apply starts_with_other. Qed.

Lemma media_kind_ok kind bs mime k :
  media_kind kind bs = inr (mime, k) ->
  (k = DirectKind.Image \/ k = DirectKind.Voice) /\ kind = DirectKind.as_str k /\
  mime ∈ ["image/jpeg"; "image/png"; "audio/webm"; "audio/ogg"]%string /\ 0 < blen bs <= MEDIA_MAX_BYTES.
Proof.
  unfold media_kind. destruct (String.eqb_spec kind "image") as [->|]; [|destruct (String.eqb_spec kind "voice") as [->|]; [|done]].
  - destruct (validate_image_bytes bs) as [f|m] eqn:E; [done|]. intros [= -> <-].
    apply validate_image_ok in E as [L E]. split_and!; try naive_solver. destruct E as [[-> _]|[-> _]]; set_solver.
  - destruct (validate_voice_bytes bs) as [f|m] eqn:E; [done|]. intros [= -> <-].
    apply validate_voice_ok in E as [L E]. split_and!; try naive_solver. destruct E as [[-> _]|[-> _]]; set_solver.
Qed.

(** ** The offline commands *)

(** What [hex] prints has no white space at its ends. *)
Lemma strip_any_digit ps b bs :
  forallb (fun p => match p with [] => false | c :: _ => negb (bool_decide (c = b)) end) ps = true ->
  strip_any ps (b :: bs) = None.
Proof.
  induction ps as [|p ps IH]; [done|]. cbn [forallb]. intros [Hp Hps]%andb_prop. cbn [strip_any fold_right].
  destruct p as [|c p]; [done|]. unfold strip at 1. rewrite bool_decide_eq_false_2.
  - by apply IH.
  - cbn. intros [= E _]. subst. by rewrite bool_decide_eq_true_2 in Hp.
Qed.

Lemma trim_start_digit ps b bs fuel :
  forallb (fun p => match p with [] => false | c :: _ => negb (bool_decide (c = b)) end) ps = true ->
  trim_start ps fuel (b :: bs) = b :: bs.
Proof. intros H. destruct fuel; [done|]. cbn [trim_start]. by rewrite strip_any_digit. Qed.

Lemma trim_digits bs : hex_digits bs = true -> trim bs = bs.
Proof.
  intros H. unfold hex_digits in H. rewrite forallb_forall in H.
  assert (forall ps, ps = WHITE_SPACE \/ ps = map (rev (A:=byte)) WHITE_SPACE -> forall l fuel,
    (forall x, In x l -> In x bs) -> trim_start ps fuel l = l) as Ht.
  { intros ps Hps [|b l] fuel Hl; [by destruct fuel; destruct Hps as [->| ->]|].
    apply trim_start_digit. specialize (H b (Hl b ltac:(by left))).
    destruct Hps as [->| ->]; revert H; clear; by destruct b; vm_compute. }
  unfold trim. rewrite (Ht WHITE_SPACE (or_introl eq_refl) bs) by done.
  rewrite (Ht (map (rev (A:=byte)) WHITE_SPACE) (or_intror eq_refl)); [by rewrite rev_involutive|].
  intros x. by rewrite <-in_rev.
Qed.

Lemma trimmed_hex `{HexLaws} bs : trimmed (hex_encode bs) = hex_encode bs.
Proof. unfold trimmed. rewrite trim_digits by apply hex_encode_digits. apply of_bytes_as_bytes. Qed.

Section Offline.
Context `{CryptoLaws, !Ecies, !EciesLaws, !Bech32, HexLaws}.


(** The string a user passes for [bs]. *)
Definition hex_of (s : string) (bs : bytes) : Prop := hex_decode (trimmed s) = Some bs.

Lemma hex_of_encode bs : hex_of (hex_encode bs) bs.
Proof using All. unfold hex_of. rewrite trimmed_hex. apply hex_roundtrip. Qed.

Lemma seed_from_hex_ok s v : seed_from_hex s = inr v <-> hex_of s v /\ blen v = SECRET_KEY_LEN.
Proof using.
  unfold seed_from_hex, hex_of. destruct (hex_decode (trimmed s)) as [u|]; [|naive_solver].
  destruct (N.eqb_spec (blen u) SECRET_KEY_LEN); naive_solver.
Qed.

Lemma pubkey_from_hex_ok s v : pubkey_from_hex s = inr v <-> hex_of s v /\ blen v = 32.
Proof using.
  unfold pubkey_from_hex, hex_of. destruct (hex_decode (trimmed s)) as [u|]; [|naive_solver].
  destruct (N.eqb_spec (blen u) 32); naive_solver.
Qed.

(** What [seal_dm] returns, and what [open_dm] makes of a sealed message. *)
Lemma desktop_seals {W} sh rh txt nonce ts (w w' : W) out :
  blen nonce = NONCE_LEN -> ts < u64_size -> seal_dm sh rh txt (Ok nonce) (Ok ts) w = (Fine out, w') ->
  exists seed recipient wire, hex_of sh seed /\ hex_of rh recipient /\ hex_of out wire /\
    sealed_text seed recipient txt wire.
Proof using All.
  intros Hn Ht Q. unfold seal_dm in Q.
  apply fine_bind in Q as (seed & w1 & [[Hs _]%seed_from_hex_ok ->]%lift_fine & Q).
  apply fine_bind in Q as (r & w1 & [[Hr _]%pubkey_from_hex_ok ->]%lift_fine & Q).
  apply fine_bind in Q as (n & w1 & [[= <-] ->]%core_fine & Q).
  apply fine_bind in Q as (t & w1 & [[= <-] ->]%core_fine & Q).
  apply fine_bind in Q as (ct & w1 & [Hct ->]%core_fine & Q).
  apply fine_bind in Q as (e & w1 & [He ->]%core_fine & Q). injection Q as <- <-.
  exists seed, r, (to_wire_bytes e). split_and!; [done..|apply hex_of_encode|]. by exists nonce, ts, ct, e.
Qed.

Lemma desktop_opens {W} seed rseed s wire rh wh (w : W) :
  sealed_text seed (ed_public rseed) s wire -> sendable s -> blen wire < u64_size ->
  blen rseed = SECRET_KEY_LEN -> hex_of rh rseed -> hex_of wh wire ->
  open_dm rh wh w = (Fine s, w).
Proof using All.
  intros Hw Hs Hl Hrl Hr Hwh. destruct (sealed_text_carried _ _ _ _ Hw Hs Hl) as [e [Hp E1 E2 E3 Ho Hd]].
  unfold open_dm. rewrite (proj2 (seed_from_hex_ok rh rseed) (conj Hr Hrl)), Hwh.
  autorewrite with prog. rewrite Hp. autorewrite with prog.
  rewrite E1, E2, E3, N.eqb_refl, bool_decide_eq_true_2 by done. cbn [negb].
  rewrite Ho. autorewrite with prog. by rewrite Hd.
Qed.

(** The same message with the text itself as its payload, as [send_dm_live]
    sends it, is refused. *)
Lemma live_text_refused {W} e rseed s rh wh wire (w : W) :
  from_wire_bytes wire = Ok e -> hex_of rh rseed -> hex_of wh wire ->
  Payload.open (payload e) (side_from_seed rseed "(desktop-dm-recv)") (Envelope.from e) (Envelope.nonce e) [] = Ok (as_bytes s) ->
  utf8_valid (as_bytes s) = true -> blen (as_bytes s) < u64_size ->
  exists f, open_dm rh wh w = (Failed f, w).
Proof using.
  intros Hp Hr Hwh Ho Hu Hl. unfold open_dm, seed_from_hex. rewrite Hr.
  destruct (blen rseed =? SECRET_KEY_LEN); [|by eexists]. rewrite Hwh. autorewrite with prog. rewrite Hp.
  autorewrite with prog. destruct (negb (message_type e =? _)); [by eexists|].
  destruct (negb (bool_decide _)); [by eexists|]. rewrite Ho. autorewrite with prog.
  destruct (text_is_no_payload s Hu Hl) as [f ->]. autorewrite with prog. by eexists.
Qed.

End Offline.

(** ** The [hex] crate, for concrete runs *)

Module HexExamples.

Definition hex_value (b : byte) : option N :=
  let n := Byte.to_N b in
  if (48 <=? n) && (n <=? 57) then Some (n - 48) else if (97 <=? n) && (n <=? 102) then Some (n - 87) else None.

Fixpoint unhex (l : bytes) : option bytes :=
  match l with
  | [] => Some []
  | a :: b :: l => x ← hex_value a; y ← hex_value b; r ← unhex l; c ← Byte.of_N (16 * x + y); Some (c :: r)
  | _ => None
  end.

#[export] Instance plain_hex : Hex := {|
  hex_encode bs := of_bytes (flat_map Sas.LogId.hex_byte bs);
  hex_decode s := unhex (as_bytes s)
|}.

#[export] Instance plain_hex_laws : HexLaws.
Proof.
  split; intros bs; cbn [hex_encode hex_decode plain_hex]; rewrite as_bytes_of_bytes.
  - induction bs as [|b bs IH]; [done|]. cbn [flat_map app Sas.LogId.hex_byte unhex]. rewrite IH. by destruct b.
  - induction bs as [|b bs IH]; [done|]. cbn [flat_map]. unfold hex_digits in *. rewrite forallb_app, IH. by destruct b.
Qed.

End HexExamples.
