(* ===== verification/Frontends.v ===== *)
(** The front ends together: what one of the C interface, the command line,
    the JNI bridge and the offline commands of the desktop seals, each of them
    opens. *)

From S2P Require Import Desktop DesktopFacts Prelude Utf8 Cbor Keys Envelope Payload Direct Address TextMessage Ffi FfiFacts Jni Str Machine Cli CliFacts.

Open Scope N_scope.

Section Frontends.
Context `{Crypto, Ecies, Bech32, JniEnv, Hex} (describe : Error.t -> string) (sys : System).

(** [wire] is what a front end made of the text [s], with the seed of the
    sender and the public key of the recipient: in the memory a C call left, in
    the file a command left, in the array the bridge returned, or in the hex
    string the window was given. *)
Inductive sent (seed recipient : bytes) (s : string) (wire : bytes) : Prop :=
| sent_by_c sp rp tp n op ol nonce ts m m' p len :
  denotes sp SECRET_KEY_LEN seed m -> denotes rp PUBLIC_KEY_LEN recipient m -> denotes tp n (as_bytes s) m ->
  blen nonce = NONCE_LEN -> ts < u64_size ->
  sv_dm_seal_text describe sp rp tp n op ol (Ok nonce) (Ok ts) m = Val tt m' ->
  holds op p m' -> sized ol len m' -> denotes p len wire m' ->
  sent seed recipient s wire
| sent_by_command a to_addr nonce ts w w' :
  Cli.text a = Some s -> Cli.to a = Some to_addr ->
  Address.parse to_addr = Ok (Address.new AddressKind.Side recipient) -> holds_file (Cli.side a) seed w ->
  blen nonce = NONCE_LEN -> ts < u64_size ->
  envelope_sign sys (Ok nonce) (Ok ts) a w = (Fine tt, w') -> holds_file (Cli.out a) wire w' ->
  sent seed recipient s wire
| sent_by_bridge sa ra ta a nonce ts :
  convert_byte_array sa = inr seed -> convert_byte_array ra = inr recipient -> get_string ta = inr s ->
  blen nonce = NONCE_LEN -> ts < u64_size ->
  nativeSealDirectMessage describe sa ra ta (Ok nonce) (Ok ts) = Returned a -> convert_byte_array a = inr wire ->
  sent seed recipient s wire
| sent_by_window sh rh nonce ts out :
  hex_of sh seed -> hex_of rh recipient -> blen nonce = NONCE_LEN -> ts < u64_size ->
  seal_dm sh rh s (Ok nonce) (Ok ts) tt = (Fine out, tt) -> hex_of out wire ->
  sent seed recipient s wire.

Lemma holds_file_unique p bs bs' w : holds_file p bs w -> holds_file p bs' w -> bs = bs'.
Proof using. intros (f & E & <-) (f' & E' & <-). congruence. Qed.

Lemma sent_sealed `{!CryptoLaws, !EciesLaws, !Bech32Laws, !JniLaws, !HexLaws} seed recipient s wire :
  sent seed recipient s wire -> sealed_text seed recipient s wire.
Proof using All.
  intros [sp rp tp n op ol nonce ts m m' p len Hs Hr Ht Hn Hts Q P L W
         |a to_addr nonce ts w w' Et Eto Ep Hseed Hn Hts Q Hout
         |sa ra ta a nonce ts Hs Hr Ht Hn Hts Q Ha
         |sh rh nonce ts out Hs Hr Hn Hts Q Ho].
  - destruct (seal_returns _ _ _ _ _ _ _ _ _ _ _ _ _ _ Hs Hr Ht Hn Hts Q) as (s' & wire' & _ & E%as_bytes_inj & Hw & Hret).
    subst s'. by rewrite (returned_unique _ _ _ _ _ _ _ Hret P L W).
  - destruct (cli_seals sys _ _ _ _ _ _ _ Hn Hts Et Eto Q) as (seed' & r' & wire' & Hseed' & Ep' & Hout' & Hw).
    rewrite (holds_file_unique _ _ _ _ Hseed Hseed'), (holds_file_unique _ _ _ _ Hout Hout').
    rewrite Ep in Ep'. by injection Ep' as ->.
  - destruct (jni_seals describe _ _ _ _ _ _ Hn Hts Q) as (seed' & r' & s' & wire' & Hs' & Hr' & Ht' & Ha' & Hw). congruence.
  - destruct (desktop_seals _ _ _ _ _ _ _ _ Hn Hts Q) as (seed' & r' & wire' & Hs' & Hr' & Ho' & Hw).
    unfold hex_of in *. congruence.
Qed.

End Frontends.

(** ** Properties *)

(** C40: a text sealed through any of the four front ends, its bytes carried
    in any way to the recipient, opens through each of the four: the C call
    returns the text and the public key of the sender, the command prints both,
    the bridge and the window return the text. *)
Theorem sealed_anywhere_opens_anywhere `{CryptoLaws, !Ecies, !EciesLaws, Bech32Laws, JniLaws, HexLaws}
    (describe : Error.t -> string) (sys : System) seed rseed s wire
    (Sent : sent describe sys seed (ed_public rseed) s wire) (S : sendable s)
    (L : blen wire < u64_size) (Lr : blen rseed = SECRET_KEY_LEN) :
  (forall m rs q os oq ol,
     contract (DmOpenText rs q (blen wire) os oq ol) m -> Forall (fun x => x <> Null) [rs; q; os; oq; ol] ->
     denotes rs SECRET_KEY_LEN rseed m -> denotes q (blen wire) wire m ->
     exists m', sv_dm_open_text describe rs q (blen wire) os oq ol m = Val tt m' /\
       denotes os PUBLIC_KEY_LEN (ed_public seed) m' /\ returned oq ol (as_bytes s) m') /\
  (forall w file path,
     holds_file file wire w -> holds_file path rseed w ->
     exists sender lines w', Address.encode (Address.new AddressKind.Side (ed_public seed)) = Some sender /\
       envelope_decode file (Some path) w = (Fine tt, w') /\ stdout w' = stdout w ++ lines /\
       {| format := "  from: {}"; args := [AText sender] |} ∈ lines /\
       {| format := "      body: {s:?}"; args := [ADebug s] |} ∈ lines) /\
  (forall ra wa,
     convert_byte_array ra = inr rseed -> convert_byte_array wa = inr wire ->
     nativeOpenDirectMessageText describe ra wa = or_throw (new_string s)) /\
  (forall rh wh, hex_of rh rseed -> hex_of wh wire -> open_dm rh wh tt = (Fine s, tt)).
Proof.
  pose proof (sent_sealed describe sys _ _ _ _ Sent) as W. split_and!.
  - intros m rs q os oq ol C Nn S2 W2. by eapply ffi_opens.
  - intros w file path Hf Hp. by eapply cli_opens.
  - intros ra wa Hr Hw. by eapply jni_opens.
  - intros rh wh Hr Hw. by eapply desktop_opens.
Qed.

(** ** Concrete instances *)

Module FrontendExamples.
Import Toy ToyEcies AddressExamples HexExamples.
Local Existing Instances toy toy_laws toy_ecies toy_ecies_laws toy_bech32 toy_bech32_laws.

(** A bridge whose arrays are their bytes. *)
#[local] Instance plain_jni : JniEnv := {|
  JByteArray := bytes;
  JString := string;
  convert_byte_array := inr;
  byte_array_from_slice := inr;
  get_string := inr;
  new_string := inr
|}.

#[local] Instance plain_jni_laws : JniLaws.
Proof. split; [intros bs a E|intros s js E]; cbn in *; congruence. Qed.

Definition describe (e : Error.t) : string := "core error".

Definition machine : System := {|
  write_outcome := fun _ => Written; chmod_works := fun _ => true; new_mode := 0x1A4;
  database_opens := fun _ => true; store_opens := fun _ => true |}.

Definition seed_a : bytes := replicate 32 Byte.x0a.
Definition seed_b : bytes := replicate 32 Byte.x0b.

Definition address_b : string := default "" (Address.encode (Address.new AddressKind.Side (ed_public seed_b))).

Definition disk : World := {|
  files := <["alice"%string := {| content := seed_a; mode := OWNER_RW |}]>
             (<["bob"%string := {| content := seed_b; mode := OWNER_RW |}]> ∅);
  databases := ∅; stores := ∅; stdout := []; stderr := []; updates := [] |}.

(** [envelope sign --side alice --to .. --text hello --out letter] *)
Definition signing : EnvelopeSignArgs := {|
  Cli.side := "alice"; Cli.to := Some address_b; Cli.text := Some "hello"%string; payload_file := None;
  Cli.message_type := None; Cli.out := "letter" |}.

Definition after : World := (envelope_sign machine (Ok (replicate 16 Byte.x07)) (Ok 100) signing disk).2.
Definition letter : bytes := from_option content [] (files after !! "letter"%string).

(** Sealed by the command, opened by the bridge, the command and the window. *)
Lemma sealed_anywhere_opens_anywhere_witness :
  nativeOpenDirectMessageText describe seed_b letter = Returned "hello"%string /\
  exists sender lines w', Address.encode (Address.new AddressKind.Side (ed_public seed_a)) = Some sender /\
    envelope_decode "letter" (Some "bob"%string) after = (Fine tt, w') /\ stdout w' = stdout after ++ lines /\
    {| format := "  from: {}"; args := [AText sender] |} ∈ lines /\
    {| format := "      body: {s:?}"; args := [ADebug "hello"] |} ∈ lines /\
    open_dm (hex_encode seed_b) (hex_encode letter) tt = (Fine "hello"%string, tt).
Proof.
  destruct (sealed_anywhere_opens_anywhere describe machine seed_a seed_b "hello" letter) as (_ & C & J & O).
  - apply (sent_by_command describe machine seed_a (ed_public seed_b) "hello" letter signing address_b
      (replicate 16 Byte.x07) 100 disk after); try (vm_compute; reflexivity);
      (eexists; split; [vm_compute; reflexivity|vm_compute; reflexivity]).
  - split; [vm_compute; reflexivity|by vm_compute].
  - vm_compute; reflexivity.
  - reflexivity.
  - split; [by apply J|].
    destruct (C after "letter"%string "bob"%string) as (sender & lines & w' & E1 & E2 & E3 & E4 & E5);
      [eexists; split; [vm_compute; reflexivity|vm_compute; reflexivity]..|].
    exists sender, lines, w'. split_and!; [exact E1|exact E2|exact E3|exact E4|exact E5|apply O; vm_compute; reflexivity].
Defined.

End FrontendExamples.
