(* ===== verification/Shell.v ===== *)
(** The desktop application ([src/desktop/tauri/src/main.rs]): its managed
    state and the commands of the window that use a running node, the
    databases or the files.

    [AppState] holds a handle of the node, the sessions and the inbox; the
    tasks that drain a node hold handles of it too.  A [Running] node has its
    data directory, its sides ([Host]) and the verses of its primary endpoint;
    the endpoint of a further side is started with a table of its own.  The
    node and the commands open the same database: it is kept per directory,
    and a node reads its sides' rows from there.

    What the network answers is an argument: [dialled] is the outcome of a
    dial, [peer] what comes back for the bytes of a request.  A direct
    statement of a command on an open database succeeds; those inside the
    node have their [Io]. *)

From S2P Require Import Prelude Containers Utf8 Cbor Str Address Machine Desktop Keys Envelope Payload Direct Verse VerseMessages Profile Device Qr Records NetTables Keystore Session Storage Node SideStore SideState Inbox DirectServer Host VerseHost.

Open Scope N_scope.

(** ** The managed state *)

Record Running := {
  node_dir : string;
  host : HostNode;
  node_verses : Verses                        (* of the primary's services *)
}.

Definition no_verses : Verses := {| heap := []; hosted_verses := ∅ |}.

Record VersePostEvent := { post_verse : string; post_from : string; post_plaintext : string; post_at : N }.

Inductive WindowEvent := InboxDmEvent (dm : InboxDm) | VersePost_ (p : VersePostEvent).

Record Disk := {
  databases : gmap string Tables;             (* [sides.db], by data directory *)
  inboxes : gmap string InboxStore;
  stores : gmap string Objects.Store;
  files : gmap string File;
  dirs : gmap string N                        (* directories made, with their modes *)
}.

Record App := {
  node : option nat;                          (* [AppState::node], a handle *)
  nodes : gmap nat Running;                   (* the nodes that run *)
  tasks : list nat;                           (* the handles the drain tasks hold *)
  next_node : nat;
  sessions : gmap string Session;
  inbox_open : option string;                 (* [AppState::inbox] *)
  emitted : list WindowEvent;
  disk : Disk
}.

Definition with_node x w := Build_App x (nodes w) (tasks w) (next_node w) (sessions w) (inbox_open w) (emitted w) (disk w).
Definition with_nodes x w := Build_App (node w) x (tasks w) (next_node w) (sessions w) (inbox_open w) (emitted w) (disk w).
Definition with_tasks x w := Build_App (node w) (nodes w) x (next_node w) (sessions w) (inbox_open w) (emitted w) (disk w).
Definition with_next x w := Build_App (node w) (nodes w) (tasks w) x (sessions w) (inbox_open w) (emitted w) (disk w).
Definition with_sessions x w := Build_App (node w) (nodes w) (tasks w) (next_node w) x (inbox_open w) (emitted w) (disk w).
Definition with_inbox x w := Build_App (node w) (nodes w) (tasks w) (next_node w) (sessions w) x (emitted w) (disk w).
Definition with_emitted x w := Build_App (node w) (nodes w) (tasks w) (next_node w) (sessions w) (inbox_open w) x (disk w).
Definition with_disk x w := Build_App (node w) (nodes w) (tasks w) (next_node w) (sessions w) (inbox_open w) (emitted w) x.

Definition with_databases x d := Build_Disk x (inboxes d) (stores d) (files d) (dirs d).
Definition with_inboxes x d := Build_Disk (databases d) x (stores d) (files d) (dirs d).
Definition with_stores x d := Build_Disk (databases d) (inboxes d) x (files d) (dirs d).
Definition with_files x d := Build_Disk (databases d) (inboxes d) (stores d) x (dirs d).
Definition with_dirs x d := Build_Disk (databases d) (inboxes d) (stores d) (files d) x.

Abbreviation D := (Prog App).

Definition get_state : D App := fun w => (Fine w, w).
Lemma bind_get_state {A} (k : App -> D A) w : (get_state ≫= k) w = k w w.
Proof. reflexivity. Qed.

Definition modify (f : App -> App) : D unit := fun w => (Fine tt, f w).
Definition on_disk (f : Disk -> Disk) : D unit := modify (fun w => with_disk (f (disk w)) w).

(** [.map_err(|e| format!("msg: {e}"))] *)
Definition net {A} (msg : string) (r : nresult A) : D A := match r with NOk a => mret a | NErr _ => bail msg end.

(** The operating system: besides files, directories and the other databases
    of a data directory. *)
Record Os := {
  sys : System;
  creates_dir : string -> bool;
  new_dir_mode : N;
  removes : string -> bool;
  stats : string -> bool;
  journal_opens : string -> bool;
  inbox_opens : string -> bool
}.

Definition SETTING_ONBOARDING_COMPLETED : string := "onboarding_completed".
Definition SETTING_LAST_ACTIVE_SIDE : string := "last_active_side".

Section Shell.
Context `{Crypto, Ecies, HashIter, Bech32, Hex, Keystore.Kdf} (os : Os).

(** ** Files and databases *)

Definition create_dir_all (msg path : string) : D unit :=
  if creates_dir os path then
    on_disk (fun d => with_dirs (<[path := default (new_dir_mode os) (dirs d !! path)]> (dirs d)) d)
  else bail msg.

(** The directory for the owner only, and a file in it. *)
Definition set_dir_mode (path : string) (m : N) : D unit :=
  if chmod_works (sys os) path then on_disk (fun d => with_dirs (<[path := m]> (dirs d)) d) else failed FromSystem.

Definition private_dir (msg path : string) : D unit :=
  _ ← create_dir_all msg path; set_dir_mode path 0x1C0.         (* 0o700 *)

Definition write_private (msg path : string) (bs : bytes) : D unit :=
  _ ← (fun w => let '(ok, fs) := Machine.write (sys os) path bs (files (disk w)) in
         ((if ok then Fine tt else Failed (Anyhow msg)), with_disk (with_files fs (disk w)) w));
  if chmod_works (sys os) path then on_disk (fun d => with_files (set_mode path OWNER_RW (files d)) d)
  else failed FromSystem.

Definition exists_file (msg path : string) : D bool := fun w =>
  if stats os path then (Fine (bool_decide (is_Some (files (disk w) !! path))), w) else (Failed (Anyhow msg), w).

Definition tables_in (dir : string) (w : App) : Tables := default empty_tables (databases (disk w) !! dir).

Definition open_side_store (dir : string) : D Tables := fun w =>
  if database_opens (sys os) dir then
    (Fine (tables_in dir w), with_disk (with_databases (<[dir := tables_in dir w]> (databases (disk w))) (disk w)) w)
  else (Failed (Anyhow "opening side store: {e}"), w).

Definition save (dir : string) (t : Tables) : D unit :=
  on_disk (fun d => with_databases (<[dir := t]> (databases d)) d).

Definition has_database (dir : string) : D bool := w ← get_state; mret (bool_decide (is_Some (databases (disk w) !! dir))).

Definition open_objects (msg dir : string) : D Objects.Store := fun w =>
  if store_opens (sys os) dir then (Fine (default Objects.open (stores (disk w) !! dir)), w) else (Failed (Anyhow msg), w).

Definition save_objects (dir : string) (s : Objects.Store) : D unit :=
  on_disk (fun d => with_stores (<[dir := s]> (stores d)) d).

(** ** Onboarding and settings *)

Definition is_onboarded (data_dir : string) : D bool :=
  there ← has_database data_dir;
  if negb there then mret false
  else
    t ← open_side_store data_dir;
    mret (bool_decide (SideStore.get_setting SETTING_ONBOARDING_COMPLETED t = Some "true"%string)).

Definition set_setting (data_dir key value : string) : D unit :=
  _ ← create_dir_all "data_dir: {e}" data_dir;
  t ← open_side_store data_dir;
  save data_dir (SideStore.set_setting key value t).

Definition complete_onboarding (data_dir : string) : D unit :=
  set_setting data_dir SETTING_ONBOARDING_COMPLETED "true".

Definition get_setting (data_dir key : string) : D (option string) :=
  there ← has_database data_dir;
  if negb there then mret None
  else t ← open_side_store data_dir; mret (SideStore.get_setting key t).

(** ** Starting and stopping *)

Record NodeInfo := { side_address : string; side_address_hex : string; listen : string }.

(** [Node::start]; [bound] is the address its endpoint got. *)
Definition node_start (key : SideKey) (dir : string) (bound : option string) (clock : Clock) (io : Io) : D (nat * Running) :=
  context "Node::start: {e}" (
    listen ← or_else "bind" bound;
    _ ← open_objects "object store" dir;
    t ← open_side_store dir;
    '(s, t) ← Machine.core (load_or_create clock io key (Some (side_label key)) t);
    _ ← save dir t;
    if journal_opens os dir then
      _ ← Machine.core (now_unix_seconds clock);
      let r := {| node_dir := dir;
                  host := {| primary := s; Host.listen_addr := listen; extras := []; side_store := t |};
                  node_verses := no_verses |} in
      w ← get_state;
      _ ← modify (fun w => with_next (S (next_node w)) (with_nodes (<[next_node w := r]> (nodes w)) w));
      mret (next_node w, r)
    else failed FromSystem).

(** The guard is set, then the inbox is opened and the two drain tasks are
    spawned, each with a handle of the node. *)
Definition wire_up (id : nat) (dir : string) : D unit :=
  _ ← modify (with_node (Some id));
  if inbox_opens os dir then
    _ ← on_disk (fun d => with_inboxes (<[dir := default empty_inbox (inboxes d !! dir)]> (inboxes d)) d);
    modify (fun w => with_tasks (tasks w ++ [id; id]) (with_inbox (Some dir) w))
  else bail "inbox open: {e}".

Definition already_running : D unit :=
  w ← get_state;
  match node w with Some _ => bail "node already running — stop it first" | None => mret tt end.

Definition start_node (data_dir side_label_ : string) (generated : result bytes) (bound : option string)
    (clock : Clock) (io : Io) : D NodeInfo :=
  _ ← already_running;
  _ ← create_dir_all "data_dir: {e}" data_dir;
  let label := if bool_decide (trimmed side_label_ = ""%string) then "work"%string else trimmed side_label_ in
  master ← Machine.core generated;
  let side := derive_side {| master_seed := master |} label in
  address ← Machine.address AddressKind.Side (public_bytes side);
  '(id, r) ← node_start side data_dir bound clock io;
  _ ← wire_up id data_dir;
  mret {| side_address := address; side_address_hex := hex_encode (public_bytes side);
          listen := Host.listen_addr (host r) |}.

(** The side [auto_start_node] puts up first. *)
Definition active_side (last_active : option string) (sides : list StoredSide) : option StoredSide :=
  let remembered :=
    s ← last_active;
    pk ← match decode_side_address s with inr pk => Some pk | inl _ => None end;
    List.find (fun row => bool_decide (stored_address row = pk)) sides in
  match remembered with
  | Some row => Some row
  | None => List.find (fun row => negb (SideStore.is_self_retired row)) sides
  end.

Definition restored_key (row : StoredSide) : SideKey :=
  side_from_seed (seed row) (default "(restored)"%string (SideStore.label row)).

(** The other sides; [bounds] and [ios] are what each [add_side] meets. *)
Fixpoint rehost (clock : Clock) (bounds : nat -> option string) (ios : nat -> Io) (active : bytes) (i : nat)
    (sides : list StoredSide) (n : HostNode) : HostNode :=
  match sides with
  | [] => n
  | row :: rest =>
    let n' :=
      if bool_decide (stored_address row = active) || SideStore.is_self_retired row then n
      else
        match bounds i with
        | None => n
        | Some listen =>
          match Host.add_side clock (ios i) (restored_key row) listen n with
          | NOk (_, n) => n
          | NErr _ => n
          end
        end in
    rehost clock bounds ios active (S i) rest n'
  end.

(** The node as it is now, its rows from the database; and its change. *)
Definition current (r : Running) (w : App) : HostNode := set_store (tables_in (node_dir r) w) (host r).

Definition put_node (id : nat) (r : Running) (n : HostNode) : D unit :=
  _ ← save (node_dir r) (side_store n);
  modify (fun w => with_nodes (alter (fun r =>
    {| node_dir := node_dir r; host := n; node_verses := node_verses r |}) id (nodes w)) w).

Definition auto_start_node (data_dir : string) (bound : option string) (bounds : nat -> option string)
    (clock : Clock) (io : Io) (ios : nat -> Io) : D NodeInfo :=
  _ ← already_running;
  t ← open_side_store data_dir;
  let sides := SideStore.list_sides t in
  if bool_decide (sides = []) then bail "no persisted sides — run the onboarding wizard first"
  else
    active ← or_else "every persisted side is retired" (active_side (SideStore.get_setting SETTING_LAST_ACTIVE_SIDE t) sides);
    '(id, r) ← node_start (restored_key active) data_dir bound clock io;
    w ← get_state;
    _ ← put_node id r (rehost clock bounds ios (stored_address active) 0 sides (current r w));
    _ ← wire_up id data_dir;
    active_address ← Machine.address AddressKind.Side (stored_address active);
    w ← get_state;
    _ ← save data_dir (SideStore.set_setting SETTING_LAST_ACTIVE_SIDE active_address (tables_in data_dir w));
    mret {| side_address := active_address; side_address_hex := hex_encode (stored_address active);
            listen := Host.listen_addr (host r) |}.

(** [Arc::try_unwrap] gives the node only when no task holds a handle. *)
Definition stop_node : D unit := fun w =>
  let w := with_inbox None (with_sessions ∅ w) in
  match node w with
  | None => (Fine tt, w)
  | Some id =>
    let w := with_node None w in
    (Fine tt, if bool_decide (id ∈ tasks w) then w else with_nodes (delete id (nodes w)) w)
  end.

(** ** What the drain tasks do with a message and with a post *)

Definition drain_dm (dir : string) (env : Envelope) (plain : bytes) (clock : Clock) (ok : bool) : D unit :=
  from ← Machine.address AddressKind.Side (Envelope.from env);
  to ← match Envelope.to env with
       | Some a => Machine.address AddressKind.Side a
       | None => mret ""%string
       end;
  let now := default 0 clock in
  _ ← match Envelope.to env with
      | Some recipient =>
        let e := {| Inbox.to := recipient; Inbox.from := Envelope.from env; Inbox.nonce := Envelope.nonce env;
                    Inbox.wire_envelope := to_wire_bytes env; Inbox.plaintext := plain; Inbox.received_at := now |} in
        on_disk (fun d => with_inboxes (<[dir := Inbox.insert ok e (default empty_inbox (inboxes d !! dir))]> (inboxes d)) d)
      | None => mret tt
      end;
  modify (fun w => with_emitted (emitted w ++ [InboxDmEvent (build_inbox_dm from to plain now)]) w).

Definition drain_post (env : Envelope) (plain : bytes) (clock : Clock) : D unit :=
  verse ← Machine.address AddressKind.Verse (default (replicate 32 Byte.x00) (Envelope.to env));
  from ← Machine.address AddressKind.Side (Envelope.from env);
  modify (fun w => with_emitted (emitted w ++
    [VersePost_ {| post_verse := verse; post_from := from; post_plaintext := from_utf8_lossy plain;
                   post_at := default 0 clock |}]) w).

Definition load_inbox_history (side_address : string) (failure : option string) : D (list InboxDm) :=
  w ← get_state;
  dir ← or_else "node not started" (inbox_open w);
  side_pk ← lift (decode_side_address side_address);
  entries ← net "inbox list: {e}" (Inbox.list_for failure side_pk (default empty_inbox (inboxes (disk w) !! dir)));
  each (fun e =>
    from ← Machine.address AddressKind.Side (Inbox.from e);
    to ← Machine.address AddressKind.Side (Inbox.to e);
    mret (build_inbox_dm from to (Inbox.plaintext e) (Inbox.received_at e))) entries.

End Shell.
