(* ===== verification/Commands.v ===== *)
(** The commands of the desktop window on a running node
    ([src/desktop/tauri/src/main.rs]): sides, profile, contacts and their
    codes, direct messages and media, backups and avatars, and groups. *)

From S2P Require Import Prelude Containers Utf8 Cbor Str Address Machine Desktop Keys Envelope Payload Direct Verse VerseMessages Profile Device Qr Records NetTables Keystore Session Storage Node SideStore SideState Inbox DirectServer Host VerseHost Shell.

Open Scope N_scope.

Section Commands.
Context `{Crypto, Ecies, HashIter, Bech32, Hex, Keystore.Kdf} (os : Os).
(** [SocketAddr]'s parser, with the address as it is displayed, the picture of
    a code, and the base64 decoder. *)
Context (socket_addr : string -> option string) (qr_svg : string -> option string)
  (base64_decode : string -> option bytes).

(** ** What most commands begin with *)

(** [state.node], or "node not started". *)
Definition the_node : D (nat * Running * HostNode) :=
  w ← get_state;
  or_else "node not started"
    (id ← node w; r ← nodes w !! id; Some (id, r, current r w)).

(** The hosted side of an address. *)
Definition the_side (n : HostNode) (side_pk : bytes) : D Side :=
  or_else "side not hosted on this node" (side_by_address side_pk n).

Definition side_command (side_address : string) : D (nat * Running * HostNode * bytes * Side) :=
  '(id, r, n) ← the_node;
  side_pk ← lift (decode_side_address side_address);
  s ← the_side n side_pk;
  mret (id, r, n, side_pk, s).

(** A request on a stream of its own: its bytes, and what is made of the answer. *)
Definition exchange {A} (msg : string) (request : nresult bytes) (peer : bytes -> nresult bytes)
    (finish : bytes -> nresult A) : D A :=
  net msg (req ← request; answer ← peer req; finish answer).

(** ** Sides *)

Definition connect_peer (from_side peer_addr : string) (dialled : string -> nresult Session) : D (string * string) :=
  _ ← the_node;
  addr ← or_else "{e}" (socket_addr (trimmed peer_addr));
  side_pk ← lift (decode_side_address from_side);
  session ← net "dial: {e}" (dialled addr);
  peer_side ← Machine.address AddressKind.Side (peer_side session);
  _ ← modify (fun w => with_sessions (<[from_side := session]> (sessions w)) w);
  mret (from_side, peer_side).

(** [add_side], on a fresh master. *)
Definition add_side (label : string) (generated : result bytes) (bound : option string) (clock : Clock) (io : Io)
    : D (string * string) :=
  '(id, r, n) ← the_node;
  let label := if bool_decide (trimmed label = ""%string) then "extra"%string else trimmed label in
  master ← Machine.core generated;
  listen ← or_else "add_side: {e}" bound;
  '(s, n) ← net "add_side: {e}" (Host.add_side clock io (derive_side {| master_seed := master |} label) listen n);
  _ ← put_node id r n;
  a ← Machine.address AddressKind.Side (SideState.address s);
  mret (a, listen).

Record HostedSide := { hs_address : string; hs_listen : string; hs_lifecycle : string; is_retired : bool }.

Definition list_sides : D (list HostedSide) :=
  '(_, _, n) ← the_node;
  each (fun s =>
    a ← Machine.address AddressKind.Side (SideState.address s);
    mret {| hs_address := a;
            hs_listen := default "(unknown)"%string (side_listen_addr (SideState.address s) n);
            hs_lifecycle := lifecycle_label (SideState.lifecycle s);
            is_retired := match SideState.lifecycle s with Lifecycle.Retired => true | _ => false end |}) (sides n).

Definition retire_side_cmd (side_address : string) (reason : option string) (clock : Clock) (io : Io) : D (string * N) :=
  '(id, r, n) ← the_node;
  side_pk ← lift (decode_side_address side_address);
  let '(res, n') := Host.retire_side clock io side_pk reason n in
  record ← net "retire_side: {e}" res;
  _ ← put_node id r n';
  a ← Machine.address AddressKind.Side (Retirement.side record);
  mret (a, Retirement.retired_at record).

(** ** Profile and contacts *)

Record ProfileView := { pv_name : option string; pv_bio : option string; pv_capabilities : list string; pv_updated_at : N }.

Definition get_profile (side_address : string) : D (option ProfileView) :=
  '(_, _, _, _, s) ← side_command side_address;
  mret ((fun p => {| pv_name := Profile.name p; pv_bio := Profile.bio p;
                     pv_capabilities := set_to_list (Profile.capabilities p);
                     pv_updated_at := Profile.updated_at p |}) <$> profile s).

Definition set_profile (side_address : string) (name bio : option string) (capabilities : list string) (clock : Clock)
    (io : Io) : D unit :=
  '(id, r, n, side_pk, s) ← side_command side_address;
  payload ← map_err "sign profile: {e}"
    (Profile.Profile.sign (keypair s) name None bio None None (list_to_set capabilities) (default 0 clock));
  put_node id r (on_side side_pk (SideState.set_profile io 0 payload) n).

Record RelationshipView := {
  rv_address : string;
  rv_nickname : option string;
  rv_capabilities : list string;
  rv_notes : option string;
  rv_pinned : bool;
  rv_added_at : N;
  rv_peer_listen_addr : option string
}.

(** [list_relationships] iterates over the [BTreeMap]. *)
Definition list_relationships (side_address : string) : D (list RelationshipView) :=
  '(_, _, _, _, s) ← side_command side_address;
  each (fun r =>
    a ← Machine.address AddressKind.Side (SideStore.address r);
    mret {| rv_address := a; rv_nickname := nickname r; rv_capabilities := set_to_list (SideStore.capabilities r);
            rv_notes := notes r; rv_pinned := pinned r; rv_added_at := SideStore.added_at r;
            rv_peer_listen_addr := peer_listen_addr r |}) (DirectServer.list_relationships s).

Definition contact (peer : bytes) (nickname : option string) (caps : gset string) (now : N) (listen : option string)
    : SideRelationship :=
  {| SideStore.address := peer; nickname := nickname; introduced_by := None; SideStore.capabilities := caps; notes := None;
     pinned := false; SideStore.added_at := now; peer_listen_addr := listen |}.

Definition add_relationship_cmd (side_address peer_address : string) (nickname : option string)
    (capabilities : list string) (peer_listen_addr : option string) (clock : Clock) (io : Io) : D unit :=
  '(id, r, n, side_pk, _) ← side_command side_address;
  peer_pk ← lift (decode_side_address peer_address);
  put_node id r (on_side side_pk (add_relationship io
    (contact peer_pk nickname (list_to_set capabilities) (default 0 clock) peer_listen_addr)) n).

Definition with_listen (addr : string) (r : SideRelationship) : SideRelationship :=
  {| SideStore.address := SideStore.address r; nickname := nickname r; introduced_by := introduced_by r;
     SideStore.capabilities := SideStore.capabilities r; notes := notes r; pinned := pinned r;
     SideStore.added_at := SideStore.added_at r; peer_listen_addr := Some addr |}.

Definition update_relationship_endpoint (side_address peer_address listen : string) (io : Io) : D unit :=
  '(id, r, n, side_pk, s) ← side_command side_address;
  peer_pk ← lift (decode_side_address peer_address);
  let addr := trimmed listen in
  if bool_decide (addr = ""%string) then bail "peer_listen_addr cannot be empty"
  else
    _ ← or_else "{e}" (socket_addr addr);
    match fst (update_relationship io peer_pk (with_listen addr) (s, side_store n)) with
    | None => bail "no such relationship for this side"
    | Some _ => put_node id r (on_side side_pk (fun h => snd (update_relationship io peer_pk (with_listen addr) h)) n)
    end.

Definition remove_relationship_cmd (side_address peer_address : string) (io : Io) : D unit :=
  '(id, r, n, side_pk, _) ← side_command side_address;
  peer_pk ← lift (decode_side_address peer_address);
  put_node id r (on_side side_pk (remove_relationship io peer_pk) n).

(** ** Codes *)

Definition generate_pairing_qr_svg (side_address : string) (clock : Clock) (rnd : bytes) : D (string * string) :=
  '(id, r, n) ← the_node;
  side_pk ← lift (decode_side_address side_address);
  let '(res, n') := Host.generate_pairing_qr clock rnd side_pk n in
  qr ← net "generate_pairing_qr: {e}" res;
  _ ← put_node id r n';
  let uri := PairingQr.encode qr in
  svg ← or_else "qrcode: {e}" (qr_svg uri);
  mret (uri, svg).

(** [accept_pairing_qr], with [Node::accept_pairing]: the key of the device is
    derived from [generated]; a failure after the installation leaves the side. *)
Definition accept_pairing_qr (qr_uri : string) (generated : result bytes) (dialled : string -> nresult Session)
    (peer : bytes -> nresult bytes) (bound : option string) (clock : Clock) (io : Io) (ios : nat -> nat -> Io) (rnd : bytes)
    : D (string * string * list Push) :=
  '(id, r, n) ← the_node;
  qr ← map_err "parse QR: {e}" (PairingQr.parse (trimmed qr_uri));
  master ← map_err "accept_pairing: {e}" generated;
  let device_key := derive_side {| master_seed := master |} "pairing" in
  addr ← or_else "accept_pairing: {e}" (socket_addr (PairingQr.dial_addr qr));
  session ← net "accept_pairing: {e}" (dialled addr);
  '(key, inner) ← exchange "accept_pairing: {e}" (accept_pairing_request session device_key qr clock rnd) peer
                    (accept_pairing_open device_key qr);
  listen ← or_else "accept_pairing: {e}" bound;
  let '(res, n', pushes) := accept_pairing_install clock io ios (public_bytes device_key) qr listen key inner n in
  _ ← put_node id r n';
  s ← net "accept_pairing: {e}" res;
  a ← Machine.address AddressKind.Side (SideState.address s);
  mret (a, listen, pushes).

Record ContactQrResp := { cq_uri : string; cq_svg : string; cq_display_name : option string; cq_side_label : option string }.

Definition generate_contact_qr_svg (side_address : string) : D ContactQrResp :=
  '(_, _, n, side_pk, s) ← side_command side_address;
  dial_addr ← or_else "side has no listen address" (side_listen_addr side_pk n);
  let display_name := p ← profile s; Profile.name p in
  let card := {| ContactCard.side := side_pk; ContactCard.dial_addr := dial_addr; ContactCard.display_name := display_name;
                 ContactCard.side_label := SideState.label s |} in
  let uri := ContactCard.encode card in
  svg ← or_else "qrcode: {e}" (qr_svg uri);
  mret {| cq_uri := uri; cq_svg := svg; cq_display_name := display_name; cq_side_label := SideState.label s |}.

Record ContactAcceptResp := {
  friend_address : string;
  friend_dial_addr : string;
  ca_display_name : option string;
  ca_side_label : option string
}.

Definition accept_contact_qr (side_address qr_uri : string) (clock : Clock) (io : Io) : D ContactAcceptResp :=
  '(id, r, n) ← the_node;
  card ← map_err "parse contact QR: {e}" (ContactCard.parse (trimmed qr_uri));
  side_pk ← lift (decode_side_address side_address);
  s ← the_side n side_pk;
  if bool_decide (SideState.address s = ContactCard.side card) then bail "can't add yourself as a contact"
  else
    _ ← put_node id r (on_side side_pk (add_relationship io
          (contact (ContactCard.side card) (ContactCard.display_name card) {[ "direct-message"%string ]}
             (default 0 clock) (Some (ContactCard.dial_addr card)))) n);
    a ← Machine.address AddressKind.Side (ContactCard.side card);
    mret {| friend_address := a; friend_dial_addr := ContactCard.dial_addr card;
            ca_display_name := ContactCard.display_name card; ca_side_label := ContactCard.side_label card |}.

(** ** Direct messages and media *)

(** The session of a side, by the string the window passed to [connect_peer]. *)
Definition session_of (from_side : string) : D Session :=
  w ← get_state; or_else "no peer connected from side {from_side}" (sessions w !! from_side).

(** [send_dm_helper]: the bytes that went out on the session. *)
Definition send_plaintext (from_side : string) (s : Side) (plain : bytes) (clock : Clock) (rnd : bytes)
    (sent : bytes -> nresult unit) : D bytes :=
  session ← session_of from_side;
  out ← net "send_dm: {e}" (send_dm session (keypair s) plain clock rnd);
  _ ← net "send_dm: {e}" (sent out);
  mret out.

Definition send_dm_live (from_side text : string) (clock : Clock) (rnd : bytes) (sent : bytes -> nresult unit) : D bytes :=
  '(_, _, _, _, s) ← side_command from_side;
  send_plaintext from_side s (as_bytes text) clock rnd sent.

Record MediaSendResp := { hash_hex : string; media_bytes : N; mime_type : string }.

(** [clock_now] is what the object store reads. *)
Definition send_dm_media (data_dir from_side kind media_b64 : string) (clock : Clock) (clock_now : N) (rnd : bytes)
    (sent : bytes -> nresult unit) : D (MediaSendResp * bytes) :=
  bs ← or_else "media: bad base64: {e}" (base64_decode media_b64);
  '(mime, direct_kind) ← lift (media_kind kind bs);
  '(_, _, _, _, s) ← side_command from_side;
  objects ← open_objects os "object store: {e}" data_dir;
  let '(hash, objects) := Objects.put bs clock_now objects in
  _ ← save_objects data_dir objects;
  let wire := DirectMessage.encode (media_message direct_kind (Reference.new hash (blen bs) mime)) in
  out ← send_plaintext from_side s wire clock rnd sent;
  mret ({| hash_hex := hex_encode hash; media_bytes := blen bs; mime_type := mime |}, out).

Definition cache_path (data_dir : string) (hash : bytes) : string :=
  path_join (path_join data_dir MEDIA_CACHE_SUBDIR) (hex_encode hash +:+ ".bin").

Definition fetch_media (data_dir hash_hex : string) (peer_listen_addr from_side : option string) (clock : Clock) (clock_now : N)
    (rnd : bytes) (dialled : string -> nresult Session) (peer : bytes -> nresult bytes) : D string :=
  raw ← or_else "bad hash hex: {e}" (hex_decode (trimmed hash_hex));
  if negb (blen raw =? 32) then bail "hash must be 32 bytes"
  else
    _ ← private_dir os "media cache dir: {e}" (path_join data_dir MEDIA_CACHE_SUBDIR);
    let path := cache_path data_dir raw in
    cached ← exists_file os "stat: {e}" path;
    if (cached : bool) then mret path
    else
      objects ← open_objects os "object store: {e}" data_dir;
      let '(res, objects) := Objects.get raw clock_now objects in
      _ ← save_objects data_dir objects;
      local ← (match res with SOk o => mret o | SErr _ => bail "object get: {e}" end);
      match local with
      | Some bs => _ ← write_private os "media cache write: {e}" path bs; mret path
      | None =>
        '(_, _, n) ← the_node;
        dial ← or_else "media not local; peer_listen_addr required" peer_listen_addr;
        dial ← or_else "bad dial_addr: {e}" (socket_addr dial);
        side_str ← or_else "media fetch needs a from_side to dial under" from_side;
        side_pk ← lift (decode_side_address side_str);
        s ← the_side n side_pk;
        session ← net "dial storage: {e}" (dialled dial);
        answer ← exchange "fetch object: {e}" (fetch_request session (keypair s) raw clock rnd) peer (fetch_finish raw);
        bs ← or_else "peer reports object missing" answer;
        _ ← write_private os "media cache write: {e}" path bs;
        mret path
      end.

(** ** Backups and avatars *)

Definition write_seed_backup (nfc : string -> string) (canonicalize : string -> option string)
    (data_dir filename passphrase : string) (salt nonce : bytes) : D string :=
  if bool_decide (passphrase = ""%string) then bail "a passphrase is required to back up the seed"
  else
    w ← get_state;
    n ← or_else "node not started — backup must run after start_node" (id ← node w; r ← nodes w !! id; Some (current r w));
    path ← lift (safe_backup_path nfc canonicalize data_dir filename);
    backup_dir ← or_else "internal: safe_backup_path returned a path with no parent" (parent path);
    _ ← private_dir os "creating backup dir: {e}" backup_dir;
    sealed ← map_err "sealing seed: {e}" (Keystore.seal_seed (signing (keypair (primary n))) passphrase salt nonce);
    _ ← write_private os "writing sealed seed file: {e}" path sealed;
    mret path.

Definition set_side_avatar (data_dir side_address image_b64 : string) : D unit :=
  bs ← or_else "avatar: bad base64: {e}" (base64_decode image_b64);
  _ ← lift (validate_avatar bs);
  path ← lift (avatar_path_for data_dir side_address);
  parent ← or_else "internal: avatar path has no parent" (parent path);
  _ ← private_dir os "creating avatars dir: {e}" parent;
  write_private os "writing avatar: {e}" path bs.

Definition get_side_avatar (data_dir side_address : string) : D (option string) :=
  path ← lift (avatar_path_for data_dir side_address);
  there ← exists_file os "stat avatar: {e}" path;
  mret (if (there : bool) then Some path else None).

Definition clear_side_avatar (data_dir side_address : string) : D unit :=
  path ← lift (avatar_path_for data_dir side_address);
  w ← get_state;
  match files (disk w) !! path with
  | None => mret tt
  | Some _ =>
    if removes os path then on_disk (fun d => with_files (delete path (files d)) d) else bail "removing avatar: {e}"
  end.

(** ** Groups *)

Record GroupView := {
  gv_verse : string;
  gv_member_side : string;
  gv_role : string;
  gv_name : option string;
  gv_photo_hash_hex : option string;
  gv_dial_addr : option string;
  gv_joined_at : N
}.

Definition list_groups (data_dir : string) : D (list GroupView) :=
  there ← has_database data_dir;
  if negb there then mret []
  else
    t ← open_side_store os data_dir;
    each (fun '(side, m) =>
      verse ← Machine.address AddressKind.Verse (verse_address m);
      member ← Machine.address AddressKind.Side side;
      mret {| gv_verse := verse; gv_member_side := member; gv_role := role m; gv_name := m_name m;
              gv_photo_hash_hex := hex_encode <$> photo_hash m; gv_dial_addr := dial_addr m; gv_joined_at := joined_at m |})
      (SideStore.list_all_verse_memberships t).

Record CreateGroupResp := {
  cg_verse_address : string;
  cg_member_side_address : string;
  cg_listen_addr : string;
  cg_invite_uri : string
}.

(** [Node::host_verse] is given the services of the primary side. *)
Definition register_verse (id : nat) (h : VerseHost) : D unit :=
  modify (fun w => with_nodes (alter (fun r =>
    {| node_dir := node_dir r; host := host r; node_verses := host_verse h (node_verses r) |}) id (nodes w)) w).

(** [add_local_member], on the host just registered: the node and the command
    share it. *)
Definition admit_moderator (id : nat) (verse member : bytes) (now : N) : D unit :=
  modify (fun w => with_nodes (alter (fun r =>
    {| node_dir := node_dir r; host := host r;
       node_verses :=
         match hosted_verses (node_verses r) !! verse with
         | Some i => modify_host i (fun h => snd (add_local_member member now h)) (node_verses r)
         | None => node_verses r
         end |}) id (nodes w)) w).

(** The contract of a new group: a title and a moderator. *)
Definition group_contract (verse_key : SideKey) (title : string) (member : bytes) (now : N) : result ContractObject :=
  Contract.sign verse_key 1 title "" [] [] [] [] [] [member] now.

Definition create_group (data_dir name : string) (verse_master member_master fresh_key : result bytes)
    (bound : option string) (clock : Clock) (io : Io) : D CreateGroupResp :=
  let title := trimmed name in
  if bool_decide (title = ""%string) then bail "group name cannot be empty"
  else if 256 <? blen (as_bytes title) then bail "group name too long (max 256 chars)"
  else
    '(id, r, n) ← the_node;
    verse_master ← Machine.core verse_master;
    let verse_key := derive_side {| master_seed := verse_master |} ("verse-" +:+ title) in
    member_master ← Machine.core member_master;
    let member_key := derive_side {| master_seed := member_master |} ("group-" +:+ title) in
    let member := public_bytes member_key in
    member_listen ← or_else "add_side: {e}" bound;
    '(_, n) ← net "add_side: {e}" (Host.add_side clock io member_key member_listen n);
    _ ← put_node id r n;
    let now := default 0 clock in
    contract ← map_err "contract sign: {e}" (group_contract verse_key title member now);
    content_key ← map_err "content key: {e}" fresh_key;
    let h := VerseHost.new verse_key contract content_key in
    _ ← register_verse id h;
    _ ← admit_moderator id (verse_addr h) member now;
    '(token, key) ← map_err "add_local_member: {e}" (fst (add_local_member member now h));
    t ← open_side_store os data_dir;
    _ ← save data_dir (SideStore.upsert_verse_membership member
          {| verse_address := verse_addr h; contract_hash := Contract.hash contract; SideStore.membership_token := token;
             SideStore.content_key := key; joined_at := now; role := "moderator"; m_name := Some title; photo_hash := None;
             dial_addr := Some member_listen; verse_seed := Some (signing verse_key);
             contract_wire := Some (Contract.to_wire_bytes contract) |} t);
    verse ← Machine.address AddressKind.Verse (verse_addr h);
    member_address ← Machine.address AddressKind.Side member;
    mret {| cg_verse_address := verse; cg_member_side_address := member_address; cg_listen_addr := member_listen;
            cg_invite_uri := GroupInvite.encode
              {| GroupInvite.verse := verse_addr h; GroupInvite.contract_hash := Contract.hash contract;
                 GroupInvite.dial_addr := member_listen; GroupInvite.name := Some title;
                 GroupInvite.photo_hash := None |} |}.

Record JoinGroupResp := { jg_verse_address : string; jg_member_side_address : string; jg_listen_addr : string; jg_name : option string }.

(** [clock] is read by the requests and for the row. *)
Definition join_group_by_invite (data_dir qr_uri : string) (generated : result bytes) (bound : option string)
    (clock : Clock) (io : Io) (rnd : nat -> bytes) (dialled : string -> nresult Session)
    (peer : bytes -> nresult bytes) : D JoinGroupResp :=
  invite ← map_err "parse group invite: {e}" (GroupInvite.parse (trimmed qr_uri));
  '(id, r, n) ← the_node;
  let label := match GroupInvite.name invite with Some n => "group-" +:+ n | None => "group-side"%string end in
  master ← Machine.core generated;
  let key := derive_side {| master_seed := master |} label in
  let member := public_bytes key in
  member_listen ← or_else "add_side: {e}" bound;
  '(s, n) ← net "add_side: {e}" (Host.add_side clock io key member_listen n);
  _ ← put_node id r n;
  dial ← or_else "bad dial_addr: {e}" (socket_addr (GroupInvite.dial_addr invite));
  session ← net "dial verse: {e}" (dialled dial);
  contract ← exchange "fetch contract: {e}" (fetch_contract_request session (keypair s) clock (rnd 0%nat)) peer
               fetch_contract_finish;
  if negb (bool_decide (Verse.verse contract = GroupInvite.verse invite)) then
    bail "fetched contract is for a different verse than invited"
  else if negb (bool_decide (Contract.hash contract = GroupInvite.contract_hash invite)) then
    bail "contract hash mismatch — invite is stale or tampered"
  else
    membership ← exchange "join: {e}" (request_join_send session (keypair s) contract ∅ clock (rnd 1%nat)) peer
                   (request_join_finish (keypair s) contract);
    t ← open_side_store os data_dir;
    _ ← save data_dir (SideStore.upsert_verse_membership member
          {| verse_address := GroupInvite.verse invite; contract_hash := m_contract_hash membership;
             SideStore.membership_token := VerseHost.membership_token membership;
             SideStore.content_key := m_content_key membership; joined_at := default 0 clock; role := "member";
             m_name := GroupInvite.name invite; photo_hash := GroupInvite.photo_hash invite;
             dial_addr := Some (GroupInvite.dial_addr invite); verse_seed := None; contract_wire := None |} t);
    verse ← Machine.address AddressKind.Verse (GroupInvite.verse invite);
    member_address ← Machine.address AddressKind.Side member;
    mret {| jg_verse_address := verse; jg_member_side_address := member_address; jg_listen_addr := member_listen;
            jg_name := GroupInvite.name invite |}.

(** The membership of a side, and as the protocol's clients take it. *)
Definition membership_of (member : bytes) (t : Tables) : D VerseMembershipRecord :=
  or_else "no group membership for that side"
    (snd <$> List.find (fun x => bool_decide (fst x = member)) (SideStore.list_all_verse_memberships t)).

Definition as_membership (m : VerseMembershipRecord) : VerseMembership :=
  {| m_verse := verse_address m; m_contract_hash := contract_hash m;
     VerseHost.membership_token := SideStore.membership_token m; m_content_key := SideStore.content_key m |}.

Definition post_to_group (data_dir member_side_address text : string) (clock : Clock) (post_nonce rnd : bytes)
    (dialled : string -> nresult Session) (sent : bytes -> nresult unit) : D bytes :=
  '(_, _, n) ← the_node;
  t ← open_side_store os data_dir;
  member ← lift (decode_side_address member_side_address);
  record ← membership_of member t;
  s ← the_side n member;
  dial ← or_else "no dial address recorded for this group" (dial_addr record);
  dial ← or_else "bad dial_addr: {e}" (socket_addr dial);
  session ← net "dial verse: {e}" (dialled dial);
  out ← net "post: {e}" (post_to_verse session (keypair s) (as_membership record) (as_bytes text) post_nonce clock rnd);
  _ ← net "post: {e}" (sent out);
  mret out.

(** What [leave_group] tells the host, if anything: every failure is dropped. *)
Definition leave_message (record : VerseMembershipRecord) (s : option Side) (clock : Clock) (rnd : bytes)
    (dialled : string -> nresult Session) : option bytes :=
  if String.eqb (role record) "member" then
    dial ← dial_addr record;
    s ← s;
    dial ← socket_addr dial;
    match dialled dial with
    | NErr _ => None
    | NOk session =>
      match leave_verse session (keypair s) (as_membership record) Retain None clock rnd with
      | NOk out => Some out
      | NErr _ => None
      end
    end
  else None.

Definition leave_group (data_dir member_side_address : string) (clock : Clock) (rnd : bytes)
    (dialled : string -> nresult Session) : D (string * option bytes) :=
  '(_, _, n) ← the_node;
  t ← open_side_store os data_dir;
  member ← lift (decode_side_address member_side_address);
  record ← membership_of member t;
  let out := leave_message record (side_by_address member n) clock rnd dialled in
  _ ← save data_dir (SideStore.delete_verse_membership member (verse_address record) t);
  verse ← Machine.address AddressKind.Verse (verse_address record);
  mret (verse, out).

(** The members are a [HashSet]. *)
Definition list_group_members (verse_address : string) : D (list string) :=
  '(_, r, _) ← the_node;
  addr ← map_err "parse verse: {e}" (Address.parse (trimmed verse_address));
  if negb (bool_decide (Address.kind addr = AddressKind.Verse)) then bail "not a verse address"
  else
    h ← or_else "this verse isn't hosted on this node (member view)" (hosted_verse (Address.key addr) (node_verses r));
    each (fun pk => Machine.address AddressKind.Side pk) (map fst (hiter (set_to_map (fun pk => (pk, tt)) (members (snd h))))).

Definition generate_group_invite_svg (data_dir member_side_address : string) : D (string * string) :=
  t ← open_side_store os data_dir;
  member ← lift (decode_side_address member_side_address);
  record ← membership_of member t;
  if negb (String.eqb (role record) "moderator") then bail "only the group's moderator can generate invites"
  else
    let uri := GroupInvite.encode
      {| GroupInvite.verse := verse_address record; GroupInvite.contract_hash := contract_hash record;
         GroupInvite.dial_addr := default ""%string (dial_addr record); GroupInvite.name := m_name record;
         GroupInvite.photo_hash := photo_hash record |} in
    svg ← or_else "qrcode: {e}" (qr_svg uri);
    mret (uri, svg).

End Commands.

(** ** Updates *)

Record UpdateAvailable := { version : string; update_notes : option string; date : option string }.

Inductive UpdateCheckResult := Available (u : UpdateAvailable) | UpToDate | Error_ (message : string).

(** [updater] and [checked] are what the updater plugin answers. *)
Definition check_for_updates (updater : string + unit) (checked : string + option UpdateAvailable) : UpdateCheckResult :=
  match updater with
  | inl e => Error_ ("updater unavailable: " +:+ e)
  | inr _ =>
    match checked with
    | inr (Some u) => Available u
    | inr None => UpToDate
    | inl e => Error_ e
    end
  end.
