(* ===== verification/ShellFacts.v ===== *)
(** Theorems about the desktop application: the invariant of its state over any
    run of its commands, and what becomes of the nodes it starts; that a text
    or a medium that was sent is shown as it was; backups, contacts, groups and
    settings. *)

From S2P Require Import Prelude Cli CliFacts CliNode CliNodeFacts Containers Utf8 Cbor CborCodec CborValue Str Address Machine Desktop DesktopFacts Keys Envelope Payload Direct Verse VerseMessages Profile Device Qr Records NetTables Keystore Session Storage Node SideStore SideState ReplayJournal Inbox NodeFacts DirectServer TextMessage DirectFacts Host VerseHost Shell Commands.

Open Scope N_scope.

(** ** Runs of the application *)

Section Runs.
Context `{Crypto, Ecies, HashIter, Bech32, Hex, Keystore.Kdf} (os : Os).
Context (socket_addr : string -> option string) (qr_svg : string -> option string)
  (base64_decode : string -> option bytes) (nfc : string -> string) (canonicalize : string -> option string).

(** The commands of the window and the drain tasks, with anything the
    window, the clock, the random source and the network may give them. *)
Inductive command : forall {A}, D A -> Prop :=
| c_is_onboarded d : command (is_onboarded os d)
| c_complete_onboarding d : command (complete_onboarding os d)
| c_get_setting d k : command (get_setting os d k)
| c_set_setting d k v : command (set_setting os d k v)
| c_start_node d l g b c io : command (start_node os d l g b c io)
| c_auto_start_node d b bs c io ios : command (auto_start_node os d b bs c io ios)
| c_stop_node : command stop_node
| c_drain_dm d e p c ok : command (drain_dm d e p c ok)
| c_drain_post e p c : command (drain_post e p c)
| c_load_inbox_history a f : command (load_inbox_history a f)
| c_connect_peer f p dl : command (connect_peer socket_addr f p dl)
| c_add_side l g b c io : command (Commands.add_side l g b c io)
| c_list_sides : command list_sides
| c_retire_side a r c io : command (retire_side_cmd a r c io)
| c_get_profile a : command (get_profile a)
| c_set_profile a n b cs c io : command (Commands.set_profile a n b cs c io)
| c_list_relationships a : command (list_relationships a)
| c_add_relationship a p n cs l c io : command (add_relationship_cmd a p n cs l c io)
| c_update_endpoint a p l io : command (update_relationship_endpoint socket_addr a p l io)
| c_remove_relationship a p io : command (remove_relationship_cmd a p io)
| c_pairing_qr a c r : command (generate_pairing_qr_svg qr_svg a c r)
| c_accept_pairing q g dl p b c io ios r : command (accept_pairing_qr socket_addr q g dl p b c io ios r)
| c_contact_qr a : command (generate_contact_qr_svg qr_svg a)
| c_accept_contact a q c io : command (accept_contact_qr a q c io)
| c_send_dm_live f t c r s : command (send_dm_live f t c r s)
| c_send_dm_media d f k m c n r s : command (send_dm_media os base64_decode d f k m c n r s)
| c_fetch_media d h p f c n r dl pe : command (fetch_media os socket_addr d h p f c n r dl pe)
| c_write_seed_backup d f p s n : command (write_seed_backup os nfc canonicalize d f p s n)
| c_set_side_avatar d a i : command (set_side_avatar os base64_decode d a i)
| c_get_side_avatar d a : command (get_side_avatar os d a)
| c_clear_side_avatar d a : command (clear_side_avatar os d a)
| c_list_groups d : command (list_groups os d)
| c_create_group d n v m f b c io : command (create_group os d n v m f b c io)
| c_join_group d q g b c io r dl p : command (join_group_by_invite os socket_addr d q g b c io r dl p)
| c_post_to_group d a t c n r dl s : command (post_to_group os socket_addr d a t c n r dl s)
| c_leave_group d a c r dl : command (leave_group os socket_addr d a c r dl)
| c_list_group_members a : command (list_group_members a)
| c_group_invite d a : command (generate_group_invite_svg os qr_svg d a).

Inductive step (w : App) : App -> Prop := Ran A (m : D A) : command m -> step w (snd (m w)).

(** The application as it starts, on some disk. *)
Definition launched (d : Disk) : App := {|
  node := None; nodes := ∅; tasks := []; next_node := 0; sessions := ∅; inbox_open := None; emitted := []; disk := d |}.

Record app_ok (w : App) : Prop := {
  ok_node : forall id, node w = Some id -> is_Some (nodes w !! id);
  ok_tasks : forall id, id ∈ tasks w -> is_Some (nodes w !! id);
  ok_next : forall id, is_Some (nodes w !! id) -> (id < next_node w)%nat;
  ok_inbox : forall dir, inbox_open w = Some dir -> is_Some (inboxes (disk w) !! dir);
  ok_stopped : node w = None -> sessions w = ∅ /\ inbox_open w = None
}.

(** No inbox loses a row. *)
Definition grows (d d' : Disk) : Prop :=
  forall dir s, inboxes d !! dir = Some s -> exists s', inboxes d' !! dir = Some s' /\ inbox s ⊆ inbox s'.

#[global] Instance grows_preorder : PreOrder grows.
Proof using.
  split; [by intros d dir s; exists s|]. intros d1 d2 d3 G1 G2 dir s (s2 & E2 & S2)%G1.
  apply G2 in E2 as (s3 & E3 & S3). exists s3. split; [done|by etrans].
Qed.

Lemma same_inboxes_grow d d' : inboxes d' = inboxes d -> grows d d'.
Proof using. intros E dir s. rewrite E. by exists s. Qed.

#[local] Hint Extern 0 (grows _ _) => (apply same_inboxes_grow; reflexivity) : core.

Lemma inbox_grows d dir f :
  (forall s, inbox s ⊆ inbox (f s)) -> grows d (with_inboxes (<[dir := f (default empty_inbox (inboxes d !! dir))]> (inboxes d)) d).
Proof using.
  intros Hf dir' s E. cbn. destruct (decide (dir' = dir)) as [->|].
  - rewrite lookup_insert_eq, E. eexists. split; [done|apply Hf].
  - rewrite lookup_insert_ne by done. by exists s.
Qed.

Lemma inbox_insert_grows ok e s : inbox s ⊆ inbox (Inbox.insert ok e s).
Proof using.
  unfold Inbox.insert. destruct ok; [|done]. cbn. unfold SideStore.insert_or_ignore.
  destruct (inbox s !! key e) eqn:E; [done|]. by apply insert_subseteq.
Qed.

(** What every command but the three of the life cycle leaves alone. *)
Record frame (w w' : App) : Prop := {
  f_node : node w' = node w;
  f_tasks : tasks w' = tasks w;
  f_next : next_node w' = next_node w;
  f_nodes : forall id, is_Some (nodes w' !! id) <-> is_Some (nodes w !! id);
  f_inbox : inbox_open w' = inbox_open w;
  f_sessions : node w = None -> sessions w' = sessions w;
  f_inboxes : grows (disk w) (disk w')
}.

#[global] Instance frame_preorder : PreOrder frame.
Proof using.
  split; [by intros w; split|]. intros w1 w2 w3 [] []. split; [congruence..| |congruence| |by etrans].
  - intros id. by rewrite f_nodes1.
  - intros E. rewrite f_sessions1; [auto|congruence].
Qed.

Definition keeps {A} (m : D A) : Prop := forall w, frame w (snd (m w)).

Lemma frame_bind {A B} (m : D A) (k : A -> D B) w :
  frame w (snd (m w)) -> (forall a w1, m w = (Fine a, w1) -> frame w1 (snd (k a w1))) -> frame w (snd ((m ≫= k) w)).
Proof using.
  intros Hm Hk. unfold mbind, m_bind. destruct (m w) as [[a|f|] w']; [|done..]. etrans; [exact Hm|by apply Hk].
Qed.

Lemma keeps_bind {A B} (m : D A) (k : A -> D B) : keeps m -> (forall a, keeps (k a)) -> keeps (m ≫= k).
Proof using.
  intros Hm Hk w. apply frame_bind; [apply Hm|]. intros a w1 _. apply Hk.
Qed.

Lemma keeps_ret {A} (a : A) : keeps (mret a).
Proof using. by intros w; split. Qed.
Lemma keeps_failed {A} f : keeps (failed f : D A).
Proof using. by intros w; split. Qed.
Lemma keeps_bail {A} msg : keeps (bail msg : D A).
Proof using. by intros w; split. Qed.
Lemma keeps_core {A} (r : result A) : keeps (Machine.core r).
Proof using. intros w. by destruct r; split. Qed.
Lemma keeps_map_err {A} msg (r : result A) : keeps (map_err msg r).
Proof using. intros w. by destruct r; split. Qed.
Lemma keeps_or_else {A} msg (o : option A) : keeps (or_else msg o).
Proof using. intros w. by destruct o; split. Qed.
Lemma keeps_lift {A} (r : Failure + A) : keeps (lift r).
Proof using. intros w. by destruct r; split. Qed.
Lemma keeps_net {A} msg (r : nresult A) : keeps (net msg r).
Proof using. intros w. by destruct r; split. Qed.
Lemma keeps_get_state : keeps get_state.
Proof using. by intros w; split. Qed.
Lemma keeps_address k key : keeps (Machine.address k key).
Proof using. intros w. unfold Machine.address. by destruct (Address.encode _); split. Qed.
Lemma keeps_each {A B} (f : A -> D B) l : (forall a, keeps (f a)) -> keeps (each f l).
Proof using.
  intros Hf. induction l as [|a l IH]; [apply keeps_ret|]. apply keeps_bind; [apply Hf|intros b].
  apply keeps_bind; [apply IH|intros bs; apply keeps_ret].
Qed.

(** A change of the disk that loses nothing of its inboxes. *)
Lemma keeps_on_disk (f : Disk -> Disk) : (forall d, grows d (f d)) -> keeps (on_disk f).
Proof using. intros Hf w. by split. Qed.
Lemma keeps_inboxes (f : Disk -> Disk) : (forall d, inboxes (f d) = inboxes d) -> keeps (on_disk f).
Proof using. intros Hf. apply keeps_on_disk. intros d. by apply same_inboxes_grow. Qed.

Lemma keeps_alter (f : Running -> Running) id : keeps (modify (fun w => with_nodes (alter f id (nodes w)) w)).
Proof using.
  intros w. split; try done. intros i. cbn. destruct (decide (i = id)) as [->|].
  - rewrite lookup_alter_eq. by rewrite fmap_is_Some.
  - by rewrite lookup_alter_ne.
Qed.

Create HintDb app.
#[local] Hint Resolve keeps_ret keeps_failed keeps_bail keeps_core keeps_map_err keeps_or_else keeps_lift keeps_net
  keeps_get_state keeps_address keeps_alter : app.

(** Walks through a program. *)
Ltac keeps_step :=
  match goal with
  | |- keeps (_ ≫= _) => apply keeps_bind; [|intros ?]
  | |- keeps (each _ _) => apply keeps_each; intros ?
  | |- keeps (let '(_, _) := ?x in _) => destruct x
  | |- keeps (match ?x with _ => _ end) => destruct x
  | |- keeps _ => solve [eauto with app]
  end.
Ltac keeps_tac := repeat (cbv zeta beta; keeps_step).

Lemma keeps_save dir t : keeps (save dir t).
Proof using. by apply keeps_inboxes. Qed.
Lemma keeps_save_objects dir s : keeps (save_objects dir s).
Proof using. by apply keeps_inboxes. Qed.
Lemma keeps_open_side_store dir : keeps (open_side_store os dir).
Proof using. intros w. unfold open_side_store. by destruct (database_opens _ _); split. Qed.
Lemma keeps_open_objects msg dir : keeps (open_objects os msg dir).
Proof using. intros w. unfold open_objects. by destruct (store_opens _ _); split. Qed.
Lemma keeps_has_database dir : keeps (has_database dir).
Proof using. by intros w; split. Qed.
Lemma keeps_exists_file msg p : keeps (exists_file os msg p).
Proof using. intros w. unfold exists_file. by destruct (stats _ _); split. Qed.
Lemma keeps_private_dir msg p : keeps (private_dir os msg p).
Proof using.
  unfold private_dir, create_dir_all, set_dir_mode. keeps_tac; by apply keeps_inboxes.
Qed.
Lemma keeps_create_dir_all msg p : keeps (create_dir_all os msg p).
Proof using. unfold create_dir_all. keeps_tac. by apply keeps_inboxes. Qed.
Lemma keeps_write_private msg p bs : keeps (write_private os msg p bs).
Proof using.
  unfold write_private. apply keeps_bind; [|intros _; keeps_tac; by apply keeps_inboxes].
  intros w. destruct (Machine.write _ _ _ _) as [[] fs]; by split.
Qed.
#[local] Hint Resolve keeps_save keeps_save_objects keeps_open_side_store keeps_open_objects keeps_has_database
  keeps_exists_file keeps_private_dir keeps_create_dir_all keeps_write_private : app.

Lemma keeps_put_node id r n : keeps (put_node id r n).
Proof using. unfold put_node. keeps_tac. Qed.
Lemma keeps_the_node : keeps the_node.
Proof using. unfold the_node. keeps_tac. Qed.
#[local] Hint Resolve keeps_put_node keeps_the_node : app.
Lemma keeps_side_command a : keeps (side_command a).
Proof using. unfold side_command, the_side. keeps_tac. Qed.
Lemma keeps_exchange {A} msg r p (f : bytes -> nresult A) : keeps (exchange msg r p f).
Proof using. apply keeps_net. Qed.
Lemma keeps_send_plaintext f s p c r sent : keeps (send_plaintext f s p c r sent).
Proof using. unfold send_plaintext, session_of. keeps_tac. Qed.
Lemma keeps_register id h : keeps (register_verse id h).
Proof using. apply keeps_alter. Qed.
Lemma keeps_admit id v m n : keeps (admit_moderator id v m n).
Proof using. apply keeps_alter. Qed.
Lemma keeps_membership m t : keeps (membership_of m t).
Proof using. apply keeps_or_else. Qed.
#[local] Hint Resolve keeps_side_command keeps_exchange keeps_send_plaintext keeps_register keeps_admit keeps_membership : app.

Lemma keeps_emit e : keeps (modify (fun w => with_emitted (emitted w ++ [e]) w)).
Proof using. by intros w; split. Qed.
Lemma keeps_insert_inbox dir ok e :
  keeps (on_disk (fun d => with_inboxes (<[dir := Inbox.insert ok e (default empty_inbox (inboxes d !! dir))]> (inboxes d)) d)).
Proof using. apply keeps_on_disk. intros d. apply inbox_grows, inbox_insert_grows. Qed.
Lemma keeps_delete_file p : keeps (on_disk (fun d => with_files (delete p (files d)) d)).
Proof using. by apply keeps_inboxes. Qed.
#[local] Hint Resolve keeps_emit keeps_insert_inbox keeps_delete_file : app.

(** The only command that opens a session needs a node. *)
Lemma keeps_connect_peer f p dl : keeps (connect_peer socket_addr f p dl).
Proof using.
  intros w. unfold connect_peer. apply frame_bind; [apply keeps_the_node|]. intros [[id r] n] w1 Q.
  assert (node w1 <> None) as En.
  { unfold the_node in Q. rewrite bind_get_state in Q. destruct (node w) as [i|] eqn:E; [|done]. cbn in Q.
    destruct (nodes w !! i); [|done]. injection Q as _ _ _ <-. by rewrite E. }
  apply frame_bind; [apply keeps_or_else|]. intros a w2 [_ ->]%or_else_fine.
  apply frame_bind; [apply keeps_lift|]. intros pk w2 [_ ->]%lift_fine.
  apply frame_bind; [apply keeps_net|]. intros s w2 Q2.
  assert (w2 = w1) as -> by (unfold net in Q2; destruct (dl a); [by injection Q2|done]).
  apply frame_bind; [apply keeps_address|]. intros q w2 [_ ->]%address_fine.
  by split.
Qed.

(** The three commands of the life cycle. *)
Inductive life_cycle : forall {A}, D A -> Prop :=
| l_start_node d l g b c io : life_cycle (start_node os d l g b c io)
| l_auto_start_node d b bs c io ios : life_cycle (auto_start_node os d b bs c io ios)
| l_stop_node : life_cycle stop_node.

Lemma command_keeps {A} (m : D A) : command m -> life_cycle m \/ keeps m.
Proof using.
  intros C. destruct C; try (left; constructor); right.
  - unfold is_onboarded. keeps_tac.
  - unfold complete_onboarding, Shell.set_setting. keeps_tac.
  - unfold Shell.get_setting. keeps_tac.
  - unfold Shell.set_setting. keeps_tac.
  - unfold drain_dm. keeps_tac.
  - unfold drain_post. keeps_tac.
  - unfold load_inbox_history. keeps_tac.
  - apply keeps_connect_peer.
  - unfold Commands.add_side. keeps_tac.
  - unfold list_sides. keeps_tac.
  - unfold retire_side_cmd. keeps_tac.
  - unfold get_profile. keeps_tac.
  - unfold Commands.set_profile. keeps_tac.
  - unfold list_relationships. keeps_tac.
  - unfold add_relationship_cmd. keeps_tac.
  - unfold update_relationship_endpoint. keeps_tac.
  - unfold remove_relationship_cmd. keeps_tac.
  - unfold generate_pairing_qr_svg. keeps_tac.
  - unfold accept_pairing_qr. keeps_tac.
  - unfold generate_contact_qr_svg. keeps_tac.
  - unfold accept_contact_qr, the_side. keeps_tac.
  - unfold send_dm_live. keeps_tac.
  - unfold send_dm_media. keeps_tac.
  - unfold fetch_media, the_side. keeps_tac.
  - unfold write_seed_backup. keeps_tac.
  - unfold set_side_avatar. keeps_tac.
  - unfold get_side_avatar. keeps_tac.
  - unfold clear_side_avatar. keeps_tac.
  - unfold list_groups. keeps_tac.
  - unfold create_group. keeps_tac.
  - unfold join_group_by_invite. keeps_tac.
  - unfold post_to_group, the_side. keeps_tac.
  - unfold leave_group. keeps_tac.
  - unfold list_group_members. keeps_tac.
  - unfold generate_group_invite_svg. keeps_tac.
Qed.

(** A change keeps the invariant, the drain tasks and the messages. *)
Definition evolves (w w' : App) : Prop :=
  app_ok w -> app_ok w' /\ (forall id, id ∈ tasks w -> id ∈ tasks w') /\ grows (disk w) (disk w').

#[global] Instance evolves_preorder : PreOrder evolves.
Proof using.
  split; [by intros w|]. intros w1 w2 w3 E1 E2 O1. destruct (E1 O1) as (O2 & T1 & G1). destruct (E2 O2) as (O3 & T2 & G2).
  split; [done|]. split; [auto|by etrans].
Qed.

Lemma frame_evolves w w' : frame w w' -> evolves w w'.
Proof using.
  intros [En Et Ex Ens Ei Ess Eis] [O1 O2 O3 O4 O5]. split; [|split; [intros id; by rewrite Et|done]]. split.
  - intros id. rewrite En, Ens. apply O1.
  - intros id. rewrite Et, Ens. apply O2.
  - intros id. rewrite Ex, Ens. apply O3.
  - intros dir. rewrite Ei. intros [s Es]%O4. apply Eis in Es as (s' & Es & _). by exists s'.
  - rewrite En, Ei. intros E. rewrite (Ess E). by apply O5.
Qed.

Lemma evolves_bind {A B} (m : D A) (k : A -> D B) w :
  evolves w (snd (m w)) -> (forall a w1, m w = (Fine a, w1) -> evolves w1 (snd (k a w1))) -> evolves w (snd ((m ≫= k) w)).
Proof using.
  intros Hm Hk. unfold mbind, m_bind. destruct (m w) as [[a|f|] w']; [|done..]. etrans; [exact Hm|by apply Hk].
Qed.

Lemma evolves_keeps {A} (m : D A) w : keeps m -> evolves w (snd (m w)).
Proof using. intros Hm. apply frame_evolves, Hm. Qed.

Lemma new_node_evolves w r :
  evolves w (with_next (S (next_node w)) (with_nodes (<[next_node w := r]> (nodes w)) w)).
Proof using.
  intros [O1 O2 O3 O4 O5]. split; [|done].
  assert (forall id, is_Some (nodes w !! id) -> is_Some (<[next_node w := r]> (nodes w) !! id)) as Hi.
  { intros id Hid. destruct (decide (id = next_node w)) as [->|]; [by rewrite lookup_insert_eq|by rewrite lookup_insert_ne]. }
  split; cbn.
  - intros id E. by apply Hi, O1.
  - intros id E. by apply Hi, O2.
  - intros id. destruct (decide (id = next_node w)) as [->|]; [lia|]. rewrite lookup_insert_ne by done. intros E%O3. lia.
  - apply O4.
  - apply O5.
Qed.

(** A start that succeeds puts a node on record. *)
Lemma node_start_evolves key dir b c io w :
  evolves w (snd (node_start os key dir b c io w)) /\
  forall id r w1, node_start os key dir b c io w = (Fine (id, r), w1) ->
    nodes w1 !! id = Some r /\ node_dir r = dir /\ Host.listen_addr (host r) = default ""%string b /\ node_verses r = no_verses.
Proof using.
  unfold node_start, context.
  match goal with |- context [match ?m w with _ => _ end] => set (prog := m) end.
  assert (evolves w (snd (prog w)) /\ forall id r w1, prog w = (Fine (id, r), w1) ->
    nodes w1 !! id = Some r /\ node_dir r = dir /\ Host.listen_addr (host r) = default ""%string b /\ node_verses r = no_verses) as [E F].
  { unfold prog. split.
    - do 3 (apply evolves_bind; [by apply evolves_keeps; eauto with app|intros ? ? _]).
      apply evolves_bind; [by apply evolves_keeps; eauto with app|intros [s t] ? _].
      apply evolves_bind; [by apply evolves_keeps; eauto with app|intros ? ? _].
      destruct (journal_opens os dir); [|done].
      apply evolves_bind; [by apply evolves_keeps; eauto with app|intros ? ? _].
      rewrite bind_get_state. cbn. apply new_node_evolves.
    - intros id r w1 Q.
      apply fine_bind in Q as (l & ? & [-> ->]%or_else_fine & Q). apply fine_bind in Q as (o & w2 & _ & Q).
      apply fine_bind in Q as (t & w3 & _ & Q). apply fine_bind in Q as ([s t'] & w4 & _ & Q).
      apply fine_bind in Q as ([] & w5 & _ & Q). destruct (journal_opens os dir); [|done].
      apply fine_bind in Q as (n & w6 & _ & Q). rewrite bind_get_state in Q.
      apply fine_bind in Q as ([] & w7 & [= <-] & Q). injection Q as <- <- <-. cbn.
      by rewrite lookup_insert_eq. }
  destruct (prog w) as [[[id r]|f|] w1]; cbn in *; (split; [done|]); [|done..]. intros id' r' w' [= <- <- <-]. by apply F.
Qed.

Lemma wire_up_evolves id dir w : is_Some (nodes w !! id) -> evolves w (snd (wire_up os id dir w)).
Proof using.
  intros Hid [O1 O2 O3 O4 O5]. unfold wire_up. unfold mbind, m_bind. cbn [modify].
  destruct (inbox_opens os dir); cbn; (split; [split; cbn; try done|]).
  - by intros ? [= <-].
  - intros i [?|[<-|[<-|[]%elem_of_nil]%elem_of_cons]%elem_of_cons]%elem_of_app; auto.
  - intros d [= <-]. by rewrite lookup_insert_eq.
  - split; [intros i Hi; apply elem_of_app; by left|]. by apply (inbox_grows (disk w) dir (fun s => s)).
  - by intros ? [= <-].
  - done.
Qed.

Lemma stop_evolves w : evolves w (snd (stop_node w)).
Proof using.
  intros [O1 O2 O3 O4 O5]. unfold stop_node. cbn [node with_inbox with_sessions]. destruct (node w) as [id|] eqn:En; cbn.
  - case_bool_decide as Ht; cbn; (split; [split; cbn; try done|done]).
    + intros i Hi. rewrite lookup_delete_ne; [by apply O2|]. by intros ->.
    + intros i. destruct (decide (id = i)) as [->|]; [rewrite lookup_delete_eq; by intros []|].
      rewrite lookup_delete_ne by done. apply O3.
  - split; [split; cbn; try done|done]. intros id. by rewrite En.
Qed.

Lemma start_evolves d l g b c io w : evolves w (snd (start_node os d l g b c io w)).
Proof using.
  unfold start_node, already_running.
  apply evolves_bind; [apply evolves_keeps; keeps_tac|intros ? w1 _].
  apply evolves_bind; [apply evolves_keeps; keeps_tac|intros ? w2 _].
  apply evolves_bind; [apply evolves_keeps; keeps_tac|intros m w3 _].
  apply evolves_bind; [apply evolves_keeps; keeps_tac|intros ad w4 _].
  apply evolves_bind; [apply node_start_evolves|intros [id r] w5 Q]. apply node_start_evolves in Q as [Q _].
  apply evolves_bind; [by apply wire_up_evolves; eauto|intros ? w6 _]. done.
Qed.

Lemma auto_start_evolves d b bs c io ios w : evolves w (snd (auto_start_node os d b bs c io ios w)).
Proof using.
  unfold auto_start_node, already_running.
  apply evolves_bind; [apply evolves_keeps; keeps_tac|intros ? w1 _].
  apply evolves_bind; [apply evolves_keeps; keeps_tac|intros t w2 _]. case_bool_decide; [done|].
  apply evolves_bind; [apply evolves_keeps; keeps_tac|intros row w3 _].
  apply evolves_bind; [apply node_start_evolves|intros [id r] w5 Q]. apply node_start_evolves in Q as [Q _].
  rewrite bind_get_state. set (n := rehost _ _ _ _ _ _ _). clearbody n.
  apply evolves_bind; [apply evolves_keeps; keeps_tac|intros ? w6 Q6].
  assert (is_Some (nodes w6 !! id)) as Hid.
  { pose proof (keeps_put_node id r n w5) as [_ _ _ Hn _ _]. rewrite Q6 in Hn. apply Hn. by eexists. }
  apply evolves_bind; [by apply wire_up_evolves|intros ? w7 _].
  apply evolves_keeps. keeps_tac.
Qed.

Lemma step_evolves w w' : step w w' -> evolves w w'.
Proof using.
  intros [A m [L|K]%command_keeps]; [|by apply evolves_keeps]. destruct L.
  - apply start_evolves.
  - apply auto_start_evolves.
  - apply stop_evolves.
Qed.

Lemma run_evolves w w' : rtc step w w' -> evolves w w'.
Proof using. induction 1 as [|w1 w2 w3 S _ IH]; [done|]. etrans; [by apply step_evolves|done]. Qed.

Lemma launched_ok d : app_ok (launched d).
Proof using. split; cbn; try done; [by intros id E%elem_of_nil|]. intros id. rewrite lookup_empty. by intros []. Qed.

(** The application over its starts: a process that ends leaves its disk. *)
Inductive life (w : App) : App -> Prop :=
| Lived w' : step w w' -> life w w'
| Relaunched : life w (launched (disk w)).

Lemma life_grows w w' : app_ok w -> rtc life w w' -> app_ok w' /\ grows (disk w) (disk w').
Proof using.
  intros O R. induction R as [|w1 w2 w3 L _ IH]; [done|]. destruct L as [w2 S|].
  - apply step_evolves in S. destruct (S O) as (O2 & _ & G). destruct (IH O2) as [O3 G']. split; [done|by etrans].
  - apply IH, launched_ok.
Qed.

(** What the drain tasks hold keeps running. *)
Lemma task_runs id w w' : app_ok w -> id ∈ tasks w -> rtc step w w' -> is_Some (nodes w' !! id).
Proof using. intros O T R. apply run_evolves in R. destruct (R O) as (O' & T' & _). by apply (ok_tasks w' O'), T'. Qed.

(** A start that succeeded: the drain tasks hold the node. *)
Lemma started_drained d l g b c io w info w' :
  start_node os d l g b c io w = (Fine info, w') -> exists id, node w' = Some id /\ id ∈ tasks w' /\ is_Some (nodes w' !! id).
Proof using.
  unfold start_node. intros Q.
  apply fine_bind in Q as (? & w1 & _ & Q). apply fine_bind in Q as (? & w2 & _ & Q). apply fine_bind in Q as (? & w3 & _ & Q).
  apply fine_bind in Q as (? & w4 & _ & Q). apply fine_bind in Q as ([id r] & w5 & [En _]%node_start_evolves & Q).
  apply fine_bind in Q as (? & w6 & Qw & Q). injection Q as <- <-.
  unfold wire_up in Qw. unfold mbind, m_bind in Qw. cbn [modify] in Qw. destruct (inbox_opens os d); [|done].
  injection Qw as <- <-. exists id. cbn. split_and!; [done|apply elem_of_app; right; by left|by eexists].
Qed.

Lemma auto_started_drained d b bs c io ios w info w' :
  auto_start_node os d b bs c io ios w = (Fine info, w') ->
  exists id, node w' = Some id /\ id ∈ tasks w'.
Proof using.
  unfold auto_start_node. intros Q.
  apply fine_bind in Q as (? & w1 & _ & Q). apply fine_bind in Q as (t & w2 & _ & Q). case_bool_decide; [done|].
  apply fine_bind in Q as (row & w3 & _ & Q). apply fine_bind in Q as ([id r] & w4 & _ & Q). rewrite bind_get_state in Q.
  apply fine_bind in Q as (? & w5 & _ & Q). apply fine_bind in Q as (? & w6 & Qw & Q).
  apply fine_bind in Q as (ad & w7 & [_ ->]%address_fine & Q). rewrite bind_get_state in Q.
  apply fine_bind in Q as (? & w8 & Qs & Q). injection Q as _ <-. unfold save, on_disk in Qs. injection Qs as _ <-.
  unfold wire_up in Qw. unfold mbind, m_bind in Qw. cbn [modify] in Qw. destruct (inbox_opens os d); [|done].
  injection Qw as _ <-. exists id. cbn. split; [done|apply elem_of_app; right; by left].
Qed.

(** One whose inbox does not open fails, with the node running and in
    [AppState], so that the next start is refused. *)
Lemma failed_start_keeps_node d l g b c io w w' :
  start_node os d l g b c io w = (Failed (Anyhow "inbox open: {e}"), w') ->
  (exists id, node w' = Some id /\ is_Some (nodes w' !! id)) /\
  forall d' l' g' b' c' io', start_node os d' l' g' b' c' io' w' = (Failed (Anyhow "node already running — stop it first"), w').
Proof using.
  intros Q. assert (exists id, node w' = Some id /\ is_Some (nodes w' !! id)) as (id & En & Hid).
  { unfold start_node in Q.
    apply failed_bind in Q as [Q|(? & w1 & _ & Q)].
    { unfold already_running in Q. rewrite bind_get_state in Q. by destruct (node w). }
    apply failed_bind in Q as [Q|(? & w2 & _ & Q)]; [unfold create_dir_all in Q; by destruct (creates_dir os d)|].
    apply failed_bind in Q as [Q|(? & w3 & _ & Q)]; [by destruct g|].
    apply failed_bind in Q as [Q|(? & w4 & _ & Q)]; [unfold Machine.address in Q; by destruct (Address.encode _)|].
    apply failed_bind in Q as [Q|([id r] & w5 & [En _]%node_start_evolves & Q)].
    { unfold node_start, context in Q. match type of Q with match ?x with _ => _ end = _ => by destruct x as [[]] end. }
    apply failed_bind in Q as [Q|(? & w6 & _ & Q)]; [|done].
    unfold wire_up in Q. unfold mbind, m_bind in Q. cbn [modify] in Q. destruct (inbox_opens os d); [done|].
    injection Q as <-. exists id. cbn. split; [done|by eexists]. }
  split; [by eexists|]. intros. unfold start_node, already_running. rewrite bind_assoc, bind_get_state, En. done.
Qed.
End Runs.

(** ** Groups *)

(** The table of verses the endpoint at [addr] serves: [Node::add_side] gives
    a further side an empty one of its own. *)
Definition verses_at (addr : string) (r : Running) : option Verses :=
  if String.eqb addr (Host.listen_addr (host r)) then Some (node_verses r)
  else if existsb (fun x => String.eqb addr (snd x)) (extras (host r)) then Some no_verses
  else None.

Section Groups.
Context `{Crypto, Ecies, HashIter, Bech32, Hex, Keystore.Kdf} (os : Os).

Lemma the_node_fine w id r n w' :
  the_node w = (Fine (id, r, n), w') <-> w' = w /\ node w = Some id /\ nodes w !! id = Some r /\ n = current r w.
Proof using.
  unfold the_node. rewrite bind_get_state, or_else_fine. destruct (node w) as [i|]; cbn; [|naive_solver].
  destruct (nodes w !! i) eqn:E; cbn; naive_solver.
Qed.

Lemma modify_fine f w u w' : modify f w = (Fine u, w') <-> w' = f w.
Proof using. unfold modify. destruct u. naive_solver. Qed.

Lemma save_fine d t w u w' :
  save d t w = (Fine u, w') <-> w' = with_disk (with_databases (<[d := t]> (databases (disk w))) (disk w)) w.
Proof using. unfold save, on_disk. by rewrite modify_fine. Qed.

Lemma put_node_fine id r n w u w' :
  put_node id r n w = (Fine u, w') ->
  node w' = node w /\ tables_in (node_dir r) w' = side_store n /\
  nodes w' = alter (fun r => {| node_dir := node_dir r; host := n; node_verses := node_verses r |}) id (nodes w).
Proof using.
  intros (? & w1 & ->%save_fine & ->%modify_fine)%fine_bind. cbn. unfold tables_in. cbn. by rewrite lookup_insert_eq.
Qed.

Lemma open_side_store_fine d w t w' :
  open_side_store os d w = (Fine t, w') ->
  t = tables_in d w /\ node w' = node w /\ nodes w' = nodes w /\ forall d', tables_in d' w' = tables_in d' w.
Proof using.
  unfold open_side_store. destruct (database_opens _ _); [|done]. intros [= <- <-]. split_and!; [done..|].
  intros d'. unfold tables_in. cbn. destruct (decide (d' = d)) as [->|]; [by rewrite lookup_insert_eq|by rewrite lookup_insert_ne].
Qed.
End Groups.

(** What [create_group] leaves: the verse is registered on the services of the
    primary side, and its invite names the endpoint of the member side. *)
Lemma create_group_leaves `{Crypto, Ecies, HashIter, Bech32, Hex} os d name vm mm fk b c io w resp w' :
  create_group os d name vm mm fk b c io w = (Fine resp, w') ->
  exists id r verse hash member,
    node w' = Some id /\ nodes w' !! id = Some r /\ is_Some (hosted_verses (node_verses r) !! verse) /\
    (exists s, last (extras (host r)) = Some (s, cg_listen_addr resp)) /\
    (exists r0, nodes w !! id = Some r0 /\ node w = Some id /\ Host.listen_addr (host r) = Host.listen_addr (host r0)) /\
    (exists k, verse = ed_public k) /\ (exists x, hash = blake3 x) /\
    b = Some (cg_listen_addr resp) /\
    cg_invite_uri resp = GroupInvite.encode
      {| GroupInvite.verse := verse; GroupInvite.contract_hash := hash; GroupInvite.dial_addr := cg_listen_addr resp;
         GroupInvite.name := Some (trimmed name); GroupInvite.photo_hash := None |} /\
    trimmed name <> ""%string /\ blen (as_bytes (trimmed name)) <= 256 /\
    SideStore.get_verse_membership member verse (tables_in d w') <> None.
Proof.
  unfold create_group. case_bool_decide as Hne; [done|]. destruct (N.ltb_spec 256 (blen (as_bytes (trimmed name)))) as [|Hl]; [done|].
  intros Q. apply fine_bind in Q as ([[id r] n] & w1 & (-> & En & Er & ->)%the_node_fine & Q).
  apply fine_bind in Q as (vs & w1 & [Ev ->]%core_fine & Q). apply fine_bind in Q as (ms & w1 & [Em ->]%core_fine & Q).
  apply fine_bind in Q as (listen & w1 & [-> ->]%or_else_fine & Q).
  apply fine_bind in Q as ([s n] & w1 & Qa & Q). unfold net in Qa. destruct (Host.add_side _ _ _ _ _) as [[s' n']|] eqn:Ea; [|done].
  injection Qa as -> -> <-. apply fine_bind in Q as ([] & w1 & (En1 & Et1 & Er1)%put_node_fine & Q).
  apply fine_bind in Q as (ct & w2 & [Ec ->]%map_err_fine & Q). apply fine_bind in Q as (ck & w2 & [Ek ->]%map_err_fine & Q).
  apply fine_bind in Q as ([] & w2 & ->%modify_fine & Q). apply fine_bind in Q as ([] & w2 & ->%modify_fine & Q).
  apply fine_bind in Q as ([token key] & w2 & [El ->]%map_err_fine & Q).
  apply fine_bind in Q as (t & w2 & (-> & En2 & Er2 & Et2)%open_side_store_fine & Q).
  apply fine_bind in Q as ([] & w3 & ->%save_fine & Q). apply fine_bind in Q as (va & w3 & [Eva ->]%address_fine & Q).
  apply fine_bind in Q as (ma & w3 & [Ema ->]%address_fine & Q). injection Q as <- <-.
  assert (nodes w2 !! id = Some {| node_dir := node_dir r; host := n; node_verses :=
    modify_host (length (heap (node_verses r))) (fun h => snd (add_local_member (public_bytes (derive_side {| master_seed := ms |} ("group-" +:+ trimmed name))) (default 0 c) h)) (host_verse (VerseHost.new (derive_side {| master_seed := vs |} ("verse-" +:+ trimmed name)) ct ck) (node_verses r)) |}) as Er3.
  { rewrite Er2. cbn. rewrite Er1, !lookup_alter_eq, Er. cbn. by rewrite lookup_insert_eq. }
  exists id. eexists. exists (verse_addr (VerseHost.new (derive_side {| master_seed := vs |} ("verse-" +:+ trimmed name)) ct ck)).
  exists (Contract.hash ct), (public_bytes (derive_side {| master_seed := ms |} ("group-" +:+ trimmed name))).
  cbn [node nodes with_disk]. split_and!; [by rewrite En2; cbn; rewrite En1|exact Er3| | | |by eexists|by eexists|reflexivity|reflexivity|done|done|].
  - cbn. rewrite lookup_insert_eq. by eexists.
  - exists s. cbn. unfold Host.add_side in Ea. destruct (load_or_create _ _ _ _ _) as [[s0 t0]|]; [|done].
    injection Ea as <- <-. cbn. by rewrite last_snoc.
  - exists r. split_and!; [done..|]. cbn. unfold Host.add_side in Ea. destruct (load_or_create _ _ _ _ _) as [[s0 t0]|]; [|done].
    by injection Ea as <- <-.
  - unfold tables_in. cbn. rewrite lookup_insert_eq. unfold SideStore.get_verse_membership, SideStore.upsert_verse_membership.
    cbn [default t_memberships set_memberships verse_address]. cbn. by rewrite lookup_insert_eq.
Qed.

(** The endpoint of a further side serves the empty table. *)
Lemma verses_at_extra r s addr :
  last (extras (host r)) = Some (s, addr) -> addr <> Host.listen_addr (host r) -> verses_at addr r = Some no_verses.
Proof.
  intros Hl Hne. unfold verses_at. rewrite (proj2 (String.eqb_neq _ _) Hne).
  assert (existsb (fun x => String.eqb addr (snd x)) (extras (host r)) = true) as ->; [|done].
  apply existsb_exists. exists (s, addr). split; [|apply String.eqb_refl]. apply list_elem_of_In.
  apply last_Some in Hl as [l ->]. apply elem_of_app. right. by left.
Qed.

Lemma open_session_nowhere `{Crypto, HashIterLaws} carries link c :
  open_session carries link c no_verses = (None, [], no_verses).
Proof.
  unfold open_session, no_verses. cbn [hosted_verses].
  pose proof (hiter_perm (∅ : gmap bytes HostId)) as P. rewrite map_to_list_empty in P.
  by apply Permutation_nil_r in P as ->.
Qed.

(** The group [create_group] announces is registered with the services of the
    primary side, while its invite, which parses, names the endpoint of the
    member side, which serves no verse: a session opened there ends at once. *)
Lemma group_invite_leads_nowhere `{CryptoLaws, !Ecies, HashIterLaws, Bech32, Hex} os d name vm mm fk b c io w resp w' :
  create_group os d name vm mm fk b c io w = (Fine resp, w') ->
  utf8_valid (as_bytes (trimmed name)) = true ->
  lp_ok GroupInvite.DIAL_ADDR_MAX (cg_listen_addr resp) -> cg_listen_addr resp <> ""%string ->
  (forall id r, node w = Some id -> nodes w !! id = Some r -> cg_listen_addr resp <> Host.listen_addr (host r)) ->
  exists id r invite,
    node w' = Some id /\ nodes w' !! id = Some r /\
    GroupInvite.parse (cg_invite_uri resp) = Ok invite /\
    is_Some (hosted_verses (node_verses r) !! GroupInvite.verse invite) /\
    verses_at (GroupInvite.dial_addr invite) r = Some no_verses /\
    forall carries link conn, open_session carries link conn no_verses = (None, [], no_verses).
Proof.
  intros (id & r & verse & hash & member & En & Er & Hv & (s & Hl) & (r0 & Er0 & En0 & Ea) & (k & ->) & (x & ->) & _ & Eu & Hne & Hle & _)
    %create_group_leaves Hu Hd Hde Hx.
  exists id, r, {| GroupInvite.verse := ed_public k; GroupInvite.contract_hash := blake3 x;
    GroupInvite.dial_addr := cg_listen_addr resp; GroupInvite.name := Some (trimmed name); GroupInvite.photo_hash := None |}.
  split_and!; [done|done| |exact Hv| |intros; apply open_session_nowhere].
  - rewrite Eu. apply invite_parse_ok. split; [|apply qr_of_uri]. split_and!; cbn; try done.
    + by apply ed_public_length.
    + by apply blake3_length.
    + by intros [= E].
  - apply (verses_at_extra _ s); [exact Hl|]. rewrite Ea. by apply (Hx id).
Qed.

(** ** Messages *)

Section Messages.
Context `{Crypto, Ecies, HashIter, Bech32, Hex, Keystore.Kdf} (os : Os) (base64_decode : string -> option bytes).

Lemma side_command_fine a w id r n pk s w' :
  side_command a w = (Fine (id, r, n, pk, s), w') ->
  w' = w /\ node w = Some id /\ nodes w !! id = Some r /\ n = current r w /\ decode_side_address a = inr pk /\
  side_by_address pk n = Some s.
Proof using.
  intros ([[id' r'] n'] & w1 & (-> & En & Er & ->)%the_node_fine & Q)%fine_bind.
  apply fine_bind in Q as (pk' & w1 & [Ea ->]%lift_fine & Q). apply fine_bind in Q as (s' & w1 & [Es ->]%or_else_fine & Q).
  injection Q as -> -> <- -> -> <-. done.
Qed.

(** The hosted side of the window's address, and its session. *)
Definition speaks (w : App) (from : string) (s : Side) (session : Session) : Prop :=
  exists id r n pk, side_command from w = (Fine (id, r, n, pk, s), w) /\ sessions w !! from = Some session.

Lemma net_fine {A} msg (x : nresult A) w a w' : net msg x w = (Fine a, w') <-> x = NOk a /\ w' = w.
Proof using. unfold net. destruct x; split; intros Q; [injection Q as <- <-; done|by destruct Q as [[= ->] ->]|done|by destruct Q]. Qed.

Lemma send_plaintext_fine from s plain c rnd sent w out w' :
  send_plaintext from s plain c rnd sent w = (Fine out, w') ->
  w' = w /\ exists session, sessions w !! from = Some session /\ send_dm session (keypair s) plain c rnd = NOk out.
Proof using.
  intros (session & w1 & Qs & Q)%fine_bind. unfold session_of in Qs. rewrite bind_get_state in Qs.
  apply or_else_fine in Qs as [Es ->]. apply fine_bind in Q as (o & w1 & [Eo ->]%net_fine & Q).
  apply fine_bind in Q as (u & w1 & [_ ->]%net_fine & Q). injection Q as <- <-. eauto.
Qed.

(** What the window has sent: the payload, and how it is shown to the sender. *)
Inductive window_sent (w : App) (from : string) (c : Clock) (rnd : bytes) (out : bytes) :
  bytes -> string * string * option Reference.t -> Prop :=
| sent_text text sent w' :
  send_dm_live from text c rnd sent w = (Fine out, w') -> sendable text ->
  window_sent w from c rnd out (as_bytes text) ("text"%string, text, None)
| sent_media d kind b64 bs now sent w' resp :
  send_dm_media os base64_decode d from kind b64 c now rnd sent w = (Fine (resp, out), w') -> base64_decode b64 = Some bs ->
  window_sent w from c rnd out
    (DirectMessage.encode (media_message (DirectKind.parse kind) (Reference.new (blake3 bs) (blen bs) (mime_type resp))))
    (kind, ""%string, Some (Reference.new (blake3 bs) (blen bs) (mime_type resp))).

Lemma window_sent_out w from c rnd out plain shown :
  window_sent w from c rnd out plain shown ->
  exists s session, speaks w from s session /\ send_dm session (keypair s) plain c rnd = NOk out.
Proof using.
  intros [text sent w' Q _|d kind b64 bs now sent w' resp Q Eb].
  - unfold send_dm_live in Q. apply fine_bind in Q as ([[[[id r] n] pk] s] & w1 & Qs & Q).
    pose proof Qs as (-> & _)%side_command_fine. apply send_plaintext_fine in Q as (-> & session & Es & Q).
    exists s, session. split; [by exists id, r, n, pk|done].
  - unfold send_dm_media in Q. rewrite Eb in Q. rewrite bind_some in Q.
    apply fine_bind in Q as ([mime k] & w1 & [Ek ->]%lift_fine & Q).
    apply fine_bind in Q as ([[[[id r] n] pk] s] & w1 & Qs & Q). pose proof Qs as (-> & _)%side_command_fine.
    apply fine_bind in Q as (ob & w1 & Qo & Q). unfold open_objects in Qo.
    destruct (store_opens _ _); [|done]. injection Qo as <- <-.
    destruct (Objects.put _ _ _) as [h ob'] eqn:Ep. apply fine_bind in Q as ([] & w1 & Qv & Q).
    apply fine_bind in Q as (o & w2 & Q2 & Q). injection Q as <- <- <-.
    apply send_plaintext_fine in Q2 as (-> & session & Es & Q2).
    apply media_kind_ok in Ek as (Hk & Ekk & _ & _).
    assert (h = blake3 bs) as -> by (unfold Objects.put in Ep; by case_match; injection Ep).
    assert (sessions w1 = sessions w) as Ew by (unfold save_objects, on_disk in Qv; by apply modify_fine in Qv as ->).
    exists s, session. rewrite Ew in Es. split; [by exists id, r, n, pk|].
    assert (DirectKind.parse kind = k) as Ek' by (destruct Hk as [-> | ->]; subst kind; reflexivity).
    cbn [mime_type]. by rewrite Ek'.
Qed.

(** A message as the window has it. *)
Definition shown_as (sender recipient : string) (t : N) (shown : string * string * option Reference.t) : InboxDm := {|
  Desktop.from := sender; Desktop.to := recipient; Desktop.plaintext := shown.1.2; Desktop.received_at := t;
  Desktop.kind := shown.1.1;
  media_hash_hex := (fun r => hex_encode (Reference.hash r)) <$> shown.2;
  media_size := Reference.size <$> shown.2; media_mime := Reference.mime <$> shown.2 |}.

Lemma window_sent_shown `{!CryptoLaws} w from c rnd out plain shown :
  window_sent w from c rnd out plain shown -> decode_dm_plaintext plain = shown.
Proof using.
  intros [text sent w' Q [Hu Hl]|d kind b64 bs now sent w' resp Q Eb]; [apply live_text_shown; [done|unfold isize_max, u64_size in *; lia]|].
  unfold send_dm_media in Q. rewrite Eb in Q. rewrite bind_some in Q.
  apply fine_bind in Q as ([mime k] & w1 & [Ek ->]%lift_fine & Q).
  apply fine_bind in Q as ([[[[id r] n] pk] s] & w1 & _ & Q). apply fine_bind in Q as (ob & w2 & _ & Q).
  destruct (Objects.put _ _ _) as [h ob']. apply fine_bind in Q as ([] & w3 & _ & Q).
  apply fine_bind in Q as (o & w4 & _ & Q). injection Q as <- _ _.
  apply media_kind_ok in Ek as (Hk & -> & Hm & Hl). cbn [mime_type].
  assert (DirectKind.parse (DirectKind.as_str k) = k) as -> by (by destruct Hk as [-> | ->]).
  apply media_message_shown; [done|by apply blake3_length|unfold MEDIA_MAX_BYTES in Hl; unfold u64_size; lia|..].
  - apply elem_of_cons in Hm as [-> |Hm]; [done|]. apply elem_of_cons in Hm as [-> |Hm]; [done|].
    apply elem_of_cons in Hm as [-> |Hm]; [done|]. by apply list_elem_of_singleton in Hm as ->.
  - apply elem_of_cons in Hm as [-> |Hm]; [done|]. apply elem_of_cons in Hm as [-> |Hm]; [done|].
    apply elem_of_cons in Hm as [-> |Hm]; [done|]. by apply list_elem_of_singleton in Hm as ->.
Qed.

Lemma window_sent_text w from c rnd out plain t :
  window_sent w from c rnd out plain ("text"%string, t, None) -> plain = as_bytes t /\ sendable t.
Proof using. intros W. by inversion W. Qed.

(** What the window or [dm send] has sent: the key and the session it went out
    under, the payload, and how it is shown. *)
Inductive message_sent (t1 : N) (rnd out : bytes) :
  SideKey -> Session -> bytes -> string * string * option Reference.t -> Prop :=
| from_window w from s session plain shown :
  window_sent w from (Some t1) rnd out plain shown -> speaks w from s session ->
  message_sent t1 rnd out (keypair s) session plain shown
| from_command sys journal_opens resolve tmp bound io dialled sent path to host text (w w' : World) seed peer l session :
  dm_send sys journal_opens resolve tmp bound (Some t1) io rnd dialled sent path to host text w = (Fine out, w') ->
  holds_file path seed w -> resolve host = Some (peer :: l) -> dialled peer = NOk session -> sendable text ->
  message_sent t1 rnd out (side_from_seed seed "(cli)") session (as_bytes text) ("text"%string, text, None).

Lemma message_sent_out `{!CryptoLaws} t1 rnd out key session plain shown :
  message_sent t1 rnd out key session plain shown ->
  send_dm session key plain (Some t1) rnd = NOk out /\ decode_dm_plaintext plain = shown /\
  forall t, shown = ("text"%string, t, None) -> from_utf8_lossy plain = t.
Proof using.
  intros [w from s session' plain' shown' W (id & r & n & pk & Qs & Es)
         |sys jo resolve tmp bound io dialled sent path to host text w w' seed peer l session' Q Hf Hr Hd [Hu Hl]].
  - destruct (window_sent_out _ _ _ _ _ _ _ W) as (s' & sc & (id' & r' & n' & pk' & Qs' & Es') & Q).
    rewrite Qs in Qs'. injection Qs' as <- <- <- <- <-. rewrite Es in Es'. injection Es' as <-.
    split; [exact Q|]. split; [by eapply window_sent_shown|]. intros t ->. apply window_sent_text in W as [-> [Hu _]].
    by apply from_utf8_lossy_valid.
  - apply dm_send_fine in Q as (seed' & to' & peer' & l' & sc & (f & Ef & Ec) & _ & _ & _ & Hr' & Hd' & Q).
    destruct Hf as (f' & Ef' & Ec'). rewrite Ef in Ef'. injection Ef' as <-. subst seed seed'.
    rewrite Hr in Hr'. injection Hr' as <- <-. rewrite Hd in Hd'. injection Hd' as <-.
    split; [exact Q|]. split; [apply live_text_shown; [done|unfold isize_max, u64_size in *; lia]|].
    intros t [= <-]. by apply from_utf8_lossy_valid.
Qed.

(** The history of a recipient shows the rows of its inbox. *)
Lemma each_fine {A B} (f : A -> D B) l w :
  (forall x, x ∈ l -> exists y, f x w = (Fine y, w)) ->
  exists ys, each f l w = (Fine ys, w) /\ forall x, x ∈ l -> exists y, f x w = (Fine y, w) /\ y ∈ ys.
Proof using.
  induction l as [|x l IH]; intros Hf; [exists []; split; [done|by intros x ?%not_elem_of_nil]|].
  destruct IH as (ys & E & F); [intros; apply Hf; by right|]. destruct (Hf x) as [y Ey]; [by left|].
  exists (y :: ys). split.
  { apply fine_bind. exists y, w. split; [done|]. apply fine_bind. by exists ys, w. }
  intros x' [->|Hx]%elem_of_cons; [exists y; split; [done|by left]|]. destruct (F x' Hx) as (y' & ? & ?).
  exists y'. split; [done|by right].
Qed.

Lemma side_address_fine `{!Bech32Laws} pk (w : App) :
  blen pk = 32 -> exists s, Address.encode (Address.new AddressKind.Side pk) = Some s /\
    Machine.address AddressKind.Side pk w = (Fine s, w).
Proof using.
  intros Hp. destruct (encode_total (Address.new AddressKind.Side pk)) as [s Es]; [done|].
  exists s. split; [done|]. by apply address_fine.
Qed.

Lemma read_entry_fields row e :
  read_entry row = Some e -> blen (Inbox.to e) = 32 /\ blen (Inbox.from e) = 32.
Proof using.
  destruct row as [[[t f] n] r]. unfold read_entry.
  destruct (N.eqb_spec (blen t) 32); [|done]. destruct (N.eqb_spec (blen f) 32); [|done]. by intros [= <-].
Qed.

Lemma history_shows `{!HashIterLaws, !Bech32Laws} w dir sb e encoded :
  inbox_open w = Some dir -> inboxes (disk w) !! dir = Some sb -> wf_entry e -> inbox sb !! key e = Some (row_of e) ->
  decode_side_address encoded = inr (Inbox.to e) ->
  exists l sender recipient, load_inbox_history encoded None w = (Fine l, w) /\
    Address.encode (Address.new AddressKind.Side (Inbox.from e)) = Some sender /\
    Address.encode (Address.new AddressKind.Side (Inbox.to e)) = Some recipient /\
    build_inbox_dm sender recipient (Inbox.plaintext e) (Inbox.received_at e) ∈ l.
Proof using.
  intros Ei Es We Er Ed. unfold load_inbox_history. rewrite bind_get_state, Ei, bind_some, Ed, bind_lift, Es.
  set (es := omap read_entry (merge_sort newer (List.filter (addressed (Inbox.to e)) (hiter (inbox sb))))).
  assert (e ∈ es) as He.
  { apply list_elem_of_omap. exists (key e, row_of e). split; [|by apply read_row_of].
    rewrite merge_sort_Permutation. apply elem_of_addressed. split; [|done]. by apply elem_of_hiter. }
  match goal with |- context [each ?g] => set (f := g) end.
  assert (forall x, x ∈ es -> exists s r, Address.encode (Address.new AddressKind.Side (Inbox.from x)) = Some s /\
    Address.encode (Address.new AddressKind.Side (Inbox.to x)) = Some r /\
    f x w = (Fine (build_inbox_dm s r (Inbox.plaintext x) (Inbox.received_at x)), w)) as Hf.
  { intros x (row & _ & [Ht Hf]%read_entry_fields)%list_elem_of_omap.
    destruct (side_address_fine _ w Hf) as (s & Es1 & Es2). destruct (side_address_fine _ w Ht) as (r & Er1 & Er2).
    exists s, r. split_and!; [done..|]. subst f. apply fine_bind. exists s, w. split; [done|].
    apply fine_bind. by exists r, w. }
  destruct (each_fine f es w) as (ys & Q & F).
  { intros x (s & r & _ & _ & E)%Hf. by eexists. }
  destruct (Hf e He) as (s & r & Es1 & Er1 & Ef). destruct (F e He) as (y & Ey & Hy).
  exists ys, s, r. split_and!; [apply fine_bind; by exists es, w|done|done|]. rewrite Ef in Ey. injection Ey as <-. done.
Qed.
End Messages.

(** ** Properties *)


(** C23: what the window sent, a text or a medium, or the command [dm send], to
    a side that allows its sender and whose gates let the envelope in, is shown
    by the window of the recipient's application as it was: the text, or the
    kind, hash, size and type of the medium, under the addresses of both sides;
    a daemon prints the text; and from then on the history of the recipient
    has the message, over any commands and any number of launches. *)
Theorem message_shown `{HashIterLaws, CryptoLaws, !Ecies, !EciesLaws, Bech32Laws, Hex, Keystore.Kdf} os socket_addr qr_svg
    base64_decode nfc canonicalize t1 rnd out a plain shown sc ss clock ios kn rnd' d dir v t2
    (W : message_sent os base64_decode t1 rnd out a sc plain shown)
    (Ic : intent sc = Intent.Direct) (Is : intent ss = Intent.Direct)
    (Hp : peer_side sc = public_bytes (side (DirectServer.services d)))
    (T1 : t1 < u64_size) (N1 : blen rnd = NONCE_LEN) (T2 : wf_seen t2)
    (A : gates_pass ss clock out (DirectServer.services d))
    (C : capability_allows (public_bytes a) DIRECT_MESSAGE (side_state d) = true)
    (F : inbox (default empty_inbox (inboxes (disk v) !! dir)) !!
           (public_bytes (side (DirectServer.services d)), public_bytes a, rnd) = None) :
  exists e sender recipient v',
    (serve_direct_step ss clock ios kn rnd' out d).1.1 = [DMessage e plain] /\
    Address.encode (Address.new AddressKind.Side (public_bytes a)) = Some sender /\
    Address.encode (Address.new AddressKind.Side (public_bytes (side (DirectServer.services d)))) = Some recipient /\
    drain_dm dir e plain (Some t2) true v = (Fine tt, v') /\
    emitted v' = emitted v ++ [InboxDmEvent (shown_as sender recipient t2 shown)] /\ inbox_open v' = inbox_open v /\
    (forall t (w w' : World), shown = ("text"%string, t, None) ->
       daemon_loop [Dm e plain] w = (Fine false, w') ->
       stdout w' = stdout w ++ [{| format := "[dm from {}…]: {}"; args := [AHex (take 8 (public_bytes a)); AText t] |}]) /\
    forall v2 encoded,
      app_ok v -> rtc (life os socket_addr qr_svg base64_decode nfc canonicalize) v' v2 -> inbox_open v2 = Some dir ->
      decode_side_address encoded = inr (public_bytes (side (DirectServer.services d))) ->
      exists l, load_inbox_history encoded None v2 = (Fine l, v2) /\ shown_as sender recipient t2 shown ∈ l.
Proof.
  destruct (message_sent_out _ _ _ _ _ _ _ _ _ W) as (Q & Esh & Et0).
  pose proof (dm_delivered sc ss a plain t1 rnd out clock ios kn rnd' d Ic Is Hp T1 N1 Q A C) as Dd.
  destruct (serve_direct_step _ _ _ _ _ _ _) as [[events d'] res]. destruct Dd as (e & -> & Ef & Et & En & _).
  destruct (side_address_fine (public_bytes a) v) as (sender & E1 & F1); [by apply ed_public_length|].
  destruct (side_address_fine (public_bytes (side (DirectServer.services d))) v) as (recipient & E2 & F2); [by apply ed_public_length|].
  set (row := {| Inbox.to := public_bytes (side (DirectServer.services d)); Inbox.from := public_bytes a; Inbox.nonce := rnd;
    Inbox.wire_envelope := to_wire_bytes e; Inbox.plaintext := plain; Inbox.received_at := t2 |}).
  assert (build_inbox_dm sender recipient plain t2 = shown_as sender recipient t2 shown) as Eb.
  { unfold build_inbox_dm. rewrite Esh. by destruct shown as [[]]. }
  set (sb := default empty_inbox (inboxes (disk v) !! dir)) in *.
  set (v' := with_emitted (emitted v ++ [InboxDmEvent (shown_as sender recipient t2 shown)])
    (with_disk (with_inboxes (<[dir := Inbox.insert true row sb]> (inboxes (disk v))) (disk v)) v)).
  assert (drain_dm dir e plain (Some t2) true v = (Fine tt, v')) as Qd.
  { unfold drain_dm. rewrite Ef, Et, En. apply fine_bind. exists sender, v. split; [exact F1|].
    apply fine_bind. exists recipient, v. split; [exact F2|]. unfold v'. rewrite <-Eb. reflexivity. }
  exists e, sender, recipient, v'. split_and!; [done|done|done|exact Qd|done|done| |].
  { intros t w w' Es Ql. cbn in Ql. injection Ql as <-. cbn. by rewrite Ef, (Et0 t Es). }
  intros v2 encoded Ov R Ei Ed.
  assert (app_ok v') as Ov'.
  { replace v' with (snd (drain_dm dir e plain (Some t2) true v)) by (by rewrite Qd).
    apply (step_evolves os socket_addr qr_svg base64_decode nfc canonicalize v); [|done]. constructor. constructor. }
  destruct (life_grows _ _ _ _ _ _ _ _ Ov' R) as [_ G].
  destruct (G dir (Inbox.insert true row sb)) as (sb2 & Es2 & Sub); [cbn; by rewrite lookup_insert_eq|].
  destruct (history_shows v2 dir sb2 row encoded Ei Es2) as (l & s1 & r1 & Ql & Ea1 & Ea2 & Hl).
  - split_and!; [by apply ed_public_length..|done].
  - eapply lookup_weaken; [|exact Sub]. cbn. unfold SideStore.insert_or_ignore.
    rewrite (F : inbox sb !! key row = None). by rewrite lookup_insert_eq.
  - done.
  - exists l. split; [done|]. cbn in Ea1, Ea2. rewrite E1 in Ea1. rewrite E2 in Ea2. injection Ea1 as <-. injection Ea2 as <-.
    cbn in Hl. by rewrite Eb in Hl.
Qed.

(** ** Concrete instances *)

Module ShellExamples.
Import Toy ToyEcies ToyIter AddressExamples HexExamples Keystore.KeystoreExamples NodeExamples DirectExamples.

Definition machine : System := {|
  write_outcome := fun _ => Written; chmod_works := fun _ => true; new_mode := 0x1A4;
  database_opens := fun _ => true; store_opens := fun _ => true |}.

Definition os : Os := {|
  sys := machine; creates_dir := fun _ => true; new_dir_mode := 0x1ED; removes := fun _ => true; stats := fun _ => true;
  journal_opens := fun _ => true; inbox_opens := fun _ => true |}.

(** Stands for a base64 decoder. *)
Definition plain (s : string) : option bytes := Some (as_bytes s).

Definition blank : Disk := {| databases := ∅; inboxes := ∅; stores := ∅; files := ∅; dirs := ∅ |}.

(** Alice, with a session to the side of [ds]; and Bob, whose node is that of
    [ds]. *)
Definition start (dir addr : string) : D NodeInfo :=
  start_node os dir "" (Ok (replicate 32 Byte.x0a)) (Some addr) (Some now0) io_ok.
Definition started : App := (start "alice" "127.0.0.1:1" (launched blank)).2.
Definition alice_info : NodeInfo :=
  match (start "alice" "127.0.0.1:1" (launched blank)).1 with
  | Fine i => i
  | _ => {| side_address := ""; side_address_hex := ""; listen := "" |}
  end.
Definition from_alice : string := side_address alice_info.
Definition alice : App := (connect_peer Some from_alice "127.0.0.1:9" (fun _ => NOk (direct own)) started).2.
Definition alice_side : Side :=
  match (side_command from_alice alice).1 with Fine (_, _, _, _, s) => s | _ => fresh Toy.side None 0 end.
Definition letter : bytes :=
  match (send_dm_live from_alice "hello" (Some now0) nonce1 (fun _ => NOk tt) alice).1 with Fine out => out | _ => [] end.

Definition bob : App := (start "bob" "127.0.0.1:9" (launched blank)).2.
Definition bob_address : string := default ""%string (Address.encode (Address.new AddressKind.Side own)).


Lemma message_shown_witness :
  exists e sender recipient v' l,
    (serve_direct_step (direct (public_bytes (keypair alice_side))) clk no_io nonce1 nonce2 letter ds).1.1
      = [DMessage e (as_bytes "hello")] /\
    drain_dm "bob" e (as_bytes "hello") (Some now0) true bob = (Fine tt, v') /\
    emitted v' = [InboxDmEvent (shown_as sender recipient now0 ("text", "hello", None)%string)] /\
    load_inbox_history bob_address None v' = (Fine l, v') /\
    shown_as sender recipient now0 ("text", "hello", None)%string ∈ l.
Proof.
  destruct (message_shown os Some Some plain (fun s => s) Some now0 nonce1 letter (keypair alice_side) (as_bytes "hello")
    ("text", "hello", None)%string (direct own) (direct (public_bytes (keypair alice_side))) clk no_io nonce1 nonce2 ds
    "bob" bob now0) as (e & sender & recipient & v' & E1 & E2 & E3 & E4 & E5 & E6 & _ & E7).
  - apply (from_window _ _ _ _ _ alice from_alice).
    2: eexists 0%nat, _, _, _; split; vm_compute; reflexivity.
    apply (sent_text _ _ _ _ _ _ _ "hello" (fun _ => NOk tt) alice); [vm_compute; reflexivity|].
    split; [reflexivity|by vm_compute].
  - reflexivity.
  - reflexivity.
  - vm_compute; reflexivity.
  - by vm_compute.
  - reflexivity.
  - by vm_compute.
  - apply gates_pass_compute; vm_compute; reflexivity.
  - vm_compute; reflexivity.
  - vm_compute; reflexivity.
  - destruct (E7 v' bob_address) as (l & E8 & E9).
    + unfold bob. apply (start_evolves os "bob" "" (Ok (replicate 32 Byte.x0a)) (Some "127.0.0.1:9")%string (Some now0) io_ok), launched_ok.
    + apply rtc_refl.
    + rewrite E6. vm_compute; reflexivity.
    + vm_compute; reflexivity.
    + exists e, sender, recipient, v', l. split; [exact E1|]. split; [exact E4|]. split; [exact E5|]. by split.
Defined.

End ShellExamples.
