(* ===== verification/MediaFacts.v ===== *)
(** Theorems about media and seed backups of the desktop: a medium that was
    sent is fetched from its sender, and what a backup holds. *)

From S2P Require Import Prelude Containers Utf8 Cbor Str Address Machine Desktop DesktopFacts Keys Envelope Payload Direct Keystore Replay Reputation NetTables Session Storage Node NodeFacts SideStore SideState Inbox DirectServer DirectFacts Host VerseHost Cli CliFacts Shell Commands ShellFacts.

Open Scope N_scope.

(** ** Files *)

Lemma bind_fine {A B} (m : D A) (k : A -> D B) w a w1 : m w = (Fine a, w1) -> (m ≫= k) w = k a w1.
Proof. intros E. unfold mbind, m_bind. by rewrite E. Qed.

Lemma bind_failed {A B} (m : D A) (k : A -> D B) w f w1 : m w = (Failed f, w1) -> (m ≫= k) w = (Failed f, w1).
Proof. intros E. unfold mbind, m_bind. by rewrite E. Qed.

(** The cache of media takes a new file at [path]. *)
Record cache_ready (os : Os) (dir path : string) (v : App) : Prop := {
  cr_dir : creates_dir os (path_join dir MEDIA_CACHE_SUBDIR) = true;
  cr_mode : chmod_works (sys os) (path_join dir MEDIA_CACHE_SUBDIR) = true;
  cr_stat : stats os path = true;
  cr_absent : files (disk v) !! path = None;
  cr_store : store_opens (sys os) dir = true;
  cr_write : write_outcome (sys os) path = Written;
  cr_file : chmod_works (sys os) path = true
}.

Section Media.
Context `{CryptoLaws, !Ecies, HashIter, Bech32, HexLaws, Keystore.Kdf} (os : Os) (socket_addr : string -> option string).

(** The same but for directories and object stores. *)
Definition same_but_objects (v v' : App) : Prop :=
  node v' = node v /\ nodes v' = nodes v /\ files (disk v') = files (disk v) /\ databases (disk v') = databases (disk v).

Lemma write_private_ready msg path bs v :
  write_outcome (sys os) path = Written -> chmod_works (sys os) path = true ->
  exists v', write_private os msg path bs v = (Fine tt, v') /\
    files (disk v') !! path = Some {| content := bs; mode := OWNER_RW |}.
Proof using.
  intros Ew Em. unfold write_private. rewrite Em.
  eexists. split.
  - unfold mbind, m_bind. cbn. unfold Machine.write. rewrite Ew. reflexivity.
  - cbn. unfold set_mode, Machine.put. by rewrite lookup_alter_eq, lookup_insert_eq.
Qed.

(** Up to the look-up in the object store. *)
Lemma fetch_media_looks_up dir h addr from clock now rnd dialled peer v :
  blen h = 32 -> cache_ready os dir (cache_path dir h) v ->
  exists v1, same_but_objects v v1 /\
  let '(res, objects) := Objects.get h now (default Objects.open (stores (disk v) !! dir)) in
  let v2 := with_disk (with_stores (<[dir := objects]> (stores (disk v1))) (disk v1)) v1 in
  (forall bs, res = SOk (Some bs) ->
     fetch_media os socket_addr dir (hex_encode h) addr from clock now rnd dialled peer v =
     (_ ← write_private os "media cache write: {e}" (cache_path dir h) bs; mret (cache_path dir h)) v2) /\
  (forall a dial f pk id r n s session,
     res = SOk None -> addr = Some a -> socket_addr a = Some dial -> from = Some f -> 
     side_command f v2 = (Fine (id, r, n, pk, s), v2) -> dialled dial = NOk session ->
     fetch_media os socket_addr dir (hex_encode h) addr from clock now rnd dialled peer v =
     (answer ← exchange "fetch object: {e}" (fetch_request session (keypair s) h clock rnd) peer (fetch_finish h);
      bs ← or_else "peer reports object missing" answer;
      _ ← write_private os "media cache write: {e}" (cache_path dir h) bs;
      mret (cache_path dir h)) v2).
Proof using All.
  intros Hh [C1 C2 C3 C4 C5 C6 C7].
  set (v1 := with_disk (with_dirs (<[path_join dir MEDIA_CACHE_SUBDIR := 0x1C0]>
    (<[path_join dir MEDIA_CACHE_SUBDIR := default (new_dir_mode os) (dirs (disk v) !! path_join dir MEDIA_CACHE_SUBDIR)]>
      (dirs (disk v)))) (disk v)) v).
  exists v1. split; [by repeat split|].
  assert (private_dir os "media cache dir: {e}" (path_join dir MEDIA_CACHE_SUBDIR) v = (Fine tt, v1)) as Ed.
  { unfold private_dir, create_dir_all, set_dir_mode. rewrite C1, C2. reflexivity. }
  assert (exists_file os "stat: {e}" (cache_path dir h) v1 = (Fine false, v1)) as Ex.
  { unfold exists_file. rewrite C3. cbn. rewrite C4. done. }
  assert (open_objects os "object store: {e}" dir v1 = (Fine (default Objects.open (stores (disk v) !! dir)), v1)) as Eo.
  { unfold open_objects. by rewrite C5. }
  destruct (Objects.get h now _) as [res objects] eqn:Eg. cbn zeta.
  set (v2 := with_disk (with_stores (<[dir := objects]> (stores (disk v1))) (disk v1)) v1).
  assert (save_objects dir objects v1 = (Fine tt, v2)) as Es by reflexivity.
  split.
  - intros bs ->. unfold fetch_media. rewrite trimmed_hex, hex_roundtrip, bind_some, (proj2 (N.eqb_eq _ _) Hh). cbn [negb].
    rewrite (bind_fine _ _ _ _ _ Ed), (bind_fine _ _ _ _ _ Ex), (bind_fine _ _ _ _ _ Eo), Eg.
    by rewrite (bind_fine _ _ _ _ _ Es), prog_ret.
  - intros a dial f pk id r n s session -> -> Ea -> (_ & En & Er & -> & Ef & Eh)%side_command_fine Ec. unfold fetch_media.
    rewrite trimmed_hex, hex_roundtrip, bind_some, (proj2 (N.eqb_eq _ _) Hh). cbn [negb].
    rewrite (bind_fine _ _ _ _ _ Ed), (bind_fine _ _ _ _ _ Ex), (bind_fine _ _ _ _ _ Eo), Eg.
    rewrite (bind_fine _ _ _ _ _ Es), prog_ret, (bind_fine _ _ _ (id, r, current r v2) v2) by (by apply the_node_fine).
    rewrite bind_some, Ea, bind_some, bind_some, Ef, bind_lift. unfold the_side. rewrite Eh, bind_some, Ec.
    rewrite (bind_fine _ _ _ session v2) by reflexivity. done.
Qed.

Lemma side_command_same f x v v' :
  same_but_objects v v' -> side_command f v = (Fine x, v) -> side_command f v' = (Fine x, v').
Proof using.
  intros (En & Ens & _ & Ed). destruct x as [[[[id r] n] pk] s]. intros (_ & E1 & E2 & -> & E3 & E4)%side_command_fine.
  unfold side_command. rewrite (bind_fine _ _ _ (id, r, current r v) v').
  - rewrite E3, bind_lift. unfold the_side. by rewrite E4, bind_some.
  - apply the_node_fine. rewrite En, Ens. split_and!; [done..|]. unfold current, tables_in. by rewrite Ed.
Qed.

(** What sending a medium leaves in the sender's object store. *)
Lemma sent_media_stored (b64 : string -> option bytes) dir from kind data c now rnd sent w resp out w' bs :
  send_dm_media os b64 dir from kind data c now rnd sent w = (Fine (resp, out), w') -> b64 data = Some bs ->
  stores (disk w') !! dir = Some (Objects.put bs now (default Objects.open (stores (disk w) !! dir))).2 /\
  hash_hex resp = hex_encode (blake3 bs) /\ 0 < blen bs <= MEDIA_MAX_BYTES.
Proof using.
  intros Q Eb. unfold send_dm_media in Q. rewrite Eb, bind_some in Q.
  apply fine_bind in Q as ([mime k] & w1 & [Ek ->]%lift_fine & Q).
  apply fine_bind in Q as ([[[[id r] n] pk] s] & w1 & Qs & Q). pose proof Qs as (-> & _)%side_command_fine.
  apply fine_bind in Q as (ob & w1 & Qo & Q). unfold open_objects in Qo.
  destruct (store_opens _ _); [|done]. injection Qo as <- <-.
  destruct (Objects.put _ _ _) as [h ob'] eqn:Ep. apply fine_bind in Q as ([] & w1 & Qv & Q).
  apply fine_bind in Q as (o & w2 & Q2 & Q). injection Q as <- _ <-.
  apply send_plaintext_fine in Q2 as (-> & _).
  apply media_kind_ok in Ek as (_ & _ & _ & Hl).
  assert (h = blake3 bs) as -> by (unfold Objects.put in Ep; by case_match; injection Ep).
  unfold save_objects, on_disk in Qv. apply modify_fine in Qv as ->. cbn. by rewrite lookup_insert_eq.
Qed.
End Media.

(** The bytes a storage server writes for a request. *)
Definition written (out : list Effect) : bytes := flat_map (fun o => match o with Write w => w | _ => [] end) out.

Definition served `{HashIter, Crypto} (ss : Session) (clock : Clock) (nonce : bytes) (s : Services) (req : bytes)
    : nresult bytes :=
  NOk (written (serve_storage_step ss clock nonce req s).1.1).

(** ** Backups *)

(** A backup that was written is a new component below the backups of the real
    data directory, with a name that passes the checks, for its owner only, and
    the daemon reads the seed of the primary side from it under the passphrase. *)
Lemma backup_opens `{CryptoLaws, !Ecies, !EciesLaws, HashIter, Bech32, Hex, Keystore.Kdf} os nfc canonicalize dir filename
    passphrase salt nonce w path w' :
  write_seed_backup os nfc canonicalize dir filename passphrase salt nonce w = (Fine path, w') ->
  blen salt = Keystore.SALT_LEN -> blen nonce = AEAD_NONCE_LEN ->
  exists id r root f,
    node w = Some id /\ nodes w !! id = Some r /\ canonicalize dir = Some root /\
    safe_name nfc (as_bytes (trimmed filename)) /\
    components path = components root ++ [as_bytes BACKUP_SUBDIR; as_bytes (trimmed filename)] /\
    files (disk w') !! path = Some f /\ mode f = OWNER_RW /\
    (blen (signing (keypair (primary (host r)))) = SECRET_KEY_LEN -> blen (content f) < u64_size ->
     parse_seed_bytes (content f) (Some passphrase) = inr (signing (keypair (primary (host r))))).
Proof.
  intros Q Hs Hn. unfold write_seed_backup in Q. case_bool_decide as Hp; [done|]. rewrite bind_get_state in Q.
  apply fine_bind in Q as (n & w1 & [En ->]%or_else_fine & Q).
  destruct (node w) as [id|] eqn:Eid; [|done]. cbn in En. destruct (nodes w !! id) as [r|] eqn:Er; [|done].
  injection En as <-. apply fine_bind in Q as (p & w1 & [Ep ->]%lift_fine & Q).
  apply fine_bind in Q as (bd & w1 & [_ ->]%or_else_fine & Q). apply fine_bind in Q as ([] & w1 & _ & Q).
  apply fine_bind in Q as (sealed & w2 & [Es ->]%map_err_fine & Q). apply fine_bind in Q as ([] & w2 & Qw & Q).
  injection Q as <- <-. apply safe_backup_path_ok in Ep as (Sn & root & Er' & Epath).
  assert (files (disk w2) !! p = Some {| content := sealed; mode := OWNER_RW |}) as Ef.
  { unfold write_private in Qw. apply fine_bind in Qw as ([] & w3 & Q3 & Qw). destruct (Machine.write _ _ _ _) as [[] fs] eqn:Ew; [|done].
    injection Q3 as <-. destruct (chmod_works _ _); [|done]. apply modify_fine in Qw as ->. cbn.
    unfold Machine.write in Ew. destruct (write_outcome _ _); [|done..]. injection Ew as <-.
    unfold set_mode, Machine.put. by rewrite lookup_alter_eq, lookup_insert_eq. }
  exists id, r, root, {| content := sealed; mode := OWNER_RW |}. split_and!; [done..| |exact Ef|done|].
  - rewrite Epath, !components_join; [by rewrite <-app_assoc|done| | |].
    + apply (bool_decide_unpack _). vm_compute. exact I.
    + intros E. destruct Sn as [Sl _]. rewrite E in Sl. cbn in Sl. unfold blen in Sl. cbn in Sl. lia.
    + intros Hc. destruct Sn as [_ Sc]. apply (Sc Byte.x2f Hc). by left.
  - intros Hl F. cbn [content]. eapply seed_file_opens; [exact Es|done|done|done|done| |done].
    by repeat split; vm_compute.
Qed.

(** ** Properties *)

(** C26: a medium the window sent is there for its sender at any size; whom it
    was sent to fetches it from the sender's node, by the hash the message
    shows, into a cache file for its owner only, byte for byte, if it has at
    most 65000 bytes.  A medium of more than 64 KiB, which the window sends up
    to 10 MiB of, can not be fetched: the command fails and nothing is cached. *)
Theorem media_fetched `{CryptoLaws, !Ecies, HashIter, Bech32, HexLaws, Keystore.Kdf} os socket_addr b64 dir from kind data c now
    rnd sent w resp out w' bs os2 dir2 v a dial f id r n pk s sc ss t1 n1 t2 n2 now2 req sv
    (Q : send_dm_media os b64 dir from kind data c now rnd sent w = (Fine (resp, out), w')) (Eb : b64 data = Some bs)
    (Cs : ObjectsFacts.consistent (default Objects.open (stores (disk w) !! dir)))
    (Fi : ObjectsFacts.fits_in (default Objects.open (stores (disk w) !! dir)) bs)
    (St : store sv = default Objects.open (stores (disk w') !! dir))
    (R : cache_ready os2 dir2 (cache_path dir2 (blake3 bs)) v)
    (Ms : Objects.rows (default Objects.open (stores (disk v) !! dir2)) !! blake3 bs = None)
    (Sp : side_command f v = (Fine (id, r, n, pk, s), v)) (Ea : socket_addr a = Some dial)
    (Ic : intent sc = Intent.Storage) (Is : intent ss = Intent.Storage) (Hp : blen (peer_side sc) = PUBLIC_KEY_LEN)
    (T1 : t1 < u64_size) (N1 : blen n1 = NONCE_LEN) (T2 : t2 < u64_size) (N2 : blen n2 = NONCE_LEN)
    (Qf : fetch_request sc (keypair s) (blake3 bs) (Some t1) n1 = NOk req)
    (A : admitted (EStorage ss (Some t2) n2 req) sv = true) :
  let fetch := fetch_media os2 socket_addr dir2 (hash_hex resp) (Some a) (Some f) (Some t1) now2 n1
                 (fun addr => if String.eqb addr dial then NOk sc else NErr ReadExact) (served ss (Some t2) n2 sv) v in
  let path := cache_path dir2 (blake3 bs) in
  (blen bs <= 65000 -> exists v', fetch = (Fine path, v') /\
     files (disk v') !! path = Some {| content := bs; mode := OWNER_RW |}) /\
  (MAX_ENVELOPE_LEN < blen bs -> exists v', fetch = (Failed (Anyhow "fetch object: {e}"), v') /\
     files (disk v') !! path = None) /\
  (forall addr from' clock now' rnd' dialled peer,
     cache_ready os dir (cache_path dir (blake3 bs)) w' ->
     exists w2, fetch_media os socket_addr dir (hash_hex resp) addr from' clock now' rnd' dialled peer w'
         = (Fine (cache_path dir (blake3 bs)), w2) /\
       files (disk w2) !! cache_path dir (blake3 bs) = Some {| content := bs; mode := OWNER_RW |}).
Proof.
  intros fetch path. destruct (sent_media_stored os b64 _ _ _ _ _ _ _ _ _ _ _ _ _ Q Eb) as (Es & Eh & _).
  assert (blen (blake3 bs) = 32) as Hh by apply blake3_length.
  assert (ObjectsFacts.content (store sv) (blake3 bs) = Some bs) as Ct.
  { rewrite St, Es. change (ObjectsFacts.content (Objects.put bs now (default Objects.open (stores (disk w) !! dir))).2 (blake3 bs)
      = Some bs). rewrite ObjectsFacts.content_put by done. by rewrite decide_True. }
  pose proof (fetch_served sc ss (keypair s) (blake3 bs) t1 n1 t2 n2 req sv Ic Is Hh Hp T1 N1 T2 N2 Qf A) as [Af _].
  destruct (Af bs Ct eq_refl) as [Small Large]. clear Af.
  assert (Objects.get (blake3 bs) now2 (default Objects.open (stores (disk v) !! dir2))
    = (SOk None, default Objects.open (stores (disk v) !! dir2))) as Eg by (unfold Objects.get; by rewrite Ms).
  assert (exists v2, same_but_objects v v2 /\ fetch =
    (answer ← net "fetch object: {e}" (answer ← served ss (Some t2) n2 sv req; fetch_finish (blake3 bs) answer);
      bs ← or_else "peer reports object missing" answer;
      _ ← write_private os2 "media cache write: {e}" path bs; mret path) v2) as (v2 & S2 & Ef).
  { destruct (fetch_media_looks_up os2 socket_addr dir2 (blake3 bs) (Some a) (Some f) (Some t1) now2 n1
      (fun addr => if String.eqb addr dial then NOk sc else NErr ReadExact) (served ss (Some t2) n2 sv) v Hh R) as (v1 & S1 & Qv).
    rewrite Eg in Qv. destruct Qv as [_ Qv].
    set (v2 := with_disk _ v1) in Qv. assert (same_but_objects v v2) as S2 by (destruct S1 as (?&?&?&?); by repeat split).
    exists v2. split; [exact S2|]. subst fetch. rewrite Eh.
    erewrite Qv; [|done..| |by rewrite String.eqb_refl]; [|by apply (side_command_same f _ v)].
    unfold exchange. rewrite Qf. reflexivity. }
  split_and!.
  - intros Hl. destruct (Small Hl) as (wr & Ew & _ & Efin). unfold served in Ef. rewrite Ew in Ef. cbn [written flat_map] in Ef.
    rewrite app_nil_r in Ef. cbn [mbind nresult_bind] in Ef. rewrite Efin in Ef.
    destruct (write_private_ready os2 "media cache write: {e}" path bs v2) as (v' & Qw & Fw); [apply R..|].
    exists v'. split; [|done]. rewrite Ef. rewrite (bind_fine _ _ _ (Some bs) v2) by reflexivity. rewrite bind_some.
    by rewrite (bind_fine _ _ _ _ _ Qw).
  - intros Hl. destruct (Large Hl) as (Ew & _). unfold served in Ef. rewrite Ew in Ef. cbn [written flat_map] in Ef.
    exists v2. split; [exact Ef|]. destruct S2 as (_ & _ & -> & _). apply R.
  - intros addr from' clock now' rnd' dialled peer R'.
    destruct (fetch_media_looks_up os socket_addr dir (blake3 bs) addr from' clock now' rnd' dialled peer w' Hh R') as (v1 & S1 & Qv).
    rewrite <-St in Qv. rewrite (ObjectsFacts.content_get _ now' _ bs Ct eq_refl) in Qv. destruct Qv as [Qv _].
    rewrite Eh, (Qv bs eq_refl).
    match goal with |- context [(write_private _ _ _ _ ≫= _) ?v] =>
      destruct (write_private_ready os "media cache write: {e}" (cache_path dir (blake3 bs)) bs v) as (v' & Qw & Fw); [apply R'..|] end.
    exists v'. split; [|done]. by rewrite (bind_fine _ _ _ _ _ Qw).
Qed.

(** ** Concrete instances *)

Module MediaExamples.
Import Toy ToyEcies ToyIter AddressExamples HexExamples Keystore.KeystoreExamples NodeExamples DirectExamples ShellExamples.

Definition photo : bytes := [Byte.xff; Byte.xd8; Byte.xff; Byte.xe0; Byte.x01].

Definition sending := send_dm_media os plain "alice" from_alice "image" (of_bytes photo) (Some now0) now0 nonce1 (fun _ => NOk tt) alice.
Definition sent_photo : MediaSendResp * bytes :=
  match sending.1 with Fine x => x | _ => ({| hash_hex := ""; media_bytes := 0; mime_type := "" |}, []) end.
Definition alice' : App := sending.2.

(** Alice's node, with the object store of her directory; and Bob's side. *)
Definition alice_services : Services := {|
  Node.side := keypair alice_side; store := default Objects.open (stores (disk alice') !! "alice"%string);
  Node.replay := Replay.new; peers := Peers.new 256; mailbox := ∅; gossip := Gossip.new;
  active_gossip := ∅; reputation := Reputation.new Reputation.default_policy; provenance := ∅; gossip_policy := Open;
  Node.relationships := ∅; metrics := Metrics.new |}.
Definition bob_info : NodeInfo :=
  match (start "bob" "127.0.0.1:9" (launched blank)).1 with
  | Fine i => i
  | _ => {| side_address := ""; side_address_hex := ""; listen := "" |}
  end.
Definition bob_side : SideState.Side :=
  match (side_command (side_address bob_info) bob).1 with Fine (_, _, _, _, s) => s | _ => SideState.fresh Toy.side None 0 end.
Definition storage (peer : bytes) : Session :=
  {| session_key := []; peer_side := peer; intent := Intent.Storage; peer_capabilities := ∅ |}.
Definition to_alice : Session := storage (public_bytes (keypair alice_side)).
Definition from_bob : Session := storage (public_bytes (keypair bob_side)).
Definition asked : bytes := sent (fetch_request to_alice (keypair bob_side) (blake3 photo) (Some now0) nonce1).

Lemma media_fetched_witness :
  exists v', fetch_media os Some "bob" (hash_hex sent_photo.1) (Some "127.0.0.1:1"%string) (Some (side_address bob_info)) (Some now0)
      now0 nonce1 (fun addr => if String.eqb addr "127.0.0.1:1" then NOk to_alice else NErr ReadExact)
      (served from_bob (Some now0) nonce2 alice_services) bob = (Fine (cache_path "bob" (blake3 photo)), v') /\
    files (disk v') !! cache_path "bob" (blake3 photo) = Some {| content := photo; mode := OWNER_RW |}.
Proof.
  refine (proj1 (media_fetched os Some plain "alice" from_alice "image" (of_bytes photo) (Some now0) now0 nonce1 (fun _ => NOk tt) alice
    sent_photo.1 sent_photo.2 alice' photo os "bob" bob "127.0.0.1:1" "127.0.0.1:1" (side_address bob_info) 0%nat _ _ _ bob_side
    to_alice from_bob now0 nonce1 now0 nonce2 now0 asked alice_services _ _ _ _ _ _ _ _ _ _ _ _ _ _ _ _ _ _) _).
  1: vm_compute; reflexivity.
  1: reflexivity.
  1: intros h [? [=]].
  1: intros b [=].
  1: reflexivity.
  1: split; vm_compute; reflexivity.
  1: vm_compute; reflexivity.
  1: vm_compute; reflexivity.
  all: vm_compute; try reflexivity; discriminate.
Defined.

End MediaExamples.
